(* ===== verification/_CoqProject ===== *)
-Q . S2P
Prelude.v
VtTables.v
VtParse.v
VtParseProps.v
Color.v
CsiTypes.v
CsiParse.v
CsiProps.v
CsiRoundTrip.v
CsiCompose.v
BinTree.v
RangeSet.v
Base91.v
CallMonad.v
Post.v
Lfu.v
LfuProps.v
Codec.v
CodecProps.v
TermSize.v
PaneTree.v
Tab.v
TabWalk.v
TabProps.v
TabSplit.v
TabRemove.v
TabFaults.v
TabSync.v
Window.v
WindowProps.v
Mux.v
MuxProps.v
CharWidth.v
Cell.v
CellProps.v
Line.v
LineProps.v
LineEdit.v
LineSafe.v
LineText.v
TermTypes.v
Esc.v
Screen.v
ScreenProps.v
ScreenSafe.v
Terminal.v
TermPerform.v
TermHost.v
TermSafe.v
TermBytes.v
TermAlt.v
TermPrint.v
TermFaults.v
Keyboard.v
KeyboardProps.v
Mouse.v
MouseProps.v
