(* ===== verification/Prelude.v ===== *)
(** * wakterm: a verification development of its terminal core

    wakterm is a terminal emulator and multiplexer. Bytes from a program
    go through [vtparse] (a table-driven state machine), whose dispatches the
    escape parser turns into typed actions; the terminal model applies the
    actions; the multiplexer arranges terminals in tabs as trees of panes.
    This development models the parts of that core that are pure computation,
    each definition translated from the source, and proves what they promise.

    ** Files

    - [Prelude] (this file): notations, Rust's integers, slices and panics,
      decimal and UTF-8 text, tactics and hints, generic lemmas.
    - [VtTables]: [src/vtparse/src/enums.rs] and [transitions.rs], the states, the
      actions and the transition tables, packed in 16-bit words as in the code.
    - [VtParse]: [src/vtparse/src/lib.rs]: [OscState], [VTParser] with its arrays and
      counters, every [VTParser] method, and the byte loop. The UTF-8 decoder is the
      third-party crate utf8parse: the class [Utf8Parse] with the laws
      [Utf8ParseLaws], and one instance that the witnesses run.
    - [VtParseProps]: the parser's invariant [vt_wf] and its theorems.
    - [Color]: the colours the sequences carry (escape-parser [color.rs], [color-types]),
      with binary32 arithmetic, and the class [CEnum] of enums with numbers.
    - [CsiTypes]: the data of [src/wakterm-escape-parser/src/csi.rs] and its [Display]
      implementations, with [OneBased] of [lib.rs].
    - [CsiParse]: [CSIParser] of the same file: every handler, [parse_next], the iterator
      and [CSI::parse], in a state and error monad whose [None] is a panic.
    - [CsiProps]: what a handler may do ([pm_ok]); totality of [CSI::parse].
    - [CsiRoundTrip]: each value written by [Display] is read back.
    - [CsiCompose]: sequences of several actions, the spellings of colours, and
      two deviations.
    - [BinTree]: [src/bintree/src/lib.rs], a zipper over binary trees: the container of
      the panes of a tab.
    - [RangeSet]: [src/rangeset/src/lib.rs], sets of integers as lists of ranges.
    - [Base91]: [src/base91/src/lib.rs], the codec.
    - [CallMonad]: the monad of code that changes a state, may panic and calls other
      code: its trace is the list of the calls, in order. [Post]: postconditions
      of such computations that include that they return.
    - [Lfu]: [src/lfucache/src/lib.rs]: entries in a store, shared by hash buckets, a tree by
      frequency and a list by recency (the crate intrusive_collections, the class
      [Intrusive]); [LfuProps]: its invariant and its operations.
    - [Codec]: the frames and the kinds of messages of [src/codec/src/lib.rs], over the classes
      [Leb128] and [Serde]; [CodecProps]: whole messages, messages in pieces.
    - [TermSize]: [TerminalSize], shared by panes and screens.
    - [PaneTree]: the tree functions of [src/mux/src/tab.rs] (sizes, constraints,
      reconciliation, splits), their reference layout, and the lemmas about them.
    - [Tab]: [TabInner] of the same file as a record, and every method of it, with the
      panes, the mux and the configuration as the class [TabEnv].
    - [TabWalk]: what a loop over the zipper of a tree does, once for every body.
    - [TabProps], [TabSplit], [TabRemove], [TabFaults]: the theorems on tabs.
    - [TabSync]: the tree of panes as the server sends it and the client rebuilds it
      ([codec_pane_tree], [sync_with_pane_tree]), and that the client mirrors the server.
    - [Window]: [src/mux/src/window.rs], the tabs of a window, their order and which are
      parked; [WindowProps]: its invariant over every operation, orders, parking.
    - [Mux]: the registry of [src/mux/src/lib.rs] (tabs, panes, windows, workspaces,
      clients) and the client views of [client.rs]; [MuxProps]: parking and closing tabs.
    - [CharWidth]: the widths of characters and graphemes ([widechar_width.rs], [emoji.rs],
      [src/wakterm-cell/src/lib.rs]), and the theorem on the lookup table.
    - [Cell]: the cells, their packed attributes and their text
      ([src/wakterm-cell/src]); [CellProps]: they implement a record of values.
    - [Line]: [src/wakterm-surface/src/line/], a line in either of its two storages and every edit
      of it; [LineProps], [LineEdit]: compression, wrapping, setting cells; [LineSafe],
      [LineText]: lines of plain text, what they show, and that their edits return.
    - [TermTypes], [Esc]: the types the terminal shares; the ESC codes, the control codes, the
      actions, and how the dispatches of [VtParse] become actions.
    - [Screen]: [src/term/src/screen.rs], the lines of the view and of the scrollback;
      [ScreenProps]: scrolling; [ScreenSafe]: its operations return on plain text.
    - [Terminal], [TermPerform], [TermHost]: the state of the terminal
      ([src/term/src/terminalstate/mod.rs]) and its operations; what it does with
      each action ([performer.rs]); what its host calls ([terminal.rs]: resizing, pasting,
      focus, bytes from the program).
    - [TermSafe]: the terminal never fails and answers requests; [TermBytes]: the
      same from bytes; [TermPrint]: printed text is shown; [TermAlt]: the alternate screen;
      [TermFaults]: where the code panics or moves wrongly.
    - [Keyboard]: the bytes a key is sent as ([KeyCode::encode] of [src/termwiz/src/input.rs]);
      [Mouse]: the events of the mouse and of the keys ([terminalstate/mouse.rs], [keyboard.rs]);
      [KeyboardProps], [MouseProps]: their theorems.

    Bytes flow through [VtParse], [Esc] with [CsiParse], and [TermPerform] to [Screen], [Line] and
    [Cell]; [TermBytes] composes them as [Terminal::advance_bytes] does. What the terminal
    answers and what [Mouse] and [Keyboard] send flows back as the trace of [CallMonad].
    A client of the multiplexer gets its [Tab] over frames of [Codec].

    ** Conventions

    A Rust integer is a [Z] whose width is written out where it matters ([as_u8],
    [i64_sat], [rng 0 u16_max]); [char] and [u8] are [Z]. A function that can panic
    returns [option], [None] being the panic (an index or slice out of range,
    a failed assertion, an overflow of a checked subtraction); an error of the
    program is a [result], or an inner [option] where the error is Rust's unit.
    A mutable receiver is a state that is passed and returned.
    The constructors are the source's, prefixed by their type where two enums
    share a name.

    ** Theorems

    - vtparse: no byte string makes the parser panic or leave a table, and what
      it reports is within the documented limits ([parse_no_panic]); canonical
      CSI and OSC sequences are reported exactly ([csi_sequence_decodes],
      [osc_sequence_decodes]); an oversized OSC is ignored as a whole; CAN and SUB
      return to the ground state; the parser's memory is its state ([parse_chunked]).
    - CSI: [csi_parse_total] (termination, no panic, each item consumes, an
      unknown tail is handed back unchanged); [csi_display_parse] (writing and then
      reading through both parsers is the identity on well-formed values);
      [sgr_codes_compose] and [dec_modes_compose] (lists of actions);
      [sgr_color_forms]. [CSI_wf] excludes exactly the values whose written form means
      something else; two of them are theorems of their own.
    - bintree: the traversals visit every position in order, [go_to_nth_leaf] finds
      the leaf, splitting and unsplitting are inverse, and reachable trees
      are proper.
    - rangeset: every operation is the set operation it names; [add_range] can leave
      overlapping ranges ([add_range_can_overlap]).
    - base91: decoding undoes encoding, and the decoder is total.
    - tabs: the panes a tab lists are the rectangles of a layout that is defined by
      recursion, and they tile it ([tab_layout], a refinement); growing keeps the sizes in
      agreement ([resize_grows]) while shrinking need not (the examples of [shrinking_breaks_layout]);
      every resize returns ([resize_total]); splitting ([split_and_insert_spec]: the rectangle of the
      pane is cut along the requested direction, by an independent [halves]; a pane that refuses
      its size leaves the tab without its tree), closing, rotating and moving a divider
      ([move_divider_bounds]) do what they promise; [reconcile_invariant] says when the
      sizes agree after a reconciliation; [sync_mirrors]: the client's tab
      is the server's. [remove_pane_if_overlooks] is a deviation of the code.
    - windows and views: a window stays consistent however it is used
      ([reachable_windows_consistent]); new orders of its tabs ([tab_order_spec]); hiding a tab
      ([set_tab_parked_spec]) and closing one ([remove_tab_spec]) leave every client looking at the
      tab the code promises, but for the oversights of [closing_oversights], which are stated for
      every tab.
    - cache: whatever is done with a cache of positive capacity, no entry is unlinked twice, no loop
      runs for ever, and it answers as a map that may forget ([cache_never_fails],
      a refinement of the finite map [contents]); what [get] and [put] change ([get_spec], [put_spec]);
      making room ages the least recently used entry and takes out one of least frequency
      ([evict_one_spec]; linking an element that is linked already is a panic). A capacity of 0 is never
      served ([put_zero_capacity_hangs]), and an idle time is cut to 16 bits
      ([long_idle_does_not_decay]).
    - codec: a message is read back by both decoders ([pdu_roundtrip]), which accept the same frames
      ([decode_raw_async_agrees]); however its bytes are cut into pieces, every message arrives
      once and in order ([messages_arrive]); [framing_oversights] has a frame that blocks the
      stream and a message that is too long to be read.
    - widths and cells: the 64K table agrees with the range tables ([classify_is_from_char]); the packed
      attributes refine a record ([attributes_refine]); a grapheme is read back
      ([teeny_string_roundtrip]).
    - lines: [compress_keeps_cells]; [wrap_keeps_cells] (the greedy cut; the spaces at the end of the
      line are dropped, the other cells are kept); [set_cell_shows] (a vector, and runs of text:
      appended cells, implied blanks, the conversion to a vector); four
      deviations ([line_oversights]).
    - screen: [scroll_up_spec] and [scroll_down_spec] (every row, the scrollback, the stable rows);
      the two pieces of the ring buffer ([lines_of_two_pieces]).
    - terminal: whatever plain text and sequences it is sent, it does not panic, and cursor, margins and
      lines stay in bounds ([terminal_never_fails]); it answers the requests of
      status and position ([requests_are_answered]); any bytes are parsed, and where they report
      no part of an OSC, DCS or APC string they are decoded, and performed if their
      actions are safe ([bytes_are_performed]); printed text is what the row
      shows ([text_is_shown]); the alternate screen gives back the primary one
      ([alternate_screen_roundtrip]). [terminal_oversights] says in which
      states of the terminal a tab stop, a position request and a checksum panic, and where a line
      feed moves wrongly.
    - keys and mouse: encoding a key returns but for F0 ([key_encode_spec]); which chords of CTRL are
      told apart ([ctrl_chords_told_apart]); the buttons held follow the events and are
      released with the focus ([mouse_buttons_held]); an application that reads a report with
      the two parsers finds the event ([mouse_reports_read_back]).

    ** Fuel and bounds

    [action_n] has two levels, as [next_utf8] calls an action once more;
    [preorder_climb] and [postorder_climb] have the depth of the cursor, [nth_leaf_loop] the
    size of the tree, [csi_collect] two more than the number of parameters, [dec_go] the
    number of binary digits. A walk over the tree of a tab has the number of its positions, the
    walk that removes panes that number times one more than it, [adjust_n], [adjust_up] and
    [path_items] the depth, [share_loop] one more than the amount to be shared;
    [evict_while] one more than the number of entries, [prune_back] and [logical_loop] the
    number of lines, the searches in the range tables the size of the table, a stream of
    pieces as many steps as messages and pieces. The theorems show that the fuel is
    enough: they state that a result is returned.

    The ticks of the cache are 32-bit, its frequencies 16-bit numbers; the run widths of a
    line are 16-bit numbers, so [LineSafe] asks for lines of at most 65535 columns, and the mouse
    reports for a screen as wide and as high. The sizes of a tab are integers
    without wrap-around: the products of cells and pixels stay far below 64 bits.

    ** What the safe terminal is

    [TermSafe] is about a terminal on plain text: the characters are of an alphabet that
    has one column per character and that the segmentation gives back, a hypothesis ([PrintableText],
    [SimpleText]) that the witnesses discharge for the capital letters. The sequences it
    accepts are all but three groups, in which the code does panic or the answer depends on
    origin mode: setting a tab stop (HTS), the checksum of a rectangle, and, of origin
    mode and the request of the position, one.

    ** Not modelled

    The payloads of OSC, DCS and APC sequences with the images, the palette, the clipboard and
    the user variables; the bidi algorithm (its modes are kept); the list of
    changes of a line and the surfaces of the toolkit; the fields of the mux messages
    and their serialisation; the decoding of keyboard input in termwiz; the clock of
    repeated clicks. The registry is modelled without its locks: a method runs alone.
    Rendering, fonts, windowing, Lua bindings, the agents, operating-system and network I/O,
    generated tables and third-party code are left out. *)

From Stdlib Require Import ZArith Lia String Ascii Strings.Byte.
From stdpp Require Import base numbers list option.

#[global] Set Default Goal Selector "!".
Local Open Scope Z_scope.

(** ** Notations *)

(** Rust byte literals: [";"%ch] is the [Z] 59, usable in terms and patterns. *)
Declare Scope ch_scope.
Delimit Scope ch_scope with ch.

Definition parse_ch (l : list Byte.byte) : option Z :=
  match l with
  | [b] => Some (Z.of_N (Byte.to_N b))
  | _ => None
  end.

Definition print_ch (z : Z) : option (list Byte.byte) := None.

String Notation Z parse_ch print_ch : ch_scope.

(** Rust string literals as the list of their bytes. *)
Fixpoint bs (s : string) : list Z :=
  match s with
  | EmptyString => []
  | String c r => Z.of_N (N_of_ascii c) :: bs r
  end.

#[global] Arguments bs s%_string.

(** ** Rust's results and panics *)

(** [Result<A, E>]. A computation that can panic (or meet undefined
    behaviour) returns stdpp's [option]; [None] is the panic. *)
Inductive result (A E : Type) : Type :=
| Ok (a : A)
| Err (e : E).
Arguments Ok {A E} a.
Arguments Err {A E} e.

(** A Rust [assert!]/[debug_assert!] in the panic monad. *)
Definition rust_assert (b : bool) : option unit := if b then Some tt else None.

(** Bounds-checked (or, for [get_unchecked], required in-range) indexing. *)
Definition arr_get {A} (l : list A) (i : nat) : option A := l !! i.

Definition arr_set {A} (l : list A) (i : nat) (v : A) : option (list A) :=
  if (i <? length l)%nat then Some (<[i := v]> l) else None.

(** [&l[0..n]] and [l.split_at(n)]. *)
Definition slice_to {A} (l : list A) (n : nat) : option (list A) :=
  if (n <=? length l)%nat then Some (take n l) else None.

Definition split_at {A} (l : list A) (n : nat) : option (list A * list A) :=
  if (n <=? length l)%nat then Some (take n l, drop n l) else None.

(** [usize] subtraction: a panic (debug) or a wrap that the code never
    relies on; modelled as the panic. *)
Definition usize_sub (a b : nat) : option nat :=
  if (b <=? a)%nat then Some (a - b)%nat else None.

(** The elements of an [Option]. *)
Definition opt_list {A} (o : option A) : list A :=
  match o with Some x => [x] | None => [] end.

(** ** Machine integers *)

Definition u8_max : Z := 255.
Definition u16_max : Z := 65535.
Definition u32_max : Z := 4294967295.
Definition i64_max : Z := 9223372036854775807.
Definition i64_min : Z := -9223372036854775808.

Definition clamp (lo hi z : Z) : Z := Z.max lo (Z.min hi z).

Definition i64_sat (z : Z) : Z := clamp i64_min i64_max z.
Definition i64_saturating_mul (a b : Z) : Z := i64_sat (a * b).
Definition i64_saturating_add (a b : Z) : Z := i64_sat (a + b).

(** [a as u8], [as u16], [as u32] of an integer. *)
Definition as_u8 (z : Z) : Z := z mod 2 ^ 8.
Definition as_u16 (z : Z) : Z := z mod 2 ^ 16.
Definition as_u32 (z : Z) : Z := z mod 2 ^ 32.

(** [lo..=hi] as a pattern. *)
Definition rng (lo hi z : Z) : bool := (lo <=? z) && (z <=? hi).

Definition in_i64 (z : Z) : Prop := i64_min <= z <= i64_max.
Definition is_byte (b : Z) : Prop := 0 <= b < 256.
Definition is_byteb (b : Z) : bool := rng 0 255 b.

(** A Unicode scalar value: the values of Rust's [char]. *)
Definition is_scalar (c : Z) : Prop := 0 <= c <= 0x10FFFF /\ ~ (0xD800 <= c <= 0xDFFF).

(** ** Text *)

(** [char::encode_utf8]. *)
Definition encode_utf8 (c : Z) : list Z :=
  if c <? 0x80 then [c]
  else if c <? 0x800 then
    [Z.lor (Z.shiftr c 6) 0xC0; Z.lor (Z.land c 0x3F) 0x80]
  else if c <? 0x10000 then
    [Z.lor (Z.shiftr c 12) 0xE0; Z.lor (Z.land (Z.shiftr c 6) 0x3F) 0x80;
     Z.lor (Z.land c 0x3F) 0x80]
  else
    [Z.lor (Z.shiftr c 18) 0xF0; Z.lor (Z.land (Z.shiftr c 12) 0x3F) 0x80;
     Z.lor (Z.land (Z.shiftr c 6) 0x3F) 0x80; Z.lor (Z.land c 0x3F) 0x80].

(** Decimal formatting of an unsigned integer ([{}] of Rust's [fmt]):
    least significant digit first, then reversed onto the accumulator. The
    fuel is the number of binary digits, which bounds the decimal ones. *)
Fixpoint dec_go (fuel : nat) (n : Z) (acc : list Z) : list Z :=
  match fuel with
  | O => acc
  | S f =>
      let acc' := ("0"%ch + n mod 10) :: acc in
      if n <? 10 then acc' else dec_go f (n / 10) acc'
  end.

Definition dec_u (n : Z) : list Z := dec_go (S (Z.to_nat (Z.log2 n))) n [].

(** [{}] of a signed integer. *)
Definition dec (n : Z) : list Z :=
  if n <? 0 then "-"%ch :: dec_u (- n) else dec_u n.

Definition is_digit (b : Z) : bool := rng "0"%ch "9"%ch b.

(** The value of a digit string, most significant digit first. *)
Definition dec_value (acc : Z) (ds : list Z) : Z :=
  fold_left (fun a d => a * 10 + (d - "0"%ch)) ds acc.

(** [l.join(sep)] of Rust slices. *)
Fixpoint join (sep : list Z) (ls : list (list Z)) : list Z :=
  match ls with
  | [] => []
  | [x] => x
  | x :: r => x ++ sep ++ join sep r
  end.

(** Split at every element that satisfies [p] (the separators are dropped);
    always at least one piece, as [split] of Rust slices. *)
Fixpoint split_on {A} (p : A -> bool) (l : list A) : list (list A) :=
  match l with
  | [] => [[]]
  | x :: r =>
      if p x then [] :: split_on p r
      else match split_on p r with
           | [] => [[x]]
           | y :: ys => (x :: y) :: ys
           end
  end.

(** [slice::binary_search_by]: the range is halved down to one element, which is
    compared last. [cmp i] compares the element [i] with the one searched; the fuel is the
    size. [Ok] is a position where it is equal, [Err] one where it could be inserted. *)
Fixpoint search_base (fuel : nat) (cmp : nat -> comparison) (size base : nat) : nat :=
  match fuel with
  | O => base
  | S fuel =>
      if (1 <? size)%nat then
        let half := Nat.div2 size in
        let mid := (base + half)%nat in
        search_base fuel cmp (size - half) (match cmp mid with Gt => base | _ => mid end)
      else base
  end.

Definition binary_search_by (cmp : nat -> comparison) (size : nat) : result nat nat :=
  if (size =? 0)%nat then Err O
  else let base := search_base size cmp size O in
       match cmp base with Eq => Ok base | Lt => Err (S base) | Gt => Err base end.

(** ** Automation *)

Create HintDb wak.
Create Rewrite HintDb wak_rw.

#[global] Arguments Nat.ltb : simpl never.
#[global] Arguments Nat.leb : simpl never.

(** Run the binds of the panic monad. *)
Ltac msimpl := cbn [mbind option_bind mret option_ret].

(** Case analysis on the [if]s, [match]es and boolean comparisons of a goal. *)
Ltac bool_to_prop :=
  repeat match goal with
  | H : (_ && _)%bool = true |- _ => apply andb_prop in H; destruct H
  | H : (_ && _)%bool = false |- _ => apply andb_false_iff in H
  | H : (_ || _)%bool = true |- _ => apply orb_prop in H
  | H : (_ || _)%bool = false |- _ => apply orb_false_elim in H; destruct H
  | H : negb _ = true |- _ => apply negb_true_iff in H
  | H : negb _ = false |- _ => apply negb_false_iff in H
  | H : (_ <? _)%Z = true |- _ => apply Z.ltb_lt in H
  | H : (_ <? _)%Z = false |- _ => apply Z.ltb_ge in H
  | H : (_ <=? _)%Z = true |- _ => apply Z.leb_le in H
  | H : (_ <=? _)%Z = false |- _ => apply Z.leb_gt in H
  | H : (_ =? _)%Z = true |- _ => apply Z.eqb_eq in H
  | H : (_ =? _)%Z = false |- _ => apply Z.eqb_neq in H
  | H : (_ <? _)%nat = true |- _ => apply Nat.ltb_lt in H
  | H : (_ <? _)%nat = false |- _ => apply Nat.ltb_ge in H
  | H : (_ <=? _)%nat = true |- _ => apply Nat.leb_le in H
  | H : (_ <=? _)%nat = false |- _ => apply Nat.leb_gt in H
  | H : (_ =? _)%nat = true |- _ => apply Nat.eqb_eq in H
  | H : (_ =? _)%nat = false |- _ => apply Nat.eqb_neq in H
  end.

(** Split the outermost [match]/[if] of the goal, remembering the equation. *)
Ltac case_goal :=
  match goal with
  | |- context [match ?x with _ => _ end] =>
      lazymatch x with
      | context [match _ with _ => _ end] => fail
      | _ => let E := fresh "E" in destruct x eqn:E; bool_to_prop
      end
  end.

(** The same in a hypothesis. *)
Ltac case_hyp H :=
  match type of H with
  | context [match ?x with _ => _ end] =>
      lazymatch x with
      | context [match _ with _ => _ end] => fail
      | _ => let E := fresh "E" in destruct x eqn:E; bool_to_prop
      end
  end.

(** ** Generic lemmas *)

Lemma arr_set_Some {A} (l : list A) i v :
  (i < length l)%nat -> arr_set l i v = Some (<[i := v]> l).
Proof. unfold arr_set. intros H%Nat.ltb_lt. by rewrite H. Qed.

Lemma slice_to_Some {A} (l : list A) n :
  (n <= length l)%nat -> slice_to l n = Some (take n l).
Proof. unfold slice_to. intros H%Nat.leb_le. by rewrite H. Qed.

Lemma split_at_Some {A} (l : list A) n :
  (n <= length l)%nat -> split_at l n = Some (take n l, drop n l).
Proof. unfold split_at. intros H%Nat.leb_le. by rewrite H. Qed.

Lemma usize_sub_Some a b : (b <= a)%nat -> usize_sub a b = Some (a - b)%nat.
Proof. unfold usize_sub. intros H%Nat.leb_le. by rewrite H. Qed.

Lemma rng_spec lo hi z : rng lo hi z = true <-> lo <= z <= hi.
Proof. unfold rng. rewrite andb_true_iff, !Z.leb_le. lia. Qed.

Lemma rng_false lo hi z : rng lo hi z = false <-> z < lo \/ hi < z.
Proof. unfold rng. rewrite andb_false_iff, !Z.leb_gt. lia. Qed.

(** A property of bytes that a computation checks holds of every byte. *)
Definition all_bytes : list Z := map Z.of_nat (seq 0 256).

Lemma all_bytes_spec b : is_byte b <-> b ∈ all_bytes.
Proof.
  unfold all_bytes, is_byte. rewrite list_elem_of_In, in_map_iff. split.
  - intros H. exists (Z.to_nat b). rewrite in_seq. lia.
  - intros (n & <- & H%in_seq). lia.
Qed.

Lemma byte_forallb (P : Z -> bool) :
  forallb P all_bytes = true -> forall b, is_byte b -> P b = true.
Proof.
  intros H b Hb%all_bytes_spec%list_elem_of_In.
  by apply (proj1 (forallb_forall _ _) H).
Qed.

Definition zrange (lo hi : Z) : list Z :=
  map (fun n => lo + Z.of_nat n) (seq 0 (Z.to_nat (hi - lo + 1))).

Lemma range_forallb (P : Z -> bool) lo hi :
  forallb P (zrange lo hi) = true -> forall b, lo <= b <= hi -> P b = true.
Proof.
  intros H b Hb. apply (proj1 (forallb_forall _ _) H). unfold zrange.
  apply in_map_iff. exists (Z.to_nat (b - lo)). rewrite in_seq. lia.
Qed.

(** Disjoint bits add up. *)
Lemma land_disjoint acc x n :
  0 <= n -> 0 <= acc < 2 ^ n -> Z.land acc (x * 2 ^ n) = 0.
Proof.
  intros Hn Ha. apply Z.bits_inj'. intros i Hi. rewrite Z.land_spec, Z.bits_0.
  destruct (Z.ltb_spec i n) as [H|H].
  - rewrite Z.mul_pow2_bits_low by done. by rewrite andb_false_r.
  - rewrite <- (Z.mod_small acc (2 ^ n)) by done. by rewrite Z.mod_pow2_bits_high by lia.
Qed.

Lemma lor_disjoint acc x n :
  0 <= n -> 0 <= acc < 2 ^ n -> Z.lor acc (x * 2 ^ n) = acc + x * 2 ^ n.
Proof.
  intros Hn Ha. pose proof (land_disjoint acc x n Hn Ha) as H.
  rewrite <- Z.lxor_lor by done. by rewrite <- Z.add_nocarry_lxor.
Qed.

Lemma i64_sat_id z : in_i64 z -> i64_sat z = z.
Proof. unfold in_i64, i64_sat, clamp. lia. Qed.

Lemma i64_sat_in z : in_i64 (i64_sat z).
Proof. unfold in_i64, i64_sat, clamp, i64_min, i64_max. lia. Qed.

Lemma bs_app s t : bs (s ++ t) = bs s ++ bs t.
Proof. induction s as [|c s IH]; [done|]. cbn. by rewrite IH. Qed.

Lemma dec_value_app acc a b : dec_value acc (a ++ b) = dec_value (dec_value acc a) b.
Proof. apply fold_left_app. Qed.

(** Decimal printing: digits only, non-empty, and read back as the number. *)
Lemma dec_go_spec fuel n acc :
  0 <= n -> n < 2 ^ Z.of_nat fuel -> (0 < fuel)%nat ->
  exists ds, dec_go fuel n acc = ds ++ acc /\ ds <> [] /\
    Forall (fun d => "0"%ch <= d <= "9"%ch) ds /\ dec_value 0 ds = n.
Proof.
  revert n acc. induction fuel as [|f IH]; intros n acc Hn Hlt Hf; [lia|].
  cbn [dec_go].
  assert (Hm : 0 <= n mod 10 < 10) by (apply Z.mod_pos_bound; lia).
  destruct (Z.ltb_spec n 10) as [Hs|Hs].
  - exists ["0"%ch + n mod 10]. split; [done|]. split; [done|].
    rewrite Z.mod_small by lia. unfold dec_value; cbn.
    split; [repeat constructor; lia | lia].
  - assert (Hd : n / 10 < 2 ^ Z.of_nat f).
    { apply Z.div_lt_upper_bound; [lia|].
      rewrite Nat2Z.inj_succ, Z.pow_succ_r in Hlt by lia. nia. }
    assert (Hf' : (0 < f)%nat).
    { destruct f; [|lia]. cbn in Hlt. lia. }
    destruct (IH (n / 10) (("0"%ch + n mod 10) :: acc)) as (ds & E & Hne & Hall & Hv);
      [apply Z.div_pos; lia | done | done |].
    exists (ds ++ ["0"%ch + n mod 10]). rewrite E, <- app_assoc. split; [done|].
    split; [by destruct ds|]. split.
    + apply Forall_app. split; [done|]. repeat constructor; lia.
    + rewrite dec_value_app, Hv. unfold dec_value; cbn.
      pose proof (Z.div_mod n 10). lia.
Qed.

Lemma dec_u_spec n :
  0 <= n ->
  dec_u n <> [] /\ Forall (fun d => "0"%ch <= d <= "9"%ch) (dec_u n) /\
  dec_value 0 (dec_u n) = n.
Proof.
  intros Hn. unfold dec_u.
  destruct (dec_go_spec (S (Z.to_nat (Z.log2 n))) n []) as (ds & E & H1 & H2 & H3).
  - done.
  - rewrite Nat2Z.inj_succ, Z2Nat.id by apply Z.log2_nonneg.
    destruct (Z.eq_dec n 0) as [->|]; [cbn; lia|].
    apply Z.log2_spec. lia.
  - lia.
  - rewrite app_nil_r in E. by rewrite E.
Qed.

(** Binary search in a sequence of [Lt]s, then [Eq]s, then [Gt]s. *)
Section BinarySearch.
Context (cmp : nat -> comparison) (size lo hi : nat).
Context (Hlo : forall i, (i < lo)%nat -> cmp i = Lt).
Context (Heq : forall i, (lo <= i < hi)%nat -> cmp i = Eq).
Context (Hhi : forall i, (hi <= i < size)%nat -> cmp i = Gt).
Context (Hle : (lo <= hi <= size)%nat).

Lemma search_base_spec fuel n base :
  (n <= fuel)%nat -> (0 < n)%nat -> (base + n <= size)%nat ->
  (base = 0 \/ base < hi)%nat -> (base + n = size \/ hi <= base + n)%nat ->
  let b := search_base fuel cmp n base in
  (b < size /\ (b = 0 \/ b < hi) /\ hi <= S b)%nat.
Proof.
  revert n base. induction fuel as [|fuel IH]; intros n base Hf Hn Hb Hl Hr; [lia|].
  cbn [search_base]. destruct (Nat.ltb_spec 1 n) as [H1|H1]; [|cbn; lia].
  set (h := Nat.div2 n) in *.
  assert (0 < h /\ 2 * h <= n)%nat.
  { subst h. rewrite Nat.div2_div. split; [apply Nat.div_str_pos | apply Nat.Div0.mul_div_le]; lia. }
  destruct (decide (base + h < hi)%nat) as [Hm|Hm].
  - replace (match cmp (base + h)%nat with Gt => base | _ => base + h end)%nat
      with (base + h)%nat by (destruct (decide (base + h < lo)%nat);
                              [by rewrite Hlo by lia | by rewrite Heq by lia]).
    apply IH; lia.
  - rewrite Hhi by lia. apply IH; lia.
Qed.

Lemma binary_search_spec :
  match binary_search_by cmp size with
  | Ok i => (lo <= i < hi)%nat
  | Err i => lo = hi /\ i = lo
  end.
Proof.
  unfold binary_search_by. destruct (Nat.eqb_spec size 0) as [H0|H0]; [lia|].
  destruct (search_base_spec size size 0) as (H1 & H2 & H3); [lia..|].
  cbv zeta. set (b := search_base size cmp size 0) in *.
  destruct (decide (b < lo)%nat) as [Hb|Hb]; [rewrite Hlo by done; lia|].
  destruct (decide (b < hi)%nat) as [Hb'|Hb']; [rewrite Heq by lia; lia|].
  rewrite Hhi by lia. lia.
Qed.
End BinarySearch.

#[export] Hint Resolve i64_sat_in : wak.
#[export] Hint Rewrite @app_nil_r @length_app @length_map @length_insert @length_take : wak_rw.
