(* ===== verification/VtTables.v ===== *)
(** The byte-classification tables of [vtparse]: the enums of
    [src/vtparse/src/enums.rs], the per-state functions, the tables built from
    them and the entry and exit actions of [src/vtparse/src/transitions.rs],
    and the three unchecked lookups of [src/vtparse/src/lib.rs]. A lookup out of
    range and a transmute of a value that is no variant are undefined
    behaviour in Rust and [None] here; [lookup_total] excludes both. *)

From Stdlib Require Import ZArith Lia.
From stdpp Require Import base numbers list option.
From S2P Require Import Prelude.
Local Open Scope Z_scope.

(** ** enums.rs *)

(** The variants carry a prefix where two enums share a name. *)
Inductive Action : Set :=
| ANone | Ignore | Print | Execute | Clear | Collect | AParam | EscDispatch
| CsiDispatch | Hook | Put | Unhook | OscStart | OscPut | OscEnd | Utf8
| ApcStart | ApcPut | ApcEnd.

Inductive State : Set :=
| Ground | Escape | EscapeIntermediate | CsiEntry | CsiParamSt | CsiIntermediate
| CsiIgnore | DcsEntry | DcsParam | DcsIntermediate | DcsPassthrough | DcsIgnore
| OscString | SosPmString | ApcString | Anywhere | Utf8Sequence.

#[export] Instance Action_eq_dec : EqDecision Action.
Proof. solve_decision. Defined.

#[export] Instance State_eq_dec : EqDecision State.
Proof. solve_decision. Defined.

(** The variants in the order of their discriminants. *)
Definition Actions : list Action :=
  [ANone; Ignore; Print; Execute; Clear; Collect; AParam; EscDispatch;
   CsiDispatch; Hook; Put; Unhook; OscStart; OscPut; OscEnd; Utf8;
   ApcStart; ApcPut; ApcEnd].

Definition States : list State :=
  [Ground; Escape; EscapeIntermediate; CsiEntry; CsiParamSt; CsiIntermediate;
   CsiIgnore; DcsEntry; DcsParam; DcsIntermediate; DcsPassthrough; DcsIgnore;
   OscString; SosPmString; ApcString; Anywhere; Utf8Sequence].

(** [action as u16] and [state as u16]. *)
Definition Action_u16 (a : Action) : Z :=
  match a with
  | ANone => 0 | Ignore => 1 | Print => 2 | Execute => 3 | Clear => 4
  | Collect => 5 | AParam => 6 | EscDispatch => 7 | CsiDispatch => 8
  | Hook => 9 | Put => 10 | Unhook => 11 | OscStart => 12 | OscPut => 13
  | OscEnd => 14 | Utf8 => 15 | ApcStart => 16 | ApcPut => 17 | ApcEnd => 18
  end.

Definition State_u16 (s : State) : Z :=
  match s with
  | Ground => 0 | Escape => 1 | EscapeIntermediate => 2 | CsiEntry => 3
  | CsiParamSt => 4 | CsiIntermediate => 5 | CsiIgnore => 6 | DcsEntry => 7
  | DcsParam => 8 | DcsIntermediate => 9 | DcsPassthrough => 10 | DcsIgnore => 11
  | OscString => 12 | SosPmString => 13 | ApcString => 14 | Anywhere => 15
  | Utf8Sequence => 16
  end.

(** [from_u16] transmutes: defined exactly on the discriminants. *)
Definition Action_from_u16 (v : Z) : option Action :=
  List.find (fun a => Action_u16 a =? v) Actions.

Definition State_from_u16 (v : Z) : option State :=
  List.find (fun s => State_u16 s =? v) States.

(** ** transitions.rs *)

Definition pack (action : Action) (state : State) : Z :=
  Z.lor (Z.shiftl (Action_u16 action) 8) (State_u16 state).

Definition anywhere_or (i : Z) (state : State) : Z :=
  if i =? 0x18 then pack Execute Ground
  else if i =? 0x1a then pack Execute Ground
  else if rng 0x80 0x8f i then pack Execute Ground
  else if rng 0x91 0x97 i then pack Execute Ground
  else if i =? 0x99 then pack Execute Ground
  else if i =? 0x9a then pack Execute Ground
  else if i =? 0x9c then pack ANone Ground
  else if i =? 0x1b then pack ANone Escape
  else if i =? 0x98 then pack ANone SosPmString
  else if i =? 0x9e then pack ANone SosPmString
  else if i =? 0x9f then pack ANone SosPmString
  else if i =? 0x90 then pack ANone DcsEntry
  else if i =? 0x9d then pack ANone OscString
  else if i =? 0x9b then pack ANone CsiEntry
  else pack ANone state.

Definition ground (i : Z) : Z :=
  if rng 0x00 0x17 i then pack Execute Ground
  else if i =? 0x19 then pack Execute Ground
  else if rng 0x1c 0x1f i then pack Execute Ground
  else if rng 0x20 0x7f i then pack Print Ground
  else if rng 0xc2 0xdf i then pack Utf8 Utf8Sequence
  else if rng 0xe0 0xef i then pack Utf8 Utf8Sequence
  else if rng 0xf0 0xf4 i then pack Utf8 Utf8Sequence
  else anywhere_or i Ground.

Definition escape (i : Z) : Z :=
  if rng 0x00 0x17 i then pack Execute Escape
  else if i =? 0x19 then pack Execute Escape
  else if rng 0x1c 0x1f i then pack Execute Escape
  else if i =? 0x7f then pack Ignore Escape
  else if rng 0x20 0x2f i then pack Collect EscapeIntermediate
  else if rng 0x30 0x4f i then pack EscDispatch Ground
  else if rng 0x51 0x57 i then pack EscDispatch Ground
  else if i =? 0x59 then pack EscDispatch Ground
  else if i =? 0x5a then pack EscDispatch Ground
  else if i =? 0x5c then pack EscDispatch Ground
  else if rng 0x60 0x7e i then pack EscDispatch Ground
  else if i =? 0x5b then pack ANone CsiEntry
  else if i =? 0x5d then pack ANone OscString
  else if i =? 0x50 then pack ANone DcsEntry
  else if i =? 0x58 then pack ANone SosPmString
  else if i =? 0x5e then pack ANone SosPmString
  else if i =? 0x5f then pack ANone ApcString
  else anywhere_or i Escape.

Definition escape_intermediate (i : Z) : Z :=
  if rng 0x00 0x17 i then pack Execute EscapeIntermediate
  else if i =? 0x19 then pack Execute EscapeIntermediate
  else if rng 0x1c 0x1f i then pack Execute EscapeIntermediate
  else if rng 0x20 0x2f i then pack Collect EscapeIntermediate
  else if i =? 0x7f then pack Ignore EscapeIntermediate
  else if rng 0x30 0x7e i then pack EscDispatch Ground
  else anywhere_or i EscapeIntermediate.

Definition csi_entry (i : Z) : Z :=
  if rng 0x00 0x17 i then pack Execute CsiEntry
  else if i =? 0x19 then pack Execute CsiEntry
  else if rng 0x1c 0x1f i then pack Execute CsiEntry
  else if i =? 0x7f then pack Ignore CsiEntry
  else if rng 0x20 0x2f i then pack Collect CsiIntermediate
  else if i =? 0x3a then pack ANone CsiIgnore
  else if rng 0x30 0x39 i then pack AParam CsiParamSt
  else if i =? 0x3b then pack AParam CsiParamSt
  else if rng 0x3c 0x3f i then pack Collect CsiParamSt
  else if rng 0x40 0x7e i then pack CsiDispatch Ground
  else anywhere_or i CsiEntry.

Definition csi_param (i : Z) : Z :=
  if rng 0x00 0x17 i then pack Execute CsiParamSt
  else if i =? 0x19 then pack Execute CsiParamSt
  else if rng 0x1c 0x1f i then pack Execute CsiParamSt
  else if rng 0x30 0x3b i then pack AParam CsiParamSt
  else if i =? 0x7f then pack Ignore CsiParamSt
  else if rng 0x3c 0x3f i then pack ANone CsiIgnore
  else if rng 0x20 0x2f i then pack Collect CsiIntermediate
  else if rng 0x40 0x7e i then pack CsiDispatch Ground
  else anywhere_or i CsiParamSt.

Definition csi_intermediate (i : Z) : Z :=
  if rng 0x00 0x17 i then pack Execute CsiIntermediate
  else if i =? 0x19 then pack Execute CsiIntermediate
  else if rng 0x1c 0x1f i then pack Execute CsiIntermediate
  else if rng 0x20 0x2f i then pack Collect CsiIntermediate
  else if i =? 0x7f then pack Ignore CsiIntermediate
  else if rng 0x30 0x3f i then pack ANone CsiIgnore
  else if rng 0x40 0x7e i then pack CsiDispatch Ground
  else anywhere_or i CsiIntermediate.

Definition csi_ignore (i : Z) : Z :=
  if rng 0x00 0x17 i then pack Execute CsiIgnore
  else if i =? 0x19 then pack Execute CsiIgnore
  else if rng 0x1c 0x1f i then pack Execute CsiIgnore
  else if rng 0x20 0x3f i then pack Ignore CsiIgnore
  else if i =? 0x7f then pack Ignore CsiIgnore
  else if rng 0x40 0x7e i then pack ANone Ground
  else anywhere_or i CsiIgnore.

Definition dcs_entry (i : Z) : Z :=
  if rng 0x00 0x17 i then pack Ignore DcsEntry
  else if i =? 0x19 then pack Ignore DcsEntry
  else if rng 0x1c 0x1f i then pack Ignore DcsEntry
  else if i =? 0x7f then pack Ignore DcsEntry
  else if i =? 0x3a then pack ANone DcsIgnore
  else if rng 0x20 0x2f i then pack Collect DcsIntermediate
  else if rng 0x30 0x39 i then pack AParam DcsParam
  else if i =? 0x3b then pack AParam DcsParam
  else if rng 0x3c 0x3f i then pack Collect DcsParam
  else if rng 0x40 0x7e i then pack ANone DcsPassthrough
  else anywhere_or i DcsEntry.

Definition dcs_param (i : Z) : Z :=
  if rng 0x00 0x17 i then pack Ignore DcsParam
  else if i =? 0x19 then pack Ignore DcsParam
  else if rng 0x1c 0x1f i then pack Ignore DcsParam
  else if rng 0x30 0x39 i then pack AParam DcsParam
  else if i =? 0x3b then pack AParam DcsParam
  else if i =? 0x7f then pack Ignore DcsParam
  else if i =? 0x3a then pack ANone DcsIgnore
  else if rng 0x3c 0x3f i then pack ANone DcsIgnore
  else if rng 0x20 0x2f i then pack Collect DcsIntermediate
  else if rng 0x40 0x7e i then pack ANone DcsPassthrough
  else anywhere_or i DcsParam.

Definition dcs_intermediate (i : Z) : Z :=
  if rng 0x00 0x17 i then pack Ignore DcsIntermediate
  else if i =? 0x19 then pack Ignore DcsIntermediate
  else if rng 0x1c 0x1f i then pack Ignore DcsIntermediate
  else if rng 0x20 0x2f i then pack Collect DcsIntermediate
  else if i =? 0x7f then pack Ignore DcsIntermediate
  else if rng 0x30 0x3f i then pack ANone DcsIgnore
  else if rng 0x40 0x7e i then pack ANone DcsPassthrough
  else anywhere_or i DcsIntermediate.

Definition dcs_passthrough (i : Z) : Z :=
  if rng 0x00 0x17 i then pack Put DcsPassthrough
  else if i =? 0x19 then pack Put DcsPassthrough
  else if rng 0x1c 0x1f i then pack Put DcsPassthrough
  else if rng 0x20 0x7e i then pack Put DcsPassthrough
  else if i =? 0x7f then pack Ignore DcsPassthrough
  else anywhere_or i DcsPassthrough.

Definition dcs_ignore (i : Z) : Z :=
  if rng 0x00 0x17 i then pack Ignore DcsIgnore
  else if i =? 0x19 then pack Ignore DcsIgnore
  else if rng 0x1c 0x1f i then pack Ignore DcsIgnore
  else if rng 0x20 0x7f i then pack Ignore DcsIgnore
  else anywhere_or i DcsIgnore.

Definition osc_string (i : Z) : Z :=
  if rng 0x00 0x06 i then pack Ignore OscString
  else if i =? 0x07 then pack Ignore Ground
  else if rng 0x08 0x17 i then pack Ignore OscString
  else if i =? 0x19 then pack Ignore OscString
  else if rng 0x1c 0x1f i then pack Ignore OscString
  else if rng 0x20 0x7f i then pack OscPut OscString
  else if rng 0xc2 0xdf i then pack Utf8 Utf8Sequence
  else if rng 0xe0 0xef i then pack Utf8 Utf8Sequence
  else if rng 0xf0 0xf4 i then pack Utf8 Utf8Sequence
  else anywhere_or i OscString.

Definition sos_pm_string (i : Z) : Z :=
  if rng 0x00 0x17 i then pack Ignore SosPmString
  else if i =? 0x19 then pack Ignore SosPmString
  else if rng 0x1c 0x1f i then pack Ignore SosPmString
  else if rng 0x20 0x7f i then pack Ignore SosPmString
  else anywhere_or i SosPmString.

Definition apc_string (i : Z) : Z :=
  if rng 0x00 0x17 i then pack ApcPut ApcString
  else if i =? 0x19 then pack ApcPut ApcString
  else if rng 0x1c 0x1f i then pack ApcPut ApcString
  else if rng 0x20 0x7f i then pack ApcPut ApcString
  else anywhere_or i ApcString.

(** [define_table!]: the [u16; 256] array of a function of the byte. *)
Definition define_table (func : Z -> Z) : list Z := map func all_bytes.

Definition TRANSITIONS : list (list Z) :=
  [define_table ground;
   define_table escape;
   define_table escape_intermediate;
   define_table csi_entry;
   define_table csi_param;
   define_table csi_intermediate;
   define_table csi_ignore;
   define_table dcs_entry;
   define_table dcs_param;
   define_table dcs_intermediate;
   define_table dcs_passthrough;
   define_table dcs_ignore;
   define_table osc_string;
   define_table sos_pm_string;
   define_table apc_string].

Definition ENTRY : list Action :=
  [ANone; Clear; ANone; Clear; ANone; ANone; ANone; Clear; ANone; ANone; Hook;
   ANone; OscStart; ANone; ApcStart; ANone; ANone].

Definition EXIT : list Action :=
  [ANone; ANone; ANone; ANone; ANone; ANone; ANone; ANone; ANone; ANone; Unhook;
   ANone; OscEnd; ANone; ApcEnd; ANone; ANone].

(** ** The lookups of lib.rs *)

Definition lookup (state : State) (b : Z) : option (Action * State) :=
  row ← arr_get TRANSITIONS (Z.to_nat (State_u16 state));
  v ← arr_get row (Z.to_nat b);
  a ← Action_from_u16 (Z.shiftr v 8);
  s ← State_from_u16 (Z.land v 0xff);
  Some (a, s).

Definition lookup_entry (state : State) : option Action :=
  arr_get ENTRY (Z.to_nat (State_u16 state)).

Definition lookup_exit (state : State) : option Action :=
  arr_get EXIT (Z.to_nat (State_u16 state)).

(** ** Lemmas *)

(** The states that have a row of [TRANSITIONS]. *)
Definition tabled (s : State) : bool :=
  match s with Anywhere | Utf8Sequence => false | _ => true end.

(** A state/byte check done by computation. *)
Definition table_check (P : State -> Z -> Action -> State -> bool) : bool :=
  forallb (fun s =>
    negb (tabled s) ||
    forallb (fun b =>
      match lookup s b with
      | Some (a, s') => P s b a s'
      | None => false
      end) all_bytes) States.

Lemma States_complete s : In s States.
Proof. destruct s; cbn; tauto. Qed.

Lemma table_checked P s b :
  table_check P = true -> tabled s = true -> is_byte b ->
  exists a s', lookup s b = Some (a, s') /\ P s b a s' = true.
Proof.
  unfold table_check. intros H Hs Hb.
  pose proof (proj1 (forallb_forall _ _) H s (States_complete s)) as H1.
  cbn beta in H1. rewrite Hs in H1; cbn [negb orb] in H1.
  pose proof (byte_forallb _ H1 b Hb) as H2; cbn beta in H2.
  destruct (lookup s b) as [[a s']|]; [eauto|done].
Qed.

Lemma lookup_entry_total s : exists a, lookup_entry s = Some a.
Proof. destruct s; eexists; reflexivity. Qed.

Lemma lookup_exit_total s : exists a, lookup_exit s = Some a.
Proof. destruct s; eexists; reflexivity. Qed.
