(* ===== verification/VtParse.v ===== *)
(** The escape-sequence state machine of [src/vtparse/src/lib.rs]: the parser's
    state as a record with the source's fixed-size arrays and counts, one
    function per method, and the actions recorded by [CollectingVTActor] as the
    output of each step. A function returns [None] where the Rust code would
    panic, index an array out of range or read outside a table.

    The UTF-8 decoder is the third-party crate [utf8parse]: its state and its
    [advance] are the operations of the class [Utf8Parse], and what the parser
    relies on is the class [Utf8ParseLaws]. *)

From Stdlib Require Import ZArith Lia.
From stdpp Require Import base numbers list option.
From S2P Require Import Prelude VtTables.
Local Open Scope Z_scope.

(** ** The decoder interface *)

(** The calls of [utf8parse::Receiver]. *)
Inductive Utf8Event : Set :=
| Codepoint (c : Z)
| InvalidSequence.

Class Utf8Parse := {
  Utf8Parser : Type;
  utf8_new : Utf8Parser;
  utf8_advance : Utf8Parser -> Z -> Utf8Parser * list Utf8Event
}.

(** Documented behaviour of the decoder: a fresh decoder is between two
    characters; there, the lead byte of a multi-byte sequence is only recorded;
    after a character (or an error) was reported it is between characters
    again; the reported characters are scalar values. *)
Class Utf8ParseLaws (UP : Utf8Parse) := {
  utf8_idle : Utf8Parser -> Prop;
  utf8_new_idle : utf8_idle utf8_new;
  utf8_lead : forall u b, utf8_idle u -> 0xC2 <= b <= 0xF4 ->
    snd (utf8_advance u b) = [];
  utf8_done : forall u b, snd (utf8_advance u b) <> [] ->
    utf8_idle (fst (utf8_advance u b));
  utf8_scalar : forall u b c, In (Codepoint c) (snd (utf8_advance u b)) ->
    is_scalar c
}.

(** ** Data *)

Definition MAX_INTERMEDIATES : nat := 2.
Definition MAX_OSC : nat := 64.
Definition MAX_PARAMS : nat := 256.
Definition MAX_OSC_BYTES : Z := 1024 * 1024.
Definition MAX_APC_BYTES : Z := 4 * 1024 * 1024.

#[global] Arguments MAX_INTERMEDIATES : simpl never.
#[global] Arguments MAX_OSC : simpl never.
#[global] Arguments MAX_PARAMS : simpl never.
#[global] Arguments MAX_OSC_BYTES : simpl never.
#[global] Arguments MAX_APC_BYTES : simpl never.

Inductive CsiParam : Set :=
| Integer (i : Z)
| P (b : Z).

#[export] Instance CsiParam_eq_dec : EqDecision CsiParam.
Proof. solve_decision. Defined.

Definition CsiParam_default : CsiParam := Integer 0.

Definition as_integer (p : CsiParam) : option Z :=
  match p with Integer i => Some i | P _ => None end.

(** [impl Display for CsiParam]. *)
Definition CsiParam_fmt (p : CsiParam) : list Z :=
  match p with Integer v => dec v | P b => encode_utf8 b end.

Inductive VTAction : Set :=
| VtPrint (c : Z)
| VtExecuteC0orC1 (b : Z)
| VtDcsHook (params : list Z) (intermediates : list Z)
    (ignored_excess_intermediates : bool) (byte : Z)
| VtDcsPut (b : Z)
| VtDcsUnhook
| VtEscDispatch (params : list Z) (intermediates : list Z)
    (ignored_excess_intermediates : bool) (byte : Z)
| VtCsiDispatch (params : list CsiParam) (parameters_truncated : bool) (byte : Z)
| VtOscDispatch (params : list (list Z))
| VtApcDispatch (data : list Z).

Record OscState : Set := mkOsc {
  buffer : list Z;
  param_indices : list nat;
  osc_num_params : nat;
  full : bool;
  input_bytes : Z;
  data_truncated : bool
}.

(** [usize::saturating_add] on a 64-bit target. *)
Definition usize_saturating_add (a b : Z) : Z := Z.min (2 ^ 64 - 1) (a + b).

(** [OscState::put]. *)
Definition osc_put (o : OscState) (param : Z) : option OscState :=
  let encoded := encode_utf8 param in
  if MAX_OSC_BYTES <? usize_saturating_add (input_bytes o) (Z.of_nat (length encoded)) then
    Some (mkOsc (buffer o) (param_indices o) (osc_num_params o) (full o)
                (input_bytes o) true)
  else
    let ib := input_bytes o + Z.of_nat (length encoded) in
    if param =? ";"%ch then
      if (osc_num_params o =? MAX_OSC)%nat then
        Some (mkOsc (buffer o) (param_indices o) (osc_num_params o) true
                    ib (data_truncated o))
      else
        idx ← arr_set (param_indices o) (osc_num_params o - 1) (length (buffer o));
        Some (mkOsc (buffer o) idx (osc_num_params o + 1) (full o)
                    ib (data_truncated o))
    else if negb (full o) then
      Some (mkOsc (buffer o ++ encoded) (param_indices o)
                  (if (osc_num_params o =? 0)%nat then 1%nat else osc_num_params o)
                  (full o) ib (data_truncated o))
    else
      Some (mkOsc (buffer o) (param_indices o) (osc_num_params o) (full o)
                  ib (data_truncated o)).

(** [OscStart], and the OSC part of [Clear]. *)
Definition osc_reset (o : OscState) : OscState :=
  mkOsc [] (param_indices o) 0 false 0 false.

(** The loop of [OscEnd] over [0..limit - 1]. *)
Fixpoint osc_split (indices : list nat) (idxs : list nat) (params : list (list Z))
    (offset : nat) (slice : list Z) : option (list (list Z) * list Z) :=
  match idxs with
  | [] => Some (params, slice)
  | i :: r =>
      idx ← arr_get indices i;
      n ← usize_sub idx offset;
      '(a, b) ← split_at slice n;
      params ← arr_set params i a;
      osc_split indices r params idx b
  end.

(** [OscEnd]: the dispatched parameters, [None] inside when nothing is
    dispatched because the data was truncated. *)
Definition osc_end (o : OscState) : option (option (list (list Z))) :=
  if data_truncated o then Some None
  else if (osc_num_params o =? 0)%nat then Some (Some [])
  else
    let limit := Nat.min (osc_num_params o) MAX_OSC in
    '(params, slice) ←
      osc_split (param_indices o) (seq 0 (limit - 1)) (replicate MAX_OSC []) 0 (buffer o);
    last ← usize_sub limit 1;
    params ← arr_set params last slice;
    params ← slice_to params limit;
    Some (Some params).

Section Parser.
  Context {UP : Utf8Parse}.

Record VTParser : Type := mkVT {
  state : State;
  intermediates : list Z;
  num_intermediates : nat;
  ignored_excess_intermediates : bool;
  osc : OscState;
  params : list CsiParam;
  num_params : nat;
  current_param : option CsiParam;
  params_full : bool;
  apc_data : list Z;
  apc_data_truncated : bool;
  utf8_parser : Utf8Parser;
  utf8_return_state : State
}.

(** [VTParser::new]. *)
Definition vt_new : VTParser :=
  {| state := Ground;
     utf8_return_state := Ground;
     intermediates := [0; 0];
     num_intermediates := 0;
     ignored_excess_intermediates := false;
     osc := mkOsc [] (replicate MAX_OSC 0%nat) 0 false 0 false;
     params := replicate MAX_PARAMS CsiParam_default;
     num_params := 0;
     params_full := false;
     current_param := None;
     utf8_parser := utf8_new;
     apc_data := [];
     apc_data_truncated := false |}.

(** Assignments to fields. *)
Definition set_state (st : State) (p : VTParser) : VTParser :=
  mkVT st (intermediates p) (num_intermediates p) (ignored_excess_intermediates p)
    (osc p) (params p) (num_params p) (current_param p) (params_full p)
    (apc_data p) (apc_data_truncated p) (utf8_parser p) (utf8_return_state p).

Definition set_return_state (st : State) (p : VTParser) : VTParser :=
  mkVT (state p) (intermediates p) (num_intermediates p) (ignored_excess_intermediates p)
    (osc p) (params p) (num_params p) (current_param p) (params_full p)
    (apc_data p) (apc_data_truncated p) (utf8_parser p) st.

Definition set_utf8 (u : Utf8Parser) (p : VTParser) : VTParser :=
  mkVT (state p) (intermediates p) (num_intermediates p) (ignored_excess_intermediates p)
    (osc p) (params p) (num_params p) (current_param p) (params_full p)
    (apc_data p) (apc_data_truncated p) u (utf8_return_state p).

Definition set_intermediates (l : list Z) (n : nat) (ign : bool) (p : VTParser) : VTParser :=
  mkVT (state p) l n ign
    (osc p) (params p) (num_params p) (current_param p) (params_full p)
    (apc_data p) (apc_data_truncated p) (utf8_parser p) (utf8_return_state p).

Definition set_osc (o : OscState) (p : VTParser) : VTParser :=
  mkVT (state p) (intermediates p) (num_intermediates p) (ignored_excess_intermediates p)
    o (params p) (num_params p) (current_param p) (params_full p)
    (apc_data p) (apc_data_truncated p) (utf8_parser p) (utf8_return_state p).

Definition set_params (l : list CsiParam) (n : nat) (p : VTParser) : VTParser :=
  mkVT (state p) (intermediates p) (num_intermediates p) (ignored_excess_intermediates p)
    (osc p) l n (current_param p) (params_full p)
    (apc_data p) (apc_data_truncated p) (utf8_parser p) (utf8_return_state p).

Definition set_current (c : option CsiParam) (p : VTParser) : VTParser :=
  mkVT (state p) (intermediates p) (num_intermediates p) (ignored_excess_intermediates p)
    (osc p) (params p) (num_params p) c (params_full p)
    (apc_data p) (apc_data_truncated p) (utf8_parser p) (utf8_return_state p).

Definition set_params_full (b : bool) (p : VTParser) : VTParser :=
  mkVT (state p) (intermediates p) (num_intermediates p) (ignored_excess_intermediates p)
    (osc p) (params p) (num_params p) (current_param p) b
    (apc_data p) (apc_data_truncated p) (utf8_parser p) (utf8_return_state p).

Definition set_apc (d : list Z) (t : bool) (p : VTParser) : VTParser :=
  mkVT (state p) (intermediates p) (num_intermediates p) (ignored_excess_intermediates p)
    (osc p) (params p) (num_params p) (current_param p) (params_full p)
    d t (utf8_parser p) (utf8_return_state p).

Definition is_ground (p : VTParser) : bool := bool_decide (state p = Ground).

(** ** Parameters *)

(** The loop of [as_integer_params]. *)
Fixpoint integer_params_go (src : list CsiParam) (res : list Z) (i : nat) : option (list Z) :=
  match src with
  | [] => Some res
  | Integer value :: r =>
      res ← arr_set res i value;
      integer_params_go r res i
  | P b :: r =>
      integer_params_go r res (if (b =? ";"%ch)%Z then (i + 1)%nat else i)
  end.

Definition as_integer_params (p : VTParser) : option (list Z) :=
  src ← slice_to (params p) (num_params p);
  integer_params_go src (replicate MAX_PARAMS 0) 0.

Definition finish_param (p : VTParser) : option VTParser :=
  match current_param p with
  | Some val =>
      let p := set_current None p in
      if (num_params p <? MAX_PARAMS)%nat then
        l ← arr_set (params p) (num_params p) val;
        Some (set_params l (num_params p + 1) p)
      else Some p
  | None => Some p
  end.

(** The loop of [promote_intermediates_to_params]. *)
Fixpoint promote_go (inter : list Z) (p : VTParser) : option VTParser :=
  match inter with
  | [] => Some p
  | b :: r =>
      if (MAX_PARAMS <=? num_params p)%nat then
        Some (set_intermediates (intermediates p) (num_intermediates p) true p)
      else
        l ← arr_set (params p) (num_params p) (P b);
        promote_go r (set_params l (num_params p + 1) p)
  end.

Definition promote_intermediates_to_params (p : VTParser) : option VTParser :=
  if (0 <? num_intermediates p)%nat then
    inter ← slice_to (intermediates p) (num_intermediates p);
    p ← promote_go inter p;
    Some (set_intermediates (intermediates p) 0 (ignored_excess_intermediates p) p)
  else Some p.

(** The arms of [action] with a body. *)
Definition do_clear (p : VTParser) : VTParser :=
  {| state := state p;
     utf8_return_state := utf8_return_state p;
     intermediates := intermediates p;
     num_intermediates := 0;
     ignored_excess_intermediates := false;
     osc := osc_reset (osc p);
     params := params p;
     num_params := 0;
     params_full := false;
     current_param := None;
     utf8_parser := utf8_parser p;
     apc_data := [];
     apc_data_truncated := false |}.

Definition do_collect (param : Z) (p : VTParser) : option VTParser :=
  if (num_intermediates p <? MAX_INTERMEDIATES)%nat then
    l ← arr_set (intermediates p) (num_intermediates p) param;
    Some (set_intermediates l (num_intermediates p + 1) (ignored_excess_intermediates p) p)
  else Some (set_intermediates (intermediates p) (num_intermediates p) true p).

Definition do_param (param : Z) (p : VTParser) : option VTParser :=
  if params_full p then Some p
  else
    p ← promote_intermediates_to_params p;
    if is_digit param then
      match current_param p with
      | Some (Integer i) =>
          Some (set_current
            (Some (Integer (i64_saturating_add (i64_saturating_mul i 10) (param - "0"%ch)))) p)
      | Some (P _) => None (* unreachable!() *)
      | None => Some (set_current (Some (Integer (param - "0"%ch))) p)
      end
    else
      p ← finish_param p;
      if (MAX_PARAMS <? num_params p + 1)%nat then Some (set_params_full true p)
      else
        l ← arr_set (params p) (num_params p) (P param);
        Some (set_params l (num_params p + 1) p).

(** [&self.as_integer_params()[0..n]] and [&self.intermediates[0..n]]. *)
Definition dispatch_args (p : VTParser) : option (list Z * list Z) :=
  ints ← as_integer_params p;
  ints ← slice_to ints (num_params p);
  inter ← slice_to (intermediates p) (num_intermediates p);
  Some (ints, inter).

(** ** The state machine *)

(** One step: the new state and what the actor was told. *)
Definition Step : Type := VTParser -> option (VTParser * list VTAction).

Definition skip : Step := fun p => Some (p, []).
Definition emit (e : VTAction) : Step := fun p => Some (p, [e]).
Definition quiet (f : VTParser -> option VTParser) : Step :=
  fun p => p' ← f p; Some (p', []).

Definition then_ (f g : Step) : Step := fun p =>
  '(p1, e1) ← f p;
  '(p2, e2) ← g p1;
  Some (p2, e1 ++ e2).

(** The last character the decoder reported ([Decoder::codepoint]). *)
Definition decoded (evs : list Utf8Event) : option Z :=
  fold_left (fun _ e => match e with Codepoint c => Some c | InvalidSequence => Some 0xFFFD end)
    evs None.

(** The end of [next_utf8]: the character goes to the state it interrupted. *)
Definition deliver (c : Z) : Step := fun p =>
  '(p, ev) ←
    match utf8_return_state p with
    | Ground => Some (p, [VtPrint c])
    | OscString => o ← osc_put (osc p) c; Some (set_osc o p, [])
    | _ => None (* panic!("unreachable state") *)
    end;
  Some (set_state (utf8_return_state p) p, ev).

(** [next_utf8], with the function it calls for an action. *)
Definition next_utf8_with (act : Action -> Z -> Step) (byte : Z) : Step := fun p =>
  let '(u, evs) := utf8_advance (utf8_parser p) byte in
  let p := set_utf8 u p in
  match decoded evs with
  | None => Some (p, [])
  | Some c =>
      if c <=? 0xff then
        let b := as_u8 (Z.land c 0xff) in
        '(a, st) ← lookup (utf8_return_state p) b;
        if bool_decide (a = Execute)
           || (bool_decide (st <> utf8_return_state p) && bool_decide (st <> Utf8Sequence))
        then
          ex ← lookup_exit (utf8_return_state p);
          en ← lookup_entry st;
          '(p, ev) ← then_ (act ex 0) (then_ (act a b) (act en 0)) p;
          Some (set_state st (set_return_state (state p) p), ev)
        else deliver c p
      else deliver c p
  end.

(** [action]. The recursion [action -> next_utf8 -> action] is bounded by the
    fuel; two levels are enough ([action_fuel_mono], [parse_no_panic]). *)
Fixpoint action_n (fuel : nat) (a : Action) (param : Z) : Step :=
  match fuel with
  | O => fun _ => None
  | S fuel' =>
    match a with
    | ANone | Ignore => skip
    | Print => emit (VtPrint param)
    | Execute => emit (VtExecuteC0orC1 param)
    | Clear => quiet (fun p => Some (do_clear p))
    | Collect => quiet (do_collect param)
    | AParam => quiet (do_param param)
    | Hook => fun p =>
        p ← finish_param p;
        '(ints, inter) ← dispatch_args p;
        Some (p, [VtDcsHook ints inter (ignored_excess_intermediates p) param])
    | Put => emit (VtDcsPut param)
    | EscDispatch => fun p =>
        p ← finish_param p;
        '(ints, inter) ← dispatch_args p;
        Some (p, [VtEscDispatch ints inter (ignored_excess_intermediates p) param])
    | CsiDispatch => fun p =>
        p ← finish_param p;
        p ← promote_intermediates_to_params p;
        ps ← slice_to (params p) (num_params p);
        Some (p, [VtCsiDispatch ps (ignored_excess_intermediates p) param])
    | Unhook => emit VtDcsUnhook
    | OscStart => quiet (fun p => Some (set_osc (osc_reset (osc p)) p))
    | OscPut => quiet (fun p => o ← osc_put (osc p) param; Some (set_osc o p))
    | OscEnd => fun p =>
        r ← osc_end (osc p);
        match r with
        | None => Some (p, [])
        | Some ps => Some (p, [VtOscDispatch ps])
        end
    | ApcStart => quiet (fun p => Some (set_apc [] false p))
    | ApcPut => quiet (fun p =>
        if Z.of_nat (length (apc_data p)) <? MAX_APC_BYTES
        then Some (set_apc (apc_data p ++ [param]) (apc_data_truncated p) p)
        else Some (set_apc (apc_data p) true p))
    | ApcEnd => fun p =>
        if apc_data_truncated p then Some (set_apc [] (apc_data_truncated p) p, [])
        else Some (set_apc [] (apc_data_truncated p) p, [VtApcDispatch (apc_data p)])
    | Utf8 => next_utf8_with (action_n fuel') param
    end
  end.

Definition action : Action -> Z -> Step := action_n 2.

Definition next_utf8 : Z -> Step := next_utf8_with action.

Definition parse_byte (byte : Z) : Step := fun p =>
  if bool_decide (state p = Utf8Sequence) then next_utf8 byte p
  else
    '(a, st) ← lookup (state p) byte;
    if bool_decide (st <> state p) then
      ex ← lookup_exit (state p);
      en ← lookup_entry st;
      '(p', ev) ←
        then_ (if bool_decide (st <> Utf8Sequence) then action ex 0 else skip)
          (then_ (action a byte) (action en byte)) p;
      Some (set_state st (set_return_state (state p') p'), ev)
    else action a byte p.

Fixpoint parse (bytes : list Z) : Step :=
  match bytes with
  | [] => skip
  | b :: r => then_ (parse_byte b) (parse r)
  end.

(** What a fresh parser reports for a byte string. *)
Definition parse_as_vec (bytes : list Z) : option (list VTAction) :=
  '(_, ev) ← parse bytes vt_new; Some ev.

End Parser.

(** ** A concrete decoder for the witnesses

    A strict UTF-8 decoder: the bytes still expected, the bits read so far, and
    the range the next continuation byte must be in. *)
Record Utf8St : Set := mkU { u_need : nat; u_acc : Z; u_lo : Z; u_hi : Z }.

Definition utf8_ref_advance (u : Utf8St) (b : Z) : Utf8St * list Utf8Event :=
  let idle := mkU 0 0 0 0 in
  match u_need u with
  | O =>
      if rng 0 0x7f b then (idle, [Codepoint b])
      else if rng 0xc2 0xdf b then (mkU 1 (Z.land b 0x1f) 0x80 0xbf, [])
      else if b =? 0xe0 then (mkU 2 0 0xa0 0xbf, [])
      else if b =? 0xed then (mkU 2 0xd 0x80 0x9f, [])
      else if rng 0xe1 0xef b then (mkU 2 (Z.land b 0xf) 0x80 0xbf, [])
      else if b =? 0xf0 then (mkU 3 0 0x90 0xbf, [])
      else if b =? 0xf4 then (mkU 3 4 0x80 0x8f, [])
      else if rng 0xf1 0xf3 b then (mkU 3 (Z.land b 7) 0x80 0xbf, [])
      else (idle, [InvalidSequence])
  | S n =>
      if rng (u_lo u) (u_hi u) b then
        let c := u_acc u * 64 + Z.land b 0x3f in
        match n with
        | O => (idle, if bool_decide (0 <= c <= 0xD7FF) || bool_decide (0xE000 <= c <= 0x10FFFF)
                      then [Codepoint c] else [InvalidSequence])
        | S _ => (mkU n c 0x80 0xbf, [])
        end
      else (idle, [InvalidSequence])
  end.

#[export] Instance Utf8Ref : Utf8Parse :=
  {| Utf8Parser := Utf8St; utf8_new := mkU 0 0 0 0; utf8_advance := utf8_ref_advance |}.

(** The reference decoder satisfies the laws. *)
#[export] Instance Utf8RefLaws : Utf8ParseLaws Utf8Ref.
Proof.
  refine {| utf8_idle := fun u : @Utf8Parser Utf8Ref => u_need u = O |}.
  - reflexivity.
  - intros u b Hu Hb. cbn in *. unfold utf8_ref_advance. rewrite Hu.
    repeat case_goal; try done; rewrite ?rng_spec, ?rng_false in *; lia.
  - intros u b. cbn. unfold utf8_ref_advance. repeat case_goal; cbn; done.
  - intros u b c. cbn. unfold utf8_ref_advance.
    repeat case_goal; cbn; try tauto; intros [[= <-]|[]];
      rewrite ?rng_spec, ?rng_false in *; unfold is_scalar;
      rewrite ?orb_true_iff, ?bool_decide_eq_true in *; lia.
Defined.
