(* ===== verification/VtParseProps.v ===== *)
(** Theorems about [vtparse]: the parser's invariant, that no byte string makes
    it panic or read outside a table, and what it reports for text, control,
    CSI and OSC sequences. *)

From Stdlib Require Import ZArith Lia String Sorted.
From stdpp Require Import base numbers list option.
From S2P Require Import Prelude VtTables VtParse.
Local Open Scope Z_scope.

(** ** Well-formedness *)

Definition param_ok (c : CsiParam) : Prop :=
  match c with Integer i => in_i64 i | P b => is_byte b end.

(** The OSC accumulator: the recorded indices cut the buffer in order. *)
Record osc_wf (o : OscState) : Prop := {
  ow_len : length (param_indices o) = MAX_OSC;
  ow_num : (osc_num_params o <= MAX_OSC)%nat;
  ow_sorted : StronglySorted le (take (osc_num_params o - 1) (param_indices o));
  ow_cuts : Forall (fun x => (x <= length (buffer o))%nat)
              (take (osc_num_params o - 1) (param_indices o));
  ow_bytes : Z.of_nat (length (buffer o)) <= input_bytes o <= MAX_OSC_BYTES;
  ow_empty : osc_num_params o = O -> buffer o = []
}.

Section Props.
  Context {UP : Utf8Parse} {UL : Utf8ParseLaws UP}.

(** Everything but the control state. *)
Record core_wf (p : VTParser) : Prop := {
  cw_ilen : length (intermediates p) = MAX_INTERMEDIATES;
  cw_inum : (num_intermediates p <= MAX_INTERMEDIATES)%nat;
  cw_ibytes : Forall is_byte (intermediates p);
  cw_osc : osc_wf (osc p);
  cw_plen : length (params p) = MAX_PARAMS;
  cw_pnum : (num_params p <= MAX_PARAMS)%nat;
  cw_pok : Forall param_ok (params p);
  cw_cur : match current_param p with
           | None => True | Some (Integer i) => in_i64 i | Some (P _) => False end;
  cw_apc : Z.of_nat (length (apc_data p)) <= MAX_APC_BYTES
}.

(** The control state: the decoder is busy only in [Utf8Sequence], which is
    entered from [Ground] or [OscString] only. *)
Definition ctl_wf (p : VTParser) : Prop :=
  match state p with
  | Anywhere => False
  | Utf8Sequence => utf8_return_state p = Ground \/ utf8_return_state p = OscString
  | _ => utf8_idle (utf8_parser p)
  end.

Definition vt_wf (p : VTParser) : Prop := core_wf p /\ ctl_wf p.

(** What an actor may rely on. *)
Definition event_ok (e : VTAction) : Prop :=
  match e with
  | VtPrint c => is_scalar c
  | VtExecuteC0orC1 b | VtDcsPut b => is_byte b
  | VtDcsHook ps inter _ b | VtEscDispatch ps inter _ b =>
      (length ps <= MAX_PARAMS)%nat /\ (length inter <= MAX_INTERMEDIATES)%nat /\
      Forall in_i64 ps /\ Forall is_byte inter /\ is_byte b
  | VtDcsUnhook => True
  | VtCsiDispatch ps _ b => (length ps <= MAX_PARAMS)%nat /\ Forall param_ok ps /\ is_byte b
  | VtOscDispatch ps =>
      (length ps <= MAX_OSC)%nat /\ Z.of_nat (length (concat ps)) <= MAX_OSC_BYTES
  | VtApcDispatch d => Z.of_nat (length d) <= MAX_APC_BYTES
  end.

Definition ctl (p : VTParser) : State * State * Utf8Parser :=
  (state p, utf8_return_state p, utf8_parser p).

(** A step that runs, keeps the core well-formed, leaves the control state
    alone and reports sound events. *)
Definition ok_step (f : Step) (p : VTParser) : Prop :=
  exists p' ev, f p = Some (p', ev) /\ core_wf p' /\ ctl p' = ctl p /\ Forall event_ok ev.

Lemma then_ok f g p :
  ok_step f p -> (forall p', core_wf p' -> ctl p' = ctl p -> ok_step g p') ->
  ok_step (then_ f g) p.
Proof.
  intros (p1 & e1 & H1 & W1 & C1 & F1) Hg.
  destruct (Hg p1 W1 C1) as (p2 & e2 & H2 & W2 & C2 & F2).
  exists p2, (e1 ++ e2). unfold then_. rewrite H1; cbn. rewrite H2; cbn.
  split; [done|]. split; [done|]. split; [congruence|]. by apply Forall_app.
Qed.

Lemma skip_ok p : core_wf p -> ok_step skip p.
Proof. intros W. by exists p, []. Qed.

Lemma emit_ok e p : core_wf p -> event_ok e -> ok_step (emit e) p.
Proof. intros W H. exists p, [e]. split; [done|]. split; [done|]. auto. Qed.

Lemma quiet_ok f p :
  (exists p', f p = Some p' /\ core_wf p' /\ ctl p' = ctl p) -> ok_step (quiet f) p.
Proof. intros (p' & E & W & C). exists p', []. unfold quiet. rewrite E. by cbn. Qed.

(** ** The parameter operations *)

Lemma digit_range b : is_digit b = true -> 0 <= b - "0"%ch <= 9.
Proof. unfold is_digit. rewrite rng_spec. lia. Qed.

Lemma i64_sat_mul_add i d : in_i64 (i64_saturating_add (i64_saturating_mul i 10) d).
Proof. apply i64_sat_in. Qed.

Lemma set_params_wf l p n :
  core_wf p -> length l = MAX_PARAMS -> Forall param_ok l -> (n <= MAX_PARAMS)%nat ->
  core_wf (set_params l n p).
Proof. intros [] ???. by constructor. Qed.

Lemma set_intermediates_wf l n b p :
  core_wf p -> length l = MAX_INTERMEDIATES -> Forall is_byte l ->
  (n <= MAX_INTERMEDIATES)%nat ->
  core_wf (set_intermediates l n b p).
Proof. intros [] ???. by constructor. Qed.

Lemma finish_param_ok p :
  core_wf p -> exists p', finish_param p = Some p' /\ core_wf p' /\ ctl p' = ctl p /\
    current_param p' = None /\ num_intermediates p' = num_intermediates p.
Proof.
  intros W. unfold finish_param. destruct (current_param p) as [c|] eqn:Ec; [|eauto 10].
  assert (Hc : param_ok c) by (pose proof (cw_cur p W) as H; rewrite Ec in H; by destruct c).
  cbn [set_current num_params params].
  destruct (num_params p <? MAX_PARAMS)%nat eqn:En; bool_to_prop.
  - rewrite arr_set_Some by (by rewrite (cw_plen p W)). cbn.
    eexists. split; [done|]. split; [|done].
    destruct W; constructor; cbn; try done.
    + by rewrite length_insert.
    + lia.
    + by apply Forall_insert.
  - eexists. split; [done|]. split; [|done]. destruct W; by constructor.
Qed.

Lemma promote_go_ok inter p :
  Forall is_byte inter -> core_wf p ->
  exists p', promote_go inter p = Some p' /\ core_wf p' /\ ctl p' = ctl p /\
    current_param p' = current_param p /\ intermediates p' = intermediates p.
Proof.
  revert p. induction inter as [|b r IH]; intros p Hb W; [cbn; eauto 10|].
  apply Forall_cons_iff in Hb as [Hb Hr]. cbn.
  destruct (MAX_PARAMS <=? num_params p)%nat eqn:En; bool_to_prop.
  - eexists; split; [done|]. split; [|done]. destruct W; by constructor.
  - rewrite arr_set_Some by (by rewrite (cw_plen p W)). cbn.
    destruct (IH (set_params (<[num_params p:=P b]> (params p)) (num_params p + 1) p))
      as (p' & E & W' & C & D & I); [done| |].
    + apply set_params_wf; [done| |apply Forall_insert; [apply W|done]|lia].
      rewrite length_insert. apply W.
    + exists p'. by split_and!.
Qed.

Lemma promote_ok p :
  core_wf p -> exists p', promote_intermediates_to_params p = Some p' /\ core_wf p' /\
    ctl p' = ctl p /\ current_param p' = current_param p.
Proof.
  intros W. unfold promote_intermediates_to_params.
  destruct (0 <? num_intermediates p)%nat; [|eauto 10].
  rewrite slice_to_Some by (rewrite (cw_ilen p W); apply W). cbn.
  destruct (promote_go_ok (take (num_intermediates p) (intermediates p)) p)
    as (p' & E & W' & C & D & I); [apply Forall_take, W|done|].
  rewrite E. cbn. eexists; split; [done|].
  split; [|done]. apply set_intermediates_wf; [done|apply W'|apply W'|cbn; lia].
Qed.

Lemma do_param_ok b p :
  is_byte b -> core_wf p ->
  exists p', do_param b p = Some p' /\ core_wf p' /\ ctl p' = ctl p.
Proof.
  intros Hb W. unfold do_param. destruct (params_full p); [eauto|].
  destruct (promote_ok p W) as (p1 & -> & W1 & C1 & D1). cbn.
  destruct (is_digit b) eqn:Ed.
  - apply digit_range in Ed. pose proof (cw_cur p1 W1) as Hc.
    destruct (current_param p1) as [[i|q]|]; [|done|]; (eexists; split; [done|]);
      (split; [|done]); destruct W1; constructor; try done; cbn;
      [apply i64_sat_mul_add | unfold in_i64, i64_min, i64_max; lia].
  - destruct (finish_param_ok p1 W1) as (p2 & -> & W2 & C2 & _). cbn.
    destruct (MAX_PARAMS <? num_params p2 + 1)%nat eqn:En; bool_to_prop.
    + eexists; split; [done|]. split; [destruct W2; by constructor|].
      transitivity (ctl p2); [done|congruence].
    + rewrite arr_set_Some by (rewrite (cw_plen p2 W2); lia). cbn.
      eexists; split; [done|]. split; [|transitivity (ctl p2); [done|congruence]].
      apply set_params_wf; [done| |apply Forall_insert; [apply W2|done]|lia].
      rewrite length_insert. apply W2.
Qed.

Lemma do_collect_ok b p :
  is_byte b -> core_wf p ->
  exists p', do_collect b p = Some p' /\ core_wf p' /\ ctl p' = ctl p.
Proof.
  intros Hb W. unfold do_collect.
  destruct (num_intermediates p <? MAX_INTERMEDIATES)%nat eqn:En; bool_to_prop.
  - rewrite arr_set_Some by (by rewrite (cw_ilen p W)). cbn.
    eexists; split; [done|]. split; [|done].
    apply set_intermediates_wf; [done| |apply Forall_insert; [apply W|done]|lia].
    rewrite length_insert. apply W.
  - eexists; split; [done|]. split; [|done].
    apply set_intermediates_wf; [done|apply W|apply W|apply W].
Qed.

Lemma integer_params_go_ok src res i :
  Forall param_ok src -> Forall in_i64 res -> (i + length src <= length res)%nat ->
  exists res', integer_params_go src res i = Some res' /\ length res' = length res /\
    Forall in_i64 res'.
Proof.
  revert res i. induction src as [|c src IH]; intros res i Hs Hr Hl; [cbn; eauto|].
  apply Forall_cons_iff in Hs as [Hc Hs]. cbn in *. destruct c as [v|b].
  - rewrite arr_set_Some by lia. cbn.
    destruct (IH (<[i:=v]> res) i) as (res' & E & L & F); [done|by apply Forall_insert| |].
    + rewrite length_insert. lia.
    + exists res'. rewrite length_insert in L. done.
  - apply IH; [done|done|]. destruct (b =? 59); lia.
Qed.

Lemma dispatch_args_ok p :
  core_wf p -> exists ints inter, dispatch_args p = Some (ints, inter) /\
    (length ints <= MAX_PARAMS)%nat /\ (length inter <= MAX_INTERMEDIATES)%nat /\
    Forall in_i64 ints /\ Forall is_byte inter.
Proof.
  intros W. unfold dispatch_args, as_integer_params.
  rewrite (slice_to_Some (params p)) by (rewrite (cw_plen p W); apply W). msimpl.
  destruct (integer_params_go_ok (take (num_params p) (params p)) (replicate MAX_PARAMS 0) 0)
    as (res & E & L & F).
  - apply Forall_take, W.
  - apply Forall_replicate. unfold in_i64, i64_min, i64_max. lia.
  - rewrite length_take, length_replicate, (cw_plen p W). lia.
  - rewrite E. msimpl. rewrite length_replicate in L.
    rewrite (slice_to_Some res) by (rewrite L; apply W). msimpl.
    rewrite slice_to_Some by (rewrite (cw_ilen p W); apply W). cbn.
    eexists _, _; split; [done|]. rewrite !length_take, L, (cw_ilen p W).
    split_and!; try lia.
    + by apply Forall_take.
    + apply Forall_take, W.
Qed.

(** ** The OSC accumulator *)

Lemma take_insert_snoc {A} (l : list A) n x :
  (n < length l)%nat -> take (S n) (<[n := x]> l) = take n l ++ [x].
Proof.
  intros H. rewrite (take_S_r _ _ x).
  - rewrite take_insert_ge by lia. done.
  - by rewrite list_lookup_insert_eq by lia.
Qed.

Lemma StronglySorted_snoc l x :
  StronglySorted le l -> Forall (fun y => (y <= x)%nat) l -> StronglySorted le (l ++ [x]).
Proof.
  induction l as [|y l IH]; intros Hs Hf; cbn.
  - repeat constructor.
  - apply StronglySorted_inv in Hs as [Hs Hy]. apply Forall_cons_iff in Hf as [Hx Hf].
    constructor; [by apply IH|]. apply Forall_app. by repeat constructor.
Qed.

Lemma encode_utf8_length c : (1 <= length (encode_utf8 c) <= 4)%nat.
Proof. unfold encode_utf8. repeat case_goal; cbn; lia. Qed.

Lemma osc_put_ok o c : osc_wf o -> exists o', osc_put o c = Some o' /\ osc_wf o'.
Proof.
  intros [L N So Cu By Em]. unfold osc_put.
  pose proof (encode_utf8_length c) as He. set (enc := encode_utf8 c) in *.
  destruct (MAX_OSC_BYTES <? _) eqn:Eb; bool_to_prop.
  { eexists; split; [done|]. by constructor. }
  unfold usize_saturating_add in Eb. change MAX_OSC_BYTES with 1048576 in *.
  destruct (c =? 59) eqn:Ec; bool_to_prop.
  - destruct (osc_num_params o =? MAX_OSC)%nat eqn:En; bool_to_prop.
    + eexists; split; [done|]. constructor; cbn; try done. unfold MAX_OSC_BYTES; lia.
    + rewrite arr_set_Some by (rewrite L; unfold MAX_OSC in *; lia). cbn.
      eexists; split; [done|].
      destruct (osc_num_params o) as [|n] eqn:Enum.
      * constructor; cbn; rewrite ?length_insert; try done; try constructor.
        all: unfold MAX_OSC, MAX_OSC_BYTES in *; lia.
      * replace (S n - 1)%nat with n in * by lia.
        constructor; cbn [param_indices osc_num_params buffer input_bytes];
          rewrite ?length_insert; try done.
        -- unfold MAX_OSC in *; lia.
        -- replace (S n + 1 - 1)%nat with (S n) by lia.
           rewrite take_insert_snoc by (unfold MAX_OSC in *; lia).
           by apply StronglySorted_snoc.
        -- replace (S n + 1 - 1)%nat with (S n) by lia.
           rewrite take_insert_snoc by (unfold MAX_OSC in *; lia).
           apply Forall_app. by repeat constructor.
        -- unfold MAX_OSC_BYTES; lia.
  - destruct (full o); cbn [negb].
    + eexists; split; [done|]. constructor; cbn; try done. unfold MAX_OSC_BYTES; lia.
    + eexists; split; [done|].
      assert (Hn : ((if (osc_num_params o =? 0)%nat then 1 else osc_num_params o) - 1
                    = osc_num_params o - 1)%nat)
        by (destruct (Nat.eqb_spec (osc_num_params o) 0); lia).
      constructor; cbn [param_indices osc_num_params buffer input_bytes]; rewrite ?Hn; try done.
      * destruct (osc_num_params o =? 0)%nat; unfold MAX_OSC in *; lia.
      * eapply Forall_impl; [|exact Cu]. cbn. intros x Hx. rewrite length_app. lia.
      * rewrite length_app. unfold MAX_OSC_BYTES; lia.
      * destruct (Nat.eqb_spec (osc_num_params o) 0); lia.
Qed.

Lemma osc_reset_wf o : osc_wf o -> osc_wf (osc_reset o).
Proof.
  intros [L N So Cu By Em]. constructor; cbn; try done; try lia; try constructor.
Qed.

(** The pieces that the indices [is] cut from [slice], [offset] bytes into the
    buffer: what the loop of [OscEnd] computes. *)
Fixpoint cut (idx : list nat) (offset : nat) (slice : list Z) : list (list Z) * list Z :=
  match idx with
  | [] => ([], slice)
  | x :: r =>
      let '(ps, s) := cut r x (drop (x - offset) slice) in
      (take (x - offset) slice :: ps, s)
  end.

Lemma cut_concat idx offset slice :
  concat (fst (cut idx offset slice)) ++ snd (cut idx offset slice) = slice.
Proof.
  revert offset slice. induction idx as [|x r IH]; intros offset slice; [done|].
  cbn. specialize (IH x (drop (x - offset) slice)).
  destruct (cut r x (drop (x - offset) slice)) as [ps s]. cbn in *.
  by rewrite <- app_assoc, IH, take_drop.
Qed.

Lemma cut_length idx offset slice : length (fst (cut idx offset slice)) = length idx.
Proof.
  revert offset slice. induction idx as [|x r IH]; intros offset slice; [done|].
  cbn. specialize (IH x (drop (x - offset) slice)).
  destruct (cut r x (drop (x - offset) slice)) as [ps s]. cbn in *. by rewrite IH.
Qed.

Lemma osc_split_cut indices k n params offset slice done_ :
  (k + n <= length params)%nat -> (k + n <= length indices)%nat ->
  take k params = done_ ->
  StronglySorted le (take n (drop k indices)) ->
  Forall (fun x => (offset <= x <= offset + length slice)%nat) (take n (drop k indices)) ->
  exists params',
    osc_split indices (seq k n) params offset slice =
      Some (params', snd (cut (take n (drop k indices)) offset slice)) /\
    length params' = length params /\
    take (k + n) params' = done_ ++ fst (cut (take n (drop k indices)) offset slice).
Proof.
  revert k params offset slice done_.
  induction n as [|n IH]; intros k params offset slice done_ Hp Hi Hd Hs Hf.
  - exists params. cbn. by rewrite Nat.add_0_r, app_nil_r.
  - destruct (lookup_lt_is_Some_2 indices k) as [x Hx]; [lia|].
    rewrite (drop_S _ _ _ Hx) in *. cbn [firstn take] in *.
    apply StronglySorted_inv in Hs as [Hs Hxs]. apply Forall_cons_iff in Hf as [Hx1 Hf].
    cbn [seq osc_split]. unfold arr_get. rewrite Hx. msimpl.
    rewrite usize_sub_Some by lia. msimpl.
    rewrite split_at_Some by lia. msimpl.
    rewrite arr_set_Some by lia. msimpl.
    destruct (IH (S k) (<[k:=take (x - offset) slice]> params) x (drop (x - offset) slice)
                (done_ ++ [take (x - offset) slice]))
      as (params' & E & L & T).
    + rewrite length_insert. lia.
    + lia.
    + rewrite take_insert_snoc by lia. by rewrite Hd.
    + done.
    + rewrite length_drop. apply Forall_forall. intros y Hy.
      pose proof (proj1 (Forall_forall _ _) Hxs y Hy).
      pose proof (proj1 (Forall_forall _ _) Hf y Hy). cbn in *. lia.
    + exists params'. rewrite E. cbn [cut].
      destruct (cut (take n (drop (S k) indices)) x (drop (x - offset) slice)) as [ps s].
      cbn [fst snd] in *. rewrite length_insert in L. split; [done|]. split; [done|].
      replace (k + S n)%nat with (S k + n)%nat by lia. rewrite T. by rewrite <- app_assoc.
Qed.

(** The dispatched parameters are the pieces the indices cut from the buffer. *)
Definition osc_pieces (o : OscState) : list (list Z) :=
  let c := cut (take (osc_num_params o - 1) (param_indices o)) 0 (buffer o) in
  if (osc_num_params o =? 0)%nat then [] else fst c ++ [snd c].

Lemma osc_end_pieces o :
  osc_wf o ->
  osc_end o = Some (if data_truncated o then None else Some (osc_pieces o)).
Proof.
  intros [L N So Cu By Em]. unfold osc_end, osc_pieces.
  destruct (data_truncated o); [done|].
  destruct (osc_num_params o =? 0)%nat eqn:E0; [done|]. bool_to_prop.
  rewrite Nat.min_l by done.
  destruct (osc_split_cut (param_indices o) 0 (osc_num_params o - 1)
              (replicate MAX_OSC []) 0 (buffer o) [])
    as (params' & E & Lp & T).
  - rewrite length_replicate. lia.
  - rewrite L. lia.
  - done.
  - by rewrite drop_0.
  - rewrite drop_0. eapply Forall_impl; [|exact Cu]. cbn. lia.
  - rewrite drop_0 in E, T. rewrite E. msimpl.
    rewrite length_replicate in Lp.
    rewrite usize_sub_Some by lia. msimpl.
    rewrite arr_set_Some by lia. msimpl.
    rewrite slice_to_Some by (rewrite length_insert; lia). msimpl.
    do 2 f_equal.
    replace (take (osc_num_params o)) with (@take (list Z) (S (osc_num_params o - 1)))
      by (f_equal; lia).
    rewrite take_insert_snoc by lia. rewrite Nat.add_0_l in T. by rewrite T.
Qed.

Lemma osc_pieces_ok o :
  osc_wf o ->
  (length (osc_pieces o) <= MAX_OSC)%nat /\
  Z.of_nat (length (concat (osc_pieces o))) <= MAX_OSC_BYTES.
Proof.
  intros [L N So Cu By Em]. unfold osc_pieces.
  set (idx := take (osc_num_params o - 1) (param_indices o)).
  destruct (osc_num_params o =? 0)%nat eqn:E0; bool_to_prop; [cbn; unfold MAX_OSC_BYTES; lia|].
  rewrite length_app, cut_length, concat_app. cbn [concat]. rewrite app_nil_r, cut_concat.
  unfold idx. rewrite length_take. cbn [length]. lia.
Qed.

(** ** Actions *)

Lemma byte_scalar b : is_byte b -> is_scalar b.
Proof. unfold is_byte, is_scalar. lia. Qed.

Lemma set_osc_wf o p : core_wf p -> osc_wf o -> core_wf (set_osc o p).
Proof. intros [] H. by constructor. Qed.

Lemma do_clear_wf p : core_wf p -> core_wf (do_clear p).
Proof.
  intros []. constructor; cbn; try done; try lia. by apply osc_reset_wf.
Qed.

Lemma action_ok n a b p :
  a <> Utf8 -> is_byte b -> core_wf p -> ok_step (action_n (S n) a b) p.
Proof.
  intros Ha Hb W. destruct a; cbn [action_n]; try done.
  - by apply skip_ok.
  - by apply skip_ok.
  - apply emit_ok; [done|]. by apply byte_scalar.
  - by apply emit_ok.
  - apply quiet_ok. eexists; split; [done|]. split; [by apply do_clear_wf|done].
  - by apply quiet_ok, do_collect_ok.
  - by apply quiet_ok, do_param_ok.
  - destruct (finish_param_ok p W) as (p1 & E1 & W1 & C1 & _).
    destruct (dispatch_args_ok p1 W1) as (ints & inter & E2 & ?).
    eexists p1, _. rewrite E1; msimpl. rewrite E2; msimpl. split; [done|].
    split; [done|]. split; [done|].
    apply Forall_singleton. cbn. tauto.
  - destruct (finish_param_ok p W) as (p1 & E1 & W1 & C1 & _).
    destruct (promote_ok p1 W1) as (p2 & E2 & W2 & C2 & _).
    eexists p2, _. rewrite E1; msimpl. rewrite E2; msimpl.
    rewrite (slice_to_Some (params p2)) by (rewrite (cw_plen p2 W2); apply W2). msimpl.
    split; [done|]. split; [done|]. split; [congruence|].
    apply Forall_singleton. split_and!; [|apply Forall_take, W2|done].
    rewrite length_take, (cw_plen p2 W2). lia.
  - destruct (finish_param_ok p W) as (p1 & E1 & W1 & C1 & _).
    destruct (dispatch_args_ok p1 W1) as (ints & inter & E2 & ?).
    eexists p1, _. rewrite E1; msimpl. rewrite E2; msimpl. split; [done|].
    split; [done|]. split; [done|].
    apply Forall_singleton. cbn. tauto.
  - by apply emit_ok.
  - by apply emit_ok.
  - apply quiet_ok. eexists; split; [done|].
    split; [apply set_osc_wf; [done|apply osc_reset_wf, W]|done].
  - apply quiet_ok. destruct (osc_put_ok (osc p) b (cw_osc p W)) as (o & E & Ho).
    rewrite E. eexists; split; [done|]. split; [by apply set_osc_wf|done].
  - unfold ok_step. rewrite osc_end_pieces by apply W. msimpl.
    destruct (data_truncated (osc p)); eexists p, _; (split; [done|]); (split; [done|]);
      (split; [done|]); [done|]. apply Forall_singleton, osc_pieces_ok, W.
  - apply quiet_ok. eexists; split; [done|]. split; [|done].
    destruct W; constructor; try done.
  - apply quiet_ok.
    destruct (Z.of_nat (length (apc_data p)) <? MAX_APC_BYTES) eqn:El; bool_to_prop;
      (eexists; split; [done|]); (split; [|done]); destruct W; constructor; try done.
    cbn [apc_data set_apc]. rewrite length_app. cbn. lia.
  - unfold ok_step. pose proof (cw_apc p W).
    assert (core_wf (set_apc [] (apc_data_truncated p) p))
      by (destruct W; constructor; try done; cbn; unfold MAX_APC_BYTES; lia).
    destruct (apc_data_truncated p); eexists _, _; (split; [done|]); (split; [done|]);
      (split; [done|]); auto.
Qed.

(** What the tables guarantee: [Utf8] is exactly the way into [Utf8Sequence], on
    lead bytes, from the two states whose text may hold multi-byte characters;
    no entry leads to [Anywhere]; staying in a state is never [Utf8]. *)
Definition utf8_table_ok (s : State) (b : Z) (a : Action) (s' : State) : bool :=
  Bool.eqb (bool_decide (a = Utf8)) (bool_decide (s' = Utf8Sequence)) &&
  bool_decide (s' <> Anywhere) &&
  (negb (bool_decide (a = Utf8)) ||
   (rng 0xC2 0xF4 b && (bool_decide (s = Ground) || bool_decide (s = OscString)))).

Lemma utf8_tables_ok : table_check utf8_table_ok = true.
Proof. vm_compute. reflexivity. Qed.

Lemma lookup_utf8 s b :
  tabled s = true -> is_byte b ->
  exists a s', lookup s b = Some (a, s') /\ (a = Utf8 <-> s' = Utf8Sequence) /\
    s' <> Anywhere /\ (a = Utf8 -> 0xC2 <= b <= 0xF4 /\ (s = Ground \/ s = OscString)).
Proof.
  intros Hs Hb. destruct (table_checked _ s b utf8_tables_ok Hs Hb) as (a & s' & E & H).
  exists a, s'. split; [done|]. unfold utf8_table_ok in H. bool_to_prop.
  apply Bool.eqb_prop in H. apply bool_decide_eq_true in H1.
  split_and!; [|done|].
  - split; intros ->.
    + rewrite bool_decide_eq_true_2 in H by done. symmetry in H. by apply bool_decide_eq_true in H.
    + rewrite (bool_decide_eq_true_2 (Utf8Sequence = _)) in H by done.
      by apply bool_decide_eq_true in H.
  - intros ->. destruct H0 as [H0|H0]; bool_to_prop.
    + by rewrite bool_decide_eq_true_2 in H0.
    + rewrite rng_spec in H0. rewrite !bool_decide_eq_true in H2. done.
Qed.

Lemma exit_entry_ok s :
  (exists a, lookup_exit s = Some a /\ a <> Utf8) /\
  (exists a, lookup_entry s = Some a /\ a <> Utf8).
Proof. destruct s; split; eexists; (split; [reflexivity|done]). Qed.

(** ** The decoder *)

Lemma decoded_nonempty evs c : decoded evs = Some c -> evs <> [].
Proof. by destruct evs. Qed.

Lemma decoded_scalar evs c :
  (forall d, In (Codepoint d) evs -> is_scalar d) -> decoded evs = Some c -> is_scalar c.
Proof.
  intros H. unfold decoded. rewrite <- fold_left_rev_right.
  destruct (rev evs) as [|e r] eqn:E; [done|]. cbn.
  destruct e as [d|]; intros [= <-].
  - apply H. apply in_rev. rewrite E. by left.
  - unfold is_scalar. lia.
Qed.

Lemma decoded_None evs : decoded evs = None -> evs = [].
Proof.
  unfold decoded. rewrite <- fold_left_rev_right.
  destruct (rev evs) as [|e r] eqn:E; [|by destruct e].
  intros _. rewrite <- (rev_involutive evs), E. done.
Qed.

Lemma deliver_ok c p :
  is_scalar c -> core_wf p -> utf8_idle (utf8_parser p) ->
  utf8_return_state p = Ground \/ utf8_return_state p = OscString ->
  exists p' ev, deliver c p = Some (p', ev) /\ core_wf p' /\
    Forall event_ok ev /\ tabled (state p') = true /\ utf8_idle (utf8_parser p').
Proof.
  intros Hsc W Hi Hret. unfold deliver. destruct Hret as [E | E]; rewrite E; msimpl.
  - eexists _, _. split; [done|]. split; [destruct W; by constructor|].
    split; [by apply Forall_singleton|]. cbn. by rewrite E.
  - destruct (osc_put_ok (osc p) c (cw_osc p W)) as (o & Eo & Ho).
    rewrite Eo. msimpl. eexists _, _. split; [done|].
    split; [by destruct W; constructor|]. cbn. by rewrite E.
Qed.

(** Decoding one byte, in the middle of a sequence: either the sequence goes on
    and only the decoder moves, or a character was delivered and the parser is
    back in a state with a table and an idle decoder. *)
Lemma next_utf8_ok b p :
  is_byte b -> core_wf p ->
  utf8_return_state p = Ground \/ utf8_return_state p = OscString ->
  exists p' ev, next_utf8 b p = Some (p', ev) /\ core_wf p' /\ Forall event_ok ev /\
    (snd (utf8_advance (utf8_parser p) b) = [] /\ ev = [] /\
       p' = set_utf8 (fst (utf8_advance (utf8_parser p) b)) p
     \/ tabled (state p') = true /\ utf8_idle (utf8_parser p')).
Proof.
  intros Hb W Hret. unfold next_utf8, next_utf8_with.
  destruct (utf8_advance (utf8_parser p) b) as [u evs] eqn:Eu.
  assert (W1 : core_wf (set_utf8 u p)) by (destruct W; by constructor).
  destruct (decoded evs) as [c|] eqn:Ed.
  2:{ apply decoded_None in Ed. eexists _, _. cbn. auto 10. }
  assert (Hidle : utf8_idle u).
  { pose proof (utf8_done (utf8_parser p) b) as H. rewrite Eu in H.
    by apply H, (decoded_nonempty _ _ Ed). }
  assert (Hsc : is_scalar c).
  { apply (decoded_scalar evs); [|done]. intros d Hd. apply (utf8_scalar (utf8_parser p) b).
    by rewrite Eu. }
  cbn zeta beta.
  assert (Hdel : exists p' ev, deliver c (set_utf8 u p) = Some (p', ev) /\ core_wf p' /\
    Forall event_ok ev /\ tabled (state p') = true /\ utf8_idle (utf8_parser p'))
    by (by apply deliver_ok).
  destruct Hdel as (pd & ed & Edel & Wd & Fd & Td & Id).
  destruct (c <=? 255) eqn:Ec; bool_to_prop.
  2:{ exists pd, ed. auto 10. }
  assert (Hcb : as_u8 (Z.land c 255) = c).
  { unfold as_u8. change 255 with (Z.ones 8). rewrite Z.land_ones by lia.
    unfold is_scalar in Hsc. rewrite !Z.mod_small; rewrite ?Z.mod_small; lia. }
  rewrite Hcb.
  assert (Hbc : is_byte c) by (unfold is_scalar, is_byte in *; lia).
  destruct (lookup_utf8 (utf8_return_state p) c) as (a & st & El & Hiff & Han & _);
    [by destruct Hret as [-> | ->]|done|].
  cbn [utf8_return_state set_utf8]. rewrite El. msimpl.
  destruct (bool_decide (a = Execute) || _) eqn:Eg.
  2:{ exists pd, ed. auto 10. }
  assert (Ha : a <> Utf8 /\ st <> Utf8Sequence).
  { rewrite orb_true_iff, andb_true_iff, !bool_decide_eq_true in Eg. intuition congruence. }
  destruct Ha as [Ha Hst].
  destruct (exit_entry_ok (utf8_return_state p)) as [(ex & -> & Hex) _].
  destruct (exit_entry_ok st) as [_ (en & -> & Hen)]. msimpl.
  destruct (then_ok (action ex 0) (then_ (action a c) (action en 0)) (set_utf8 u p))
    as (p' & ev & E & W' & C' & F').
  { apply action_ok; [done|unfold is_byte; lia|done]. }
  { intros q Wq Cq. apply then_ok; [by apply action_ok|].
    intros q' Wq' Cq'. apply action_ok; [done|unfold is_byte; lia|done]. }
  rewrite E. msimpl. eexists _, _. split; [done|].
  split; [destruct W'; by constructor|]. split; [done|]. right.
  split; [|injection C' as ?? E3; cbn; by rewrite E3]. cbn. by destruct st.
Qed.

(** ** One byte *)

Lemma parse_byte_ok b p :
  is_byte b -> vt_wf p ->
  exists p' ev, parse_byte b p = Some (p', ev) /\ vt_wf p' /\ Forall event_ok ev.
Proof.
  intros Hb [W Hctl]. unfold parse_byte.
  destruct (decide (state p = Utf8Sequence)) as [Es|Es].
  - rewrite bool_decide_eq_true_2 by done. unfold ctl_wf in Hctl. rewrite Es in Hctl.
    destruct (next_utf8_ok b p Hb W Hctl) as (p' & ev & E & W' & F & D).
    exists p', ev. split; [done|]. split; [|done]. split; [done|].
    destruct D as [(_ & _ & ->) | [T I]]; unfold ctl_wf.
    + cbn. by rewrite Es.
    + by destruct (state p').
  - rewrite bool_decide_eq_false_2 by done.
    assert (Hidle : tabled (state p) = true /\ utf8_idle (utf8_parser p))
      by (unfold ctl_wf in Hctl; by destruct (state p)).
    destruct Hidle as [Ht Hidle].
    destruct (lookup_utf8 (state p) b Ht Hb) as (a & st & El & Hiff & Han & Hlead).
    rewrite El. msimpl.
    destruct (decide (st = state p)) as [Est|Est].
    + rewrite bool_decide_eq_false_2 by (by intros []).
      assert (Ha : a <> Utf8) by (rewrite Hiff; congruence).
      destruct (action_ok 1 a b p Ha Hb W) as (p' & ev & E & W' & C' & F).
      exists p', ev. split; [done|]. split; [|done]. split; [done|].
      injection C' as E1 E2 E3. unfold ctl_wf in *. by rewrite E1, E3, E2.
    + rewrite bool_decide_eq_true_2 by done.
      destruct (exit_entry_ok (state p)) as [(ex & -> & Hex) _].
      destruct (exit_entry_ok st) as [_ (en & Een & Hen)]. rewrite Een. msimpl.
      destruct (decide (a = Utf8)) as [Ha|Ha].
      * assert (st = Utf8Sequence) as -> by tauto. subst a.
        rewrite bool_decide_eq_false_2 by (by intros []).
        injection Een as <-. destruct (Hlead eq_refl) as [Hr Hs].
        pose proof (utf8_lead _ _ Hidle Hr) as Hadv.
        unfold then_, skip, action. cbn [action_n]. msimpl. unfold next_utf8_with.
        destruct (utf8_advance (utf8_parser p) b) as [u evs]. cbn in Hadv. subst evs.
        cbn. eexists _, _. split; [done|]. split; [|done].
        split; [destruct W; by constructor|done].
      * assert (Hst : st <> Utf8Sequence) by tauto.
        rewrite bool_decide_eq_true_2 by done.
        destruct (then_ok (action ex 0) (then_ (action a b) (action en b)) p)
          as (p' & ev & E & W' & C' & F').
        { apply action_ok; [done|unfold is_byte; lia|done]. }
        { intros q Wq Cq. apply then_ok; [by apply action_ok|].
          intros q' Wq' Cq'. by apply action_ok. }
        rewrite E. msimpl. eexists _, _. split; [done|]. split; [|done].
        split; [destruct W'; by constructor|].
        injection C' as _ _ E3. unfold ctl_wf. cbn. rewrite E3. by destruct st.
Qed.

Lemma vt_new_wf : vt_wf vt_new.
Proof.
  split; [|apply utf8_new_idle]. constructor; cbn; try done; try lia.
  - repeat constructor; unfold is_byte; lia.
  - constructor; cbn; try done; try lia; try constructor.
  - repeat constructor; unfold is_byte, in_i64, i64_min, i64_max; try lia.
Qed.

Lemma parse_wf bytes p :
  Forall is_byte bytes -> vt_wf p ->
  exists p' ev, parse bytes p = Some (p', ev) /\ vt_wf p' /\ Forall event_ok ev.
Proof.
  revert p. induction bytes as [|b r IH]; intros p Hb W; [cbn; unfold skip; eauto|].
  apply Forall_cons_iff in Hb as [Hb Hr]. cbn [parse]. unfold then_.
  destruct (parse_byte_ok b p Hb W) as (p1 & e1 & E1 & W1 & F1). rewrite E1. msimpl.
  destruct (IH p1 Hr W1) as (p2 & e2 & E2 & W2 & F2). rewrite E2. msimpl.
  eexists _, _. split; [done|]. split; [done|]. by apply Forall_app.
Qed.

(** ** Reading a CSI sequence *)

(** The parser inside a CSI sequence: [acc] are the parameters recorded so far,
    [cur] the one being read and [inter] the collected intermediates. *)
Record csi_at (st : State) (acc : list CsiParam) (cur : option CsiParam)
    (inter : list Z) (p : VTParser) : Prop := {
  ca_wf : core_wf p;
  ca_idle : utf8_idle (utf8_parser p);
  ca_state : state p = st;
  ca_full : params_full p = false;
  ca_ign : ignored_excess_intermediates p = false;
  ca_num : num_params p = length acc;
  ca_acc : take (length acc) (params p) = acc;
  ca_cur : current_param p = cur;
  ca_ninter : num_intermediates p = length inter;
  ca_inter : take (length inter) (intermediates p) = inter
}.

Lemma take_set_app {A} (l acc : list A) x :
  take (length acc) l = acc -> (length acc < length l)%nat ->
  take (length (acc ++ [x])) (<[length acc := x]> l) = acc ++ [x].
Proof.
  intros H Hl. rewrite length_app, Nat.add_1_r, take_insert_snoc by done. by rewrite H.
Qed.

Lemma csi_finish st acc cur inter p :
  csi_at st acc cur inter p -> (length acc + length (opt_list cur) <= MAX_PARAMS)%nat ->
  exists p', finish_param p = Some p' /\ csi_at st (acc ++ opt_list cur) None inter p'.
Proof.
  intros A Hl. destruct (finish_param_ok p (ca_wf _ _ _ _ _ A)) as (p' & E & W & C & N & I).
  exists p'. split; [done|]. unfold finish_param in E. rewrite (ca_cur _ _ _ _ _ A) in E.
  destruct cur as [c|]; cbn [opt_list] in *.
  - cbn [set_current num_params params] in E. rewrite (ca_num _ _ _ _ _ A) in E.
    rewrite (proj2 (Nat.ltb_lt _ _)) in E by (cbn in Hl; lia).
    rewrite arr_set_Some in E
      by (rewrite (cw_plen p (ca_wf _ _ _ _ _ A)); cbn in Hl; lia).
    injection E as <-. destruct A; constructor; try done; cbn.
    + rewrite length_app. cbn. lia.
    + apply take_set_app; [done|]. rewrite (cw_plen p); [cbn in Hl; lia|done].
  - injection E as <-. rewrite app_nil_r. destruct A; by constructor.
Qed.

Lemma csi_promote_go inter p acc st cur l n :
  csi_at st acc cur l p -> n = length acc ->
  (length acc + length inter <= MAX_PARAMS)%nat -> Forall is_byte inter ->
  exists p', promote_go inter p = Some p' /\ csi_at st (acc ++ map P inter) cur l p'.
Proof.
  revert p acc n. induction inter as [|b r IH]; intros p acc n A Hn Hl Hb.
  - exists p. cbn. by rewrite app_nil_r.
  - apply Forall_cons_iff in Hb as [Hb Hr]. cbn in Hl. cbn [promote_go].
    pose proof (ca_num _ _ _ _ _ A) as Hnum. pose proof (ca_wf _ _ _ _ _ A) as W.
    rewrite (proj2 (Nat.leb_gt _ _)) by lia.
    rewrite arr_set_Some by (rewrite (cw_plen p W); lia). msimpl.
    destruct (IH (set_params (<[num_params p:=P b]> (params p)) (num_params p + 1) p)
                 (acc ++ [P b]) (length (acc ++ [P b]))) as (p' & E & A').
    + destruct A; constructor; try done.
      * apply set_params_wf; [done| |apply Forall_insert; [apply W|done]|lia].
        rewrite length_insert. apply W.
      * cbn. rewrite length_app. cbn. lia.
      * cbn [params set_params]. rewrite Hnum. apply take_set_app; [done|].
        rewrite (cw_plen p W). lia.
    + done.
    + rewrite length_app. cbn. lia.
    + done.
    + exists p'. split; [done|]. cbn. by rewrite <- app_assoc in A'.
Qed.

Lemma csi_promote st acc cur inter p :
  csi_at st acc cur inter p -> (length acc + length inter <= MAX_PARAMS)%nat ->
  exists p', promote_intermediates_to_params p = Some p' /\
    csi_at st (acc ++ map P inter) cur [] p'.
Proof.
  intros A Hl. pose proof (ca_wf _ _ _ _ _ A) as W.
  pose proof (ca_ninter _ _ _ _ _ A) as Hn. pose proof (ca_inter _ _ _ _ _ A) as Hi.
  unfold promote_intermediates_to_params.
  destruct (0 <? num_intermediates p)%nat eqn:E0; bool_to_prop.
  - rewrite slice_to_Some by (rewrite (cw_ilen p W); apply W). msimpl.
    rewrite Hn, Hi.
    destruct (csi_promote_go inter p acc st cur inter (length acc) A) as (p' & E & A');
      [done|done| |].
    { rewrite <- Hi. apply Forall_take, W. }
    rewrite E. msimpl. eexists; split; [done|].
    destruct A'; constructor; try done.
    apply set_intermediates_wf; [done|by apply cw_ilen|by apply cw_ibytes|lia].
  - destruct inter; [|cbn in *; lia]. exists p. cbn. by rewrite app_nil_r.
Qed.

Lemma then_none_l x f p : then_ (action ANone x) f p = f p.
Proof. unfold then_. cbn. by destruct (f p) as [[]|]. Qed.

Lemma then_none_r x f p : then_ f (action ANone x) p = f p.
Proof. unfold then_. destruct (f p) as [[q e]|]; [|done]. cbn. by rewrite app_nil_r. Qed.

(** One byte that does not leave the tables and has no entry or exit action. *)
Lemma parse_byte_quiet p b a st p' ev :
  state p <> Utf8Sequence -> lookup (state p) b = Some (a, st) -> st <> Utf8Sequence ->
  lookup_exit (state p) = Some ANone -> lookup_entry st = Some ANone ->
  action a b p = Some (p', ev) -> ctl p' = ctl p ->
  exists p'', parse_byte b p = Some (p'', ev) /\
    (p'' = p' /\ st = state p \/
     p'' = set_state st (set_return_state (state p') p') /\ st <> state p).
Proof.
  intros H1 H2 H3 H4 H5 H6 H7. unfold parse_byte.
  rewrite bool_decide_eq_false_2 by done. rewrite H2. msimpl.
  destruct (decide (st = state p)) as [E|E].
  - rewrite bool_decide_eq_false_2 by (by intros []). eauto.
  - rewrite bool_decide_eq_true_2 by done. rewrite H4, H5. msimpl.
    rewrite bool_decide_eq_true_2 by done.
    rewrite then_none_l, then_none_r, H6. msimpl. eauto.
Qed.

Lemma csi_at_state st st' acc cur inter p q :
  csi_at st acc cur inter p ->
  (q = p /\ st' = st \/ q = set_state st' (set_return_state (state p) p)) ->
  csi_at st' acc cur inter q.
Proof.
  intros A [[-> ->] | ->]; [done|]. destruct A as [[] ? ? ? ? ? ? ? ? ?].
  constructor; try done; by constructor.
Qed.

Lemma csi_at_step st st' acc cur inter acc' cur' inter' p b a p' ev :
  csi_at st acc cur inter p -> lookup st b = Some (a, st') ->
  tabled st = true -> tabled st' = true ->
  lookup_exit st = Some ANone -> lookup_entry st' = Some ANone ->
  action a b p = Some (p', ev) -> ctl p' = ctl p -> csi_at st acc' cur' inter' p' ->
  exists p'', parse_byte b p = Some (p'', ev) /\ csi_at st' acc' cur' inter' p''.
Proof.
  intros A H1 T1 T2 H2 H3 H4 H5 A'. pose proof (ca_state _ _ _ _ _ A) as Hst. subst st.
  destruct (parse_byte_quiet p b a st' p' ev) as (p'' & E & D);
    [by destruct (state p)|done|by destruct st'|done|done|done|done|].
  exists p''. split; [done|]. apply (csi_at_state _ _ _ _ _ _ _ A').
  destruct D as [[? ?] | [? ?]]; [by left|by right].
Qed.

Lemma csi_esc p :
  vt_wf p -> state p = Ground ->
  exists p', parse_byte 27 p = Some (p', []) /\ csi_at Escape [] None [] p'.
Proof.
  intros [W C] Hs. unfold ctl_wf in C. rewrite Hs in C. unfold parse_byte. rewrite Hs.
  rewrite bool_decide_eq_false_2 by done. change (lookup Ground 27) with (Some (ANone, Escape)). msimpl.
  change (lookup_exit Ground) with (Some ANone). change (lookup_entry Escape) with (Some Clear).
  msimpl. rewrite !bool_decide_eq_true_2 by done. rewrite !then_none_l.
  unfold action. cbn [action_n]. unfold quiet. msimpl. eexists; split; [done|].
  pose proof (do_clear_wf p W) as []. constructor; [by constructor|cbn; done..].
Qed.

Lemma csi_bracket p :
  csi_at Escape [] None [] p ->
  exists p', parse_byte "["%ch p = Some (p', []) /\ csi_at CsiEntry [] None [] p'.
Proof.
  intros []. unfold parse_byte. rewrite ca_state0.
  rewrite bool_decide_eq_false_2 by done. change (lookup Escape "["%ch) with (Some (ANone, CsiEntry)). msimpl.
  change (lookup_exit Escape) with (Some ANone). change (lookup_entry CsiEntry) with (Some Clear).
  msimpl. rewrite !bool_decide_eq_true_2 by done. rewrite !then_none_l.
  unfold action. cbn [action_n]. unfold quiet. msimpl. eexists; split; [done|].
  pose proof (do_clear_wf p ca_wf0) as []. constructor; [by constructor|cbn; done..].
Qed.

(** ** The CSI rows of the tables *)

Definition csi_open (st : State) : Prop := st = CsiEntry \/ st = CsiParamSt.

(** A row holds one entry on a range of bytes. *)
Definition row_is (st : State) (lo hi : Z) (a : Action) (st' : State) : bool :=
  forallb (fun b => bool_decide (lookup st b = Some (a, st'))) (zrange lo hi).

Lemma row_lookup st lo hi a st' b :
  row_is st lo hi a st' = true -> lo <= b <= hi -> lookup st b = Some (a, st').
Proof.
  intros H Hb. apply (range_forallb _ _ _ H) in Hb. by apply bool_decide_eq_true in Hb.
Qed.

Lemma csi_lookup_param st b :
  csi_open st -> is_digit b = true \/ b = ";"%ch \/ (st = CsiParamSt /\ b = ":"%ch) ->
  lookup st b = Some (AParam, CsiParamSt).
Proof.
  unfold is_digit. intros Hst [Hb%rng_spec | [-> | [-> ->]]]; [|by destruct Hst as [-> | ->]|done].
  destruct Hst as [-> | ->]; apply (row_lookup _ "0"%ch "9"%ch); done.
Qed.

Lemma csi_lookup_inter st b :
  csi_open st \/ st = CsiIntermediate -> 0x20 <= b <= 0x2f ->
  lookup st b = Some (Collect, CsiIntermediate).
Proof. intros [[-> | ->] | ->]; apply (row_lookup _ 0x20 0x2f); done. Qed.

Lemma csi_lookup_final st b :
  csi_open st \/ st = CsiIntermediate -> 0x40 <= b <= 0x7e ->
  lookup st b = Some (CsiDispatch, Ground).
Proof. intros [[-> | ->] | ->]; apply (row_lookup _ 0x40 0x7e); done. Qed.

Lemma csi_lookup_private b :
  0x3c <= b <= 0x3f -> lookup CsiEntry b = Some (Collect, CsiParamSt).
Proof. by apply (row_lookup _ 0x3c 0x3f). Qed.

(** ** The bytes of a CSI sequence *)

Definition next_cur (cur : option CsiParam) (b : Z) : option CsiParam :=
  match cur with
  | Some (Integer i) =>
      Some (Integer (i64_saturating_add (i64_saturating_mul i 10) (b - "0"%ch)))
  | _ => Some (Integer (b - "0"%ch))
  end.

Lemma do_param_digit st acc cur inter p b :
  csi_at st acc cur inter p -> is_digit b = true ->
  (length acc + length inter <= MAX_PARAMS)%nat ->
  exists p', action AParam b p = Some (p', []) /\ ctl p' = ctl p /\
    csi_at st (acc ++ map P inter) (next_cur cur b) [] p'.
Proof.
  intros A Hb Hl. assert (Hby : is_byte b) by (apply digit_range in Hb; unfold is_byte; lia).
  destruct (action_ok 1 AParam b p) as (p' & ev & E & W' & C' & _); [done|done|apply A|].
  change (action_n 2 AParam b p) with (action AParam b p) in E.
  pose proof E as E'. unfold action in E. cbn [action_n] in E. unfold quiet, do_param in E.
  rewrite (ca_full _ _ _ _ _ A) in E.
  destruct (csi_promote _ _ _ _ _ A Hl) as (p1 & E1 & A1). rewrite E1 in E. msimpl.
  cbn [mbind option_bind] in E. rewrite Hb, (ca_cur _ _ _ _ _ A1) in E.
  pose proof (cw_cur p (ca_wf _ _ _ _ _ A)) as Hc. rewrite (ca_cur _ _ _ _ _ A) in Hc.
  exists p'. destruct cur as [[i|q]|]; [|done|]; injection E as <- <-;
    (split; [done|]); (split; [done|]); destruct A1; constructor; done.
Qed.

Lemma do_param_sep st acc cur inter p b :
  csi_at st acc cur inter p -> is_digit b = false -> is_byte b ->
  (length acc + length inter + length (opt_list cur) < MAX_PARAMS)%nat ->
  exists p', action AParam b p = Some (p', []) /\ ctl p' = ctl p /\
    csi_at st (acc ++ map P inter ++ opt_list cur ++ [P b]) None [] p'.
Proof.
  intros A Hb Hby Hl.
  destruct (action_ok 1 AParam b p) as (p' & ev & E & W' & C' & _); [done|done|apply A|].
  change (action_n 2 AParam b p) with (action AParam b p) in E.
  pose proof E as E'. unfold action in E. cbn [action_n] in E. unfold quiet, do_param in E.
  rewrite (ca_full _ _ _ _ _ A) in E.
  destruct (csi_promote _ _ _ _ _ A) as (p1 & E1 & A1); [lia|]. rewrite E1 in E.
  cbn [mbind option_bind] in E. rewrite Hb in E.
  destruct (csi_finish _ _ _ _ _ A1) as (p2 & E2 & A2);
    [rewrite length_app, length_map; lia|].
  rewrite E2 in E. cbn [mbind option_bind] in E.
  assert (Hn : num_params p2 = length ((acc ++ map P inter) ++ opt_list cur)) by apply A2.
  assert (Hlen : length ((acc ++ map P inter) ++ opt_list cur)
                 = (length acc + length inter + length (opt_list cur))%nat)
    by (rewrite !length_app, length_map; lia).
  rewrite (proj2 (Nat.ltb_ge _ _)) in E by lia.
  rewrite arr_set_Some in E by (rewrite (cw_plen p2 (ca_wf _ _ _ _ _ A2)); lia).
  injection E as <- <-. eexists; split; [done|]. split; [done|].
  rewrite !app_assoc. destruct A2; constructor; try done.
  - cbn. rewrite ca_num0, (length_app _ [_]). done.
  - cbn [params set_params]. rewrite Hn. apply take_set_app; [done|].
    rewrite (cw_plen p2); [lia|done].
Qed.

Lemma do_collect_at st acc cur inter p b :
  csi_at st acc cur inter p -> is_byte b -> (length inter < MAX_INTERMEDIATES)%nat ->
  exists p', action Collect b p = Some (p', []) /\ ctl p' = ctl p /\
    csi_at st acc cur (inter ++ [b]) p'.
Proof.
  intros A Hby Hl.
  destruct (action_ok 1 Collect b p) as (p' & ev & E & W' & C' & _); [done|done|apply A|].
  change (action_n 2 Collect b p) with (action Collect b p) in E.
  pose proof E as E'. unfold action in E. cbn [action_n] in E. unfold quiet, do_collect in E.
  pose proof (ca_ninter _ _ _ _ _ A) as Hn.
  rewrite Hn, (proj2 (Nat.ltb_lt _ _)) in E by done.
  rewrite arr_set_Some in E by (rewrite (cw_ilen p (ca_wf _ _ _ _ _ A)); done).
  injection E as <- <-. eexists; split; [done|]. split; [done|].
  destruct A; constructor; try done.
  - cbn. rewrite length_app. cbn. lia.
  - cbn [intermediates set_intermediates]. apply take_set_app; [done|].
    rewrite (cw_ilen p); done.
Qed.

Lemma csi_dispatch_at st acc cur inter p b :
  csi_at st acc cur inter p -> csi_open st \/ st = CsiIntermediate -> 0x40 <= b <= 0x7e ->
  (length acc + length (opt_list cur) + length inter <= MAX_PARAMS)%nat ->
  exists p', parse_byte b p =
      Some (p', [VtCsiDispatch (acc ++ opt_list cur ++ map P inter) false b]) /\
    vt_wf p' /\ state p' = Ground.
Proof.
  intros A Hst Hb Hl.
  assert (Hby : is_byte b) by (unfold is_byte; lia).
  destruct (parse_byte_ok b p Hby) as (q & ev & Eq & Wq & _).
  { split; [apply A|]. unfold ctl_wf. rewrite (ca_state _ _ _ _ _ A).
    destruct Hst as [[-> | ->] | ->]; apply A. }
  destruct (csi_finish _ _ _ _ _ A) as (p1 & E1 & A1); [lia|].
  destruct (csi_promote _ _ _ _ _ A1) as (p2 & E2 & A2); [rewrite length_app; lia|].
  pose proof (csi_lookup_final st b Hst Hb) as El.
  rewrite Eq. unfold parse_byte in Eq.
  rewrite bool_decide_eq_false_2 in Eq
    by (rewrite (ca_state _ _ _ _ _ A); by destruct Hst as [[-> | ->] | ->]).
  rewrite (ca_state _ _ _ _ _ A), El in Eq. cbn [mbind option_bind] in Eq.
  rewrite bool_decide_eq_true_2 in Eq by (by destruct Hst as [[-> | ->] | ->]).
  assert (Hx : lookup_exit st = Some ANone) by (by destruct Hst as [[-> | ->] | ->]).
  rewrite Hx in Eq. cbn [lookup_entry arr_get State_u16 ENTRY] in Eq.
  change (lookup_entry Ground) with (Some ANone) in Eq. cbn [mbind option_bind] in Eq.
  rewrite bool_decide_eq_true_2 in Eq by done.
  rewrite then_none_l, then_none_r in Eq.
  unfold action in Eq. cbn [action_n] in Eq.
  rewrite E1 in Eq. cbn [mbind option_bind] in Eq. rewrite E2 in Eq. cbn [mbind option_bind] in Eq.
  assert (Hn : num_params p2 = length ((acc ++ opt_list cur) ++ map P inter)) by apply A2.
  rewrite slice_to_Some in Eq
    by (rewrite (cw_plen p2 (ca_wf _ _ _ _ _ A2)), Hn, !length_app, length_map; lia).
  cbn [mbind option_bind] in Eq. rewrite Hn, (ca_acc _ _ _ _ _ A2), (ca_ign _ _ _ _ _ A2) in Eq.
  rewrite <- app_assoc in Eq. injection Eq as <- <-. eauto.
Qed.

(** A saturated accumulator. *)
Definition sat_int (v : Z) : CsiParam := Integer (Z.min i64_max v).

Lemma next_cur_sat v b :
  0 <= v -> is_digit b = true ->
  next_cur (Some (sat_int v)) b = Some (sat_int (v * 10 + (b - "0"%ch))).
Proof.
  intros Hv Hb%digit_range. unfold next_cur, sat_int, i64_saturating_add,
    i64_saturating_mul, i64_sat, clamp, i64_max, i64_min. do 2 f_equal. lia.
Qed.

Lemma csi_param_byte st acc cur inter p b :
  csi_at st acc cur inter p -> csi_open st -> is_digit b = true ->
  (length acc + length inter <= MAX_PARAMS)%nat ->
  exists p', parse_byte b p = Some (p', []) /\
    csi_at CsiParamSt (acc ++ map P inter) (next_cur cur b) [] p'.
Proof.
  intros A Hst Hb Hl.
  destruct (do_param_digit _ _ _ _ _ _ A Hb Hl) as (p1 & E1 & C1 & A1).
  eapply (csi_at_step st CsiParamSt); try done.
  - apply csi_lookup_param; auto.
  - by destruct Hst as [-> | ->].
  - by destruct Hst as [-> | ->].
Qed.

Lemma csi_digits acc v ds p :
  csi_at CsiParamSt acc (Some (sat_int v)) [] p -> 0 <= v ->
  Forall (fun d => is_digit d = true) ds -> (length acc <= MAX_PARAMS)%nat ->
  exists p', parse ds p = Some (p', []) /\
    csi_at CsiParamSt acc (Some (sat_int (dec_value v ds))) [] p'.
Proof.
  revert v p. induction ds as [|d ds IH]; intros v p A Hv Hd Hl; [exists p; done|].
  apply Forall_cons_iff in Hd as [Hd Hds].
  destruct (csi_param_byte _ _ _ _ _ d A) as (p1 & E1 & A1); [by right|done|cbn; lia|].
  rewrite app_nil_r, next_cur_sat in A1 by done.
  destruct (IH _ _ A1) as (p2 & E2 & A2); [apply digit_range in Hd; lia|done|done|].
  exists p2. cbn [parse]. unfold then_. rewrite E1. msimpl. rewrite E2. done.
Qed.

Lemma csi_number st acc inter ds p :
  csi_at st acc None inter p -> csi_open st -> ds <> [] ->
  Forall (fun d => is_digit d = true) ds ->
  (length acc + length inter <= MAX_PARAMS)%nat ->
  exists p', parse ds p = Some (p', []) /\
    csi_at CsiParamSt (acc ++ map P inter) (Some (sat_int (dec_value 0 ds))) [] p'.
Proof.
  intros A Hst Hne Hd Hl. destruct ds as [|d ds]; [done|].
  apply Forall_cons_iff in Hd as [Hd Hds].
  destruct (csi_param_byte _ _ _ _ _ d A) as (p1 & E1 & A1); [done|done|done|].
  pose proof (digit_range d Hd) as Hr.
  destruct (csi_digits (acc ++ map P inter) (d - "0"%ch) ds p1) as (p2 & E2 & A2).
  - cbn [next_cur] in A1. unfold sat_int. rewrite Z.min_r; [done|unfold i64_max; lia].
  - lia.
  - done.
  - rewrite length_app, length_map. lia.
  - exists p2. cbn [parse]. unfold then_. rewrite E1. msimpl. rewrite E2. msimpl.
    split; [done|]. unfold dec_value in *. cbn [fold_left]. by rewrite Z.add_0_l || done.
Qed.

(** The bytes of a parameter list, and the lists that are their own parse. *)
Definition param_wire (c : CsiParam) : list Z :=
  match c with Integer i => dec_u i | P b => [b] end.

Definition csi_wire (ps : list CsiParam) : list Z := concat (map param_wire ps).

Definition sep_ok (c : CsiParam) : bool :=
  match c with
  | Integer i => rng 0 i64_max i
  | P b => (b =? ";"%ch) || (b =? ":"%ch)
  end.

Definition is_int (c : CsiParam) : bool :=
  match c with Integer _ => true | P _ => false end.

(** No two integers are adjacent; [prev] says the previous one was. *)
Fixpoint no_adjacent (prev : bool) (ps : list CsiParam) : bool :=
  match ps with
  | [] => true
  | c :: r => negb (prev && is_int c) && no_adjacent (is_int c) r
  end.

Lemma dec_u_digits n : 0 <= n -> Forall (fun d => is_digit d = true) (dec_u n).
Proof.
  intros Hn. eapply Forall_impl; [|apply (dec_u_spec n Hn)].
  cbn. intros d Hd. by apply rng_spec.
Qed.

Lemma parse_app_eq a b p :
  parse (a ++ b) p = then_ (parse a) (parse b) p.
Proof.
  revert p. induction a as [|x a IH]; intros p; cbn [parse app].
  - unfold then_, skip. cbn. by destruct (parse b p) as [[]|].
  - unfold then_. destruct (parse_byte x p) as [[q e]|]; [|done]. msimpl.
    rewrite IH. unfold then_. destruct (parse a q) as [[q1 e1]|]; [|done]. msimpl.
    destruct (parse b q1) as [[q2 e2]|]; [|done]. msimpl. by rewrite app_assoc.
Qed.

Lemma parse_app_quiet a b p p1 :
  parse a p = Some (p1, []) -> parse (a ++ b) p = parse b p1.
Proof.
  intros H. rewrite parse_app_eq. unfold then_. rewrite H. msimpl.
  by destruct (parse b p1) as [[]|].
Qed.

Lemma csi_sep_byte st acc cur inter p b :
  csi_at st acc cur inter p -> csi_open st ->
  b = ";"%ch \/ st = CsiParamSt /\ b = ":"%ch -> is_digit b = false -> is_byte b ->
  (length acc + length inter + length (opt_list cur) < MAX_PARAMS)%nat ->
  exists p', parse_byte b p = Some (p', []) /\
    csi_at CsiParamSt (acc ++ map P inter ++ opt_list cur ++ [P b]) None [] p'.
Proof.
  intros A Hst Hb Hnd Hby Hl.
  destruct (do_param_sep _ _ _ _ _ _ A Hnd Hby Hl) as (p1 & E1 & C1 & A1).
  eapply (csi_at_step st CsiParamSt); try done.
  - apply csi_lookup_param; auto.
  - by destruct Hst as [-> | ->].
  - by destruct Hst as [-> | ->].
Qed.

(** Reading a parameter list. *)
Lemma csi_params st acc cur inter ps p :
  csi_at st acc cur inter p -> csi_open st ->
  (st = CsiEntry -> match ps with P b :: _ => b = ";"%ch | _ => True end) ->
  (cur = None \/ inter = []) ->
  forallb sep_ok ps = true ->
  no_adjacent (match cur with Some _ => true | None => false end) ps = true ->
  (length acc + length inter + length (opt_list cur) + length ps <= MAX_PARAMS)%nat ->
  ps <> [] ->
  exists p' acc' cur', parse (csi_wire ps) p = Some (p', []) /\
    csi_at CsiParamSt acc' cur' [] p' /\
    acc' ++ opt_list cur' = acc ++ map P inter ++ opt_list cur ++ ps.
Proof.
  revert st acc cur inter p.
  induction ps as [|c ps IH]; intros st acc cur inter p A Hst He Hci Hok Hadj Hl Hne; [done|].
  cbn [forallb no_adjacent length] in Hok, Hadj, Hl.
  apply andb_true_iff in Hok as [H Hok]. apply andb_true_iff in Hadj as [Hadj1 Hadj].
  assert (Hstep : exists p1 acc1 cur1, parse (param_wire c) p = Some (p1, []) /\
    csi_at CsiParamSt acc1 cur1 [] p1 /\
    acc1 ++ opt_list cur1 = acc ++ map P inter ++ opt_list cur ++ [c] /\
    (match cur1 with Some _ => true | None => false end) = is_int c).
  { destruct c as [i|b]; cbn [param_wire sep_ok is_int] in *.
    - rewrite rng_spec in H. destruct cur as [c0|]; [done|].
      destruct (csi_number _ _ _ (dec_u i) _ A Hst) as (p1 & E1 & A1);
        [apply dec_u_spec; lia|apply dec_u_digits; lia|cbn in Hl; lia|].
      destruct (dec_u_spec i) as (_ & _ & Hv); [lia|]. rewrite Hv in A1.
      unfold sat_int in A1. rewrite Z.min_r in A1 by lia.
      exists p1, (acc ++ map P inter), (Some (Integer i)). split_and!; try done.
      cbn. by rewrite <- app_assoc.
    - assert (Hb : b = ";"%ch \/ b = ":"%ch) by (apply orb_true_iff in H as [H|H]; bool_to_prop; auto).
      assert (Hnd : is_digit b = false) by (by destruct Hb as [-> | ->]).
      assert (Hby : is_byte b) by (unfold is_byte; destruct Hb as [-> | ->]; lia).
      destruct (csi_sep_byte _ _ _ _ _ b A Hst) as (p2 & E2 & A2); [|done|done|cbn in *; lia|].
      { destruct Hst as [-> | ->]; [|tauto]. left. by apply He. }
      eexists p2, _, None. cbn [parse]. unfold then_, skip. rewrite E2. msimpl.
        split_and!; try done. cbn. by rewrite app_nil_r. }
  destruct Hstep as (p1 & acc1 & cur1 & E1 & A1 & Ha & Hc).
  unfold csi_wire. cbn [map concat].
  rewrite (parse_app_quiet _ _ _ _ E1).
  assert (Hlen : (length acc1 + length (opt_list cur1)
            = length acc + length inter + length (opt_list cur) + 1)%nat).
  { rewrite <- length_app, Ha, !length_app, length_map. cbn. lia. }
  destruct ps as [|c2 ps'].
  { exists p1, acc1, cur1. done. }
  destruct (IH CsiParamSt acc1 cur1 [] p1 A1) as (p2 & acc2 & cur2 & E2 & A2 & Ha2);
    [by right|done|by right|done|by rewrite Hc|cbn [length] in *; lia|done|].
  exists p2, acc2, cur2. split; [done|]. split; [done|].
  rewrite Ha2. cbn [map app]. rewrite app_assoc, Ha, <- !app_assoc. done.
Qed.

Lemma csi_inters st acc cur inter l p :
  csi_at st acc cur inter p -> csi_open st \/ st = CsiIntermediate ->
  Forall (fun b => 0x20 <= b <= 0x2f) l ->
  (length inter + length l <= MAX_INTERMEDIATES)%nat ->
  exists p' st', parse l p = Some (p', []) /\ (csi_open st' \/ st' = CsiIntermediate) /\
    csi_at st' acc cur (inter ++ l) p'.
Proof.
  revert st inter p. induction l as [|b l IH]; intros st inter p A Hst Hf Hl.
  - exists p, st. by rewrite app_nil_r.
  - apply Forall_cons_iff in Hf as [Hb Hf]. cbn [length] in Hl.
    destruct (do_collect_at _ _ _ _ _ b A) as (p1 & E1 & C1 & A1);
      [unfold is_byte; lia|lia|].
    assert (exists p2, parse_byte b p = Some (p2, []) /\ csi_at CsiIntermediate acc cur (inter ++ [b]) p2)
      as (p2 & E2 & A2).
    { eapply (csi_at_step st CsiIntermediate); try done.
      - by apply csi_lookup_inter.
      - by destruct Hst as [[-> | ->] | ->].
      - by destruct Hst as [[-> | ->] | ->]. }
    destruct (IH CsiIntermediate (inter ++ [b]) p2) as (p3 & st' & E3 & Hst' & A3);
      [done|by right|done|rewrite length_app; cbn; lia|].
    exists p3, st'. cbn [parse]. unfold then_. rewrite E2. msimpl. rewrite E3. msimpl.
    by rewrite <- app_assoc in A3.
Qed.

(** A CSI sequence in canonical form: at most one private marker, separated
    parameters, the intermediates and the final byte. *)
Definition csi_seq_ok (priv : list Z) (ps : list CsiParam) (inter : list Z) (final : Z) : bool :=
  (length priv <=? 1)%nat && forallb (rng 0x3c 0x3f) priv &&
  forallb sep_ok ps && no_adjacent false ps &&
  match priv, ps with [], P b :: _ => b =? ";"%ch | _, _ => true end &&
  forallb (rng 0x20 0x2f) inter &&
  (length inter + match ps with [] => length priv | _ => 0 end <=? MAX_INTERMEDIATES)%nat &&
  rng 0x40 0x7e final &&
  (length priv + length ps + length inter <=? MAX_PARAMS)%nat.

Definition csi_bytes (priv : list Z) (ps : list CsiParam) (inter : list Z) (final : Z) : list Z :=
  27 :: "["%ch :: priv ++ csi_wire ps ++ inter ++ [final].

Lemma forallb_rng lo hi l :
  forallb (rng lo hi) l = true -> Forall (fun b => lo <= b <= hi) l.
Proof.
  intros H. apply List.Forall_forall. intros x Hx.
  apply rng_spec. by apply (proj1 (forallb_forall _ _) H).
Qed.

Lemma csi_private priv p :
  csi_at CsiEntry [] None [] p -> (length priv <= 1)%nat ->
  Forall (fun b => 0x3c <= b <= 0x3f) priv ->
  exists p' st, parse priv p = Some (p', []) /\ csi_open st /\ (st = CsiEntry -> priv = []) /\
    csi_at st [] None priv p'.
Proof.
  intros A Hl Hf. destruct priv as [|b [|b2 r]]; [|clear Hl|cbn in Hl; lia].
  - exists p, CsiEntry. split_and!; try done. by left.
  - apply Forall_cons_iff in Hf as [Hb _].
    destruct (do_collect_at _ _ _ _ _ b A) as (p1 & E1 & C1 & A1);
      [unfold is_byte; lia|cbn; unfold MAX_INTERMEDIATES; lia|].
    assert (exists p2, parse_byte b p = Some (p2, []) /\ csi_at CsiParamSt [] None ([] ++ [b]) p2)
      as (p2 & E2 & A2).
    { eapply (csi_at_step CsiEntry CsiParamSt); try done. by apply csi_lookup_private. }
    exists p2, CsiParamSt. split_and!; try done; [|by right].
    cbn [parse]. unfold then_. rewrite E2. done.
Qed.

(** A private marker and a parameter list, in the order they are written. *)
Lemma csi_body priv ps p :
  csi_at CsiEntry [] None [] p -> (length priv <= 1)%nat ->
  Forall (fun b => 0x3c <= b <= 0x3f) priv ->
  forallb sep_ok ps = true -> no_adjacent false ps = true ->
  match priv, ps with [], P b :: _ => b =? ";"%ch | _, _ => true end = true ->
  (length priv + length ps <= MAX_PARAMS)%nat ->
  exists p' st acc cur inter, parse (priv ++ csi_wire ps) p = Some (p', []) /\ csi_open st /\
    csi_at st acc cur inter p' /\
    inter = (match ps with [] => priv | _ => [] end) /\
    acc ++ opt_list cur ++ map P inter = map P priv ++ ps.
Proof.
  intros A Hl1 Hp Hok Hadj Hhd Hl.
  destruct (csi_private priv p A Hl1 Hp) as (p1 & st & E1 & Hst & He & A1).
  rewrite (parse_app_quiet _ _ _ _ E1).
  destruct ps as [|c ps].
  - exists p1, st, [], None, priv. cbn. by rewrite app_nil_r.
  - destruct (csi_params st [] None priv (c :: ps) p1 A1 Hst)
      as (p2 & acc & cur & E2 & A2 & Ha); try done.
    + intros Hs. rewrite (He Hs) in Hhd. destruct c; [done|]. by bool_to_prop.
    + by left.
    + cbn in *. lia.
    + exists p2, CsiParamSt, acc, cur, []. split_and!; try done; [by right|].
      cbn [map]. by rewrite app_nil_r, Ha.
Qed.

Lemma csi_sequence_ok p priv ps inter final :
  vt_wf p -> is_ground p = true -> csi_seq_ok priv ps inter final = true ->
  exists p', parse (csi_bytes priv ps inter final) p =
      Some (p', [VtCsiDispatch (map P priv ++ ps ++ map P inter) false final]) /\
    vt_wf p' /\ is_ground p' = true.
Proof.
  intros W Hg%bool_decide_eq_true Hok. unfold csi_seq_ok in Hok.
  rewrite !andb_true_iff in Hok.
  destruct Hok as [[[[[[[[H1 H2] H3] H4] H5] H6] H7] H8] H9].
  apply forallb_rng in H2, H6. apply rng_spec in H8. bool_to_prop.
  destruct (csi_esc p W Hg) as (p1 & E1 & A1).
  destruct (csi_bracket p1 A1) as (p2 & E2 & A2).
  destruct (csi_body priv ps p2 A2 H1 H2 H3 H4 H5) as (p3 & st & acc & cur & in0 & E3 & Hst & A3 & Hi & Ha);
    [lia|].
  destruct (csi_inters _ _ _ _ inter _ A3) as (p4 & st' & E4 & Hst' & A4);
    [by left|done|subst in0; destruct ps; cbn in *; lia|].
  assert (Ha' : acc ++ opt_list cur ++ map P (in0 ++ inter) = map P priv ++ ps ++ map P inter)
    by (rewrite map_app, !app_assoc, <- (app_assoc acc), Ha; done).
  assert (Hlen : (length acc + length (opt_list cur) + length (in0 ++ inter)
                  = length priv + length ps + length inter)%nat).
  { pose proof (f_equal length Ha') as Hx. rewrite !length_app, !length_map in Hx.
    rewrite length_app in *. lia. }
  destruct (csi_dispatch_at _ _ _ _ _ final A4 Hst' H8) as (p5 & E5 & W5 & G5); [lia|].
  exists p5. split; [|split; [done|by apply bool_decide_eq_true]].
  unfold csi_bytes. cbn [parse]. unfold then_. rewrite E1. msimpl. rewrite E2. msimpl.
  rewrite app_assoc, (parse_app_quiet _ _ _ _ E3), (parse_app_quiet _ _ _ _ E4).
  cbn [parse]. unfold then_, skip. rewrite E5. msimpl. by rewrite Ha'.
Qed.

(** C14: a canonical CSI sequence, fed to a parser in the ground state, is reported as
    exactly one dispatch: the private marker, the parameters (numbers at their
    value, separators kept) and the intermediates, in order, not truncated; and
    the parser is back in the ground state. *)
Theorem csi_sequence_decodes p priv ps inter final :
  vt_wf p -> is_ground p = true -> csi_seq_ok priv ps inter final = true ->
  exists p', parse (csi_bytes priv ps inter final) p =
      Some (p', [VtCsiDispatch (map P priv ++ ps ++ map P inter) false final]) /\
    vt_wf p' /\ is_ground p' = true.
Proof. apply csi_sequence_ok. Qed.

(** ** The OSC accumulator as a list of parameters *)

(** What one character does to the parameters collected so far. *)
Definition osc_spec_put (ps : list (list Z)) (c : Z) : list (list Z) :=
  if c =? ";"%ch then match ps with [] => [[]] | _ => ps ++ [[]] end
  else match rev ps with
       | [] => [encode_utf8 c]
       | last :: r => rev r ++ [last ++ encode_utf8 c]
       end.

Lemma cut_app_slice idx off slice e :
  Forall (fun x => (off <= x <= off + length slice)%nat) idx -> StronglySorted le idx ->
  cut idx off (slice ++ e) = (fst (cut idx off slice), snd (cut idx off slice) ++ e).
Proof.
  revert off slice. induction idx as [|x r IH]; intros off slice Hf Hs; [done|].
  apply Forall_cons_iff in Hf as [Hx Hf]. apply StronglySorted_inv in Hs as [Hs Hxs].
  cbn [cut]. rewrite drop_app_le by lia. rewrite take_app_le by lia.
  rewrite IH; [|apply List.Forall_forall; intros y Hy; rewrite length_drop|done].
  - by destruct (cut r x (drop (x - off) slice)).
  - pose proof (proj1 (List.Forall_forall _ _) Hxs y Hy).
    pose proof (proj1 (List.Forall_forall _ _) Hf y Hy). cbn in *. lia.
Qed.

Lemma cut_app_idx idx off slice x :
  Forall (fun x => (off <= x <= off + length slice)%nat) idx -> StronglySorted le idx ->
  x = (off + length slice)%nat ->
  cut (idx ++ [x]) off slice = (fst (cut idx off slice) ++ [snd (cut idx off slice)], []).
Proof.
  revert off slice. induction idx as [|y r IH]; intros off slice Hf Hs Hx.
  - cbn. rewrite Hx. replace (off + length slice - off)%nat with (length slice) by lia.
    by rewrite firstn_all, drop_all.
  - apply Forall_cons_iff in Hf as [Hy Hf]. apply StronglySorted_inv in Hs as [Hs Hys].
    cbn [cut app]. rewrite IH; [|apply List.Forall_forall; intros z Hz; rewrite length_drop|done|].
    + by destruct (cut r y (drop (y - off) slice)).
    + pose proof (proj1 (List.Forall_forall _ _) Hys z Hz).
      pose proof (proj1 (List.Forall_forall _ _) Hf z Hz). cbn in *. lia.
    + rewrite length_drop. lia.
Qed.

Lemma osc_pieces_length o :
  (osc_num_params o <= MAX_OSC)%nat -> length (param_indices o) = MAX_OSC ->
  length (osc_pieces o) = osc_num_params o.
Proof.
  intros N L. unfold osc_pieces.
  destruct (Nat.eqb_spec (osc_num_params o) 0) as [E|E]; [by rewrite E|].
  rewrite length_app, cut_length, length_take. cbn [length]. lia.
Qed.

(** One character of an accumulator with room: the refinement step. *)
Lemma osc_put_refines o c :
  osc_wf o -> data_truncated o = false -> full o = false ->
  input_bytes o + Z.of_nat (length (encode_utf8 c)) <= MAX_OSC_BYTES ->
  (c = ";"%ch -> osc_num_params o < MAX_OSC)%nat ->
  exists o', osc_put o c = Some o' /\ osc_wf o' /\ data_truncated o' = false /\
    full o' = false /\
    input_bytes o' = input_bytes o + Z.of_nat (length (encode_utf8 c)) /\
    osc_pieces o' = osc_spec_put (osc_pieces o) c.
Proof.
  intros W Ht Hf Hb Hn. destruct (osc_put_ok o c W) as (o' & E & W').
  exists o'. split; [done|]. split; [done|].
  destruct W as [L N So Cu By Em].
  assert (Hcu : Forall (fun x => (0 <= x <= 0 + length (buffer o))%nat)
                  (take (osc_num_params o - 1) (param_indices o)))
    by (eapply Forall_impl; [|exact Cu]; cbn; lia).
  unfold osc_put in E.
  rewrite (proj2 (Z.ltb_ge _ _)) in E
    by (unfold usize_saturating_add, MAX_OSC_BYTES in *; lia).
  unfold osc_spec_put. destruct (Z.eqb_spec c ";"%ch) as [Ec|Ec].
  - specialize (Hn Ec). rewrite (proj2 (Nat.eqb_neq _ _)) in E by lia.
    rewrite arr_set_Some in E by (rewrite L; lia). injection E as <-.
    split; [done|]. split; [done|]. split; [done|].
    unfold osc_pieces. cbn [osc_num_params param_indices buffer].
    rewrite (proj2 (Nat.eqb_neq (_ + 1) _)) by lia.
    destruct (osc_num_params o) as [|n] eqn:En.
    + by rewrite (Em eq_refl).
    + rewrite Nat.add_sub. replace (S n - 1)%nat with n in * by lia.
      rewrite take_insert_snoc by lia. cbn [Nat.eqb].
      rewrite (cut_app_idx _ 0) by done. cbn [fst snd].
      by destruct (fst (cut _ _ _)).
  - rewrite Hf in E. injection E as <-.
    split; [done|]. split; [done|]. split; [done|].
    unfold osc_pieces. cbn [osc_num_params param_indices buffer].
    destruct (osc_num_params o) as [|n] eqn:En.
    + rewrite (Em eq_refl). done.
    + cbn [Nat.eqb]. rewrite (cut_app_slice _ 0) by done. cbn [fst snd].
      rewrite rev_app_distr. cbn. by rewrite rev_involutive.
Qed.

(** The parser inside an OSC sequence that is within its limits. *)
Record osc_at (ps : list (list Z)) (ib : Z) (p : VTParser) : Prop := {
  oa_wf : core_wf p;
  oa_idle : utf8_idle (utf8_parser p);
  oa_state : state p = OscString;
  oa_trunc : data_truncated (osc p) = false;
  oa_full : full (osc p) = false;
  oa_bytes : input_bytes (osc p) = ib;
  oa_ps : osc_pieces (osc p) = ps
}.

Lemma osc_start p :
  csi_at Escape [] None [] p ->
  exists p', parse_byte "]"%ch p = Some (p', []) /\ osc_at [] 0 p'.
Proof.
  intros []. unfold parse_byte. rewrite ca_state0.
  cbn -[osc_reset]. eexists; split; [done|].
  pose proof (osc_reset_wf (osc p) (cw_osc p ca_wf0)).
  destruct ca_wf0. constructor; try done; by constructor.
Qed.

Lemma osc_payload_byte ps ib p c :
  osc_at ps ib p -> 0x20 <= c <= 0x7f -> ib + 1 <= MAX_OSC_BYTES ->
  (c = ";"%ch -> length ps < MAX_OSC)%nat ->
  exists p', parse_byte c p = Some (p', []) /\ osc_at (osc_spec_put ps c) (ib + 1) p'.
Proof.
  intros [W I St Tr Fu By Ps] Hc Hb Hn.
  assert (El : lookup OscString c = Some (OscPut, OscString))
    by (by apply (row_lookup _ 0x20 0x7f)).
  assert (He : encode_utf8 c = [c])
    by (unfold encode_utf8; rewrite (proj2 (Z.ltb_lt _ _)) by lia; done).
  destruct (osc_put_refines (osc p) c (cw_osc p W) Tr Fu) as (o & E & Wo & T & F & B & Q).
  { rewrite He, By. done. }
  { rewrite <- (osc_pieces_length (osc p)), Ps by apply W. done. }
  unfold parse_byte. rewrite bool_decide_eq_false_2 by (by rewrite St).
  rewrite St, El. msimpl. rewrite bool_decide_eq_false_2 by (by intros []).
  unfold action. cbn [action_n]. unfold quiet. rewrite E. msimpl.
  eexists; split; [done|]. constructor; try done; cbn.
  - by apply set_osc_wf.
  - by rewrite B, He, By.
  - by rewrite Q, Ps.
Qed.

Lemma osc_spec_put_length ps c :
  (length (osc_spec_put ps c) <= length ps + (if (c =? ";"%ch)%Z then 1 else 0) +
     (match ps with [] => (if (c =? ";"%ch)%Z then 0 else 1) | _ => 0 end))%nat.
Proof.
  unfold osc_spec_put. destruct (c =? 59).
  - destruct ps; cbn; rewrite ?length_app; cbn; lia.
  - destruct (rev ps) as [|x r] eqn:E.
    + destruct ps; [cbn; lia|]. cbn in E. by destruct (rev ps).
    + apply (f_equal (@rev _)) in E. rewrite rev_involutive in E. subst ps. cbn [rev].
      rewrite !length_app. cbn. lia.
Qed.

Definition semis (l : list Z) : nat := length (filter (fun c => c = ";"%ch) l).

Lemma osc_payload l ps ib p :
  osc_at ps ib p -> Forall (fun c => 0x20 <= c <= 0x7f) l ->
  ib + Z.of_nat (length l) <= MAX_OSC_BYTES ->
  (Nat.max 1 (length ps) + semis l <= MAX_OSC)%nat ->
  exists p' ib', parse l p = Some (p', []) /\ osc_at (fold_left osc_spec_put l ps) ib' p'.
Proof.
  revert ps ib p. induction l as [|c l IH]; intros ps ib p A Hf Hb Hn.
  - exists p, ib. done.
  - apply Forall_cons_iff in Hf as [Hc Hf]. cbn [length] in Hb.
    assert (Hs : semis (c :: l) = ((if (c =? ";"%ch)%Z then 1 else 0) + semis l)%nat).
    { unfold semis. rewrite filter_cons. destruct (Z.eqb_spec c ";"%ch) as [E|E].
      - by rewrite decide_True by done.
      - by rewrite decide_False by done. }
    pose proof (osc_spec_put_length ps c) as Hl.
    destruct (osc_payload_byte ps ib p c A Hc) as (p1 & E1 & A1); [lia| |].
    { intros ->. rewrite Hs in Hn. cbn in Hn. lia. }
    destruct (IH _ _ _ A1) as (p2 & ib' & E2 & A2); [done|lia| |].
    { rewrite Hs in Hn. destruct ps; destruct (c =? 59); cbn [length] in *; lia. }
    exists p2, ib'. cbn [parse fold_left]. unfold then_. rewrite E1. msimpl. rewrite E2. done.
Qed.

(** The parameters of an OSC payload as the code splits it: at every [;],
    except that a [;] in front of everything opens the first parameter
    instead of closing an empty one. *)
Definition osc_params (payload : list Z) : list (list Z) :=
  match payload with
  | [] => []
  | c :: r => split_on (fun x => x =? ";"%ch) (if c =? ";"%ch then r else payload)
  end.

Lemma osc_spec_put_ascii ps last c :
  0 <= c < 0x80 ->
  osc_spec_put (ps ++ [last]) c =
    if c =? ";"%ch then ps ++ [last; []] else ps ++ [last ++ [c]].
Proof.
  intros Hc. unfold osc_spec_put. destruct (c =? 59).
  - rewrite <- app_assoc. by destruct ps.
  - rewrite rev_app_distr. cbn. rewrite rev_involutive. unfold encode_utf8.
    by rewrite (proj2 (Z.ltb_lt _ _)) by lia.
Qed.

Lemma split_on_cons_join {A} (f : A -> bool) l : exists y ys, split_on f l = y :: ys.
Proof. destruct l as [|x r]; cbn; [eauto|]. destruct (f x); [eauto|]. destruct (split_on f r); eauto. Qed.

Lemma osc_fold_split l ps last :
  Forall (fun c => 0x20 <= c <= 0x7f) l ->
  fold_left osc_spec_put l (ps ++ [last]) =
    ps ++ match split_on (fun x => x =? ";"%ch) l with
          | [] => [last] | y :: ys => (last ++ y) :: ys end.
Proof.
  revert ps last. induction l as [|c l IH]; intros ps last Hf; cbn [fold_left split_on].
  - by rewrite app_nil_r.
  - apply Forall_cons_iff in Hf as [Hc Hf].
    rewrite osc_spec_put_ascii by lia. destruct (c =? 59).
    + change [last; []] with ([last] ++ [[]] : list (list Z)). rewrite app_assoc, IH by done.
      destruct (split_on_cons_join (fun x => x =? 59) l) as (y & ys & ->).
      rewrite <- app_assoc. cbn. by rewrite app_nil_r.
    + rewrite IH by done.
      destruct (split_on_cons_join (fun x => x =? 59) l) as (y & ys & ->).
      cbn. by rewrite <- app_assoc.
Qed.

Lemma osc_fold_params l :
  Forall (fun c => 0x20 <= c <= 0x7f) l -> fold_left osc_spec_put l [] = osc_params l.
Proof.
  intros Hf. destruct l as [|c l]; [done|]. apply Forall_cons_iff in Hf as [Hc Hf].
  cbn [fold_left]. unfold osc_params, osc_spec_put at 2.
  destruct (Z.eqb_spec c 59) as [->|E].
  - change [[]] with ([] ++ [[]] : list (list Z)). rewrite osc_fold_split by done.
    destruct (split_on_cons_join (fun x => x =? 59) l) as (y & ys & ->). done.
  - cbn [rev]. unfold encode_utf8. rewrite (proj2 (Z.ltb_lt _ _)) by lia.
    change [[c]] with ([] ++ [[c]] : list (list Z)). rewrite osc_fold_split by done.
    cbn [split_on]. rewrite (proj2 (Z.eqb_neq _ _)) by done.
    destruct (split_on_cons_join (fun x => x =? 59) l) as (y & ys & ->). done.
Qed.

Lemma then_event f g p q e :
  f p = Some (q, [e]) -> then_ f g p = '(r, es) ← g q; Some (r, e :: es).
Proof. intros H. unfold then_. by rewrite H. Qed.

Lemma action_osc_end p :
  core_wf p -> data_truncated (osc p) = false ->
  action OscEnd 0 p = Some (p, [VtOscDispatch (osc_pieces (osc p))]).
Proof.
  intros W Ht. unfold action. cbn [action_n]. rewrite osc_end_pieces by apply W.
  by rewrite Ht.
Qed.

Definition osc_bytes (payload : list Z) : list Z := 27 :: "]"%ch :: payload ++ [7].

(** an OSC sequence of printable ASCII within the limits (at most 63 [;], at most 1 MiB),
    ended by BEL, is reported as exactly one dispatch, whose parameters are the
    payload split at [;]. *)
Theorem osc_sequence_decodes p payload :
  vt_wf p -> is_ground p = true ->
  Forall (fun c => 0x20 <= c <= 0x7f) payload ->
  Z.of_nat (length payload) <= MAX_OSC_BYTES -> (semis payload < MAX_OSC)%nat ->
  exists p', parse (osc_bytes payload) p = Some (p', [VtOscDispatch (osc_params payload)]) /\
    vt_wf p' /\ is_ground p' = true.
Proof.
  intros W Hg%bool_decide_eq_true Hf Hl Hs.
  destruct (csi_esc p W Hg) as (p1 & E1 & A1).
  destruct (osc_start p1 A1) as (p2 & E2 & A2).
  destruct (osc_payload payload [] 0 p2 A2 Hf) as (p3 & ib & E3 & A3); [lia|cbn; lia|].
  rewrite osc_fold_params in A3 by done. destruct A3 as [W3 I3 St Tr Fu By Ps].
  assert (E4 : parse_byte 7 p3 =
    Some (set_state Ground (set_return_state (state p3) p3), [VtOscDispatch (osc_params payload)])).
  { unfold parse_byte. rewrite bool_decide_eq_false_2 by (by rewrite St). rewrite St.
    change (lookup OscString 7) with (Some (Ignore, Ground)). msimpl.
    change (lookup_exit OscString) with (Some OscEnd).
    change (lookup_entry Ground) with (Some ANone). msimpl.
    rewrite !bool_decide_eq_true_2 by done. 
    rewrite (then_event _ _ _ _ _ (action_osc_end _ W3 Tr)), Ps, then_none_r. cbn. by rewrite St. }
  eexists. unfold osc_bytes. cbn [parse]. unfold then_. rewrite E1. msimpl. rewrite E2. msimpl.
  rewrite (parse_app_quiet _ _ _ _ E3). cbn [parse]. unfold then_, skip. rewrite E4. cbn.
  split; [done|]. split; [|done]. split; [destruct W3; by constructor|done].
Qed.

(** An OSC sequence past its limit: the flag stays, and until it is set the
    bytes are counted. *)
Record osc_over (n : Z) (p : VTParser) : Prop := {
  oo_wf : core_wf p;
  oo_idle : utf8_idle (utf8_parser p);
  oo_state : state p = OscString;
  oo_count : data_truncated (osc p) = true \/ input_bytes (osc p) = n
}.

Lemma osc_put_count o c o' :
  0 <= c < 0x80 -> osc_wf o -> osc_put o c = Some o' ->
  (data_truncated o = true -> data_truncated o' = true) /\
  (data_truncated o' = true \/ input_bytes o' = input_bytes o + 1).
Proof.
  intros Hc W E. assert (He : encode_utf8 c = [c])
    by (unfold encode_utf8; rewrite (proj2 (Z.ltb_lt _ _)) by lia; done).
  unfold osc_put in E. rewrite He in E.
  repeat case_hyp E; try done; simplify_eq; cbn; auto.
  destruct (arr_set _ _ _); [|done]. cbn in E. simplify_eq. auto.
Qed.

Lemma osc_over_payload l n p :
  osc_over n p -> Forall (fun c => 0x20 <= c <= 0x7f) l ->
  exists p', parse l p = Some (p', []) /\ osc_over (n + Z.of_nat (length l)) p'.
Proof.
  revert n p. induction l as [|c l IH]; intros n p A Hf.
  - exists p. cbn. by rewrite Z.add_0_r.
  - apply Forall_cons_iff in Hf as [Hc Hf]. destruct A as [W I St Co].
    assert (El : lookup OscString c = Some (OscPut, OscString))
      by (by apply (row_lookup _ 0x20 0x7f)).
    destruct (osc_put_ok (osc p) c (cw_osc p W)) as (o & E & Wo).
    destruct (osc_put_count _ c _ ltac:(lia) (cw_osc p W) E) as [H1 H2].
    assert (E1 : parse_byte c p = Some (set_osc o p, [])).
    { unfold parse_byte. rewrite bool_decide_eq_false_2 by (by rewrite St).
      rewrite St, El. msimpl. rewrite bool_decide_eq_false_2 by (by intros []).
      unfold action. cbn [action_n]. unfold quiet. by rewrite E. }
    destruct (IH (n + 1) (set_osc o p)) as (p2 & E2 & A2); [|done|].
    + constructor; try done; [by apply set_osc_wf|]. cbn.
      destruct Co as [Co|<-]; [left; by apply H1|done].
    + exists p2. cbn [parse length]. unfold then_. rewrite E1. msimpl. rewrite E2.
      rewrite Nat2Z.inj_succ, <- Z.add_1_l, Z.add_assoc. done.
Qed.

(** an OSC sequence whose payload exceeds [MAX_OSC_BYTES] is ignored as a whole: nothing
    is reported, not even a prefix, and the parser is back in the ground state. *)
Theorem osc_oversize_ignored p payload :
  vt_wf p -> is_ground p = true ->
  Forall (fun c => 0x20 <= c <= 0x7f) payload ->
  MAX_OSC_BYTES < Z.of_nat (length payload) ->
  exists p', parse (osc_bytes payload) p = Some (p', []) /\
    vt_wf p' /\ is_ground p' = true.
Proof.
  intros W Hg%bool_decide_eq_true Hf Hl.
  destruct (csi_esc p W Hg) as (p1 & E1 & A1).
  destruct (osc_start p1 A1) as (p2 & E2 & A2).
  destruct (osc_over_payload payload 0 p2) as (p3 & E3 & A3); [|done|].
  { destruct A2. by constructor; auto. }
  destruct A3 as [W3 I3 St Co].
  assert (Tr : data_truncated (osc p3) = true).
  { destruct Co as [Co|Co]; [done|]. pose proof (ow_bytes _ (cw_osc _ W3)). lia. }
  assert (Ea : action OscEnd 0 p3 = Some (p3, [])).
  { unfold action. cbn [action_n]. rewrite osc_end_pieces by apply W3. by rewrite Tr. }
  assert (E4 : parse_byte 7 p3 =
    Some (set_state Ground (set_return_state (state p3) p3), [])).
  { unfold parse_byte. rewrite bool_decide_eq_false_2 by (by rewrite St). rewrite St.
    change (lookup OscString 7) with (Some (Ignore, Ground)). msimpl.
    change (lookup_exit OscString) with (Some OscEnd).
    change (lookup_entry Ground) with (Some ANone). msimpl.
    rewrite !bool_decide_eq_true_2 by done. unfold then_ at 1. rewrite Ea. msimpl.
    rewrite then_none_r. cbn. by rewrite St. }
  eexists. unfold osc_bytes. cbn [parse]. unfold then_. rewrite E1. msimpl. rewrite E2. msimpl.
  rewrite (parse_app_quiet _ _ _ _ E3). cbn [parse]. unfold then_, skip. rewrite E4. cbn.
  split; [done|]. split; [|done]. split; [destruct W3; by constructor|done].
Qed.

(** C1: for every byte string, the parser runs to the end: no panic, no
    unreachable state, no array or table access out of range (the Rust code
    uses unchecked reads and transmutes here), its invariant holds again, and
    everything it reports is within the documented limits. *)
Theorem parse_no_panic bytes :
  Forall is_byte bytes ->
  exists p ev, parse bytes vt_new = Some (p, ev) /\ vt_wf p /\ Forall event_ok ev.
Proof. intros Hb. by apply parse_wf, vt_new_wf. Qed.

(** Feeding the input in two pieces is feeding it whole: the parser keeps in its
    state all that it needs of the bytes before. *)
Theorem parse_chunked a b p :
  parse (a ++ b) p = then_ (parse a) (parse b) p.
Proof. apply parse_app_eq. Qed.

Lemma cancel_rows :
  forallb (fun s => negb (tabled s) ||
    bool_decide (lookup s 0x18 = Some (Execute, Ground) /\ lookup s 0x1a = Some (Execute, Ground)))
    States = true.
Proof. vm_compute. reflexivity. Qed.

(** CAN and SUB end whatever sequence is being read, from every reachable
    state but the middle of a multi-byte character: the last thing reported is
    their execution, and the parser is in the ground state. *)
Theorem cancel_returns_to_ground p b :
  vt_wf p -> state p <> Utf8Sequence -> b = 0x18 \/ b = 0x1a ->
  exists p' ev, parse_byte b p = Some (p', ev ++ [VtExecuteC0orC1 b]) /\
    vt_wf p' /\ is_ground p' = true.
Proof.
  intros W Hs Hb.
  destruct (parse_byte_ok b p) as (p' & ev & E & W' & _);
    [destruct Hb as [-> | ->]; unfold is_byte; lia|done|].
  assert (Ht : tabled (state p) = true).
  { destruct W as [_ C]. unfold ctl_wf in C. by destruct (state p). }
  assert (El : lookup (state p) b = Some (Execute, Ground)).
  { pose proof (proj1 (forallb_forall _ _) cancel_rows (state p) (States_complete _)) as H.
    cbn beta in H. rewrite Ht in H. cbn [negb orb] in H. apply bool_decide_eq_true in H.
    destruct Hb as [-> | ->]; tauto. }
  exists p'. rewrite E. unfold parse_byte in E.
  rewrite bool_decide_eq_false_2, El in E by done. cbn [mbind option_bind] in E.
  destruct (decide (Ground = state p)) as [Eg|Eg].
  - rewrite bool_decide_eq_false_2 in E by (by intros []).
    injection E as <- <-. exists []. split_and!; try done. by apply bool_decide_eq_true.
  - rewrite bool_decide_eq_true_2 in E by done.
    destruct (exit_entry_ok (state p)) as [(ex & Ex & Hex) _]. rewrite Ex in E.
    change (lookup_entry Ground) with (Some ANone) in E. cbn [mbind option_bind] in E.
    rewrite bool_decide_eq_true_2 in E by done.
    destruct (action_ok 1 ex 0 p Hex) as (p1 & e1 & E1 & _); [unfold is_byte; lia|apply W|].
    unfold then_ at 1 in E. change (action_n 2 ex 0 p) with (action ex 0 p) in E1.
    rewrite E1 in E. cbn [mbind option_bind] in E. rewrite then_none_r in E.
    injection E as <- <-. exists e1. split_and!; try done.
Qed.

End Props.

(** ** Witnesses *)


Lemma parse_no_panic_witness :
  exists p ev, parse (27 :: bs "[?25;1:2h" ++ [0xC3; 0xA9; 0xFF; 0x9D; 0x41; 0x9C]) vt_new
      = Some (p, ev) /\ vt_wf p /\ Forall event_ok ev.
Proof. apply parse_no_panic. repeat constructor; unfold is_byte; cbn; lia. Defined.

Lemma csi_sequence_decodes_witness :
  exists p', parse (csi_bytes (bs "?") [Integer 1049; P ";"%ch; Integer i64_max] (bs "$") "p"%ch) vt_new
      = Some (p', [VtCsiDispatch [P "?"%ch; Integer 1049; P ";"%ch; Integer i64_max; P "$"%ch]
                     false "p"%ch]) /\
    vt_wf p' /\ is_ground p' = true.
Proof.
  apply (csi_sequence_decodes vt_new (bs "?") [Integer 1049; P ";"%ch; Integer i64_max] (bs "$") "p"%ch).
  - apply vt_new_wf.
  - reflexivity.
  - vm_compute. reflexivity.
Defined.

Lemma osc_sequence_decodes_witness :
  exists p', parse (osc_bytes (bs "52;c;aGk=")) vt_new
      = Some (p', [VtOscDispatch [bs "52"; bs "c"; bs "aGk="]]) /\
    vt_wf p' /\ is_ground p' = true.
Proof.
  apply (osc_sequence_decodes vt_new (bs "52;c;aGk=")).
  - apply vt_new_wf.
  - reflexivity.
  - repeat constructor; cbn; lia.
  - vm_compute. discriminate.
  - vm_compute. lia.
Defined.

Lemma osc_oversize_ignored_witness :
  exists p', parse (osc_bytes (replicate (Z.to_nat 1048577) "A"%ch)) vt_new = Some (p', []) /\
    vt_wf p' /\ is_ground p' = true.
Proof.
  apply (osc_oversize_ignored vt_new (replicate (Z.to_nat 1048577) "A"%ch)).
  - apply vt_new_wf.
  - reflexivity.
  - apply Forall_replicate. lia.
  - rewrite length_replicate, Z2Nat.id by lia. unfold MAX_OSC_BYTES. lia.
Defined.

Lemma cancel_returns_to_ground_witness :
  exists p' ev, parse_byte 0x18 vt_new = Some (p', ev ++ [VtExecuteC0orC1 0x18]) /\
    vt_wf p' /\ is_ground p' = true.
Proof.
  apply (cancel_returns_to_ground vt_new 0x18).
  - apply vt_new_wf.
  - discriminate.
  - left. reflexivity.
Defined.

(** ** Two deviations *)

(** An empty first OSC parameter is lost: [OSC ; 52 ST] reports one parameter. *)
Lemma osc_leading_empty_dropped :
  parse_as_vec (osc_bytes (bs ";52")) = Some [VtOscDispatch [bs "52"]].
Proof. vm_compute. reflexivity. Qed.

(** The parameter count of a DCS (or ESC) dispatch includes the separators: two parameters
    are reported as three, the last a zero that was never sent. *)
Lemma dcs_params_overcounted :
  parse_as_vec (27 :: bs "P1;2q") = Some [VtDcsHook [1; 2; 0] [] false "q"%ch].
Proof. vm_compute. reflexivity. Qed.
