(* ===== verification/Color.v ===== *)
(** Colors as the escape sequences carry them: [src/wakterm-escape-parser/src/color.rs] and
    the [u8]/[f32] conversions of [src/color-types/src/lib.rs]. The [f32] arithmetic is the
    binary32 arithmetic of the Standard Library's [SpecFloat]; a cast to [u8]
    truncates and saturates, as Rust's [as]. *)

From Stdlib Require Import ZArith Lia SpecFloat.
From stdpp Require Import base numbers list option.
From S2P Require Import Prelude.
Local Open Scope Z_scope.

(** ** binary32 *)

Definition f32 : Set := spec_float.

(** [v as f32] of a small integer. *)
Definition f32_of_Z (z : Z) : f32 := binary_normalize 24 128 z 0 false.

Definition f32_div : f32 -> f32 -> f32 := SFdiv 24 128.
Definition f32_mul : f32 -> f32 -> f32 := SFmul 24 128.

(** [x as u8]: towards zero, saturating, NaN to 0. *)
Definition f32_as_u8 (x : f32) : Z :=
  match x with
  | S754_finite false m e => Z.min u8_max (Z.shiftl (Zpos m) e)
  | S754_infinity false => u8_max
  | _ => 0
  end.

(** ** Enums with discriminants *)

(** [num_derive]'s [FromPrimitive] and [ToPrimitive]: the variants with
    their discriminants. *)
Class CEnum (T : Type) := { disc : T -> Z; variants : list T }.

Definition from_i64 {T} `{CEnum T} (n : Z) : option T :=
  List.find (fun t => disc t =? n) variants.

(** Distinct variants have distinct discriminants, and all are listed. *)
Class CEnumLaws (T : Type) `{CEnum T} :=
  from_disc : forall t : T, from_i64 (disc t) = Some t.

(** ** color.rs *)

Inductive AnsiColor : Set :=
| Black | Maroon | Green | Olive | Navy | Purple | Teal | Silver
| Grey | Red | Lime | Yellow | Blue | Fuchsia | Aqua | White.

#[export] Instance AnsiColor_enum : CEnum AnsiColor :=
  {| disc c := match c with
       | Black => 0 | Maroon => 1 | Green => 2 | Olive => 3 | Navy => 4 | Purple => 5
       | Teal => 6 | Silver => 7 | Grey => 8 | Red => 9 | Lime => 10 | Yellow => 11
       | Blue => 12 | Fuchsia => 13 | Aqua => 14 | White => 15 end;
     variants := [Black; Maroon; Green; Olive; Navy; Purple; Teal; Silver;
                  Grey; Red; Lime; Yellow; Blue; Fuchsia; Aqua; White] |}.

#[export] Instance AnsiColor_laws : CEnumLaws AnsiColor.
Proof. intros []; reflexivity. Qed.

(** [RgbColor { bits: u32 }]. *)
Record RgbColor : Set := mkRgb { bits : Z }.

Definition new_8bpc (red green blue : Z) : RgbColor :=
  mkRgb (Z.lor (Z.lor (as_u32 (Z.shiftl red 16)) (as_u32 (Z.shiftl green 8))) blue).

Definition to_tuple_rgb8 (c : RgbColor) : Z * Z * Z :=
  (as_u8 (Z.shiftr (bits c) 16), as_u8 (Z.shiftr (bits c) 8), as_u8 (bits c)).

(** [SrgbaTuple(f32, f32, f32, f32)]. *)
Record SrgbaTuple : Set := mkSrgba { srgba_r : f32; srgba_g : f32; srgba_b : f32; srgba_a : f32 }.

Definition u8_to_f32_unit (v : Z) : f32 := f32_div (f32_of_Z v) (f32_of_Z 255).

(** [From<(u8, u8, u8, u8)>]. *)
Definition srgba_from_u8 (r g b a : Z) : SrgbaTuple :=
  mkSrgba (u8_to_f32_unit r) (u8_to_f32_unit g) (u8_to_f32_unit b) (u8_to_f32_unit a).

(** [RgbColor::to_tuple_rgba]. *)
Definition to_tuple_rgba (c : RgbColor) : SrgbaTuple :=
  mkSrgba (u8_to_f32_unit (as_u8 (Z.shiftr (bits c) 16)))
          (u8_to_f32_unit (as_u8 (Z.shiftr (bits c) 8)))
          (u8_to_f32_unit (as_u8 (bits c)))
          (f32_of_Z 1).

Definition f32_unit_to_u8 (x : f32) : Z := f32_as_u8 (f32_mul x (f32_of_Z 255)).

Definition to_srgb_u8 (c : SrgbaTuple) : Z * Z * Z * Z :=
  (f32_unit_to_u8 (srgba_r c), f32_unit_to_u8 (srgba_g c),
   f32_unit_to_u8 (srgba_b c), f32_unit_to_u8 (srgba_a c)).

Inductive ColorSpec : Set :=
| ColorSpec_Default
| PaletteIndex (idx : Z)
| TrueColor (c : SrgbaTuple).

(** [From<AnsiColor>], [From<RgbColor>] and [From<SrgbaTuple>] for [ColorSpec]. *)
Definition ColorSpec_from_ansi (c : AnsiColor) : ColorSpec := PaletteIndex (disc c).
Definition ColorSpec_from_rgb (c : RgbColor) : ColorSpec := TrueColor (to_tuple_rgba c).
Definition ColorSpec_from_srgba (c : SrgbaTuple) : ColorSpec := TrueColor c.

(** ** Lemmas *)

Lemma unit_roundtrip v : is_byte v -> f32_unit_to_u8 (u8_to_f32_unit v) = v.
Proof.
  intros Hv. apply Z.eqb_eq.
  apply (byte_forallb (fun v => f32_unit_to_u8 (u8_to_f32_unit v) =? v)); [|done].
  vm_compute. reflexivity.
Qed.

Lemma srgba_roundtrip r g b a :
  is_byte r -> is_byte g -> is_byte b -> is_byte a ->
  to_srgb_u8 (srgba_from_u8 r g b a) = (r, g, b, a).
Proof. intros. unfold to_srgb_u8. cbn. by rewrite !unit_roundtrip. Qed.

Lemma unit_255 : u8_to_f32_unit 255 = f32_of_Z 1.
Proof. vm_compute. reflexivity. Qed.

Lemma rgb8_parts r g b :
  is_byte r -> is_byte g -> is_byte b -> to_tuple_rgb8 (new_8bpc r g b) = (r, g, b).
Proof.
  unfold is_byte. intros Hr Hg Hb. unfold to_tuple_rgb8, new_8bpc, as_u32, as_u8. cbn [bits].
  rewrite !Z.shiftl_mul_pow2, !Z.shiftr_div_pow2 by lia.
  rewrite (Z.mod_small (r * 2 ^ 16)), (Z.mod_small (g * 2 ^ 8)) by lia.
  rewrite (Z.lor_comm (r * 2 ^ 16)), lor_disjoint by lia.
  replace (g * 2 ^ 8 + r * 2 ^ 16) with ((r * 2 ^ 8 + g) * 2 ^ 8) by lia.
  rewrite Z.lor_comm, lor_disjoint by lia.
  set (x := b + (r * 2 ^ 8 + g) * 2 ^ 8).
  assert (H16 : x / 2 ^ 16 = r)
    by (symmetry; apply (Z.div_unique_pos _ _ _ (b + g * 2 ^ 8)); unfold x; lia).
  assert (H8 : x / 2 ^ 8 = r * 2 ^ 8 + g)
    by (symmetry; apply (Z.div_unique_pos _ _ _ b); unfold x; lia).
  assert (H0 : x mod 2 ^ 8 = b)
    by (symmetry; apply (Z.mod_unique_pos _ _ (r * 2 ^ 8 + g)); unfold x; lia).
  rewrite H16, H8, H0, (Z.mod_small r) by lia. do 2 f_equal.
  rewrite Z.add_comm, Z.mod_add by lia. apply Z.mod_small. lia.
Qed.

Lemma rgb_as_srgba r g b :
  is_byte r -> is_byte g -> is_byte b ->
  ColorSpec_from_rgb (new_8bpc r g b) = ColorSpec_from_srgba (srgba_from_u8 r g b 255).
Proof.
  intros Hr Hg Hb. pose proof (rgb8_parts r g b Hr Hg Hb) as H. unfold to_tuple_rgb8 in H.
  set (c := new_8bpc r g b) in *. clearbody c. injection H as H1 H2 H3.
  unfold ColorSpec_from_rgb, to_tuple_rgba, srgba_from_u8. by rewrite H1, H2, H3, unit_255.
Qed.
