(* ===== verification/CsiTypes.v ===== *)
(** The CSI sequences of [src/wakterm-escape-parser/src/csi.rs] as data, and how
    they are written: the enums, structs and unions with the source's
    constructors (a constructor is prefixed by its type, as Rust's paths are), and
    the [Display] implementations as functions to the bytes written. *)

From Stdlib Require Import ZArith Lia String.
From stdpp Require Import base numbers list option.
From S2P Require Import Prelude VtTables VtParse Color.
Local Open Scope Z_scope.

(** ** OneBased (lib.rs) *)

Record OneBased : Set := mkOneBased { ob_value : Z }.

(** [OneBased::new] asserts that the value is not zero. *)
Definition OneBased_new (value : Z) : option OneBased :=
  _ ← rust_assert (negb (value =? 0)); Some (mkOneBased value).

(** [value + 1] panics (or wraps) for the last [u32]. *)
Definition from_zero_based (value : Z) : option OneBased :=
  if value + 1 <=? u32_max then Some (mkOneBased (value + 1)) else None.

Definition from_esc_param (v : CsiParam) : option OneBased :=
  match v with
  | Integer v =>
      if v =? 0 then Some (mkOneBased 1)
      else if (0 <? v) && (v <=? u32_max) then Some (mkOneBased (as_u32 v))
      else None
  | P _ => None
  end.

Definition from_esc_param_with_big_default (v : CsiParam) : option OneBased :=
  match v with
  | Integer v =>
      if v =? 0 then Some (mkOneBased u32_max)
      else if (0 <? v) && (v <=? u32_max) then Some (mkOneBased (as_u32 v))
      else None
  | P _ => None
  end.

Definition from_optional_esc_param (o : option CsiParam) : option OneBased :=
  from_esc_param (match o with Some v => v | None => Integer 1 end).

Definition as_zero_based (o : OneBased) : Z := Z.max 0 (ob_value o - 1).
Definition as_one_based (o : OneBased) : Z := ob_value o.

(** ** Plain enums *)

Inductive Blink : Set := Blink_None | Blink_Slow | Blink_Rapid.

Definition Blink_into_bool (b : Blink) : bool :=
  match b with Blink_None => false | _ => true end.

Inductive Intensity : Set := Intensity_Normal | Intensity_Bold | Intensity_Half.

Inductive Underline : Set :=
| Underline_None | Underline_Single | Underline_Double | Underline_Curly
| Underline_Dotted | Underline_Dashed.

Definition Underline_into_bool (u : Underline) : bool :=
  match u with Underline_None => false | _ => true end.

Inductive VerticalAlign : Set :=
| VerticalAlign_BaseLine | VerticalAlign_SuperScript | VerticalAlign_SubScript.

Inductive Font : Set := Font_Default | Font_Alternate (n : Z).

Inductive KittyKeyboardMode : Set :=
| KittyKeyboardMode_AssignAll | KittyKeyboardMode_SetSpecified
| KittyKeyboardMode_ClearSpecified.

(** [*mode as u16]. *)
Definition KittyKeyboardMode_u16 (m : KittyKeyboardMode) : Z :=
  match m with
  | KittyKeyboardMode_AssignAll => 1
  | KittyKeyboardMode_SetSpecified => 2
  | KittyKeyboardMode_ClearSpecified => 3
  end.

Inductive CharacterPath : Set :=
| CharacterPath_ImplementationDefault
| CharacterPath_LeftToRightOrTopToBottom
| CharacterPath_RightToLeftOrBottomToTop.

Inductive MouseButton : Set :=
| Button1Press | Button2Press | Button3Press | Button4Press | Button5Press
| Button6Press | Button7Press
| Button1Release | Button2Release | Button3Release | Button4Release | Button5Release
| Button6Release | Button7Release
| Button1Drag | Button2Drag | Button3Drag | MouseButton_None.

(** [MouseButtons] flags and [From<MouseButton>]. *)
Definition MouseButtons_LEFT : Z := 2.
Definition MouseButtons_RIGHT : Z := 4.
Definition MouseButtons_MIDDLE : Z := 8.
Definition MouseButtons_VERT_WHEEL : Z := 16.
Definition MouseButtons_HORZ_WHEEL : Z := 32.
Definition MouseButtons_WHEEL_POSITIVE : Z := 64.

Definition MouseButtons_from (b : MouseButton) : Z :=
  match b with
  | Button1Press | Button1Drag => MouseButtons_LEFT
  | Button2Press | Button2Drag => MouseButtons_MIDDLE
  | Button3Press | Button3Drag => MouseButtons_RIGHT
  | Button4Press => Z.lor MouseButtons_VERT_WHEEL MouseButtons_WHEEL_POSITIVE
  | Button5Press => MouseButtons_VERT_WHEEL
  | Button6Press => Z.lor MouseButtons_HORZ_WHEEL MouseButtons_WHEEL_POSITIVE
  | Button7Press => MouseButtons_HORZ_WHEEL
  | _ => 0
  end.

(** [Modifiers] and [KittyKeyboardFlags] are bit sets. *)
Definition Modifiers_NONE : Z := 0.
Definition Modifiers_SHIFT : Z := 2.
Definition Modifiers_ALT : Z := 4.
Definition Modifiers_CTRL : Z := 8.

Definition KittyKeyboardFlags_all : Z := 31.
Definition KittyKeyboardFlags_from_bits_truncate (b : Z) : Z := Z.land b KittyKeyboardFlags_all.

(** [DECSCUSR] styles. *)
Inductive CursorStyle : Set :=
| CursorStyle_Default | CursorStyle_BlinkingBlock | CursorStyle_SteadyBlock
| CursorStyle_BlinkingUnderline | CursorStyle_SteadyUnderline | CursorStyle_BlinkingBar
| CursorStyle_SteadyBar.

#[export] Instance CursorStyle_enum : CEnum CursorStyle :=
  {| disc c := match c with
       | CursorStyle_Default => 0 | CursorStyle_BlinkingBlock => 1
       | CursorStyle_SteadyBlock => 2 | CursorStyle_BlinkingUnderline => 3
       | CursorStyle_SteadyUnderline => 4 | CursorStyle_BlinkingBar => 5
       | CursorStyle_SteadyBar => 6
       end;
     variants :=
       [CursorStyle_Default; CursorStyle_BlinkingBlock; CursorStyle_SteadyBlock;
        CursorStyle_BlinkingUnderline; CursorStyle_SteadyUnderline;
        CursorStyle_BlinkingBar; CursorStyle_SteadyBar] |}.

#[export] Instance CursorStyle_laws : CEnumLaws CursorStyle.
Proof. intros []; reflexivity. Qed.

(** The attribute codes of a device attributes report. *)
Inductive DeviceAttributeCodes : Set :=
| DeviceAttributeCodes_Columns132 | DeviceAttributeCodes_Printer
| DeviceAttributeCodes_RegisGraphics | DeviceAttributeCodes_SixelGraphics
| DeviceAttributeCodes_SelectiveErase | DeviceAttributeCodes_UserDefinedKeys
| DeviceAttributeCodes_NationalReplacementCharsets
| DeviceAttributeCodes_TechnicalCharacters | DeviceAttributeCodes_UserWindows
| DeviceAttributeCodes_HorizontalScrolling | DeviceAttributeCodes_AnsiColor
| DeviceAttributeCodes_AnsiTextLocator.

#[export] Instance DeviceAttributeCodes_enum : CEnum DeviceAttributeCodes :=
  {| disc c := match c with
       | DeviceAttributeCodes_Columns132 => 1 | DeviceAttributeCodes_Printer => 2
       | DeviceAttributeCodes_RegisGraphics => 3 | DeviceAttributeCodes_SixelGraphics => 4
       | DeviceAttributeCodes_SelectiveErase => 6
       | DeviceAttributeCodes_UserDefinedKeys => 8
       | DeviceAttributeCodes_NationalReplacementCharsets => 9
       | DeviceAttributeCodes_TechnicalCharacters => 15
       | DeviceAttributeCodes_UserWindows => 18
       | DeviceAttributeCodes_HorizontalScrolling => 21
       | DeviceAttributeCodes_AnsiColor => 22 | DeviceAttributeCodes_AnsiTextLocator => 29
       end;
     variants :=
       [DeviceAttributeCodes_Columns132; DeviceAttributeCodes_Printer;
        DeviceAttributeCodes_RegisGraphics; DeviceAttributeCodes_SixelGraphics;
        DeviceAttributeCodes_SelectiveErase; DeviceAttributeCodes_UserDefinedKeys;
        DeviceAttributeCodes_NationalReplacementCharsets;
        DeviceAttributeCodes_TechnicalCharacters; DeviceAttributeCodes_UserWindows;
        DeviceAttributeCodes_HorizontalScrolling; DeviceAttributeCodes_AnsiColor;
        DeviceAttributeCodes_AnsiTextLocator] |}.

#[export] Instance DeviceAttributeCodes_laws : CEnumLaws DeviceAttributeCodes.
Proof. intros []; reflexivity. Qed.

(** The DEC private modes the program knows. *)
Inductive DecPrivateModeCode : Set :=
| DecPrivateModeCode_ApplicationCursorKeys | DecPrivateModeCode_DecAnsiMode
| DecPrivateModeCode_Select132Columns | DecPrivateModeCode_SmoothScroll
| DecPrivateModeCode_ReverseVideo | DecPrivateModeCode_OriginMode
| DecPrivateModeCode_AutoWrap | DecPrivateModeCode_AutoRepeat
| DecPrivateModeCode_StartBlinkingCursor | DecPrivateModeCode_ShowCursor
| DecPrivateModeCode_ReverseWraparound | DecPrivateModeCode_LeftRightMarginMode
| DecPrivateModeCode_SixelDisplayMode | DecPrivateModeCode_MouseTracking
| DecPrivateModeCode_HighlightMouseTracking | DecPrivateModeCode_ButtonEventMouse
| DecPrivateModeCode_AnyEventMouse | DecPrivateModeCode_FocusTracking
| DecPrivateModeCode_Utf8Mouse | DecPrivateModeCode_SGRMouse
| DecPrivateModeCode_SGRPixelsMouse | DecPrivateModeCode_XTermMetaSendsEscape
| DecPrivateModeCode_XTermAltSendsEscape | DecPrivateModeCode_SaveCursor
| DecPrivateModeCode_ClearAndEnableAlternateScreen
| DecPrivateModeCode_EnableAlternateScreen | DecPrivateModeCode_OptEnableAlternateScreen
| DecPrivateModeCode_BracketedPaste | DecPrivateModeCode_GraphemeClustering
| DecPrivateModeCode_UsePrivateColorRegistersForEachGraphic
| DecPrivateModeCode_SynchronizedOutput | DecPrivateModeCode_MinTTYApplicationEscapeKeyMode
| DecPrivateModeCode_SixelScrollsRight | DecPrivateModeCode_Win32InputMode.

#[export] Instance DecPrivateModeCode_enum : CEnum DecPrivateModeCode :=
  {| disc c := match c with
       | DecPrivateModeCode_ApplicationCursorKeys => 1
       | DecPrivateModeCode_DecAnsiMode => 2 | DecPrivateModeCode_Select132Columns => 3
       | DecPrivateModeCode_SmoothScroll => 4 | DecPrivateModeCode_ReverseVideo => 5
       | DecPrivateModeCode_OriginMode => 6 | DecPrivateModeCode_AutoWrap => 7
       | DecPrivateModeCode_AutoRepeat => 8 | DecPrivateModeCode_StartBlinkingCursor => 12
       | DecPrivateModeCode_ShowCursor => 25 | DecPrivateModeCode_ReverseWraparound => 45
       | DecPrivateModeCode_LeftRightMarginMode => 69
       | DecPrivateModeCode_SixelDisplayMode => 80
       | DecPrivateModeCode_MouseTracking => 1000
       | DecPrivateModeCode_HighlightMouseTracking => 1001
       | DecPrivateModeCode_ButtonEventMouse => 1002
       | DecPrivateModeCode_AnyEventMouse => 1003
       | DecPrivateModeCode_FocusTracking => 1004 | DecPrivateModeCode_Utf8Mouse => 1005
       | DecPrivateModeCode_SGRMouse => 1006 | DecPrivateModeCode_SGRPixelsMouse => 1016
       | DecPrivateModeCode_XTermMetaSendsEscape => 1036
       | DecPrivateModeCode_XTermAltSendsEscape => 1039
       | DecPrivateModeCode_SaveCursor => 1048
       | DecPrivateModeCode_ClearAndEnableAlternateScreen => 1049
       | DecPrivateModeCode_EnableAlternateScreen => 47
       | DecPrivateModeCode_OptEnableAlternateScreen => 1047
       | DecPrivateModeCode_BracketedPaste => 2004
       | DecPrivateModeCode_GraphemeClustering => 2027
       | DecPrivateModeCode_UsePrivateColorRegistersForEachGraphic => 1070
       | DecPrivateModeCode_SynchronizedOutput => 2026
       | DecPrivateModeCode_MinTTYApplicationEscapeKeyMode => 7727
       | DecPrivateModeCode_SixelScrollsRight => 8452
       | DecPrivateModeCode_Win32InputMode => 9001
       end;
     variants :=
       [DecPrivateModeCode_ApplicationCursorKeys; DecPrivateModeCode_DecAnsiMode;
        DecPrivateModeCode_Select132Columns; DecPrivateModeCode_SmoothScroll;
        DecPrivateModeCode_ReverseVideo; DecPrivateModeCode_OriginMode;
        DecPrivateModeCode_AutoWrap; DecPrivateModeCode_AutoRepeat;
        DecPrivateModeCode_StartBlinkingCursor; DecPrivateModeCode_ShowCursor;
        DecPrivateModeCode_ReverseWraparound; DecPrivateModeCode_LeftRightMarginMode;
        DecPrivateModeCode_SixelDisplayMode; DecPrivateModeCode_MouseTracking;
        DecPrivateModeCode_HighlightMouseTracking; DecPrivateModeCode_ButtonEventMouse;
        DecPrivateModeCode_AnyEventMouse; DecPrivateModeCode_FocusTracking;
        DecPrivateModeCode_Utf8Mouse; DecPrivateModeCode_SGRMouse;
        DecPrivateModeCode_SGRPixelsMouse; DecPrivateModeCode_XTermMetaSendsEscape;
        DecPrivateModeCode_XTermAltSendsEscape; DecPrivateModeCode_SaveCursor;
        DecPrivateModeCode_ClearAndEnableAlternateScreen;
        DecPrivateModeCode_EnableAlternateScreen;
        DecPrivateModeCode_OptEnableAlternateScreen; DecPrivateModeCode_BracketedPaste;
        DecPrivateModeCode_GraphemeClustering;
        DecPrivateModeCode_UsePrivateColorRegistersForEachGraphic;
        DecPrivateModeCode_SynchronizedOutput;
        DecPrivateModeCode_MinTTYApplicationEscapeKeyMode;
        DecPrivateModeCode_SixelScrollsRight; DecPrivateModeCode_Win32InputMode] |}.

#[export] Instance DecPrivateModeCode_laws : CEnumLaws DecPrivateModeCode.
Proof. intros []; reflexivity. Qed.

(** The ECMA-48 modes the program knows. *)
Inductive TerminalModeCode : Set :=
| TerminalModeCode_KeyboardAction | TerminalModeCode_Insert
| TerminalModeCode_BiDirectionalSupportMode | TerminalModeCode_SendReceive
| TerminalModeCode_AutomaticNewline | TerminalModeCode_ShowCursor.

#[export] Instance TerminalModeCode_enum : CEnum TerminalModeCode :=
  {| disc c := match c with
       | TerminalModeCode_KeyboardAction => 2 | TerminalModeCode_Insert => 4
       | TerminalModeCode_BiDirectionalSupportMode => 8
       | TerminalModeCode_SendReceive => 12 | TerminalModeCode_AutomaticNewline => 20
       | TerminalModeCode_ShowCursor => 25
       end;
     variants :=
       [TerminalModeCode_KeyboardAction; TerminalModeCode_Insert;
        TerminalModeCode_BiDirectionalSupportMode; TerminalModeCode_SendReceive;
        TerminalModeCode_AutomaticNewline; TerminalModeCode_ShowCursor] |}.

#[export] Instance TerminalModeCode_laws : CEnumLaws TerminalModeCode.
Proof. intros []; reflexivity. Qed.

(** Parameters of CTC. *)
Inductive CursorTabulationControl : Set :=
| CursorTabulationControl_SetCharacterTabStopAtActivePosition
| CursorTabulationControl_SetLineTabStopAtActiveLine
| CursorTabulationControl_ClearCharacterTabStopAtActivePosition
| CursorTabulationControl_ClearLineTabstopAtActiveLine
| CursorTabulationControl_ClearAllCharacterTabStopsAtActiveLine
| CursorTabulationControl_ClearAllCharacterTabStops
| CursorTabulationControl_ClearAllLineTabStops.

#[export] Instance CursorTabulationControl_enum : CEnum CursorTabulationControl :=
  {| disc c := match c with
       | CursorTabulationControl_SetCharacterTabStopAtActivePosition => 0
       | CursorTabulationControl_SetLineTabStopAtActiveLine => 1
       | CursorTabulationControl_ClearCharacterTabStopAtActivePosition => 2
       | CursorTabulationControl_ClearLineTabstopAtActiveLine => 3
       | CursorTabulationControl_ClearAllCharacterTabStopsAtActiveLine => 4
       | CursorTabulationControl_ClearAllCharacterTabStops => 5
       | CursorTabulationControl_ClearAllLineTabStops => 6
       end;
     variants :=
       [CursorTabulationControl_SetCharacterTabStopAtActivePosition;
        CursorTabulationControl_SetLineTabStopAtActiveLine;
        CursorTabulationControl_ClearCharacterTabStopAtActivePosition;
        CursorTabulationControl_ClearLineTabstopAtActiveLine;
        CursorTabulationControl_ClearAllCharacterTabStopsAtActiveLine;
        CursorTabulationControl_ClearAllCharacterTabStops;
        CursorTabulationControl_ClearAllLineTabStops] |}.

#[export] Instance CursorTabulationControl_laws : CEnumLaws CursorTabulationControl.
Proof. intros []; reflexivity. Qed.

(** Parameters of TBC. *)
Inductive TabulationClear : Set :=
| TabulationClear_ClearCharacterTabStopAtActivePosition
| TabulationClear_ClearLineTabStopAtActiveLine
| TabulationClear_ClearCharacterTabStopsAtActiveLine
| TabulationClear_ClearAllCharacterTabStops | TabulationClear_ClearAllLineTabStops
| TabulationClear_ClearAllTabStops.

#[export] Instance TabulationClear_enum : CEnum TabulationClear :=
  {| disc c := match c with
       | TabulationClear_ClearCharacterTabStopAtActivePosition => 0
       | TabulationClear_ClearLineTabStopAtActiveLine => 1
       | TabulationClear_ClearCharacterTabStopsAtActiveLine => 2
       | TabulationClear_ClearAllCharacterTabStops => 3
       | TabulationClear_ClearAllLineTabStops => 4 | TabulationClear_ClearAllTabStops => 5
       end;
     variants :=
       [TabulationClear_ClearCharacterTabStopAtActivePosition;
        TabulationClear_ClearLineTabStopAtActiveLine;
        TabulationClear_ClearCharacterTabStopsAtActiveLine;
        TabulationClear_ClearAllCharacterTabStops; TabulationClear_ClearAllLineTabStops;
        TabulationClear_ClearAllTabStops] |}.

#[export] Instance TabulationClear_laws : CEnumLaws TabulationClear.
Proof. intros []; reflexivity. Qed.

(** Parameters of EL. *)
Inductive EraseInLine : Set :=
| EraseInLine_EraseToEndOfLine | EraseInLine_EraseToStartOfLine | EraseInLine_EraseLine.

#[export] Instance EraseInLine_enum : CEnum EraseInLine :=
  {| disc c := match c with
       | EraseInLine_EraseToEndOfLine => 0 | EraseInLine_EraseToStartOfLine => 1
       | EraseInLine_EraseLine => 2
       end;
     variants :=
       [EraseInLine_EraseToEndOfLine; EraseInLine_EraseToStartOfLine; EraseInLine_EraseLine] |}.

#[export] Instance EraseInLine_laws : CEnumLaws EraseInLine.
Proof. intros []; reflexivity. Qed.

(** Parameters of ED. *)
Inductive EraseInDisplay : Set :=
| EraseInDisplay_EraseToEndOfDisplay | EraseInDisplay_EraseToStartOfDisplay
| EraseInDisplay_EraseDisplay | EraseInDisplay_EraseScrollback.

#[export] Instance EraseInDisplay_enum : CEnum EraseInDisplay :=
  {| disc c := match c with
       | EraseInDisplay_EraseToEndOfDisplay => 0
       | EraseInDisplay_EraseToStartOfDisplay => 1 | EraseInDisplay_EraseDisplay => 2
       | EraseInDisplay_EraseScrollback => 3
       end;
     variants :=
       [EraseInDisplay_EraseToEndOfDisplay; EraseInDisplay_EraseToStartOfDisplay;
        EraseInDisplay_EraseDisplay; EraseInDisplay_EraseScrollback] |}.

#[export] Instance EraseInDisplay_laws : CEnumLaws EraseInDisplay.
Proof. intros []; reflexivity. Qed.

(** The SGR codes, with their numbers. *)
Inductive SgrCode : Set :=
| SgrCode_Reset | SgrCode_IntensityBold | SgrCode_IntensityDim | SgrCode_ItalicOn
| SgrCode_UnderlineOn | SgrCode_BlinkOn | SgrCode_RapidBlinkOn | SgrCode_InverseOn
| SgrCode_InvisibleOn | SgrCode_StrikeThroughOn | SgrCode_DefaultFont | SgrCode_AltFont1
| SgrCode_AltFont2 | SgrCode_AltFont3 | SgrCode_AltFont4 | SgrCode_AltFont5
| SgrCode_AltFont6 | SgrCode_AltFont7 | SgrCode_AltFont8 | SgrCode_AltFont9
| SgrCode_UnderlineDouble | SgrCode_NormalIntensity | SgrCode_ItalicOff
| SgrCode_UnderlineOff | SgrCode_BlinkOff | SgrCode_InverseOff | SgrCode_InvisibleOff
| SgrCode_StrikeThroughOff | SgrCode_ForegroundBlack | SgrCode_ForegroundRed
| SgrCode_ForegroundGreen | SgrCode_ForegroundYellow | SgrCode_ForegroundBlue
| SgrCode_ForegroundMagenta | SgrCode_ForegroundCyan | SgrCode_ForegroundWhite
| SgrCode_ForegroundDefault | SgrCode_BackgroundBlack | SgrCode_BackgroundRed
| SgrCode_BackgroundGreen | SgrCode_BackgroundYellow | SgrCode_BackgroundBlue
| SgrCode_BackgroundMagenta | SgrCode_BackgroundCyan | SgrCode_BackgroundWhite
| SgrCode_BackgroundDefault | SgrCode_OverlineOn | SgrCode_OverlineOff
| SgrCode_UnderlineColor | SgrCode_ResetUnderlineColor | SgrCode_VerticalAlignSuperScript
| SgrCode_VerticalAlignSubScript | SgrCode_VerticalAlignBaseLine
| SgrCode_ForegroundBrightBlack | SgrCode_ForegroundBrightRed
| SgrCode_ForegroundBrightGreen | SgrCode_ForegroundBrightYellow
| SgrCode_ForegroundBrightBlue | SgrCode_ForegroundBrightMagenta
| SgrCode_ForegroundBrightCyan | SgrCode_ForegroundBrightWhite
| SgrCode_BackgroundBrightBlack | SgrCode_BackgroundBrightRed
| SgrCode_BackgroundBrightGreen | SgrCode_BackgroundBrightYellow
| SgrCode_BackgroundBrightBlue | SgrCode_BackgroundBrightMagenta
| SgrCode_BackgroundBrightCyan | SgrCode_BackgroundBrightWhite | SgrCode_ForegroundColor
| SgrCode_BackgroundColor.

#[export] Instance SgrCode_enum : CEnum SgrCode :=
  {| disc c := match c with
       | SgrCode_Reset => 0 | SgrCode_IntensityBold => 1 | SgrCode_IntensityDim => 2
       | SgrCode_ItalicOn => 3 | SgrCode_UnderlineOn => 4 | SgrCode_BlinkOn => 5
       | SgrCode_RapidBlinkOn => 6 | SgrCode_InverseOn => 7 | SgrCode_InvisibleOn => 8
       | SgrCode_StrikeThroughOn => 9 | SgrCode_DefaultFont => 10 | SgrCode_AltFont1 => 11
       | SgrCode_AltFont2 => 12 | SgrCode_AltFont3 => 13 | SgrCode_AltFont4 => 14
       | SgrCode_AltFont5 => 15 | SgrCode_AltFont6 => 16 | SgrCode_AltFont7 => 17
       | SgrCode_AltFont8 => 18 | SgrCode_AltFont9 => 19 | SgrCode_UnderlineDouble => 21
       | SgrCode_NormalIntensity => 22 | SgrCode_ItalicOff => 23
       | SgrCode_UnderlineOff => 24 | SgrCode_BlinkOff => 25 | SgrCode_InverseOff => 27
       | SgrCode_InvisibleOff => 28 | SgrCode_StrikeThroughOff => 29
       | SgrCode_ForegroundBlack => 30 | SgrCode_ForegroundRed => 31
       | SgrCode_ForegroundGreen => 32 | SgrCode_ForegroundYellow => 33
       | SgrCode_ForegroundBlue => 34 | SgrCode_ForegroundMagenta => 35
       | SgrCode_ForegroundCyan => 36 | SgrCode_ForegroundWhite => 37
       | SgrCode_ForegroundDefault => 39 | SgrCode_BackgroundBlack => 40
       | SgrCode_BackgroundRed => 41 | SgrCode_BackgroundGreen => 42
       | SgrCode_BackgroundYellow => 43 | SgrCode_BackgroundBlue => 44
       | SgrCode_BackgroundMagenta => 45 | SgrCode_BackgroundCyan => 46
       | SgrCode_BackgroundWhite => 47 | SgrCode_BackgroundDefault => 49
       | SgrCode_OverlineOn => 53 | SgrCode_OverlineOff => 55
       | SgrCode_UnderlineColor => 58 | SgrCode_ResetUnderlineColor => 59
       | SgrCode_VerticalAlignSuperScript => 73 | SgrCode_VerticalAlignSubScript => 74
       | SgrCode_VerticalAlignBaseLine => 75 | SgrCode_ForegroundBrightBlack => 90
       | SgrCode_ForegroundBrightRed => 91 | SgrCode_ForegroundBrightGreen => 92
       | SgrCode_ForegroundBrightYellow => 93 | SgrCode_ForegroundBrightBlue => 94
       | SgrCode_ForegroundBrightMagenta => 95 | SgrCode_ForegroundBrightCyan => 96
       | SgrCode_ForegroundBrightWhite => 97 | SgrCode_BackgroundBrightBlack => 100
       | SgrCode_BackgroundBrightRed => 101 | SgrCode_BackgroundBrightGreen => 102
       | SgrCode_BackgroundBrightYellow => 103 | SgrCode_BackgroundBrightBlue => 104
       | SgrCode_BackgroundBrightMagenta => 105 | SgrCode_BackgroundBrightCyan => 106
       | SgrCode_BackgroundBrightWhite => 107 | SgrCode_ForegroundColor => 38
       | SgrCode_BackgroundColor => 48
       end;
     variants :=
       [SgrCode_Reset; SgrCode_IntensityBold; SgrCode_IntensityDim; SgrCode_ItalicOn;
        SgrCode_UnderlineOn; SgrCode_BlinkOn; SgrCode_RapidBlinkOn; SgrCode_InverseOn;
        SgrCode_InvisibleOn; SgrCode_StrikeThroughOn; SgrCode_DefaultFont;
        SgrCode_AltFont1; SgrCode_AltFont2; SgrCode_AltFont3; SgrCode_AltFont4;
        SgrCode_AltFont5; SgrCode_AltFont6; SgrCode_AltFont7; SgrCode_AltFont8;
        SgrCode_AltFont9; SgrCode_UnderlineDouble; SgrCode_NormalIntensity;
        SgrCode_ItalicOff; SgrCode_UnderlineOff; SgrCode_BlinkOff; SgrCode_InverseOff;
        SgrCode_InvisibleOff; SgrCode_StrikeThroughOff; SgrCode_ForegroundBlack;
        SgrCode_ForegroundRed; SgrCode_ForegroundGreen; SgrCode_ForegroundYellow;
        SgrCode_ForegroundBlue; SgrCode_ForegroundMagenta; SgrCode_ForegroundCyan;
        SgrCode_ForegroundWhite; SgrCode_ForegroundDefault; SgrCode_BackgroundBlack;
        SgrCode_BackgroundRed; SgrCode_BackgroundGreen; SgrCode_BackgroundYellow;
        SgrCode_BackgroundBlue; SgrCode_BackgroundMagenta; SgrCode_BackgroundCyan;
        SgrCode_BackgroundWhite; SgrCode_BackgroundDefault; SgrCode_OverlineOn;
        SgrCode_OverlineOff; SgrCode_UnderlineColor; SgrCode_ResetUnderlineColor;
        SgrCode_VerticalAlignSuperScript; SgrCode_VerticalAlignSubScript;
        SgrCode_VerticalAlignBaseLine; SgrCode_ForegroundBrightBlack;
        SgrCode_ForegroundBrightRed; SgrCode_ForegroundBrightGreen;
        SgrCode_ForegroundBrightYellow; SgrCode_ForegroundBrightBlue;
        SgrCode_ForegroundBrightMagenta; SgrCode_ForegroundBrightCyan;
        SgrCode_ForegroundBrightWhite; SgrCode_BackgroundBrightBlack;
        SgrCode_BackgroundBrightRed; SgrCode_BackgroundBrightGreen;
        SgrCode_BackgroundBrightYellow; SgrCode_BackgroundBrightBlue;
        SgrCode_BackgroundBrightMagenta; SgrCode_BackgroundBrightCyan;
        SgrCode_BackgroundBrightWhite; SgrCode_ForegroundColor; SgrCode_BackgroundColor] |}.

#[export] Instance SgrCode_laws : CEnumLaws SgrCode.
Proof. intros []; reflexivity. Qed.

(** ** Structures *)

Inductive DeviceAttribute : Set :=
| DeviceAttribute_Code (c : DeviceAttributeCodes)
| DeviceAttribute_Unspecified (p : CsiParam).

(** [DeviceAttributeFlags { attributes }]. *)
Definition DeviceAttributeFlags : Set := list DeviceAttribute.

Inductive DeviceAttributes : Set :=
| Vt100WithAdvancedVideoOption | Vt101WithNoOptions | Vt102
| Vt220 (attr : DeviceAttributeFlags)
| Vt320 (attr : DeviceAttributeFlags)
| Vt420 (attr : DeviceAttributeFlags).

Inductive XtSmGraphicsItem : Set :=
| NumberOfColorRegisters | SixelGraphicsGeometry | RegisGraphicsGeometry
| XtSmGraphicsItem_Unspecified (n : Z).

Inductive XtSmGraphicsAction : Set :=
| ReadAttribute | ResetToDefault | SetToValue | ReadMaximumAllowedValue.

Inductive XtSmGraphicsStatus : Set := Success | InvalidItem | InvalidAction | Failure.

Record XtSmGraphics : Set := mkXtSmGraphics {
  item : XtSmGraphicsItem;
  action_or_status : Z;
  value : list Z
}.

Inductive Device : Set :=
| Device_DeviceAttributes (a : DeviceAttributes)
| SoftReset
| RequestPrimaryDeviceAttributes
| RequestSecondaryDeviceAttributes
| RequestTertiaryDeviceAttributes
| StatusReport
| RequestTerminalNameAndVersion
| RequestTerminalParameters (n : Z)
| Device_XtSmGraphics (g : XtSmGraphics).

Inductive Window : Set :=
| DeIconify | Iconify
| MoveWindow (x y : Z)
| ResizeWindowPixels (width height : option Z)
| RaiseWindow | LowerWindow | RefreshWindow
| ResizeWindowCells (width height : option Z)
| RestoreMaximizedWindow | MaximizeWindow | MaximizeWindowVertically
| MaximizeWindowHorizontally | UndoFullScreenMode | ChangeToFullScreenMode
| ToggleFullScreen | ReportWindowState | ReportWindowPosition
| ReportTextAreaPosition | ReportTextAreaSizePixels | ReportWindowSizePixels
| ReportScreenSizePixels | ReportCellSizePixels
| ReportCellSizePixelsResponse (width height : option Z)
| ReportTextAreaSizeCells | ReportScreenSizeCells | ReportIconLabel
| ReportWindowTitle | PushIconAndWindowTitle | PushIconTitle | PushWindowTitle
| PopIconAndWindowTitle | PopIconTitle | PopWindowTitle
| ChecksumRectangularArea (request_id page_number : Z) (top left_ bottom right_ : OneBased).

Inductive MouseReport : Set :=
| SGR1006 (x y : Z) (button : MouseButton) (modifiers : Z)
| SGR1016 (x_pixels y_pixels : Z) (button : MouseButton) (modifiers : Z).

Inductive XtermKeyModifierResource : Set :=
| XKM_Keyboard | XKM_CursorKeys | XKM_FunctionKeys | XKM_OtherKeys.

Inductive DecPrivateMode : Set :=
| DecPrivateMode_Code (c : DecPrivateModeCode)
| DecPrivateMode_Unspecified (n : Z).

Inductive TerminalMode : Set :=
| TerminalMode_Code (c : TerminalModeCode)
| TerminalMode_Unspecified (n : Z).

Inductive Mode : Set :=
| SetDecPrivateMode (m : DecPrivateMode)
| ResetDecPrivateMode (m : DecPrivateMode)
| SaveDecPrivateMode (m : DecPrivateMode)
| RestoreDecPrivateMode (m : DecPrivateMode)
| QueryDecPrivateMode (m : DecPrivateMode)
| SetMode (m : TerminalMode)
| ResetMode (m : TerminalMode)
| QueryMode (m : TerminalMode)
| XtermKeyMode (resource : XtermKeyModifierResource) (val : option Z).

Inductive Cursor : Set :=
| Cursor_BackwardTabulation (n : Z)
| Cursor_TabulationClear (t : TabulationClear)
| Cursor_CharacterAbsolute (col : OneBased)
| Cursor_CharacterPositionAbsolute (col : OneBased)
| Cursor_CharacterPositionBackward (n : Z)
| Cursor_CharacterPositionForward (n : Z)
| Cursor_CharacterAndLinePosition (line col : OneBased)
| Cursor_LinePositionAbsolute (n : Z)
| Cursor_LinePositionBackward (n : Z)
| Cursor_LinePositionForward (n : Z)
| Cursor_ForwardTabulation (n : Z)
| Cursor_NextLine (n : Z)
| Cursor_PrecedingLine (n : Z)
| Cursor_ActivePositionReport (line col : OneBased)
| Cursor_RequestActivePositionReport
| Cursor_SaveCursor
| Cursor_RestoreCursor
| Cursor_TabulationControl (t : CursorTabulationControl)
| Cursor_Left (n : Z)
| Cursor_Down (n : Z)
| Cursor_Right (n : Z)
| Cursor_Position (line col : OneBased)
| Cursor_Up (n : Z)
| Cursor_LineTabulation (n : Z)
| Cursor_SetTopAndBottomMargins (top bottom : OneBased)
| Cursor_SetLeftAndRightMargins (left_ right_ : OneBased)
| Cursor_CursorStyle (s : CursorStyle).

Inductive Edit : Set :=
| Edit_DeleteCharacter (n : Z)
| Edit_DeleteLine (n : Z)
| Edit_EraseCharacter (n : Z)
| Edit_EraseInLine (e : EraseInLine)
| Edit_InsertCharacter (n : Z)
| Edit_InsertLine (n : Z)
| Edit_ScrollDown (n : Z)
| Edit_ScrollUp (n : Z)
| Edit_EraseInDisplay (e : EraseInDisplay)
| Edit_Repeat (n : Z).

Inductive Sgr : Set :=
| Sgr_Reset
| Sgr_Intensity (i : Intensity)
| Sgr_Underline (u : Underline)
| Sgr_UnderlineColor (c : ColorSpec)
| Sgr_Blink (b : Blink)
| Sgr_Italic (b : bool)
| Sgr_Inverse (b : bool)
| Sgr_Invisible (b : bool)
| Sgr_StrikeThrough (b : bool)
| Sgr_Font (f : Font)
| Sgr_Foreground (c : ColorSpec)
| Sgr_Background (c : ColorSpec)
| Sgr_Overline (b : bool)
| Sgr_VerticalAlign (v : VerticalAlign).

Inductive Keyboard : Set :=
| SetKittyState (flags : Z) (mode : KittyKeyboardMode)
| PushKittyState (flags : Z) (mode : KittyKeyboardMode)
| PopKittyState (n : Z)
| QueryKittySupport
| ReportKittyState (flags : Z).

Record Unspecified : Set := mkUnspecified {
  un_params : list CsiParam;
  un_parameters_truncated : bool;
  un_control : Z
}.

Inductive CSI : Set :=
| CSI_Sgr (s : Sgr)
| CSI_Cursor (c : Cursor)
| CSI_Edit (e : Edit)
| CSI_Mode (m : Mode)
| CSI_Device (d : Device)
| CSI_Mouse (m : MouseReport)
| CSI_Window (w : Window)
| CSI_Keyboard (k : Keyboard)
| CSI_SelectCharacterPath (path : CharacterPath) (n : Z)
| CSI_Unspecified (u : Unspecified).

(** ** Display *)

(** [EncodeCSIParam::write_csi]: the default value is left out. *)
Class EncodeCSIParam (T : Type) := write_csi : T -> list Z -> list Z.

(** [ParamEnum::default], the marker trait of parameter enums. *)
Class ParamEnum (T : Type) `{CEnum T} := param_default : T.

#[export] Instance CursorTabulationControl_param : ParamEnum CursorTabulationControl :=
  CursorTabulationControl_SetCharacterTabStopAtActivePosition.

#[export] Instance TabulationClear_param : ParamEnum TabulationClear :=
  TabulationClear_ClearCharacterTabStopAtActivePosition.

#[export] Instance EraseInLine_param : ParamEnum EraseInLine := EraseInLine_EraseToEndOfLine.

#[export] Instance EraseInDisplay_param : ParamEnum EraseInDisplay :=
  EraseInDisplay_EraseToEndOfDisplay.

#[export] Instance enum_write_csi {T} `{ParamEnum T} : EncodeCSIParam T :=
  fun v control => if disc v =? disc (param_default : T) then control else dec (disc v) ++ control.

Definition u32_write_csi (v : Z) (control : list Z) : list Z :=
  if v =? 1 then control else dec v ++ control.

#[export] Instance OneBased_write_csi : EncodeCSIParam OneBased :=
  fun v control => if as_one_based v =? 1 then control else dec (ob_value v) ++ control.

Definition OneBased_fmt (v : OneBased) : list Z := dec (ob_value v).

Definition Unspecified_fmt (u : Unspecified) : list Z :=
  concat (map CsiParam_fmt (un_params u)) ++ encode_utf8 (un_control u).

(** [DeviceAttributeFlags::emit]. *)
Definition attributes_emit (attr : DeviceAttributeFlags) (leader : list Z) : list Z :=
  leader ++
  concat (map (fun a => match a with
                        | DeviceAttribute_Code c => bs ";" ++ dec (disc c)
                        | DeviceAttribute_Unspecified p => bs ";" ++ CsiParam_fmt p
                        end) attr) ++
  bs "c".

Definition XtSmGraphicsItem_fmt (i : XtSmGraphicsItem) : list Z :=
  match i with
  | NumberOfColorRegisters => bs "1"
  | SixelGraphicsGeometry => bs "2"
  | RegisGraphicsGeometry => bs "3"
  | XtSmGraphicsItem_Unspecified n => dec n
  end.

Definition XtSmGraphicsAction_to_i64 (a : XtSmGraphicsAction) : Z :=
  match a with
  | ReadAttribute => 1 | ResetToDefault => 2 | SetToValue => 3 | ReadMaximumAllowedValue => 4
  end.

Definition XtSmGraphicsStatus_to_i64 (s : XtSmGraphicsStatus) : Z :=
  match s with Success => 0 | InvalidItem => 1 | InvalidAction => 2 | Failure => 3 end.

Definition XtSmGraphics_action (g : XtSmGraphics) : option XtSmGraphicsAction :=
  let a := action_or_status g in
  if a =? 1 then Some ReadAttribute
  else if a =? 2 then Some ResetToDefault
  else if a =? 3 then Some SetToValue
  else if a =? 4 then Some ReadMaximumAllowedValue
  else None.

Definition XtSmGraphics_status (g : XtSmGraphics) : option XtSmGraphicsStatus :=
  let a := action_or_status g in
  if a =? 0 then Some Success
  else if a =? 1 then Some InvalidItem
  else if a =? 2 then Some InvalidAction
  else if a =? 3 then Some Failure
  else None.

(** [n + 2] of an [i64]; it wraps where a checked build would panic. *)
Definition i64_add_wrap (a b : Z) : Z := (a + b + 2 ^ 63) mod 2 ^ 64 - 2 ^ 63.

Definition Device_fmt (d : Device) : list Z :=
  match d with
  | Device_DeviceAttributes Vt100WithAdvancedVideoOption => bs "?1;2c"
  | Device_DeviceAttributes Vt101WithNoOptions => bs "?1;0c"
  | Device_DeviceAttributes Vt102 => bs "?6c"
  | Device_DeviceAttributes (Vt220 attr) => attributes_emit attr (bs "?62")
  | Device_DeviceAttributes (Vt320 attr) => attributes_emit attr (bs "?63")
  | Device_DeviceAttributes (Vt420 attr) => attributes_emit attr (bs "?64")
  | SoftReset => bs "!p"
  | RequestPrimaryDeviceAttributes => bs "c"
  | RequestSecondaryDeviceAttributes => bs ">c"
  | RequestTertiaryDeviceAttributes => bs "=c"
  | RequestTerminalNameAndVersion => bs ">q"
  | RequestTerminalParameters n => dec (i64_add_wrap n 2) ++ bs ";1;1;128;128;1;0x"
  | StatusReport => bs "5n"
  | Device_XtSmGraphics g =>
      bs "?" ++ XtSmGraphicsItem_fmt (item g) ++ bs ";" ++ dec (action_or_status g) ++
      concat (map (fun v => bs ";" ++ dec v) (value g)) ++ bs "S"
  end.

Definition numstr_or_empty (x : option Z) : list Z :=
  match x with Some x => dec x | None => [] end.

Definition Window_fmt (w : Window) : list Z :=
  match w with
  | DeIconify => bs "1t"
  | Iconify => bs "2t"
  | MoveWindow x y => bs "3;" ++ dec x ++ bs ";" ++ dec y ++ bs "t"
  | ResizeWindowPixels width height =>
      bs "4;" ++ numstr_or_empty height ++ bs ";" ++ numstr_or_empty width ++ bs "t"
  | RaiseWindow => bs "5t"
  | LowerWindow => bs "6t"
  | RefreshWindow => bs "7t"
  | ResizeWindowCells width height =>
      bs "8;" ++ numstr_or_empty height ++ bs ";" ++ numstr_or_empty width ++ bs "t"
  | RestoreMaximizedWindow => bs "9;0t"
  | MaximizeWindow => bs "9;1t"
  | MaximizeWindowVertically => bs "9;2t"
  | MaximizeWindowHorizontally => bs "9;3t"
  | UndoFullScreenMode => bs "10;0t"
  | ChangeToFullScreenMode => bs "10;1t"
  | ToggleFullScreen => bs "10;2t"
  | ReportWindowState => bs "11t"
  | ReportWindowPosition => bs "13t"
  | ReportTextAreaPosition => bs "13;2t"
  | ReportTextAreaSizePixels => bs "14t"
  | ReportWindowSizePixels => bs "14;2t"
  | ReportScreenSizePixels => bs "15t"
  | ReportCellSizePixels => bs "16t"
  | ReportCellSizePixelsResponse width height =>
      bs "6;" ++ numstr_or_empty height ++ bs ";" ++ numstr_or_empty width ++ bs "t"
  | ReportTextAreaSizeCells => bs "18t"
  | ReportScreenSizeCells => bs "19t"
  | ReportIconLabel => bs "20t"
  | ReportWindowTitle => bs "21t"
  | PushIconAndWindowTitle => bs "22;0t"
  | PushIconTitle => bs "22;1t"
  | PushWindowTitle => bs "22;2t"
  | PopIconAndWindowTitle => bs "23;0t"
  | PopIconTitle => bs "23;1t"
  | PopWindowTitle => bs "23;2t"
  | ChecksumRectangularArea request_id page_number top left_ bottom right_ =>
      dec request_id ++ bs ";" ++ dec page_number ++ bs ";" ++ OneBased_fmt top ++ bs ";" ++
      OneBased_fmt left_ ++ bs ";" ++ OneBased_fmt bottom ++ bs ";" ++ OneBased_fmt right_ ++
      bs "*y"
  end.

(** The button code and the final byte of a mouse report. *)
Definition mouse_code (button : MouseButton) (modifiers : Z) : Z :=
  let b := 0 in
  let b := if negb (Z.land modifiers Modifiers_SHIFT =? Modifiers_NONE) then Z.lor b 4 else b in
  let b := if negb (Z.land modifiers Modifiers_ALT =? Modifiers_NONE) then Z.lor b 8 else b in
  let b := if negb (Z.land modifiers Modifiers_CTRL =? Modifiers_NONE) then Z.lor b 16 else b in
  Z.lor b
    match button with
    | Button1Press | Button1Release => 0
    | Button2Press | Button2Release => 1
    | Button3Press | Button3Release => 2
    | Button4Press | Button4Release => 64
    | Button5Press | Button5Release => 65
    | Button6Press | Button6Release => 66
    | Button7Press | Button7Release => 67
    | Button1Drag => 32
    | Button2Drag => 33
    | Button3Drag => 34
    | MouseButton_None => 35
    end.

Definition mouse_trailer (button : MouseButton) : Z :=
  match button with
  | Button1Press | Button2Press | Button3Press | Button4Press | Button5Press
  | Button1Drag | Button2Drag | Button3Drag | MouseButton_None => "M"%ch
  | _ => "m"%ch
  end.

Definition MouseReport_fmt (m : MouseReport) : list Z :=
  match m with
  | SGR1006 x y button modifiers | SGR1016 x y button modifiers =>
      bs "<" ++ dec (mouse_code button modifiers) ++ bs ";" ++ dec x ++ bs ";" ++ dec y ++
      [mouse_trailer button]
  end.

Definition XtermKeyModifierResource_parse (v : Z) : option XtermKeyModifierResource :=
  if v =? 0 then Some XKM_Keyboard
  else if v =? 1 then Some XKM_CursorKeys
  else if v =? 2 then Some XKM_FunctionKeys
  else if v =? 4 then Some XKM_OtherKeys
  else None.

Definition XtermKeyModifierResource_code (r : XtermKeyModifierResource) : Z :=
  match r with XKM_Keyboard => 0 | XKM_CursorKeys => 1 | XKM_FunctionKeys => 2 | XKM_OtherKeys => 4 end.

(** The numbers of modes ([to_u16] of a code, or the number itself). *)
Definition DecPrivateMode_u16 (m : DecPrivateMode) : Z :=
  match m with DecPrivateMode_Code c => disc c | DecPrivateMode_Unspecified n => n end.

Definition TerminalMode_u16 (m : TerminalMode) : Z :=
  match m with TerminalMode_Code c => disc c | TerminalMode_Unspecified n => n end.

Definition Mode_fmt (m : Mode) : list Z :=
  let emit flag m := bs "?" ++ dec (DecPrivateMode_u16 m) ++ bs flag in
  let emit_mode flag m := dec (TerminalMode_u16 m) ++ bs flag in
  match m with
  | SetDecPrivateMode m => emit "h"%string m
  | ResetDecPrivateMode m => emit "l"%string m
  | SaveDecPrivateMode m => emit "s"%string m
  | RestoreDecPrivateMode m => emit "r"%string m
  | QueryDecPrivateMode m => bs "?" ++ dec (DecPrivateMode_u16 m) ++ bs "$p"
  | SetMode m => emit_mode "h"%string m
  | ResetMode m => emit_mode "l"%string m
  | QueryMode m => bs "?" ++ dec (TerminalMode_u16 m) ++ bs "$p"
  | XtermKeyMode resource val =>
      bs ">" ++ dec (XtermKeyModifierResource_code resource) ++
      (match val with Some v => bs ";" ++ dec v | None => bs ";" end) ++ bs "m"
  end.

Definition Edit_fmt (e : Edit) : list Z :=
  match e with
  | Edit_DeleteCharacter n => u32_write_csi n (bs "P")
  | Edit_DeleteLine n => u32_write_csi n (bs "M")
  | Edit_EraseCharacter n => u32_write_csi n (bs "X")
  | Edit_EraseInLine n => write_csi n (bs "K")
  | Edit_InsertCharacter n => u32_write_csi n (bs "@")
  | Edit_InsertLine n => u32_write_csi n (bs "L")
  | Edit_ScrollDown n => u32_write_csi n (bs "T")
  | Edit_ScrollUp n => u32_write_csi n (bs "S")
  | Edit_EraseInDisplay n => write_csi n (bs "J")
  | Edit_Repeat n => u32_write_csi n (bs "b")
  end.

Definition Cursor_fmt (c : Cursor) : list Z :=
  let pair a b ctl := OneBased_fmt a ++ bs ";" ++ OneBased_fmt b ++ bs ctl in
  match c with
  | Cursor_BackwardTabulation n => u32_write_csi n (bs "Z")
  | Cursor_CharacterAbsolute col => write_csi col (bs "G")
  | Cursor_ForwardTabulation n => u32_write_csi n (bs "I")
  | Cursor_NextLine n => u32_write_csi n (bs "E")
  | Cursor_PrecedingLine n => u32_write_csi n (bs "F")
  | Cursor_ActivePositionReport line col => pair line col "R"%string
  | Cursor_Left n => u32_write_csi n (bs "D")
  | Cursor_Down n => u32_write_csi n (bs "B")
  | Cursor_Right n => u32_write_csi n (bs "C")
  | Cursor_Up n => u32_write_csi n (bs "A")
  | Cursor_Position line col => pair line col "H"%string
  | Cursor_LineTabulation n => u32_write_csi n (bs "Y")
  | Cursor_TabulationControl n => write_csi n (bs "W")
  | Cursor_TabulationClear n => write_csi n (bs "g")
  | Cursor_CharacterPositionAbsolute n => write_csi n (bs "`")
  | Cursor_CharacterPositionBackward n => u32_write_csi n (bs "j")
  | Cursor_CharacterPositionForward n => u32_write_csi n (bs "a")
  | Cursor_CharacterAndLinePosition line col => pair line col "f"%string
  | Cursor_LinePositionAbsolute n => u32_write_csi n (bs "d")
  | Cursor_LinePositionBackward n => u32_write_csi n (bs "k")
  | Cursor_LinePositionForward n => u32_write_csi n (bs "e")
  | Cursor_SetTopAndBottomMargins top bottom =>
      if (as_one_based top =? 1) && (as_one_based bottom =? u32_max) then bs "r"
      else pair top bottom "r"%string
  | Cursor_SetLeftAndRightMargins l r =>
      if (as_one_based l =? 1) && (as_one_based r =? u32_max) then bs "s"
      else pair l r "s"%string
  | Cursor_RequestActivePositionReport => bs "6n"
  | Cursor_SaveCursor => bs "s"
  | Cursor_RestoreCursor => bs "u"
  | Cursor_CursorStyle style => dec (disc style) ++ bs " q"
  end.

(** The macros of [impl Display for Sgr]. *)
Definition sgr_code (c : SgrCode) : list Z := dec (disc c) ++ bs "m".

Definition sgr_ansi_color (idx : Z) (eightbit : SgrCode) (code : AnsiColor -> SgrCode) : list Z :=
  match (from_i64 idx : option AnsiColor) with
  | Some ansi => sgr_code (code ansi)
  | None => dec (disc eightbit) ++ bs ":5:" ++ dec idx ++ bs "m"
  end.

Definition sgr_foreground (c : AnsiColor) : SgrCode :=
  match c with
  | Black => SgrCode_ForegroundBlack
  | Maroon => SgrCode_ForegroundRed
  | Green => SgrCode_ForegroundGreen
  | Olive => SgrCode_ForegroundYellow
  | Navy => SgrCode_ForegroundBlue
  | Purple => SgrCode_ForegroundMagenta
  | Teal => SgrCode_ForegroundCyan
  | Silver => SgrCode_ForegroundWhite
  | Grey => SgrCode_ForegroundBrightBlack
  | Red => SgrCode_ForegroundBrightRed
  | Lime => SgrCode_ForegroundBrightGreen
  | Yellow => SgrCode_ForegroundBrightYellow
  | Blue => SgrCode_ForegroundBrightBlue
  | Fuchsia => SgrCode_ForegroundBrightMagenta
  | Aqua => SgrCode_ForegroundBrightCyan
  | White => SgrCode_ForegroundBrightWhite
  end.

Definition sgr_background (c : AnsiColor) : SgrCode :=
  match c with
  | Black => SgrCode_BackgroundBlack
  | Maroon => SgrCode_BackgroundRed
  | Green => SgrCode_BackgroundGreen
  | Olive => SgrCode_BackgroundYellow
  | Navy => SgrCode_BackgroundBlue
  | Purple => SgrCode_BackgroundMagenta
  | Teal => SgrCode_BackgroundCyan
  | Silver => SgrCode_BackgroundWhite
  | Grey => SgrCode_BackgroundBrightBlack
  | Red => SgrCode_BackgroundBrightRed
  | Lime => SgrCode_BackgroundBrightGreen
  | Yellow => SgrCode_BackgroundBrightYellow
  | Blue => SgrCode_BackgroundBrightBlue
  | Fuchsia => SgrCode_BackgroundBrightMagenta
  | Aqua => SgrCode_BackgroundBrightCyan
  | White => SgrCode_BackgroundBrightWhite
  end.

Definition sgr_true_color (code : SgrCode) (c : SrgbaTuple) : list Z :=
  let '(red, green, blue, alpha) := to_srgb_u8 c in
  if alpha =? 255 then
    dec (disc code) ++ bs ":2::" ++ dec red ++ bs ":" ++ dec green ++ bs ":" ++ dec blue ++ bs "m"
  else
    dec (disc code) ++ bs ":6::" ++ dec red ++ bs ":" ++ dec green ++ bs ":" ++ dec blue ++
    bs ":" ++ dec alpha ++ bs "m".

(** The font codes [AltFont1] to [AltFont9]. *)
Definition sgr_font (n : Z) : list Z :=
  if n =? 1 then sgr_code SgrCode_AltFont1
  else if n =? 2 then sgr_code SgrCode_AltFont2
  else if n =? 3 then sgr_code SgrCode_AltFont3
  else if n =? 4 then sgr_code SgrCode_AltFont4
  else if n =? 5 then sgr_code SgrCode_AltFont5
  else if n =? 6 then sgr_code SgrCode_AltFont6
  else if n =? 7 then sgr_code SgrCode_AltFont7
  else if n =? 8 then sgr_code SgrCode_AltFont8
  else if n =? 9 then sgr_code SgrCode_AltFont9
  else [].

Definition Sgr_fmt (s : Sgr) : list Z :=
  match s with
  | Sgr_Reset => sgr_code SgrCode_Reset
  | Sgr_Intensity Intensity_Bold => sgr_code SgrCode_IntensityBold
  | Sgr_Intensity Intensity_Half => sgr_code SgrCode_IntensityDim
  | Sgr_Intensity Intensity_Normal => sgr_code SgrCode_NormalIntensity
  | Sgr_Underline Underline_Single => sgr_code SgrCode_UnderlineOn
  | Sgr_Underline Underline_Double => sgr_code SgrCode_UnderlineDouble
  | Sgr_Underline Underline_Curly => bs "4:3m"
  | Sgr_Underline Underline_Dotted => bs "4:4m"
  | Sgr_Underline Underline_Dashed => bs "4:5m"
  | Sgr_Underline Underline_None => sgr_code SgrCode_UnderlineOff
  | Sgr_Blink Blink_Slow => sgr_code SgrCode_BlinkOn
  | Sgr_Blink Blink_Rapid => sgr_code SgrCode_RapidBlinkOn
  | Sgr_Blink Blink_None => sgr_code SgrCode_BlinkOff
  | Sgr_Italic true => sgr_code SgrCode_ItalicOn
  | Sgr_Italic false => sgr_code SgrCode_ItalicOff
  | Sgr_Inverse true => sgr_code SgrCode_InverseOn
  | Sgr_Inverse false => sgr_code SgrCode_InverseOff
  | Sgr_Invisible true => sgr_code SgrCode_InvisibleOn
  | Sgr_Invisible false => sgr_code SgrCode_InvisibleOff
  | Sgr_StrikeThrough true => sgr_code SgrCode_StrikeThroughOn
  | Sgr_StrikeThrough false => sgr_code SgrCode_StrikeThroughOff
  | Sgr_Overline true => sgr_code SgrCode_OverlineOn
  | Sgr_Overline false => sgr_code SgrCode_OverlineOff
  | Sgr_VerticalAlign VerticalAlign_BaseLine => sgr_code SgrCode_VerticalAlignBaseLine
  | Sgr_VerticalAlign VerticalAlign_SuperScript => sgr_code SgrCode_VerticalAlignSuperScript
  | Sgr_VerticalAlign VerticalAlign_SubScript => sgr_code SgrCode_VerticalAlignSubScript
  | Sgr_Font Font_Default => sgr_code SgrCode_DefaultFont
  | Sgr_Font (Font_Alternate n) => sgr_font n
  | Sgr_Foreground ColorSpec_Default => sgr_code SgrCode_ForegroundDefault
  | Sgr_Background ColorSpec_Default => sgr_code SgrCode_BackgroundDefault
  | Sgr_Foreground (PaletteIndex idx) =>
      sgr_ansi_color idx SgrCode_ForegroundColor sgr_foreground
  | Sgr_Foreground (TrueColor c) => sgr_true_color SgrCode_ForegroundColor c
  | Sgr_Background (PaletteIndex idx) =>
      sgr_ansi_color idx SgrCode_BackgroundColor sgr_background
  | Sgr_Background (TrueColor c) => sgr_true_color SgrCode_BackgroundColor c
  | Sgr_UnderlineColor ColorSpec_Default => sgr_code SgrCode_ResetUnderlineColor
  | Sgr_UnderlineColor (TrueColor c) => sgr_true_color SgrCode_UnderlineColor c
  | Sgr_UnderlineColor (PaletteIndex idx) =>
      dec (disc SgrCode_UnderlineColor) ++ bs ":5:" ++ dec idx ++ bs "m"
  end.

Definition CSI_fmt (c : CSI) : list Z :=
  27 :: "["%ch ::
  match c with
  | CSI_Sgr sgr => Sgr_fmt sgr
  | CSI_Cursor c => Cursor_fmt c
  | CSI_Edit e => Edit_fmt e
  | CSI_Mode mode => Mode_fmt mode
  | CSI_Unspecified unspec => Unspecified_fmt unspec
  | CSI_Mouse mouse => MouseReport_fmt mouse
  | CSI_Device dev => Device_fmt dev
  | CSI_Window window => Window_fmt window
  | CSI_Keyboard (SetKittyState flags mode) =>
      bs "=" ++ dec flags ++ bs ";" ++ dec (KittyKeyboardMode_u16 mode) ++ bs "u"
  | CSI_Keyboard (PushKittyState flags mode) =>
      bs ">" ++ dec flags ++ bs ";" ++ dec (KittyKeyboardMode_u16 mode) ++ bs "u"
  | CSI_Keyboard (PopKittyState n) => bs "<" ++ dec n ++ bs "u"
  | CSI_Keyboard QueryKittySupport => bs "?u"
  | CSI_Keyboard (ReportKittyState flags) => bs "?" ++ dec flags ++ bs "u"
  | CSI_SelectCharacterPath path n =>
      let a := match path with
               | CharacterPath_ImplementationDefault => 0
               | CharacterPath_LeftToRightOrTopToBottom => 1
               | CharacterPath_RightToLeftOrBottomToTop => 2
               end in
      if n =? 0 then
        if a =? 0 then bs " k" else dec a ++ bs " k"
      else dec a ++ bs ";" ++ dec n ++ bs " k"
  end.
