(* ===== verification/CsiParse.v ===== *)
(** The CSI parser of [src/wakterm-escape-parser/src/csi.rs]: from the parameters and
    the final byte of a dispatch to the actions, one [Definition] per method of
    [CSIParser]. A handler runs in a monad with the parser's state, in which
    [None] is a panic (a slice or a split out of range) and an inner [None] is
    Rust's [Err(())]. Slice patterns are lists of element patterns, tested in
    the order of the source's arms. *)

From Stdlib Require Import ZArith Lia.
From stdpp Require Import base numbers list option.
From S2P Require Import Prelude VtTables VtParse Color CsiTypes.
Local Open Scope Z_scope.

(** ** Slice patterns *)

Inductive SPat : Set :=
| SInt (n : Z)    (** [CsiParam::Integer(n)] *)
| SAnyInt         (** [CsiParam::Integer(_)] *)
| SP (b : Z)      (** [CsiParam::P(b)] *)
| SAny.           (** any parameter *)

Definition pat_matches (p : SPat) (c : CsiParam) : bool :=
  match p, c with
  | SInt n, Integer v => v =? n
  | SAnyInt, Integer _ => true
  | SP b, P b' => b' =? b
  | SAny, _ => true
  | _, _ => false
  end.

(** [[p1, .., pn, ..]] *)
Fixpoint pat_prefix (ps : list SPat) (l : list CsiParam) : bool :=
  match ps, l with
  | [], _ => true
  | p :: ps, c :: l => pat_matches p c && pat_prefix ps l
  | _ :: _, [] => false
  end.

(** [[p1, .., pn]] *)
Definition pat_exact (ps : list SPat) (l : list CsiParam) : bool :=
  (length l =? length ps)%nat && pat_prefix ps l.

(** [[.., p]] *)
Definition pat_last (p : SPat) (l : list CsiParam) : bool :=
  match list.last l with Some c => pat_matches p c | None => false end.

(** The variables bound by a pattern that matched. *)
Definition param_at (l : list CsiParam) (i : nat) : CsiParam :=
  match l !! i with Some c => c | None => Integer 0 end.

Definition int_at (l : list CsiParam) (i : nat) : Z :=
  match l !! i with Some (Integer v) => v | _ => 0 end.

(** ** The parser *)

Record CSIParser : Set := mkCSIParser {
  cp_truncated : bool;
  cp_control : Z;
  cp_params : option (list CsiParam);
  cp_orig_params : list CsiParam
}.

Definition set_cp_params (p : option (list CsiParam)) (s : CSIParser) : CSIParser :=
  mkCSIParser (cp_truncated s) (cp_control s) p (cp_orig_params s).

Definition PM (A : Type) : Type := CSIParser -> option (option A * CSIParser).

#[export] Instance PM_ret : MRet PM := fun A a s => Some (Some a, s).

#[export] Instance PM_bind : MBind PM := fun A B k m s =>
  match m s with
  | None => None
  | Some (None, s') => Some (None, s')
  | Some (Some a, s') => k a s'
  end.

Definition pm_err {A} : PM A := fun s => Some (None, s).

(** [.ok_or(())?] and [?] on a computation that only may fail. *)
Definition of_opt {A} (o : option A) : PM A := fun s => Some (o, s).

(** A panic of an intermediate computation. *)
Definition of_panic {A} (o : option A) : PM A := fun s =>
  match o with Some a => Some (Some a, s) | None => None end.

Definition get_control : PM Z := fun s => Some (Some (cp_control s), s).

(** [CSIParser::advance_by]. *)
Definition advance_by {A} (n : nat) (params : list CsiParam) (res : A) : PM A := fun s =>
  let n := match params !! n with
           | Some (P b) => if b =? ";"%ch then S n else n
           | _ => n
           end in
  '(_, next) ← split_at params n;
  Some (Some res, match next with [] => s | _ => set_cp_params (Some next) s end).

(** [CSIParser::focus]. *)
Definition focus (params : list CsiParam) (from_start from_end : nat) : PM (list CsiParam) :=
  fun s =>
    if bool_decide (params = cp_orig_params s) then
      l ← usize_sub (length params) from_end;
      l ← slice_to params l;
      '(_, l) ← split_at l from_start;
      Some (Some l, s)
    else Some (Some params, s).

(** ** Conversions *)

Definition to_u8 (v : CsiParam) : option Z :=
  match v with
  | P _ => None
  | Integer v => if v <=? u8_max then Some (as_u8 v) else None
  end.

Definition to_1b_u32 (v : CsiParam) : option Z :=
  match v with
  | Integer v =>
      if v =? 0 then Some 1
      else if (0 <? v) && (v <=? u32_max) then Some (as_u32 v)
      else None
  | P _ => None
  end.

(** [try_into] from [i64] to [u16] and [u32], and [ToPrimitive::to_u16]. *)
Definition i64_to_u16 (v : Z) : option Z := if rng 0 u16_max v then Some v else None.
Definition i64_to_u32 (v : Z) : option Z := if rng 0 u32_max v then Some v else None.

(** [Cracked::parse]. *)
Fixpoint cracked_parse (params : list CsiParam) : option (list (option CsiParam)) :=
  match params with
  | [] => Some []
  | P b :: r => if b =? ";"%ch then l ← cracked_parse r; Some (None :: l) else None
  | Integer v :: P b :: r =>
      if b =? ";"%ch then l ← cracked_parse r; Some (Some (Integer v) :: l)
      else None
  | Integer v :: r => l ← cracked_parse r; Some (Some (Integer v) :: l)
  end.

Definition cracked_get (c : list (option CsiParam)) (idx : nat) : option CsiParam :=
  match c !! idx with Some (Some p) => Some p | _ => None end.

(** [Cracked::opt_int] and [Cracked::int] (whose [None] is its [Err]). *)
Definition cracked_int (c : list (option CsiParam)) (idx : nat) : option Z :=
  match cracked_get c idx with Some p => as_integer p | None => None end.

(** ** ParseParams *)

Class ParseParams (T : Type) := parse_params : list CsiParam -> option T.

Definition parse_params_u32 (params : list CsiParam) : option Z :=
  match params with
  | [] => Some 1
  | [p] => to_1b_u32 p
  | _ => None
  end.

#[export] Instance parse_params_one_based : ParseParams OneBased := fun params =>
  match params with
  | [] => OneBased_new 1
  | [p] => from_esc_param p
  | _ => None
  end.

#[export] Instance parse_params_pair : ParseParams (OneBased * OneBased) := fun params =>
  let one := mkOneBased 1 in
  if pat_exact [] params || pat_exact [SP ";"%ch] params then Some (one, one)
  else if pat_exact [SAny] params || pat_exact [SAny; SP ";"%ch] params then
    a ← from_esc_param (param_at params 0); Some (a, one)
  else if pat_exact [SAny; SP ";"%ch; SAny] params then
    a ← from_esc_param (param_at params 0);
    b ← from_esc_param (param_at params 2); Some (a, b)
  else if pat_exact [SP ";"%ch; SAny] params then
    b ← from_esc_param (param_at params 1); Some (one, b)
  else None.

#[export] Instance parse_params_enum {T} `{ParamEnum T} : ParseParams T := fun params =>
  match params with
  | [] => Some param_default
  | [Integer i] => from_i64 i
  | _ => None
  end.

(** ** Handlers *)

Definition select_character_path (params : list CsiParam) : PM CSI :=
  let path n :=
    if n =? 0 then Some CharacterPath_ImplementationDefault
    else if n =? 1 then Some CharacterPath_LeftToRightOrTopToBottom
    else if n =? 2 then Some CharacterPath_RightToLeftOrBottomToTop
    else None in
  if pat_exact [SP " "%ch] params then
    advance_by 1 params (CSI_SelectCharacterPath CharacterPath_ImplementationDefault 0)
  else if pat_exact [SAnyInt; SP " "%ch] params then
    p ← of_opt (path (int_at params 0));
    advance_by 2 params (CSI_SelectCharacterPath p 0)
  else if pat_exact [SAnyInt; SP ";"%ch; SAnyInt; SP " "%ch] params then
    p ← of_opt (path (int_at params 0));
    advance_by 4 params (CSI_SelectCharacterPath p (int_at params 2))
  else pm_err.

Definition cursor_style (params : list CsiParam) : PM CSI :=
  if pat_exact [SAnyInt; SP " "%ch] params then
    match (from_i64 (int_at params 0) : option CursorStyle) with
    | None => pm_err
    | Some style => advance_by 2 params (CSI_Cursor (Cursor_CursorStyle style))
    end
  else pm_err.

Definition checksum_area (params : list CsiParam) : PM CSI :=
  n ← of_panic (usize_sub (length params) 1);
  front ← of_panic (slice_to params n);
  params ← of_opt (cracked_parse front);
  request_id ← of_opt (cracked_int params 0);
  page_number ← of_opt (cracked_int params 1);
  top ← of_opt (from_optional_esc_param (cracked_get params 2));
  left_ ← of_opt (from_optional_esc_param (cracked_get params 3));
  bottom ← of_opt (from_optional_esc_param (cracked_get params 4));
  right_ ← of_opt (from_optional_esc_param (cracked_get params 5));
  mret (CSI_Window (ChecksumRectangularArea request_id page_number top left_ bottom right_)).

Definition dsr (params : list CsiParam) : PM CSI :=
  if pat_exact [SInt 5] params then advance_by 1 params (CSI_Device StatusReport)
  else if pat_exact [SInt 6] params then
    advance_by 1 params (CSI_Cursor Cursor_RequestActivePositionReport)
  else pm_err.

Definition decstbm (params : list CsiParam) : PM CSI :=
  let margins t b := CSI_Cursor (Cursor_SetTopAndBottomMargins t b) in
  if pat_exact [] params then mret (margins (mkOneBased 1) (mkOneBased u32_max))
  else if pat_exact [SAny] params then
    top ← of_opt (from_esc_param (param_at params 0));
    advance_by 1 params (margins top (mkOneBased u32_max))
  else if pat_exact [SAny; SP ";"%ch; SAny] params then
    top ← of_opt (from_esc_param (param_at params 0));
    bottom ← of_opt (from_esc_param_with_big_default (param_at params 2));
    advance_by 3 params (margins top bottom)
  else if pat_exact [SP ";"%ch; SAny] params then
    bottom ← of_opt (from_esc_param_with_big_default (param_at params 1));
    advance_by 2 params (margins (mkOneBased 1) bottom)
  else pm_err.

Definition xterm_key_modifier (params : list CsiParam) : PM CSI :=
  let resource_of a := r ← as_integer a; XtermKeyModifierResource_parse r in
  if pat_exact [SP ">"%ch; SAny; SP ";"%ch; SAny] params then
    resource ← of_opt (resource_of (param_at params 1));
    v ← of_opt (as_integer (param_at params 3));
    advance_by 4 params (CSI_Mode (XtermKeyMode resource (Some v)))
  else if pat_exact [SP ">"%ch; SAny; SP ";"%ch] params then
    resource ← of_opt (resource_of (param_at params 1));
    advance_by 3 params (CSI_Mode (XtermKeyMode resource None))
  else if pat_exact [SP ">"%ch; SAny] params then
    resource ← of_opt (resource_of (param_at params 1));
    advance_by 2 params (CSI_Mode (XtermKeyMode resource None))
  else pm_err.

Definition decslrm (params : list CsiParam) : PM CSI :=
  let margins l r := CSI_Cursor (Cursor_SetLeftAndRightMargins l r) in
  if pat_exact [] params then mret (CSI_Cursor Cursor_SaveCursor)
  else if pat_exact [SAny] params then
    l ← of_opt (from_esc_param (param_at params 0));
    advance_by 1 params (margins l (mkOneBased u32_max))
  else if pat_exact [SAny; SP ";"%ch; SAny] params then
    l ← of_opt (from_esc_param (param_at params 0));
    r ← of_opt (from_esc_param (param_at params 2));
    advance_by 3 params (margins l r)
  else if pat_exact [SP ";"%ch; SAny] params then
    r ← of_opt (from_esc_param (param_at params 1));
    advance_by 2 params (margins (mkOneBased 1) r)
  else pm_err.

Definition req_primary_device_attributes (params : list CsiParam) : PM Device :=
  if pat_exact [] params then mret RequestPrimaryDeviceAttributes
  else if pat_exact [SInt 0] params then advance_by 1 params RequestPrimaryDeviceAttributes
  else pm_err.

Definition req_terminal_name_and_version (params : list CsiParam) : PM Device :=
  if pat_exact [SAny] params then mret RequestTerminalNameAndVersion
  else if pat_exact [SAny; SInt 0] params then
    advance_by 2 params RequestTerminalNameAndVersion
  else pm_err.

Definition req_secondary_device_attributes (params : list CsiParam) : PM Device :=
  if pat_exact [SP ">"%ch] params then mret RequestSecondaryDeviceAttributes
  else if pat_exact [SP ">"%ch; SInt 0] params then
    advance_by 2 params RequestSecondaryDeviceAttributes
  else pm_err.

Definition req_tertiary_device_attributes (params : list CsiParam) : PM Device :=
  if pat_exact [SP "="%ch] params then mret RequestTertiaryDeviceAttributes
  else if pat_exact [SP "="%ch; SInt 0] params then
    advance_by 2 params RequestTertiaryDeviceAttributes
  else pm_err.

(** [DeviceAttributeFlags::from_params]. *)
Definition attributes_from_params (params : list CsiParam) : DeviceAttributeFlags :=
  omap (fun i => match i with
    | Integer p => match (from_i64 p : option DeviceAttributeCodes) with
                   | Some c => Some (DeviceAttribute_Code c)
                   | None => Some (DeviceAttribute_Unspecified i)
                   end
    | P b => if b =? ";"%ch then None else Some (DeviceAttribute_Unspecified i)
    end) params.

Definition secondary_device_attributes (params : list CsiParam) : PM Device :=
  let vt c :=
    '(_, rest) ← of_panic (split_at params 2);
    advance_by (length params) params (Device_DeviceAttributes (c (attributes_from_params rest))) in
  if pat_exact [SAny; SInt 1; SP ";"%ch; SInt 0] params then
    advance_by 4 params (Device_DeviceAttributes Vt101WithNoOptions)
  else if pat_exact [SAny; SInt 6] params then
    advance_by 2 params (Device_DeviceAttributes Vt102)
  else if pat_exact [SAny; SInt 1; SP ";"%ch; SInt 2] params then
    advance_by 4 params (Device_DeviceAttributes Vt100WithAdvancedVideoOption)
  else if pat_prefix [SAny; SInt 62] params then vt Vt220
  else if pat_prefix [SAny; SInt 63] params then vt Vt320
  else if pat_prefix [SAny; SInt 64] params then vt Vt420
  else pm_err.

Definition req_terminal_parameters (params : list CsiParam) : PM Device :=
  if pat_exact [] params || pat_exact [SInt 0] params then mret (RequestTerminalParameters 0)
  else if pat_exact [SInt 1] params then mret (RequestTerminalParameters 1)
  else pm_err.

(** The button of an SGR mouse report. *)
Definition mouse_button (control code : Z) : option MouseButton :=
  let press := control =? "M"%ch in
  let release := control =? "m"%ch in
  if press && (code =? 0) then Some Button1Press
  else if release && (code =? 0) then Some Button1Release
  else if press && (code =? 1) then Some Button2Press
  else if release && (code =? 1) then Some Button2Release
  else if press && (code =? 2) then Some Button3Press
  else if release && (code =? 2) then Some Button3Release
  else if press && (code =? 64) then Some Button4Press
  else if release && (code =? 64) then Some Button4Release
  else if press && (code =? 65) then Some Button5Press
  else if release && (code =? 65) then Some Button5Release
  else if press && (code =? 66) then Some Button6Press
  else if release && (code =? 66) then Some Button6Release
  else if press && (code =? 67) then Some Button7Press
  else if release && (code =? 67) then Some Button7Release
  else if press && (code =? 32) then Some Button1Drag
  else if press && (code =? 33) then Some Button2Drag
  else if press && (code =? 34) then Some Button3Drag
  else if press && (code =? 35) then Some MouseButton_None
  else if release && (code =? 35) then Some MouseButton_None
  else if press && (code =? 3) then Some MouseButton_None
  else if release && (code =? 3) then Some MouseButton_None
  else None.

Definition mouse_modifiers (p0 : Z) : Z :=
  let modifiers := Modifiers_NONE in
  let modifiers := if negb (Z.land p0 4 =? 0) then Z.lor modifiers Modifiers_SHIFT else modifiers in
  let modifiers := if negb (Z.land p0 8 =? 0) then Z.lor modifiers Modifiers_ALT else modifiers in
  if negb (Z.land p0 16 =? 0) then Z.lor modifiers Modifiers_CTRL else modifiers.

Definition mouse_sgr1006 (params : list CsiParam) : PM MouseReport :=
  if pat_exact [SP "<"%ch; SAnyInt; SP ";"%ch; SAnyInt; SP ";"%ch; SAnyInt] params then
    let p0 := int_at params 1 in
    let p1 := int_at params 3 in
    let p2 := int_at params 5 in
    control ← get_control;
    button ← of_opt (mouse_button control (Z.land p0 99));
    advance_by 6 params (SGR1006 (as_u16 p1) (as_u16 p2) button (mouse_modifiers p0))
  else pm_err.

(** A mode number: a known code, or the number if it is a [u16]. *)
Definition dec_mode_of (p : Z) : option DecPrivateMode :=
  match (from_i64 p : option DecPrivateModeCode) with
  | None => n ← i64_to_u16 p; Some (DecPrivateMode_Unspecified n)
  | Some mode => Some (DecPrivateMode_Code mode)
  end.

Definition terminal_mode_of (p : Z) : option TerminalMode :=
  match (from_i64 p : option TerminalModeCode) with
  | None => n ← i64_to_u16 p; Some (TerminalMode_Unspecified n)
  | Some mode => Some (TerminalMode_Code mode)
  end.

Definition decrqm (params : list CsiParam) : PM CSI :=
  if pat_exact [SAnyInt; SP "$"%ch] params then
    m ← of_opt (terminal_mode_of (int_at params 0)); mret (CSI_Mode (QueryMode m))
  else if pat_exact [SP "?"%ch; SAnyInt; SP "$"%ch] params then
    m ← of_opt (dec_mode_of (int_at params 1)); mret (CSI_Mode (QueryDecPrivateMode m))
  else pm_err.

Definition dec_ (params : list CsiParam) : PM DecPrivateMode :=
  if pat_prefix [SAnyInt] params then
    m ← of_opt (dec_mode_of (int_at params 0)); advance_by 1 params m
  else pm_err.

Definition terminal_mode (params : list CsiParam) : PM TerminalMode :=
  p0 ← of_opt (p ← params !! O; as_integer p);
  m ← of_opt (terminal_mode_of p0);
  advance_by 1 params m.

(** [XtSmGraphics::parse]. *)
Definition XtSmGraphics_parse (params : list CsiParam) : PM CSI :=
  '(_, rest) ← of_panic (split_at params 1);
  params ← of_opt (cracked_parse rest);
  item_param ← of_opt (cracked_get params 0);
  it ← of_opt (match item_param with
    | Integer n =>
        Some (if n =? 1 then NumberOfColorRegisters
              else if n =? 2 then SixelGraphicsGeometry
              else if n =? 3 then RegisGraphicsGeometry
              else XtSmGraphicsItem_Unspecified n)
    | P _ => None
    end);
  act_param ← of_opt (cracked_get params 1);
  act ← of_opt (as_integer act_param);
  '(_, vals) ← of_panic (split_at params 2);
  mret (CSI_Device (Device_XtSmGraphics (mkXtSmGraphics it act
    (omap (fun p => match p with Some (Integer n) => Some n | _ => None end) vals)))).

(** [parse_sgr_color]: the arms in the source's order. *)
Definition rgb_at (params : list CsiParam) (i j k : nat) : option ColorSpec :=
  red ← to_u8 (param_at params i);
  green ← to_u8 (param_at params j);
  blue ← to_u8 (param_at params k);
  Some (ColorSpec_from_rgb (new_8bpc red green blue)).

Definition rgba_at (params : list CsiParam) (i j k l : nat) : option ColorSpec :=
  red ← to_u8 (param_at params i);
  green ← to_u8 (param_at params j);
  blue ← to_u8 (param_at params k);
  alpha ← to_u8 (param_at params l);
  Some (ColorSpec_from_srgba (srgba_from_u8 red green blue alpha)).

Definition parse_sgr_color (params : list CsiParam) : PM ColorSpec :=
  let c := SP ":"%ch in
  let s := SP ";"%ch in
  if pat_prefix [SAny; c; SInt 6; c; SAnyInt; c; SAny; c; SAny; c; SAny; c; SAny] params then
    res ← of_opt (rgba_at params 6 8 10 12); advance_by 13 params res
  else if pat_prefix [SAny; c; SInt 6; c; c; SAny; c; SAny; c; SAny; c; SAny] params then
    res ← of_opt (rgba_at params 5 7 9 11); advance_by 12 params res
  else if pat_prefix [SAny; c; SInt 6; c; SAny; c; SAny; c; SAny; c; SAny] params then
    res ← of_opt (rgba_at params 4 6 8 10); advance_by 11 params res
  else if pat_prefix [SAny; c; SInt 2; c; SAnyInt; c; SAny; c; SAny; c; SAny] params then
    res ← of_opt (rgb_at params 6 8 10); advance_by 11 params res
  else if pat_prefix [SAny; c; SInt 2; c; c; SAny; c; SAny; c; SAny] params then
    res ← of_opt (rgb_at params 5 7 9); advance_by 10 params res
  else if pat_prefix [SAny; s; SInt 2; s; SAny; s; SAny; s; SAny] params
       || pat_prefix [SAny; c; SInt 2; c; SAny; c; SAny; c; SAny] params then
    res ← of_opt (rgb_at params 4 6 8); advance_by 9 params res
  else if pat_prefix [SAny; s; SInt 5; s; SAny] params
       || pat_prefix [SAny; c; SInt 5; c; SAny] params then
    idx ← of_opt (to_u8 (param_at params 4)); advance_by 5 params (PaletteIndex idx)
  else pm_err.

(** The [match p] of [window]. *)
Definition window_of (p : Z) (arg1 arg2 : option Z) (len : nat) : option Window :=
  let is_arg n := match arg1 with Some v => v =? n | None => false end in
  let sel (l : list (Z * Window)) : option Window :=
    option_map snd (List.find (fun '(n, _) => is_arg n) l) in
  let table :=
    [(1, Some DeIconify); (2, Some Iconify);
     (3, Some (MoveWindow (default 0 arg1) (default 0 arg2)));
     (4, Some (ResizeWindowPixels arg2 arg1));
     (5, Some RaiseWindow);
     (6, Some (if (len =? 1)%nat then LowerWindow else ReportCellSizePixelsResponse arg2 arg1));
     (7, Some RefreshWindow);
     (8, Some (ResizeWindowCells arg2 arg1));
     (9, sel [(0, RestoreMaximizedWindow); (1, MaximizeWindow);
              (2, MaximizeWindowVertically); (3, MaximizeWindowHorizontally)]);
     (10, sel [(0, UndoFullScreenMode); (1, ChangeToFullScreenMode); (2, ToggleFullScreen)]);
     (11, Some ReportWindowState);
     (13, match arg1 with
          | None => Some ReportWindowPosition
          | Some _ => sel [(2, ReportTextAreaPosition)]
          end);
     (14, match arg1 with
          | None => Some ReportTextAreaSizePixels
          | Some _ => sel [(2, ReportWindowSizePixels)]
          end);
     (15, Some ReportScreenSizePixels); (16, Some ReportCellSizePixels);
     (18, Some ReportTextAreaSizeCells); (19, Some ReportScreenSizeCells);
     (20, Some ReportIconLabel); (21, Some ReportWindowTitle);
     (22, sel [(0, PushIconAndWindowTitle); (1, PushIconTitle); (2, PushWindowTitle)]);
     (23, sel [(0, PopIconAndWindowTitle); (1, PopIconTitle); (2, PopWindowTitle)])] in
  match List.find (fun '(n, _) => n =? p) table with
  | Some (_, w) => w
  | None => None
  end.

Definition window (params : list CsiParam) : PM Window :=
  params ← of_opt (cracked_parse params);
  p ← of_opt (cracked_int params 0);
  let arg1 := cracked_int params 1 in
  let arg2 := cracked_int params 2 in
  of_opt (window_of p arg1 arg2 (length params)).

Definition underline (params : list CsiParam) : PM Sgr :=
  let c := SP ":"%ch in
  if pat_prefix [SAny; c; SInt 0] params then advance_by 3 params (Sgr_Underline Underline_None)
  else if pat_prefix [SAny; c; SInt 1] params then
    advance_by 3 params (Sgr_Underline Underline_Single)
  else if pat_prefix [SAny; c; SInt 2] params then
    advance_by 3 params (Sgr_Underline Underline_Double)
  else if pat_prefix [SAny; c; SInt 3] params then
    advance_by 3 params (Sgr_Underline Underline_Curly)
  else if pat_prefix [SAny; c; SInt 4] params then
    advance_by 3 params (Sgr_Underline Underline_Dotted)
  else if pat_prefix [SAny; c; SInt 5] params then
    advance_by 3 params (Sgr_Underline Underline_Dashed)
  else advance_by 1 params (Sgr_Underline Underline_Single).

(** The parameters [sgr] accepts. *)
Definition sgr_param_ok (p : CsiParam) : bool :=
  match p with
  | Integer _ => true
  | P b => (b =? ";"%ch) || (b =? ":"%ch) || (b =? "?"%ch)
  end.

Definition sgr_dispatch (code : SgrCode) (params : list CsiParam) : PM Sgr :=
  let one (t : Sgr) : PM Sgr := advance_by 1 params t in
  let fg c := one (Sgr_Foreground (ColorSpec_from_ansi c)) in
  let bg c := one (Sgr_Background (ColorSpec_from_ansi c)) in
  match code with
  | SgrCode_Reset => one Sgr_Reset
  | SgrCode_IntensityBold => one (Sgr_Intensity Intensity_Bold)
  | SgrCode_IntensityDim => one (Sgr_Intensity Intensity_Half)
  | SgrCode_NormalIntensity => one (Sgr_Intensity Intensity_Normal)
  | SgrCode_UnderlineOn => underline params
  | SgrCode_UnderlineDouble => one (Sgr_Underline Underline_Double)
  | SgrCode_UnderlineOff => one (Sgr_Underline Underline_None)
  | SgrCode_UnderlineColor => c ← parse_sgr_color params; mret (Sgr_UnderlineColor c)
  | SgrCode_ResetUnderlineColor => one (Sgr_UnderlineColor ColorSpec_Default)
  | SgrCode_BlinkOn => one (Sgr_Blink Blink_Slow)
  | SgrCode_RapidBlinkOn => one (Sgr_Blink Blink_Rapid)
  | SgrCode_BlinkOff => one (Sgr_Blink Blink_None)
  | SgrCode_ItalicOn => one (Sgr_Italic true)
  | SgrCode_ItalicOff => one (Sgr_Italic false)
  | SgrCode_VerticalAlignSuperScript => one (Sgr_VerticalAlign VerticalAlign_SuperScript)
  | SgrCode_VerticalAlignSubScript => one (Sgr_VerticalAlign VerticalAlign_SubScript)
  | SgrCode_VerticalAlignBaseLine => one (Sgr_VerticalAlign VerticalAlign_BaseLine)
  | SgrCode_ForegroundColor => c ← parse_sgr_color params; mret (Sgr_Foreground c)
  | SgrCode_ForegroundBlack => fg Black
  | SgrCode_ForegroundRed => fg Maroon
  | SgrCode_ForegroundGreen => fg Green
  | SgrCode_ForegroundYellow => fg Olive
  | SgrCode_ForegroundBlue => fg Navy
  | SgrCode_ForegroundMagenta => fg Purple
  | SgrCode_ForegroundCyan => fg Teal
  | SgrCode_ForegroundWhite => fg Silver
  | SgrCode_ForegroundDefault => one (Sgr_Foreground ColorSpec_Default)
  | SgrCode_ForegroundBrightBlack => fg Grey
  | SgrCode_ForegroundBrightRed => fg Red
  | SgrCode_ForegroundBrightGreen => fg Lime
  | SgrCode_ForegroundBrightYellow => fg Yellow
  | SgrCode_ForegroundBrightBlue => fg Blue
  | SgrCode_ForegroundBrightMagenta => fg Fuchsia
  | SgrCode_ForegroundBrightCyan => fg Aqua
  | SgrCode_ForegroundBrightWhite => fg White
  | SgrCode_BackgroundColor => c ← parse_sgr_color params; mret (Sgr_Background c)
  | SgrCode_BackgroundBlack => bg Black
  | SgrCode_BackgroundRed => bg Maroon
  | SgrCode_BackgroundGreen => bg Green
  | SgrCode_BackgroundYellow => bg Olive
  | SgrCode_BackgroundBlue => bg Navy
  | SgrCode_BackgroundMagenta => bg Purple
  | SgrCode_BackgroundCyan => bg Teal
  | SgrCode_BackgroundWhite => bg Silver
  | SgrCode_BackgroundDefault => one (Sgr_Background ColorSpec_Default)
  | SgrCode_BackgroundBrightBlack => bg Grey
  | SgrCode_BackgroundBrightRed => bg Red
  | SgrCode_BackgroundBrightGreen => bg Lime
  | SgrCode_BackgroundBrightYellow => bg Yellow
  | SgrCode_BackgroundBrightBlue => bg Blue
  | SgrCode_BackgroundBrightMagenta => bg Fuchsia
  | SgrCode_BackgroundBrightCyan => bg Aqua
  | SgrCode_BackgroundBrightWhite => bg White
  | SgrCode_InverseOn => one (Sgr_Inverse true)
  | SgrCode_InverseOff => one (Sgr_Inverse false)
  | SgrCode_InvisibleOn => one (Sgr_Invisible true)
  | SgrCode_InvisibleOff => one (Sgr_Invisible false)
  | SgrCode_StrikeThroughOn => one (Sgr_StrikeThrough true)
  | SgrCode_StrikeThroughOff => one (Sgr_StrikeThrough false)
  | SgrCode_OverlineOn => one (Sgr_Overline true)
  | SgrCode_OverlineOff => one (Sgr_Overline false)
  | SgrCode_DefaultFont => one (Sgr_Font Font_Default)
  | SgrCode_AltFont1 => one (Sgr_Font (Font_Alternate 1))
  | SgrCode_AltFont2 => one (Sgr_Font (Font_Alternate 2))
  | SgrCode_AltFont3 => one (Sgr_Font (Font_Alternate 3))
  | SgrCode_AltFont4 => one (Sgr_Font (Font_Alternate 4))
  | SgrCode_AltFont5 => one (Sgr_Font (Font_Alternate 5))
  | SgrCode_AltFont6 => one (Sgr_Font (Font_Alternate 6))
  | SgrCode_AltFont7 => one (Sgr_Font (Font_Alternate 7))
  | SgrCode_AltFont8 => one (Sgr_Font (Font_Alternate 8))
  | SgrCode_AltFont9 => one (Sgr_Font (Font_Alternate 9))
  end.

Definition sgr (params : list CsiParam) : PM Sgr :=
  match params with
  | [] => mret Sgr_Reset
  | p0 :: _ =>
      if forallb sgr_param_ok params then
        match p0 with
        | P b => if b =? ";"%ch then advance_by 1 params Sgr_Reset else pm_err
        | Integer i =>
            match (from_i64 i : option SgrCode) with
            | None => pm_err
            | Some code => sgr_dispatch code params
            end
        end
      else pm_err
  end.

(** ** Dispatch *)

(** The kitty keyboard forms: [flags], and [flags; mode]. *)
Definition kitty_flags (flags : Z) : option Z :=
  n ← i64_to_u16 flags; Some (KittyKeyboardFlags_from_bits_truncate n).

Definition kitty_mode (mode : Z) : option KittyKeyboardMode :=
  if mode =? 1 then Some KittyKeyboardMode_AssignAll
  else if mode =? 2 then Some KittyKeyboardMode_SetSpecified
  else if mode =? 3 then Some KittyKeyboardMode_ClearSpecified
  else None.

(** The [match self.control] at the end of [parse_next]. *)
Definition parse_control (control : Z) (params : list CsiParam) : PM CSI :=
  let u32 (f : Z -> CSI) : PM CSI := v ← of_opt (parse_params_u32 params); mret (f v) in
  let one (f : OneBased -> CSI) : PM CSI := v ← of_opt (parse_params params); mret (f v) in
  let pair (f : OneBased -> OneBased -> CSI) : PM CSI :=
    '(p1, p2) ← of_opt (parse_params params); mret (f p1 p2) in
  let dev (m : PM Device) : PM CSI := d ← m; mret (CSI_Device d) in
  if control =? "c"%ch then dev (req_primary_device_attributes params)
  else if control =? "@"%ch then u32 (fun n => CSI_Edit (Edit_InsertCharacter n))
  else if control =? "`"%ch then one (fun n => CSI_Cursor (Cursor_CharacterPositionAbsolute n))
  else if control =? "A"%ch then u32 (fun n => CSI_Cursor (Cursor_Up n))
  else if control =? "B"%ch then u32 (fun n => CSI_Cursor (Cursor_Down n))
  else if control =? "C"%ch then u32 (fun n => CSI_Cursor (Cursor_Right n))
  else if control =? "D"%ch then u32 (fun n => CSI_Cursor (Cursor_Left n))
  else if control =? "E"%ch then u32 (fun n => CSI_Cursor (Cursor_NextLine n))
  else if control =? "F"%ch then u32 (fun n => CSI_Cursor (Cursor_PrecedingLine n))
  else if control =? "G"%ch then one (fun n => CSI_Cursor (Cursor_CharacterAbsolute n))
  else if control =? "H"%ch then pair (fun l c => CSI_Cursor (Cursor_Position l c))
  else if control =? "I"%ch then u32 (fun n => CSI_Cursor (Cursor_ForwardTabulation n))
  else if control =? "J"%ch then
    v ← of_opt (parse_params params); mret (CSI_Edit (Edit_EraseInDisplay v))
  else if control =? "K"%ch then
    v ← of_opt (parse_params params); mret (CSI_Edit (Edit_EraseInLine v))
  else if control =? "L"%ch then u32 (fun n => CSI_Edit (Edit_InsertLine n))
  else if control =? "M"%ch then u32 (fun n => CSI_Edit (Edit_DeleteLine n))
  else if control =? "P"%ch then u32 (fun n => CSI_Edit (Edit_DeleteCharacter n))
  else if control =? "R"%ch then pair (fun l c => CSI_Cursor (Cursor_ActivePositionReport l c))
  else if control =? "S"%ch then u32 (fun n => CSI_Edit (Edit_ScrollUp n))
  else if control =? "T"%ch then u32 (fun n => CSI_Edit (Edit_ScrollDown n))
  else if control =? "W"%ch then
    v ← of_opt (parse_params params); mret (CSI_Cursor (Cursor_TabulationControl v))
  else if control =? "X"%ch then u32 (fun n => CSI_Edit (Edit_EraseCharacter n))
  else if control =? "Y"%ch then u32 (fun n => CSI_Cursor (Cursor_LineTabulation n))
  else if control =? "Z"%ch then u32 (fun n => CSI_Cursor (Cursor_BackwardTabulation n))
  else if control =? "a"%ch then u32 (fun n => CSI_Cursor (Cursor_CharacterPositionForward n))
  else if control =? "b"%ch then u32 (fun n => CSI_Edit (Edit_Repeat n))
  else if control =? "d"%ch then u32 (fun n => CSI_Cursor (Cursor_LinePositionAbsolute n))
  else if control =? "e"%ch then u32 (fun n => CSI_Cursor (Cursor_LinePositionForward n))
  else if control =? "f"%ch then
    pair (fun l c => CSI_Cursor (Cursor_CharacterAndLinePosition l c))
  else if control =? "g"%ch then
    v ← of_opt (parse_params params); mret (CSI_Cursor (Cursor_TabulationClear v))
  else if control =? "h"%ch then
    m ← terminal_mode params; mret (CSI_Mode (SetMode m))
  else if control =? "j"%ch then u32 (fun n => CSI_Cursor (Cursor_CharacterPositionBackward n))
  else if control =? "k"%ch then u32 (fun n => CSI_Cursor (Cursor_LinePositionBackward n))
  else if control =? "l"%ch then
    m ← terminal_mode params; mret (CSI_Mode (ResetMode m))
  else if control =? "m"%ch then s ← sgr params; mret (CSI_Sgr s)
  else if control =? "n"%ch then dsr params
  else if control =? "r"%ch then decstbm params
  else if control =? "s"%ch then decslrm params
  else if control =? "t"%ch then w ← window params; mret (CSI_Window w)
  else if control =? "u"%ch then
    match params with [] => mret (CSI_Cursor Cursor_RestoreCursor) | _ => pm_err end
  else if control =? "x"%ch then dev (req_terminal_parameters params)
  else pm_err.

(** The arms of [parse_next] for the control ['u'] with a private marker. *)
Definition parse_keyboard (orig : list CsiParam) : option (option Keyboard) :=
  let s := SP ";"%ch in
  if pat_exact [SP "="%ch; SAnyInt] orig then
    Some (f ← kitty_flags (int_at orig 1); Some (SetKittyState f KittyKeyboardMode_AssignAll))
  else if pat_exact [SP "="%ch; SAnyInt; s; SAnyInt] orig then
    Some (f ← kitty_flags (int_at orig 1); m ← kitty_mode (int_at orig 3);
          Some (SetKittyState f m))
  else if pat_exact [SP ">"%ch] orig then
    Some (Some (PushKittyState 0 KittyKeyboardMode_AssignAll))
  else if pat_exact [SP ">"%ch; SAnyInt] orig then
    Some (f ← kitty_flags (int_at orig 1); Some (PushKittyState f KittyKeyboardMode_AssignAll))
  else if pat_exact [SP ">"%ch; SAnyInt; s; SAnyInt] orig then
    Some (f ← kitty_flags (int_at orig 1); m ← kitty_mode (int_at orig 3);
          Some (PushKittyState f m))
  else if pat_exact [SP "?"%ch] orig then Some (Some QueryKittySupport)
  else if pat_exact [SP "?"%ch; SAnyInt] orig then
    Some (f ← kitty_flags (int_at orig 1); Some (ReportKittyState f))
  else if pat_exact [SP "<"%ch; SAnyInt] orig then
    Some (n ← i64_to_u32 (int_at orig 1); Some (PopKittyState n))
  else if pat_exact [SP "<"%ch] orig then Some (Some (PopKittyState 1))
  else None.

Definition parse_next (params : list CsiParam) : PM CSI := fun st =>
  let control := cp_control st in
  let orig := cp_orig_params st in
  let is_ctl c := control =? c in
  let starts b := pat_prefix [SP b] orig in
  let ends b := pat_last (SP b) orig in
  let dev (m : PM Device) : PM CSI := d ← m; mret (CSI_Device d) in
  let decmode (f : DecPrivateMode -> Mode) : PM CSI :=
    p ← focus params 1 0; m ← dec_ p; mret (CSI_Mode (f m)) in
  (if is_ctl "k"%ch && ends " "%ch then select_character_path params
   else if is_ctl "q"%ch && ends " "%ch then cursor_style params
   else if is_ctl "y"%ch && ends "*"%ch then checksum_area params
   else if is_ctl "c"%ch && starts "="%ch then dev (req_tertiary_device_attributes params)
   else if is_ctl "c"%ch && starts ">"%ch then dev (req_secondary_device_attributes params)
   else if (is_ctl "m"%ch || is_ctl "M"%ch) && starts "<"%ch then
     m ← mouse_sgr1006 params; mret (CSI_Mouse m)
   else if is_ctl "c"%ch && starts "?"%ch then dev (secondary_device_attributes params)
   else if is_ctl "S"%ch && starts "?"%ch then XtSmGraphics_parse params
   else if is_ctl "p"%ch && (pat_exact [SAnyInt; SP "$"%ch] orig
                          || pat_exact [SP "?"%ch; SAnyInt; SP "$"%ch] orig) then decrqm params
   else if is_ctl "h"%ch && starts "?"%ch then decmode SetDecPrivateMode
   else if is_ctl "l"%ch && starts "?"%ch then decmode ResetDecPrivateMode
   else if is_ctl "r"%ch && starts "?"%ch then decmode RestoreDecPrivateMode
   else if is_ctl "q"%ch && starts ">"%ch then dev (req_terminal_name_and_version params)
   else if is_ctl "s"%ch && starts "?"%ch then decmode SaveDecPrivateMode
   else if is_ctl "m"%ch && starts ">"%ch then xterm_key_modifier params
   else if is_ctl "p"%ch && pat_exact [SP "!"%ch] orig then mret (CSI_Device SoftReset)
   else match (if is_ctl "u"%ch then parse_keyboard orig else None) with
        | Some k => k ← of_opt k; mret (CSI_Keyboard k)
        | None => parse_control control params
        end) st.

(** ** The iterator *)

(** [Iterator::next]; the outer [None] is a panic. *)
Definition csi_next (s : CSIParser) : option (option CSI * CSIParser) :=
  match cp_params s with
  | None => Some (None, s)
  | Some params =>
      match parse_next params (set_cp_params None s) with
      | None => None
      | Some (Some csi, s') => Some (Some csi, s')
      | Some (None, s') =>
          Some (Some (CSI_Unspecified (mkUnspecified params (cp_truncated s') (cp_control s'))), s')
      end
  end.

(** Draining the iterator: [collect]. Two calls more than the parameters are
    enough, as each item consumes at least one of them. *)
Fixpoint csi_collect (fuel : nat) (s : CSIParser) : option (list CSI) :=
  match fuel with
  | O => None
  | S fuel =>
      '(x, s) ← csi_next s;
      match x with
      | None => Some []
      | Some c => l ← csi_collect fuel s; Some (c :: l)
      end
  end.

(** [CSI::parse]. *)
Definition csi_parser (params : list CsiParam) (truncated : bool) (control : Z) : CSIParser :=
  mkCSIParser truncated control (Some params) params.

Definition csi_parse (params : list CsiParam) (truncated : bool) (control : Z)
  : option (list CSI) :=
  csi_collect (S (S (length params))) (csi_parser params truncated control).
