(* ===== verification/CsiProps.v ===== *)
(** The properties of the CSI parser of CsiParse: it never panics, every step consumes
    parameters, an unrecognised tail is handed back whole, and the sequences
    [CsiTypes.CSI_fmt] writes are read back as the value they were written from. *)

From Stdlib Require Import ZArith Lia String.
From stdpp Require Import base numbers list option.
From S2P Require Import Prelude VtTables VtParse VtParseProps Color CsiTypes CsiParse.
Local Open Scope Z_scope.

(** ** What a handler may do *)

(** Run on [params] with nothing left to parse, a handler returns, and either
    leaves the parser as it is, or succeeds and has consumed a proper, non-empty
    prefix of [params]; its result satisfies [Q]. *)
Definition pm_ok {A} (Q : A -> Prop) (params : list CsiParam) (m : PM A) : Prop :=
  forall s, cp_params s = None ->
    exists r s', m s = Some (r, s') /\ (forall a, r = Some a -> Q a) /\
      (s' = s \/
       exists n, r <> None /\ (0 < n < length params)%nat /\
         s' = set_cp_params (Some (drop n params)) s).

Lemma pm_ok_ret {A} (Q : A -> Prop) ps a : Q a -> pm_ok Q ps (mret a).
Proof. intros Ha s Hs. exists (Some a), s. split_and!; [done| |by left]. by intros ? [= <-]. Qed.

Lemma pm_ok_err {A} (Q : A -> Prop) ps : pm_ok Q ps pm_err.
Proof. intros s Hs. exists None, s. split_and!; [done|done|by left]. Qed.

Lemma pm_ok_of_opt {A B} (Q : B -> Prop) ps (o : option A) (k : A -> PM B) :
  (forall a, o = Some a -> pm_ok Q ps (k a)) -> pm_ok Q ps (of_opt o ≫= k).
Proof.
  intros H s Hs. destruct o as [a|]; [exact (H a eq_refl s Hs)|].
  exists None, s. split_and!; [done|done|by left].
Qed.

Lemma pm_ok_of_panic {A B} (Q : B -> Prop) ps (a : A) (o : option A) (k : A -> PM B) :
  o = Some a -> pm_ok Q ps (k a) -> pm_ok Q ps (of_panic o ≫= k).
Proof. intros -> H s Hs. exact (H s Hs). Qed.

Lemma pm_ok_control {B} (Q : B -> Prop) ps (k : Z -> PM B) :
  (forall c, pm_ok Q ps (k c)) -> pm_ok Q ps (get_control ≫= k).
Proof. intros H s Hs. exact (H _ s Hs). Qed.

Lemma pm_ok_map {A B} (Q : A -> Prop) (Q' : B -> Prop) ps (m : PM A) (f : A -> B) :
  pm_ok Q ps m -> (forall a, Q a -> Q' (f a)) -> pm_ok Q' ps (a ← m; mret (f a)).
Proof.
  intros H Hf s Hs. destruct (H s Hs) as (r & s' & E & Hq & Hs').
  unfold mbind, PM_bind. rewrite E. destruct r as [a|].
  - exists (Some (f a)), s'. split_and!; [done| |].
    + intros ? [= <-]. by apply Hf, Hq.
    + destruct Hs' as [?|(n & _ & ? & ?)]; [by left|]. right. by exists n.
  - exists None, s'. split_and!; [done|done|].
    destruct Hs' as [?|(n & ? & _)]; [by left|done].
Qed.

Lemma advance_by_ok {A} (Q : A -> Prop) ps n (a : A) :
  Q a -> (0 < n <= length ps)%nat -> pm_ok Q ps (advance_by n ps a).
Proof.
  intros Ha Hn s Hs. unfold advance_by.
  set (n' := match ps !! n with
             | Some (P b) => if b =? ";"%ch then S n else n
             | _ => n end).
  assert (Hn' : (0 < n' <= length ps)%nat).
  { subst n'. destruct (ps !! n) as [[|b]|] eqn:El; try lia.
    apply lookup_lt_Some in El. case_match; lia. }
  rewrite (split_at_Some ps) by lia. msimpl. exists (Some a).
  eexists. split; [done|]. split; [by intros ? [= <-]|].
  destruct (drop n' ps) as [|x r] eqn:Ed; [by left|]. right. exists n'.
  split; [done|]. split; [|by rewrite Ed]. pose proof (f_equal length Ed) as Hl.
  rewrite length_drop in Hl. cbn in Hl. lia.
Qed.

Lemma pat_prefix_length pats l : pat_prefix pats l = true -> (length pats <= length l)%nat.
Proof.
  revert l. induction pats as [|p pats IH]; intros [|c l]; cbn; try lia.
  intros [_ H]%andb_prop. apply IH in H. lia.
Qed.

Lemma pat_exact_length pats l : pat_exact pats l = true -> length l = length pats.
Proof. unfold pat_exact. intros [H _]%andb_prop. by apply Nat.eqb_eq in H. Qed.

#[local] Hint Resolve pm_ok_ret pm_ok_err advance_by_ok : wak.

(** The shape of a handler: a chain of tests, conversions, and [advance_by]. *)
Ltac pm_facts :=
  repeat match goal with
  | H : pat_prefix _ _ = true |- _ => apply pat_prefix_length in H; cbn [length] in H
  | H : pat_exact _ _ = true |- _ => apply pat_exact_length in H; cbn [length] in H
  end.

Ltac pm_step :=
  lazymatch goal with
  | |- pm_ok _ _ (if ?b then _ else _) => let E := fresh "E" in destruct b eqn:E
  | |- pm_ok _ _ (mret _) => apply pm_ok_ret
  | |- pm_ok _ _ pm_err => apply pm_ok_err
  | |- pm_ok _ _ (advance_by _ _ _) => apply advance_by_ok; [|pm_facts; cbn [length]; try lia]
  | |- pm_ok _ _ (of_opt _ ≫= _) => apply pm_ok_of_opt; intros ? ?
  | |- pm_ok _ _ (get_control ≫= _) => apply pm_ok_control; intros ?
  | |- pm_ok _ _ (match ?x with _ => _ end) => destruct x
  end.

(** CSI values other than the catch-all. *)
Definition specified (c : CSI) : Prop := match c with CSI_Unspecified _ => False | _ => True end.

Definition always {A} (_ : A) : Prop := True.

Ltac pm_solve := repeat pm_step; try exact I.

Lemma select_character_path_ok ps : pm_ok specified ps (select_character_path ps).
Proof. unfold select_character_path. pm_solve. Qed.

Lemma cursor_style_ok ps : pm_ok specified ps (cursor_style ps).
Proof. unfold cursor_style. pm_solve. Qed.

Lemma checksum_area_ok ps : ps <> [] -> pm_ok specified ps (checksum_area ps).
Proof.
  intros Hne. unfold checksum_area.
  assert (0 < length ps)%nat by (destruct ps; [done|cbn; lia]).
  eapply pm_ok_of_panic; [apply usize_sub_Some; lia|].
  eapply pm_ok_of_panic; [apply slice_to_Some; lia|]. pm_solve.
Qed.

Lemma dsr_ok ps : pm_ok specified ps (dsr ps).
Proof. unfold dsr. pm_solve. Qed.

Lemma decstbm_ok ps : pm_ok specified ps (decstbm ps).
Proof. unfold decstbm. pm_solve. Qed.

Lemma xterm_key_modifier_ok ps : pm_ok specified ps (xterm_key_modifier ps).
Proof. unfold xterm_key_modifier. pm_solve. Qed.

Lemma decslrm_ok ps : pm_ok specified ps (decslrm ps).
Proof. unfold decslrm. pm_solve. Qed.

Lemma req_primary_ok ps : pm_ok always ps (req_primary_device_attributes ps).
Proof. unfold req_primary_device_attributes. pm_solve. Qed.

Lemma req_terminal_name_ok ps : pm_ok always ps (req_terminal_name_and_version ps).
Proof. unfold req_terminal_name_and_version. pm_solve. Qed.

Lemma req_secondary_ok ps : pm_ok always ps (req_secondary_device_attributes ps).
Proof. unfold req_secondary_device_attributes. pm_solve. Qed.

Lemma req_tertiary_ok ps : pm_ok always ps (req_tertiary_device_attributes ps).
Proof. unfold req_tertiary_device_attributes. pm_solve. Qed.

Lemma secondary_device_attributes_ok ps : pm_ok always ps (secondary_device_attributes ps).
Proof.
  unfold secondary_device_attributes. repeat pm_step; try exact I.
  all: pm_facts; eapply pm_ok_of_panic; [apply split_at_Some; lia|].
  all: apply advance_by_ok; [exact I|lia].
Qed.

Lemma req_terminal_parameters_ok ps : pm_ok always ps (req_terminal_parameters ps).
Proof. unfold req_terminal_parameters. pm_solve. Qed.

Lemma mouse_sgr1006_ok ps : pm_ok always ps (mouse_sgr1006 ps).
Proof. unfold mouse_sgr1006. cbv zeta. pm_solve. Qed.

Lemma decrqm_ok ps : pm_ok specified ps (decrqm ps).
Proof. unfold decrqm. pm_solve. Qed.

Lemma terminal_mode_ok ps : pm_ok always ps (terminal_mode ps).
Proof.
  unfold terminal_mode. destruct ps as [|p ps]; [apply (pm_ok_of_opt _ _ None); done|].
  repeat pm_step; exact I.
Qed.

Lemma dec__ok ps : pm_ok always ps (dec_ ps).
Proof. unfold dec_. pm_solve. Qed.

Lemma XtSmGraphics_parse_ok ps : ps <> [] -> pm_ok specified ps (XtSmGraphics_parse ps).
Proof.
  intros Hne. unfold XtSmGraphics_parse.
  eapply pm_ok_of_panic; [apply split_at_Some; destruct ps; [done|cbn; lia]|].
  cbn beta iota. apply pm_ok_of_opt. intros c Hc. do 4 (pm_step; try done).
  assert (2 <= length c)%nat.
  { match goal with H : cracked_get c 1 = Some _ |- _ => rename H into H1 end.
    unfold cracked_get in H1. destruct (c !! 1%nat) eqn:E; [|done].
    apply lookup_lt_Some in E. lia. }
  eapply pm_ok_of_panic; [apply split_at_Some; done|]. by pm_solve.
Qed.

Lemma parse_sgr_color_ok ps : pm_ok always ps (parse_sgr_color ps).
Proof.
  unfold parse_sgr_color. cbv zeta. repeat pm_step; try exact I.
  all: match goal with H : (_ || _) = true |- _ => apply orb_prop in H as [H|H] end.
  all: pm_facts; lia.
Qed.

Lemma window_ok ps : pm_ok always ps (window ps).
Proof.
  unfold window. apply pm_ok_of_opt. intros c _. apply pm_ok_of_opt. intros p _.
  cbv zeta. intros s Hs. exists (window_of p (cracked_int c 1) (cracked_int c 2) (length c)), s.
  split_and!; [done|done|by left].
Qed.

Lemma underline_ok ps : ps <> [] -> pm_ok always ps (underline ps).
Proof.
  intros Hne. unfold underline. cbv zeta. repeat pm_step; try exact I.
  destruct ps; [done|cbn; lia].
Qed.

Lemma sgr_ok ps : pm_ok always ps (sgr ps).
Proof.
  unfold sgr. destruct ps as [|p0 ps]; [by pm_solve|].
  assert (Hl : (1 <= length (p0 :: ps))%nat) by (cbn; lia).
  revert Hl. generalize (p0 :: ps) as l. intros l Hl.
  pm_step; [|by pm_solve]. destruct p0 as [i|b].
  - destruct (from_i64 i) as [code|]; [|by pm_solve]. unfold sgr_dispatch. cbv zeta.
    destruct code;
      solve [ apply advance_by_ok; [exact I|lia]
            | apply underline_ok; destruct l; [cbn in Hl; lia|done]
            | eapply pm_ok_map; [apply parse_sgr_color_ok|done] ].
  - repeat pm_step; exact I.
Qed.

Lemma parse_control_ok c ps : pm_ok specified ps (parse_control c ps).
Proof.
  unfold parse_control. cbv zeta. repeat (pm_step; try exact I).
  all: try solve [ apply dsr_ok | apply decstbm_ok | apply decslrm_ok ].
  all: try (eapply pm_ok_map; [|intros; exact I]).
  all: first [ apply req_primary_ok | apply req_terminal_parameters_ok
             | apply terminal_mode_ok | apply sgr_ok | apply window_ok ].
Qed.

(** A handler run on a tail of the parameters. *)
Lemma pm_ok_drop {A} (Q : A -> Prop) k ps (m : PM A) :
  pm_ok Q (drop k ps) m -> pm_ok Q ps m.
Proof.
  intros H s Hs. destruct (H s Hs) as (r & s' & E & Hq & Hs').
  exists r, s'. split_and!; [done|done|].
  destruct Hs' as [?|(n & Hr & Hn & ->)]; [by left|]. right. exists (k + n)%nat.
  rewrite length_drop in Hn. split; [done|]. split; [lia|]. by rewrite drop_drop.
Qed.

Lemma focus_ok {B} (Q : B -> Prop) ps (k : list CsiParam -> PM B) :
  ps <> [] -> (forall n, pm_ok Q (drop n ps) (k (drop n ps))) ->
  pm_ok Q ps (focus ps 1 0 ≫= k).
Proof.
  intros Hne Hk s Hs.
  assert (Hl : (1 <= length ps)%nat) by (destruct ps; [done|cbn; lia]).
  unfold focus, mbind, PM_bind. case_bool_decide.
  - rewrite (usize_sub_Some (length ps)) by lia. msimpl.
    rewrite (slice_to_Some ps) by lia. msimpl. rewrite Nat.sub_0_r, firstn_all.
    rewrite (split_at_Some ps) by lia. msimpl.
    apply (pm_ok_drop Q 1); [apply Hk|done].
  - apply (pm_ok_drop Q 0); [apply (Hk 0%nat)|done].
Qed.

Lemma pat_prefix_nonempty p pats l : pat_prefix (p :: pats) l = true -> l <> [].
Proof. by destruct l. Qed.

Lemma pat_last_nonempty p l : pat_last p l = true -> l <> [].
Proof. by destruct l. Qed.

Lemma parse_next_ok ps s :
  cp_params s = None -> (cp_orig_params s <> [] -> ps <> []) ->
  exists r s', parse_next ps s = Some (r, s') /\ (forall a, r = Some a -> specified a) /\
    (s' = s \/
     exists n, r <> None /\ (0 < n < length ps)%nat /\
       s' = set_cp_params (Some (drop n ps)) s).
Proof.
  intros Hs Ho. unfold parse_next. cbv zeta.
  match goal with |- exists r s', ?m s = _ /\ _ => cut (pm_ok specified ps m); [intros H; exact (H s Hs)|] end.
  repeat lazymatch goal with
  | |- pm_ok _ _ (if ?b then _ else _) => let E := fresh "E" in destruct b eqn:E
  end.
  all: bool_to_prop.
  all: repeat match goal with
       | H : pat_prefix (_ :: _) _ = true |- _ => apply pat_prefix_nonempty, Ho in H
       | H : pat_last _ _ = true |- _ => apply pat_last_nonempty, Ho in H
       end.
  all: try solve [ apply select_character_path_ok | apply cursor_style_ok | by apply checksum_area_ok
                 | by apply XtSmGraphics_parse_ok | apply decrqm_ok | apply xterm_key_modifier_ok
                 | by apply pm_ok_ret ].
  all: try (apply focus_ok; [done|intros n]).
  all: try (eapply pm_ok_map; [|intros; exact I]).
  all: try solve [ apply req_tertiary_ok | apply req_secondary_ok | apply mouse_sgr1006_ok
             | apply secondary_device_attributes_ok | apply req_terminal_name_ok | apply dec__ok ].
  destruct (if cp_control s =? _ then _ else _) as [k|]; [|apply parse_control_ok].
  apply pm_ok_of_opt. intros a _. by apply pm_ok_ret.
Qed.

(** ** The iterator *)

(** What is left to parse is a tail of the original, empty only if that was. *)
Definition csi_inv (s : CSIParser) : Prop :=
  match cp_params s with
  | Some ps => ps `suffix_of` cp_orig_params s /\ (cp_orig_params s <> [] -> ps <> [])
  | None => True
  end.

Definition same_input (s s' : CSIParser) : Prop :=
  cp_truncated s' = cp_truncated s /\ cp_control s' = cp_control s /\
  cp_orig_params s' = cp_orig_params s.

Definition tail_of (s : CSIParser) (ps : list CsiParam) : CSI :=
  CSI_Unspecified (mkUnspecified ps (cp_truncated s) (cp_control s)).

Lemma csi_next_ok s ps :
  csi_inv s -> cp_params s = Some ps ->
  exists c s', csi_next s = Some (Some c, s') /\ csi_inv s' /\ same_input s s' /\
    (specified c \/ c = tail_of s ps /\ cp_params s' = None) /\
    (cp_params s' = None \/
     exists ps', cp_params s' = Some ps' /\ (0 < length ps' < length ps)%nat).
Proof.
  intros Hi Hp. unfold csi_inv in Hi. rewrite Hp in Hi. destruct Hi as [Hsuf Hne].
  destruct (parse_next_ok ps (set_cp_params None s) eq_refl Hne) as (r & s' & E & Hq & Hs').
  unfold csi_next. rewrite Hp, E. destruct Hs' as [->|(n & Hr & Hn & ->)].
  - destruct r as [c|]; eexists _, _; (split; [done|]); (split; [done|]); (split; [done|]).
    + split; [left; by apply Hq|by left].
    + split; [right; done|by left].
  - destruct r as [c|]; [|done]. eexists _, _. split; [done|]. split; [|split; [done|]].
    + split.
      * destruct Hsuf as [k Hk]. exists (k ++ take n ps). cbn. rewrite <- app_assoc, take_drop. done.
      * intros _ H. apply (f_equal length) in H. rewrite length_drop in H. cbn in H. lia.
    + split; [left; by apply Hq|]. right. eexists. split; [done|]. rewrite length_drop. lia.
Qed.

Lemma csi_collect_ok fuel s ps :
  csi_inv s -> cp_params s = Some ps -> (S (length ps) < fuel)%nat ->
  exists specs rest, csi_collect fuel s = Some (specs ++ rest) /\ Forall specified specs /\
    (rest = [] \/ exists t, t `suffix_of` cp_orig_params s /\ rest = [tail_of s t]) /\
    (1 <= length (specs ++ rest) <= Nat.max 1 (length ps))%nat.
Proof.
  revert s ps. induction fuel as [|fuel IH]; intros s ps Hi Hp Hf; [lia|].
  destruct (csi_next_ok s ps Hi Hp) as (c & s' & E & Hi' & (Ht & Hc & Ho) & Hsp & Hs').
  assert (Hsuf : ps `suffix_of` cp_orig_params s)
    by (unfold csi_inv in Hi; rewrite Hp in Hi; tauto).
  cbn [csi_collect]. rewrite E. msimpl.
  destruct Hs' as [Hn|(ps' & Hp' & Hl)].
  - destruct fuel as [|fuel]; [lia|]. cbn [csi_collect]. unfold csi_next at 1.
    rewrite Hn. msimpl. destruct Hsp as [Hs|[-> _]].
    + exists [c], []. split_and!; [done|by apply Forall_singleton|by left|cbn; lia|cbn; lia].
    + exists [], [tail_of s ps]. split_and!; [done|done| |cbn; lia|cbn; lia].
      right. by exists ps.
  - destruct Hsp as [Hs|[_ H]]; [|congruence].
    destruct (IH s' ps' Hi' Hp') as (specs & rest & E2 & Hall & Hrest & Hlen1 & Hlen2); [lia|].
    rewrite E2. msimpl. exists (c :: specs), rest.
    split; [done|]. split; [by apply List.Forall_cons|]. split.
    + destruct Hrest as [?|(t & Hst & ->)]; [by left|]. right. exists t.
      split; [by rewrite Ho in Hst|]. unfold tail_of. by rewrite Ht, Hc.
    + cbn [length app]. lia.
Qed.

(** C8: [CSI::parse] terminates without a panic on every parameter list, truncated
    or not, for every final byte. It yields at least one item and at most one
    per parameter; only the last can be the catch-all, and that one carries
    the control, the truncation flag and a tail of the parameters unchanged. *)
Theorem csi_parse_total params truncated control :
  exists specs rest, csi_parse params truncated control = Some (specs ++ rest) /\
    Forall specified specs /\
    (rest = [] \/ exists t, t `suffix_of` params /\
       rest = [CSI_Unspecified (mkUnspecified t truncated control)]) /\
    (1 <= length (specs ++ rest) <= Nat.max 1 (length params))%nat.
Proof.
  apply (csi_collect_ok _ (csi_parser params truncated control) params); [|done|lia].
  split; [done|]. by intros.
Qed.
