(* ===== verification/CsiRoundTrip.v ===== *)
(** Writing and reading CSI sequences: what [CsiTypes.CSI_fmt] writes is decoded
    by [vtparse] into one dispatch, which [CsiParse.csi_parse] reads back as the value
    that was written. *)

From Stdlib Require Import ZArith Lia String.
From stdpp Require Import base numbers list option.
From S2P Require Import Prelude VtTables VtParse VtParseProps Color CsiTypes CsiParse.
Local Open Scope Z_scope.

(** ** Reading back *)

(** The bytes are a canonical sequence, and its parameters parse to [c]. *)
Definition reads_back (fmt : list Z) (c : CSI) : Prop :=
  exists priv ps inter final,
    fmt = priv ++ csi_wire ps ++ inter ++ [final] /\
    csi_seq_ok priv ps inter final = true /\
    csi_parse (map P priv ++ ps ++ map P inter) false final = Some [c].

(** *** Sequences without free numbers *)

(** The pieces of a sequence, found by a scan: used to compute the witnesses of [reads_back]. *)
Fixpoint scan_params (cur : option Z) (l : list Z) : list CsiParam * list Z :=
  match l with
  | [] => (opt_list (option_map Integer cur), [])
  | b :: r =>
      if is_digit b then scan_params (Some (default 0 cur * 10 + (b - "0"%ch))) r
      else if (b =? ";"%ch) || (b =? ":"%ch) then
        let '(ps, rest) := scan_params None r in
        (opt_list (option_map Integer cur) ++ P b :: ps, rest)
      else (opt_list (option_map Integer cur), l)
  end.

Definition scan_csi (l : list Z) : list Z * list CsiParam * list Z * Z :=
  let '(priv, l) :=
    match l with b :: r => if rng 0x3c 0x3f b then ([b], r) else ([], l) | [] => ([], l) end in
  let '(ps, l) := scan_params None l in
  (priv, ps, removelast l, List.last l 0).

Lemma reads_back_closed fmt c :
  (let '(priv, ps, inter, final) := scan_csi fmt in
   fmt = priv ++ csi_wire ps ++ inter ++ [final] /\
   csi_seq_ok priv ps inter final = true /\
   csi_parse (map P priv ++ ps ++ map P inter) false final = Some [c]) ->
  reads_back fmt c.
Proof.
  destruct (scan_csi fmt) as [[[priv ps] inter] final]. intros H. by exists priv, ps, inter, final.
Qed.

Ltac closed := apply reads_back_closed; vm_compute; split_and!; reflexivity.

(** *** Sequences with numbers *)

Lemma dec_nonneg n : 0 <= n -> dec n = dec_u n.
Proof. intros H. unfold dec. by destruct (Z.ltb_spec n 0); [lia|]. Qed.

Lemma i64_in n : 0 <= n <= i64_max -> rng 0 i64_max n = true.
Proof. intros H. by apply rng_spec. Qed.

(** The [u32] values a sequence can carry: 0 is read as 1. *)
Definition pos_u32 (n : Z) : Prop := 1 <= n <= u32_max.
Definition OneBased_wf (o : OneBased) : Prop := pos_u32 (ob_value o).

Lemma to_1b_u32_ok n : pos_u32 n -> to_1b_u32 (Integer n) = Some n.
Proof.
  unfold pos_u32, to_1b_u32. intros Hn. rewrite (proj2 (Z.eqb_neq n 0)) by lia.
  rewrite (proj2 (Z.ltb_lt 0 n)), (proj2 (Z.leb_le n u32_max)) by lia. cbn [andb].
  unfold as_u32. rewrite Z.mod_small; [done|]. unfold u32_max in Hn. lia.
Qed.

Lemma from_esc_param_ok n : pos_u32 n -> from_esc_param (Integer n) = Some (mkOneBased n).
Proof.
  intros H. pose proof (to_1b_u32_ok n H) as E. unfold to_1b_u32, from_esc_param in *.
  repeat case_match; congruence.
Qed.

Lemma from_esc_param_big_ok n :
  pos_u32 n -> from_esc_param_with_big_default (Integer n) = Some (mkOneBased n).
Proof.
  intros H. pose proof (to_1b_u32_ok n H) as E.
  unfold to_1b_u32, from_esc_param_with_big_default in *.
  destruct (Z.eqb_spec n 0); [unfold pos_u32 in H; lia|].
  repeat case_match; congruence.
Qed.

Lemma to_u8_ok n : is_byte n -> to_u8 (Integer n) = Some n.
Proof.
  unfold is_byte, to_u8, as_u8. intros Hn.
  rewrite (proj2 (Z.leb_le n u8_max)) by (unfold u8_max; lia). by rewrite Z.mod_small by lia.
Qed.

Lemma i64_to_u16_ok n : 0 <= n <= u16_max -> i64_to_u16 n = Some n.
Proof. intros H. unfold i64_to_u16. by rewrite (proj2 (rng_spec _ _ _) H). Qed.

Lemma i64_to_u32_ok n : 0 <= n <= u32_max -> i64_to_u32 n = Some n.
Proof. intros H. unfold i64_to_u32. by rewrite (proj2 (rng_spec _ _ _) H). Qed.

Lemma as_u16_ok n : 0 <= n <= u16_max -> as_u16 n = n.
Proof. unfold u16_max, as_u16. intros H. apply Z.mod_small. lia. Qed.

Lemma kitty_flags_ok n : 0 <= n <= KittyKeyboardFlags_all -> kitty_flags n = Some n.
Proof.
  unfold KittyKeyboardFlags_all. intros H. unfold kitty_flags.
  rewrite i64_to_u16_ok by (unfold u16_max; lia). msimpl.
  unfold KittyKeyboardFlags_from_bits_truncate. change KittyKeyboardFlags_all with (Z.ones 5).
  rewrite Z.land_ones by lia. by rewrite Z.mod_small by lia.
Qed.

Lemma focus_self tr ctl p ps :
  focus (p :: ps) 1 0 (mkCSIParser tr ctl None (p :: ps)) =
  Some (Some ps, mkCSIParser tr ctl None (p :: ps)).
Proof.
  unfold focus. cbn [cp_orig_params].
  rewrite bool_decide_eq_true_2 by done. rewrite (usize_sub_Some (length (p :: ps))) by lia. msimpl.
  rewrite Nat.sub_0_r, (slice_to_Some (p :: ps)) by lia. msimpl.
  rewrite firstn_all, (split_at_Some (p :: ps)) by (cbn; lia). msimpl. done.
Qed.

(** One step of the iterator that leaves nothing to parse. *)
Lemma parse_once params final c s' :
  parse_next params (mkCSIParser false final None params) = Some (Some c, s') ->
  cp_params s' = None -> csi_parse params false final = Some [c].
Proof.
  intros E Hn. unfold csi_parse. cbn [csi_collect].
  assert (E1 : csi_next (csi_parser params false final) = Some (Some c, s'))
    by (unfold csi_next, csi_parser, set_cp_params; cbn [cp_params cp_truncated cp_control
          cp_orig_params]; by rewrite E).
  rewrite E1. msimpl. unfold csi_next. by rewrite Hn.
Qed.

(** Evaluate a parse down to the conversions of its numbers, and use their lemmas. *)
Ltac eval_parse :=
  cbv -[to_u8 from_esc_param from_esc_param_with_big_default to_1b_u32 dec_mode_of
        terminal_mode_of kitty_flags i64_to_u32 as_u16 focus ColorSpec_from_rgb
        ColorSpec_from_srgba new_8bpc srgba_from_u8 mouse_button mouse_modifiers Z.land].

Ltac eval_numbers :=
  repeat (first [ rewrite focus_self
                | rewrite to_u8_ok by assumption
                | rewrite from_esc_param_ok by assumption
                | rewrite from_esc_param_big_ok by assumption
                | rewrite to_1b_u32_ok by assumption
                | rewrite kitty_flags_ok by assumption
                | rewrite i64_to_u32_ok by assumption
                | rewrite as_u16_ok by assumption
                | match goal with
                  | H : dec_mode_of ?n = Some _ |- context [dec_mode_of ?n] => rewrite H
                  | H : terminal_mode_of ?n = Some _ |- context [terminal_mode_of ?n] => rewrite H
                  end ]; eval_parse).

Ltac eval_csi := eapply parse_once; [eval_parse; eval_numbers; reflexivity|reflexivity].

(** The bytes of a sequence with numbers. *)
Ltac eval_wire :=
  cbv -[dec dec_u app]; rewrite ?dec_nonneg by lia; cbn [app];
  repeat first [rewrite <- app_assoc | progress cbn [app]]; rewrite ?app_nil_r; reflexivity.

Ltac eval_seq :=
  unfold csi_seq_ok; cbn [forallb sep_ok];
  repeat match goal with
  | |- context [rng 0 i64_max ?n] =>
      rewrite (i64_in n) by (unfold i64_max, u32_max, u16_max in *; lia)
  end; reflexivity.

Lemma pos_u32_i64 n : pos_u32 n -> 0 <= n <= i64_max.
Proof. unfold pos_u32, u32_max, i64_max. lia. Qed.

(** *** The counted sequences: [n] and the final byte *)

Lemma u32_reads_back final (f : Z -> CSI) n :
  rng 0x40 0x7e final = true ->
  (forall params s, (params = [] \/ exists v, params = [Integer v]) ->
     s = mkCSIParser false final None params ->
     parse_next params s = (v ← of_opt (parse_params_u32 params); mret (f v)) s) ->
  pos_u32 n -> reads_back (u32_write_csi n [final]) (f n).
Proof.
  intros Hf Hp Hn. pose proof (pos_u32_i64 n Hn) as Hi. unfold u32_write_csi.
  assert (Hseq : forall ps, ps = [] \/ ps = [Integer n] -> csi_seq_ok [] ps [] final = true).
  { intros ps [-> | ->]; unfold csi_seq_ok; cbn [forallb sep_ok];
      rewrite ?i64_in, Hf by lia; reflexivity. }
  destruct (Z.eqb_spec n 1) as [->|Hne].
  - exists [], [], [], final. split; [done|]. split; [apply Hseq; by left|].
    eapply parse_once; [rewrite (Hp []) by auto|]; done.
  - exists [], [Integer n], [], final. split; [|split].
    + rewrite dec_nonneg by lia. unfold csi_wire. cbn. by rewrite app_nil_r.
    + apply Hseq. by right.
    + eapply parse_once; [rewrite (Hp [Integer n]) by eauto|].
      * eval_parse. by rewrite to_1b_u32_ok by done.
      * done.
Qed.

Ltac counted :=
  lazymatch goal with
  | |- reads_back (u32_write_csi ?n ?ctl) ?c =>
      let ctl := eval vm_compute in ctl in
      lazymatch ctl with
      | [?b] =>
          let c := eval pattern n in c in
          lazymatch c with
          | ?f _ => apply (u32_reads_back b f n);
                    [reflexivity|by intros ? ? [->|[? ->]] ->|assumption]
          end
      end
  end.

Definition Edit_wf (e : Edit) : Prop :=
  match e with
  | Edit_EraseInLine _ | Edit_EraseInDisplay _ => True
  | Edit_DeleteCharacter n | Edit_DeleteLine n | Edit_EraseCharacter n
  | Edit_InsertCharacter n | Edit_InsertLine n | Edit_ScrollDown n | Edit_ScrollUp n
  | Edit_Repeat n => pos_u32 n
  end.

Lemma Edit_reads_back e : Edit_wf e -> reads_back (Edit_fmt e) (CSI_Edit e).
Proof.
  destruct e as [n|n|n|e|n|n|n|n|e|n]; cbn [Edit_wf Edit_fmt]; intros Hn;
    first [counted | destruct e; closed].
Qed.

(** *** The pairs of positions *)

Lemma pair_reads_back a b final c s :
  OneBased_wf a -> OneBased_wf b -> rng 0x40 0x7e final = true ->
  parse_next [Integer (ob_value a); P ";"%ch; Integer (ob_value b)]
    (mkCSIParser false final None [Integer (ob_value a); P ";"%ch; Integer (ob_value b)])
    = Some (Some c, s) -> cp_params s = None ->
  reads_back (OneBased_fmt a ++ bs ";" ++ OneBased_fmt b ++ [final]) c.
Proof.
  intros Ha%pos_u32_i64 Hb%pos_u32_i64 Hf E Hs.
  exists [], [Integer (ob_value a); P ";"%ch; Integer (ob_value b)], [], final. split; [|split].
  - unfold OneBased_fmt, csi_wire. rewrite !dec_nonneg by lia. cbn.
    by rewrite app_nil_r, <- app_assoc.
  - unfold csi_seq_ok. cbn [forallb sep_ok]. rewrite !i64_in, Hf by lia. reflexivity.
  - by apply (parse_once _ _ _ s).
Qed.

Ltac paired :=
  eapply pair_reads_back; [assumption|assumption|reflexivity| |]; [eval_parse; eval_numbers; reflexivity|done].

Lemma one_reads_back final (f : OneBased -> CSI) o :
  rng 0x40 0x7e final = true ->
  (forall params s, (params = [] \/ exists v, params = [Integer v]) ->
     s = mkCSIParser false final None params ->
     parse_next params s = (v ← of_opt (parse_params params); mret (f v)) s) ->
  OneBased_wf o -> reads_back (write_csi o [final]) (f o).
Proof.
  intros Hf Hp Hn. pose proof (pos_u32_i64 _ Hn) as Hi. destruct o as [n].
  change (write_csi (mkOneBased n) [final]) with (u32_write_csi n [final]).
  apply (u32_reads_back final (fun n => f (mkOneBased n)) n Hf); [|done].
  intros params s Hps Hs. rewrite Hp by done.
  destruct Hps as [->|[v ->]]; [done|]. cbn -[from_esc_param to_1b_u32].
  unfold mbind, PM_bind, of_opt. unfold from_esc_param, to_1b_u32.
  destruct (v =? 0); [done|]. by destruct ((0 <? v) && (v <=? u32_max)).
Qed.

Ltac one_based :=
  lazymatch goal with
  | |- reads_back (write_csi ?n ?ctl) ?c =>
      let ctl := eval vm_compute in ctl in
      lazymatch ctl with
      | [?b] =>
          let c := eval pattern n in c in
          lazymatch c with
          | ?f _ => apply (one_reads_back b f n);
                    [reflexivity|by intros ? ? [->|[? ->]] ->|assumption]
          end
      end
  end.

(** The default margins of DECSLRM are written as the sequence that saves the cursor. *)
Definition Cursor_wf (c : Cursor) : Prop :=
  match c with
  | Cursor_BackwardTabulation n | Cursor_CharacterPositionBackward n
  | Cursor_CharacterPositionForward n | Cursor_LinePositionAbsolute n
  | Cursor_LinePositionBackward n | Cursor_LinePositionForward n
  | Cursor_ForwardTabulation n | Cursor_NextLine n | Cursor_PrecedingLine n
  | Cursor_Left n | Cursor_Down n | Cursor_Right n | Cursor_Up n
  | Cursor_LineTabulation n => pos_u32 n
  | Cursor_CharacterAbsolute o | Cursor_CharacterPositionAbsolute o => OneBased_wf o
  | Cursor_CharacterAndLinePosition a b | Cursor_ActivePositionReport a b
  | Cursor_Position a b | Cursor_SetTopAndBottomMargins a b => OneBased_wf a /\ OneBased_wf b
  | Cursor_SetLeftAndRightMargins a b =>
      OneBased_wf a /\ OneBased_wf b /\ ~ (ob_value a = 1 /\ ob_value b = u32_max)
  | Cursor_TabulationClear _ | Cursor_TabulationControl _ | Cursor_CursorStyle _
  | Cursor_RequestActivePositionReport | Cursor_SaveCursor | Cursor_RestoreCursor => True
  end.

Ltac cursor_case :=
  lazymatch goal with
  | H : pos_u32 _ |- _ => counted
  | H : OneBased_wf _ |- _ => one_based
  | x : TabulationClear, H : True |- _ => destruct x; closed
  | x : CursorTabulationControl, H : True |- _ => destruct x; closed
  | x : CursorStyle, H : True |- _ => destruct x; closed
  | H : True |- _ => closed
  end.

Lemma Cursor_reads_back c : Cursor_wf c -> reads_back (Cursor_fmt c) (CSI_Cursor c).
Proof.
  destruct c; cbn [Cursor_wf Cursor_fmt]; cbv zeta; intros Hn; try cursor_case.
  all: destruct Hn as [Ha Hb].
  all: repeat match goal with o : OneBased |- _ => let v := fresh "v" in destruct o as [v] end.
  1-3: paired.
  - cbn [as_one_based ob_value]. destruct (_ && _) eqn:E; [|paired]. bool_to_prop.
    cbn in *. subst. closed.
  - destruct Hb as [Hb Hc]. cbn [as_one_based ob_value] in *.
    destruct (_ && _) eqn:E; [|paired]. bool_to_prop. cbn in *. by destruct Hc.
Qed.

(** *** Modes *)

Definition DecPrivateMode_wf (m : DecPrivateMode) : Prop :=
  match m with
  | DecPrivateMode_Code _ => True
  | DecPrivateMode_Unspecified n =>
      0 <= n <= u16_max /\ (from_i64 n : option DecPrivateModeCode) = None
  end.

Definition TerminalMode_wf (m : TerminalMode) : Prop :=
  match m with
  | TerminalMode_Code _ => True
  | TerminalMode_Unspecified n =>
      0 <= n <= u16_max /\ (from_i64 n : option TerminalModeCode) = None
  end.

Lemma dec_mode_ok m :
  DecPrivateMode_wf m ->
  0 <= DecPrivateMode_u16 m <= u16_max /\ dec_mode_of (DecPrivateMode_u16 m) = Some m.
Proof.
  destruct m as [c|n]; cbn [DecPrivateMode_wf DecPrivateMode_u16]; unfold dec_mode_of.
  - intros _. rewrite from_disc. split; [|done]. by destruct c.
  - intros [Hn ->]. by rewrite i64_to_u16_ok.
Qed.

Lemma terminal_mode_of_ok m :
  TerminalMode_wf m ->
  0 <= TerminalMode_u16 m <= u16_max /\ terminal_mode_of (TerminalMode_u16 m) = Some m.
Proof.
  destruct m as [c|n]; cbn [TerminalMode_wf TerminalMode_u16]; unfold terminal_mode_of.
  - intros _. rewrite from_disc. split; [|done]. by destruct c.
  - intros [Hn ->]. by rewrite i64_to_u16_ok.
Qed.

(** [QueryMode] is written with the marker of a DEC query, so it is left out. *)
Definition Mode_wf (m : Mode) : Prop :=
  match m with
  | SetDecPrivateMode m | ResetDecPrivateMode m | SaveDecPrivateMode m
  | RestoreDecPrivateMode m | QueryDecPrivateMode m => DecPrivateMode_wf m
  | SetMode m | ResetMode m => TerminalMode_wf m
  | QueryMode _ => False
  | XtermKeyMode _ (Some v) => 0 <= v <= i64_max
  | XtermKeyMode _ None => True
  end.

(** One sequence with numbers: its pieces, its bytes, its parse. *)
Ltac sequence priv ps inter final :=
  exists priv, ps, inter, final; split; [eval_wire|split; [eval_seq|eval_csi]].

Lemma Mode_reads_back m : Mode_wf m -> reads_back (Mode_fmt m) (CSI_Mode m).
Proof.
  destruct m as [m|m|m|m|m|m|m|m|r [v|]]; cbn [Mode_wf Mode_fmt]; cbv zeta; intros Hm;
    try apply dec_mode_ok in Hm as [Hn Hm]; try apply terminal_mode_of_ok in Hm as [Hn Hm];
    try (revert Hn Hm; generalize (DecPrivateMode_u16 m); intros n Hn Hm);
    try (revert Hn Hm; generalize (TerminalMode_u16 m); intros n Hn Hm).
  - sequence (bs "?") [Integer n] (@nil Z) "h"%ch.
  - sequence (bs "?") [Integer n] (@nil Z) "l"%ch.
  - sequence (bs "?") [Integer n] (@nil Z) "s"%ch.
  - sequence (bs "?") [Integer n] (@nil Z) "r"%ch.
  - sequence (bs "?") [Integer n] (bs "$") "p"%ch.
  - sequence (@nil Z) [Integer n] (@nil Z) "h"%ch.
  - sequence (@nil Z) [Integer n] (@nil Z) "l"%ch.
  - done.
  - destruct r;
      [ sequence (bs ">") [Integer 0; P ";"%ch; Integer v] (@nil Z) "m"%ch
      | sequence (bs ">") [Integer 1; P ";"%ch; Integer v] (@nil Z) "m"%ch
      | sequence (bs ">") [Integer 2; P ";"%ch; Integer v] (@nil Z) "m"%ch
      | sequence (bs ">") [Integer 4; P ";"%ch; Integer v] (@nil Z) "m"%ch ].
  - destruct r; closed.
Qed.

(** *** Keyboard *)

Definition Keyboard_wf (k : Keyboard) : Prop :=
  match k with
  | SetKittyState f _ | PushKittyState f _ | ReportKittyState f =>
      0 <= f <= KittyKeyboardFlags_all
  | PopKittyState n => 0 <= n <= u32_max
  | QueryKittySupport => True
  end.

Lemma Keyboard_reads_back k : Keyboard_wf k -> reads_back (tail (tail (CSI_fmt (CSI_Keyboard k)))) (CSI_Keyboard k).
Proof.
  destruct k as [f m|f m|n| |f]; cbn [Keyboard_wf CSI_fmt tail]; intros Hn;
    pose proof Hn as Hi; unfold KittyKeyboardFlags_all in Hi.
  - destruct m;
      [ sequence (bs "=") [Integer f; P ";"%ch; Integer 1] (@nil Z) "u"%ch
      | sequence (bs "=") [Integer f; P ";"%ch; Integer 2] (@nil Z) "u"%ch
      | sequence (bs "=") [Integer f; P ";"%ch; Integer 3] (@nil Z) "u"%ch ].
  - destruct m;
      [ sequence (bs ">") [Integer f; P ";"%ch; Integer 1] (@nil Z) "u"%ch
      | sequence (bs ">") [Integer f; P ";"%ch; Integer 2] (@nil Z) "u"%ch
      | sequence (bs ">") [Integer f; P ";"%ch; Integer 3] (@nil Z) "u"%ch ].
  - sequence (bs "<") [Integer n] (@nil Z) "u"%ch.
  - closed.
  - sequence (bs "?") [Integer f] (@nil Z) "u"%ch.
Qed.

(** *** Mouse reports *)

(** Any combination of shift, alt and control. *)
Definition Modifiers_wf (m : Z) : Prop := m ∈ [0; 2; 4; 6; 8; 10; 12; 14].

(** Presses of buttons 6 and 7 are written as releases, and a report in
    pixels as one in cells. *)
Definition Mouse_wf (m : MouseReport) : Prop :=
  match m with
  | SGR1006 x y button modifiers =>
      0 <= x <= u16_max /\ 0 <= y <= u16_max /\ button <> Button6Press /\
      button <> Button7Press /\ Modifiers_wf modifiers
  | SGR1016 _ _ _ _ => False
  end.

Lemma mouse_code_ok button modifiers :
  button <> Button6Press -> button <> Button7Press -> Modifiers_wf modifiers ->
  0 <= mouse_code button modifiers <= 255 /\
  mouse_button (mouse_trailer button) (Z.land (mouse_code button modifiers) 99) = Some button /\
  mouse_modifiers (mouse_code button modifiers) = modifiers.
Proof.
  intros H6 H7 Hm. unfold Modifiers_wf in Hm. rewrite !elem_of_cons in Hm.
  repeat destruct Hm as [->|Hm]; [..|by apply not_elem_of_nil in Hm].
  all: destruct button; try done; vm_compute; split_and!; reflexivity || discriminate.
Qed.

(** A report in cells, whoever wrote its code. *)
Lemma sgr_reads_back code x y final button modifiers :
  0 <= code <= 255 -> 0 <= x <= u16_max -> 0 <= y <= u16_max ->
  final = "M"%ch \/ final = "m"%ch -> mouse_button final (Z.land code 99) = Some button ->
  mouse_modifiers code = modifiers ->
  reads_back (bs "<" ++ dec code ++ bs ";" ++ dec x ++ bs ";" ++ dec y ++ [final])
    (CSI_Mouse (SGR1006 x y button modifiers)).
Proof.
  intros Hc Hx Hy Ht Eb Em.
  assert (Hi : csi_seq_ok (bs "<") [Integer code; P ";"%ch; Integer x; P ";"%ch; Integer y]
                 [] final = true).
  { destruct Ht as [-> | ->]; eval_seq. }
  exists (bs "<"), [Integer code; P ";"%ch; Integer x; P ";"%ch; Integer y], [], final.
  split; [|split; [exact Hi|]].
  - generalize final. intros t. eval_wire.
  - destruct Ht as [-> | ->];
      (eapply parse_once; [eval_parse; rewrite Eb; eval_parse; rewrite Em; eval_numbers; reflexivity|reflexivity]).
Qed.

Lemma Mouse_reads_back m : Mouse_wf m -> reads_back (MouseReport_fmt m) (CSI_Mouse m).
Proof.
  destruct m as [x y button modifiers|]; cbn [Mouse_wf MouseReport_fmt]; [|done].
  intros (Hx & Hy & H6 & H7 & Hm).
  destruct (mouse_code_ok button modifiers H6 H7 Hm) as (Hc & Eb & Em).
  apply sgr_reads_back; try done. destruct button; auto.
Qed.

(** *** Character path *)

Lemma SelectCharacterPath_reads_back path n :
  0 <= n <= i64_max ->
  reads_back (tail (tail (CSI_fmt (CSI_SelectCharacterPath path n)))) (CSI_SelectCharacterPath path n).
Proof.
  intros Hn. cbn [CSI_fmt tail]. cbv zeta. destruct (Z.eqb_spec n 0) as [->|Hne].
  - destruct path; closed.
  - destruct path;
      [ sequence (@nil Z) [Integer 0; P ";"%ch; Integer n] (bs " ") "k"%ch
      | sequence (@nil Z) [Integer 1; P ";"%ch; Integer n] (bs " ") "k"%ch
      | sequence (@nil Z) [Integer 2; P ";"%ch; Integer n] (bs " ") "k"%ch ].
Qed.

(** *** Graphic renditions *)

(** A colour that eight bits per channel can carry. *)
Definition ColorSpec_wf (c : ColorSpec) : Prop :=
  match c with
  | ColorSpec_Default => True
  | PaletteIndex i => is_byte i
  | TrueColor c =>
      exists r g b a, is_byte r /\ is_byte g /\ is_byte b /\ is_byte a /\ c = srgba_from_u8 r g b a
  end.

Definition Sgr_wf (s : Sgr) : Prop :=
  match s with
  | Sgr_Font (Font_Alternate n) => 1 <= n <= 9
  | Sgr_Foreground c | Sgr_Background c | Sgr_UnderlineColor c => ColorSpec_wf c
  | _ => True
  end.

(** The three codes that take a colour, and what they make of it. *)
Definition color_code (f : ColorSpec -> Sgr) (code : SgrCode) : Prop :=
  (f = Sgr_Foreground /\ code = SgrCode_ForegroundColor) \/
  (f = Sgr_Background /\ code = SgrCode_BackgroundColor) \/
  (f = Sgr_UnderlineColor /\ code = SgrCode_UnderlineColor).

Lemma true_color_reads_back f code c :
  color_code f code -> ColorSpec_wf (TrueColor c) ->
  reads_back (sgr_true_color code c) (CSI_Sgr (f (TrueColor c))).
Proof.
  intros Hf (r & g & b & a & Hr & Hg & Hb & Ha & ->). unfold sgr_true_color.
  rewrite srgba_roundtrip by done. destruct (Z.eqb_spec a 255) as [->|Hne].
  - pose proof (rgb_as_srgba r g b Hr Hg Hb) as Ec.
    pose proof Hr as Hr'; pose proof Hg as Hg'; pose proof Hb as Hb'. unfold is_byte in Hr', Hg', Hb'.
    exists [], [Integer (disc code); P ":"%ch; Integer 2; P ":"%ch; P ":"%ch; Integer r;
                P ":"%ch; Integer g; P ":"%ch; Integer b], [], "m"%ch.
    destruct Hf as [[-> ->]|[[-> ->]|[-> ->]]];
      (split; [eval_wire|split; [eval_seq|]]); (eapply parse_once; [eval_parse; eval_numbers; rewrite Ec; reflexivity|reflexivity]).
  - pose proof Hr as Hr'; pose proof Hg as Hg'; pose proof Hb as Hb'; pose proof Ha as Ha'.
    unfold is_byte in Hr', Hg', Hb', Ha'.
    exists [], [Integer (disc code); P ":"%ch; Integer 6; P ":"%ch; P ":"%ch; Integer r;
                P ":"%ch; Integer g; P ":"%ch; Integer b; P ":"%ch; Integer a], [], "m"%ch.
    destruct Hf as [[-> ->]|[[-> ->]|[-> ->]]];
      (split; [eval_wire|split; [eval_seq|]]); eval_csi.
Qed.

Lemma palette_reads_back f code idx :
  color_code f code -> is_byte idx ->
  reads_back (dec (disc code) ++ bs ":5:" ++ dec idx ++ bs "m") (CSI_Sgr (f (PaletteIndex idx))).
Proof.
  intros Hf Hi. pose proof Hi as Hi'. unfold is_byte in Hi'.
  exists [], [Integer (disc code); P ":"%ch; Integer 5; P ":"%ch; Integer idx], [], "m"%ch.
  destruct Hf as [[-> ->]|[[-> ->]|[-> ->]]]; (split; [eval_wire|split; [eval_seq|]]); eval_csi.
Qed.

Lemma ansi_find idx (c : AnsiColor) : from_i64 idx = Some c -> disc c = idx.
Proof.
  intros H. apply List.find_some in H as [_ H]. by apply Z.eqb_eq in H.
Qed.

Lemma ansi_reads_back f code short idx :
  (f = Sgr_Foreground /\ code = SgrCode_ForegroundColor /\ short = sgr_foreground) \/
  (f = Sgr_Background /\ code = SgrCode_BackgroundColor /\ short = sgr_background) ->
  is_byte idx ->
  reads_back (sgr_ansi_color idx code short) (CSI_Sgr (f (PaletteIndex idx))).
Proof.
  intros Hf Hi. unfold sgr_ansi_color. destruct (from_i64 idx) as [c|] eqn:E.
  - apply ansi_find in E as <-. by destruct Hf as [(-> & -> & ->)|(-> & -> & ->)]; destruct c; closed.
  - apply palette_reads_back; [|done]. unfold color_code.
    destruct Hf as [(-> & -> & _)|(-> & -> & _)]; auto.
Qed.

Lemma Sgr_reads_back s : Sgr_wf s -> reads_back (Sgr_fmt s) (CSI_Sgr s).
Proof.
  destruct s as [|[]|[]|[|i|c]|[]|[]|[]|[]|[]|[|n]|[|i|c]|[|i|c]|[]|[]];
    cbn [Sgr_wf Sgr_fmt ColorSpec_wf]; intros H;
    lazymatch type of H with True => closed | _ => idtac end.
  - apply palette_reads_back; [|done]. unfold color_code. auto.
  - apply true_color_reads_back; [|done]. unfold color_code. auto.
  - assert (Hn : n = 1 \/ n = 2 \/ n = 3 \/ n = 4 \/ n = 5 \/ n = 6 \/ n = 7 \/ n = 8 \/ n = 9) by lia.
    clear H. destruct_or! Hn; subst n; closed.
  - apply ansi_reads_back; [auto|done].
  - apply true_color_reads_back; [|done]. unfold color_code. auto.
  - apply ansi_reads_back; [auto|done].
  - apply true_color_reads_back; [|done]. unfold color_code. auto.
Qed.

(** *** Windows *)

Definition i64_nonneg (n : Z) : Prop := 0 <= n <= i64_max.

Definition opt_i64 (o : option Z) : Prop := match o with Some n => i64_nonneg n | None => True end.

Definition Window_wf (w : Window) : Prop :=
  match w with
  | MoveWindow x y => i64_nonneg x /\ i64_nonneg y
  | ResizeWindowPixels w h | ResizeWindowCells w h | ReportCellSizePixelsResponse w h =>
      opt_i64 w /\ opt_i64 h
  | ChecksumRectangularArea r p t l b ri =>
      i64_nonneg r /\ i64_nonneg p /\ OneBased_wf t /\ OneBased_wf l /\ OneBased_wf b /\
      OneBased_wf ri
  | _ => True
  end.

(** A numbered operation with two optional arguments. *)
Ltac two_args code h w :=
  destruct h as [h|], w as [w|];
  [ sequence (@nil Z) [Integer code; P ";"%ch; Integer h; P ";"%ch; Integer w] (@nil Z) "t"%ch
  | sequence (@nil Z) [Integer code; P ";"%ch; Integer h; P ";"%ch] (@nil Z) "t"%ch
  | sequence (@nil Z) [Integer code; P ";"%ch; P ";"%ch; Integer w] (@nil Z) "t"%ch
  | sequence (@nil Z) [Integer code; P ";"%ch; P ";"%ch] (@nil Z) "t"%ch ].

Lemma Window_reads_back w : Window_wf w -> reads_back (Window_fmt w) (CSI_Window w).
Proof.
  destruct w as
    [ | |x y|w h| | | |w h| | | | | | | | | | | | | | |w h| | | | | | | | | | |r p [t] [l] [b] [ri]];
    cbn [Window_wf Window_fmt]; intros H;
    lazymatch type of H with True => closed | _ => idtac end.
  1-4: destruct H as [Hx Hy]; unfold opt_i64, i64_nonneg in *.
  - sequence (@nil Z) [Integer 3; P ";"%ch; Integer x; P ";"%ch; Integer y] (@nil Z) "t"%ch.
  - two_args 4 h w.
  - two_args 8 h w.
  - two_args 6 h w.
  - destruct H as (Hr & Hp & Ht & Hl & Hb & Hri). unfold i64_nonneg in *.
    pose proof (pos_u32_i64 _ Ht). pose proof (pos_u32_i64 _ Hl).
    pose proof (pos_u32_i64 _ Hb). pose proof (pos_u32_i64 _ Hri). cbn [ob_value] in *.
    sequence (@nil Z) [Integer r; P ";"%ch; Integer p; P ";"%ch; Integer t; P ";"%ch; Integer l;
      P ";"%ch; Integer b; P ";"%ch; Integer ri] (bs "*") "y"%ch.
Qed.

(** *** Lists of numbers *)

Definition semis (ns : list Z) : list CsiParam := concat (map (fun n => [P ";"%ch; Integer n]) ns).

Lemma semis_cons n ns : semis (n :: ns) = P ";"%ch :: Integer n :: semis ns.
Proof. done. Qed.

Lemma semis_length ns : length (semis ns) = (2 * length ns)%nat.
Proof. induction ns as [|n ns IH]; [done|]. rewrite semis_cons. cbn [length]. lia. Qed.

Lemma semis_wire ns :
  Forall i64_nonneg ns -> csi_wire (semis ns) = concat (map (fun n => bs ";" ++ dec n) ns).
Proof.
  induction 1 as [|n ns Hn _ IH]; [done|]. rewrite semis_cons. unfold csi_wire in *.
  cbn [map concat param_wire app]. rewrite IH, dec_nonneg by apply Hn. done.
Qed.

Lemma semis_ok ns :
  Forall i64_nonneg ns -> forallb sep_ok (semis ns) = true /\ no_adjacent true (semis ns) = true.
Proof.
  induction 1 as [|n ns Hn _ [IH1 IH2]]; [done|]. rewrite semis_cons.
  cbn [forallb sep_ok no_adjacent is_int negb andb]. by rewrite i64_in, IH1, IH2.
Qed.

Lemma cracked_semis n ns :
  cracked_parse (Integer n :: semis ns) = Some (map (fun n => Some (Integer n)) (n :: ns)).
Proof.
  revert n. induction ns as [|m ns IH]; intros n; [done|]. rewrite semis_cons.
  change (cracked_parse (Integer n :: P ";"%ch :: Integer m :: semis ns))
    with (l ← cracked_parse (Integer m :: semis ns); Some (Some (Integer n) :: l)).
  by rewrite IH.
Qed.

Lemma semis_seq_ok v ns final :
  i64_nonneg v -> Forall i64_nonneg ns -> (2 + 2 * length ns <= MAX_PARAMS)%nat ->
  rng 0x40 0x7e final = true ->
  csi_seq_ok (bs "?") (Integer v :: semis ns) [] final = true.
Proof.
  intros Hv Hns Hl Hf. destruct (semis_ok ns Hns) as [H1 H2]. unfold csi_seq_ok.
  cbn [forallb sep_ok no_adjacent is_int]. rewrite i64_in, H1, H2, Hf by done.
  cbn [length]. rewrite semis_length.
  rewrite (proj2 (Nat.leb_le (length (bs "?") + S (2 * length ns) + 0) MAX_PARAMS))
    by (cbn [bs length]; lia). reflexivity.
Qed.

(** *** Devices *)

(** The number an attribute is written with. *)
Definition attr_num (a : DeviceAttribute) : option Z :=
  match a with
  | DeviceAttribute_Code c => Some (disc c)
  | DeviceAttribute_Unspecified (Integer n) => Some n
  | DeviceAttribute_Unspecified (P _) => None
  end.

Definition attr_wf (a : DeviceAttribute) : Prop :=
  match a with
  | DeviceAttribute_Code _ => True
  | DeviceAttribute_Unspecified (Integer n) =>
      i64_nonneg n /\ (from_i64 n : option DeviceAttributeCodes) = None
  | DeviceAttribute_Unspecified (P _) => False
  end.

Definition max_values : nat := 126.

Definition DeviceAttributes_wf (a : DeviceAttributes) : Prop :=
  match a with
  | Vt220 l | Vt320 l | Vt420 l => Forall attr_wf l /\ (length l <= max_values)%nat
  | _ => True
  end.

Definition XtSmGraphics_wf (g : XtSmGraphics) : Prop :=
  match item g with
  | XtSmGraphicsItem_Unspecified n => i64_nonneg n /\ n <> 1 /\ n <> 2 /\ n <> 3
  | _ => True
  end /\
  i64_nonneg (action_or_status g) /\ Forall i64_nonneg (value g) /\
  (length (value g) < max_values)%nat.

(** A request for the terminal parameters is written as the reply to it. *)
Definition Device_wf (d : Device) : Prop :=
  match d with
  | Device_DeviceAttributes a => DeviceAttributes_wf a
  | RequestTerminalParameters _ => False
  | Device_XtSmGraphics g => XtSmGraphics_wf g
  | _ => True
  end.

Lemma attrs_nums l :
  Forall attr_wf l ->
  exists ns, length ns = length l /\ Forall i64_nonneg ns /\
    (forall leader, attributes_emit l leader
       = leader ++ concat (map (fun n => bs ";" ++ dec n) ns) ++ bs "c") /\
    attributes_from_params (semis ns) = l.
Proof.
  induction 1 as [|a l Ha _ (ns & Hl & Hns & Hemit & Hparse)]; [by exists []|].
  assert (exists n, attr_num a = Some n /\ i64_nonneg n /\
            attributes_from_params [Integer n] = [a]) as (n & En & Hn & Ep).
  { destruct a as [c|[n|b]]; cbn [attr_wf attr_num] in *; [| |done].
    - exists (disc c). split; [done|]. split; [by destruct c|].
      unfold attributes_from_params. cbn [omap list_omap]. by rewrite from_disc.
    - destruct Ha as [Hn E]. exists n. split; [done|]. split; [done|].
      unfold attributes_from_params. cbn [omap list_omap]. by rewrite E. }
  exists (n :: ns). split; [cbn; lia|]. split; [by apply List.Forall_cons|]. split.
  - intros leader. unfold attributes_emit in *. cbn [map concat].
    pose proof (Hemit []) as He. cbn [app] in He.
    rewrite <- !(app_assoc _ (concat _)), He. do 2 f_equal.
    destruct a as [c|[m|b]]; cbn [attr_num] in En; by simplify_eq.
  - rewrite semis_cons. unfold attributes_from_params in *. cbn [omap list_omap] in *.
    change ((";"%ch =? ";"%ch)) with true. cbn iota. rewrite Hparse.
    destruct (from_i64 n); by simplify_eq.
Qed.

(** A report with its attributes: the code and what it stands for. *)
Definition vt_report (v : Z) (f : DeviceAttributeFlags -> DeviceAttributes) : Prop :=
  (v = 62 /\ f = Vt220) \/ (v = 63 /\ f = Vt320) \/ (v = 64 /\ f = Vt420).

Lemma split_at_all {A} (l : list A) : split_at l (length l) = Some (l, []).
Proof. by rewrite split_at_Some, firstn_all, drop_all by lia. Qed.

Lemma secondary_vt v f rest s :
  vt_report v f ->
  secondary_device_attributes (P "?"%ch :: Integer v :: rest) s =
  Some (Some (Device_DeviceAttributes (f (attributes_from_params rest))), s).
Proof.
  intros Hv. unfold secondary_device_attributes, pat_exact. cbv zeta.
  assert (Ea : forall d : Device, advance_by (length (P "?"%ch :: Integer v :: rest))
                       (P "?"%ch :: Integer v :: rest) d s = Some (Some d, s)).
  { intros d. unfold advance_by. rewrite (lookup_ge_None_2 _ (length _)) by lia.
    by rewrite split_at_all. }
  destruct Hv as [[-> ->]|[[-> ->]|[-> ->]]]; cbn [pat_prefix pat_matches Z.eqb Pos.eqb andb];
    rewrite !andb_false_r; cbn [split_at mbind]; unfold of_panic;
    rewrite (split_at_Some (P "?"%ch :: _)) by (cbn; lia); apply Ea.
Qed.

Lemma attributes_reads_back v f l :
  vt_report v f -> Forall attr_wf l -> (length l <= max_values)%nat ->
  reads_back (attributes_emit l (bs "?" ++ dec v)) (CSI_Device (Device_DeviceAttributes (f l))).
Proof.
  intros Hv Hl Hlen. destruct (attrs_nums l Hl) as (ns & Hns & Hok & Hemit & Hparse).
  assert (Hvi : i64_nonneg v) by (destruct Hv as [[-> _]|[[-> _]|[-> _]]]; done).
  exists (bs "?"), (Integer v :: semis ns), [], "c"%ch. split; [|split].
  - rewrite Hemit, <- semis_wire by done. unfold csi_wire. cbn [map concat param_wire].
    rewrite dec_nonneg by apply Hvi. by rewrite <- !app_assoc.
  - apply semis_seq_ok; [done|done| |done]. unfold MAX_PARAMS, max_values in *. lia.
  - rewrite app_nil_r. eapply parse_once.
    + pose proof (secondary_vt v f (semis ns)) as E.
      change (parse_next (map P (bs "?") ++ Integer v :: semis ns) ?s)
        with ((d ← secondary_device_attributes (P "?"%ch :: Integer v :: semis ns);
               mret (CSI_Device d)) s).
      unfold mbind, PM_bind. rewrite E by done. by rewrite Hparse.
    + done.
Qed.

Lemma omap_ints vals :
  omap (fun p : option CsiParam => match p with Some (Integer n) => Some n | _ => None end)
    (map (fun n => Some (Integer n)) vals) = vals.
Proof. induction vals as [|v vals IH]; [done|]. cbn [map omap list_omap]. by rewrite IH. Qed.

Lemma XtSmGraphics_reads_back g :
  XtSmGraphics_wf g -> reads_back (Device_fmt (Device_XtSmGraphics g)) (CSI_Device (Device_XtSmGraphics g)).
Proof.
  destruct g as [it act vals]. unfold XtSmGraphics_wf. cbn [item action_or_status value Device_fmt].
  intros (Hit & Ha & Hv & Hl).
  assert (exists n, XtSmGraphicsItem_fmt it = dec n /\ i64_nonneg n /\
            (if n =? 1 then NumberOfColorRegisters
             else if n =? 2 then SixelGraphicsGeometry
             else if n =? 3 then RegisGraphicsGeometry
             else XtSmGraphicsItem_Unspecified n) = it) as (n & En & Hn & Ei).
  { destruct it as [| | |n]; [exists 1|exists 2|exists 3|];
      try (split; [done|]; split; [unfold i64_nonneg, i64_max; lia|done]).
    destruct Hit as (Hn & H1 & H2 & H3). exists n. split; [done|]. split; [done|].
    by rewrite !(proj2 (Z.eqb_neq _ _)) by done. }
  assert (Hall : Forall i64_nonneg (act :: vals)) by (by apply List.Forall_cons).
  exists (bs "?"), (Integer n :: semis (act :: vals)), [], "S"%ch. split; [|split].
  - pose proof (semis_wire (act :: vals) Hall) as E. unfold csi_wire in *.
    cbn [map concat param_wire] in *. rewrite En, (dec_nonneg n), E by apply Hn.
    by rewrite <- !app_assoc.
  - apply semis_seq_ok; [done|done| |done]. cbn [length]. unfold MAX_PARAMS, max_values in *. lia.
  - rewrite app_nil_r. eapply (parse_once _ _ _ (mkCSIParser false "S"%ch None _)); [|done].
    change (parse_next (map P (bs "?") ++ Integer n :: semis (act :: vals)) ?s)
      with (XtSmGraphics_parse (P "?"%ch :: Integer n :: semis (act :: vals)) s).
    unfold XtSmGraphics_parse.
    rewrite (split_at_Some (P "?"%ch :: _)) by (cbn; lia). cbn [drop].
    unfold mbind, PM_bind, of_panic at 1, of_opt at 1. rewrite cracked_semis.
    cbn -[split_at].
    unfold of_panic. rewrite (split_at_Some (Some (Integer n) :: _)) by (cbn; lia). cbn [drop].
    by rewrite Ei, drop_0, omap_ints.
Qed.

Lemma Device_reads_back d : Device_wf d -> reads_back (Device_fmt d) (CSI_Device d).
Proof.
  destruct d as [[| | |l|l|l]| | | | | | |n|g]; cbn [Device_wf DeviceAttributes_wf]; intros H;
    lazymatch type of H with True => closed | _ => idtac end.
  1-3: destruct H as [Hl Hlen].
  - apply (attributes_reads_back 62); [left|..]; done.
  - apply (attributes_reads_back 63); [right; left|..]; done.
  - apply (attributes_reads_back 64); [right; right|..]; done.
  - done.
  - by apply XtSmGraphics_reads_back.
Qed.

(** ** The round trip *)

(** The values whose written form is their own parse: numbers are in the range
    of the type that carries them (and a count is not 0, which means 1). *)
Definition CSI_wf (c : CSI) : Prop :=
  match c with
  | CSI_Sgr s => Sgr_wf s
  | CSI_Cursor c => Cursor_wf c
  | CSI_Edit e => Edit_wf e
  | CSI_Mode m => Mode_wf m
  | CSI_Device d => Device_wf d
  | CSI_Mouse m => Mouse_wf m
  | CSI_Window w => Window_wf w
  | CSI_Keyboard k => Keyboard_wf k
  | CSI_SelectCharacterPath _ n => i64_nonneg n
  | CSI_Unspecified _ => False
  end.

Lemma CSI_reads_back c : CSI_wf c -> reads_back (tail (tail (CSI_fmt c))) c.
Proof.
  destruct c; cbn [CSI_wf]; intros H; [..|done].
  - by apply Sgr_reads_back.
  - by apply Cursor_reads_back.
  - by apply Edit_reads_back.
  - by apply Mode_reads_back.
  - by apply Device_reads_back.
  - by apply Mouse_reads_back.
  - by apply Window_reads_back.
  - by apply Keyboard_reads_back.
  - by apply SelectCharacterPath_reads_back.
Qed.

Lemma CSI_fmt_intro c : CSI_fmt c = 27 :: "["%ch :: tail (tail (CSI_fmt c)).
Proof. done. Qed.

Section RoundTrip.
  Context {UP : Utf8Parse} {UL : Utf8ParseLaws UP}.

(** C4: writing a CSI value and reading the bytes is the identity: from any
    well-formed ground state [vtparse] reports exactly one dispatch for the
    bytes of [Display], and [CSI::parse] turns its parameters back into exactly
    the value that was written. *)
Theorem csi_display_parse p c :
  vt_wf p -> is_ground p = true -> CSI_wf c ->
  exists p' ps final,
    parse (CSI_fmt c) p = Some (p', [VtCsiDispatch ps false final]) /\
    csi_parse ps false final = Some [c] /\
    vt_wf p' /\ is_ground p' = true.
Proof.
  intros W G Hc. destruct (CSI_reads_back c Hc) as (priv & ps & inter & final & E & Hok & Hp).
  destruct (csi_sequence_ok p priv ps inter final W G Hok) as (p' & Ep & W' & G').
  exists p', (map P priv ++ ps ++ map P inter), final.
  rewrite CSI_fmt_intro, E. by split_and!.
Qed.

End RoundTrip.

Lemma csi_display_parse_witness :
  exists p' ps final,
    parse (CSI_fmt (CSI_Sgr (Sgr_Foreground (TrueColor (srgba_from_u8 1 20 255 128))))) vt_new
      = Some (p', [VtCsiDispatch ps false final]) /\
    csi_parse ps false final
      = Some [CSI_Sgr (Sgr_Foreground (TrueColor (srgba_from_u8 1 20 255 128)))] /\
    vt_wf p' /\ is_ground p' = true.
Proof.
  apply (csi_display_parse vt_new).
  - apply vt_new_wf.
  - reflexivity.
  - exists 1, 20, 255, 128. unfold is_byte. split_and!; lia || reflexivity.
Defined.
