(* ===== verification/CsiCompose.v ===== *)
(** Sequences that carry several actions, and the forms a colour can take: how
    [CsiParse.csi_parse] reads lists of SGR codes and of DEC private modes, the spellings of
    a true colour, and two values whose written form means something else. *)

From Stdlib Require Import ZArith Lia String.
From stdpp Require Import base numbers list option.
From S2P Require Import Prelude VtTables VtParse VtParseProps Color CsiTypes CsiParse CsiRoundTrip.
Local Open Scope Z_scope.

(** ** The iterator, item by item *)

(** An item that leaves [rest] to parse, and the last item. *)
Lemma collect_step fuel s c rest :
  csi_next s = Some (Some c, set_cp_params (Some rest) s) ->
  csi_collect (S fuel) s =
  (l ← csi_collect fuel (set_cp_params (Some rest) s); Some (c :: l)).
Proof. intros E. cbn [csi_collect]. by rewrite E. Qed.

Lemma collect_last fuel s c :
  csi_next s = Some (Some c, set_cp_params None s) -> csi_collect (S (S fuel)) s = Some [c].
Proof. intros E. cbn [csi_collect]. rewrite E. msimpl. unfold csi_next. by destruct s. Qed.

(** A family of items, one number each, separated by semicolons: if every
    item is read from its number whatever follows, the list is read item
    by item. [ok] says what the iterator's state keeps. *)
Section Items.
  Context (item_of : Z -> CSI -> Prop) (ok : CSIParser -> Prop).
  Context (ok_params : forall s p, ok s -> ok (set_cp_params p s)).
  Context (last_item : forall n c s, item_of n c -> ok s ->
             cp_params s = Some [Integer n] -> csi_next s = Some (Some c, set_cp_params None s)).
  Context (next_item : forall n c s m rest, item_of n c -> ok s ->
             cp_params s = Some (Integer n :: P ";"%ch :: Integer m :: rest) ->
             (forall p, List.In p rest -> sgr_param_ok p = true) ->
             csi_next s = Some (Some c, set_cp_params (Some (Integer m :: rest)) s)).

Lemma semis_params ns p : List.In p (semis ns) -> sgr_param_ok p = true.
Proof.
  induction ns as [|n ns IH]; [by intros []|]. rewrite semis_cons.
  intros [<-|[<-|H]]; [done|done|by apply IH].
Qed.

Lemma collect_items ns cs :
  Forall2 item_of ns cs -> forall n c s fuel, item_of n c -> ok s ->
  cp_params s = Some (Integer n :: semis ns) -> (S (length ns) < fuel)%nat ->
  csi_collect fuel s = Some (c :: cs).
Proof.
  induction 1 as [|m d ns cs Hm Hall IH]; intros n c s fuel Hn Hs Hp Hf.
  - destruct fuel as [|[|fuel]]; [lia|cbn in Hf; lia|]. apply collect_last. by eapply last_item.
  - destruct fuel as [|fuel]; [lia|]. rewrite semis_cons in Hp.
    rewrite (collect_step _ _ c (Integer m :: semis ns)).
    + rewrite (IH m d); [done|done|by apply ok_params|done|cbn in *; lia].
    + eapply next_item; [done|done|done|]. intros p. apply semis_params.
Qed.

End Items.

(** ** Lists of SGR codes *)

(** [CSI n m] means [s]. *)
Definition sgr_item (n : Z) (c : CSI) : Prop :=
  exists s, c = CSI_Sgr s /\ csi_parse [Integer n] false "m"%ch = Some [CSI_Sgr s].

Lemma sgr_item_dispatch n c :
  sgr_item n c ->
  exists s code, c = CSI_Sgr s /\ from_i64 n = Some code /\
    forall st, cp_params st = None -> sgr_dispatch code [Integer n] st = Some (Some s, st).
Proof.
  intros (s & -> & E). exists s.
  change (csi_parse [Integer n] false "m"%ch) with
    (csi_collect 3 (csi_parser [Integer n] false "m"%ch)) in E.
  cbn [csi_collect] in E.
  assert (En : csi_next (csi_parser [Integer n] false "m"%ch) =
    match (from_i64 n : option SgrCode) with
    | Some code =>
        match sgr_dispatch code [Integer n] (mkCSIParser false "m"%ch None [Integer n]) with
        | Some (Some s, st) => Some (Some (CSI_Sgr s), st)
        | Some (None, st) => Some (Some (CSI_Unspecified (mkUnspecified [Integer n]
                                           (cp_truncated st) (cp_control st))), st)
        | None => None
        end
    | None => Some (Some (CSI_Unspecified (mkUnspecified [Integer n] false "m"%ch)),
                    mkCSIParser false "m"%ch None [Integer n])
    end).
  { unfold csi_next, csi_parser. cbn [cp_params set_cp_params cp_truncated cp_control cp_orig_params].
    change (parse_next [Integer n] ?z) with ((x ← sgr [Integer n]; mret (CSI_Sgr x)) z).
    unfold sgr. cbn [forallb sgr_param_ok andb]. destruct (from_i64 n) as [code|]; [|done].
    unfold mbind, PM_bind. by destruct (sgr_dispatch _ _ _) as [[[?|] ?]|]. }
  rewrite En in E. clear En. destruct (from_i64 n) as [code|]; [|done].
  exists code. split; [done|]. split; [done|]. intros st Hst.
  destruct code; cbn in E; try discriminate E; injection E as <-; reflexivity.
Qed.

(** The iterator over an SGR sequence: its first parameter is a number. *)
Definition sgr_state (s : CSIParser) : Prop :=
  cp_control s = "m"%ch /\ exists v r, cp_orig_params s = Integer v :: r.

Lemma sgr_next n ps s :
  sgr_state s -> parse_next (Integer n :: ps) s = (x ← sgr (Integer n :: ps); mret (CSI_Sgr x)) s.
Proof. destruct s as [t c p o]. intros [Hc (v & r & Ho)]. cbn in Hc, Ho. by subst. Qed.

Lemma sgr_last n c s :
  sgr_item n c -> sgr_state s -> cp_params s = Some [Integer n] ->
  csi_next s = Some (Some c, set_cp_params None s).
Proof.
  intros (x & code & -> & Ec & Ed)%sgr_item_dispatch Hs Hp. unfold csi_next. rewrite Hp.
  rewrite sgr_next by done. unfold sgr. cbn [forallb sgr_param_ok andb]. rewrite Ec.
  unfold mbind, PM_bind. by rewrite Ed.
Qed.

Lemma sgr_more n c s m rest :
  sgr_item n c -> sgr_state s ->
  cp_params s = Some (Integer n :: P ";"%ch :: Integer m :: rest) ->
  (forall p, List.In p rest -> sgr_param_ok p = true) ->
  csi_next s = Some (Some c, set_cp_params (Some (Integer m :: rest)) s).
Proof.
  intros (x & code & -> & Ec & Ed)%sgr_item_dispatch Hs Hp Hr. unfold csi_next. rewrite Hp.
  rewrite sgr_next by done. unfold sgr.
  assert (Hok : forallb sgr_param_ok (Integer n :: P ";"%ch :: Integer m :: rest) = true)
    by (by apply forallb_forall in Hr; cbn; rewrite Hr).
  rewrite Hok, Ec. unfold mbind, PM_bind.
  specialize (Ed (set_cp_params None s) eq_refl).
  destruct code; cbn in Ed; try discriminate Ed; injection Ed as <-; reflexivity.
Qed.

(** an SGR sequence of several single-number codes, separated by semicolons, is
    read as the actions of its codes, in order: each as it is read alone. *)
Theorem sgr_codes_compose n ns c cs :
  Forall2 sgr_item (n :: ns) (c :: cs) ->
  csi_parse (Integer n :: semis ns) false "m"%ch = Some (c :: cs).
Proof.
  intros H. inversion H as [|? ? ? ? Hn Hns]; subst. unfold csi_parse.
  apply (collect_items sgr_item sgr_state (fun s p H => H) sgr_last sgr_more ns cs Hns n c).
  - done.
  - split; [done|]. by exists n, (semis ns).
  - done.
  - cbn [length]. rewrite semis_length. lia.
Qed.

(** ** Lists of DEC private modes *)

(** The final bytes of the mode sequences. *)
Definition mode_final (final : Z) (f : DecPrivateMode -> Mode) : Prop :=
  (final = "h"%ch /\ f = SetDecPrivateMode) \/ (final = "l"%ch /\ f = ResetDecPrivateMode) \/
  (final = "s"%ch /\ f = SaveDecPrivateMode) \/ (final = "r"%ch /\ f = RestoreDecPrivateMode).

Definition mode_item (f : DecPrivateMode -> Mode) (n : Z) (c : CSI) : Prop :=
  exists m, dec_mode_of n = Some m /\ c = CSI_Mode (f m).

(** The iterator over a mode sequence: the marker, then what is left. *)
Definition mode_state (final : Z) (s : CSIParser) : Prop :=
  cp_control s = final /\ exists r, cp_orig_params s = P "?"%ch :: r.

Lemma mode_next final f n ps s :
  mode_final final f -> mode_state final s ->
  parse_next (Integer n :: ps) s = (m ← dec_ (Integer n :: ps); mret (CSI_Mode (f m))) s.
Proof.
  destruct s as [t c p o]. intros Hf [Hc (r & Ho)]. cbn in Hc, Ho. subst c o.
  by destruct Hf as [[-> ->]|[[-> ->]|[[-> ->]|[-> ->]]]].
Qed.

Lemma mode_one final f n c s :
  mode_final final f -> mode_item f n c -> mode_state final s ->
  cp_params s = Some [Integer n] -> csi_next s = Some (Some c, set_cp_params None s).
Proof.
  intros Hf (m & Em & ->) Hs Hp. unfold csi_next. rewrite Hp, (mode_next _ f) by done.
  change (dec_ (Integer n :: ?ps)) with
    (d ← of_opt (dec_mode_of n); advance_by 1 (Integer n :: ps) d).
  unfold mbind, PM_bind, of_opt.
  by rewrite Em.
Qed.

Lemma mode_more final f n c s m rest :
  mode_final final f -> mode_item f n c -> mode_state final s ->
  cp_params s = Some (Integer n :: P ";"%ch :: Integer m :: rest) ->
  csi_next s = Some (Some c, set_cp_params (Some (Integer m :: rest)) s).
Proof.
  intros Hf (d & Ed & ->) Hs Hp. unfold csi_next. rewrite Hp, (mode_next _ f) by done.
  change (dec_ (Integer n :: ?ps)) with
    (d ← of_opt (dec_mode_of n); advance_by 1 (Integer n :: ps) d).
  unfold mbind, PM_bind, of_opt.
  by rewrite Ed.
Qed.

(** The first step skips the marker: it is the step of an iterator that stands behind it. *)
Lemma mode_first final f n rest :
  mode_final final f -> is_Some (dec_mode_of n) ->
  let s := csi_parser (P "?"%ch :: Integer n :: rest) false final in
  csi_next s = csi_next (set_cp_params (Some (Integer n :: rest)) s).
Proof.
  intros Hf [d Ed] s. unfold csi_next at 2. cbn [cp_params set_cp_params].
  rewrite (mode_next final f) by (done || (split; [done|by eexists])).
  unfold csi_next, s, csi_parser. cbn [cp_params].
  assert (E : parse_next (P "?"%ch :: Integer n :: rest)
                (mkCSIParser false final None (P "?"%ch :: Integer n :: rest)) =
    (q ← focus (P "?"%ch :: Integer n :: rest) 1 0; m ← dec_ q; mret (CSI_Mode (f m)))
      (mkCSIParser false final None (P "?"%ch :: Integer n :: rest)))
    by (by destruct Hf as [[-> ->]|[[-> ->]|[[-> ->]|[-> ->]]]]).
  unfold set_cp_params. cbn [cp_truncated cp_control cp_orig_params]. rewrite E.
  unfold mbind at 1, PM_bind at 1. rewrite focus_self.
  change (dec_ (Integer n :: rest)) with
    (d ← of_opt (dec_mode_of n); advance_by 1 (Integer n :: rest) d).
  unfold mbind, PM_bind, of_opt. rewrite Ed. unfold advance_by.
  by destruct (split_at _ _) as [[? ?]|].
Qed.

Lemma collect_cons fuel s s' :
  csi_next s = csi_next s' -> csi_collect fuel s = csi_collect fuel s'.
Proof. destruct fuel; [done|]. cbn [csi_collect]. by intros ->. Qed.

(** a DEC private mode sequence sets, resets, saves or restores each of its modes,
    in order: the marker applies to the whole list. *)
Theorem dec_modes_compose final f m ms :
  mode_final final f -> Forall DecPrivateMode_wf (m :: ms) ->
  csi_parse (P "?"%ch :: Integer (DecPrivateMode_u16 m) :: semis (map DecPrivateMode_u16 ms))
    false final = Some (map (fun m => CSI_Mode (f m)) (m :: ms)).
Proof.
  intros Hf Hms.
  assert (Hitem : forall d, DecPrivateMode_wf d ->
            mode_item f (DecPrivateMode_u16 d) (CSI_Mode (f d)))
    by (intros d Hd; exists d; split; [apply (dec_mode_ok d Hd)|done]).
  apply Forall_cons_iff in Hms as [Hm Hms].
  assert (Hall : Forall2 (mode_item f) (map DecPrivateMode_u16 ms) (map (fun m => CSI_Mode (f m)) ms))
    by (induction Hms; constructor; auto).
  unfold csi_parse. rewrite (collect_cons _ _ _ (mode_first final f _ _ Hf (ex_intro _ m (proj2 (dec_mode_ok m Hm))))).
  apply (collect_items (mode_item f) (mode_state final) (fun s p H => H)
           (fun n c s => mode_one final f n c s Hf)
           (fun n c s k rest Hi Hs Hp _ => mode_more final f n c s k rest Hf Hi Hs Hp) _ _ Hall
           (DecPrivateMode_u16 m)).
  - by apply Hitem.
  - split; [done|by eexists].
  - done.
  - cbn [length]. rewrite semis_length. lia.
Qed.

(** ** The spellings of a colour *)

(** The forms xterm, ISO 8613-6 and others use for 24-bit colours; [cs] is
    the colour space, which is ignored. *)
Definition rgb_forms (code cs r g b : Z) : list (list CsiParam) :=
  let c := P ":"%ch in
  [ [Integer code; P ";"%ch; Integer 2; P ";"%ch; Integer r; P ";"%ch; Integer g; P ";"%ch; Integer b];
    [Integer code; c; Integer 2; c; Integer r; c; Integer g; c; Integer b];
    [Integer code; c; Integer 2; c; c; Integer r; c; Integer g; c; Integer b];
    [Integer code; c; Integer 2; c; Integer cs; c; Integer r; c; Integer g; c; Integer b] ].

(** The same with an alpha channel, an extension. *)
Definition rgba_forms (code cs r g b a : Z) : list (list CsiParam) :=
  let c := P ":"%ch in
  [ [Integer code; c; Integer 6; c; Integer r; c; Integer g; c; Integer b; c; Integer a];
    [Integer code; c; Integer 6; c; c; Integer r; c; Integer g; c; Integer b; c; Integer a];
    [Integer code; c; Integer 6; c; Integer cs; c; Integer r; c; Integer g; c; Integer b; c; Integer a] ].

(** every spelling of a true colour, for the foreground, the background and
    the underline, is read as exactly its channels, whatever the colour
    space; without an alpha channel the colour is opaque. *)
Theorem sgr_color_forms f code cs r g b a ps :
  color_code f code -> is_byte r -> is_byte g -> is_byte b -> is_byte a ->
  (List.In ps (rgb_forms (disc code) cs r g b) ->
   csi_parse ps false "m"%ch = Some [CSI_Sgr (f (TrueColor (srgba_from_u8 r g b 255)))]) /\
  (List.In ps (rgba_forms (disc code) cs r g b a) ->
   csi_parse ps false "m"%ch = Some [CSI_Sgr (f (TrueColor (srgba_from_u8 r g b a)))]).
Proof.
  intros Hf Hr Hg Hb Ha. pose proof (rgb_as_srgba r g b Hr Hg Hb) as Ec.
  unfold rgb_forms, rgba_forms. cbv zeta. split.
  - intros [<-|[<-|[<-|[<-|[]]]]]; destruct Hf as [[-> ->]|[[-> ->]|[-> ->]]];
      (eapply parse_once; [eval_parse; eval_numbers; rewrite Ec; reflexivity|reflexivity]).
  - intros [<-|[<-|[<-|[]]]]; destruct Hf as [[-> ->]|[[-> ->]|[-> ->]]]; eval_csi.
Qed.

(** ** Two values that are written as something else *)

(** querying an ANSI mode is written with the marker of a DEC private mode:
    the bytes for the insert mode are read as a query of the smooth scroll mode. *)
Theorem query_mode_reads_as_dec :
  CSI_fmt (CSI_Mode (QueryMode (TerminalMode_Code TerminalModeCode_Insert)))
    = CSI_fmt (CSI_Mode (QueryDecPrivateMode (DecPrivateMode_Code DecPrivateModeCode_SmoothScroll)))
  /\ csi_parse [Integer 4; P "$"%ch] false "p"%ch
    = Some [CSI_Mode (QueryMode (TerminalMode_Code TerminalModeCode_Insert))]
  /\ csi_parse [P "?"%ch; Integer 4; P "$"%ch] false "p"%ch
    = Some [CSI_Mode (QueryDecPrivateMode (DecPrivateMode_Code DecPrivateModeCode_SmoothScroll))].
Proof. vm_compute. split_and!; reflexivity. Qed.

(** pressing button 6 or 7 is written as a release: the bytes are read as the
    release of that button, for every position and all modifiers. *)
Theorem horizontal_wheel_reads_as_release x y modifiers :
  0 <= x <= u16_max -> 0 <= y <= u16_max -> Modifiers_wf modifiers ->
  reads_back (MouseReport_fmt (SGR1006 x y Button6Press modifiers))
    (CSI_Mouse (SGR1006 x y Button6Release modifiers)) /\
  reads_back (MouseReport_fmt (SGR1006 x y Button7Press modifiers))
    (CSI_Mouse (SGR1006 x y Button7Release modifiers)).
Proof.
  intros Hx Hy Hm. split.
  - by apply (Mouse_reads_back (SGR1006 x y Button6Release modifiers)).
  - by apply (Mouse_reads_back (SGR1006 x y Button7Release modifiers)).
Qed.

(** ** Witnesses *)

Lemma sgr_codes_compose_witness :
  csi_parse (Integer 1 :: semis [4; 31; 0]) false "m"%ch
    = Some [CSI_Sgr (Sgr_Intensity Intensity_Bold); CSI_Sgr (Sgr_Underline Underline_Single);
            CSI_Sgr (Sgr_Foreground (PaletteIndex 1)); CSI_Sgr Sgr_Reset].
Proof.
  apply (sgr_codes_compose 1 [4; 31; 0]).
  repeat constructor; (eexists; split; [reflexivity|vm_compute; reflexivity]).
Defined.

Lemma dec_modes_compose_witness :
  csi_parse (P "?"%ch :: Integer 1049 :: semis [25; 4242]) false "l"%ch
    = Some (map (fun m => CSI_Mode (ResetDecPrivateMode m))
        [DecPrivateMode_Code DecPrivateModeCode_ClearAndEnableAlternateScreen;
         DecPrivateMode_Code DecPrivateModeCode_ShowCursor; DecPrivateMode_Unspecified 4242]).
Proof.
  apply (dec_modes_compose "l"%ch ResetDecPrivateMode
    (DecPrivateMode_Code DecPrivateModeCode_ClearAndEnableAlternateScreen)
    [DecPrivateMode_Code DecPrivateModeCode_ShowCursor; DecPrivateMode_Unspecified 4242]).
  - right. left. done.
  - repeat constructor; unfold u16_max; lia.
Defined.

Lemma sgr_color_forms_witness :
  csi_parse [Integer 48; P ";"%ch; Integer 2; P ";"%ch; Integer 1; P ";"%ch; Integer 2; P ";"%ch; Integer 255]
      false "m"%ch
    = Some [CSI_Sgr (Sgr_Background (TrueColor (srgba_from_u8 1 2 255 255)))].
Proof.
  apply (sgr_color_forms Sgr_Background SgrCode_BackgroundColor 0 1 2 255 0
    [Integer 48; P ";"%ch; Integer 2; P ";"%ch; Integer 1; P ";"%ch; Integer 2; P ";"%ch; Integer 255]).
  - right. left. done.
  - unfold is_byte. lia.
  - unfold is_byte. lia.
  - unfold is_byte. lia.
  - unfold is_byte. lia.
  - left. reflexivity.
Defined.

Lemma horizontal_wheel_reads_as_release_witness :
  reads_back (MouseReport_fmt (SGR1006 3 65535 Button6Press 2))
    (CSI_Mouse (SGR1006 3 65535 Button6Release 2)) /\
  reads_back (MouseReport_fmt (SGR1006 3 65535 Button7Press 2))
    (CSI_Mouse (SGR1006 3 65535 Button7Release 2)).
Proof.
  apply (horizontal_wheel_reads_as_release 3 65535 2).
  - unfold u16_max. lia.
  - unfold u16_max. lia.
  - unfold Modifiers_wf. apply list_elem_of_In. right. left. done.
Defined.
