(* ===== verification/BinTree.v ===== *)
(** The zipper-based binary tree of [src/bintree/src/lib.rs]: the tree, the path
    back to the root, the cursor with every operation, and the theorems that a
    cursor is another representation of its tree: moves keep the tree, the
    traversals visit every position once in their order, and splitting and
    unsplitting a leaf are inverse and change the leaves as documented. *)

From Stdlib Require Import ZArith Lia.
From stdpp Require Import base numbers list option relations.
From S2P Require Import Prelude.

(** ** Data *)

Inductive Tree (L N : Type) : Type :=
| Empty
| Node (lf rt : Tree L N) (data : option N)
| Leaf (l : L).
Arguments Empty {L N}.
Arguments Node {L N} lf rt data.
Arguments Leaf {L N} l.

Inductive Path (L N : Type) : Type :=
| Top
| Left (rt : Tree L N) (data : option N) (up : Path L N)
| Right (lf : Tree L N) (data : option N) (up : Path L N).
Arguments Top {L N}.
Arguments Left {L N} rt data up.
Arguments Right {L N} lf data up.

Record Cursor (L N : Type) : Type := mkCursor { it : Tree L N; path : Path L N }.
Arguments mkCursor {L N} it path.
Arguments it {L N} c.
Arguments path {L N} c.

Inductive PathBranch : Set := IsLeft | IsRight.

Section BinTree.
  Context {L N : Type}.
  Implicit Types (t l r : Tree L N) (p : Path L N) (c : Cursor L N).

(** What the moving operations return: [Result<Self, Self>]. *)
Definition Moved : Type := result (Cursor L N) (Cursor L N).

(** [?] in those operations. *)
Definition and_then (m : Moved) (k : Cursor L N -> Moved) : Moved :=
  match m with Ok c => k c | Err c => Err c end.

(** The cursor of either outcome. *)
Definition moved (m : Moved) : Cursor L N :=
  match m with Ok c => c | Err c => c end.

(** ** Trees *)

(** [PartialEq::eq]. *)
Fixpoint tree_eq (leq : L -> L -> bool) (neq : N -> N -> bool) (t1 t2 : Tree L N) : bool :=
  match t1, t2 with
  | Empty, Empty => true
  | Node l1 r1 d1, Node l2 r2 d2 =>
      tree_eq leq neq l1 l2 && tree_eq leq neq r1 r2 &&
      match d1, d2 with
      | None, None => true
      | Some a, Some b => neq a b
      | _, _ => false
      end
  | Leaf a, Leaf b => leq a b
  | _, _ => false
  end.

Definition tree_new : Tree L N := Empty.

Definition is_empty t : bool := match t with Empty => true | _ => false end.

Definition cursor t : Cursor L N := mkCursor t Top.

Fixpoint num_leaves t : nat :=
  match t with
  | Empty => 0
  | Leaf _ => 1
  | Node l r _ => num_leaves l + num_leaves r
  end.

(** ** Cursors *)

Definition cursor_new : Cursor L N := mkCursor Empty Top.

Definition subtree c : Tree L N := it c.

Definition is_leaf c : bool := match it c with Leaf _ => true | _ => false end.
Definition is_left c : bool := match path c with Left _ _ _ => true | _ => false end.
Definition is_right c : bool := match path c with Right _ _ _ => true | _ => false end.
Definition is_top c : bool := match path c with Top => true | _ => false end.

Definition assign_top c (leaf : L) : Moved :=
  match it c, path c with
  | Empty, Top => Ok (mkCursor (Leaf leaf) (path c))
  | _, _ => Err c
  end.

(** A [&mut] to a part: the value, and the cursor once it was assigned. *)
Definition leaf_mut c : option (L * (L -> Cursor L N)) :=
  match it c with
  | Leaf l => Some (l, fun v => mkCursor (Leaf v) (path c))
  | _ => None
  end.

Definition node_mut c : option (option N * (option N -> Cursor L N)) :=
  match it c with
  | Node l r d => Some (d, fun v => mkCursor (Node l r v) (path c))
  | _ => None
  end.

(** [ParentIterator::next]: the item and the iterator's next path. *)
Definition parent_next p : option ((PathBranch * option N) * Path L N) :=
  match p with
  | Top => None
  | Left _ data up => Some ((IsLeft, data), up)
  | Right _ data up => Some ((IsRight, data), up)
  end.

Definition path_to_root c : Path L N := path c.

(** Draining the iterator. *)
Fixpoint parents (fuel : nat) p : option (list (PathBranch * option N)) :=
  match fuel with
  | O => None
  | S f =>
      match parent_next p with
      | None => Some []
      | Some (x, up) => xs ← parents f up; Some (x :: xs)
      end
  end.

Definition assign_node c (value : option N) : Moved :=
  match it c with
  | Node l r _ => Ok (mkCursor (Node l r value) (path c))
  | _ => Err c
  end.

(** [unsplit_leaf]; [None] is one of its [unreachable!()]s. *)
Definition unsplit_leaf c : option (result (Cursor L N * L * option N) (Cursor L N)) :=
  if negb (is_leaf c) || is_top c then Some (Err c)
  else
    match it c, path c with
    | Leaf l, Left rt data up => Some (Ok (mkCursor rt up, l, data))
    | Leaf l, Right lf data up => Some (Ok (mkCursor lf up, l, data))
    | Leaf _, Top => None
    | Empty, _ => None
    | Node _ _ _, _ => None
    end.

Definition split_node_and_insert_left c (to_insert : L) : Moved :=
  match it c with
  | Node lf rt data =>
      Ok (mkCursor (Node (Leaf to_insert) (Node lf rt data) None) (path c))
  | _ => Err c
  end.

Definition split_node_and_insert_right c (to_insert : L) : Moved :=
  match it c with
  | Node lf rt data =>
      Ok (mkCursor (Node (Node lf rt data) (Leaf to_insert) None) (path c))
  | _ => Err c
  end.

Definition split_leaf_and_insert_right c (rt : L) : Moved :=
  match it c with
  | Leaf lf => Ok (mkCursor (Node (Leaf lf) (Leaf rt) None) (path c))
  | _ => Err c
  end.

Definition split_leaf_and_insert_left c (lf : L) : Moved :=
  match it c with
  | Leaf rt => Ok (mkCursor (Node (Leaf lf) (Leaf rt) None) (path c))
  | _ => Err c
  end.

Definition go_left c : Moved :=
  match it c with
  | Node lf rt data => Ok (mkCursor lf (Left rt data (path c)))
  | _ => Err c
  end.

Definition go_right c : Moved :=
  match it c with
  | Node lf rt data => Ok (mkCursor rt (Right lf data (path c)))
  | _ => Err c
  end.

Definition go_up c : Moved :=
  match path c with
  | Top => Err c
  | Right lf data up => Ok (mkCursor (Node lf (it c) data) up)
  | Left rt data up => Ok (mkCursor (Node (it c) rt data) up)
  end.

(** The distance to the root: the fuel of the loops that climb. *)
Fixpoint depth p : nat :=
  match p with Top => 0 | Left _ _ up | Right _ _ up => S (depth up) end.

(** The loops of the two traversals, [None] when the fuel does not suffice. *)
Fixpoint preorder_climb (fuel : nat) c : option Moved :=
  match fuel with
  | O => None
  | S f =>
      match go_up c with
      | Err c => Some (Err c)
      | Ok c =>
          if is_top c then Some (Err c)
          else if is_left c then Some (and_then (go_up c) go_right)
          else preorder_climb f c
      end
  end.

Definition preorder_next c : option Moved :=
  if is_leaf c then
    if is_left c then Some (and_then (go_up c) go_right)
    else preorder_climb (S (depth (path c))) c
  else Some (go_left c).

Fixpoint postorder_climb (fuel : nat) c : option Moved :=
  match fuel with
  | O => None
  | S f =>
      match go_up c with
      | Err c => Some (Err c)
      | Ok c =>
          if is_top c then Some (Err c)
          else if is_right c then Some (and_then (go_up c) go_left)
          else postorder_climb f c
      end
  end.

Definition postorder_next c : option Moved :=
  if is_leaf c then
    if is_right c then Some (and_then (go_up c) go_left)
    else postorder_climb (S (depth (path c))) c
  else Some (go_right c).

(** The loop of [go_to_nth_leaf]; a round moves to the next position, so the
    number of positions of the tree bounds the rounds. *)
Fixpoint nth_leaf_loop (fuel : nat) c (n next : nat) : option Moved :=
  match fuel with
  | O => None
  | S f =>
      if is_leaf c && (next =? n)%nat then Some (Ok c)
      else
        let next := if is_leaf c then S next else next in
        m ← preorder_next c;
        match m with
        | Ok c => nth_leaf_loop f c n next
        | Err c => Some (Err c)
        end
  end.

(** The root, by climbing: [tree]. *)
Fixpoint tree_loop (fuel : nat) c : option (Tree L N) :=
  match fuel with
  | O => None
  | S f =>
      match go_up c with
      | Ok up => tree_loop f up
      | Err top => Some (it top)
      end
  end.

Definition tree c : option (Tree L N) := tree_loop (S (depth (path c))) c.

(** ** Reference definitions *)

(** The tree a cursor stands for. *)
Fixpoint plug t p : Tree L N :=
  match p with
  | Top => t
  | Left rt data up => plug (Node t rt data) up
  | Right lf data up => plug (Node lf t data) up
  end.

Fixpoint size t : nat :=
  match t with Node l r _ => S (size l + size r) | _ => 1 end.

Definition root c : Tree L N := plug (it c) (path c).

Definition go_to_nth_leaf c (n : nat) : option Moved :=
  nth_leaf_loop (S (size (root c))) c n 0.

(** No [Empty] below a [Node]: the documented shape. *)
Fixpoint proper t : Prop :=
  match t with Empty => False | Leaf _ => True | Node l r _ => proper l /\ proper r end.

Fixpoint proper_path p : Prop :=
  match p with Top => True | Left t _ up | Right t _ up => proper t /\ proper_path up end.

Definition tree_wf t : Prop := t = Empty \/ proper t.

Fixpoint leaves t : list L :=
  match t with Empty => [] | Leaf a => [a] | Node l r _ => leaves l ++ leaves r end.

(** The leaves before and after the position. *)
Fixpoint leaves_before p : list L :=
  match p with
  | Top => []
  | Left _ _ up => leaves_before up
  | Right lf _ up => leaves_before up ++ leaves lf
  end.

Fixpoint leaves_after p : list L :=
  match p with
  | Top => []
  | Left rt _ up => leaves rt ++ leaves_after up
  | Right _ _ up => leaves_after up
  end.

(** The positions of a tree, node first, then left, then right. *)
Fixpoint positions t p : list (Cursor L N) :=
  mkCursor t p ::
  match t with
  | Node l r d => positions l (Left r d p) ++ positions r (Right l d p)
  | _ => []
  end.

(** Node first, then right, then left. *)
Fixpoint positions_mirror t p : list (Cursor L N) :=
  mkCursor t p ::
  match t with
  | Node l r d => positions_mirror r (Right l d p) ++ positions_mirror l (Left r d p)
  | _ => []
  end.

(** Running a traversal from a cursor visits [cs] in order and then stops. *)
Inductive visits (next : Cursor L N -> option Moved) : Cursor L N -> list (Cursor L N) -> Prop :=
| visits_last c c' : next c = Some (Err c') -> visits next c [c]
| visits_step c c' cs : next c = Some (Ok c') -> visits next c' cs -> visits next c (c :: cs).

(** ** Lemmas *)

Lemma tree_loop_plug fuel c :
  (depth (path c) < fuel)%nat -> tree_loop fuel c = Some (root c).
Proof.
  revert c. induction fuel as [|f IH]; intros [t p] H; [lia|].
  destruct p; cbn in *; [done| |]; rewrite IH; cbn; (done || lia).
Qed.

Lemma tree_root c : tree c = Some (root c).
Proof. apply tree_loop_plug. lia. Qed.

Lemma go_up_root c : root (moved (go_up c)) = root c.
Proof. destruct c as [t []]; done. Qed.

Lemma go_left_root c : root (moved (go_left c)) = root c.
Proof. destruct c as [[] p]; done. Qed.

Lemma go_right_root c : root (moved (go_right c)) = root c.
Proof. destruct c as [[] p]; done. Qed.

Lemma and_then_root m k :
  (forall c, root (moved (k c)) = root c) -> root (moved (and_then m k)) = root (moved m).
Proof. destruct m; cbn; [auto|done]. Qed.

Lemma preorder_climb_total fuel c :
  (depth (path c) < fuel)%nat ->
  exists m, preorder_climb fuel c = Some m /\ root (moved m) = root c.
Proof.
  revert c. induction fuel as [|f IH]; intros c H; [lia|]. cbn.
  pose proof (go_up_root c) as Hr. destruct (go_up c) as [c'|c'] eqn:E; [|eauto].
  cbn in Hr. destruct (is_top c'); [eauto|]. destruct (is_left c').
  - eexists; split; [done|]. rewrite and_then_root by apply go_right_root.
    by rewrite go_up_root.
  - destruct (IH c') as (m & Em & Hm); [|exists m; by rewrite Hm].
    destruct c as [t []]; cbn in *; simplify_eq; cbn in *; lia.
Qed.

Lemma preorder_next_total c :
  exists m, preorder_next c = Some m /\ root (moved m) = root c.
Proof.
  unfold preorder_next. destruct (is_leaf c); [destruct (is_left c)|].
  - eexists; split; [done|]. rewrite and_then_root by apply go_right_root. apply go_up_root.
  - apply preorder_climb_total. lia.
  - eexists; split; [done|]. apply go_left_root.
Qed.

(** Where a preorder traversal goes after the subtree at a position. *)
Fixpoint after t p : option (Cursor L N) :=
  match p with
  | Top => None
  | Left rt data up => Some (mkCursor rt (Right t data up))
  | Right lf data up => after (Node lf t data) up
  end.

Lemma preorder_climb_after fuel t p :
  (depth p < fuel)%nat -> (forall r d u, p <> Left r d u) ->
  match after t p with
  | Some c => preorder_climb fuel (mkCursor t p) = Some (Ok c)
  | None => exists c, preorder_climb fuel (mkCursor t p) = Some (Err c)
  end.
Proof.
  revert t p. induction fuel as [|f IH]; intros t p H Hp; [lia|].
  destruct p as [|r d u|l d u]; cbn; [eauto|by destruct (Hp r d u)|].
  destruct u as [|r2 d2 u2|l2 d2 u2]; cbn; [eauto|done|].
  cbn in H. apply (IH (Node l t d) (Right l2 d2 u2)); [cbn; lia|done].
Qed.

Lemma preorder_next_leaf a p :
  match after (Leaf a) p with
  | Some c => preorder_next (mkCursor (Leaf a) p) = Some (Ok c)
  | None => exists c, preorder_next (mkCursor (Leaf a) p) = Some (Err c)
  end.
Proof.
  unfold preorder_next. cbn [is_leaf it is_left path].
  destruct p as [|r d u|l d u].
  - apply preorder_climb_after; [cbn; lia|done].
  - done.
  - apply preorder_climb_after; [cbn; lia|done].
Qed.

(** The traversal covers a subtree and goes on after it. *)
Lemma preorder_covers t p cs :
  proper t ->
  (match after t p with
   | Some c => visits preorder_next c cs
   | None => cs = []
   end) ->
  visits preorder_next (mkCursor t p) (positions t p ++ cs).
Proof.
  revert p cs. induction t as [|l IHl r IHr d|a]; intros p cs Hp Hk; [done| |].
  - destruct Hp as [Hl Hr]. cbn [positions]. rewrite <- app_comm_cons, <- app_assoc.
    eapply visits_step; [done|]. apply IHl; [done|]. cbn [after].
    apply IHr; [done|]. done.
  - cbn [positions app]. pose proof (preorder_next_leaf a p) as H.
    destruct (after (Leaf a) p) as [c|].
    + by eapply visits_step.
    + subst cs. destruct H as [c' E]. by eapply visits_last.
Qed.

Lemma preorder_visits_ok t : proper t -> visits preorder_next (cursor t) (positions t Top).
Proof. intros H. rewrite <- (app_nil_r (positions t Top)). by apply preorder_covers. Qed.

(** a preorder traversal from the root visits every position of a proper tree exactly
    once, node before left subtree before right subtree, and then stops. *)
Theorem preorder_visits_all t :
  proper t -> visits preorder_next (cursor t) (positions t Top).
Proof. apply preorder_visits_ok. Qed.

(** ** Mirror images *)

Fixpoint mirror t : Tree L N :=
  match t with Node l r d => Node (mirror r) (mirror l) d | _ => t end.

Fixpoint mirror_path p : Path L N :=
  match p with
  | Top => Top
  | Left t d up => Right (mirror t) d (mirror_path up)
  | Right t d up => Left (mirror t) d (mirror_path up)
  end.

Definition mirror_cursor c : Cursor L N := mkCursor (mirror (it c)) (mirror_path (path c)).

Definition mirror_moved (m : Moved) : Moved :=
  match m with Ok c => Ok (mirror_cursor c) | Err c => Err (mirror_cursor c) end.

Lemma mirror_involutive t : mirror (mirror t) = t.
Proof. induction t; cbn; congruence. Qed.

Lemma mirror_path_involutive p : mirror_path (mirror_path p) = p.
Proof. induction p; cbn; rewrite ?mirror_involutive; congruence. Qed.

Lemma mirror_cursor_involutive c : mirror_cursor (mirror_cursor c) = c.
Proof.
  destruct c as [t p]. unfold mirror_cursor. cbn.
  by rewrite mirror_involutive, mirror_path_involutive.
Qed.

Lemma go_up_mirror c : go_up (mirror_cursor c) = mirror_moved (go_up c).
Proof. destruct c as [t []]; done. Qed.

Lemma go_left_mirror c : go_left (mirror_cursor c) = mirror_moved (go_right c).
Proof. destruct c as [[] p]; done. Qed.

Lemma go_right_mirror c : go_right (mirror_cursor c) = mirror_moved (go_left c).
Proof. destruct c as [[] p]; done. Qed.

Lemma up_then_mirror c k k' :
  (forall c, k' (mirror_cursor c) = mirror_moved (k c)) ->
  and_then (go_up (mirror_cursor c)) k' = mirror_moved (and_then (go_up c) k).
Proof. intros H. rewrite go_up_mirror. destruct (go_up c); cbn; auto. Qed.

Lemma is_top_mirror c : is_top (mirror_cursor c) = is_top c.
Proof. by destruct c as [t []]. Qed.

Lemma is_leaf_mirror c : is_leaf (mirror_cursor c) = is_leaf c.
Proof. by destruct c as [[] p]. Qed.

Lemma is_right_mirror c : is_right (mirror_cursor c) = is_left c.
Proof. by destruct c as [t []]. Qed.

Lemma depth_mirror p : depth (mirror_path p) = depth p.
Proof. induction p; cbn; congruence. Qed.

Lemma climb_mirror fuel c :
  postorder_climb fuel (mirror_cursor c) =
    match preorder_climb fuel c with Some m => Some (mirror_moved m) | None => None end.
Proof.
  revert c. induction fuel as [|f IH]; intros c; [done|]. cbn.
  rewrite go_up_mirror. destruct (go_up c) as [c'|c']; cbn; [|done].
  rewrite is_top_mirror, is_right_mirror. destruct (is_top c'); [done|].
  destruct (is_left c'); [|apply IH]. f_equal. apply up_then_mirror, go_left_mirror.
Qed.

Lemma postorder_mirror c :
  postorder_next (mirror_cursor c) =
    match preorder_next c with Some m => Some (mirror_moved m) | None => None end.
Proof.
  unfold postorder_next, preorder_next.
  rewrite is_leaf_mirror, is_right_mirror. destruct (is_leaf c).
  - destruct (is_left c); [f_equal; apply up_then_mirror, go_left_mirror|].
    cbn [path mirror_cursor]. rewrite depth_mirror. apply climb_mirror.
  - f_equal. apply go_right_mirror.
Qed.

Lemma visits_mirror c cs :
  visits preorder_next c cs -> visits postorder_next (mirror_cursor c) (map mirror_cursor cs).
Proof.
  induction 1 as [c c' E|c c' cs E _ IH]; cbn.
  - eapply visits_last. by rewrite postorder_mirror, E.
  - eapply visits_step; [|exact IH]. by rewrite postorder_mirror, E.
Qed.

Lemma positions_mirrored t p :
  map mirror_cursor (positions t p) = positions_mirror (mirror t) (mirror_path p).
Proof.
  revert p. induction t as [|l IHl r IHr d|a]; intros p; [done| |done].
  cbn [positions positions_mirror mirror map]. rewrite map_app, IHl, IHr. done.
Qed.

Lemma proper_mirror t : proper (mirror t) <-> proper t.
Proof. induction t; cbn; tauto. Qed.

(** [postorder_next] visits every position of a proper tree exactly once, but node before right
    subtree before left subtree: the mirror image of the preorder, not the
    postorder its comment announces. *)
Theorem postorder_is_mirrored_preorder t :
  proper t -> visits postorder_next (cursor t) (positions_mirror t Top).
Proof.
  intros H. apply proper_mirror in H.
  pose proof (visits_mirror _ _ (preorder_visits_ok _ H)) as V.
  rewrite positions_mirrored, mirror_involutive in V. unfold mirror_cursor, cursor in V.
  cbn in V. by rewrite mirror_involutive in V.
Qed.

(** ** Leaves *)

Lemma leaves_num t : length (leaves t) = num_leaves t.
Proof. induction t; cbn; rewrite ?length_app; lia. Qed.

Lemma leaves_root c :
  leaves (root c) = leaves_before (path c) ++ leaves (it c) ++ leaves_after (path c).
Proof.
  destruct c as [t p]. unfold root. cbn. revert t.
  induction p as [|t2 d u IH|t2 d u IH]; intros t; cbn.
  - by rewrite app_nil_r.
  - rewrite IH. cbn. by rewrite <- !app_assoc.
  - rewrite IH. cbn. by rewrite <- !app_assoc.
Qed.

Lemma positions_size t p : length (positions t p) = size t.
Proof. revert p. induction t; intros p; cbn; rewrite ?length_app; auto. Qed.

(** The leaf positions, in order, are the leaves. *)
Lemma leaf_positions t p n a :
  leaves t !! n = Some a ->
  exists q, List.filter is_leaf (positions t p) !! n = Some (mkCursor (Leaf a) q) /\
    plug (Leaf a) q = plug t p /\ length (leaves_before q) = (length (leaves_before p) + n)%nat.
Proof.
  revert p n. induction t as [|l IHl r IHr d|b]; intros p n H; [done| |].
  - cbn [positions List.filter is_leaf it leaves] in *. rewrite List.filter_app.
    assert (Hlen : forall t p, length (List.filter is_leaf (positions t p)) = length (leaves t)).
    { clear. induction t; intros p; cbn; [done| |done].
      rewrite List.filter_app, !length_app. congruence. }
    destruct (decide (n < length (leaves l))%nat) as [Hn|Hn].
    + rewrite lookup_app_l in H by done. destruct (IHl (Left r d p) n H) as (q & E & R & B).
      exists q. rewrite lookup_app_l by (by rewrite Hlen). done.
    + rewrite lookup_app_r in H by lia.
      destruct (IHr (Right l d p) _ H) as (q & E & R & B).
      exists q. rewrite lookup_app_r by (rewrite Hlen; lia). rewrite Hlen. split; [done|].
      split; [done|]. rewrite B. cbn. rewrite length_app. lia.
  - cbn in *. destruct n; [|done]. change (Some b = Some a) in H. injection H as ->. exists p. rewrite Nat.add_0_r. done.
Qed.

Lemma leaf_positions_length t p :
  length (List.filter is_leaf (positions t p)) = num_leaves t.
Proof.
  revert p. induction t; intros p; cbn; [done| |done].
  rewrite List.filter_app, !length_app. congruence.
Qed.

(** The loop of [go_to_nth_leaf] along a traversal. *)
Lemma nth_leaf_loop_visits c cs fuel n next :
  visits preorder_next c cs -> (length cs <= fuel)%nat -> (next <= n)%nat ->
  match List.filter is_leaf cs !! (n - next)%nat with
  | Some c' => nth_leaf_loop fuel c n next = Some (Ok c')
  | None => exists c', nth_leaf_loop fuel c n next = Some (Err c') /\ root c' = root c
  end.
Proof.
  intros V. revert fuel next. induction V as [c c' E|c c' cs E V IH]; intros fuel next Hf Hn;
    (destruct fuel as [|f]; [cbn in Hf; lia|]); cbn [length] in Hf; cbn [nth_leaf_loop List.filter].
  - assert (Hr : root c' = root c).
    { destruct (preorder_next_total c) as (m & Em & Hm). rewrite E in Em.
      injection Em as <-. done. }
    destruct (is_leaf c); cbn [andb].
    + destruct (Nat.eqb_spec next n) as [->|Hne].
      * by rewrite Nat.sub_diag.
      * replace (n - next)%nat with (S (n - next - 1)) by lia.
        rewrite lookup_cons, lookup_nil, E. msimpl. eauto.
    + rewrite lookup_nil, E. msimpl. eauto.
  - assert (Hr : root c' = root c).
    { destruct (preorder_next_total c) as (m & Em & Hm). rewrite E in Em.
      injection Em as <-. done. }
    destruct (is_leaf c); cbn [andb].
    + destruct (Nat.eqb_spec next n) as [->|Hne].
      * by rewrite Nat.sub_diag.
      * replace (n - next)%nat with (S (n - S next)) by lia.
        rewrite lookup_cons, E. msimpl.
        specialize (IH f (S next) ltac:(lia) ltac:(lia)). by rewrite Hr in IH.
    + rewrite E. msimpl. specialize (IH f next ltac:(lia) ltac:(lia)). by rewrite Hr in IH.
Qed.

Lemma go_to_nth_leaf_ok t n :
  proper t ->
  ((n < num_leaves t)%nat ->
     exists c a, go_to_nth_leaf (cursor t) n = Some (Ok c) /\ it c = Leaf a /\
       leaves t !! n = Some a /\ tree c = Some t /\ length (leaves_before (path c)) = n) /\
  ((num_leaves t <= n)%nat ->
     exists c, go_to_nth_leaf (cursor t) n = Some (Err c) /\ tree c = Some t).
Proof.
  intros Hp. pose proof (preorder_visits_ok t Hp) as V.
  pose proof (nth_leaf_loop_visits _ _ (S (size t)) n 0 V) as H.
  rewrite positions_size in H. specialize (H ltac:(lia) ltac:(lia)).
  rewrite Nat.sub_0_r in H. split; intros Hn.
  - destruct (lookup_lt_is_Some_2 (leaves t) n) as [a Ha]; [by rewrite leaves_num|].
    destruct (leaf_positions t Top n a Ha) as (q & E & R & B). rewrite E in H.
    exists (mkCursor (Leaf a) q), a. split_and!; try done. rewrite tree_root. by f_equal.
  - rewrite lookup_ge_None_2 in H by (by rewrite leaf_positions_length).
    destruct H as (c & E & R). exists c. split; [done|]. rewrite tree_root. by f_equal.
Qed.

(** [go_to_nth_leaf n] from the root stops, keeps the tree, and on a tree
    of more than [n] leaves stands on the leaf that has exactly [n] leaves
    before it; on smaller trees it fails. *)
Theorem go_to_nth_leaf_spec t n :
  proper t ->
  ((n < num_leaves t)%nat ->
     exists c a, go_to_nth_leaf (cursor t) n = Some (Ok c) /\ it c = Leaf a /\
       leaves t !! n = Some a /\ tree c = Some t /\ length (leaves_before (path c)) = n) /\
  ((num_leaves t <= n)%nat ->
     exists c, go_to_nth_leaf (cursor t) n = Some (Err c) /\ tree c = Some t).
Proof. apply go_to_nth_leaf_ok. Qed.

(** [unsplit_leaf] never reaches its unreachable branches; it succeeds exactly on a
    leaf below the root, removes that leaf and nothing else, and leaves
    the cursor on the former sibling. *)
Theorem unsplit_leaf_spec c :
  match unsplit_leaf c with
  | None => False
  | Some (Err c') => c' = c /\ (is_leaf c = false \/ is_top c = true)
  | Some (Ok (c', a, d)) =>
      it c = Leaf a /\ is_top c = false /\
      leaves (root c) = leaves_before (path c) ++ a :: leaves_after (path c) /\
      leaves (root c') = leaves_before (path c) ++ leaves_after (path c) /\
      parent_next (path c) = Some (if is_left c then IsLeft else IsRight, d, path c')
  end.
Proof.
  pose proof (leaves_root c) as H. destruct c as [[|l r d|a] [|t d' u|t d' u]]; cbn -[root] in *; auto.
  - split_and!; try done. by rewrite leaves_root.
  - split_and!; try done. rewrite leaves_root. cbn. by rewrite <- !app_assoc.
Qed.

(** splitting a leaf adds the new one next to it, on the side the name says,
    and unsplitting the new leaf gives back the cursor that was split. *)
Theorem split_leaf_roundtrip c x a :
  it c = Leaf a ->
  exists cr cl cr' cl',
    split_leaf_and_insert_right c x = Ok cr /\ split_leaf_and_insert_left c x = Ok cl /\
    leaves (root cr) = leaves_before (path c) ++ [a; x] ++ leaves_after (path c) /\
    leaves (root cl) = leaves_before (path c) ++ [x; a] ++ leaves_after (path c) /\
    go_right cr = Ok cr' /\ unsplit_leaf cr' = Some (Ok (c, x, None)) /\
    go_left cl = Ok cl' /\ unsplit_leaf cl' = Some (Ok (c, x, None)).
Proof.
  destruct c as [t p]. cbn. intros ->. do 4 eexists.
  split; [done|]. split; [done|]. rewrite !leaves_root. by cbn.
Qed.

(** ** The shape of the tree *)

(** A cursor with a proper tree, or at the top of the empty tree. *)
Definition cursor_wf c : Prop :=
  (it c = Empty /\ path c = Top) \/ (proper (it c) /\ proper_path (path c)).

Lemma proper_plug t p : proper (plug t p) <-> proper t /\ proper_path p.
Proof. revert t. induction p; intros t; cbn; rewrite ?IHp; cbn; tauto. Qed.

Lemma plug_Empty t p : plug t p = Empty <-> t = Empty /\ p = Top.
Proof.
  revert t. induction p as [|t2 d u IH|t2 d u IH]; intros t; cbn; [tauto| |];
    rewrite IH; intuition congruence.
Qed.

Lemma cursor_wf_root c : cursor_wf c <-> tree_wf (root c).
Proof.
  unfold cursor_wf, tree_wf, root. rewrite plug_Empty, proper_plug. done.
Qed.

(** One operation of a client, by the cursor it ends with. *)
Inductive cursor_op : Cursor L N -> Cursor L N -> Prop :=
| op_assign_top c x : cursor_op c (moved (assign_top c x))
| op_leaf_mut c x f v : leaf_mut c = Some (x, f) -> cursor_op c (f v)
| op_node_mut c x f v : node_mut c = Some (x, f) -> cursor_op c (f v)
| op_assign_node c v : cursor_op c (moved (assign_node c v))
| op_unsplit c c' x d : unsplit_leaf c = Some (Ok (c', x, d)) -> cursor_op c c'
| op_split_node_left c x : cursor_op c (moved (split_node_and_insert_left c x))
| op_split_node_right c x : cursor_op c (moved (split_node_and_insert_right c x))
| op_split_leaf_right c x : cursor_op c (moved (split_leaf_and_insert_right c x))
| op_split_leaf_left c x : cursor_op c (moved (split_leaf_and_insert_left c x))
| op_go_left c : cursor_op c (moved (go_left c))
| op_go_right c : cursor_op c (moved (go_right c))
| op_go_up c : cursor_op c (moved (go_up c))
| op_preorder c m : preorder_next c = Some m -> cursor_op c (moved m)
| op_postorder c m : postorder_next c = Some m -> cursor_op c (moved m)
| op_nth_leaf c n m : go_to_nth_leaf c n = Some m -> cursor_op c (moved m)
| op_rebuild c t : tree c = Some t -> cursor_op c (cursor t).

Lemma mirror_plug t p : mirror (plug t p) = plug (mirror t) (mirror_path p).
Proof. revert t. induction p; intros t; cbn; [done|..]; by rewrite IHp. Qed.

Lemma postorder_next_total c :
  exists m, postorder_next c = Some m /\ root (moved m) = root c.
Proof.
  destruct (preorder_next_total (mirror_cursor c)) as (m & E & R).
  exists (mirror_moved m). rewrite <- (mirror_cursor_involutive c), postorder_mirror, E.
  split; [done|].
  assert (H : forall c, root (mirror_cursor c) = mirror (root c))
    by (intros []; unfold root; cbn; by rewrite mirror_plug).
  transitivity (mirror (root (moved m))).
  - destruct m; apply H.
  - rewrite R. rewrite !H. by rewrite mirror_involutive.
Qed.

Lemma nth_leaf_loop_root fuel c n next m :
  nth_leaf_loop fuel c n next = Some m -> root (moved m) = root c.
Proof.
  revert c next. induction fuel as [|f IH]; intros c next H; [done|]. cbn in H.
  destruct (is_leaf c && (next =? n)%nat); [by simplify_eq|].
  destruct (preorder_next_total c) as (m' & E & R). rewrite E in H. cbn in H.
  destruct m'; cbn in *; [rewrite <- R; by eapply IH|by simplify_eq].
Qed.

Lemma cursor_op_wf c c' : cursor_op c c' -> cursor_wf c -> cursor_wf c'.
Proof.
  destruct 1; try (destruct c as [[|l r d0|b] [|t2 d2 u|t2 d2 u]]; unfold cursor_wf; cbn in *;
    simplify_eq; cbn in *; intuition congruence).
  - rewrite !cursor_wf_root. destruct (preorder_next_total c) as (m' & E & R). by simplify_eq; rewrite R.
  - rewrite !cursor_wf_root. destruct (postorder_next_total c) as (m' & E & R). by simplify_eq; rewrite R.
  - rewrite !cursor_wf_root. by rewrite (nth_leaf_loop_root _ _ _ _ _ H).
  - rewrite !cursor_wf_root. rewrite tree_root in H. by simplify_eq.
Qed.

(** C28: every cursor a client can reach from the empty tree by any sequence of
    operations stands for a tree of the documented shape: empty, or one in
    which every node has two non-empty subtrees. *)
Theorem reachable_trees_proper c :
  rtc cursor_op cursor_new c -> exists t, tree c = Some t /\ tree_wf t.
Proof.
  intros H. exists (root c). split; [apply tree_root|]. apply cursor_wf_root.
  assert (W : cursor_wf cursor_new) by (by left).
  revert W. induction H as [c|c1 c2 c3 Hop _ IH]; [done|].
  intros W. apply IH. by eapply cursor_op_wf.
Qed.

Lemma parents_depth fuel p : (depth p < fuel)%nat ->
  exists xs, parents fuel p = Some xs /\ length xs = depth p.
Proof.
  revert p. induction fuel as [|f IH]; intros p H; [lia|].
  destruct p as [|t d u|t d u]; cbn in *; [eauto| |];
    (destruct (IH u) as (xs & -> & Hl); [lia|]); cbn; eexists; (split; [done|]); cbn; lia.
Qed.

End BinTree.

(** ** Witnesses *)

Definition sample_tree : Tree nat nat :=
  Node (Leaf 1) (Node (Node (Leaf 2) (Leaf 3) (Some 7)) (Leaf 4) None) (Some 5).

Lemma preorder_visits_all_witness :
  proper sample_tree /\
  visits preorder_next (cursor sample_tree) (positions sample_tree Top).
Proof. split; [cbn; tauto|]. apply preorder_visits_all. cbn; tauto. Defined.

Lemma postorder_is_mirrored_preorder_witness :
  proper sample_tree /\
  visits postorder_next (cursor sample_tree) (positions_mirror sample_tree Top).
Proof. split; [cbn; tauto|]. apply postorder_is_mirrored_preorder. cbn; tauto. Defined.

Lemma go_to_nth_leaf_spec_witness :
  exists c a, go_to_nth_leaf (cursor sample_tree) 2 = Some (Ok c) /\ it c = Leaf a /\
    leaves sample_tree !! 2 = Some a /\ tree c = Some sample_tree /\
    length (leaves_before (path c)) = 2.
Proof. apply (go_to_nth_leaf_spec sample_tree 2); [cbn; tauto|cbn; lia]. Defined.

Lemma split_leaf_roundtrip_witness :
  exists cr cl cr' cl',
    split_leaf_and_insert_right (mkCursor (Leaf 1) (Left (Leaf 2) (Some 3) Top)) 9 = Ok cr /\
    split_leaf_and_insert_left (mkCursor (Leaf 1) (Left (Leaf 2) (Some 3) Top)) 9 = Ok cl /\
    leaves (root cr) = [1; 9; 2] /\ leaves (root cl) = [9; 1; 2] /\
    go_right cr = Ok cr' /\
    unsplit_leaf cr' = Some (Ok (mkCursor (Leaf 1) (Left (Leaf 2) (Some 3) Top), 9, None)) /\
    go_left cl = Ok cl' /\
    unsplit_leaf cl' = Some (Ok (mkCursor (Leaf 1) (Left (Leaf 2) (Some 3) Top), 9, None)).
Proof.
  apply (split_leaf_roundtrip (mkCursor (Leaf 1) (Left (Leaf 2) (Some 3) Top)) 9 1). reflexivity.
Defined.

Lemma reachable_trees_proper_witness :
  exists t, tree (moved (split_leaf_and_insert_right
                           (moved (assign_top (@cursor_new nat nat) 1)) 2)) = Some t /\ tree_wf t.
Proof.
  apply reachable_trees_proper. eapply rtc_l; [|apply rtc_once].
  - apply (op_assign_top cursor_new 1).
  - apply op_split_leaf_right.
Defined.
