(* ===== verification/RangeSet.v ===== *)
(** The integer sets of [src/rangeset/src/lib.rs]: ranges, the set with its
    lazily sorted vector, and the theorems that the operations compute on the set
    of contained integers what their names say. The element type [T: Integer]
    is [Z]. A step returns [None] where the Rust code panics. *)

From Stdlib Require Import ZArith Lia.
From stdpp Require Import base numbers list option.
From S2P Require Import Prelude.
Local Open Scope Z_scope.

(** ** Ranges *)

(** [Range<T>], half open. *)
Record Range : Set := mkRange { start : Z; stop : Z }.

#[export] Instance Range_eq_dec : EqDecision Range.
Proof. solve_decision. Defined.

Definition range_is_empty (range : Range) : bool := start range =? stop range.

(** [Range::contains] of the standard library. *)
Definition range_contains (r : Range) (v : Z) : bool := (start r <=? v) && (v <? stop r).

Definition intersects_range (r1 r2 : Range) : bool :=
  let s := Z.max (start r1) (start r2) in
  let e := Z.min (stop r1) (stop r2) in
  s <? e.

Definition range_intersection (r1 r2 : Range) : option Range :=
  let s := Z.max (start r1) (start r2) in
  let e := Z.min (stop r1) (stop r2) in
  if s <? e then Some (mkRange s e) else None.

Definition range_subtract (r1 r2 : Range) : option Range * option Range :=
  let i_start := Z.max (start r1) (start r2) in
  let i_end := Z.min (stop r1) (stop r2) in
  if i_start <? i_end then
    let a := if i_start =? start r1 then None
             else Some (mkRange (start r1) (Z.min (stop r1) i_start)) in
    let b := if i_end =? stop r1 then None
             else Some (mkRange (Z.min (stop r1) i_end) (stop r1)) in
    (a, b)
  else (Some r1, None).

Definition range_union (r1 r2 : Range) : Range :=
  if range_is_empty r1 then r2
  else if range_is_empty r2 then r1
  else mkRange (Z.min (start r1) (start r2)) (Z.max (stop r1) (stop r2)).

(** ** The vector *)

(** [Vec::remove] and [Vec::insert], which panic out of range. *)
Definition vec_remove {A} (l : list A) (i : nat) : option (list A) :=
  if (i <? length l)%nat then Some (take i l ++ drop (S i) l) else None.

Definition vec_insert {A} (l : list A) (i : nat) (x : A) : option (list A) :=
  if (i <=? length l)%nat then Some (take i l ++ x :: drop i l) else None.

(** [sort_by_key(|r| r.start)], a stable sort. *)
Fixpoint sort_insert (r : Range) (l : list Range) : list Range :=
  match l with
  | [] => [r]
  | x :: rest => if start r <=? start x then r :: l else x :: sort_insert r rest
  end.

Definition sort_by_start (l : list Range) : list Range := foldr sort_insert [] l.

(** [slice::binary_search_by] of the standard library: the loop that halves
    the size, then one more comparison. *)
Fixpoint bsearch_loop (fuel : nat) (f : Range -> option comparison) (l : list Range)
    (base size : nat) : option nat :=
  match fuel with
  | O => None
  | S fuel' =>
      if (size <=? 1)%nat then Some base
      else
        let half := Nat.div2 size in
        let mid := (base + half)%nat in
        r ← arr_get l mid;
        c ← f r;
        bsearch_loop fuel' f l (match c with Gt => base | _ => mid end) (size - half)
  end.

Definition binary_search_by (f : Range -> option comparison) (l : list Range)
    : option (result nat nat) :=
  match length l with
  | O => Some (Err O)
  | _ =>
      base ← bsearch_loop (S (length l)) f l 0 (length l);
      r ← arr_get l base;
      c ← f r;
      Some (match c with Eq => Ok base | Lt => Err (S base) | Gt => Err base end)
  end.

(** ** The set *)

Record RangeSet : Set := mkRS { ranges : list Range; needs_sort : bool }.

Definition rs_new : RangeSet := mkRS [] false.

Definition rs_is_empty (s : RangeSet) : bool := match ranges s with [] => true | _ => false end.

Definition rs_len (s : RangeSet) : Z :=
  fold_left (fun total r => total + stop r - start r) (ranges s) 0.

Definition rs_contains (s : RangeSet) (v : Z) : bool :=
  existsb (fun r => range_contains r v) (ranges s).

Definition sort_if_needed (s : RangeSet) : RangeSet :=
  if needs_sort s then mkRS (sort_by_start (ranges s)) false else s.

(** The comparator; [None] is its [unreachable!()]. *)
Definition compare_ranges (range r : Range) : option comparison :=
  if (start r <=? start range) && (stop range <=? stop r) then Some Eq
  else if start range <? start r then Some Gt
  else if stop r <? stop range then Some Lt
  else None.

Definition binary_search_ranges (s : RangeSet) (range : Range) : option (result nat nat) :=
  binary_search_by (compare_ranges range) (ranges s).

Definition intersection_helper (s : RangeSet) (range : Range)
    : option (option nat * option nat) :=
  if needs_sort s then None
  else
    found ← binary_search_ranges s range;
    let idx := match found with Ok idx => idx | Err idx => (idx - 1)%nat end in
    let touches i :=
      match ranges s !! i with
      | Some r => intersects_range r range || (stop r =? start range)
      | None => false
      end in
    let first := if touches idx then Some idx else None in
    if touches (S idx) then
      match first with
      | Some _ => Some (first, Some (S idx))
      | None => Some (first, None)
      end
    else Some (first, None).

Definition insertion_point (s : RangeSet) (range : Range) : option nat :=
  if needs_sort s then None
  else
    found ← binary_search_ranges s range;
    Some (match found with Ok idx => idx | Err idx => idx end).

Definition merge_into_range (s : RangeSet) (idx : nat) (range : Range) : option RangeSet :=
  existing ← arr_get (ranges s) idx;
  l ← arr_set (ranges s) idx (range_union existing range);
  Some (mkRS l (needs_sort s)).

(** [add_range]; every recursive call has one range less. *)
Fixpoint add_range_n (fuel : nat) (s : RangeSet) (range : Range) : option RangeSet :=
  match fuel with
  | O => None
  | S fuel' =>
      if range_is_empty range then Some s
      else if rs_is_empty s then Some (mkRS (ranges s ++ [range]) (needs_sort s))
      else
        let s := sort_if_needed s in
        let join a b :=
          match a, b with
          | Some a, _ => merge_into_range s a range
          | None, Some _ => None (* unreachable!() *)
          | None, None =>
              idx ← insertion_point s range;
              l ← vec_insert (ranges s) idx range;
              Some (mkRS l (needs_sort s))
          end in
        '(a, b) ← intersection_helper s range;
        match a, b with
        | Some i, Some j =>
            if (j =? i + 1)%nat then
              second ← arr_get (ranges s) j;
              let merged := range_union range second in
              l ← vec_remove (ranges s) j;
              add_range_n fuel' (mkRS l (needs_sort s)) merged
            else join a b
        | _, _ => join a b
        end
  end.

Definition add_range (s : RangeSet) (range : Range) : option RangeSet :=
  add_range_n (S (length (ranges s))) s range.

Definition add_range_unchecked (s : RangeSet) (range : Range) : RangeSet :=
  mkRS (ranges s ++ [range]) true.

Definition add (s : RangeSet) (v : Z) : option RangeSet := add_range s (mkRange v (v + 1)).

Fixpoint add_ranges (s : RangeSet) (rs : list Range) : option RangeSet :=
  match rs with
  | [] => Some s
  | r :: rest => s ← add_range s r; add_ranges s rest
  end.

Definition add_set (s set : RangeSet) : option RangeSet := add_ranges s (ranges set).

(** The scan of [remove_range]: the indices to remove and the pieces to add. *)
Fixpoint remove_scan (idx : nat) (l : list Range) (range : Range) : list nat * list Range :=
  match l with
  | [] => ([], [])
  | r :: rest =>
      let '(to_remove, to_add) := remove_scan (S idx) rest range in
      match range_subtract r range with
      | (None, None) => (idx :: to_remove, to_add)
      | (Some a, Some b) => (idx :: to_remove, a :: b :: to_add)
      | (Some a, None) | (None, Some a) =>
          if negb (bool_decide (a = r)) then (idx :: to_remove, a :: to_add)
          else (to_remove, to_add)
      end
  end.

Fixpoint remove_indices (l : list Range) (idxs : list nat) : option (list Range) :=
  match idxs with
  | [] => Some l
  | i :: rest => l ← vec_remove l i; remove_indices l rest
  end.

Definition remove_range (s : RangeSet) (range : Range) : option RangeSet :=
  let '(to_remove, to_add) := remove_scan 0 (ranges s) range in
  l ← remove_indices (ranges s) (rev to_remove);
  add_ranges (mkRS l (needs_sort s)) to_add.

Definition remove (s : RangeSet) (v : Z) : option RangeSet := remove_range s (mkRange v (v + 1)).

Fixpoint remove_ranges (s : RangeSet) (rs : list Range) : option RangeSet :=
  match rs with
  | [] => Some s
  | r :: rest => s ← remove_range s r; remove_ranges s rest
  end.

Definition remove_set (s set : RangeSet) : option RangeSet := remove_ranges s (ranges set).

Definition difference (s other : RangeSet) : option RangeSet := remove_ranges s (ranges other).

Definition intersection_with_range (s : RangeSet) (range : Range) : option RangeSet :=
  add_ranges rs_new (omap (fun r => range_intersection r range) (ranges s)).

(** The nested loops add the intersections in the order of the pairs. *)
Definition intersection (s other : RangeSet) : option RangeSet :=
  add_ranges rs_new
    (concat (map (fun range => omap (fun r => range_intersection r range) (ranges s))
                 (ranges other))).

Definition iter_values (s : RangeSet) : list Z :=
  concat (map (fun r => map (fun n => start r + Z.of_nat n)
                            (seq 0 (Z.to_nat (stop r - start r)))) (ranges s)).

(** ** Specification *)

(** A range a client may pass: its ends in order. *)
Definition range_ok (r : Range) : Prop := start r <= stop r.

(** The stored ranges are not empty. *)
Definition rs_wf (s : RangeSet) : Prop := Forall (fun r => start r < stop r) (ranges s).

(** ** Lemmas on ranges *)

Lemma range_contains_spec r v : range_contains r v = true <-> start r <= v < stop r.
Proof. unfold range_contains. rewrite andb_true_iff, Z.leb_le, Z.ltb_lt. done. Qed.

Lemma compare_ranges_total range r : exists c, compare_ranges range r = Some c.
Proof.
  unfold compare_ranges. repeat case_goal; eauto.
  destruct E as [E|E]; bool_to_prop; lia.
Qed.

Lemma existsb_app {A} (f : A -> bool) l1 l2 :
  existsb f (l1 ++ l2) = existsb f l1 || existsb f l2.
Proof. induction l1; cbn; [done|]. by rewrite IHl1, orb_assoc. Qed.

Definition covers (l : list Range) (v : Z) : bool := existsb (fun r => range_contains r v) l.

Lemma covers_app l1 l2 v : covers (l1 ++ l2) v = covers l1 v || covers l2 v.
Proof. apply existsb_app. Qed.

Lemma covers_cons r l v : covers (r :: l) v = range_contains r v || covers l v.
Proof. done. Qed.

Lemma take_drop_S {A} (l : list A) i x : l !! i = Some x -> l = take i l ++ x :: drop (S i) l.
Proof. intros H. by rewrite take_drop_middle. Qed.

(** What covers what, when one entry is taken out or put in. *)
Lemma covers_lookup l i r v :
  l !! i = Some r -> covers l v = range_contains r v || covers (take i l ++ drop (S i) l) v.
Proof.
  intros H. rewrite (take_drop_S l i r H) at 1. rewrite !covers_app, covers_cons.
  destruct (covers (take i l) v), (range_contains r v), (covers (drop (S i) l) v); done.
Qed.

Lemma vec_remove_Some {A} (l : list A) i x :
  l !! i = Some x -> vec_remove l i = Some (take i l ++ drop (S i) l).
Proof.
  intros H%lookup_lt_Some. unfold vec_remove. by rewrite (proj2 (Nat.ltb_lt _ _)).
Qed.

Lemma vec_insert_covers l i r :
  (i <= length l)%nat ->
  exists l', vec_insert l i r = Some l' /\
    (forall v, covers l' v = covers l v || range_contains r v) /\
    (forall P, Forall P l -> P r -> Forall P l').
Proof.
  intros H. unfold vec_insert. rewrite (proj2 (Nat.leb_le _ _)) by done.
  eexists; split; [done|]. split.
  - intros v. rewrite covers_app, covers_cons.
    replace (covers l v) with (covers (take i l) v || covers (drop i l) v)
      by (by rewrite <- covers_app, take_drop).
    destruct (covers (take i l) v), (range_contains r v), (covers (drop i l) v); done.
  - intros P Hl Hr. apply Forall_app. split; [by apply Forall_take|].
    constructor; [done|by apply Forall_drop].
Qed.

Lemma sort_insert_covers r l v : covers (sort_insert r l) v = range_contains r v || covers l v.
Proof.
  induction l as [|x l IH]; [done|]. cbn [sort_insert]. destruct (start r <=? start x); [done|].
  rewrite covers_cons, IH, covers_cons. destruct (range_contains r v), (range_contains x v); done.
Qed.

Lemma sort_covers l v : covers (sort_by_start l) v = covers l v.
Proof. induction l as [|r l IH]; [done|].
  change (sort_by_start (r :: l)) with (sort_insert r (sort_by_start l)).
  by rewrite sort_insert_covers, IH. Qed.

Lemma sort_insert_Forall (P : Range -> Prop) r l : P r -> Forall P l -> Forall P (sort_insert r l).
Proof.
  intros Hr Hl. induction Hl as [|x l Hx Hl IH]; [by repeat constructor|].
  cbn. destruct (start r <=? start x); by repeat constructor.
Qed.

Lemma sort_Forall (P : Range -> Prop) l : Forall P l -> Forall P (sort_by_start l).
Proof. induction 1; cbn; [done|]. by apply sort_insert_Forall. Qed.

Lemma sort_insert_length r l : length (sort_insert r l) = S (length l).
Proof. induction l as [|x l IH]; [done|]. cbn. destruct (_ <=? _); cbn; lia. Qed.

Lemma sort_length l : length (sort_by_start l) = length l.
Proof. induction l as [|r l IH]; [done|].
  change (sort_by_start (r :: l)) with (sort_insert r (sort_by_start l)).
  rewrite sort_insert_length, IH. done. Qed.

(** ** The binary search stays in range *)

Lemma bsearch_loop_total f l fuel base size :
  (forall r, exists c, f r = Some c) -> (1 <= size)%nat -> (base + size <= length l)%nat ->
  (size < fuel)%nat ->
  exists b, bsearch_loop fuel f l base size = Some b /\ (b < length l)%nat.
Proof.
  intros Hf. revert base size. induction fuel as [|fuel IH]; intros base size H1 H2 H3; [lia|].
  cbn [bsearch_loop]. destruct (size <=? 1)%nat eqn:E; bool_to_prop; [eexists; split; [done|lia]|].
  pose proof (Nat.div2_odd size) as Hd.
  assert (Hh : (1 <= Nat.div2 size < size)%nat) by (destruct (Nat.odd size); cbn in Hd; lia).
  destruct (lookup_lt_is_Some_2 l (base + Nat.div2 size)) as [r Hr]; [lia|].
  unfold arr_get. rewrite Hr. msimpl. destruct (Hf r) as [c ->]. msimpl.
  apply IH; destruct c; lia.
Qed.

Lemma binary_search_total f l :
  (forall r, exists c, f r = Some c) ->
  exists res, binary_search_by f l = Some res /\
    match res with Ok i => (i < length l)%nat | Err i => (i <= length l)%nat end.
Proof.
  intros Hf. unfold binary_search_by. destruct (length l) as [|n] eqn:El.
  - eexists; split; [done|]. cbn. lia.
  - destruct (bsearch_loop_total f l (S (S n)) 0 (S n) Hf) as (b & -> & Hb); [lia..|]. msimpl.
    destruct (lookup_lt_is_Some_2 l b Hb) as [r Hr]. unfold arr_get. rewrite Hr. msimpl.
    destruct (Hf r) as [c ->]. msimpl. eexists; split; [done|]. destruct c; lia.
Qed.

Lemma search_total s range :
  exists res, binary_search_ranges s range = Some res /\
    match res with Ok i => (i < length (ranges s))%nat | Err i => (i <= length (ranges s))%nat end.
Proof. apply binary_search_total, compare_ranges_total. Qed.

(** ** Adding *)

Definition touches (r range : Range) : Prop :=
  intersects_range r range = true \/ stop r = start range.

Lemma union_covers r1 r2 v :
  start r1 < stop r1 -> start r2 < stop r2 -> touches r1 r2 \/ touches r2 r1 ->
  range_contains (range_union r1 r2) v = range_contains r1 v || range_contains r2 v.
Proof.
  intros H1 H2 H. unfold touches, intersects_range, range_union, range_is_empty in *.
  rewrite (proj2 (Z.eqb_neq (start r1) _)) by lia.
  rewrite (proj2 (Z.eqb_neq (start r2) _)) by lia.
  rewrite !Z.ltb_lt in H. apply eq_true_iff_eq.
  rewrite orb_true_iff, !range_contains_spec. cbn. lia.
Qed.

Lemma union_ok r1 r2 :
  start r1 < stop r1 -> start r2 < stop r2 ->
  start (range_union r1 r2) < stop (range_union r1 r2).
Proof.
  intros H1 H2. unfold range_union, range_is_empty.
  repeat case_goal; bool_to_prop; cbn; lia.
Qed.

Lemma intersection_helper_total s range :
  needs_sort s = false ->
  exists a b, intersection_helper s range = Some (a, b) /\
    (forall i, a = Some i -> exists r, ranges s !! i = Some r /\ touches r range) /\
    (forall j, b = Some j -> exists i r, a = Some i /\ j = S i /\ ranges s !! j = Some r /\ touches r range).
Proof.
  intros Hs. unfold intersection_helper. rewrite Hs.
  destruct (search_total s range) as (res & -> & _). msimpl.
  set (idx := match res with Ok i => i | Err i => (i - 1)%nat end). clearbody idx.
  assert (Ht : forall i, match ranges s !! i with
    | Some r => intersects_range r range || (stop r =? start range) | None => false end = true ->
    exists r, ranges s !! i = Some r /\ touches r range).
  { intros i H. destruct (ranges s !! i) as [r|]; [|done]. exists r. split; [done|].
    unfold touches. bool_to_prop. rewrite Z.eqb_eq in H. done. }
  pose proof (Ht idx) as H0. pose proof (Ht (S idx)) as H1. cbn zeta.
  destruct (match ranges s !! idx with Some r => _ | None => _ end);
    destruct (match ranges s !! S idx with Some r => _ | None => _ end);
    eexists _, _; (split; [done|]); split; intros ? [= <-]; auto.
  destruct (H1 eq_refl) as (r & ? & ?). eauto 10.
Qed.

Lemma covers_set l i r v :
  (i < length l)%nat ->
  covers (<[i := r]> l) v = range_contains r v || covers (take i l ++ drop (S i) l) v.
Proof.
  intros H. rewrite (covers_lookup _ i r) by (by apply list_lookup_insert_eq).
  rewrite take_insert_ge, drop_insert_lt by lia. done.
Qed.

Lemma merge_into_range_ok s i r range :
  rs_wf s -> ranges s !! i = Some r -> touches r range -> start range < stop range ->
  exists s', merge_into_range s i range = Some s' /\ rs_wf s' /\
    forall v, rs_contains s' v = rs_contains s v || range_contains range v.
Proof.
  intros W Hi Ht Hr. pose proof (lookup_lt_Some _ _ _ Hi) as Hl.
  pose proof (Forall_lookup_1 _ _ _ _ W Hi) as Hri. cbn in Hri.
  unfold merge_into_range, arr_get. rewrite Hi. msimpl. rewrite arr_set_Some by done. msimpl.
  eexists; split; [done|]. split.
  - apply Forall_insert; [done|]. by apply union_ok.
  - intros v. change (rs_contains s v) with (covers (ranges s) v).
    change (rs_contains (mkRS ?l _) v) with (covers l v).
    rewrite covers_set, union_covers, (covers_lookup (ranges s) i r) by auto.
    destruct (range_contains r v), (range_contains range v); by rewrite ?orb_true_r, ?orb_false_r.
Qed.

Lemma sort_if_needed_ok s :
  rs_wf s -> rs_wf (sort_if_needed s) /\ needs_sort (sort_if_needed s) = false /\
    length (ranges (sort_if_needed s)) = length (ranges s) /\
    forall v, rs_contains (sort_if_needed s) v = rs_contains s v.
Proof.
  intros W. unfold sort_if_needed. destruct (needs_sort s) eqn:E; [|done].
  split; [by apply sort_Forall|]. split; [done|]. split; [apply sort_length|].
  intros v. apply sort_covers.
Qed.

Lemma insert_ok s range :
  rs_wf s -> needs_sort s = false -> start range < stop range ->
  exists s', (idx ← insertion_point s range; l ← vec_insert (ranges s) idx range;
              Some (mkRS l (needs_sort s))) = Some s' /\ rs_wf s' /\
    forall v, rs_contains s' v = rs_contains s v || range_contains range v.
Proof.
  intros W Hs Hr. unfold insertion_point. rewrite Hs.
  destruct (search_total s range) as (res & -> & Hres). msimpl.
  destruct (vec_insert_covers (ranges s) (match res with Ok i => i | Err i => i end) range)
    as (l & -> & Hc & HF); [destruct res; lia|].
  msimpl. eexists; split; [done|]. split; [by apply HF|done].
Qed.

Lemma add_range_n_ok fuel s range :
  (length (ranges s) < fuel)%nat -> rs_wf s -> range_ok range ->
  exists s', add_range_n fuel s range = Some s' /\ rs_wf s' /\
    forall v, rs_contains s' v = rs_contains s v || range_contains range v.
Proof.
  revert s range. induction fuel as [|fuel IH]; intros s range Hf W Hr; [lia|].
  cbn [add_range_n]. unfold range_is_empty, rs_is_empty.
  destruct (Z.eqb_spec (start range) (stop range)) as [He|He].
  { exists s. split; [done|]. split; [done|]. intros v.
    destruct (range_contains range v) eqn:E; [|by rewrite orb_false_r].
    apply range_contains_spec in E. lia. }
  unfold range_ok in Hr. assert (Hlt : start range < stop range) by lia.
  destruct (ranges s) as [|r0 rest] eqn:El.
  { eexists; split; [done|]. split; [by repeat constructor|].
    intros v. unfold rs_contains. rewrite El. cbn. by rewrite orb_false_r. }
  destruct (sort_if_needed_ok s W) as (W' & Hs' & Hl' & Hc').
  rewrite El in Hl'. cbn zeta.
  set (s1 := sort_if_needed s) in *. clearbody s1.
  destruct (intersection_helper_total s1 range Hs') as (a & b & -> & Ha & Hb). msimpl.
  assert (Hmerge : forall i, a = Some i -> exists s', merge_into_range s1 i range = Some s' /\
    rs_wf s' /\ forall v, rs_contains s' v = rs_contains s v || range_contains range v).
  { intros i Hi. destruct (Ha i Hi) as (r & Hri & Ht).
    destruct (merge_into_range_ok s1 i r range) as (s' & E & Ws & Hc); [done..|].
    exists s'. split; [done|]. split; [done|]. intros v. by rewrite Hc, Hc'. }
  destruct a as [i|].
  - destruct b as [j|]; [|by apply Hmerge].
    destruct (Hb j eq_refl) as (i' & r & [= <-] & -> & Hri & Ht).
    rewrite (proj2 (Nat.eqb_eq _ _)) by lia.
    unfold arr_get. rewrite Hri. msimpl. rewrite (vec_remove_Some _ _ _ Hri). msimpl.
    pose proof (lookup_lt_Some _ _ _ Hri) as Hlt2.
    pose proof (Forall_lookup_1 _ _ _ _ W' Hri) as Hrr. cbn in Hrr.
    destruct (IH (mkRS (take (S i) (ranges s1) ++ drop (S (S i)) (ranges s1)) (needs_sort s1))
                 (range_union range r)) as (s' & E & Ws & Hc).
    + cbn [ranges]. rewrite length_app, length_take, length_drop. cbn [length] in Hl', Hf. lia.
    + apply Forall_app. split; [by apply Forall_take|by apply Forall_drop].
    + unfold range_ok. apply Z.lt_le_incl. by apply union_ok.
    + exists s'. split; [done|]. split; [done|]. intros v.
      rewrite Hc, union_covers, <- Hc' by auto.
      change (rs_contains s1 v) with (covers (ranges s1) v).
      change (rs_contains (mkRS ?l _) v) with (covers l v).
      rewrite (covers_lookup (ranges s1) (S i) r) by done.
      destruct (range_contains r v), (range_contains range v); by rewrite ?orb_true_r, ?orb_false_r.
  - destruct b as [j|]; [by destruct (Hb j eq_refl) as (? & ? & ? & _)|].
    destruct (insert_ok s1 range W' Hs' Hlt) as (s' & E & Ws & Hc).
    exists s'. split; [done|]. split; [done|]. intros v. by rewrite Hc, Hc'.
Qed.

(** adding a range of ordered ends never panics, terminates, keeps every stored range
    non-empty, and the set then contains exactly the integers it contained
    and those of the range. *)
Theorem add_range_spec s range :
  rs_wf s -> range_ok range ->
  exists s', add_range s range = Some s' /\ rs_wf s' /\
    forall v, rs_contains s' v = rs_contains s v || range_contains range v.
Proof. intros. apply add_range_n_ok; [lia|done|done]. Qed.

Lemma add_ranges_ok s rs :
  rs_wf s -> Forall range_ok rs ->
  exists s', add_ranges s rs = Some s' /\ rs_wf s' /\
    forall v, rs_contains s' v = rs_contains s v || covers rs v.
Proof.
  intros W Hf. revert s W. induction Hf as [|r rs Hr Hf IH]; intros s W; cbn [add_ranges].
  - exists s. split; [done|]. split; [done|]. intros v. by rewrite orb_false_r.
  - destruct (add_range_n_ok (S (length (ranges s))) s r) as (s1 & E1 & W1 & C1); [lia|done|done|].
    unfold add_range. rewrite E1. msimpl. destruct (IH s1 W1) as (s2 & E2 & W2 & C2).
    exists s2. split; [done|]. split; [done|]. intros v.
    by rewrite C2, C1, covers_cons, orb_assoc.
Qed.

(** ** Removing *)

Lemma subtract_spec r range :
  start r < stop r ->
  Forall (fun r => start r < stop r)
    (opt_list (fst (range_subtract r range)) ++ opt_list (snd (range_subtract r range))) /\
  forall v, covers (opt_list (fst (range_subtract r range)) ++ opt_list (snd (range_subtract r range))) v
    = range_contains r v && negb (range_contains range v).
Proof.
  intros Hr. unfold range_subtract.
  destruct (Z.ltb_spec (Z.max (start r) (start range)) (Z.min (stop r) (stop range))) as [Hi|Hi].
  - destruct (Z.eqb_spec (Z.max (start r) (start range)) (start r)) as [E1|E1];
      destruct (Z.eqb_spec (Z.min (stop r) (stop range)) (stop r)) as [E2|E2]; cbn [fst snd opt_list app].
    all: split; [repeat constructor; cbn; lia|].
    all: intros v; apply eq_true_iff_eq; unfold covers; cbn [existsb];
      rewrite ?andb_true_iff, ?negb_true_iff, ?orb_true_iff, <- ?not_true_iff_false,
        ?range_contains_spec; cbn [start stop]; lia.
  - cbn. split; [by repeat constructor|]. intros v. apply eq_true_iff_eq.
    rewrite andb_true_iff, orb_false_r, negb_true_iff, <- not_true_iff_false, !range_contains_spec. lia.
Qed.

(** The ranges the scan keeps. *)
Fixpoint remove_keep (l : list Range) (range : Range) : list Range :=
  match l with
  | [] => []
  | r :: rest =>
      match range_subtract r range with
      | (Some a, None) | (None, Some a) =>
          if negb (bool_decide (a = r)) then remove_keep rest range else r :: remove_keep rest range
      | _ => remove_keep rest range
      end
  end.

Lemma remove_indices_app l is1 is2 :
  remove_indices l (is1 ++ is2) = (l' ← remove_indices l is1; remove_indices l' is2).
Proof.
  revert l. induction is1 as [|i is1 IH]; intros l; [done|]. cbn.
  destruct (vec_remove l i); [apply IH|done].
Qed.

Lemma remove_scan_keep pre l range :
  remove_indices (pre ++ l) (rev (fst (remove_scan (length pre) l range))) =
    Some (pre ++ remove_keep l range).
Proof.
  revert pre. induction l as [|r l IH]; intros pre; [done|].
  specialize (IH (pre ++ [r])). rewrite length_app, Nat.add_1_r in IH.
  rewrite <- app_assoc in IH. cbn [app] in IH.
  cbn [remove_scan remove_keep].
  destruct (remove_scan (S (length pre)) l range) as [idxs adds]. cbn [fst] in IH.
  assert (Hdrop : remove_indices (pre ++ r :: l) (rev (length pre :: idxs)) =
    Some (pre ++ remove_keep l range)).
  { cbn [rev]. rewrite remove_indices_app, IH. msimpl. cbn [remove_indices].
    rewrite (vec_remove_Some _ _ r).
    - msimpl. rewrite <- app_assoc. cbn [app].
      by rewrite take_app_length, drop_app_ge, Nat.sub_succ_l, Nat.sub_diag by lia.
    - rewrite <- app_assoc. by apply list_lookup_middle. }
  rewrite <- app_assoc in IH. cbn [app] in IH.
  destruct (range_subtract r range) as [[a|] [b|]]; cbn [fst]; try done.
  - by destruct (negb (bool_decide (a = r))).
  - by destruct (negb (bool_decide (b = r))).
Qed.

Lemma remove_scan_covers k l range :
  Forall (fun r => start r < stop r) l ->
  Forall (fun r => start r < stop r) (remove_keep l range) /\
  Forall (fun r => start r < stop r) (snd (remove_scan k l range)) /\
  forall v, covers (remove_keep l range) v || covers (snd (remove_scan k l range)) v
    = covers l v && negb (range_contains range v).
Proof.
  intros Hf. revert k. induction Hf as [|r l Hr Hf IH]; intros k; [done|].
  destruct (IH (S k)) as (K & A & C). cbn [remove_keep remove_scan].
  destruct (remove_scan (S k) l range) as [idxs adds]. cbn [snd] in *.
  destruct (subtract_spec r range Hr) as [Fs Cs].
  destruct (range_subtract r range) as [[a|] [b|]]; cbn [fst snd opt_list app] in *.
  - repeat (apply Forall_cons_iff in Fs as [? Fs]).
    split; [done|]. split; [by repeat constructor|]. intros v.
    rewrite !covers_cons, andb_orb_distrib_l, <- C, <- Cs. cbn.
    destruct (range_contains a v), (range_contains b v), (covers (remove_keep _ _) v); done.
  - apply Forall_cons_iff in Fs as [Fa _].
    destruct (bool_decide (a = r)) eqn:E; cbn [negb].
    + apply bool_decide_eq_true in E as ->. split; [by constructor|]. split; [done|].
      intros v. specialize (Cs v). cbn in Cs. rewrite orb_false_r in Cs.
      rewrite !covers_cons, andb_orb_distrib_l, <- C, <- Cs. by rewrite orb_assoc.
    + split; [done|]. split; [by constructor|]. intros v. specialize (Cs v). cbn in Cs.
      rewrite orb_false_r in Cs.
      cbn [snd]. rewrite !covers_cons, andb_orb_distrib_l, <- C, <- Cs.
      destruct (range_contains a v), (covers (remove_keep _ _) v); done.
  - apply Forall_cons_iff in Fs as [Fa _].
    destruct (bool_decide (b = r)) eqn:E; cbn [negb].
    + apply bool_decide_eq_true in E as ->. split; [by constructor|]. split; [done|].
      intros v. specialize (Cs v). cbn in Cs. rewrite orb_false_r in Cs.
      rewrite !covers_cons, andb_orb_distrib_l, <- C, <- Cs. by rewrite orb_assoc.
    + split; [done|]. split; [by constructor|]. intros v. specialize (Cs v). cbn in Cs.
      rewrite orb_false_r in Cs.
      cbn [snd]. rewrite !covers_cons, andb_orb_distrib_l, <- C, <- Cs.
      destruct (range_contains b v), (covers (remove_keep _ _) v); done.
  - split; [done|]. split; [done|]. intros v. specialize (Cs v). cbn in Cs.
    by rewrite !covers_cons, andb_orb_distrib_l, <- C, <- Cs.
Qed.

Lemma remove_range_ok s range :
  rs_wf s ->
  exists s', remove_range s range = Some s' /\ rs_wf s' /\
    forall v, rs_contains s' v = rs_contains s v && negb (range_contains range v).
Proof.
  intros W. unfold remove_range.
  destruct (remove_scan_covers 0 (ranges s) range W) as (K & A & C).
  pose proof (remove_scan_keep [] (ranges s) range) as E. cbn [length app] in E.
  destruct (remove_scan 0 (ranges s) range) as [idxs adds]. cbn [fst snd] in *.
  rewrite E. msimpl.
  destruct (add_ranges_ok (mkRS (remove_keep (ranges s) range) (needs_sort s)) adds)
    as (s' & E' & W' & C'); [done| |].
  { eapply Forall_impl; [|exact A]. unfold range_ok. cbn. lia. }
  exists s'. split; [done|]. split; [done|]. intros v. rewrite C'. apply C.
Qed.

Lemma remove_ranges_ok s rs :
  rs_wf s ->
  exists s', remove_ranges s rs = Some s' /\ rs_wf s' /\
    forall v, rs_contains s' v = rs_contains s v && negb (covers rs v).
Proof.
  revert s. induction rs as [|r rs IH]; intros s W; cbn [remove_ranges].
  - exists s. split; [done|]. split; [done|]. intros v. by rewrite andb_true_r.
  - destruct (remove_range_ok s r W) as (s1 & E1 & W1 & C1). rewrite E1. msimpl.
    destruct (IH s1 W1) as (s2 & E2 & W2 & C2). exists s2. split; [done|]. split; [done|].
    intros v. by rewrite C2, C1, covers_cons, negb_orb, andb_assoc.
Qed.

(** removing any range never panics, and the set then contains exactly the integers it
    contained outside of the range. *)
Theorem remove_range_spec s range :
  rs_wf s ->
  exists s', remove_range s range = Some s' /\ rs_wf s' /\
    forall v, rs_contains s' v = rs_contains s v && negb (range_contains range v).
Proof. apply remove_range_ok. Qed.

(** ** Set operations *)

Lemma omap_covers l range v :
  covers (omap (fun r => range_intersection r range) l) v = covers l v && range_contains range v.
Proof.
  induction l as [|r l IH]; [done|]. cbn [omap list_omap].
  rewrite covers_cons, andb_orb_distrib_l, <- IH. unfold range_intersection at 1.
  destruct (Z.ltb_spec (Z.max (start r) (start range)) (Z.min (stop r) (stop range))) as [H|H].
  - rewrite covers_cons. f_equal. apply eq_true_iff_eq.
    rewrite andb_true_iff, !range_contains_spec. cbn. lia.
  - replace (range_contains r v && range_contains range v) with false; [done|].
    symmetry. apply not_true_iff_false. rewrite andb_true_iff, !range_contains_spec. lia.
Qed.

Lemma omap_range_ok l range : Forall range_ok (omap (fun r => range_intersection r range) l).
Proof.
  induction l as [|r l IH]; [constructor|]. cbn [omap list_omap].
  unfold range_intersection at 1.
  destruct (Z.ltb_spec (Z.max (start r) (start range)) (Z.min (stop r) (stop range))); [|done].
  constructor; [unfold range_ok; cbn; lia|done].
Qed.

Lemma concat_omap_covers l l2 v :
  covers (concat (map (fun range => omap (fun r => range_intersection r range) l) l2)) v
    = covers l v && covers l2 v.
Proof.
  induction l2 as [|r l2 IH]; cbn [map concat]; [by rewrite andb_false_r|].
  rewrite covers_app, omap_covers, IH, covers_cons, andb_orb_distrib_r. done.
Qed.

Lemma range_one v x : range_contains (mkRange v (v + 1)) x = (x =? v).
Proof. apply eq_true_iff_eq. rewrite range_contains_spec, Z.eqb_eq. cbn. lia. Qed.

Lemma wf_range_ok s : rs_wf s -> Forall range_ok (ranges s).
Proof. intros W. eapply Forall_impl; [|exact W]. unfold range_ok. cbn. lia. Qed.

(** C27: the operations on whole sets are the set operations their names say, and none of
    them panics on sets of non-empty ranges. *)
Theorem set_operations_spec s t :
  rs_wf s -> rs_wf t ->
  (exists u, add_set s t = Some u /\ rs_wf u /\
     forall v, rs_contains u v = rs_contains s v || rs_contains t v) /\
  (exists u, remove_set s t = Some u /\ rs_wf u /\
     forall v, rs_contains u v = rs_contains s v && negb (rs_contains t v)) /\
  (exists u, difference s t = Some u /\ rs_wf u /\
     forall v, rs_contains u v = rs_contains s v && negb (rs_contains t v)) /\
  (exists u, intersection s t = Some u /\ rs_wf u /\
     forall v, rs_contains u v = rs_contains s v && rs_contains t v) /\
  (forall range, exists u, intersection_with_range s range = Some u /\ rs_wf u /\
     forall v, rs_contains u v = rs_contains s v && range_contains range v) /\
  (forall x, exists u, add s x = Some u /\ rs_wf u /\
     forall v, rs_contains u v = rs_contains s v || (v =? x)) /\
  (forall x, exists u, remove s x = Some u /\ rs_wf u /\
     forall v, rs_contains u v = rs_contains s v && negb (v =? x)).
Proof.
  intros Ws Wt. assert (Wn : rs_wf rs_new) by constructor.
  split_and!.
  - apply add_ranges_ok; [done|by apply wf_range_ok].
  - by apply remove_ranges_ok.
  - by apply remove_ranges_ok.
  - destruct (add_ranges_ok rs_new (concat (map (fun range =>
      omap (fun r => range_intersection r range) (ranges s)) (ranges t)))) as (u & E & W & C);
      [done| |].
    + apply Forall_concat, Forall_map, List.Forall_forall. intros r _. apply omap_range_ok.
    + exists u. split; [done|]. split; [done|]. intros v. rewrite C, concat_omap_covers. done.
  - intros range. destruct (add_ranges_ok rs_new (omap (fun r => range_intersection r range) (ranges s)))
      as (u & E & W & C); [done|apply omap_range_ok|].
    exists u. split; [done|]. split; [done|]. intros v. rewrite C, omap_covers. done.
  - intros x. destruct (add_range_n_ok (S (length (ranges s))) s (mkRange x (x + 1)))
      as (u & E & W & C); [lia|done|unfold range_ok; cbn; lia|].
    exists u. split; [done|]. split; [done|]. intros v. by rewrite C, range_one.
  - intros x. destruct (remove_range_ok s (mkRange x (x + 1)) Ws) as (u & E & W & C).
    exists u. split; [done|]. split; [done|]. intros v. by rewrite C, range_one.
Qed.

(** ** Size and enumeration *)

Lemma iter_values_contains s v : In v (iter_values s) <-> rs_contains s v = true.
Proof.
  unfold iter_values, rs_contains. induction (ranges s) as [|r l IH]; [done|].
  cbn [map concat existsb]. rewrite in_app_iff, orb_true_iff, IH, range_contains_spec.
  rewrite in_map_iff. apply or_iff_compat_r. split.
  - intros (n & <- & H%in_seq). lia.
  - intros H. exists (Z.to_nat (v - start r)). rewrite in_seq. lia.
Qed.

Lemma rs_len_sum l a :
  Forall (fun r => start r < stop r) l ->
  fold_left (fun total r => total + stop r - start r) l a =
    a + Z.of_nat (length (iter_values (mkRS l false))).
Proof.
  intros H. revert a. induction H as [|r l Hr Hl IH]; intros a; cbn [fold_left].
  - cbn. lia.
  - rewrite IH. unfold iter_values. cbn [ranges map concat].
    rewrite length_app, length_map, length_seq. lia.
Qed.

(** [iter_values] yields exactly the contained integers, and [len] is the number of
    values it yields. *)
Theorem iter_values_spec s :
  rs_wf s ->
  (forall v, In v (iter_values s) <-> rs_contains s v = true) /\
  rs_len s = Z.of_nat (length (iter_values s)).
Proof.
  intros W. split; [intros v; apply iter_values_contains|].
  unfold rs_len. rewrite rs_len_sum by done.
  by change (iter_values (mkRS (ranges s) false)) with (iter_values s).
Qed.

(** No two stored ranges share an integer. *)
Definition disjoint_ranges (s : RangeSet) : bool := bool_decide (NoDup (iter_values s)).

(** the stored ranges need not stay disjoint. A range that starts in a
    gap after the first stored range and reaches into the next one is inserted
    unmerged, because [intersection_helper] looks at the next range only when the
    one before intersects: [len] and [iter_values] then count the overlap twice. *)
Theorem add_range_can_overlap :
  exists s s', disjoint_ranges s = true /\ rs_wf s /\
    add_range s (mkRange 3 6) = Some s' /\ disjoint_ranges s' = false /\
    iter_values s' = [0; 3; 4; 5; 5; 6; 7] /\ rs_len s' = 7.
Proof.
  exists (mkRS [mkRange 0 1; mkRange 5 8] false),
         (mkRS [mkRange 0 1; mkRange 3 6; mkRange 5 8] false).
  split_and!; try (vm_compute; reflexivity). repeat constructor.
Qed.

(** ** Witnesses *)

Definition sample_set : RangeSet := mkRS [mkRange 1 5; mkRange 8 10] false.

Lemma sample_set_wf : rs_wf sample_set.
Proof. repeat constructor. Qed.

Lemma add_range_spec_witness :
  exists s', add_range sample_set (mkRange 4 9) = Some s' /\ rs_wf s' /\
    forall v, rs_contains s' v = rs_contains sample_set v || range_contains (mkRange 4 9) v.
Proof.
  apply (add_range_spec sample_set (mkRange 4 9)); [apply sample_set_wf|].
  unfold range_ok. cbn. lia.
Defined.

Lemma remove_range_spec_witness :
  exists s', remove_range sample_set (mkRange 3 9) = Some s' /\ rs_wf s' /\
    forall v, rs_contains s' v = rs_contains sample_set v && negb (range_contains (mkRange 3 9) v).
Proof. apply (remove_range_spec sample_set (mkRange 3 9)), sample_set_wf. Defined.

Lemma set_operations_spec_witness :
  exists u, difference sample_set (mkRS [mkRange 2 4] false) = Some u /\ rs_wf u /\
    forall v, rs_contains u v =
      rs_contains sample_set v && negb (rs_contains (mkRS [mkRange 2 4] false) v).
Proof.
  apply (set_operations_spec sample_set (mkRS [mkRange 2 4] false)); [apply sample_set_wf|].
  repeat constructor.
Defined.

Lemma iter_values_spec_witness : rs_len sample_set = Z.of_nat (length (iter_values sample_set)).
Proof. apply (iter_values_spec sample_set), sample_set_wf. Defined.
