(* ===== verification/Base91.v ===== *)
(** The base91 codec of [src/base91/src/lib.rs]: the two tables, the encoder and the
    decoder with their bit accumulators, and the theorem that decoding what
    was encoded gives the original bytes. The wrapped [dyn Write] is the list of
    the bytes written; a step returns [None] where the Rust code would index a
    table out of range or underflow its bit count. *)

From Stdlib Require Import ZArith Lia String.
From stdpp Require Import base numbers list option.
From S2P Require Import Prelude.
Local Open Scope Z_scope.

(** ** Tables *)

Definition ENCTAB : list Z :=
  bs "ABCDEFGHIJKLMNOPQRSTUVWXYZabcdefghijklmnopqrstuvwxyz0123456789!#$%&()*+,./:;<=>?@[]^_`{|}~"
    ++ [34].

Definition INV : Z := 91.

Definition DECTAB : list Z :=
  [INV; INV; INV; INV; INV; INV; INV; INV; INV; INV; INV; INV; INV; INV; INV; INV; INV; INV; INV;
   INV; INV; INV; INV; INV; INV; INV; INV; INV; INV; INV; INV; INV; INV; 62; 90; 63; 64; 65; 66;
   INV; 67; 68; 69; 70; 71; INV; 72; 73; 52; 53; 54; 55; 56; 57; 58; 59; 60; 61; 74; 75; 76; 77;
   78; 79; 80; 0; 1; 2; 3; 4; 5; 6; 7; 8; 9; 10; 11; 12; 13; 14; 15; 16; 17; 18; 19; 20; 21; 22;
   23; 24; 25; 81; INV; 82; 83; 84; 85; 26; 27; 28; 29; 30; 31; 32; 33; 34; 35; 36; 37; 38; 39;
   40; 41; 42; 43; 44; 45; 46; 47; 48; 49; 50; 51; 86; 87; 88; 89; INV; INV; INV; INV; INV; INV;
   INV; INV; INV; INV; INV; INV; INV; INV; INV; INV; INV; INV; INV; INV; INV; INV; INV; INV; INV;
   INV; INV; INV; INV; INV; INV; INV; INV; INV; INV; INV; INV; INV; INV; INV; INV; INV; INV; INV;
   INV; INV; INV; INV; INV; INV; INV; INV; INV; INV; INV; INV; INV; INV; INV; INV; INV; INV; INV;
   INV; INV; INV; INV; INV; INV; INV; INV; INV; INV; INV; INV; INV; INV; INV; INV; INV; INV; INV;
   INV; INV; INV; INV; INV; INV; INV; INV; INV; INV; INV; INV; INV; INV; INV; INV; INV; INV; INV;
   INV; INV; INV; INV; INV; INV; INV; INV; INV; INV; INV; INV; INV; INV; INV; INV; INV; INV; INV;
   INV; INV; INV; INV; INV; INV; INV; INV; INV].

(** [x << n] of a [u64] and of a [u8]. *)
Definition u64_shl (x n : Z) : Z := Z.shiftl x n mod 2 ^ 64.
Definition u8_shl (x n : Z) : Z := Z.shiftl x n mod 2 ^ 8.

(** [bits -= n] of a [u32]: a panic when it underflows. *)
Definition u32_sub (a n : Z) : option Z := if n <=? a then Some (a - n) else None.

(** ** Encoder *)

Record Base91Encoder : Set := mkEnc { e_acc : Z; e_bits : Z }.

Definition enc_new : Base91Encoder := mkEnc 0 0.

(** The two characters of a group. *)
Definition enc_pair (val : Z) : option (list Z) :=
  a ← arr_get ENCTAB (Z.to_nat (val mod 91));
  b ← arr_get ENCTAB (Z.to_nat (val / 91));
  Some [a; b].

(** One round of the loop of [write]. *)
Definition enc_byte (e : Base91Encoder) (b : Z) : option (Base91Encoder * list Z) :=
  let acc := Z.lor (e_acc e) (u64_shl b (e_bits e)) in
  let bits := e_bits e + 8 in
  if 13 <? bits then
    let val := Z.land acc 8191 in
    if 88 <? val then
      bits ← u32_sub bits 13;
      out ← enc_pair val;
      Some (mkEnc (Z.shiftr acc 13) bits, out)
    else
      let val := Z.land acc 16383 in
      bits ← u32_sub bits 14;
      out ← enc_pair val;
      Some (mkEnc (Z.shiftr acc 14) bits, out)
  else Some (mkEnc acc bits, []).

Fixpoint enc_write (e : Base91Encoder) (buf : list Z) : option (Base91Encoder * list Z) :=
  match buf with
  | [] => Some (e, [])
  | b :: r =>
      '(e, o1) ← enc_byte e b;
      '(e, o2) ← enc_write e r;
      Some (e, o1 ++ o2)
  end.

Definition enc_flush (e : Base91Encoder) : option (Base91Encoder * list Z) :=
  out ←
    (if 0 <? e_bits e then
       let val := e_acc e in
       if (7 <? e_bits e) || (90 <? e_acc e) then enc_pair val
       else a ← arr_get ENCTAB (Z.to_nat (val mod 91)); Some [a]
     else Some []);
  Some (mkEnc 0 0, out).

Definition encode (buf : list Z) : option (list Z) :=
  '(e, o1) ← enc_write enc_new buf;
  '(_, o2) ← enc_flush e;
  Some (o1 ++ o2).

(** ** Decoder *)

Record Base91Decoder : Set := mkDec { d_acc : Z; d_bits : Z; d_value : option Z }.

Definition dec_new : Base91Decoder := mkDec 0 0 None.

(** The inner loop of [write]; every round takes 8 bits away, so the number of
    bits bounds the rounds. *)
Fixpoint dec_drain (fuel : nat) (acc bits : Z) : option (Z * Z * list Z) :=
  match fuel with
  | O => None
  | S f =>
      let out := Z.land acc 0xff in
      let acc := Z.shiftr acc 8 in
      bits ← u32_sub bits 8;
      if bits <? 8 then Some (acc, bits, [out])
      else '(acc, bits, o) ← dec_drain f acc bits; Some (acc, bits, out :: o)
  end.

Definition dec_byte (s : Base91Decoder) (b : Z) : option (Base91Decoder * list Z) :=
  d ← arr_get DECTAB (Z.to_nat b);
  if d =? INV then Some (s, [])
  else
    match d_value s with
    | Some value =>
        let value := value + d * 91 in
        let acc := Z.lor (d_acc s) (u64_shl value (d_bits s)) in
        let bits := d_bits s + (if 88 <? Z.land value 8191 then 13 else 14) in
        '(acc, bits, out) ← dec_drain (S (Z.to_nat bits)) acc bits;
        Some (mkDec acc bits None, out)
    | None => Some (mkDec (d_acc s) (d_bits s) (Some d), [])
    end.

Fixpoint dec_write (s : Base91Decoder) (buf : list Z) : option (Base91Decoder * list Z) :=
  match buf with
  | [] => Some (s, [])
  | b :: r =>
      '(s, o1) ← dec_byte s b;
      '(s, o2) ← dec_write s r;
      Some (s, o1 ++ o2)
  end.

Definition dec_flush (s : Base91Decoder) : Base91Decoder * list Z :=
  (mkDec 0 0 None,
   match d_value s with
   | Some value => [Z.lor (as_u8 (Z.land (d_acc s) 0xff)) (u8_shl value (d_bits s))]
   | None => []
   end).

Definition decode (buf : list Z) : option (list Z) :=
  '(s, o1) ← dec_write dec_new buf;
  Some (o1 ++ snd (dec_flush s)).

(** ** Little-endian values *)

Fixpoint le (l : list Z) : Z :=
  match l with [] => 0 | b :: r => b + 256 * le r end.

Lemma pow8 n : 2 ^ (8 * Z.of_nat (S n)) = 256 * 2 ^ (8 * Z.of_nat n).
Proof.
  replace (8 * Z.of_nat (S n)) with (8 + 8 * Z.of_nat n) by lia.
  rewrite Z.pow_add_r by lia. done.
Qed.

Lemma le_app a b : le (a ++ b) = le a + 2 ^ (8 * Z.of_nat (length a)) * le b.
Proof.
  induction a as [|x a IH]; cbn [app le length].
  - change (8 * Z.of_nat 0) with 0. lia.
  - rewrite IH, pow8. lia.
Qed.

Lemma le_bound l : Forall is_byte l -> 0 <= le l < 2 ^ (8 * Z.of_nat (length l)).
Proof.
  induction 1 as [|b l Hb Hl IH]; cbn [le length]; [cbn; lia|].
  rewrite pow8. unfold is_byte in Hb. lia.
Qed.

Lemma le_inj a b :
  Forall is_byte a -> Forall is_byte b -> length a = length b -> le a = le b -> a = b.
Proof.
  intros Ha. revert b. induction Ha as [|x a Hx Ha IH]; intros b Hb Hl E; destruct b as [|y b];
    try done.
  apply Forall_cons_iff in Hb as [Hy Hb]. cbn in E, Hl. unfold is_byte in *.
  assert (x = y) by lia. subst. f_equal. apply IH; [done|lia|lia].
Qed.

(** ** Bit operations as arithmetic *)

Lemma lor_shift acc x n :
  0 <= n -> 0 <= acc < 2 ^ n -> 0 <= x -> x * 2 ^ n < 2 ^ 64 ->
  Z.lor acc (u64_shl x n) = acc + x * 2 ^ n.
Proof.
  intros Hn Ha Hx Hb. unfold u64_shl. rewrite Z.shiftl_mul_pow2 by done.
  rewrite Z.mod_small by nia.
  apply lor_disjoint; lia.
Qed.

Lemma land_mask x k : 0 <= k -> Z.land x (2 ^ k - 1) = x mod 2 ^ k.
Proof. intros. rewrite <- Z.land_ones by done. by rewrite Z.ones_equiv, Z.sub_1_r. Qed.

Lemma land_8191 x : Z.land x 8191 = x mod 8192.
Proof. exact (land_mask x 13 ltac:(lia)). Qed.

Lemma land_16383 x : Z.land x 16383 = x mod 16384.
Proof. exact (land_mask x 14 ltac:(lia)). Qed.

Lemma land_255 x : Z.land x 255 = x mod 256.
Proof. exact (land_mask x 8 ltac:(lia)). Qed.

Lemma shiftr_div x n : 0 <= n -> Z.shiftr x n = x / 2 ^ n.
Proof. apply Z.shiftr_div_pow2. Qed.

(** ** The tables are inverse *)

Lemma tables_inverse i :
  0 <= i < 91 ->
  exists c, arr_get ENCTAB (Z.to_nat i) = Some c /\ is_byte c /\ arr_get DECTAB (Z.to_nat c) = Some i.
Proof.
  intros Hi.
  assert (H : forallb (fun i =>
    match arr_get ENCTAB (Z.to_nat i) with
    | Some c => is_byteb c && bool_decide (arr_get DECTAB (Z.to_nat c) = Some i)
    | None => false end) (zrange 0 90) = true) by (vm_compute; reflexivity).
  pose proof (range_forallb _ _ _ H i ltac:(lia)) as Hc. cbn beta in Hc.
  destruct (arr_get ENCTAB (Z.to_nat i)) as [c|]; [|done]. exists c.
  apply andb_prop in Hc as [Hb Hd]. apply bool_decide_eq_true in Hd.
  unfold is_byteb in Hb. apply rng_spec in Hb. unfold is_byte. split_and!; (done || lia).
Qed.

Lemma dectab_range b :
  is_byte b -> exists d, arr_get DECTAB (Z.to_nat b) = Some d /\ 0 <= d <= 91.
Proof.
  intros Hb.
  assert (H : forallb (fun b =>
    match arr_get DECTAB (Z.to_nat b) with Some d => rng 0 91 d | None => false end) all_bytes = true)
    by (vm_compute; reflexivity).
  pose proof (byte_forallb _ H b Hb) as Hd. cbn beta in Hd.
  destruct (arr_get DECTAB (Z.to_nat b)) as [d|]; [|done]. exists d.
  apply rng_spec in Hd. done.
Qed.

(** ** The accumulators *)

(** Draining splits the accumulator into whole bytes and less than one more. *)
Lemma dec_drain_spec fuel acc bits :
  (Z.to_nat bits < fuel)%nat -> 8 <= bits -> 0 <= acc < 2 ^ bits ->
  exists acc' bits' out, dec_drain fuel acc bits = Some (acc', bits', out) /\
    Forall is_byte out /\ 0 <= bits' < 8 /\ 0 <= acc' < 2 ^ bits' /\
    bits = 8 * Z.of_nat (length out) + bits' /\
    acc = le out + 2 ^ (8 * Z.of_nat (length out)) * acc'.
Proof.
  revert acc bits. induction fuel as [|f IH]; intros acc bits Hf Hb Ha; [lia|].
  cbn [dec_drain]. unfold u32_sub. rewrite (proj2 (Z.leb_le _ _)) by done. msimpl.
  rewrite land_255, shiftr_div by lia. change (2 ^ 8) with 256.
  pose proof (Z.mod_pos_bound acc 256). pose proof (Z.div_mod acc 256).
  assert (Hp : 2 ^ bits = 256 * 2 ^ (bits - 8)).
  { replace bits with (8 + (bits - 8)) at 1 by lia. by rewrite Z.pow_add_r by lia. }
  assert (Hd : 0 <= acc / 256 < 2 ^ (bits - 8)).
  { split; [apply Z.div_pos; lia|]. apply Z.div_lt_upper_bound; lia. }
  destruct (Z.ltb_spec (bits - 8) 8) as [Hs|Hs].
  - exists (acc / 256), (bits - 8), [acc mod 256]. split; [done|].
    split; [repeat constructor; lia|]. split; [lia|]. split; [done|].
    cbn [length le]. change (8 * Z.of_nat 1) with 8. change (2 ^ 8) with 256. lia.
  - destruct (IH (acc / 256) (bits - 8)) as (acc' & bits' & out & E & Fo & Hb' & Ha' & Hbits & Hacc);
      [lia|lia|done|].
    rewrite E. msimpl. exists acc', bits', (acc mod 256 :: out). split; [done|].
    split; [constructor; [unfold is_byte; lia|done]|]. split; [done|]. split; [done|].
    cbn [length le]. rewrite pow8. split; [lia|]. rewrite Hacc in *. lia.
Qed.

Definition enc_ok (e : Base91Encoder) : Prop :=
  0 <= e_bits e <= 13 /\ 0 <= e_acc e < 2 ^ e_bits e.

Definition dec_ok (s : Base91Decoder) : Prop :=
  0 <= d_bits s < 8 /\ 0 <= d_acc s < 2 ^ d_bits s /\
  match d_value s with Some v => 0 <= v < 91 | None => True end.

(** A group of [k] bits and its two characters. *)
Definition group_ok (k val : Z) : Prop :=
  0 <= val < 2 ^ k /\ k = (if 88 <? val mod 8192 then 13 else 14).

Lemma group_pair k val : group_ok k val ->
  exists a b, enc_pair val = Some [a; b] /\ is_byte a /\ is_byte b /\
    arr_get DECTAB (Z.to_nat a) = Some (val mod 91) /\
    arr_get DECTAB (Z.to_nat b) = Some (val / 91) /\ 0 <= val / 91 < 91.
Proof.
  intros [Hv Hk]. assert (Hq : 0 <= val / 91 < 91).
  { split; [apply Z.div_pos; lia|]. apply Z.div_lt_upper_bound; [lia|].
    destruct (Z.ltb_spec 88 (val mod 8192)) as [H|H]; subst k.
    - change (2 ^ 13) with 8192 in Hv. lia.
    - change (2 ^ 14) with 16384 in Hv. pose proof (Z.div_mod val 8192).
      assert (val / 8192 < 2) by (apply Z.div_lt_upper_bound; lia).
      assert (0 <= val / 8192) by (apply Z.div_pos; lia). lia. }
  destruct (tables_inverse (val mod 91)) as (a & Ea & Ba & Da); [apply Z.mod_pos_bound; lia|].
  destruct (tables_inverse (val / 91) Hq) as (b & Eb & Bb & Db).
  exists a, b. unfold enc_pair. rewrite Ea. msimpl. rewrite Eb. done.
Qed.

(** What the decoder does with a pair. *)
Lemma dec_pair k val s a b :
  group_ok k val -> dec_ok s -> d_value s = None ->
  enc_pair val = Some [a; b] ->
  exists s' out, dec_write s [a; b] = Some (s', out) /\ dec_ok s' /\ d_value s' = None /\
    Forall is_byte out /\
    d_bits s + k = 8 * Z.of_nat (length out) + d_bits s' /\
    d_acc s + 2 ^ d_bits s * val = le out + 2 ^ (8 * Z.of_nat (length out)) * d_acc s'.
Proof.
  intros G (Hb & Ha & _) Hn E. pose proof G as [Hv Hk].
  destruct (group_pair k val G) as (a' & b' & E' & Ba & Bb & Da & Db & Hq).
  rewrite E in E'. injection E' as <- <-.
  pose proof (Z.mod_pos_bound val 91 ltac:(lia)) as Hm.
  assert (E1 : dec_byte s a = Some (mkDec (d_acc s) (d_bits s) (Some (val mod 91)), [])).
  { unfold dec_byte. rewrite Da. msimpl. unfold INV.
    rewrite (proj2 (Z.eqb_neq _ _)) by lia. by rewrite Hn. }
  cbn [dec_write]. rewrite E1. msimpl.
  unfold dec_byte. rewrite Db. msimpl. rewrite (proj2 (Z.eqb_neq _ _)) by (unfold INV; lia).
  cbn [d_value d_acc d_bits].
  replace (val mod 91 + val / 91 * 91) with val by (pose proof (Z.div_mod val 91); lia).
  rewrite land_8191, <- Hk.
  assert (Hk14 : 13 <= k <= 14) by (destruct (88 <? val mod 8192); lia).
  assert (Hpk : 2 ^ k <= 16384) by (change 16384 with (2 ^ 14); apply Z.pow_le_mono_r; lia).
  assert (Hpb : 1 <= 2 ^ d_bits s <= 128).
  { split; [change 1 with (2 ^ 0); apply Z.pow_le_mono_r; lia|].
    change 128 with (2 ^ 7). apply Z.pow_le_mono_r; lia. }
  rewrite lor_shift by (try lia; nia).
  assert (Hpow : 2 ^ (d_bits s + k) = 2 ^ d_bits s * 2 ^ k) by (by rewrite Z.pow_add_r by lia).
  destruct (dec_drain_spec (S (Z.to_nat (d_bits s + k))) (d_acc s + val * 2 ^ d_bits s) (d_bits s + k))
    as (acc' & bits' & out & -> & Fo & Hb' & Ha' & Hbits & Hacc); [lia|lia|nia|].
  msimpl. exists (mkDec acc' bits' None), out. rewrite app_nil_r. cbn [app].
  split; [done|]. split; [by unfold dec_ok|]. cbn [d_bits d_acc d_value].
  split_and!; try done. lia.
Qed.

Lemma dec_write_app s a b :
  dec_write s (a ++ b) =
    ('(s1, o1) ← dec_write s a; '(s2, o2) ← dec_write s1 b; Some (s2, o1 ++ o2)).
Proof.
  revert s. induction a as [|x a IH]; intros s; cbn [dec_write app].
  - msimpl. by destruct (dec_write s b) as [[]|].
  - destruct (dec_byte s x) as [[s1 o1]|]; [|done]. msimpl. rewrite IH.
    destruct (dec_write s1 a) as [[s2 o2]|]; [|done]. msimpl.
    destruct (dec_write s2 b) as [[s3 o3]|]; [|done]. msimpl. by rewrite app_assoc.
Qed.

(** One byte through both machines: the bits in flight are conserved. *)
Definition in_flight (s : Base91Decoder) (e : Base91Encoder) : Z :=
  d_acc s + 2 ^ d_bits s * e_acc e.

Lemma enc_byte_dec e s b :
  enc_ok e -> dec_ok s -> d_value s = None -> is_byte b ->
  exists e' chars s' out, enc_byte e b = Some (e', chars) /\
    dec_write s chars = Some (s', out) /\ enc_ok e' /\ dec_ok s' /\ d_value s' = None /\
    Forall is_byte out /\ Forall is_byte chars /\
    d_bits s + e_bits e + 8 = 8 * Z.of_nat (length out) + d_bits s' + e_bits e' /\
    in_flight s e + 2 ^ (d_bits s + e_bits e) * b =
      le out + 2 ^ (8 * Z.of_nat (length out)) * in_flight s' e'.
Proof.
  intros (Hb & Ha) Hs Hn Hby. unfold enc_byte, is_byte in *.
  assert (Hpb : 1 <= 2 ^ e_bits e <= 8192).
  { split; [change 1 with (2 ^ 0); apply Z.pow_le_mono_r; lia|].
    change 8192 with (2 ^ 13). apply Z.pow_le_mono_r; lia. }
  rewrite lor_shift by (try lia; nia).
  set (acc := e_acc e + b * 2 ^ e_bits e).
  assert (Hacc : 0 <= acc < 2 ^ (e_bits e + 8)).
  { rewrite Z.pow_add_r by lia. change (2 ^ 8) with 256. unfold acc. nia. }
  assert (Hpd : 2 ^ (d_bits s + e_bits e) = 2 ^ d_bits s * 2 ^ e_bits e)
    by (destruct Hs; by rewrite Z.pow_add_r by lia).
  assert (Hin : in_flight s e + 2 ^ (d_bits s + e_bits e) * b = d_acc s + 2 ^ d_bits s * acc)
    by (unfold in_flight, acc; rewrite Hpd; ring).
  rewrite Hin.
  destruct (Z.ltb_spec 13 (e_bits e + 8)) as [H13|H13].
  2:{ exists (mkEnc acc (e_bits e + 8)), [], s, []. unfold in_flight, enc_ok.
      cbn [e_acc e_bits dec_write length le]. change (2 ^ (8 * Z.of_nat 0)) with 1.
      split_and!; try done; lia. }
  assert (Hgroup : forall k, (k = 13 \/ k = 14 /\ 14 <= e_bits e + 8) ->
    group_ok k (acc mod 2 ^ k) ->
    exists e' chars s' out,
      (bits ← u32_sub (e_bits e + 8) k; out ← enc_pair (acc mod 2 ^ k);
       Some (mkEnc (Z.shiftr acc k) bits, out)) = Some (e', chars) /\
      dec_write s chars = Some (s', out) /\ enc_ok e' /\ dec_ok s' /\ d_value s' = None /\
      Forall is_byte out /\ Forall is_byte chars /\
      d_bits s + e_bits e + 8 = 8 * Z.of_nat (length out) + d_bits s' + e_bits e' /\
      d_acc s + 2 ^ d_bits s * acc = le out + 2 ^ (8 * Z.of_nat (length out)) * in_flight s' e').
  { intros k Hk G. unfold u32_sub. rewrite (proj2 (Z.leb_le _ _)) by lia. msimpl.
    destruct (group_pair k _ G) as (x & y & E & Bx & By & _). rewrite E. msimpl.
    destruct (dec_pair k _ s x y G Hs Hn E) as (s' & out & Ed & Hs' & Hn' & Fo & Hbits & Heq).
    eexists _, _, s', out. split; [done|]. split; [done|].
    rewrite shiftr_div by lia.
    assert (Hk0 : 0 < 2 ^ k) by (apply Z.pow_pos_nonneg; lia).
    pose proof (Z.div_mod acc (2 ^ k)) as Hdm.
    split.
    { unfold enc_ok. cbn. split; [lia|]. split; [apply Z.div_pos; lia|].
      apply Z.div_lt_upper_bound; [lia|]. rewrite <- Z.pow_add_r by lia.
      replace (k + (e_bits e + 8 - k)) with (e_bits e + 8) by lia. lia. }
    split; [done|]. split; [done|]. split; [done|]. split; [apply List.Forall_cons; [done|apply List.Forall_cons; [done|apply List.Forall_nil]]|].
    cbn [e_bits]. split; [lia|]. unfold in_flight. cbn [e_acc].
    assert (Hpp : 2 ^ d_bits s * 2 ^ k = 2 ^ (8 * Z.of_nat (length out)) * 2 ^ d_bits s').
    { destruct Hs as [Hs _]. destruct Hs' as [Hs' _].
      rewrite <- !Z.pow_add_r by lia. f_equal. lia. }
    rewrite Z.mul_add_distr_l, Z.add_assoc, <- Heq, Z.mul_assoc, <- Hpp.
    rewrite Hdm at 1 by lia. ring. }
  rewrite land_8191, land_16383. pose proof (Z.mod_pos_bound acc 8192 ltac:(lia)) as Hm.
  destruct (Z.ltb_spec 88 (acc mod 8192)) as [H88|H88].
  - apply (Hgroup 13); [by left|]. change (2 ^ 13) with 8192.
    split; [change (2 ^ 13) with 8192; lia|]. rewrite Z.mod_mod by lia.
    by rewrite (proj2 (Z.ltb_lt _ _)).
  - apply (Hgroup 14); [right; lia|]. change (2 ^ 14) with 16384.
    split; [change (2 ^ 14) with 16384; apply Z.mod_pos_bound; lia|].
    rewrite Z.mod_mod_divide by (by exists 2).
    by rewrite (proj2 (Z.ltb_ge _ _)).
Qed.

Lemma enc_write_dec l e s :
  enc_ok e -> dec_ok s -> d_value s = None -> Forall is_byte l ->
  exists e' chars s' out, enc_write e l = Some (e', chars) /\
    dec_write s chars = Some (s', out) /\ enc_ok e' /\ dec_ok s' /\ d_value s' = None /\
    Forall is_byte out /\ Forall is_byte chars /\
    d_bits s + e_bits e + 8 * Z.of_nat (length l) =
      8 * Z.of_nat (length out) + d_bits s' + e_bits e' /\
    in_flight s e + 2 ^ (d_bits s + e_bits e) * le l =
      le out + 2 ^ (8 * Z.of_nat (length out)) * in_flight s' e'.
Proof.
  revert e s. induction l as [|b l IH]; intros e s He Hs Hn Hl.
  - exists e, [], s, []. cbn [le length enc_write dec_write].
    change (2 ^ (8 * Z.of_nat 0)) with 1. split_and!; try done; lia.
  - apply Forall_cons_iff in Hl as [Hb Hl].
    destruct (enc_byte_dec e s b He Hs Hn Hb)
      as (e1 & c1 & s1 & o1 & E1 & D1 & He1 & Hs1 & Hn1 & Fo1 & Fc1 & Hbits1 & Hv1).
    destruct (IH e1 s1 He1 Hs1 Hn1 Hl)
      as (e2 & c2 & s2 & o2 & E2 & D2 & He2 & Hs2 & Hn2 & Fo2 & Fc2 & Hbits2 & Hv2).
    exists e2, (c1 ++ c2), s2, (o1 ++ o2). cbn [enc_write].
    rewrite E1. msimpl. rewrite E2. msimpl. rewrite dec_write_app, D1. msimpl. rewrite D2. msimpl.
    split; [done|]. split; [done|]. split; [done|]. split; [done|]. split; [done|].
    split; [by apply Forall_app|]. split; [by apply Forall_app|].
    rewrite length_app. cbn [length le]. split; [lia|].
    rewrite le_app.
    replace (8 * Z.of_nat (length o1 + length o2))
      with (8 * Z.of_nat (length o1) + 8 * Z.of_nat (length o2)) by lia.
    rewrite (Z.pow_add_r 2 (8 * _)) by lia.
    destruct Hs as (Hsb & _), He as (Heb & _), Hs1 as (Hsb1 & _), He1 as (Heb1 & _).
    transitivity (in_flight s e + 2 ^ (d_bits s + e_bits e) * b
                  + 2 ^ (d_bits s + e_bits e + 8) * le l).
    { rewrite (Z.pow_add_r 2 (_ + _) 8) by lia. change (2 ^ 8) with 256. ring. }
    rewrite Hv1, Hbits1.
    replace (8 * Z.of_nat (length o1) + d_bits s1 + e_bits e1)
      with (8 * Z.of_nat (length o1) + (d_bits s1 + e_bits e1)) by lia.
    rewrite (Z.pow_add_r 2 (8 * _)) by lia.
    transitivity (le o1 + 2 ^ (8 * Z.of_nat (length o1)) *
                  (in_flight s1 e1 + 2 ^ (d_bits s1 + e_bits e1) * le l)); [ring|].
    rewrite Hv2. ring.
Qed.

(** What is left at the end: the encoder's flush, fed to the decoder, and the
    decoder's flush give the last bytes. *)
Lemma flush_dec e s :
  enc_ok e -> dec_ok s -> d_value s = None ->
  (d_bits s + e_bits e) mod 8 = 0 ->
  exists chars s' out, enc_flush e = Some (mkEnc 0 0, chars) /\
    dec_write s chars = Some (s', out) /\ Forall is_byte chars /\
    Forall is_byte (out ++ snd (dec_flush s')) /\
    d_bits s + e_bits e = 8 * Z.of_nat (length (out ++ snd (dec_flush s'))) /\
    in_flight s e = le (out ++ snd (dec_flush s')).
Proof.
  intros (Hb & Ha) Hs Hn H8. unfold enc_flush. pose proof Hs as (Hsb & Hsa & _).
  pose proof (Z.div_mod (d_bits s + e_bits e) 8) as Hdm.
  set (q := (d_bits s + e_bits e) / 8) in *.
  destruct (Z.ltb_spec 0 (e_bits e)) as [H0|H0].
  2:{ assert (e_bits e = 0) as E0 by lia. assert (d_bits s = 0) as D0 by lia.
      exists [], s, []. msimpl. unfold dec_flush, in_flight. rewrite Hn, E0, D0 in *. cbn.
      change (2 ^ 0) with 1 in *. split_and!; try done. lia. }
  destruct ((7 <? e_bits e) || (90 <? e_acc e)) eqn:Ep.
  - assert (Hk : exists k, group_ok k (e_acc e) /\ e_bits e <= k < e_bits e + 8 /\ 13 <= k).
    { assert (Hlt : e_acc e < 8192).
      { apply Z.lt_le_trans with (2 ^ e_bits e); [lia|]. change 8192 with (2 ^ 13).
        apply Z.pow_le_mono_r; lia. }
      assert (H7 : 7 <= e_bits e).
      { apply orb_prop in Ep. rewrite !Z.ltb_lt in Ep. destruct Ep as [Ep|Ep]; [lia|].
        destruct (Z.le_gt_cases 7 (e_bits e)) as [|Hlt6]; [done|].
        assert (2 ^ e_bits e <= 64); [|lia]. change 64 with (2 ^ 6). apply Z.pow_le_mono_r; lia. }
      exists (if 88 <? e_acc e mod 8192 then 13 else 14). rewrite Z.mod_small by lia.
      unfold group_ok. rewrite Z.mod_small by lia.
      destruct (Z.ltb_spec 88 (e_acc e)) as [H88|H88].
      - change (2 ^ 13) with 8192. lia.
      - change (2 ^ 14) with 16384. apply orb_prop in Ep. rewrite !Z.ltb_lt in Ep. lia. }
    destruct Hk as (k & G & Hke & Hk13).
    destruct (group_pair k _ G) as (x & y & E & Bx & By & _). rewrite E. msimpl.
    destruct (dec_pair k _ s x y G Hs Hn E) as (s' & out & Ed & Hs' & Hn' & Fo & Hbits & Heq).
    exists [x; y], s', out. split; [done|]. split; [done|].
    split; [apply List.Forall_cons; [done|apply List.Forall_cons; [done|apply List.Forall_nil]]|].
    unfold dec_flush. rewrite Hn'. cbn [snd]. rewrite app_nil_r.
    destruct Hs' as (Hsb' & Hsa' & _).
    assert (Hlen : d_bits s + e_bits e = 8 * Z.of_nat (length out)) by lia.
    split; [done|]. split; [done|]. unfold in_flight. rewrite Heq.
    assert (Hin : 0 <= in_flight s e < 2 ^ (8 * Z.of_nat (length out))).
    { rewrite <- Hlen, Z.pow_add_r by lia. unfold in_flight. nia. }
    unfold in_flight in Hin. rewrite Heq in Hin. pose proof (le_bound out Fo).
    assert (d_acc s' = 0) as -> by nia. ring.
  - apply orb_false_elim in Ep as [E7 E90]. apply Z.ltb_ge in E7, E90.
    assert (Hq : d_bits s + e_bits e = 8) by lia.
    rewrite Z.mod_small by lia.
    destruct (tables_inverse (e_acc e)) as (c & Ec & Bc & Dc); [lia|]. rewrite Ec. msimpl.
    exists [c], (mkDec (d_acc s) (d_bits s) (Some (e_acc e))), [].
    cbn [dec_write]. unfold dec_byte. rewrite Dc. msimpl. unfold INV.
    rewrite (proj2 (Z.eqb_neq _ _)) by lia. rewrite Hn. msimpl.
    split; [done|]. split; [done|].
    split; [apply List.Forall_cons; [done|apply List.Forall_nil]|].
    unfold dec_flush. cbn [snd d_value d_acc d_bits app length le].
    assert (Hp7 : 2 ^ d_bits s <= 128)
      by (change 128 with (2 ^ 7); apply Z.pow_le_mono_r; lia).
    assert (Hprod : d_acc s + e_acc e * 2 ^ d_bits s < 256).
    { assert (2 ^ d_bits s * 2 ^ e_bits e = 256) by (rewrite <- Z.pow_add_r by lia; by rewrite Hq).
      nia. }
    assert (Hbyte : Z.lor (as_u8 (Z.land (d_acc s) 255)) (u8_shl (e_acc e) (d_bits s)) = in_flight s e).
    { unfold as_u8, u8_shl, in_flight. rewrite land_255, Z.mod_mod by lia.
      rewrite Z.shiftl_mul_pow2 by lia. change (2 ^ 8) with 256.
      rewrite !Z.mod_small by nia. rewrite lor_disjoint by lia. ring. }
    rewrite Hbyte. unfold in_flight. split_and!; try lia.
    apply List.Forall_cons; [unfold is_byte; nia|apply List.Forall_nil].
Qed.

Lemma lor_byte x y : is_byte x -> is_byte y -> is_byte (Z.lor x y).
Proof.
  unfold is_byte. intros Hx Hy. split; [apply Z.lor_nonneg; lia|].
  change 256 with (2 ^ 8) in *.
  destruct (Z.eq_dec x 0) as [->|]; [rewrite Z.lor_0_l; lia|].
  destruct (Z.eq_dec y 0) as [->|]; [rewrite Z.lor_0_r; lia|].
  assert (Hn : 0 <= Z.lor x y) by (apply Z.lor_nonneg; lia).
  assert (Z.lor x y <> 0) by (intros E; apply Z.lor_eq_0_iff in E; lia).
  apply Z.log2_lt_pow2; [lia|]. rewrite Z.log2_lor by lia.
  apply Z.max_lub_lt; apply Z.log2_lt_pow2; lia.
Qed.

(** C19: decoding what was encoded gives back the bytes, for every byte string; neither
    direction indexes a table out of range or loses bits. *)
Theorem decode_encode buf :
  Forall is_byte buf ->
  exists chars, encode buf = Some chars /\ Forall is_byte chars /\ decode chars = Some buf.
Proof.
  intros Hl. unfold encode, decode.
  destruct (enc_write_dec buf enc_new dec_new)
    as (e & c1 & s & o1 & E1 & D1 & He & Hs & Hn & Fo1 & Fc1 & Hbits & Hv).
  { split; cbn; lia. }
  { split_and!; cbn; lia. }
  { done. }
  { done. }
  rewrite E1. msimpl.
  assert (H8 : (d_bits s + e_bits e) mod 8 = 0).
  { replace (d_bits s + e_bits e) with ((Z.of_nat (length buf) - Z.of_nat (length o1)) * 8)
      by (cbn in Hbits; lia). apply Z.mod_mul. lia. }
  destruct (flush_dec e s He Hs Hn H8) as (c2 & s2 & o2 & E2 & D2 & Fc2 & Fo2 & Hbits2 & Hv2).
  rewrite E2. msimpl. eexists; split; [done|]. split; [by apply Forall_app|].
  rewrite dec_write_app, D1. msimpl. rewrite D2. msimpl. f_equal. rewrite <- app_assoc.
  apply le_inj; [by apply Forall_app|done| |].
  - apply Nat2Z.inj. rewrite length_app, Nat2Z.inj_add. cbn in Hbits. lia.
  - rewrite le_app, <- Hv2. rewrite <- Hv. unfold in_flight. cbn. lia.
Qed.

(** the decoder is total: whatever bytes it is given, it stops, and what it writes
    are bytes. *)
Theorem decode_total buf :
  Forall is_byte buf -> exists out, decode buf = Some out /\ Forall is_byte out.
Proof.
  intros Hl. unfold decode.
  assert (H : forall l s, Forall is_byte l -> dec_ok s ->
    exists s' out, dec_write s l = Some (s', out) /\ dec_ok s' /\ Forall is_byte out).
  { clear. induction l as [|b l IH]; intros s Hl Hs; [by exists s, []|].
    apply Forall_cons_iff in Hl as [Hb Hl]. cbn [dec_write].
    assert (H1 : exists s1 o1, dec_byte s b = Some (s1, o1) /\ dec_ok s1 /\ Forall is_byte o1).
    { destruct Hs as (Hsb & Hsa & Hsv). unfold dec_byte.
      destruct (dectab_range b Hb) as (d & -> & Hd). msimpl. unfold INV.
      destruct (Z.eqb_spec d 91) as [->|Hd91]; [by exists s, []|].
      destruct (d_value s) as [v|]; [|eexists _, _; split; [done|]; split; [|done];
        split_and!; cbn; (done || lia)].
      rewrite land_8191. set (val := v + d * 91).
      set (k := if 88 <? val mod 8192 then 13 else 14).
      assert (Hk : 13 <= k <= 14 /\ 0 <= val < 2 ^ k).
      { pose proof (Z.div_mod val 8192). pose proof (Z.mod_pos_bound val 8192).
        subst k val. destruct (Z.ltb_spec 88 ((v + d * 91) mod 8192));
          [change (2 ^ 13) with 8192|change (2 ^ 14) with 16384]; nia. }
      assert (Hpb : 1 <= 2 ^ d_bits s <= 128).
      { split; [change 1 with (2 ^ 0); apply Z.pow_le_mono_r; lia|].
        change 128 with (2 ^ 7). apply Z.pow_le_mono_r; lia. }
      assert (Hpk : 2 ^ k <= 16384) by (change 16384 with (2 ^ 14); apply Z.pow_le_mono_r; lia).
      rewrite lor_shift by (try lia; nia).
      destruct (dec_drain_spec (S (Z.to_nat (d_bits s + k))) (d_acc s + val * 2 ^ d_bits s) (d_bits s + k))
        as (acc' & bits' & out & -> & Fo & Hb' & Ha' & _); [lia|lia| |].
      - rewrite Z.pow_add_r by lia. nia.
      - msimpl. eexists _, _. split; [done|]. split; [by unfold dec_ok|done]. }
    destruct H1 as (s1 & o1 & -> & Hs1 & Fo1). msimpl.
    destruct (IH s1 Hl Hs1) as (s2 & o2 & -> & Hs2 & Fo2). msimpl.
    exists s2, (o1 ++ o2). split; [done|]. split; [done|]. by apply Forall_app. }
  destruct (H buf dec_new Hl) as (s & out & -> & Hs & Fo); [split_and!; cbn; lia|]. msimpl.
  eexists; split; [done|]. apply Forall_app. split; [done|].
  unfold dec_flush. cbn [snd]. destruct (d_value s) as [v|]; [|done].
  apply List.Forall_cons; [|done]. unfold as_u8, u8_shl. rewrite land_255.
  pose proof (Z.mod_pos_bound (d_acc s mod 256) (2 ^ 8) ltac:(lia)) as H1.
  pose proof (Z.mod_pos_bound (Z.shiftl v (d_bits s)) (2 ^ 8) ltac:(lia)) as H2.
  by apply lor_byte.
Qed.

(** ** Witnesses *)

Lemma decode_encode_witness :
  exists chars, encode (bs "terminal" ++ [0; 255; 91]) = Some chars /\ Forall is_byte chars /\
    decode chars = Some (bs "terminal" ++ [0; 255; 91]).
Proof. apply decode_encode. cbn. repeat (apply List.Forall_cons; [unfold is_byte; lia|]). apply List.Forall_nil. Defined.

Lemma decode_total_witness :
  exists out, decode (bs "A~ b" ++ [200]) = Some out /\ Forall is_byte out.
Proof. apply decode_total. cbn. repeat (apply List.Forall_cons; [unfold is_byte; lia|]). apply List.Forall_nil. Defined.
