(* ===== verification/CallMonad.v ===== *)
(** Computations on a state that may panic and that make calls on other objects: the
    state is passed, [None] is a panic, and the calls are listed in the order in
    which they are made. *)

From Stdlib Require Import ZArith Lia.
From stdpp Require Import base numbers list option.
From S2P Require Import Prelude.

Definition CallM (St Ev A : Type) : Type := St -> option (A * St * list Ev).

Section Monad.
Context {St Ev : Type}.

#[export] Instance CallM_ret : MRet (CallM St Ev) := fun A a st => Some (a, st, []).
#[export] Instance CallM_bind : MBind (CallM St Ev) := fun A B k m st =>
  match m st with
  | None => None
  | Some (a, st', tr) =>
      match k a st' with
      | None => None
      | Some (b, st'', tr') => Some (b, st'', tr ++ tr')
      end
  end.

Definition gets {A} (f : St -> A) : CallM St Ev A := fun st => Some (f st, st, []).
Definition modify (f : St -> St) : CallM St Ev unit := fun st => Some (tt, f st, []).
Definition emit (c : Ev) : CallM St Ev unit := fun st => Some (tt, st, [c]).
Definition panic {A} : CallM St Ev A := fun _ => None.

(** A computation that only may panic. *)
Definition lift {A} (o : option A) : CallM St Ev A :=
  fun st => match o with Some a => Some (a, st, []) | None => None end.

Fixpoint emits (cs : list Ev) : CallM St Ev unit :=
  match cs with [] => mret tt | c :: cs => emit c;; emits cs end.

(** ** Running computations *)

Lemma bind_run {A B} (m : CallM St Ev A) (k : A -> CallM St Ev B) st a st' tr :
  m st = Some (a, st', tr) ->
  (m ≫= k) st = match k a st' with
                | Some (b, st'', tr') => Some (b, st'', tr ++ tr')
                | None => None
                end.
Proof. intros E. cbv [mbind CallM_bind]. rewrite E. by destruct (k a st') as [[[]]|]. Qed.

Lemma bind_runs {A B} (m : CallM St Ev A) (k : A -> CallM St Ev B) st a st' tr b st'' tr' :
  m st = Some (a, st', tr) -> k a st' = Some (b, st'', tr') ->
  (m ≫= k) st = Some (b, st'', tr ++ tr').
Proof. intros E1 E2. by rewrite (bind_run _ _ _ _ _ _ E1), E2. Qed.

Lemma bind_inv {A B} (m : CallM St Ev A) (k : A -> CallM St Ev B) st r :
  (m ≫= k) st = Some r ->
  exists a st' tr b st'' tr', m st = Some (a, st', tr) /\ k a st' = Some (b, st'', tr') /\
    r = (b, st'', tr ++ tr').
Proof.
  cbv [mbind CallM_bind]. destruct (m st) as [[[a st'] tr]|]; [|done].
  destruct (k a st') as [[[b st''] tr']|] eqn:E; [|done]. intros [= <-]. eauto 10.
Qed.

(** A computation that neither calls nor changes the state, with its result. *)
Definition silent {A} (m : CallM St Ev A) (st : St) (a : A) : Prop := m st = Some (a, st, []).

Lemma silent_run {A B} (m : CallM St Ev A) (k : A -> CallM St Ev B) st a :
  silent m st a -> (m ≫= k) st = k a st.
Proof. intros E. rewrite (bind_run _ _ _ _ _ _ E). by destruct (k a st) as [[[]]|]. Qed.

Lemma lift_run {A} (o : option A) st a : o = Some a -> silent (lift o) st a.
Proof. by intros ->. Qed.

Lemma modify_run {B} f (k : unit -> CallM St Ev B) st : (modify f ≫= k) st = k tt (f st).
Proof. cbv [mbind CallM_bind modify]. by destruct (k tt (f st)) as [[[]]|]. Qed.

Lemma emits_run cs st : emits cs st = Some (tt, st, cs).
Proof.
  induction cs as [|c cs IH]; [done|]. cbn [emits]. by erewrite bind_runs; [|done|exact IH].
Qed.

End Monad.
