(* ===== verification/Post.v ===== *)
(** Total postconditions: a computation that may panic returns, and what it returns satisfies a
    predicate. The rules follow the structure of the computation; [step] applies them. *)

From Stdlib Require Import ZArith Lia.
From S2P Require Import Prelude CallMonad.
From stdpp Require Import base numbers list option.

(** ** For [option] *)

Definition yields {A} (o : option A) (Q : A -> Prop) : Prop :=
  match o with Some a => Q a | None => False end.

Lemma yields_Some {A} (a : A) (Q : A -> Prop) : Q a -> yields (Some a) Q.
Proof. done. Qed.

Lemma yields_bind {A B} (o : option A) (k : A -> option B) (P : A -> Prop) Q :
  yields o P -> (forall a, P a -> yields (k a) Q) -> yields (o ≫= k) Q.
Proof. destruct o; [|done]. cbn. auto. Qed.

Lemma yields_weaken {A} (o : option A) (P Q : A -> Prop) :
  yields o P -> (forall a, P a -> Q a) -> yields o Q.
Proof. destruct o; [|done]. cbn. auto. Qed.

Lemma yields_exists {A} (o : option A) (Q : A -> Prop) :
  yields o Q <-> exists a, o = Some a /\ Q a.
Proof. split; [destruct o; [|done]; cbn; eauto|]. by intros (a & -> & H). Qed.

Lemma yields_assert (b : bool) (Q : unit -> Prop) : b = true -> Q tt -> yields (rust_assert b) Q.
Proof. by intros ->. Qed.

Lemma yields_usize_sub (a b : nat) (Q : nat -> Prop) :
  (b <= a)%nat -> Q (a - b)%nat -> yields (usize_sub a b) Q.
Proof. intros Hab HQ. by rewrite usize_sub_Some. Qed.

Lemma yields_lookup {A} (l : list A) i (P : A -> Prop) :
  (i < length l)%nat -> Forall P l -> yields (l !! i) P.
Proof.
  intros [x Hx]%lookup_lt_is_Some_2 HP. rewrite Hx. by apply (Forall_lookup_1 P l i).
Qed.

(** A loop over a list that passes a value on. *)
Lemma yields_foldr {A B} (f : B -> A -> option A) (I : A -> Prop) (l : list B) (a : A) :
  I a -> (forall b a, b ∈ l -> I a -> yields (f b a) I) ->
  yields (foldr (fun b acc => a ← acc; f b a) (Some a) l) I.
Proof.
  intros Ha Hf. induction l as [|b l IH]; [done|]. cbn [foldr].
  eapply yields_bind; [apply IH; intros ? ? ?; apply Hf; by right|]; intros; apply Hf; [by left|done].
Qed.

(** ** For computations with a state and a trace *)

Section Returns.
Context {St Ev : Type}.
Implicit Types st : St.

(** [m] returns from [st], and the result, the state and the trace satisfy [Q]. *)
Definition returns {A} (m : CallM St Ev A) st (Q : A -> St -> list Ev -> Prop) : Prop :=
  yields (m st) (fun '(a, st', tr) => Q a st' tr).

Lemma returns_ret {A} (a : A) st (Q : A -> St -> list Ev -> Prop) :
  Q a st [] -> returns (mret a) st Q.
Proof. done. Qed.

Lemma returns_gets {A} (f : St -> A) st (Q : A -> St -> list Ev -> Prop) :
  Q (f st) st [] -> returns (gets f) st Q.
Proof. done. Qed.

Lemma returns_modify (f : St -> St) st (Q : unit -> St -> list Ev -> Prop) :
  Q tt (f st) [] -> returns (modify f) st Q.
Proof. done. Qed.

Lemma returns_emit (c : Ev) st (Q : unit -> St -> list Ev -> Prop) :
  Q tt st [c] -> returns (emit c) st Q.
Proof. done. Qed.

Lemma returns_lift {A} (o : option A) st (Q : A -> St -> list Ev -> Prop) :
  yields o (fun a => Q a st []) -> returns (lift o) st Q.
Proof. by destruct o. Qed.

Lemma returns_weaken {A} (m : CallM St Ev A) st (P Q : A -> St -> list Ev -> Prop) :
  returns m st P -> (forall a st' tr, P a st' tr -> Q a st' tr) -> returns m st Q.
Proof. intros Hm HPQ. eapply yields_weaken; [exact Hm|]. intros [[a st'] tr]. apply HPQ. Qed.

Lemma returns_bind {A B} (m : CallM St Ev A) (k : A -> CallM St Ev B) st
  (P : A -> St -> list Ev -> Prop) (Q : B -> St -> list Ev -> Prop) :
  returns m st P ->
  (forall a st' tr, P a st' tr -> returns (k a) st' (fun b st'' tr' => Q b st'' (tr ++ tr'))) ->
  returns (m ≫= k) st Q.
Proof.
  unfold returns. intros Hm Hk. cbv [mbind CallM_bind]. destruct (m st) as [[[a st'] tr]|]; [|done].
  specialize (Hk a st' tr Hm). by destruct (k a st') as [[[]]|].
Qed.

(** A first step without a trace. *)
Lemma returns_gets_bind {A B} (f : St -> A) (k : A -> CallM St Ev B) st Q :
  returns (k (f st)) st Q -> returns (gets f ≫= k) st Q.
Proof. unfold returns. by rewrite (silent_run _ _ _ (f st)). Qed.

Lemma returns_modify_bind {B} (f : St -> St) (k : unit -> CallM St Ev B) st Q :
  returns (k tt) (f st) Q -> returns (modify f ≫= k) st Q.
Proof. unfold returns. by rewrite modify_run. Qed.

Lemma returns_lift_bind {A B} (o : option A) (k : A -> CallM St Ev B) st Q :
  yields o (fun a => returns (k a) st Q) -> returns (lift o ≫= k) st Q.
Proof.
  unfold returns. destruct o as [a|] eqn:E; [|done]. by rewrite (silent_run _ _ _ a).
Qed.

(** ** Invariants: the computation returns and keeps [I] *)

Definition keeps {A} (I : St -> Prop) (m : CallM St Ev A) : Prop :=
  forall st, I st -> returns m st (fun _ st' _ => I st').

Lemma returns_keeps_bind {A B} I (m : CallM St Ev A) (k : A -> CallM St Ev B) st
  (Q : B -> St -> list Ev -> Prop) :
  keeps I m -> I st ->
  (forall a st' tr, I st' -> returns (k a) st' (fun b st'' tr' => Q b st'' (tr ++ tr'))) ->
  returns (m ≫= k) st Q.
Proof. intros Hm Hst Hk. eapply returns_bind; [by apply Hm|]. intros a st' tr Hst'. by apply Hk. Qed.

Lemma keeps_bind {A B} I (m : CallM St Ev A) (k : A -> CallM St Ev B) :
  keeps I m -> (forall a, keeps I (k a)) -> keeps I (m ≫= k).
Proof. intros Hm Hk st Hst. eapply returns_keeps_bind; try done. intros a st' _. apply Hk. Qed.

Lemma keeps_gets {A B} I (f : St -> A) (k : A -> CallM St Ev B) :
  (forall st, I st -> returns (k (f st)) st (fun _ st' _ => I st')) -> keeps I (gets f ≫= k).
Proof. intros Hk st Hst. by apply returns_gets_bind, Hk. Qed.

Lemma keeps_ret {A} I (a : A) : keeps I (mret a).
Proof. by intros st Hst. Qed.

Lemma keeps_emit I (c : Ev) : keeps I (emit c).
Proof. by intros st Hst. Qed.

Lemma keeps_modify I (f : St -> St) : (forall st, I st -> I (f st)) -> keeps I (modify f).
Proof. intros Hf st Hst. by apply returns_modify, Hf. Qed.

End Returns.

(** One step of a computation, from its structure. *)
Ltac step :=
  first [ apply returns_gets_bind | apply returns_modify_bind | apply returns_lift_bind
        | apply returns_ret | apply returns_gets | apply returns_modify | apply returns_emit
        | apply returns_lift ]; cbv beta.
