(* ===== verification/Lfu.v ===== *)
(** The cache of [src/lfucache/src/lib.rs]: entries shared by hash buckets, a tree ordered by
    frequency and a list ordered by recency, with the least frequently used entry evicted
    first. An entry is a cell of a store that the three indexes point to, as the [Rc] of the
    source is; the collections are the third-party crate [intrusive_collections], the
    class [Intrusive] with its laws. The metrics a call records are its trace. *)

From Stdlib Require Import ZArith Lia Sorted.
From stdpp Require Import base numbers list option gmap.
From S2P Require Import Prelude CallMonad Post.
Local Open Scope Z_scope.

(** ** The collections of [intrusive_collections]

    An element is linked or not; [ll_unlink] and [rb_unlink] stand for
    [cursor_mut_from_ptr(p).remove()], whose safety contract is that the element is linked. *)

Class Intrusive : Type := {
  LinkedList : Type;
  ll_new : LinkedList;
  ll_iter : LinkedList -> list nat;
  ll_push_front : nat -> LinkedList -> LinkedList;
  ll_unlink : nat -> LinkedList -> LinkedList;
  RBTree : Type;
  rb_new : RBTree;
  rb_iter : RBTree -> list nat;
  rb_insert : (nat -> Z) -> nat -> RBTree -> RBTree;
  rb_unlink : nat -> RBTree -> RBTree;
  rb_lower_bound : (nat -> Z) -> Z -> RBTree -> option nat }.

(** [key] is what [KeyAdapter::get_key] reads while the operation runs. *)
Definition ordered (key : nat -> Z) : list nat -> Prop := StronglySorted (fun a b => key a <= key b).

Class IntrusiveLaws (I : Intrusive) : Prop := {
  ll_iter_new : ll_iter ll_new = [];
  ll_iter_push_front x l : ll_iter (ll_push_front x l) = x :: ll_iter l;
  ll_iter_unlink x l l1 l2 :
    ll_iter l = l1 ++ x :: l2 -> x ∉ l1 -> ll_iter (ll_unlink x l) = l1 ++ l2;
  rb_iter_new : rb_iter rb_new = [];
  rb_iter_insert key x t : rb_iter (rb_insert key x t) ≡ₚ x :: rb_iter t;
  rb_insert_ordered key x t : ordered key (rb_iter t) -> ordered key (rb_iter (rb_insert key x t));
  rb_iter_unlink x t l1 l2 :
    rb_iter t = l1 ++ x :: l2 -> x ∉ l1 -> rb_iter (rb_unlink x t) = l1 ++ l2;
  rb_lower_bound_spec key b t :
    ordered key (rb_iter t) -> rb_lower_bound key b t = List.find (fun x => b <=? key x) (rb_iter t) }.

(** ** Data *)

Record Entry {K V : Type} := mkEntry { freq : Z; last_tick : Z; key : K; value : V }.
Arguments Entry : clear implicits.
Arguments mkEntry {K V}.

(** The buckets' index of a hash, [hash as usize % buckets.len()]. *)
Definition bucket_index (h : Z) (n : nat) : nat := Z.to_nat (h mod Z.of_nat n).

(** [usize::next_power_of_two]. *)
Definition next_power_of_two (n : nat) : nat := Nat.pow 2 (Nat.log2_up n).

Inductive Metric : Set := hit | miss.

Section Cache.
Context {I : Intrusive} {K V Cfg : Type} `{EqDecision K}.
(** [hasher.finish()] of a key, a [u64]. *)
Variable finish : K -> Z.

Record LfuCache := mkCache {
  cap : nat;
  cap_func : Cfg -> nat;
  buckets : list LinkedList;
  frequency_index : RBTree;
  recency_index : LinkedList;
  len : nat;
  tick : Z;
  (** the entries, and the next free cell *)
  store : gmap nat (Entry K V);
  fresh_cell : nat }.

Definition set_cap c st :=
  mkCache c (cap_func st) (buckets st) (frequency_index st) (recency_index st) (len st) (tick st)
    (store st) (fresh_cell st).
Definition set_buckets b st :=
  mkCache (cap st) (cap_func st) b (frequency_index st) (recency_index st) (len st) (tick st)
    (store st) (fresh_cell st).
Definition set_frequency_index t st :=
  mkCache (cap st) (cap_func st) (buckets st) t (recency_index st) (len st) (tick st)
    (store st) (fresh_cell st).
Definition set_recency_index l st :=
  mkCache (cap st) (cap_func st) (buckets st) (frequency_index st) l (len st) (tick st)
    (store st) (fresh_cell st).
Definition set_len n st :=
  mkCache (cap st) (cap_func st) (buckets st) (frequency_index st) (recency_index st) n (tick st)
    (store st) (fresh_cell st).
Definition set_tick t st :=
  mkCache (cap st) (cap_func st) (buckets st) (frequency_index st) (recency_index st) (len st) t
    (store st) (fresh_cell st).
Definition set_store s st :=
  mkCache (cap st) (cap_func st) (buckets st) (frequency_index st) (recency_index st) (len st)
    (tick st) s (fresh_cell st).
Definition set_fresh_cell n st :=
  mkCache (cap st) (cap_func st) (buckets st) (frequency_index st) (recency_index st) (len st)
    (tick st) (store st) n.

Abbreviation CacheM := (CallM LfuCache Metric).

Definition new (f : Cfg -> nat) (config : Cfg) : LfuCache :=
  let c := f config in
  mkCache c f (replicate (next_power_of_two (c / 10)) ll_new) rb_new ll_new 0 0 ∅ 0.

(** ** Cells and indexes *)

Definition read_entry (p : nat) : CacheM (Entry K V) := s ← gets store; lift (s !! p).

Definition update_entry (p : nat) (f : Entry K V -> Entry K V) : CacheM unit :=
  modify (fun st => set_store (alter f p (store st)) st).

Definition freq_of (st : LfuCache) (p : nat) : Z :=
  match store st !! p with Some e => freq e | None => 0 end.

(** The three [cursor_mut_from_ptr(p).remove()]; [None] where [p] is not linked. *)
Definition unlink_frequency (p : nat) : CacheM unit :=
  t ← gets frequency_index;
  lift (rust_assert (bool_decide (p ∈ rb_iter t)));;
  modify (set_frequency_index (rb_unlink p t)).

Definition unlink_recency (p : nat) : CacheM unit :=
  l ← gets recency_index;
  lift (rust_assert (bool_decide (p ∈ ll_iter l)));;
  modify (set_recency_index (ll_unlink p l)).

Definition unlink_bucket (b p : nat) : CacheM unit :=
  bs ← gets buckets;
  l ← lift (bs !! b);
  lift (rust_assert (bool_decide (p ∈ ll_iter l)));;
  modify (set_buckets (<[b := ll_unlink p l]> bs)).

(** [insert] and [push_front], which panic on an element whose link is in use. *)
Definition link_frequency (p : nat) : CacheM unit :=
  t ← gets frequency_index;
  lift (rust_assert (bool_decide (p ∉ rb_iter t)));;
  modify (fun st => set_frequency_index (rb_insert (freq_of st) p t) st).

Definition link_recency (p : nat) : CacheM unit :=
  l ← gets recency_index;
  lift (rust_assert (bool_decide (p ∉ ll_iter l)));;
  modify (set_recency_index (ll_push_front p l)).

(** The buckets share one link of an entry. *)
Definition link_bucket (b p : nat) : CacheM unit :=
  bs ← gets buckets;
  l ← lift (bs !! b);
  lift (rust_assert (bool_decide (Forall (fun l => p ∉ ll_iter l) bs)));;
  modify (set_buckets (<[b := ll_push_front p l]> bs)).

(** ** Operations *)

Definition bucket_for_key (k : K) : CacheM nat :=
  bs ← gets buckets;
  lift (rust_assert (negb (length bs =? 0)%nat));;
  mret (bucket_index (finish k) (length bs)).

Fixpoint for_each {A} (l : list A) (f : A -> CacheM unit) : CacheM unit :=
  match l with [] => mret tt | x :: l => f x;; for_each l f end.

Definition rehash (p : nat) : CacheM unit :=
  e ← read_entry p;
  b ← bucket_for_key (key e);
  link_bucket b p.

Definition grow_hash : CacheM unit :=
  old ← gets buckets;
  modify (set_buckets (replicate (length old * 2) ll_new));;
  for_each old (fun l => for_each (ll_iter l) rehash).

Definition u32_sub (a b : Z) : option Z := if b <=? a then Some (a - b) else None.

Definition bump_tick : CacheM unit :=
  t ← gets tick;
  lift (rust_assert (t <? u32_max));;
  modify (set_tick (t + 1)).

Definition decay_least_recent : CacheM unit :=
  l ← gets recency_index;
  match last (ll_iter l) with
  | None => mret tt
  | Some p =>
      e ← read_entry p;
      if freq e =? 0 then mret tt
      else
        t ← gets tick;
        idle ← lift (u32_sub t (last_tick e));
        let delta := (idle / 10) mod 2 ^ 16 in
        if delta <=? 1 then mret tt
        else
          unlink_frequency p;;
          update_entry p (fun e => mkEntry (freq e / delta) (last_tick e) (key e) (value e));;
          link_frequency p;;
          unlink_recency p;;
          link_recency p
  end.

Definition evict_one : CacheM unit :=
  decay_least_recent;;
  st ← gets id;
  match rb_lower_bound (freq_of st) 0 (frequency_index st) with
  | None => mret tt
  | Some p =>
      unlink_frequency p;;
      e ← read_entry p;
      b ← bucket_for_key (key e);
      unlink_bucket b p;;
      unlink_recency p;;
      n ← gets len;
      n ← lift (usize_sub n 1);
      modify (set_len n)
  end.

(** [while cond(self) { self.evict_one() }] *)
Fixpoint evict_while (fuel : nat) (cond : LfuCache -> bool) : CacheM unit :=
  match fuel with
  | O => panic
  | S fuel' =>
      c ← gets cond;
      if (c : bool) then evict_one;; evict_while fuel' cond else mret tt
  end.

Definition over_cap (st : LfuCache) : bool := (cap st <? len st)%nat.
Definition at_cap (st : LfuCache) : bool := (cap st <=? len st)%nat.

Definition update_config (config : Cfg) : CacheM unit :=
  st ← gets id;
  let new_cap := cap_func st config in
  if (new_cap =? cap st)%nat then mret tt
  else modify (set_cap new_cap);; evict_while (S (len st)) over_cap.

Definition clear : CacheM unit :=
  modify (set_frequency_index rb_new);;
  modify (set_recency_index ll_new);;
  modify (fun st => set_buckets (map (fun _ => ll_new) (buckets st)) st);;
  modify (set_len 0).

(** The walk of a cursor along a bucket, to the first entry with the key. *)
Fixpoint find_entry (k : K) (ps : list nat) : CacheM (option nat) :=
  match ps with
  | [] => mret None
  | p :: ps =>
      e ← read_entry p;
      if decide (key e = k) then mret (Some p) else find_entry k ps
  end.

Definition touch (p : nat) : CacheM V :=
  unlink_recency p;;
  link_recency p;;
  emit hit;;
  bump_tick;;
  t ← gets tick;
  update_entry p (fun e => mkEntry (freq e) t (key e) (value e));;
  unlink_frequency p;;
  update_entry p (fun e =>
    mkEntry (Z.min (freq e + 1) u16_max) (last_tick e) (key e) (value e));;
  link_frequency p;;
  e ← read_entry p;
  mret (value e).

Definition get (k : K) : CacheM (option V) :=
  b ← bucket_for_key k;
  bs ← gets buckets;
  match bs !! b with
  | None => mret None
  | Some l =>
      found ← find_entry k (ll_iter l);
      match found with
      | Some p => v ← touch p; mret (Some v)
      | None => emit miss;; mret None
      end
  end.

(** "Remove any prior value" *)
Definition remove_prior (b : nat) (k : K) : CacheM unit :=
  bs ← gets buckets;
  l ← lift (bs !! b);
  found ← find_entry k (ll_iter l);
  match found with
  | None => mret tt
  | Some p =>
      unlink_frequency p;;
      unlink_recency p;;
      unlink_bucket b p;;
      n ← gets len;
      n ← lift (usize_sub n 1);
      modify (set_len n)
  end.

(** [Rc::new(Entry { .. })] *)
Definition new_entry (k : K) (v : V) : CacheM nat :=
  st ← gets id;
  let p := fresh_cell st in
  modify (set_store (<[p := mkEntry 0 (tick st) k v]> (store st)));;
  modify (set_fresh_cell (S p));;
  mret p.

Definition insert_entry (b : nat) (k : K) (v : V) : CacheM unit :=
  p ← new_entry k v;
  link_bucket b p;;
  link_frequency p;;
  link_recency p;;
  modify (fun st => set_len (S (len st)) st).

Definition put_with (fuel : nat) (k : K) (v : V) : CacheM unit :=
  b ← bucket_for_key k;
  bump_tick;;
  remove_prior b k;;
  evict_while fuel at_cap;;
  insert_entry b k v;;
  st ← gets id;
  if (length (buckets st) <? cap st)%nat && (length (buckets st) / 2 <? len st)%nat
  then grow_hash else mret tt.

Definition put (k : K) (v : V) : CacheM unit :=
  n ← gets len; put_with (S n) k v.

End Cache.
Arguments LfuCache {I} K V Cfg.

(** ** An implementation of the collections, by lists *)

Fixpoint list_unlink (x : nat) (l : list nat) : list nat :=
  match l with
  | [] => []
  | y :: l => if (x =? y)%nat then l else y :: list_unlink x l
  end.

(** After the elements with the same key, as the tree does. *)
Fixpoint list_insert (key : nat -> Z) (x : nat) (l : list nat) : list nat :=
  match l with
  | [] => [x]
  | y :: l => if key x <? key y then x :: y :: l else y :: list_insert key x l
  end.

#[export] Instance list_intrusive : Intrusive := {
  LinkedList := list nat; ll_new := []; ll_iter l := l; ll_push_front x l := x :: l;
  ll_unlink := list_unlink;
  RBTree := list nat; rb_new := []; rb_iter l := l; rb_insert := list_insert;
  rb_unlink := list_unlink;
  rb_lower_bound key b l := List.find (fun x => b <=? key x) l }.

Lemma list_unlink_app x l1 l2 : x ∉ l1 -> list_unlink x (l1 ++ x :: l2) = l1 ++ l2.
Proof.
  induction l1 as [|y l1 IH]; cbn; intros Hx; [by rewrite Nat.eqb_refl|].
  apply not_elem_of_cons in Hx as [Hy Hx]. apply Nat.eqb_neq in Hy. rewrite Hy. by rewrite IH.
Qed.

Lemma list_insert_perm key x l : list_insert key x l ≡ₚ x :: l.
Proof.
  induction l as [|y l IH]; cbn; [done|]. case_match; [done|]. rewrite IH. apply Permutation_swap.
Qed.

Lemma list_insert_ordered key x l : ordered key l -> ordered key (list_insert key x l).
Proof.
  unfold ordered. induction l as [|y l IH]; cbn; intros Hl; [by repeat constructor|].
  apply StronglySorted_inv in Hl as [Hl Hy]. destruct (Z.ltb_spec (key x) (key y)).
  - constructor; [by constructor|]. constructor; [lia|]. eapply Forall_impl; [exact Hy|].
    cbn. intros z Hz. lia.
  - constructor; [by apply IH|]. rewrite list_insert_perm. constructor; [lia|done].
Qed.

#[export] Instance list_intrusive_laws : IntrusiveLaws list_intrusive.
Proof.
  split; try done.
  - intros x l l1 l2. cbn. intros -> Hx. by apply list_unlink_app.
  - apply list_insert_perm.
  - apply list_insert_ordered.
  - intros x l l1 l2. cbn. intros -> Hx. by apply list_unlink_app.
Qed.
