(* ===== verification/LfuProps.v ===== *)
(** The cache's invariant and its theorems: no unsafe unlinking of an entry that is not linked,
    what [get] and [put] do to the contents, the order of eviction, and two oversights. *)

From Stdlib Require Import ZArith Lia Sorted.
From stdpp Require Import base numbers list option gmap.
From S2P Require Import Prelude CallMonad Post Lfu.
Local Open Scope Z_scope.

(** ** Lists without an element *)

Definition without (x : nat) (l : list nat) : list nat := filter (fun y => y <> x) l.

Lemma elem_without x y l : y ∈ without x l <-> y <> x /\ y ∈ l.
Proof. unfold without. by rewrite list_elem_of_filter. Qed.

Lemma NoDup_without x l : NoDup l -> NoDup (without x l).
Proof. apply NoDup_filter. Qed.

Lemma without_id x l : x ∉ l -> without x l = l.
Proof.
  intros Hx. unfold without. induction l as [|y l IH]; [done|].
  apply not_elem_of_cons in Hx as [Hy Hx]. rewrite filter_cons_True by done. by rewrite IH.
Qed.

Lemma without_app x l1 l2 : x ∉ l1 -> x ∉ l2 -> without x (l1 ++ x :: l2) = l1 ++ l2.
Proof.
  intros H1 H2. unfold without. rewrite filter_app, filter_cons_False by (intros []; done).
  fold (without x l1) (without x l2). by rewrite !without_id.
Qed.

(** A list without repetitions, around one of its elements. *)
Lemma elem_split_NoDup (x : nat) l :
  NoDup l -> x ∈ l -> exists l1 l2, l = l1 ++ x :: l2 /\ (x ∉ l1) /\ (x ∉ l2).
Proof.
  intros Hl Hx. apply list_elem_of_split in Hx as (l1 & l2 & ->). exists l1, l2. split; [done|].
  apply NoDup_app in Hl as (_ & H1 & [Hx _]%NoDup_cons). split; [|done].
  intros Hin. apply (H1 x Hin). by left.
Qed.

Lemma perm_without x l : NoDup l -> x ∈ l -> l ≡ₚ x :: without x l.
Proof.
  intros Hl Hx. destruct (elem_split_NoDup x l Hl Hx) as (l1 & l2 & -> & H1 & H2).
  rewrite without_app by done. symmetry. apply Permutation_middle.
Qed.

Lemma length_without x l : NoDup l -> x ∈ l -> length l = S (length (without x l)).
Proof. intros Hl Hx. by rewrite (perm_without x l Hl Hx) at 1. Qed.

Lemma ordered_without key x l : ordered key l -> ordered key (without x l).
Proof.
  unfold ordered, without. induction l as [|y l IH]; intros Hl; [done|].
  apply StronglySorted_inv in Hl as [Hl Hy]. destruct (decide (y <> x)).
  - rewrite filter_cons_True by done. constructor; [by apply IH|]. apply Forall_forall. intros z [_ Hz]%list_elem_of_filter.
    by eapply Forall_forall in Hy.
  - rewrite filter_cons_False by done. by apply IH.
Qed.

Lemma ordered_ext key key' l :
  (forall x, x ∈ l -> key' x = key x) -> ordered key l -> ordered key' l.
Proof.
  unfold ordered. induction l as [|y l IH]; intros Hk Hl; [constructor|].
  apply StronglySorted_inv in Hl as [Hl Hy]. constructor.
  - apply IH; [|done]. intros z Hz. apply Hk. by right.
  - apply Forall_forall. intros z Hz. rewrite !Hk by (by left || by right).
    by eapply Forall_forall in Hy.
Qed.

(** The first element of an ordered list is a least one. *)
Lemma ordered_head key x l y : ordered key (x :: l) -> y ∈ x :: l -> key x <= key y.
Proof.
  intros [_ Hx]%StronglySorted_inv. intros [->|Hy]%elem_of_cons; [lia|].
  by eapply Forall_forall in Hx.
Qed.

Section Collections.
Context {I : Intrusive} {L : IntrusiveLaws I}.

Lemma ll_unlink_without x l :
  NoDup (ll_iter l) -> x ∈ ll_iter l -> ll_iter (ll_unlink x l) = without x (ll_iter l).
Proof.
  intros Hl Hx. destruct (elem_split_NoDup x _ Hl Hx) as (l1 & l2 & E & H1 & H2).
  rewrite (ll_iter_unlink x l l1 l2 E H1), E. by rewrite without_app.
Qed.

Lemma rb_unlink_without x t :
  NoDup (rb_iter t) -> x ∈ rb_iter t -> rb_iter (rb_unlink x t) = without x (rb_iter t).
Proof.
  intros Hl Hx. destruct (elem_split_NoDup x _ Hl Hx) as (l1 & l2 & E & H1 & H2).
  rewrite (rb_iter_unlink x t l1 l2 E H1), E. by rewrite without_app.
Qed.

(** Taking an element out of the tree and filing it under a new key. *)
Lemma rb_refile key key' x t :
  NoDup (rb_iter t) -> x ∈ rb_iter t -> ordered key (rb_iter t) ->
  (forall y, y <> x -> key' y = key y) ->
  rb_iter (rb_insert key' x (rb_unlink x t)) ≡ₚ rb_iter t /\
  ordered key' (rb_iter (rb_insert key' x (rb_unlink x t))).
Proof.
  intros Hn Hx Ho Hk. split.
  - rewrite rb_iter_insert, rb_unlink_without by done. symmetry. by apply perm_without.
  - apply rb_insert_ordered. rewrite rb_unlink_without by done.
    apply (ordered_ext key); [|by apply ordered_without].
    intros y [Hy _]%elem_without. by apply Hk.
Qed.

End Collections.

Lemma bucket_index_lt h n : (0 < n)%nat -> (bucket_index h n < n)%nat.
Proof. intros Hn. unfold bucket_index. pose proof (Z.mod_pos_bound h (Z.of_nat n)). lia. Qed.

Lemma next_power_of_two_pos n : (0 < next_power_of_two n)%nat.
Proof. unfold next_power_of_two. pose proof (Nat.pow_nonzero 2 (Nat.log2_up n)). lia. Qed.

(** ** The invariant *)

Section Props.
Context {I : Intrusive} {L : IntrusiveLaws I} {K V Cfg : Type} `{Countable K}.
Variable finish : K -> Z.
Abbreviation Cache := (LfuCache K V Cfg).
Implicit Types (st : Cache) (e : Entry K V) (k : K) (v : V) (p q : nat).

(** The entries, the most recently used one first. *)
Definition ids st : list nat := ll_iter (recency_index st).

Definition entry_ok (now : Z) e : Prop := 0 <= freq e <= u16_max /\ 0 <= last_tick e <= now.

(** Every bucket has the entries whose hash points to it, each once. *)
Definition buckets_ok (s : gmap nat (Entry K V)) (ps : list nat) (bs : list LinkedList) : Prop :=
  forall b l, bs !! b = Some l ->
    NoDup (ll_iter l) /\
    forall p, p ∈ ll_iter l <->
      p ∈ ps /\ exists e, s !! p = Some e /\ bucket_index (finish (key e)) (length bs) = b.

Record cache_wf st : Prop := {
  wf_nodup : NoDup (ids st);
  wf_frequency : rb_iter (frequency_index st) ≡ₚ ids st;
  wf_ordered : ordered (freq_of st) (rb_iter (frequency_index st));
  wf_some_bucket : (0 < length (buckets st))%nat;
  wf_buckets : buckets_ok (store st) (ids st) (buckets st);
  wf_entries p : p ∈ ids st ->
    (p < fresh_cell st)%nat /\ exists e, store st !! p = Some e /\ entry_ok (tick st) e;
  wf_keys p q e f : p ∈ ids st -> q ∈ ids st -> store st !! p = Some e -> store st !! q = Some f ->
    key e = key f -> p = q;
  wf_len : len st = length (ids st);
  wf_tick : 0 <= tick st <= u32_max }.

Lemma wf_freq_nodup st : cache_wf st -> NoDup (rb_iter (frequency_index st)).
Proof. intros W. rewrite (wf_frequency _ W). apply (wf_nodup _ W). Qed.

Lemma wf_freq_elem st p : cache_wf st -> p ∈ rb_iter (frequency_index st) <-> p ∈ ids st.
Proof. intros W. by rewrite (wf_frequency _ W). Qed.

Lemma new_wf (f : Cfg -> nat) config : cache_wf (new f config).
Proof.
  unfold new. split; unfold ids; cbn; rewrite ?ll_iter_new, ?rb_iter_new;
    try by first [constructor | intros ? ?%elem_of_nil | intros ? ? ? ? ?%elem_of_nil].
  - rewrite length_replicate. apply next_power_of_two_pos.
  - intros b l [-> _]%lookup_replicate. rewrite ll_iter_new. split; [constructor|].
    intros p. split; [by intros ?%elem_of_nil|by intros [?%elem_of_nil _]].
  - by intros p ?%elem_of_nil.
Qed.

(** What the cache holds. *)
Definition entry_kv st (p : nat) : option (K * V) :=
  e ← store st !! p; Some (key e, value e).

Definition contents st : gmap K V := list_to_map (omap (entry_kv st) (ids st)).

Lemma entry_kv_at st p e : store st !! p = Some e -> entry_kv st p = Some (key e, value e).
Proof. unfold entry_kv. by intros ->. Qed.

Lemma keys_nodup st ps :
  NoDup ps -> (forall p q e f, p ∈ ps -> q ∈ ps -> store st !! p = Some e -> store st !! q = Some f ->
    key e = key f -> p = q) -> NoDup (omap (entry_kv st) ps).*1.
Proof.
  induction ps as [|p ps IH]; intros Hn Hk; cbn [omap list_omap]; [constructor|].
  apply NoDup_cons in Hn as [Hp Hn].
  assert (IH' : NoDup (omap (entry_kv st) ps).*1).
  { apply IH; [done|]. intros; eapply Hk; try done; by right. }
  unfold entry_kv at 1. destruct (store st !! p) as [e|] eqn:E; cbn; [|done].
  apply NoDup_cons. split; [|done].
  intros ([k v] & Ek & (q & Hq & Eq)%list_elem_of_omap)%list_elem_of_fmap.
  unfold entry_kv in Eq. destruct (store st !! q) as [f|] eqn:F; [|done]. cbn in *. simplify_eq.
  assert (p = q) as ->; [|done]. by eapply Hk; try done; [by left|by right].
Qed.

Lemma contents_lookup st k v : cache_wf st ->
  contents st !! k = Some v <->
  exists p e, p ∈ ids st /\ store st !! p = Some e /\ key e = k /\ value e = v.
Proof.
  intros W. unfold contents.
  rewrite <- elem_of_list_to_map by (apply keys_nodup; [apply (wf_nodup _ W)|apply (wf_keys _ W)]).
  rewrite list_elem_of_omap. split.
  - intros (p & Hp & E). unfold entry_kv in E. destruct (store st !! p) as [e|] eqn:Ee; [|done].
    cbn in E. simplify_eq. by exists p, e.
  - intros (p & e & Hp & Ee & <- & <-). exists p. split; [done|]. by apply entry_kv_at.
Qed.

Lemma size_contents st : cache_wf st -> size (contents st) = len st.
Proof.
  intros W. unfold contents. rewrite map_size_list_to_map
    by (apply keys_nodup; [apply (wf_nodup _ W)|apply (wf_keys _ W)]).
  rewrite (wf_len _ W).
  assert (Hs : forall p, p ∈ ids st -> is_Some (entry_kv st p)).
  { intros p Hp. destruct (wf_entries _ W p Hp) as (_ & e & E & _). exists (key e, value e).
    by apply entry_kv_at. }
  induction (ids st) as [|p ps IH]; [done|]. cbn [omap list_omap].
  destruct (Hs p) as [kv ->]; [by left|]. cbn. f_equal. apply IH. intros q Hq. apply Hs. by right.
Qed.

(** ** Running the steps *)

Lemma run_unlink_frequency st p : p ∈ rb_iter (frequency_index st) ->
  unlink_frequency p st = Some (tt, set_frequency_index (rb_unlink p (frequency_index st)) st, []).
Proof.
  intros Hp. unfold unlink_frequency. rewrite (silent_run _ _ _ (frequency_index st)) by done.
  by rewrite bool_decide_eq_true_2.
Qed.

Lemma run_unlink_recency st p : p ∈ ids st ->
  unlink_recency p st = Some (tt, set_recency_index (ll_unlink p (recency_index st)) st, []).
Proof.
  intros Hp. unfold unlink_recency. rewrite (silent_run _ _ _ (recency_index st)) by done.
  by rewrite bool_decide_eq_true_2.
Qed.

Lemma run_unlink_bucket st b p l : buckets st !! b = Some l -> p ∈ ll_iter l ->
  unlink_bucket b p st = Some (tt, set_buckets (<[b := ll_unlink p l]> (buckets st)) st, []).
Proof.
  intros Hb Hp. unfold unlink_bucket. rewrite (silent_run _ _ _ (buckets st)) by done.
  rewrite (silent_run _ _ _ l) by by apply lift_run. by rewrite bool_decide_eq_true_2.
Qed.

Lemma run_read st p e : store st !! p = Some e -> silent (read_entry p) st e.
Proof.
  intros E. unfold silent, read_entry. rewrite (silent_run _ _ _ (store st)) by done. by rewrite E.
Qed.

Lemma run_bucket_for_key st k : (0 < length (buckets st))%nat ->
  silent (bucket_for_key finish k) st (bucket_index (finish k) (length (buckets st))).
Proof.
  intros Hn. unfold silent, bucket_for_key. rewrite (silent_run _ _ _ (buckets st)) by done.
  destruct (length (buckets st)); [lia|done].
Qed.

Lemma run_bump_tick st : tick st < u32_max ->
  bump_tick st = Some (tt, set_tick (tick st + 1) st, []).
Proof.
  intros Ht. unfold bump_tick. rewrite (silent_run _ _ _ (tick st)) by done.
  apply Z.ltb_lt in Ht. by rewrite Ht.
Qed.

Lemma run_link_frequency st p : p ∉ rb_iter (frequency_index st) ->
  link_frequency p st =
    Some (tt, set_frequency_index (rb_insert (freq_of st) p (frequency_index st)) st, []).
Proof.
  intros Hp. unfold link_frequency. rewrite (silent_run _ _ _ (frequency_index st)) by done.
  by rewrite bool_decide_eq_true_2.
Qed.

Lemma run_link_recency st p : p ∉ ids st ->
  link_recency p st = Some (tt, set_recency_index (ll_push_front p (recency_index st)) st, []).
Proof.
  intros Hp. unfold link_recency. rewrite (silent_run _ _ _ (recency_index st)) by done.
  by rewrite bool_decide_eq_true_2.
Qed.

Lemma run_link_bucket st b p l ps s : buckets st !! b = Some l -> buckets_ok s ps (buckets st) -> p ∉ ps ->
  link_bucket b p st = Some (tt, set_buckets (<[b := ll_push_front p l]> (buckets st)) st, []).
Proof.
  intros Hb HB Hp. unfold link_bucket. rewrite (silent_run _ _ _ (buckets st)) by done.
  rewrite (silent_run _ _ _ l) by by apply lift_run. rewrite bool_decide_eq_true_2; [done|].
  apply Forall_lookup. intros c m Hm Hin. destruct (HB c m Hm) as [_ Hel]. by apply Hel in Hin as [? _].
Qed.

(** What was unlinked can be linked again. *)
Lemma unlinked_recency st p : NoDup (ids st) -> p ∈ ids st -> p ∉ ll_iter (ll_unlink p (recency_index st)).
Proof. intros Hn Hp. rewrite ll_unlink_without by done. by intros [? _]%elem_without. Qed.

Lemma unlinked_frequency t p : NoDup (rb_iter t) -> p ∈ rb_iter t -> p ∉ rb_iter (rb_unlink p t).
Proof. intros Hn Hp. rewrite rb_unlink_without by done. by intros [? _]%elem_without. Qed.

(** The bucket of a key, and what a walk along it finds. *)
Lemma bucket_of st k : cache_wf st ->
  exists l, buckets st !! bucket_index (finish k) (length (buckets st)) = Some l.
Proof. intros W. apply lookup_lt_is_Some. apply bucket_index_lt, (wf_some_bucket _ W). Qed.

Lemma find_entry_run st k ps : (forall p, p ∈ ps -> is_Some (store st !! p)) ->
  exists r, silent (find_entry k ps) st r /\
    match r with
    | Some p => p ∈ ps /\ exists e, store st !! p = Some e /\ key e = k
    | None => forall p e, p ∈ ps -> store st !! p = Some e -> key e <> k
    end.
Proof.
  induction ps as [|p ps IH]; intros Hs; cbn [find_entry].
  - exists None. split; [done|]. by intros p e ?%elem_of_nil.
  - destruct (Hs p) as [e E]; [by left|]. unfold silent.
    setoid_rewrite (silent_run _ _ _ e (run_read _ _ _ E)). destruct (decide (key e = k)) as [Hk|Hk].
    + exists (Some p). split; [done|]. split; [by left|]. by exists e.
    + destruct IH as (r & Hr & Hp); [intros q Hq; apply Hs; by right|].
      exists r. split; [done|]. destruct r as [q|].
      * destruct Hp as [Hq Hf]. split; [by right|done].
      * intros q f [->|Hq]%elem_of_cons Ef; [by simplify_eq|by eapply Hp].
Qed.

Lemma find_in_bucket st k l : cache_wf st ->
  buckets st !! bucket_index (finish k) (length (buckets st)) = Some l ->
  exists r, silent (find_entry k (ll_iter l)) st r /\
    match r with
    | Some p => p ∈ ids st /\ p ∈ ll_iter l /\ exists e, store st !! p = Some e /\ key e = k
    | None => forall p e, p ∈ ids st -> store st !! p = Some e -> key e <> k
    end.
Proof.
  intros W Hl. destruct (wf_buckets _ W _ _ Hl) as [_ Hin].
  destruct (find_entry_run st k (ll_iter l)) as (r & Hr & Hp).
  { intros p (_ & e & E & _)%Hin. by exists e. }
  exists r. split; [done|]. destruct r as [p|].
  - destruct Hp as [Hp He]. split_and!; [by apply Hin|done|done].
  - intros p e Hi E Hk. apply (Hp p e); [|done|done]. apply Hin. split; [done|].
    exists e. by rewrite Hk.
Qed.

Lemma contents_none st k : cache_wf st ->
  (forall p e, p ∈ ids st -> store st !! p = Some e -> key e <> k) -> contents st !! k = None.
Proof.
  intros W Hk. apply eq_None_not_Some. intros [v Hv].
  apply contents_lookup in Hv as (p & e & Hp & E & Hek & _); [|done]. by eapply Hk.
Qed.

(** ** Filing an entry anew: decay and use *)

(** [st'] is [st] with the entry [p] changed to [e'] and made the most recent one. *)
Record refiled (st : Cache) (p : nat) (e' : Entry K V) (now : Z) (st' : Cache) : Prop := {
  rf_store : store st' = <[p := e']> (store st);
  rf_recency : ids st' = p :: without p (ids st);
  rf_frequency : frequency_index st'
    = rb_insert (freq_of st') p (rb_unlink p (frequency_index st));
  rf_tick : tick st' = now;
  rf_cap : cap st' = cap st;
  rf_cap_func : cap_func st' = cap_func st;
  rf_buckets : buckets st' = buckets st;
  rf_len : len st' = len st;
  rf_fresh : fresh_cell st' = fresh_cell st }.

Lemma wf_refiled st p e e' now st' :
  cache_wf st -> p ∈ ids st -> store st !! p = Some e -> key e' = key e -> entry_ok now e' ->
  tick st <= now <= u32_max -> refiled st p e' now st' -> cache_wf st'.
Proof.
  intros W Hp E Hk He' Hnow [Rs Rr Rf Rt Rc Rcf Rb Rl Rn].
  assert (Hperm : ids st' ≡ₚ ids st)
    by (rewrite Rr; symmetry; by apply perm_without, Hp; apply (wf_nodup _ W)).
  assert (Hkey : forall q f, store st' !! q = Some f -> exists f0, store st !! q = Some f0 /\ key f = key f0).
  { intros q f. rewrite Rs. destruct (decide (q = p)) as [->|].
    - rewrite lookup_insert_eq. intros [= <-]. by exists e.
    - rewrite lookup_insert_ne by done. by exists f. }
  assert (Hfreq : rb_iter (frequency_index st') ≡ₚ rb_iter (frequency_index st) /\
    ordered (freq_of st') (rb_iter (frequency_index st'))).
  { rewrite Rf. apply (rb_refile (freq_of st)).
    - by apply wf_freq_nodup.
    - by apply wf_freq_elem.
    - apply (wf_ordered _ W).
    - intros q Hq. unfold freq_of. by rewrite Rs, lookup_insert_ne. }
  destruct Hfreq as [Hf Ho]. split.
  - rewrite Hperm. apply (wf_nodup _ W).
  - rewrite Hf, Hperm. apply (wf_frequency _ W).
  - done.
  - rewrite Rb. apply (wf_some_bucket _ W).
  - rewrite Rb. intros b l Hl. destruct (wf_buckets _ W b l Hl) as [Hn Hin]. split; [done|].
    intros q. rewrite Hin, Hperm. apply and_iff_compat_l. rewrite Rs.
    destruct (decide (q = p)) as [->|]; [rewrite lookup_insert_eq, E|by rewrite lookup_insert_ne].
    split; intros (f & [= <-] & Hb); [exists e'; by rewrite Hk|rewrite Hk in Hb; by exists e].
  - intros q Hq. rewrite Hperm in Hq. destruct (wf_entries _ W q Hq) as (Hlt & f & Ef & Hf1 & Hf2).
    rewrite Rn, Rs, Rt. split; [done|]. destruct (decide (q = p)) as [->|].
    + rewrite lookup_insert_eq. by exists e'.
    + rewrite lookup_insert_ne by done. exists f. split; [done|]. split; [done|lia].
  - intros q r f g Hq Hr (f0 & Ef & ->)%Hkey (g0 & Eg & ->)%Hkey. rewrite Hperm in Hq, Hr.
    by apply (wf_keys _ W).
  - rewrite Rl, Hperm. apply (wf_len _ W).
  - rewrite Rt. pose proof (wf_tick _ W). lia.
Qed.

Lemma contents_refiled st p e e' now st' :
  cache_wf st -> cache_wf st' -> p ∈ ids st -> store st !! p = Some e ->
  key e' = key e -> value e' = value e -> refiled st p e' now st' -> contents st' = contents st.
Proof.
  intros W W' Hp E Hk Hv R.
  assert (Hperm : ids st' ≡ₚ ids st) by
    (rewrite (rf_recency _ _ _ _ _ R); symmetry; by apply perm_without, Hp; apply (wf_nodup _ W)).
  apply map_eq. intros k. apply option_eq. intros v. rewrite !contents_lookup by done.
  setoid_rewrite Hperm. rewrite (rf_store _ _ _ _ _ R).
  split; intros (q & f & Hq & Ef & <- & <-).
  - destruct (decide (q = p)) as [->|].
    + rewrite lookup_insert_eq in Ef. simplify_eq. by exists p, e.
    + rewrite lookup_insert_ne in Ef by done. by exists q, f.
  - destruct (decide (q = p)) as [->|].
    + simplify_eq. exists p, e'. by rewrite lookup_insert_eq.
    + exists q, f. by rewrite lookup_insert_ne.
Qed.

(** A first step that returns without a trace. *)
Lemma first_step {A B} (m : CallM Cache Metric A) (f : A -> CallM Cache Metric B) st a st' :
  m st = Some (a, st', []) -> (m ≫= f) st = f a st'.
Proof. intros E. rewrite (bind_run _ _ _ _ _ _ E). by destruct (f a st') as [[[]]|]. Qed.

Definition used (st : Cache) e : Entry K V :=
  mkEntry (Z.min (freq e + 1) u16_max) (tick st + 1) (key e) (value e).

Lemma touch_run st p e : cache_wf st -> p ∈ ids st -> store st !! p = Some e -> tick st < u32_max ->
  exists st', touch p st = Some (value e, st', [hit]) /\ refiled st p (used st e) (tick st + 1) st'.
Proof.
  intros W Hp E Ht. unfold touch.
  rewrite (first_step _ _ _ _ _ (run_unlink_recency _ _ Hp)).
  erewrite first_step by (apply run_link_recency, unlinked_recency; [apply (wf_nodup _ W)|done]).
  erewrite (bind_run (emit hit)) by done.
  erewrite first_step by (by apply run_bump_tick). erewrite first_step by done.
  erewrite first_step by done.
  erewrite first_step by (apply run_unlink_frequency; by apply (wf_freq_elem st)).
  erewrite first_step by done.
  erewrite first_step by (apply run_link_frequency, unlinked_frequency;
    [by apply (wf_freq_nodup st)|by apply (wf_freq_elem st)]).
  erewrite first_step.
  2:{ apply (run_read _ p (used st e)). cbn. rewrite !lookup_alter_eq, E. done. }
  eexists. split; [done|]. split; unfold ids; cbn; try done.
  - rewrite <- (insert_id (store st) p e) at 1 by done.
    by rewrite !alter_insert_eq.
  - rewrite ll_iter_push_front, ll_unlink_without; [done|apply (wf_nodup _ W)|done].
Qed.

Lemma wf_used st e : entry_ok (tick st) e -> 0 <= tick st -> entry_ok (tick st + 1) (used st e).
Proof. unfold entry_ok, used, u16_max. cbn. lia. Qed.

(** The frequency the least recent entry is given. *)
Definition idle_factor st e : Z := ((tick st - last_tick e) / 10) mod 2 ^ 16.

Definition decayed st e : Entry K V :=
  mkEntry (freq e / idle_factor st e) (last_tick e) (key e) (value e).

Lemma last_elem (l : list nat) p : last l = Some p -> p ∈ l.
Proof. intros [l' ->]%last_Some. apply elem_of_app. right. by left. Qed.

(** Aging, as it should be: the least recent entry, when it was used since it was aged last and was
    idle for two periods of ten ticks or more, has its frequency divided by the number
    of the periods and becomes the most recent one. *)
Definition due st : option nat :=
  p ← last (ids st); e ← store st !! p;
  if decide (freq e <> 0 /\ 1 < idle_factor st e) then Some p else None.

Definition aged_store st : gmap nat (Entry K V) :=
  match due st with Some q => alter (decayed st) q (store st) | None => store st end.

Definition aged_ids st : list nat :=
  match due st with Some q => q :: without q (ids st) | None => ids st end.

Lemma due_Some st p e : last (ids st) = Some p -> store st !! p = Some e ->
  due st = if decide (freq e <> 0 /\ 1 < idle_factor st e) then Some p else None.
Proof. intros Hl E. unfold due. rewrite Hl. cbn. by rewrite E. Qed.

(** Decay files the entry that is due anew, and does nothing when none is. *)
Lemma decay_run st : cache_wf st -> exists st', decay_least_recent st = Some (tt, st', []) /\
  match due st with
  | None => st' = st
  | Some p => exists e, last (ids st) = Some p /\ store st !! p = Some e /\
      1 < idle_factor st e /\ refiled st p (decayed st e) (tick st) st'
  end.
Proof.
  intros W. unfold decay_least_recent. setoid_rewrite (first_step (gets recency_index)); [|done].
  fold (ids st). destruct (last (ids st)) as [p|] eqn:Hlast;
    [|eexists; split; [done|unfold due; by rewrite Hlast]].
  pose proof (last_elem _ _ Hlast) as Hp.
  destruct (wf_entries _ W p Hp) as (_ & e & E & He). rewrite (due_Some st p e) by done.
  setoid_rewrite (first_step (read_entry p)); [|apply run_read, E].
  destruct (Z.eqb_spec (freq e) 0) as [|Hf];
    [eexists; split; [done|by rewrite decide_False by by intros []]|].
  setoid_rewrite (first_step (gets tick)); [|done].
  assert (Hsub : u32_sub (tick st) (last_tick e) = Some (tick st - last_tick e)).
  { unfold u32_sub. destruct He as [_ He]. destruct (Z.leb_spec (last_tick e) (tick st)); [done|lia]. }
  setoid_rewrite (first_step (lift _)); [|by apply lift_run, Hsub]. cbv beta zeta.
  fold (idle_factor st e).
  destruct (Z.leb_spec (idle_factor st e) 1) as [|Hd];
    [eexists; split; [done|by rewrite decide_False by (intros []; lia)]|].
  erewrite first_step by (apply run_unlink_frequency; by apply (wf_freq_elem st)).
  erewrite first_step by done.
  erewrite first_step by (apply run_link_frequency, unlinked_frequency;
    [by apply (wf_freq_nodup st)|by apply (wf_freq_elem st)]).
  erewrite first_step by (by apply run_unlink_recency).
  rewrite run_link_recency by (apply unlinked_recency; [apply (wf_nodup _ W)|done]).
  eexists. split; [done|]. rewrite decide_True by done. exists e. split_and!; try done.
  split; unfold ids; cbn; try done.
  - rewrite <- (insert_id (store st) p e) at 1 by done. by rewrite alter_insert_eq.
  - rewrite ll_iter_push_front, ll_unlink_without; [done|apply (wf_nodup _ W)|done].
Qed.

(** So the store and the order are the aged ones. *)
Lemma decay_ages st : cache_wf st -> exists st', decay_least_recent st = Some (tt, st', []) /\
  store st' = aged_store st /\ ids st' = aged_ids st.
Proof.
  intros W. destruct (decay_run st W) as (st' & Hd & Hcase). exists st'. split; [done|].
  unfold aged_store, aged_ids. destruct (due st) as [p|]; [|by rewrite Hcase].
  destruct Hcase as (e & _ & E & _ & R). rewrite (rf_store _ _ _ _ _ R), (rf_recency _ _ _ _ _ R).
  split; [|done]. rewrite <- (insert_id (store st) p e) at 2 by done. by rewrite alter_insert_eq.
Qed.

Lemma wf_decayed st e : entry_ok (tick st) e -> 1 < idle_factor st e ->
  entry_ok (tick st) (decayed st e).
Proof.
  unfold entry_ok, decayed. cbn. intros [Hf Hl] Hd. split; [|done]. split.
  - apply Z.div_pos; lia.
  - transitivity (freq e); [|lia]. apply Z.div_le_upper_bound; nia.
Qed.

(** What all the internal steps keep: the contents, the number of entries, the settings. *)
Record same_contents st st' : Prop := {
  sc_contents : contents st' = contents st;
  sc_perm : ids st' ≡ₚ ids st;
  sc_len : len st' = len st;
  sc_cap : cap st' = cap st;
  sc_cap_func : cap_func st' = cap_func st;
  sc_tick : tick st' = tick st;
  sc_fresh : fresh_cell st' = fresh_cell st;
  sc_buckets : length (buckets st') = length (buckets st) }.

Lemma decay_keeps st : cache_wf st -> exists st', decay_least_recent st = Some (tt, st', []) /\
  cache_wf st' /\ same_contents st st'.
Proof.
  intros W. destruct (decay_run st W) as (st' & Hr & Hcase). destruct (due st) as [p|];
    [destruct Hcase as (e & Hlast & E & Hd & R)
    |subst st'; exists st; split; [done|]; split; [done|by split]].
  exists st'. split; [done|]. pose proof (last_elem _ _ Hlast) as Hp.
  destruct (wf_entries _ W p Hp) as (_ & e' & E' & He). simplify_eq.
  assert (W' : cache_wf st').
  { apply (wf_refiled st p e (decayed st e) (tick st)); try done; [by apply wf_decayed|]. pose proof (wf_tick _ W). lia. }
  split; [done|]. split; try apply R.
  - by apply (contents_refiled st p e (decayed st e) (tick st)).
  - rewrite (rf_recency _ _ _ _ _ R). symmetry. by apply perm_without, Hp; apply (wf_nodup _ W).
  - by rewrite (rf_buckets _ _ _ _ _ R).
Qed.

(** ** Removing an entry *)

Record removed (st : Cache) (p : nat) (st' : Cache) : Prop := {
  rm_store : store st' = store st;
  rm_recency : ids st' = without p (ids st);
  rm_frequency : rb_iter (frequency_index st') = without p (rb_iter (frequency_index st));
  rm_buckets : exists b l, buckets st !! b = Some l /\ p ∈ ll_iter l /\
    buckets st' = <[b := ll_unlink p l]> (buckets st);
  rm_len : len st = S (len st');
  rm_tick : tick st' = tick st;
  rm_cap : cap st' = cap st;
  rm_cap_func : cap_func st' = cap_func st;
  rm_fresh : fresh_cell st' = fresh_cell st }.

Lemma rm_length st p st' : removed st p st' -> length (buckets st') = length (buckets st).
Proof. intros [_ _ _ (b & l & _ & _ & ->) _ _ _ _ _]. by rewrite length_insert. Qed.

Lemma buckets_removed s ps bs b l p : NoDup ps -> buckets_ok s ps bs -> bs !! b = Some l ->
  p ∈ ll_iter l -> buckets_ok s (without p ps) (<[b := ll_unlink p l]> bs).
Proof.
  intros Hn HB Hb Hp c m Hm. rewrite length_insert. destruct (HB b l Hb) as [Hnl Hl].
  destruct (decide (c = b)) as [->|Hc].
  - rewrite list_lookup_insert_eq in Hm by (by eapply lookup_lt_Some). simplify_eq.
    rewrite ll_unlink_without by done. split; [by apply NoDup_without|].
    intros q. rewrite !elem_without, Hl. tauto.
  - rewrite list_lookup_insert_ne in Hm by done. destruct (HB c m Hm) as [Hnm Hm'].
    split; [done|]. intros q. rewrite elem_without, Hm'. split; [|tauto].
    intros (Hq & f & Ef & Hf). split; [|by exists f]. split; [|done]. intros ->.
    apply Hl in Hp as (_ & g & Eg & Hg). rewrite Ef in Eg. simplify_eq.
Qed.

Lemma wf_removed st p st' : cache_wf st -> p ∈ ids st -> removed st p st' -> cache_wf st'.
Proof.
  intros W Hp R. pose proof (rm_length _ _ _ R) as Hlen.
  destruct R as [Rs Rr Rf (b & l & Hb & Hpl & Rb) Rl Rt Rc Rcf Rn]. split.
  - rewrite Rr. apply NoDup_without, (wf_nodup _ W).
  - rewrite Rf, Rr. unfold without. by rewrite (wf_frequency _ W).
  - rewrite Rf. apply ordered_without. eapply ordered_ext; [|apply (wf_ordered _ W)].
    intros q _. unfold freq_of. by rewrite Rs.
  - rewrite Hlen. apply (wf_some_bucket _ W).
  - rewrite Rs, Rr, Rb. apply buckets_removed; [apply (wf_nodup _ W)|apply (wf_buckets _ W)|done|done].
  - intros q. rewrite Rr, Rs, Rn, Rt. intros [_ Hq]%elem_without. by apply (wf_entries _ W).
  - intros q r e f. rewrite Rr, Rs. intros [_ Hq]%elem_without [_ Hr]%elem_without.
    by apply (wf_keys _ W).
  - rewrite Rr. pose proof (length_without p _ (wf_nodup _ W) Hp). pose proof (wf_len _ W). lia.
  - rewrite Rt. apply (wf_tick _ W).
Qed.

Lemma contents_removed st p e st' : cache_wf st -> p ∈ ids st -> store st !! p = Some e ->
  removed st p st' -> contents st' = delete (key e) (contents st).
Proof.
  intros W Hp E R. pose proof (wf_removed _ _ _ W Hp R) as W'.
  apply map_eq. intros k. apply option_eq. intros v.
  rewrite lookup_delete_Some, !contents_lookup by done.
  rewrite (rm_store _ _ _ R). setoid_rewrite (rm_recency _ _ _ R). setoid_rewrite elem_without.
  split.
  - intros (q & f & (Hqp & Hq) & Ef & <- & <-). split; [|by exists q, f].
    intros Hk. apply Hqp. by eapply (wf_keys _ W).
  - intros (Hk & q & f & Hq & Ef & <- & <-). exists q, f. split_and!; try done.
    intros ->. by simplify_eq.
Qed.

(** The steps that take the entry [p] out of the three indexes, in the order of [evict_one]. *)
Lemma removed_steps st p b l : cache_wf st -> p ∈ ids st -> buckets st !! b = Some l ->
  p ∈ ll_iter l ->
  removed st p (set_len (pred (len st))
    (set_recency_index (ll_unlink p (recency_index st))
      (set_buckets (<[b := ll_unlink p l]> (buckets st))
        (set_frequency_index (rb_unlink p (frequency_index st)) st)))).
Proof.
  intros W Hp Hb Hpl. split; unfold ids; cbn; try done.
  - by rewrite ll_unlink_without by (apply (wf_nodup _ W) || done).
  - apply rb_unlink_without; [by apply wf_freq_nodup|by apply wf_freq_elem].
  - by exists b, l.
  - pose proof (length_without p _ (wf_nodup _ W) Hp). pose proof (wf_len _ W). lia.
Qed.

Lemma wf_len_pos st p : cache_wf st -> p ∈ ids st -> (1 <= len st)%nat.
Proof.
  intros W Hp. pose proof (length_without p _ (wf_nodup _ W) Hp). pose proof (wf_len _ W). lia.
Qed.

Lemma wf_in_bucket st p e : cache_wf st -> p ∈ ids st -> store st !! p = Some e ->
  exists l, buckets st !! bucket_index (finish (key e)) (length (buckets st)) = Some l /\ p ∈ ll_iter l.
Proof.
  intros W Hp E. destruct (bucket_of st (key e) W) as [l Hl]. exists l. split; [done|].
  apply (wf_buckets _ W _ _ Hl). split; [done|]. by exists e.
Qed.

(** ** Eviction *)

(** The tree's first entry: one of least frequency. *)
Lemma least_frequent st : cache_wf st ->
  match rb_lower_bound (freq_of st) 0 (frequency_index st) with
  | Some p => p ∈ ids st /\ forall q, q ∈ ids st -> freq_of st p <= freq_of st q
  | None => ids st = []
  end.
Proof.
  intros W. rewrite rb_lower_bound_spec by apply (wf_ordered _ W).
  pose proof (wf_frequency _ W) as Hperm. pose proof (wf_ordered _ W) as Ho.
  destruct (rb_iter (frequency_index st)) as [|p ps]; cbn [List.find].
  { by apply Permutation_nil_l in Hperm. }
  assert (Hp : p ∈ ids st) by (rewrite <- Hperm; by left).
  destruct (wf_entries _ W p Hp) as (_ & e & E & [He _]).
  assert (H0 : (0 <=? freq_of st p) = true) by (apply Z.leb_le; unfold freq_of; rewrite E; lia).
  rewrite H0. split; [done|]. intros q Hq. apply (ordered_head _ _ ps); [done|]. by rewrite Hperm.
Qed.

Lemma evict_one_run st : cache_wf st -> exists mid st',
  decay_least_recent st = Some (tt, mid, []) /\ cache_wf mid /\ same_contents st mid /\
  evict_one finish st = Some (tt, st', []) /\ cache_wf st' /\
  ((len st = 0%nat /\ st' = mid) \/ exists p, p ∈ ids mid /\
     (forall q, q ∈ ids mid -> freq_of mid p <= freq_of mid q) /\ removed mid p st').
Proof.
  intros W. destruct (decay_keeps st W) as (mid & Hd & Wm & SC).
  exists mid. setoid_rewrite (first_step decay_least_recent _ _ _ _ Hd).
  setoid_rewrite (first_step (gets id)); [|done]. unfold id.
  pose proof (least_frequent mid Wm) as Hleast.
  destruct (rb_lower_bound (freq_of mid) 0 (frequency_index mid)) as [p|].
  - destruct Hleast as [Hp Hmin]. destruct (wf_entries _ Wm p Hp) as (_ & e & E & _).
    destruct (wf_in_bucket mid p e Wm Hp E) as (l & Hb & Hpl).
    erewrite first_step by (apply run_unlink_frequency; by apply (wf_freq_elem mid)).
    erewrite first_step by (by apply run_read).
    erewrite first_step by (apply run_bucket_for_key, (wf_some_bucket _ Wm)).
    erewrite first_step by (by apply run_unlink_bucket).
    erewrite first_step by (by apply run_unlink_recency). erewrite first_step by done.
    erewrite first_step by (apply lift_run, usize_sub_Some; by apply (wf_len_pos mid p)).
    pose proof (removed_steps mid p _ l Wm Hp Hb Hpl) as R. rewrite <- Nat.sub_1_r in R.
    eexists. split_and!; try done; [by eapply wf_removed|]. right. by exists p.
  - exists mid. split_and!; try done. left. split; [|done].
    rewrite <- (sc_len _ _ SC), (wf_len _ Wm), Hleast. done.
Qed.

(** An empty cache stays as it is. *)
Lemma evict_empty st : cache_wf st -> len st = 0%nat -> evict_one finish st = Some (tt, st, []).
Proof.
  intros W Hlen. assert (Hd : decay_least_recent st = Some (tt, st, [])).
  { unfold decay_least_recent. rewrite (first_step (gets recency_index) _ _ _ st eq_refl).
    fold (ids st). by rewrite (nil_length_inv (ids st)) by (by rewrite <- (wf_len _ W)). }
  destruct (evict_one_run st W) as (mid & st' & Hd' & Wm & SC & -> & W' & [[_ ->]|(p & Hp & _)]).
  - rewrite Hd in Hd'. by simplify_eq.
  - rewrite (sc_perm _ _ SC), (nil_length_inv (ids st)) in Hp by (by rewrite <- (wf_len _ W)).
    by apply elem_of_nil in Hp.
Qed.

(** [st'] is [st] with entries taken out. *)
Record shrunk (st st' : Cache) : Prop := {
  sh_wf : cache_wf st';
  sh_contents : contents st' ⊆ contents st;
  sh_cap : cap st' = cap st;
  sh_cap_func : cap_func st' = cap_func st;
  sh_tick : tick st' = tick st;
  sh_fresh : fresh_cell st' = fresh_cell st;
  sh_buckets : length (buckets st') = length (buckets st) }.

Lemma shrunk_trans st1 st2 st3 : shrunk st1 st2 -> shrunk st2 st3 -> shrunk st1 st3.
Proof. intros [] []. split; try congruence. by transitivity (contents st2). Qed.

Lemma evict_one_shrinks st : cache_wf st -> exists st',
  evict_one finish st = Some (tt, st', []) /\ shrunk st st' /\ len st' = pred (len st).
Proof.
  intros W. destruct (evict_one_run st W) as (mid & st' & Hd & Wm & SC & Hr & W' & Hcase).
  exists st'. split; [done|]. destruct Hcase as [[Hlen ->]|(p & Hp & _ & R)].
  - split; [split; try apply SC; [done|by rewrite (sc_contents _ _ SC)]|].
    rewrite (sc_len _ _ SC). lia.
  - destruct (wf_entries _ Wm p Hp) as (_ & e & E & _).
    split; [|rewrite <- (sc_len _ _ SC), (rm_len _ _ _ R); done].
    split; [done|..]; rewrite ?(rm_cap _ _ _ R), ?(rm_cap_func _ _ _ R), ?(rm_tick _ _ _ R),
      ?(rm_fresh _ _ _ R), ?(rm_length _ _ _ R); try apply SC.
    rewrite (contents_removed _ _ _ _ Wm Hp E R), (sc_contents _ _ SC). apply delete_subseteq.
Qed.

(** The loop that evicts while there are [n] entries or more returns, unless [n] is 0. *)
Lemma evict_while_run n cond fuel st :
  cache_wf st -> (0 < n)%nat -> (len st < fuel)%nat ->
  (forall st', cap st' = cap st -> cond st' = (n <=? len st')%nat) ->
  exists st', evict_while finish fuel cond st = Some (tt, st', []) /\ shrunk st st' /\
    len st' = Nat.min (len st) (pred n).
Proof.
  intros W Hn. revert st W. induction fuel as [|fuel IH]; intros st W Hf Hc; [lia|].
  cbn [evict_while]. setoid_rewrite (first_step (gets cond)); [|done]. rewrite Hc by done.
  destruct (Nat.leb_spec n (len st)) as [Hle|Hlt].
  - destruct (evict_one_shrinks st W) as (st1 & Hr & S1 & Hl).
    setoid_rewrite (first_step (evict_one finish) _ _ _ _ Hr).
    destruct (IH st1) as (st2 & -> & S2 & Hl2); [apply S1|lia| |].
    { intros st' Hst'. apply Hc. rewrite Hst'. apply S1. }
    exists st2. split; [done|]. split; [by eapply shrunk_trans|]. lia.
  - exists st. split; [done|]. split; [by split|]. lia.
Qed.

(** ** Looking up *)

Lemma get_run st k : cache_wf st -> tick st < u32_max ->
  (contents st !! k = None /\ get finish k st = Some (None, st, [miss])) \/
  exists p e st', p ∈ ids st /\ store st !! p = Some e /\ key e = k /\
    get finish k st = Some (Some (value e), st', [hit]) /\
    refiled st p (used st e) (tick st + 1) st'.
Proof.
  intros W Ht. unfold get. destruct (bucket_of st k W) as [l Hl].
  setoid_rewrite (first_step _ _ _ _ _ (run_bucket_for_key st k (wf_some_bucket _ W))).
  setoid_rewrite (first_step (gets buckets) _ st _ _ eq_refl). rewrite Hl.
  destruct (find_in_bucket st k l W Hl) as (r & Hr & Hfound).
  setoid_rewrite (first_step (find_entry k (ll_iter l)) _ _ _ _ Hr). destruct r as [p|].
  - right. destruct Hfound as (Hp & _ & e & E & <-).
    destruct (touch_run st p e W Hp E Ht) as (st' & Htouch & R). exists p, e, st'.
    rewrite (bind_run _ _ _ _ _ _ Htouch). by split_and!.
  - left. split; [by apply contents_none|done].
Qed.

Lemma wf_touched st p e st' : cache_wf st -> tick st < u32_max -> p ∈ ids st ->
  store st !! p = Some e -> refiled st p (used st e) (tick st + 1) st' ->
  cache_wf st' /\ contents st' = contents st.
Proof.
  intros W Ht Hp E R. pose proof (wf_tick _ W) as Htick.
  destruct (wf_entries _ W p Hp) as (_ & e' & E' & He). simplify_eq.
  assert (W' : cache_wf st').
  { apply (wf_refiled st p e (used st e) (tick st + 1)); try done; [apply wf_used; [done|lia]|lia]. }
  split; [done|]. by apply (contents_refiled st p e (used st e) (tick st + 1)).
Qed.

(** ** Inserting *)

Lemma contents_absent st k p e : cache_wf st -> contents st !! k = None ->
  p ∈ ids st -> store st !! p = Some e -> key e <> k.
Proof.
  intros W Hk Hp E <-. assert (contents st !! key e = Some (value e)); [|congruence].
  apply contents_lookup; [done|]. by exists p, e.
Qed.

Lemma remove_prior_run st k : cache_wf st ->
  exists st', remove_prior (bucket_index (finish k) (length (buckets st))) k st = Some (tt, st', []) /\
    shrunk st st' /\ contents st' = delete k (contents st).
Proof.
  intros W. unfold remove_prior. destruct (bucket_of st k W) as [l Hl].
  setoid_rewrite (first_step (gets buckets)); [|done].
  setoid_rewrite (first_step (lift _)); [|by apply lift_run].
  destruct (find_in_bucket st k l W Hl) as (r & Hr & Hfound).
  setoid_rewrite (first_step (find_entry k (ll_iter l)) _ _ _ _ Hr). destruct r as [p|].
  - destruct Hfound as (Hp & Hpl & e & E & <-).
    erewrite first_step by (apply run_unlink_frequency; by apply (wf_freq_elem st)).
    erewrite first_step by (by apply run_unlink_recency).
    erewrite first_step by (by apply run_unlink_bucket). erewrite first_step by done.
    erewrite first_step by (apply lift_run, usize_sub_Some; by apply (wf_len_pos st p)).
    pose proof (removed_steps st p _ l W Hp Hl Hpl) as R. rewrite <- Nat.sub_1_r in R.
    pose proof (contents_removed _ _ _ _ W Hp E R) as HC.
    pose proof (delete_subseteq (contents st) (key e)) as Hsub. rewrite <- HC in Hsub.
    eexists. split; [done|]. split; [|exact HC].
    split; try done; [by eapply wf_removed|by apply rm_length in R].
  - exists st. split; [done|]. split; [by split|].
    symmetry. apply delete_id. by apply contents_none.
Qed.

Lemma buckets_inserted s ps bs b l p e :
  buckets_ok s ps bs -> bs !! b = Some l -> p ∉ ps ->
  b = bucket_index (finish (key e)) (length bs) ->
  buckets_ok (<[p := e]> s) (p :: ps) (<[b := ll_push_front p l]> bs).
Proof.
  intros HB Hb Hp Hidx c m Hm. rewrite length_insert.
  assert (Hold : forall m', bs !! c = Some m' -> forall q, q ∈ ll_iter m' <-> q ∈ ps /\
    exists f, <[p := e]> s !! q = Some f /\ bucket_index (finish (key f)) (length bs) = c).
  { intros m' Hm' q. destruct (HB c m' Hm') as [_ ->]. split; intros (Hq & f & Hf);
      (split; [done|]; exists f; rewrite lookup_insert_ne in *; [done|by intros ->]). }
  destruct (decide (c = b)) as [->|Hc].
  - rewrite list_lookup_insert_eq in Hm by (by eapply lookup_lt_Some). simplify_eq.
    rewrite ll_iter_push_front. destruct (HB _ l Hb) as [Hn Hl]. split.
    + apply NoDup_cons. split; [|done]. by intros [? _]%Hl.
    + intros q. rewrite !elem_of_cons, (Hold l Hb). split; [|tauto].
      intros [->|[Hq Hf]]; [|by auto]. split; [by left|]. exists e. by rewrite lookup_insert_eq.
  - rewrite list_lookup_insert_ne in Hm by done. split; [apply (HB c m Hm)|].
    intros q. rewrite (Hold m Hm), elem_of_cons. split; [intros [? ?]; by auto|].
    intros [[->|Hq] (f & Ef & Hf)]; [|split; [done|by exists f]].
    rewrite lookup_insert_eq in Ef. simplify_eq.
Qed.

Record inserted (st : Cache) (e : Entry K V) (st' : Cache) : Prop := {
  in_store : store st' = <[fresh_cell st := e]> (store st);
  in_recency : ids st' = fresh_cell st :: ids st;
  in_frequency : frequency_index st' = rb_insert (freq_of st') (fresh_cell st) (frequency_index st);
  in_buckets : exists l,
    buckets st !! bucket_index (finish (key e)) (length (buckets st)) = Some l /\
    buckets st' = <[bucket_index (finish (key e)) (length (buckets st))
                      := ll_push_front (fresh_cell st) l]> (buckets st);
  in_len : len st' = S (len st);
  in_tick : tick st' = tick st;
  in_cap : cap st' = cap st;
  in_cap_func : cap_func st' = cap_func st;
  in_fresh : fresh_cell st' = S (fresh_cell st) }.

Lemma fresh_not_in st : cache_wf st -> fresh_cell st ∉ ids st.
Proof. intros W Hp. destruct (wf_entries _ W _ Hp) as [? _]. lia. Qed.

Lemma insert_run st k v : cache_wf st ->
  exists st', insert_entry (bucket_index (finish k) (length (buckets st))) k v st = Some (tt, st', []) /\
    inserted st (mkEntry 0 (tick st) k v) st'.
Proof.
  intros W. destruct (bucket_of st k W) as [l Hl]. unfold insert_entry, new_entry.
  erewrite first_step.
  2:{ erewrite first_step by done. erewrite first_step by done. by erewrite first_step by done. }
  pose proof (fresh_not_in st W) as Hf.
  erewrite first_step by (eapply run_link_bucket; [exact Hl|apply (wf_buckets _ W)|exact Hf]).
  erewrite first_step by (apply run_link_frequency; by rewrite (wf_freq_elem st)).
  erewrite first_step by (by apply run_link_recency).
  eexists. split; [done|]. split; unfold ids; cbn; try done; [|by exists l].
  by rewrite ll_iter_push_front.
Qed.

Lemma wf_inserted st e st' : cache_wf st -> contents st !! key e = None -> entry_ok (tick st) e ->
  inserted st e st' -> cache_wf st'.
Proof.
  intros W Hk He [Rs Rr Rf (l & Hl & Rb) Rl Rt Rc Rcf Rn]. pose proof (fresh_not_in st W) as Hp.
  assert (Hsame : forall q, q ∈ ids st -> store st' !! q = store st !! q).
  { intros q Hq. rewrite Rs. apply lookup_insert_ne. by intros <-. }
  assert (Hkey : forall q f, q ∈ ids st' -> store st' !! q = Some f ->
    (q = fresh_cell st /\ f = e) \/ (q ∈ ids st /\ store st !! q = Some f /\ key f <> key e)).
  { intros q f. rewrite Rr, elem_of_cons. intros [->|Hq] Hf.
    - rewrite Rs, lookup_insert_eq in Hf. left. by simplify_eq.
    - rewrite Hsame in Hf by done. right. split_and!; try done. by eapply contents_absent. }
  split.
  - rewrite Rr. apply NoDup_cons. split; [done|apply (wf_nodup _ W)].
  - rewrite Rf, rb_iter_insert, Rr. f_equiv. apply (wf_frequency _ W).
  - rewrite Rf. apply rb_insert_ordered. eapply ordered_ext; [|apply (wf_ordered _ W)].
    intros q Hq. unfold freq_of. rewrite Hsame; [done|]. by apply wf_freq_elem.
  - rewrite Rb, length_insert. apply (wf_some_bucket _ W).
  - rewrite Rs, Rr, Rb. by apply buckets_inserted; [apply (wf_buckets _ W)|..].
  - intros q Hq. rewrite Rn, Rt. rewrite Rr, elem_of_cons in Hq. destruct Hq as [->|Hq].
    + split; [lia|]. exists e. by rewrite Rs, lookup_insert_eq.
    + rewrite Hsame by done. destruct (wf_entries _ W q Hq) as [? Hf]. split; [lia|done].
  - intros q r f g Hq Hr [[-> ->]|(Hq' & Ef & Hf)]%Hkey [[-> ->]|(Hr' & Eg & Hg)]%Hkey E; try done.
    by apply (wf_keys _ W q r f g).
  - rewrite Rl, Rr, (wf_len _ W). done.
  - rewrite Rt. apply (wf_tick _ W).
Qed.

Lemma contents_inserted st e st' : cache_wf st -> contents st !! key e = None ->
  entry_ok (tick st) e -> inserted st e st' -> contents st' = <[key e := value e]> (contents st).
Proof.
  intros W Hk He R. pose proof (wf_inserted st e st' W Hk He R) as W'.
  pose proof (fresh_not_in st W) as Hp.
  apply map_eq. intros k. apply option_eq. intros v.
  rewrite lookup_insert_Some, !contents_lookup by done.
  rewrite (in_store _ _ _ R). setoid_rewrite (in_recency _ _ _ R). setoid_rewrite elem_of_cons.
  split.
  - intros (q & f & [->|Hq] & Ef & <- & <-).
    + rewrite lookup_insert_eq in Ef. simplify_eq. by left.
    + rewrite lookup_insert_ne in Ef by (by intros <-). right.
      split; [intros E; by apply (contents_absent st (key e) q f W Hk Hq Ef)|by exists q, f].
  - intros [[<- <-]|(_ & q & f & Hq & Ef & <- & <-)].
    + exists (fresh_cell st), e. rewrite lookup_insert_eq. by auto.
    + exists q, f. rewrite lookup_insert_ne by (by intros <-). by auto.
Qed.

(** ** Growing the table *)

Lemma buckets_ok_ext s ps qs bs : (forall p, p ∈ ps <-> p ∈ qs) -> buckets_ok s ps bs -> buckets_ok s qs bs.
Proof.
  intros Hpq HB b l Hl. destruct (HB b l Hl) as [Hn Hin]. split; [done|].
  intros p. by rewrite Hin, Hpq.
Qed.

Lemma buckets_empty (s : gmap nat (Entry K V)) n : buckets_ok s [] (replicate n ll_new).
Proof.
  intros b l [-> _]%lookup_replicate. rewrite ll_iter_new. split; [constructor|].
  intros p. split; [by intros ?%elem_of_nil|by intros [?%elem_of_nil _]].
Qed.

(** Filing entries in the buckets, one after the other. *)
Lemma rehash_run st ps done_ :
  (forall p, p ∈ ps -> is_Some (store st !! p)) -> NoDup ps -> (forall p, p ∈ ps -> p ∉ done_) ->
  (0 < length (buckets st))%nat -> buckets_ok (store st) done_ (buckets st) ->
  exists bs, for_each ps (rehash finish) st = Some (tt, set_buckets bs st, []) /\
    length bs = length (buckets st) /\ buckets_ok (store st) (ps ++ done_) bs.
Proof.
  revert st done_. induction ps as [|p ps IH]; intros st dn Hs Hn Hd Hlen HB; cbn [for_each].
  { exists (buckets st). by destruct st. }
  apply NoDup_cons in Hn as [Hp Hn]. destruct (Hs p) as [e E]; [by left|].
  assert (Hl : exists l, buckets st !! bucket_index (finish (key e)) (length (buckets st)) = Some l)
    by (by apply lookup_lt_is_Some, bucket_index_lt).
  destruct Hl as [l Hl].
  assert (Hstep : rehash finish p st = Some (tt, set_buckets
    (<[bucket_index (finish (key e)) (length (buckets st)) := ll_push_front p l]> (buckets st)) st, [])).
  { unfold rehash. rewrite (first_step _ _ _ _ _ (run_read _ _ _ E)).
    rewrite (first_step _ _ _ _ _ (run_bucket_for_key st (key e) Hlen)). 
    apply (run_link_bucket _ _ _ _ dn (store st)); [done..|]. by apply Hd; left. }
  rewrite (first_step _ _ _ _ _ Hstep).
  pose proof (buckets_inserted _ _ _ _ l p e HB Hl (Hd p ltac:(by left)) eq_refl) as HB'.
  rewrite insert_id in HB' by done.
  destruct (IH (set_buckets (<[bucket_index (finish (key e)) (length (buckets st))
      := ll_push_front p l]> (buckets st)) st) (p :: dn)) as (bs & Hr & Hlb & HBs); try done.
  - intros q Hq. apply Hs. by right.
  - intros q Hq [->|?]%elem_of_cons; [done|]. by apply (Hd q); [right|].
  - cbn. by rewrite length_insert.
  - exists bs. rewrite Hr. split; [done|]. split; [by rewrite Hlb; apply length_insert|].
    eapply buckets_ok_ext; [|exact HBs]. intros q. rewrite !elem_of_app, !elem_of_cons. tauto.
Qed.

Lemma rehash_buckets_run ls st dn :
  (forall p, p ∈ concat (map ll_iter ls) -> is_Some (store st !! p)) ->
  NoDup (concat (map ll_iter ls)) -> (forall p, p ∈ concat (map ll_iter ls) -> p ∉ dn) ->
  (0 < length (buckets st))%nat -> buckets_ok (store st) dn (buckets st) ->
  exists bs, for_each ls (fun l => for_each (ll_iter l) (rehash finish)) st
      = Some (tt, set_buckets bs st, []) /\
    length bs = length (buckets st) /\
    buckets_ok (store st) (concat (map ll_iter ls) ++ dn) bs.
Proof.
  revert st dn. induction ls as [|l ls IH]; intros st dn Hs Hn Hd Hlen HB;
    cbn [for_each map concat].
  { exists (buckets st). by destruct st. }
  cbn [map concat] in Hs, Hn, Hd. setoid_rewrite elem_of_app in Hs. setoid_rewrite elem_of_app in Hd.
  apply NoDup_app in Hn as (Hn1 & Hdisj & Hn2).
  destruct (rehash_run st (ll_iter l) dn) as (bs & Hr & Hlb & HBs); try done.
  { intros p Hp. apply Hs. by left. } { intros p Hp. apply Hd. by left. }
  rewrite (first_step _ _ _ _ _ Hr).
  destruct (IH (set_buckets bs st) (ll_iter l ++ dn)) as (bs' & Hr' & Hlb' & HBs'); try done.
  { intros p Hp. apply Hs. by right. }
  { intros p Hp [Hq|Hq]%elem_of_app; [by apply (Hdisj p)|]. apply (Hd p); [by right|done]. }
  { cbn. by rewrite Hlb. }
  exists bs'. rewrite Hr'. split; [done|]. split; [by rewrite Hlb'; cbn|].
  eapply buckets_ok_ext; [|exact HBs']. intros p. rewrite !elem_of_app. tauto.
Qed.

(** The entries of all buckets, when every entry is in the bucket it belongs to. *)
Lemma concat_nodup (idx : nat -> nat) (ls : list (list nat)) off :
  (forall b l, ls !! b = Some l -> NoDup l /\ forall p, p ∈ l -> idx p = (off + b)%nat) ->
  NoDup (concat ls).
Proof.
  revert off. induction ls as [|l ls IH]; intros off Hl; cbn; [constructor|].
  apply NoDup_app. split_and!.
  - by destruct (Hl 0%nat l).
  - intros p Hp (m & Hm & Hpm)%list_elem_of_In%in_concat.
    apply list_elem_of_In, list_elem_of_lookup in Hm as [b Hb]. apply list_elem_of_In in Hpm.
    pose proof (proj2 (Hl 0%nat l eq_refl) p Hp). pose proof (proj2 (Hl (S b) m Hb) p Hpm). lia.
  - apply (IH (S off)). intros b m Hm. destruct (Hl (S b) m Hm) as [Hn Hp]. split; [done|].
    intros p Hpm. rewrite (Hp p Hpm). lia.
Qed.

Lemma bucket_elems st : cache_wf st ->
  NoDup (concat (map ll_iter (buckets st))) /\
  forall p, p ∈ concat (map ll_iter (buckets st)) <-> p ∈ ids st.
Proof.
  intros W. split.
  - apply (concat_nodup (fun p => match store st !! p with
      | Some e => bucket_index (finish (key e)) (length (buckets st)) | None => 0%nat end) _ 0).
    intros b l. rewrite list_lookup_fmap. intros (m & Hm & ->)%fmap_Some.
    destruct (wf_buckets _ W b m Hm) as [Hn Hin]. split; [done|].
    intros p (_ & e & -> & He)%Hin. done.
  - intros p. rewrite list_elem_of_In, in_concat. split.
    + intros (l & (m & <- & Hm)%in_map_iff & Hp). apply list_elem_of_In in Hp, Hm.
      apply list_elem_of_lookup in Hm as [b Hb]. by apply (wf_buckets _ W b m Hb).
    + intros Hp. destruct (wf_entries _ W p Hp) as (_ & e & E & _).
      destruct (wf_in_bucket st p e W Hp E) as (l & Hl & Hpl). exists (ll_iter l).
      split; [|by apply list_elem_of_In]. apply in_map_iff. exists l. split; [done|].
      apply list_elem_of_In. by eapply list_elem_of_lookup_2.
Qed.

Lemma grow_hash_run st : cache_wf st ->
  exists bs, grow_hash finish st = Some (tt, set_buckets bs st, []) /\ cache_wf (set_buckets bs st).
Proof.
  intros W. unfold grow_hash. setoid_rewrite (first_step (gets buckets) _ st _ _ eq_refl).
  setoid_rewrite (first_step (modify _) _ st _ _ eq_refl).
  destruct (bucket_elems st W) as [Hn Hin]. pose proof (wf_some_bucket _ W).
  destruct (rehash_buckets_run (buckets st) (set_buckets (replicate (length (buckets st) * 2) ll_new) st) [])
    as (bs & Hr & Hlen & HB); cbn.
  - intros p (_ & e & E & _)%Hin%(wf_entries _ W). by exists e.
  - done.
  - intros p _. apply not_elem_of_nil.
  - rewrite length_replicate. lia.
  - apply buckets_empty.
  - exists bs. rewrite Hr. split; [done|]. cbn in *. rewrite length_replicate in Hlen.
    destruct W. split; try done; cbn; [lia|].
    eapply buckets_ok_ext; [|exact HB]. intros p. by rewrite app_nil_r, Hin.
Qed.

(** ** Inserting, with room made *)

Lemma contents_set_buckets st bs : contents (set_buckets bs st) = contents st.
Proof. done. Qed.

Lemma wf_bump st : cache_wf st -> tick st < u32_max -> cache_wf (set_tick (tick st + 1) st).
Proof.
  intros W Ht. destruct W. split; try done; cbn; [|lia]. intros p Hp.
  destruct (wf_entries0 p Hp) as (? & e & ? & ? & ?). split; [done|]. exists e.
  split; [done|]. split; [done|]. lia.
Qed.

Lemma put_run st k v : cache_wf st -> (0 < cap st)%nat -> tick st < u32_max ->
  exists st1 st2 st', cache_wf st1 /\ contents st1 = delete k (contents st) /\
    shrunk st1 st2 /\ len st2 = Nat.min (len st1) (pred (cap st)) /\
    put finish k v st = Some (tt, st', []) /\ cache_wf st' /\
    contents st' = <[k := v]> (contents st2) /\
    len st' = S (len st2) /\ tick st' = tick st + 1 /\ cap st' = cap st /\ cap_func st' = cap_func st.
Proof.
  intros W Hcap Ht. unfold put, put_with. pose proof (wf_tick _ W) as Htick.
  setoid_rewrite (first_step (gets len) _ st _ _ eq_refl).
  setoid_rewrite (first_step _ _ _ _ _ (run_bucket_for_key st k (wf_some_bucket _ W))).
  setoid_rewrite (first_step _ _ _ _ _ (run_bump_tick st Ht)).
  pose proof (wf_bump st W Ht) as W0.
  destruct (remove_prior_run _ k W0) as (st1 & Hr1 & S1 & HC1).
  setoid_rewrite (first_step _ _ _ _ _ Hr1).
  destruct (evict_while_run (cap st) at_cap (S (len st)) st1) as (st2 & Hr2 & S2 & Hl2);
    [apply S1|done| | |].
  { apply Nat.lt_succ_r. change (len st) with (len (set_tick (tick st + 1) st)).
    rewrite <- !size_contents by (done || apply S1). apply map_subseteq_size, S1. }
  { intros st' Hst'. unfold at_cap. by rewrite Hst', (sh_cap _ _ S1). }
  setoid_rewrite (first_step _ _ _ _ _ Hr2).
  pose proof (sh_wf _ _ S2) as W2.
  destruct (insert_run st2 k v W2) as (st3 & Hr3 & R).
  rewrite (sh_buckets _ _ S2), (sh_buckets _ _ S1) in Hr3. cbn in Hr3.
  setoid_rewrite (first_step _ _ _ _ _ Hr3).
  assert (Hk : contents st2 !! k = None).
  { eapply lookup_weaken_None; [|apply S2]. rewrite HC1. apply lookup_delete_eq. }
  assert (He : entry_ok (tick st2) (mkEntry 0 (tick st2) k v)).
  { pose proof (wf_tick _ W2). unfold entry_ok, u16_max. cbn. lia. }
  pose proof (wf_inserted _ (mkEntry 0 (tick st2) k v) _ W2 Hk He R) as W3.
  pose proof (contents_inserted _ (mkEntry 0 (tick st2) k v) _ W2 Hk He R) as HC3. cbn [key value] in HC3.
  setoid_rewrite (first_step (gets id) _ st3 _ _ eq_refl).
  exists st1, st2.
  assert (Hlast : exists bs, (if (length (buckets st3) <? cap st3)%nat &&
      (length (buckets st3) / 2 <? len st3)%nat then grow_hash finish else mret tt) st3
      = Some (tt, set_buckets bs st3, []) /\ cache_wf (set_buckets bs st3)).
  { case_match; [by apply grow_hash_run|]. exists (buckets st3). by destruct st3. }
  destruct Hlast as (bs & Hr4 & W4). exists (set_buckets bs st3). unfold id.
  split_and!; try done; cbn.
  - apply S1.
  - by rewrite (in_len _ _ _ R).
  - by rewrite (in_tick _ _ _ R), (sh_tick _ _ S2), (sh_tick _ _ S1).
  - by rewrite (in_cap _ _ _ R), (sh_cap _ _ S2), (sh_cap _ _ S1).
  - by rewrite (in_cap_func _ _ _ R), (sh_cap_func _ _ S2), (sh_cap_func _ _ S1).
Qed.

Lemma update_config_run st config : cache_wf st -> (len st <= cap st)%nat ->
  exists st', update_config finish config st = Some (tt, st', []) /\ cache_wf st' /\
    contents st' ⊆ contents st /\ cap st' = cap_func st config /\ (len st' <= cap st')%nat /\
    cap_func st' = cap_func st /\ tick st' = tick st.
Proof.
  intros W Hlen. unfold update_config. setoid_rewrite (first_step (gets id) _ st _ _ eq_refl).
  unfold id. destruct (Nat.eqb_spec (cap_func st config) (cap st)) as [->|Hne].
  { exists st. by split_and!. }
  setoid_rewrite (first_step (modify _) _ st _ _ eq_refl).
  assert (Wc : cache_wf (set_cap (cap_func st config) st)) by (by destruct W).
  destruct (evict_while_run (S (cap_func st config)) over_cap (S (len st)) _ Wc) as (st' & Hr & S1 & Hl).
  - lia.
  - cbn. lia.
  - intros st' Hst'. unfold over_cap. by rewrite Hst'.
  - exists st'. split; [done|]. destruct S1 as [W' HC Hc Hcf Ht _ _]. cbn in *.
    split_and!; try done. lia.
Qed.

Lemma clear_run st : cache_wf st -> exists st', clear st = Some (tt, st', []) /\ cache_wf st' /\
  contents st' = ∅ /\ len st' = 0%nat /\ cap st' = cap st /\ cap_func st' = cap_func st /\
  tick st' = tick st.
Proof.
  intros W. eexists. split; [done|]. unfold contents, ids. cbn. rewrite ll_iter_new.
  split_and!; try done.
  split; unfold ids; cbn; rewrite ?ll_iter_new, ?rb_iter_new;
    try by first [constructor | intros ? ?%elem_of_nil | intros ? ? ? ? ?%elem_of_nil].
  - rewrite length_map. apply (wf_some_bucket _ W).
  - intros b l. rewrite list_lookup_fmap. intros (m & _ & ->)%fmap_Some. rewrite ll_iter_new.
    split; [constructor|]. intros p. split; [by intros ?%elem_of_nil|by intros [?%elem_of_nil _]].
  - by intros p ?%elem_of_nil.
  - apply (wf_tick _ W).
Qed.

(** ** Histories *)

Inductive CacheOp : Type := OpGet (k : K) | OpPut (k : K) (v : V) | OpClear | OpUpdate (config : Cfg).

Definition cache_op (o : CacheOp) : CallM Cache Metric (option V) :=
  match o with
  | OpGet k => get finish k
  | OpPut k v => put finish k v;; mret None
  | OpClear => clear;; mret None
  | OpUpdate config => update_config finish config;; mret None
  end.

Fixpoint cache_ops (os : list CacheOp) : CallM Cache Metric (list (option V)) :=
  match os with
  | [] => mret []
  | o :: os => r ← cache_op o; rs ← cache_ops os; mret (r :: rs)
  end.

(** What holds between operations, with [n] more operations to come. *)
Definition usable (n : nat) st : Prop :=
  cache_wf st /\ (0 < cap st)%nat /\ (len st <= cap st)%nat /\ (forall c, 0 < cap_func st c)%nat /\
  tick st + Z.of_nat n <= u32_max.

Lemma cache_op_keeps n o st : usable (S n) st -> exists r st' tr,
  cache_op o st = Some (r, st', tr) /\ usable n st' /\ cap_func st' = cap_func st.
Proof.
  intros (W & Hcap & Hlen & Hf & Ht). assert (Ht' : tick st < u32_max) by lia.
  destruct o as [k|k v| |config]; cbn [cache_op].
  - destruct (get_run st k W Ht') as [[_ ->]|(p & e & st' & Hp & E & _ & -> & R)].
    { exists None, st, [miss]. split_and!; try done. unfold usable. split_and!; try done. lia. }
    exists (Some (value e)), st', [hit]. destruct (wf_touched st p e st' W Ht' Hp E R) as [W' _].
    destruct R as [_ _ _ Htk Hc Hcf _ Hl _]. unfold usable.
    split_and!; rewrite ?Hcf, ?Hc, ?Hl, ?Htk; try done. lia.
  - destruct (put_run st k v W Hcap Ht') as (st1 & st2 & st' & _ & _ & _ & Hl & Hr & W' & _ & Hl' & Htk & Hc & Hcf).
    rewrite (first_step _ _ _ _ _ Hr). exists None, st', []. unfold usable. split_and!; try done; try lia.
    intros c. rewrite Hcf. apply Hf.
  - destruct (clear_run st W) as (st' & Hr & W' & _ & Hl & Hc & Hcf & Htk).
    rewrite (first_step _ _ _ _ _ Hr). exists None, st', []. unfold usable. split_and!; try done; try lia.
    intros c. rewrite Hcf. apply Hf.
  - destruct (update_config_run st config W Hlen) as (st' & Hr & W' & _ & Hc & Hl & Hcf & Htk).
    rewrite (first_step _ _ _ _ _ Hr). exists None, st', []. unfold usable. split_and!; try done; try lia.
    + rewrite Hc. apply Hf.
    + intros c. rewrite Hcf. apply Hf.
Qed.

(** ** The theorems *)

(** What a cache may answer, when [m] has the value last put under each key: nothing, or that
    value. *)
Fixpoint answers (m : gmap K V) (os : list CacheOp) (rs : list (option V)) : Prop :=
  match os, rs with
  | [], [] => True
  | OpGet k :: os, r :: rs => (r = None \/ r = m !! k) /\ answers m os rs
  | OpPut k v :: os, r :: rs => r = None /\ answers (<[k := v]> m) os rs
  | OpClear :: os, r :: rs => r = None /\ answers ∅ os rs
  | OpUpdate _ :: os, r :: rs => r = None /\ answers m os rs
  | _, _ => False
  end.

Definition written (m : gmap K V) (o : CacheOp) : gmap K V :=
  match o with OpPut k v => <[k := v]> m | OpClear => ∅ | _ => m end.

Lemma cache_op_answers n o st m r st' tr : usable (S n) st -> contents st ⊆ m ->
  cache_op o st = Some (r, st', tr) -> contents st' ⊆ written m o /\
  match o with OpGet k => r = None \/ r = m !! k | _ => r = None end.
Proof.
  intros (W & Hcap & Hlen & Hf & Ht) Hm. assert (Ht' : tick st < u32_max) by lia.
  destruct o as [k|k v| |config]; cbn [cache_op written].
  - destruct (get_run st k W Ht') as [[_ ->]|(p & e & st1 & Hp & E & Hk & -> & R)];
      intros [= <- <- <-]; [split; [done|by left]|].
    destruct (wf_touched st p e st1 W Ht' Hp E R) as [_ ->]. split; [done|]. right.
    symmetry. eapply lookup_weaken; [|exact Hm]. apply contents_lookup; [done|]. by exists p, e.
  - destruct (put_run st k v W Hcap Ht') as (st1 & st2 & st3 & _ & HC1 & S2 & _ & Hr & _ & HC & _).
    rewrite (first_step _ _ _ _ _ Hr). intros [= <- <- <-]. split; [|done]. rewrite HC.
    apply insert_mono. transitivity (contents st1); [apply S2|]. rewrite HC1.
    transitivity (contents st); [apply delete_subseteq|done].
  - destruct (clear_run st W) as (st1 & Hr & _ & HC & _). rewrite (first_step _ _ _ _ _ Hr).
    intros [= <- <- <-]. by rewrite HC.
  - destruct (update_config_run st config W Hlen) as (st1 & Hr & _ & HC & _).
    rewrite (first_step _ _ _ _ _ Hr). intros [= <- <- <-]. split; [|done].
    by transitivity (contents st).
Qed.

Lemma cache_ops_run os st m : usable (length os) st -> contents st ⊆ m ->
  exists rs st' tr, cache_ops os st = Some (rs, st', tr) /\ usable 0 st' /\ answers m os rs.
Proof.
  revert st m. induction os as [|o os IH]; intros st m U Hm; cbn [cache_ops].
  { by exists [], st, []. }
  destruct (cache_op_keeps (length os) o st U) as (r & st1 & tr & Hr & U1 & _).
  destruct (cache_op_answers _ o st m r st1 tr U Hm Hr) as [Hm1 Ha].
  destruct (IH st1 (written m o) U1 Hm1) as (rs & st' & tr' & Hrs & U' & Has).
  exists (r :: rs), st', (tr ++ tr' ++ []). split_and!; [|done|by destruct o].
  erewrite bind_runs; [done|exact Hr|]. by erewrite bind_runs.
Qed.

(** C21: Whatever is looked up, put, cleared or reconfigured, a cache of positive capacity never
    fails: no entry is unlinked from an index it is not in, no operation panics or loops. It
    never holds more than its capacity, its counter is the number of entries, and what it
    answers is nothing or the value last put under the key. *)
Theorem cache_never_fails (os : list CacheOp) (f : Cfg -> nat) (config : Cfg) :
  (forall c, 0 < f c)%nat -> Z.of_nat (length os) <= u32_max ->
  exists rs st tr, cache_ops os (new f config) = Some (rs, st, tr) /\
    cache_wf st /\ (len st <= cap st)%nat /\ size (contents st) = len st /\ answers ∅ os rs.
Proof.
  intros Hf Hn. destruct (cache_ops_run os (new f config) ∅) as (rs & st & tr & Hr & U & Ha).
  - unfold usable. split_and!; [apply new_wf|apply Hf|cbn; lia|done|cbn; lia].
  - unfold contents, ids. cbn. by rewrite ll_iter_new.
  - exists rs, st, tr. destruct U as (W & _ & Hlen & _). split_and!; try done. by apply size_contents.
Qed.

(** Looking a key up gives what the cache holds under it and changes nothing it holds. An
    entry that is found becomes the most recently used, used once more and now; a key that is
    not found changes nothing at all. *)
Theorem get_spec st k : cache_wf st -> tick st < u32_max ->
  exists st' m, get finish k st = Some (contents st !! k, st', [m]) /\ cache_wf st' /\
    contents st' = contents st /\
    match contents st !! k with
    | None => m = miss /\ st' = st
    | Some _ => m = hit /\ exists p e, store st !! p = Some e /\ key e = k /\
        ids st' = p :: without p (ids st) /\ tick st' = tick st + 1 /\
        store st' = <[p := mkEntry (Z.min (freq e + 1) u16_max) (tick st + 1) k (value e)]> (store st)
    end.
Proof.
  intros W Ht. destruct (get_run st k W Ht) as [[-> ->]|(p & e & st' & Hp & E & <- & -> & R)].
  { by exists st, miss. }
  assert (Hc : contents st !! key e = Some (value e)) by (apply contents_lookup; [done|]; by exists p, e).
  destruct (wf_touched st p e st' W Ht Hp E R) as [W' HC].
  exists st', hit. rewrite Hc. split_and!; try done. exists p, e. by destruct R.
Qed.

(** C24: Putting a value returns; the cache then holds it under its key and nothing else that is
    new. If there is room, nothing is lost; if there is not, just as many entries go as are
    in the way. *)
Theorem put_spec st k v : cache_wf st -> (0 < cap st)%nat -> tick st < u32_max ->
  exists st', put finish k v st = Some (tt, st', []) /\ cache_wf st' /\
    contents st' !! k = Some v /\ delete k (contents st') ⊆ delete k (contents st) /\
    ((size (delete k (contents st)) < cap st)%nat -> contents st' = <[k := v]> (contents st)) /\
    len st' = S (Nat.min (size (delete k (contents st))) (pred (cap st))).
Proof.
  intros W Hcap Ht.
  destruct (put_run st k v W Hcap Ht) as (st1 & st2 & st' & W1 & HC1 & S2 & Hl2 & Hr & W' & HC & Hl & _).
  exists st'. rewrite <- HC1. rewrite (size_contents st1) by done.
  split_and!; try done; rewrite ?HC, ?Hl; [apply lookup_insert_eq| | |by rewrite Hl2].
  - rewrite delete_insert_eq. transitivity (contents st2); [apply delete_subseteq|apply S2].
  - intros Hroom. enough (contents st2 = contents st1) as -> by (rewrite HC1; apply insert_delete_eq).
    apply map_subseteq_size_eq; [apply S2|]. rewrite !size_contents by (done || apply S2). lia.
Qed.

(** C25: Making room first ages the least recently used entry: one that was used and that was idle for two
    periods of ten ticks or more (counted modulo 2^16) has its frequency divided by the number of the
    periods and becomes the most recent one; no other entry changes. Then exactly one entry is taken out,
    one of least frequency, and the others keep their order. *)
Theorem evict_one_spec st : cache_wf st -> (0 < len st)%nat ->
  exists st' p e, evict_one finish st = Some (tt, st', []) /\ cache_wf st' /\
    p ∈ ids st /\ aged_store st !! p = Some e /\
    (forall q d, q ∈ ids st -> aged_store st !! q = Some d -> freq e <= freq d) /\
    store st' = aged_store st /\ ids st' = without p (aged_ids st) /\
    contents st' = delete (key e) (contents st) /\ len st = S (len st').
Proof.
  intros W Hpos. destruct (evict_one_run st W) as (mid & st' & Hd & Wm & SC & Hr & W' & Hcase).
  destruct Hcase as [[? _]|(p & Hp & Hmin & R)]; [lia|].
  destruct (decay_ages st W) as (mid' & Hd' & Es & Ei). rewrite Hd in Hd'. injection Hd' as <-.
  destruct (wf_entries _ Wm p Hp) as (_ & e & E & _). exists st', p, e. rewrite <- Es, <- Ei.
  split_and!; try done.
  - by rewrite <- (sc_perm _ _ SC).
  - intros q d Hq Ed. rewrite <- (sc_perm _ _ SC) in Hq. specialize (Hmin q Hq).
    unfold freq_of in Hmin. by rewrite E, Ed in Hmin.
  - apply (rm_store _ _ _ R).
  - apply (rm_recency _ _ _ R).
  - by rewrite (contents_removed _ _ _ _ Wm Hp E R), (sc_contents _ _ SC).
  - by rewrite <- (sc_len _ _ SC), (rm_len _ _ _ R).
Qed.

(** C38: A cache that is given the capacity 0 never returns from [put]: the loop that makes room
    asks for an empty cache to have less than no entries, and leaves it as it is, whatever the
    number of rounds. *)
Theorem put_zero_capacity_hangs st k v fuel :
  cache_wf st -> cap st = 0%nat -> len st = 0%nat -> tick st < u32_max ->
  put_with finish fuel k v st = None /\
  exists st', remove_prior (bucket_index (finish k) (length (buckets st))) k
      (set_tick (tick st + 1) st) = Some (tt, st', []) /\
    at_cap st' = true /\ evict_one finish st' = Some (tt, st', []).
Proof.
  intros W Hcap Hlen Ht. pose proof (wf_tick _ W) as Htick.
  pose proof (wf_bump st W Ht) as W0.
  destruct (remove_prior_run _ k W0) as (st1 & Hr & S1 & _). cbn in Hr.
  assert (Hl1 : len st1 = 0%nat).
  { pose proof (map_subseteq_size _ _ (sh_contents _ _ S1)) as Hs.
    rewrite !size_contents in Hs by (done || apply S1). cbn in Hs. lia. }
  assert (Hev : evict_one finish st1 = Some (tt, st1, [])) by (by apply evict_empty; [apply S1|]).
  assert (Hat : at_cap st1 = true) by (unfold at_cap; by rewrite (sh_cap _ _ S1), Hl1; cbn; rewrite Hcap).
  split; [|by exists st1].
  unfold put_with. rewrite (first_step _ _ _ _ _ (run_bucket_for_key st k (wf_some_bucket _ W))).
  rewrite (first_step _ _ _ _ _ (run_bump_tick st Ht)). rewrite (first_step _ _ _ _ _ Hr).
  enough (Hloop : forall n, evict_while finish n at_cap st1 = None).
  { cbv [mbind CallM_bind]. by rewrite Hloop. }
  induction n as [|n IH]; [done|]. cbn [evict_while].
  rewrite (first_step (gets at_cap) _ st1 _ _ eq_refl), Hat.
  by rewrite (first_step _ _ _ _ _ Hev).
Qed.

(** The idle time is cut to 16 bits after the division: an entry that was idle for
    655,360 ticks does not decay at all. *)
Lemma long_idle_does_not_decay st p e : cache_wf st -> last (ids st) = Some p ->
  store st !! p = Some e -> 655360 <= tick st - last_tick e < 655380 ->
  decay_least_recent st = Some (tt, st, []).
Proof.
  intros W Hlast E Hidle. destruct (decay_run st W) as (st' & Hr & Hcase).
  destruct (due st) as [q|]; [destruct Hcase as (d & Hq & Ed & Hd & _)|by subst st'].
  rewrite Hlast in Hq. injection Hq as <-. rewrite E in Ed. injection Ed as <-.
  exfalso. unfold idle_factor in Hd.
  assert (H10 : 65536 <= (tick st - last_tick e) / 10 < 65538).
  { split; [apply Z.div_le_lower_bound; lia|apply Z.div_lt_upper_bound; lia]. }
  rewrite <- (Z.mod_add _ (-1)), Z.mod_small in Hd; lia.
Qed.

End Props.

(** ** Examples: the tests of the source, with [id] as the hash *)

Definition frequency_order {K V Cfg} (r : option (list (option V) * LfuCache K V Cfg * list Metric)) :
    list (Z * Z * K * V) :=
  match r with
  | Some (_, st, _) =>
      omap (fun p => e ← store st !! p; Some (freq e, last_tick e, key e, value e))
        (rb_iter (frequency_index st))
  | None => []
  end.

Definition put_get (i : Z) (n : nat) : list (@CacheOp Z Z unit) := OpPut i i :: replicate n (OpGet i).

Definition decay_history : list (@CacheOp Z Z unit) :=
  put_get 0 0 ++ put_get 1 2 ++ put_get 2 4 ++ put_get 3 6 ++ [OpGet 1; OpGet 2] ++
  put_get 10 1 ++ put_get 11 4 ++ put_get 12 0 ++
  concat (replicate 5 [OpGet 2; OpGet 11; OpGet 12]) ++ replicate 10 (OpGet 11) ++ put_get 42 0.

Example decay_test :
  frequency_order (cache_ops id decay_history (new (fun _ => 4%nat) tt))
  = [(0, 52, 42, 42); (5, 41, 12, 12); (10, 39, 2, 2); (19, 51, 11, 11)].
Proof. vm_compute. reflexivity. Qed.

Definition demo_cache : LfuCache Z Z unit :=
  match cache_ops id [OpPut 1 10; OpPut 2 20; OpGet 1] (new (fun _ => 2%nat) tt) with
  | Some (_, st, _) => st
  | None => new (fun _ => 2%nat) tt
  end.

Lemma demo_cache_wf : cache_wf id demo_cache.
Proof.
  destruct (cache_ops_run id [OpPut 1 10; OpPut 2 20; OpGet 1] (new (fun _ : unit => 2%nat) tt) ∅)
    as (rs & st & tr & Hr & U & _).
  - unfold usable. split_and!; [apply new_wf|cbn; lia|cbn; lia|intros; cbn; lia|cbn; unfold u32_max; lia].
  - done.
  - unfold demo_cache. rewrite Hr. apply U.
Qed.

Lemma cache_never_fails_witness :
  exists rs st tr, cache_ops id decay_history (new (fun _ => 4%nat) tt) = Some (rs, st, tr) /\
    cache_wf id st /\ (len st <= cap st)%nat /\ size (contents st) = len st /\
    answers ∅ decay_history rs.
Proof. apply (cache_never_fails id decay_history (fun _ => 4%nat) tt); [lia|vm_compute; congruence]. Defined.

Lemma get_spec_witness : exists st' m, get id 2 demo_cache = Some (Some 20, st', [m]) /\
  m = hit /\ contents st' = contents demo_cache.
Proof.
  pose proof (get_spec id demo_cache 2 demo_cache_wf ltac:(vm_compute; reflexivity)) as Hs.
  assert (Hc : contents demo_cache !! 2 = Some 20) by (vm_compute; reflexivity). rewrite Hc in Hs.
  destruct Hs as (st' & m & Hr & _ & HC & Hm & _).
  exists st', m. split; [exact Hr|]. split; [exact Hm|exact HC].
Defined.

Lemma put_spec_witness : exists st', put id 3 30 demo_cache = Some (tt, st', []) /\
  contents st' !! 3 = Some 30 /\ len st' = 2%nat.
Proof.
  destruct (put_spec id demo_cache 3 30 demo_cache_wf ltac:(vm_compute; lia)
    ltac:(vm_compute; reflexivity)) as (st' & Hr & _ & Hk & _ & _ & Hl).
  exists st'. split; [exact Hr|]. split; [exact Hk|]. rewrite Hl. vm_compute. reflexivity.
Defined.

(** Key 1 was used eight times, key 2 three times, and then key 3 thirty times: key 1 is aged
    by three periods to 2, and is the one that goes. *)
Definition idle_history : list (@CacheOp Z Z unit) :=
  [OpPut 1 10] ++ replicate 8 (OpGet 1) ++ [OpPut 2 20] ++ replicate 3 (OpGet 2) ++
  [OpPut 3 30] ++ replicate 30 (OpGet 3).

Definition idle_cache : LfuCache Z Z unit :=
  match cache_ops id idle_history (new (fun _ => 3%nat) tt) with
  | Some (_, st, _) => st
  | None => new (fun _ => 3%nat) tt
  end.

Lemma idle_cache_wf : cache_wf id idle_cache.
Proof.
  destruct (cache_ops_run id idle_history (new (fun _ : unit => 3%nat) tt) ∅)
    as (rs & st & tr & Hr & U & _).
  - unfold usable. split_and!; [apply new_wf|cbn; lia|cbn; lia|intros; cbn; lia|cbn; unfold u32_max; lia].
  - done.
  - unfold idle_cache. rewrite Hr. apply U.
Qed.

Lemma evict_one_spec_witness : exists st' (e : Entry Z Z), evict_one id idle_cache = Some (tt, st', []) /\
  (map freq ∘ omap (fun p => store st' !! p)) (ids idle_cache) = [30; 3; 2] /\
  contents st' = delete (key e) (contents idle_cache) /\ len st' = 2%nat.
Proof.
  destruct (evict_one_spec id idle_cache idle_cache_wf ltac:(vm_compute; lia))
    as (st' & p & e & Hr & _ & _ & _ & _ & Hs & _ & HC & Hl).
  exists st', e. split; [exact Hr|]. split; [rewrite Hs; vm_compute; reflexivity|]. split; [exact HC|].
  assert (Hn : len idle_cache = 3%nat) by (vm_compute; reflexivity). congruence.
Defined.

Lemma put_zero_capacity_hangs_witness :
  put_with id 1000 1 10 (new (fun _ : unit => 0%nat) tt) = None.
Proof.
  apply (put_zero_capacity_hangs id (new (fun _ : unit => 0%nat) tt) 1 10 1000); try reflexivity.
  apply new_wf.
Defined.
