(* ===== verification/Codec.v ===== *)
(** The frames of the mux protocol, [src/codec/src/lib.rs]: the lengths, serials and identifiers
    in LEB128, the data and whether it is compressed, the kinds of messages, and the decoding
    of a stream that arrives in pieces. The LEB128 crate is the class [Leb128] with its laws;
    the serialisation of the messages' fields ([varbincode], [zstd], derived code) is the class
    [Serde]. A reader is the list of its bytes, or of what its reads return. *)

From Stdlib Require Import ZArith Lia.
From stdpp Require Import base numbers list option.
From S2P Require Import Prelude.
Local Open Scope Z_scope.

(** ** Errors *)

Inductive IoKind : Set := UnexpectedEof | WouldBlock | OtherIo.

(** The root cause of an [anyhow::Error]: an I/O error, or anything else. *)
Inductive Error : Set := IoError (kind : IoKind) | CorruptResponse | Message.

Definition Res (A : Type) : Type := result A Error.

#[export] Instance Res_ret : MRet Res := fun A a => Ok a.
#[export] Instance Res_bind : MBind Res := fun A B k m =>
  match m with Ok a => k a | Err e => Err e end.

(** ** LEB128 *)

Inductive LebRead : Type := LebOk (n : Z) (rest : list Z) | LebEof | LebOverflow.

Class Leb128 : Type := {
  (** [leb128::write::unsigned]: the bytes it writes *)
  leb_write : Z -> list Z;
  (** [leb128::read::unsigned] of a reader with these bytes to come *)
  leb_read : list Z -> LebRead }.

Definition in_u64 (n : Z) : Prop := 0 <= n < 2 ^ 64.

Definition proper_prefix (p l : list Z) : Prop := exists q, q <> [] /\ l = p ++ q.

Class Leb128Laws (L : Leb128) : Prop := {
  leb_write_length n : in_u64 n -> (1 <= length (leb_write n) <= 10)%nat;
  leb_read_write n rest : in_u64 n -> leb_read (leb_write n ++ rest) = LebOk n rest;
  leb_read_truncated n p : in_u64 n -> proper_prefix p (leb_write n) -> leb_read p = LebEof;
  (** reading stops at the first byte that ends a number *)
  leb_read_stops bs : match leb_read bs with
    | LebOk n rest => exists used, bs = used ++ rest /\ leb_read used = LebOk n [] /\
        forall p, proper_prefix p used -> leb_read p = LebEof
    | LebOverflow => exists used rest, bs = used ++ rest /\ leb_read used = LebOverflow /\
        forall p, proper_prefix p used -> leb_read p = LebEof
    | LebEof => forall p q, bs = p ++ q -> leb_read p = LebEof
    end;
  leb_read_u64 bs n rest : Forall is_byte bs -> leb_read bs = LebOk n rest -> in_u64 n }.

Section Frames.
Context {L : Leb128}.

Definition encoded_length (value : Z) : Z := Z.of_nat (length (leb_write value)).

Definition COMPRESSED_MASK : Z := Z.shiftl 1 63.

Definition u64_not (n : Z) : Z := 2 ^ 64 - 1 - n.

Definition MAX_PDU_SIZE : Z := 64 * 1024 * 1024.

(** ** Frames *)

Definition encode_raw_as_vec (ident serial : Z) (data : list Z) (is_compressed : bool) : list Z :=
  let len := Z.of_nat (length data) + encoded_length ident + encoded_length serial in
  let masked_len := if is_compressed then Z.lor len COMPRESSED_MASK else len in
  leb_write masked_len ++ leb_write serial ++ leb_write ident ++ data.

(** What is written to [w], and the size that is returned. *)
Definition encode_raw (ident serial : Z) (data : list Z) (is_compressed : bool) : list Z * nat :=
  let buffer := encode_raw_as_vec ident serial data is_compressed in
  (buffer, length buffer).

Definition encode_raw_async := encode_raw.

Record Decoded : Set := mkDecoded {
  d_ident : Z;
  d_serial : Z;
  d_data : list Z;
  d_is_compressed : bool }.

(** A number off the front of a reader; the bytes that are left. *)
Definition read_u64 (r : list Z) : Res (Z * list Z) :=
  match leb_read r with
  | LebOk n rest => Ok (n, rest)
  | LebEof => Err (IoError UnexpectedEof)
  | LebOverflow => Err Message
  end.

(** Byte by byte, with what was read so far parsed again each time. *)
Fixpoint read_u64_loop (buf r : list Z) : Res (Z * list Z) :=
  match r with
  | [] => Err (IoError UnexpectedEof)
  | byte :: r =>
      let buf := buf ++ [byte] in
      match leb_read buf with
      | LebOk n _ => Ok (n, r)
      | LebEof => read_u64_loop buf r
      | LebOverflow => Err Message
      end
  end.

Definition read_u64_async (r : list Z) : Res (Z * list Z) := read_u64_loop [] r.

(** [read_exact] into a buffer of [n] bytes. *)
Definition read_exact (n : nat) (r : list Z) : Res (list Z * list Z) :=
  if (n <=? length r)%nat then Ok (take n r, drop n r) else Err (IoError UnexpectedEof).

Definition unmask (len : Z) : Z * bool :=
  if negb (Z.land len COMPRESSED_MASK =? 0)
  then (Z.land len (u64_not COMPRESSED_MASK), true)
  else (len, false).

Definition decode_raw (r : list Z) : Res (Decoded * list Z) :=
  '(len, r) ← read_u64 r;
  let '(len, is_compressed) := unmask len in
  '(serial, r) ← read_u64 r;
  '(ident, r) ← read_u64 r;
  let sub := encoded_length ident + encoded_length serial in
  if len <? sub then Err Message
  else
    let data_len := len - sub in
    if MAX_PDU_SIZE <? data_len then Err Message
    else
      '(data, r) ← read_exact (Z.to_nat data_len) r;
      Ok (mkDecoded ident serial data is_compressed, r).

(** The serial is refused where it is larger than [max_serial], if that is given and not 0. *)
Definition serial_plausible (max_serial : option Z) (serial : Z) : bool :=
  match max_serial with
  | Some m => negb ((m <? serial) && (0 <? m))
  | None => true
  end.

Definition decode_raw_async (r : list Z) (max_serial : option Z) : Res (Decoded * list Z) :=
  '(len, r) ← read_u64_async r;
  let '(len, is_compressed) := unmask len in
  '(serial, r) ← read_u64_async r;
  if negb (serial_plausible max_serial serial) then Err CorruptResponse
  else
    '(ident, r) ← read_u64_async r;
    let sub := encoded_length ident + encoded_length serial in
    if len <? sub then Err CorruptResponse
    else
      let data_len := len - sub in
      if MAX_PDU_SIZE <? data_len then Err CorruptResponse
      else
        '(data, r) ← read_exact (Z.to_nat data_len) r;
        Ok (mkDecoded ident serial data is_compressed, r).

End Frames.

(** ** Messages *)

Inductive PduKind : Set :=
  | Pdu_ErrorResponse | Pdu_Ping | Pdu_Pong | Pdu_ListPanes | Pdu_ListPanesResponse
  | Pdu_SpawnResponse | Pdu_WriteToPane | Pdu_UnitResponse | Pdu_SendKeyDown
  | Pdu_SendMouseEvent | Pdu_SendPaste | Pdu_Resize | Pdu_SetClipboard | Pdu_GetLines
  | Pdu_GetLinesResponse | Pdu_GetPaneRenderChanges | Pdu_GetPaneRenderChangesResponse
  | Pdu_GetCodecVersion | Pdu_GetCodecVersionResponse | Pdu_GetTlsCreds
  | Pdu_GetTlsCredsResponse | Pdu_LivenessResponse | Pdu_SearchScrollbackRequest
  | Pdu_SearchScrollbackResponse | Pdu_SetPaneZoomed | Pdu_SplitPane | Pdu_KillPane
  | Pdu_SpawnV2 | Pdu_PaneRemoved | Pdu_SetPalette | Pdu_NotifyAlert | Pdu_SetClientId
  | Pdu_GetClientList | Pdu_GetClientListResponse | Pdu_SetWindowWorkspace
  | Pdu_WindowWorkspaceChanged | Pdu_SetFocusedPane | Pdu_GetImageCell
  | Pdu_GetImageCellResponse | Pdu_MovePaneToNewTab | Pdu_MovePaneToNewTabResponse
  | Pdu_ActivatePaneDirection | Pdu_GetPaneRenderableDimensions
  | Pdu_GetPaneRenderableDimensionsResponse | Pdu_PaneFocused | Pdu_TabResized
  | Pdu_TabAddedToWindow | Pdu_TabTitleChanged | Pdu_WindowTitleChanged | Pdu_RenameWorkspace
  | Pdu_EraseScrollbackRequest | Pdu_GetPaneDirection | Pdu_GetPaneDirectionResponse
  | Pdu_AdjustPaneSize | Pdu_ResizeTab | Pdu_RotatePanes | Pdu_SetClientActiveTab
  | Pdu_ListAgents | Pdu_ListAgentsResponse | Pdu_SetAgentMetadata | Pdu_ClearAgentMetadata
  | Pdu_ListAgentsCached | Pdu_ListAgentsCachedResponse | Pdu_SetTabOrder | Pdu_TabOrderChanged
  | Pdu_SubmitAgentRequest | Pdu_SubmitAgentRequestResponse | Pdu_GetAgentRequest
  | Pdu_GetAgentRequestResponse | Pdu_ListAgentRequestEvents
  | Pdu_ListAgentRequestEventsResponse | Pdu_CancelAgentRequest
  | Pdu_CancelAgentRequestResponse | Pdu_ReadAgentOutput | Pdu_ReadAgentOutputResponse
  | Pdu_GetAgentApiCapabilities | Pdu_GetAgentApiCapabilitiesResponse | Pdu_ListAgentApiCatalog
  | Pdu_ListAgentApiCatalogResponse | Pdu_AdmitAgentPrompt | Pdu_AdmitAgentPromptResponse
  | Pdu_ReadAgentEvents | Pdu_ReadAgentEventsResponse | Pdu_PrepareCodexLaunch
  | Pdu_PreparedCodexLaunch | Pdu_SetParkedTabs | Pdu_ParkedTabsChanged
  | Pdu_AcknowledgeAgentAttention | Pdu_AgentMetadataChanged | Pdu_GetPaneStatus
  | Pdu_GetPaneStatusResponse | Pdu_PromoteCodexAppServer | Pdu_ResolveAgentApproval
  | Pdu_ResolveAgentApprovalResponse | Pdu_SubmitTypedInput | Pdu_CreateAgentReminder
  | Pdu_AgentReminderResponse | Pdu_ListAgentReminders | Pdu_ListAgentRemindersResponse
  | Pdu_CancelAgentReminder | Pdu_CancelAgentReminderResponse | Pdu_PrepareAgentInputBox
  | Pdu_PrepareAgentInputBoxResponse | Pdu_SubmitTypedInputResponse.

#[export] Instance PduKind_eq_dec : EqDecision PduKind.
Proof. solve_decision. Defined.

(** The number that identifies the kind in a frame. *)
Definition vers (k : PduKind) : Z :=
  match k with
  | Pdu_ErrorResponse => 0 | Pdu_Ping => 1 | Pdu_Pong => 2 | Pdu_ListPanes => 3
  | Pdu_ListPanesResponse => 4 | Pdu_SpawnResponse => 8 | Pdu_WriteToPane => 9
  | Pdu_UnitResponse => 10 | Pdu_SendKeyDown => 11 | Pdu_SendMouseEvent => 12
  | Pdu_SendPaste => 13 | Pdu_Resize => 14 | Pdu_SetClipboard => 20 | Pdu_GetLines => 22
  | Pdu_GetLinesResponse => 23 | Pdu_GetPaneRenderChanges => 24
  | Pdu_GetPaneRenderChangesResponse => 25 | Pdu_GetCodecVersion => 26
  | Pdu_GetCodecVersionResponse => 27 | Pdu_GetTlsCreds => 28 | Pdu_GetTlsCredsResponse => 29
  | Pdu_LivenessResponse => 30 | Pdu_SearchScrollbackRequest => 31
  | Pdu_SearchScrollbackResponse => 32 | Pdu_SetPaneZoomed => 33 | Pdu_SplitPane => 34
  | Pdu_KillPane => 35 | Pdu_SpawnV2 => 36 | Pdu_PaneRemoved => 37 | Pdu_SetPalette => 38
  | Pdu_NotifyAlert => 39 | Pdu_SetClientId => 40 | Pdu_GetClientList => 41
  | Pdu_GetClientListResponse => 42 | Pdu_SetWindowWorkspace => 43
  | Pdu_WindowWorkspaceChanged => 44 | Pdu_SetFocusedPane => 45 | Pdu_GetImageCell => 46
  | Pdu_GetImageCellResponse => 47 | Pdu_MovePaneToNewTab => 48
  | Pdu_MovePaneToNewTabResponse => 49 | Pdu_ActivatePaneDirection => 50
  | Pdu_GetPaneRenderableDimensions => 51 | Pdu_GetPaneRenderableDimensionsResponse => 52
  | Pdu_PaneFocused => 53 | Pdu_TabResized => 54 | Pdu_TabAddedToWindow => 55
  | Pdu_TabTitleChanged => 56 | Pdu_WindowTitleChanged => 57 | Pdu_RenameWorkspace => 58
  | Pdu_EraseScrollbackRequest => 59 | Pdu_GetPaneDirection => 60
  | Pdu_GetPaneDirectionResponse => 61 | Pdu_AdjustPaneSize => 62 | Pdu_ResizeTab => 63
  | Pdu_RotatePanes => 64 | Pdu_SetClientActiveTab => 65 | Pdu_ListAgents => 66
  | Pdu_ListAgentsResponse => 67 | Pdu_SetAgentMetadata => 68 | Pdu_ClearAgentMetadata => 69
  | Pdu_ListAgentsCached => 70 | Pdu_ListAgentsCachedResponse => 71 | Pdu_SetTabOrder => 72
  | Pdu_TabOrderChanged => 73 | Pdu_SubmitAgentRequest => 74
  | Pdu_SubmitAgentRequestResponse => 75 | Pdu_GetAgentRequest => 76
  | Pdu_GetAgentRequestResponse => 77 | Pdu_ListAgentRequestEvents => 78
  | Pdu_ListAgentRequestEventsResponse => 79 | Pdu_CancelAgentRequest => 80
  | Pdu_CancelAgentRequestResponse => 81 | Pdu_ReadAgentOutput => 82
  | Pdu_ReadAgentOutputResponse => 83 | Pdu_GetAgentApiCapabilities => 84
  | Pdu_GetAgentApiCapabilitiesResponse => 85 | Pdu_ListAgentApiCatalog => 86
  | Pdu_ListAgentApiCatalogResponse => 87 | Pdu_AdmitAgentPrompt => 88
  | Pdu_AdmitAgentPromptResponse => 89 | Pdu_ReadAgentEvents => 90
  | Pdu_ReadAgentEventsResponse => 91 | Pdu_PrepareCodexLaunch => 92
  | Pdu_PreparedCodexLaunch => 93 | Pdu_SetParkedTabs => 94 | Pdu_ParkedTabsChanged => 95
  | Pdu_AcknowledgeAgentAttention => 96 | Pdu_AgentMetadataChanged => 97
  | Pdu_GetPaneStatus => 98 | Pdu_GetPaneStatusResponse => 99
  | Pdu_PromoteCodexAppServer => 100 | Pdu_ResolveAgentApproval => 101
  | Pdu_ResolveAgentApprovalResponse => 102 | Pdu_SubmitTypedInput => 103
  | Pdu_CreateAgentReminder => 104 | Pdu_AgentReminderResponse => 105
  | Pdu_ListAgentReminders => 106 | Pdu_ListAgentRemindersResponse => 107
  | Pdu_CancelAgentReminder => 108 | Pdu_CancelAgentReminderResponse => 109
  | Pdu_PrepareAgentInputBox => 110 | Pdu_PrepareAgentInputBoxResponse => 111
  | Pdu_SubmitTypedInputResponse => 112
  end.

Definition all_kinds : list PduKind :=
  [Pdu_ErrorResponse; Pdu_Ping; Pdu_Pong; Pdu_ListPanes; Pdu_ListPanesResponse;
   Pdu_SpawnResponse; Pdu_WriteToPane; Pdu_UnitResponse; Pdu_SendKeyDown; Pdu_SendMouseEvent;
   Pdu_SendPaste; Pdu_Resize; Pdu_SetClipboard; Pdu_GetLines; Pdu_GetLinesResponse;
   Pdu_GetPaneRenderChanges; Pdu_GetPaneRenderChangesResponse; Pdu_GetCodecVersion;
   Pdu_GetCodecVersionResponse; Pdu_GetTlsCreds; Pdu_GetTlsCredsResponse; Pdu_LivenessResponse;
   Pdu_SearchScrollbackRequest; Pdu_SearchScrollbackResponse; Pdu_SetPaneZoomed; Pdu_SplitPane;
   Pdu_KillPane; Pdu_SpawnV2; Pdu_PaneRemoved; Pdu_SetPalette; Pdu_NotifyAlert;
   Pdu_SetClientId; Pdu_GetClientList; Pdu_GetClientListResponse; Pdu_SetWindowWorkspace;
   Pdu_WindowWorkspaceChanged; Pdu_SetFocusedPane; Pdu_GetImageCell; Pdu_GetImageCellResponse;
   Pdu_MovePaneToNewTab; Pdu_MovePaneToNewTabResponse; Pdu_ActivatePaneDirection;
   Pdu_GetPaneRenderableDimensions; Pdu_GetPaneRenderableDimensionsResponse; Pdu_PaneFocused;
   Pdu_TabResized; Pdu_TabAddedToWindow; Pdu_TabTitleChanged; Pdu_WindowTitleChanged;
   Pdu_RenameWorkspace; Pdu_EraseScrollbackRequest; Pdu_GetPaneDirection;
   Pdu_GetPaneDirectionResponse; Pdu_AdjustPaneSize; Pdu_ResizeTab; Pdu_RotatePanes;
   Pdu_SetClientActiveTab; Pdu_ListAgents; Pdu_ListAgentsResponse; Pdu_SetAgentMetadata;
   Pdu_ClearAgentMetadata; Pdu_ListAgentsCached; Pdu_ListAgentsCachedResponse; Pdu_SetTabOrder;
   Pdu_TabOrderChanged; Pdu_SubmitAgentRequest; Pdu_SubmitAgentRequestResponse;
   Pdu_GetAgentRequest; Pdu_GetAgentRequestResponse; Pdu_ListAgentRequestEvents;
   Pdu_ListAgentRequestEventsResponse; Pdu_CancelAgentRequest; Pdu_CancelAgentRequestResponse;
   Pdu_ReadAgentOutput; Pdu_ReadAgentOutputResponse; Pdu_GetAgentApiCapabilities;
   Pdu_GetAgentApiCapabilitiesResponse; Pdu_ListAgentApiCatalog;
   Pdu_ListAgentApiCatalogResponse; Pdu_AdmitAgentPrompt; Pdu_AdmitAgentPromptResponse;
   Pdu_ReadAgentEvents; Pdu_ReadAgentEventsResponse; Pdu_PrepareCodexLaunch;
   Pdu_PreparedCodexLaunch; Pdu_SetParkedTabs; Pdu_ParkedTabsChanged;
   Pdu_AcknowledgeAgentAttention; Pdu_AgentMetadataChanged; Pdu_GetPaneStatus;
   Pdu_GetPaneStatusResponse; Pdu_PromoteCodexAppServer; Pdu_ResolveAgentApproval;
   Pdu_ResolveAgentApprovalResponse; Pdu_SubmitTypedInput; Pdu_CreateAgentReminder;
   Pdu_AgentReminderResponse; Pdu_ListAgentReminders; Pdu_ListAgentRemindersResponse;
   Pdu_CancelAgentReminder; Pdu_CancelAgentReminderResponse; Pdu_PrepareAgentInputBox;
   Pdu_PrepareAgentInputBoxResponse; Pdu_SubmitTypedInputResponse].

(** The match on [decoded.ident]. *)
Definition kind_of_ident (ident : Z) : option PduKind :=
  List.find (fun k => vers k =? ident) all_kinds.

(** The serialisation of the fields of a message, plain and through the compressor. *)
Class Serde : Type := {
  payload : PduKind -> Type;
  encode_plain k : payload k -> Res (list Z);
  encode_zstd k : payload k -> Res (list Z);
  decode_plain k : list Z -> Res (payload k);
  decode_zstd k : list Z -> Res (payload k) }.

Class SerdeLaws (S : Serde) : Prop := {
  decode_encode_plain k (s : payload k) bs : encode_plain k s = Ok bs -> decode_plain k bs = Ok s;
  decode_encode_zstd k (s : payload k) bs : encode_zstd k s = Ok bs -> decode_zstd k bs = Ok s }.

Section Pdus.
Context {L : Leb128} {S : Serde}.

Inductive Pdu : Type :=
| PduInvalid (ident : Z)
| PduMessage (k : PduKind) (s : payload k).

Record DecodedPdu : Type := mkDecodedPdu { serial : Z; pdu : Pdu }.

Definition COMPRESS_THRESH : nat := 32.

Definition serialize (k : PduKind) (s : payload k) : Res (list Z * bool) :=
  uncompressed ← encode_plain k s;
  if (length uncompressed <=? COMPRESS_THRESH)%nat then Ok (uncompressed, false)
  else
    compressed ← encode_zstd k s;
    if (length compressed <? length uncompressed)%nat then Ok (compressed, true)
    else Ok (uncompressed, false).

Definition deserialize (k : PduKind) (r : list Z) (is_compressed : bool) : Res (payload k) :=
  if is_compressed then decode_zstd k r else decode_plain k r.

(** The bytes that are written. *)
Definition encode (p : Pdu) (serial : Z) : Res (list Z) :=
  match p with
  | PduInvalid _ => Err Message
  | PduMessage k s =>
      '(data, is_compressed) ← serialize k s;
      Ok (encode_raw (vers k) serial data is_compressed).1
  end.

Definition encode_async := encode.

Definition decoded_pdu (d : Decoded) : Res DecodedPdu :=
  match kind_of_ident (d_ident d) with
  | Some k =>
      s ← deserialize k (d_data d) (d_is_compressed d);
      Ok (mkDecodedPdu (d_serial d) (PduMessage k s))
  | None => Ok (mkDecodedPdu (d_serial d) (PduInvalid (d_ident d)))
  end.

Definition decode (r : list Z) : Res (DecodedPdu * list Z) :=
  '(d, r) ← decode_raw r;
  p ← decoded_pdu d;
  Ok (p, r).

Definition decode_async (r : list Z) (max_serial : option Z) : Res (DecodedPdu * list Z) :=
  '(d, r) ← decode_raw_async r max_serial;
  p ← decoded_pdu d;
  Ok (p, r).

(** Whether a message is an action of the user. *)
Definition is_user_input (p : Pdu) : bool :=
  match p with
  | PduMessage (Pdu_WriteToPane | Pdu_SendKeyDown | Pdu_SendMouseEvent | Pdu_SendPaste
      | Pdu_Resize | Pdu_SetClipboard | Pdu_SetPaneZoomed | Pdu_SetTabOrder | Pdu_SetParkedTabs
      | Pdu_AcknowledgeAgentAttention | Pdu_SpawnV2 | Pdu_SetAgentMetadata
      | Pdu_ClearAgentMetadata | Pdu_SubmitAgentRequest | Pdu_AdmitAgentPrompt
      | Pdu_CancelAgentRequest | Pdu_PrepareCodexLaunch | Pdu_PromoteCodexAppServer
      | Pdu_ResolveAgentApproval) _ => true
  | _ => false
  end.

(** ** Streams *)

(** The frame at the front of the buffer, if it is complete, and the buffer after it. *)
Definition stream_decode (buffer : list Z) : Res (option DecodedPdu) * list Z :=
  match decode buffer with
  | Ok (decoded, remain) => (Ok (Some decoded), remain)
  | Err (IoError (UnexpectedEof | WouldBlock)) => (Ok None, buffer)
  | Err e => (Err e, buffer)
  end.

(** What a [read] into 4096 bytes returns; no bytes are the end of the file, as are no more
    reads. *)
Inductive ReadStep : Set := ReadData (bytes : list Z) | ReadBlocked | ReadFailed.

Fixpoint try_read_and_decode (reads : list ReadStep) (buffer : list Z) :
    Res (option DecodedPdu) * list ReadStep * list Z :=
  match stream_decode buffer with
  | (Ok (Some decoded), buffer) => (Ok (Some decoded), reads, buffer)
  | (Err e, buffer) => (Err e, reads, buffer)
  | (Ok None, buffer) =>
      match reads with
      | [] => (Err (IoError UnexpectedEof), [], buffer)
      | ReadFailed :: reads => (Err (IoError OtherIo), reads, buffer)
      | ReadBlocked :: reads => (Ok None, reads, buffer)
      | ReadData bytes :: reads =>
          if (length bytes =? 0)%nat then (Err (IoError UnexpectedEof), reads, buffer)
          else try_read_and_decode reads (buffer ++ bytes)
      end
  end.

End Pdus.
