(* ===== verification/CodecProps.v ===== *)
(** The frames' theorems: messages are read back as they were written, whole or in pieces, by
    the reader that blocks and by the asynchronous one; what the decoder refuses; and a
    complete frame that is taken for an incomplete one. *)

From Stdlib Require Import ZArith Lia String.
From stdpp Require Import base numbers list option.
From S2P Require Import Prelude Codec.
Local Open Scope Z_scope.

(** ** An implementation of LEB128 *)

Fixpoint uleb_write (k : nat) (n : Z) : list Z :=
  match k with
  | O => []
  | S k => if n <? 128 then [n] else (n mod 128 + 128) :: uleb_write k (n / 128)
  end.

(** The rest of a number that does not fit. *)
Fixpoint uleb_skip (l : list Z) : LebRead :=
  match l with
  | [] => LebEof
  | b :: l => if 128 <=? b then uleb_skip l else LebOverflow
  end.

(** [k] bytes with seven bits each, then one with one bit. *)
Fixpoint uleb_read (k : nat) (l : list Z) : LebRead :=
  match l with
  | [] => LebEof
  | b :: l' =>
      match k with
      | O => if (b =? 0) || (b =? 1) then LebOk b l' else uleb_skip l
      | S k =>
          if b <? 128 then LebOk b l'
          else match uleb_read k l' with LebOk n rest => LebOk (b - 128 + 128 * n) rest | e => e end
      end
  end.

#[export] Instance uleb128 : Leb128 := { leb_write := uleb_write 10; leb_read := uleb_read 9 }.

Lemma proper_prefix_cons (b : Z) p l :
  proper_prefix p (b :: l) -> p = [] \/ exists p', p = b :: p' /\ proper_prefix p' l.
Proof.
  intros (q & Hq & E). destruct p as [|c p]; [by left|]. right. cbn in E. simplify_eq.
  exists p. split; [done|]. by exists q.
Qed.

Lemma not_proper_prefix_nil (p : list Z) : ~ proper_prefix p [].
Proof. intros (q & Hq & E). symmetry in E. by apply app_nil in E as [_ ->]. Qed.

Lemma uleb_write_length k n : (length (uleb_write k n) <= k)%nat.
Proof. revert n. induction k as [|k IH]; intros n; cbn; [lia|]. case_match; cbn; [lia|]. pose proof (IH (n / 128)). lia. Qed.

Lemma uleb_write_S k n :
  uleb_write (S k) n = if n <? 128 then [n] else (n mod 128 + 128) :: uleb_write k (n / 128).
Proof. done. Qed.

Lemma uleb_read_write k n rest : 0 <= n < 2 * 128 ^ Z.of_nat k ->
  uleb_read k (uleb_write (S k) n ++ rest) = LebOk n rest.
Proof.
  revert n. induction k as [|k IH]; intros n Hn.
  { assert (n = 0 \/ n = 1) as [->| ->] by (cbn in Hn; lia); done. }
  rewrite Nat2Z.inj_succ, Z.pow_succ_r in Hn by lia.
  rewrite uleb_write_S. destruct (Z.ltb_spec n 128) as [Hlt|Hge].
  { cbn. by apply Z.ltb_lt in Hlt as ->. }
  pose proof (Z.mod_pos_bound n 128). pose proof (Z.div_mod n 128). cbn [app uleb_read].
  destruct (Z.ltb_spec (n mod 128 + 128) 128); [lia|].
  rewrite IH by (split; [apply Z.div_pos; lia|apply Z.div_lt_upper_bound; lia]). f_equal. lia.
Qed.

Lemma uleb_read_truncated k n p : proper_prefix p (uleb_write (S k) n) -> uleb_read k p = LebEof.
Proof.
  revert n p. induction k as [|k IH]; intros n p; rewrite uleb_write_S; destruct (Z.ltb_spec n 128);
    intros [->|(p' & -> & Hp)]%proper_prefix_cons; try done; try by apply not_proper_prefix_nil in Hp.
  pose proof (Z.mod_pos_bound n 128). cbn [uleb_read].
  destruct (Z.ltb_spec (n mod 128 + 128) 128); [lia|]. by rewrite (IH (n / 128)).
Qed.

(** What [leb_read_stops] says of one reading. *)
Definition stops (read : list Z -> LebRead) (bs : list Z) : Prop :=
  match read bs with
  | LebOk n rest => exists used, bs = used ++ rest /\ read used = LebOk n [] /\
      forall p, proper_prefix p used -> read p = LebEof
  | LebOverflow => exists used rest, bs = used ++ rest /\ read used = LebOverflow /\
      forall p, proper_prefix p used -> read p = LebEof
  | LebEof => forall p q, bs = p ++ q -> read p = LebEof
  end.

Lemma uleb_skip_stops bs : stops uleb_skip bs.
Proof.
  unfold stops. induction bs as [|b bs IH]; cbn [uleb_skip].
  { intros p q E. symmetry in E. by apply app_nil in E as [-> _]. }
  destruct (Z.leb_spec 128 b) as [Hb|Hb]; apply Z.leb_le in Hb as Hb' || apply Z.leb_gt in Hb as Hb'.
  - destruct (uleb_skip bs) as [n rest| |] eqn:E.
    + exfalso. clear -E. induction bs as [|c bs IH]; cbn in E; [done|]. case_match; [by apply IH|done].
    + intros [|c p] q Eq; [done|]. cbn in Eq. simplify_eq. cbn. rewrite Hb'. by eapply IH.
    + destruct IH as (used & rest & -> & Hu & Hp). exists (b :: used), rest.
      split; [done|]. cbn. rewrite Hb'. split; [done|].
      intros p [->|(p' & -> & Hp')]%proper_prefix_cons; [done|]. cbn. rewrite Hb'. by apply Hp.
  - exists [b], bs. split; [done|]. cbn. rewrite Hb'. split; [done|].
    intros p [->|(p' & -> & Hp')]%proper_prefix_cons; [done|]. by apply not_proper_prefix_nil in Hp'.
Qed.

Lemma uleb_skip_not_ok bs n rest : uleb_skip bs <> LebOk n rest.
Proof. induction bs as [|b bs IH]; cbn; [done|]. by case_match. Qed.

Lemma uleb_read_0 b bs :
  uleb_read 0 (b :: bs) = if (b =? 0) || (b =? 1) then LebOk b bs else uleb_skip (b :: bs).
Proof. done. Qed.

Lemma uleb_read_S k b bs :
  uleb_read (S k) (b :: bs) = if b <? 128 then LebOk b bs
    else match uleb_read k bs with LebOk n rest => LebOk (b - 128 + 128 * n) rest | e => e end.
Proof. done. Qed.

Lemma uleb_read_stops k bs : stops (uleb_read k) bs.
Proof.
  unfold stops. revert bs. induction k as [|k IH]; intros [|b bs];
    rewrite ?uleb_read_0, ?uleb_read_S.
  1,3: cbn; intros p q E; symmetry in E; by apply app_nil in E as [-> _].
  - destruct ((b =? 0) || (b =? 1)) eqn:Hb.
    + exists [b]. split; [done|]. cbn. rewrite Hb. split; [done|].
      intros p [->|(p' & -> & Hp')]%proper_prefix_cons; [done|]. by apply not_proper_prefix_nil in Hp'.
    + assert (Hread : forall p, p = [] \/ (exists p', p = b :: p') -> uleb_read 0 p = uleb_skip p).
      { intros p [->|[p' ->]]; [done|]. by rewrite uleb_read_0, Hb. }
      pose proof (uleb_skip_stops (b :: bs)) as Hs. unfold stops in Hs.
      destruct (uleb_skip (b :: bs)) as [n rest| |] eqn:E; [by apply uleb_skip_not_ok in E| |].
      * intros p q Eq. rewrite Hread; [by eapply Hs|]. destruct p; [by left|]. cbn in Eq. simplify_eq. eauto.
      * destruct Hs as (used & rest & Eq & Hu & Hp). exists used, rest. split; [done|].
        destruct used as [|c used]; [done|]. cbn in Eq. simplify_eq. split; [by rewrite Hread; eauto|].
        intros p Hpp. rewrite Hread; [by apply Hp|].
        apply proper_prefix_cons in Hpp as [->|(p' & -> & _)]; eauto.
  - destruct (Z.ltb_spec b 128) as [Hb|Hb]; [apply Z.ltb_lt in Hb as Hb'|apply Z.ltb_ge in Hb as Hb'].
    + exists [b]. split; [done|]. cbn. rewrite Hb'. split; [done|].
      intros p [->|(p' & -> & Hp')]%proper_prefix_cons; [done|]. by apply not_proper_prefix_nil in Hp'.
    + specialize (IH bs). destruct (uleb_read k bs) as [n rest| |] eqn:E.
      * destruct IH as (used & -> & Hu & Hp). exists (b :: used). split; [done|].
        cbn. rewrite Hb', Hu. split; [done|].
        intros p [->|(p' & -> & Hp')]%proper_prefix_cons; [done|]. cbn. by rewrite Hb', Hp.
      * intros [|c p] q Eq; [done|]. cbn in Eq. simplify_eq. cbn. rewrite Hb'. by erewrite IH.
      * destruct IH as (used & rest & -> & Hu & Hp). exists (b :: used), rest. split; [done|].
        cbn. rewrite Hb', Hu. split; [done|].
        intros p [->|(p' & -> & Hp')]%proper_prefix_cons; [done|]. cbn. by rewrite Hb', Hp.
Qed.

Lemma uleb_read_bound k bs n rest : Forall is_byte bs -> uleb_read k bs = LebOk n rest ->
  0 <= n < 2 * 128 ^ Z.of_nat k.
Proof.
  revert bs n rest. induction k as [|k IH]; intros [|b bs] n rest Hbs; cbn [uleb_read]; try done.
  - destruct ((b =? 0) || (b =? 1)) eqn:Hb; [|by intros ?%uleb_skip_not_ok]. intros [= <- <-]. cbn.
    apply orb_true_iff in Hb as [?%Z.eqb_eq|?%Z.eqb_eq]; lia.
  - apply Forall_cons_iff in Hbs as [Hb Hbs]. unfold is_byte in Hb.
    rewrite Nat2Z.inj_succ, Z.pow_succ_r by lia.
    assert (0 < 128 ^ Z.of_nat k) by (apply Z.pow_pos_nonneg; lia).
    destruct (Z.ltb_spec b 128); [intros [= <- <-]; lia|].
    destruct (uleb_read k bs) as [m r| |] eqn:E; try done. intros [= <- <-].
    apply IH in E; [lia|done].
Qed.

#[export] Instance uleb128_laws : Leb128Laws uleb128.
Proof.
  assert (E64 : 2 ^ 64 = 2 * 128 ^ Z.of_nat 9) by reflexivity. unfold in_u64.
  split; unfold in_u64; rewrite ?E64.
  - intros n Hn. split; [|apply uleb_write_length]. change (leb_write n) with (uleb_write 10 n).
    rewrite uleb_write_S. destruct (n <? 128); cbn [length]; lia.
  - intros n rest Hn. by apply uleb_read_write.
  - intros n p _ Hp. by apply (uleb_read_truncated 9 n).
  - intros bs. apply (uleb_read_stops 9 bs).
  - intros bs n rest. apply uleb_read_bound.
Qed.

(** ** Prefixes *)

Lemma proper_prefix_app (p a b : list Z) :
  proper_prefix p (a ++ b) -> proper_prefix p a \/ exists p', p = a ++ p' /\ proper_prefix p' b.
Proof.
  intros (q & Hq & E). apply app_eq_inv in E as [(m & -> & ->)|(m & -> & ->)].
  - destruct m as [|x m].
    + right. exists []. rewrite !app_nil_r. split; [done|]. by exists b.
    + left. by exists (x :: m).
  - right. exists m. split; [done|]. by exists q.
Qed.

Section Reading.
Context {L : Leb128} {LL : Leb128Laws L}.
Implicit Types (n : Z) (bs rest : list Z).

(** Two readings of one stream stop at the same byte. *)
Lemma first_stop (u v ru rv : list Z) : u ++ ru = v ++ rv -> leb_read u <> LebEof -> leb_read v <> LebEof ->
  (forall p, proper_prefix p u -> leb_read p = LebEof) ->
  (forall p, proper_prefix p v -> leb_read p = LebEof) -> u = v /\ ru = rv.
Proof.
  intros E Hu Hv Pu Pv. apply app_eq_inv in E as [(m & -> & ->)|(m & -> & ->)].
  - destruct m as [|x m]; [by rewrite app_nil_r|]. destruct Hv. apply Pu. by exists (x :: m).
  - destruct m as [|x m]; [by rewrite app_nil_r|]. destruct Hu. apply Pv. by exists (x :: m).
Qed.

Lemma leb_read_extend bs more : leb_read bs <> LebEof ->
  leb_read (bs ++ more) = match leb_read bs with LebOk n rest => LebOk n (rest ++ more) | e => e end.
Proof.
  intros Hne. pose proof (leb_read_stops bs) as H1. pose proof (leb_read_stops (bs ++ more)) as H2.
  destruct (leb_read (bs ++ more)) as [n r| |] eqn:E2.
  - destruct H2 as (v & Ev & Hv & Pv). destruct (leb_read bs) as [m r'| |]; [| done |].
    + destruct H1 as (u & -> & Hu & Pu). rewrite <- app_assoc in Ev.
      destruct (first_stop u v _ _ Ev) as [-> ->]; try done; congruence.
    + destruct H1 as (u & r' & -> & Hu & Pu). rewrite <- app_assoc in Ev.
      destruct (first_stop u v _ _ Ev) as [-> _]; try done; congruence.
  - specialize (H2 bs more eq_refl). congruence.
  - destruct H2 as (v & rv & Ev & Hv & Pv). destruct (leb_read bs) as [m r'| |]; [| done | done].
    destruct H1 as (u & -> & Hu & Pu). rewrite <- app_assoc in Ev.
    destruct (first_stop u v _ _ Ev) as [-> _]; try done; congruence.
Qed.

(** Reading byte by byte is reading. *)
Lemma read_u64_loop_spec buf r : (forall p q, buf = p ++ q -> leb_read p = LebEof) ->
  read_u64_loop buf r = read_u64 (buf ++ r).
Proof.
  revert buf. induction r as [|b r IH]; intros buf Hb; cbn [read_u64_loop].
  { unfold read_u64. by rewrite app_nil_r, (Hb buf []) by by rewrite app_nil_r. }
  assert (E : buf ++ b :: r = (buf ++ [b]) ++ r) by by rewrite <- app_assoc.
  destruct (leb_read (buf ++ [b])) as [n rest| |] eqn:Eb.
  - unfold read_u64. rewrite E, leb_read_extend, Eb by congruence.
    pose proof (leb_read_stops (buf ++ [b])) as H1. rewrite Eb in H1.
    destruct H1 as (u & Eu & Hu & _). destruct rest as [|x rest _] using rev_ind; [done|].
    rewrite app_assoc in Eu. apply app_inj_tail in Eu as [-> _].
    by rewrite (Hb u rest eq_refl) in Hu.
  - rewrite E. apply IH. intros p q Ep. pose proof (leb_read_stops (buf ++ [b])) as H1.
    rewrite Eb in H1. by eapply H1.
  - unfold read_u64. by rewrite E, leb_read_extend, Eb by congruence.
Qed.

Lemma leb_read_nil : leb_read [] = LebEof.
Proof.
  apply (leb_read_truncated 0); [done|]. exists (leb_write 0). split; [|done].
  pose proof (leb_write_length 0 ltac:(done)). destruct (leb_write 0); cbn in *; [lia|done].
Qed.

Lemma read_u64_async_eq r : read_u64_async r = read_u64 r.
Proof.
  unfold read_u64_async. rewrite read_u64_loop_spec; [done|].
  intros p q E. symmetry in E. apply app_nil in E as [-> _]. apply leb_read_nil.
Qed.

Lemma read_u64_write n rest : in_u64 n -> read_u64 (leb_write n ++ rest) = Ok (n, rest).
Proof. intros Hn. unfold read_u64. by rewrite leb_read_write. Qed.

Lemma read_u64_truncated n p : in_u64 n -> proper_prefix p (leb_write n) ->
  read_u64 p = Err (IoError UnexpectedEof).
Proof. intros Hn Hp. unfold read_u64. by rewrite (leb_read_truncated n). Qed.

Lemma encoded_length_bounds n : in_u64 n -> 1 <= encoded_length n <= 10.
Proof. intros Hn. pose proof (leb_write_length n Hn). unfold encoded_length. lia. Qed.

(** ** The length and its mark *)

Definition marked (len : Z) (c : bool) : Z := if c then Z.lor len COMPRESSED_MASK else len.

Lemma land_compressed_mask len : 0 <= len < 2 ^ 63 -> Z.land len COMPRESSED_MASK = 0.
Proof.
  intros Hl. apply Z.bits_inj'. intros i Hi. rewrite Z.land_spec, Z.bits_0.
  destruct (Z.eq_dec i 63) as [->|Hne].
  - assert (Hb : Z.testbit len 63 = false); [|by rewrite Hb].
    apply Z.testbit_false; [lia|]. by rewrite Z.div_small.
  - unfold COMPRESSED_MASK. rewrite Z.shiftl_mul_pow2, Z.mul_1_l, Z.pow2_bits_false by lia.
    apply andb_false_r.
Qed.

Lemma unmask_marked len c : 0 <= len < 2 ^ 63 -> unmask (marked len c) = (len, c).
Proof.
  intros Hl. pose proof (land_compressed_mask len Hl) as Hz. unfold unmask, marked. destruct c; [|by rewrite Hz].
  rewrite Z.land_lor_distr_l, Hz, Z.lor_0_l, Z.land_diag. cbn [negb].
  change (u64_not COMPRESSED_MASK) with (Z.ones 63). rewrite Z.land_lor_distr_l.
  change (Z.land COMPRESSED_MASK (Z.ones 63)) with 0. rewrite Z.lor_0_r, Z.land_ones by lia.
  by rewrite Z.mod_small.
Qed.

Lemma marked_u64 len c : 0 <= len < 2 ^ 63 -> in_u64 (marked len c).
Proof.
  intros Hl. unfold in_u64, marked. destruct c; [|lia].
  pose proof (land_compressed_mask len Hl) as Hz.
  pose proof (Z.add_lor_land len COMPRESSED_MASK) as Hadd. rewrite Hz in Hadd.
  change COMPRESSED_MASK with (2 ^ 63) in *. lia.
Qed.

(** ** Frames *)

Definition data_fits (data : list Z) : Prop := Z.of_nat (length data) <= MAX_PDU_SIZE.

Definition frame_len (ident serial : Z) (data : list Z) : Z :=
  Z.of_nat (length data) + encoded_length ident + encoded_length serial.

Lemma encode_raw_marked ident serial data c : encode_raw_as_vec ident serial data c
  = leb_write (marked (frame_len ident serial data) c) ++ leb_write serial ++ leb_write ident ++ data.
Proof. done. Qed.

Lemma frame_len_bounds ident serial data : in_u64 ident -> in_u64 serial ->
  Z.of_nat (length data) < 2 ^ 62 -> 0 <= frame_len ident serial data < 2 ^ 63.
Proof.
  intros Hi%encoded_length_bounds Hs%encoded_length_bounds Hd. unfold frame_len. lia.
Qed.

Lemma decode_raw_frame ident serial data c rest : in_u64 ident -> in_u64 serial ->
  Z.of_nat (length data) < 2 ^ 62 ->
  decode_raw (encode_raw_as_vec ident serial data c ++ rest) =
    if MAX_PDU_SIZE <? Z.of_nat (length data) then Err Message
    else Ok (mkDecoded ident serial data c, rest).
Proof.
  intros Hi Hs Hd. pose proof (frame_len_bounds _ _ _ Hi Hs Hd) as Hl.
  rewrite encode_raw_marked, <- !app_assoc. unfold decode_raw.
  rewrite read_u64_write by by apply marked_u64. cbn [mbind Res_bind].
  rewrite unmask_marked, read_u64_write by done. cbn [mbind Res_bind].
  rewrite read_u64_write by done. cbn [mbind Res_bind]. unfold frame_len.
  destruct (Z.ltb_spec (Z.of_nat (length data) + encoded_length ident + encoded_length serial)
    (encoded_length ident + encoded_length serial)); [lia|].
  replace (_ + _ + _ - _) with (Z.of_nat (length data)) by lia.
  destruct (MAX_PDU_SIZE <? Z.of_nat (length data)); [done|].
  unfold read_exact. rewrite Nat2Z.id, (proj2 (Nat.leb_le _ _)) by (rewrite length_app; lia).
  cbn [mbind Res_bind]. by rewrite take_app_length, drop_app_length.
Qed.

(** Less than a frame is the end of the data, wherever it is cut. *)
Lemma decode_raw_truncated ident serial data c p : in_u64 ident -> in_u64 serial -> data_fits data ->
  proper_prefix p (encode_raw_as_vec ident serial data c) ->
  decode_raw p = Err (IoError UnexpectedEof).
Proof.
  intros Hi Hs Hd Hp. unfold data_fits, MAX_PDU_SIZE in Hd.
  pose proof (frame_len_bounds ident serial data Hi Hs ltac:(lia)) as Hl.
  rewrite encode_raw_marked in Hp. unfold decode_raw.
  apply proper_prefix_app in Hp as [Hp|(p1 & -> & Hp)].
  { by rewrite (read_u64_truncated _ _ (marked_u64 _ _ Hl) Hp). }
  rewrite read_u64_write by by apply marked_u64. cbn [mbind Res_bind]. rewrite unmask_marked by done.
  apply proper_prefix_app in Hp as [Hp|(p2 & -> & Hp)].
  { by rewrite (read_u64_truncated _ _ Hs Hp). }
  rewrite read_u64_write by done. cbn [mbind Res_bind].
  apply proper_prefix_app in Hp as [Hp|(p3 & -> & (q & Hq & ->))].
  { by rewrite (read_u64_truncated _ _ Hi Hp). }
  rewrite read_u64_write by done. cbn [mbind Res_bind]. unfold frame_len in *.
  rewrite length_app in *. destruct (Z.ltb_spec
    (Z.of_nat (length p3 + length q) + encoded_length ident + encoded_length serial)
    (encoded_length ident + encoded_length serial)); [lia|].
  replace (_ + _ + _ - _) with (Z.of_nat (length p3 + length q)) by lia.
  destruct (Z.ltb_spec MAX_PDU_SIZE (Z.of_nat (length p3 + length q))); [unfold MAX_PDU_SIZE in *; lia|].
  unfold read_exact. rewrite Nat2Z.id.
  destruct (Nat.leb_spec (length p3 + length q) (length p3)); [|done].
  destruct q; cbn in *; [done|lia].
Qed.

(** ** The asynchronous decoder *)

(** One of two readings fails, or both succeed alike where the serial is plausible. *)
Lemma async_ok r max_serial d rest : decode_raw_async r max_serial = Ok (d, rest) <->
  decode_raw r = Ok (d, rest) /\ serial_plausible max_serial (d_serial d) = true.
Proof.
  assert (Hno : forall (A B : Prop), ~ A -> ~ B -> (A <-> B /\ serial_plausible max_serial (d_serial d) = true))
    by tauto.
  unfold decode_raw_async, decode_raw. rewrite !read_u64_async_eq.
  destruct (read_u64 r) as [[len r1]|e]; cbn [mbind Res_bind]; [|by apply Hno].
  destruct (unmask len) as [len' c]. rewrite !read_u64_async_eq.
  destruct (read_u64 r1) as [[sn r2]|e]; cbn [mbind Res_bind]; [|by apply Hno].
  rewrite !read_u64_async_eq.
  destruct (read_u64 r2) as [[ident r3]|e]; cbn [mbind Res_bind]; [|by apply Hno; [case_match|]].
  destruct (len' <? _); [by apply Hno; [case_match|]|].
  destruct (MAX_PDU_SIZE <? _); [by apply Hno; [case_match|]|].
  destruct (read_exact _ r3) as [[data r4]|e]; cbn [mbind Res_bind]; [|by apply Hno; [case_match|]].
  destruct (serial_plausible max_serial sn) eqn:Hp; cbn [negb].
  - split; [intros [= <- <-]; done|by intros [[= <- <-] _]].
  - split; [done|]. intros [[= <- <-] Hq]. cbn in Hq. congruence.
Qed.

Lemma async_io r k : decode_raw_async r None = Err (IoError k) <-> decode_raw r = Err (IoError k).
Proof.
  unfold decode_raw_async, decode_raw. rewrite !read_u64_async_eq. cbn [serial_plausible negb].
  destruct (read_u64 r) as [[len r1]|e]; cbn [mbind Res_bind]; [|done].
  destruct (unmask len) as [len' c]. rewrite !read_u64_async_eq.
  destruct (read_u64 r1) as [[sn r2]|e]; cbn [mbind Res_bind]; [|done].
  rewrite !read_u64_async_eq. destruct (read_u64 r2) as [[ident r3]|e]; cbn [mbind Res_bind]; [|done].
  by destruct (len' <? _); [|destruct (MAX_PDU_SIZE <? _)].
Qed.

(** The asynchronous decoder, which reads byte by byte, accepts the same frames as the other
    one, with the same contents and the same bytes left, but for the serials above the limit it
    is given; without a limit it runs out of data in the same cases. *)
Theorem decode_raw_async_agrees r max_serial :
  (forall d rest, decode_raw_async r max_serial = Ok (d, rest) <->
     decode_raw r = Ok (d, rest) /\ serial_plausible max_serial (d_serial d) = true) /\
  (forall k, decode_raw_async r None = Err (IoError k) <-> decode_raw r = Err (IoError k)).
Proof. split; [intros; apply async_ok|intros; apply async_io]. Qed.

End Reading.

(** ** Messages *)

Lemma kind_of_vers k : kind_of_ident (vers k) = Some k.
Proof. by destruct k. Qed.

Lemma vers_u64 k : in_u64 (vers k).
Proof. by destruct k. Qed.

Section Messages.
Context {L : Leb128} {LL : Leb128Laws L} {S : Serde} {SL : SerdeLaws S}.
Implicit Types (n : Z) (p : Pdu) (frame rest buffer : list Z) (reads : list ReadStep).

(** [frame] is the message [p] with the serial [n], as it is written. *)
Definition is_frame p n frame : Prop :=
  in_u64 n /\ encode p n = Ok frame /\ Z.of_nat (length frame) <= MAX_PDU_SIZE.

Lemma serialize_spec k (s : payload k) data c : serialize k s = Ok (data, c) -> deserialize k data c = Ok s.
Proof.
  unfold serialize, deserialize. destruct (encode_plain k s) as [u|e] eqn:Eu; cbn [mbind Res_bind]; [|done].
  case_match; [intros [= <- <-]; by apply decode_encode_plain|].
  destruct (encode_zstd k s) as [z|e] eqn:Ez; cbn [mbind Res_bind]; [|done].
  case_match; intros [= <- <-]; [by apply decode_encode_zstd|by apply decode_encode_plain].
Qed.

Lemma frame_parts p n frame : is_frame p n frame -> exists k s data c,
  p = PduMessage k s /\ serialize k s = Ok (data, c) /\
  frame = encode_raw_as_vec (vers k) n data c /\ data_fits data.
Proof.
  intros (Hn & He & Hl). destruct p as [ident|k s]; [done|]. cbn [encode] in He.
  destruct (serialize k s) as [[data c]|e] eqn:Es; [|done]. cbn [mbind Res_bind] in He.
  injection He as <-. cbn [fst encode_raw] in *. exists k, s, data, c. split_and!; try done.
  unfold data_fits. revert Hl. unfold encode_raw_as_vec. rewrite !length_app. lia.
Qed.

Lemma decode_frame p n frame rest : is_frame p n frame ->
  decode (frame ++ rest) = Ok (mkDecodedPdu n p, rest).
Proof.
  intros HF. pose proof HF as (Hn & _). apply frame_parts in HF as (k & s & data & c & -> & Es & -> & Hd).
  unfold data_fits, MAX_PDU_SIZE in Hd. unfold decode.
  rewrite decode_raw_frame by (apply vers_u64 || done || lia).
  unfold MAX_PDU_SIZE. destruct (Z.ltb_spec (64 * 1024 * 1024) (Z.of_nat (length data))); [lia|].
  cbn [mbind Res_bind]. unfold decoded_pdu. cbn [d_ident d_data d_is_compressed d_serial].
  rewrite kind_of_vers, (serialize_spec _ _ _ _ Es). done.
Qed.

Lemma decode_truncated p n frame pre : is_frame p n frame -> proper_prefix pre frame ->
  decode pre = Err (IoError UnexpectedEof).
Proof.
  intros HF Hpre. pose proof HF as (Hn & _). apply frame_parts in HF as (k & s & data & c & -> & Es & -> & Hd).
  unfold decode. by rewrite (decode_raw_truncated _ _ _ _ _ (vers_u64 k) Hn Hd Hpre).
Qed.

(** C23: A message that is written is read back, with its serial, whether it was compressed or
    not, and the bytes after its frame are left; the asynchronous reader reads it too. *)
Theorem pdu_roundtrip p n frame rest : is_frame p n frame ->
  decode (frame ++ rest) = Ok (mkDecodedPdu n p, rest) /\
  decode_async (frame ++ rest) None = Ok (mkDecodedPdu n p, rest).
Proof.
  intros HF. pose proof (decode_frame p n frame rest HF) as Hd. split; [done|].
  unfold decode, decode_async in *.
  destruct (decode_raw (frame ++ rest)) as [[d r]|e] eqn:E; [|done].
  by rewrite (proj2 (async_ok _ None d r) (conj E eq_refl)).
Qed.

(** ** Pieces *)

Definition step_bytes (s : ReadStep) : list Z := match s with ReadData bs => bs | _ => [] end.

(** The bytes that are still to arrive. *)
Definition arriving reads : list Z := concat (map step_bytes reads).

(** No read fails, and none but the last is the end of the file. *)
Definition no_failure reads : Prop :=
  Forall (fun s => match s with ReadData bs => bs <> [] | ReadBlocked => True | ReadFailed => False end) reads.

Lemma stream_decode_nil : stream_decode [] = (Ok None, []).
Proof. unfold stream_decode, decode, decode_raw, read_u64. by rewrite leb_read_nil. Qed.

(** A complete frame at the front of the buffer and of what arrives. *)
Lemma buffer_cases buffer more frame rest : buffer ++ more = frame ++ rest ->
  proper_prefix buffer frame \/ exists b, buffer = frame ++ b /\ b ++ more = rest.
Proof.
  intros E. apply app_eq_inv in E as [(m & -> & ->)|(m & -> & ->)].
  - right. by exists m.
  - destruct m as [|x m]; [right; exists []; by rewrite !app_nil_r|left; by exists (x :: m)].
Qed.

Lemma stream_decode_frame p n frame b : is_frame p n frame ->
  stream_decode (frame ++ b) = (Ok (Some (mkDecodedPdu n p)), b).
Proof. intros HF. unfold stream_decode. by rewrite (decode_frame p n frame b HF). Qed.

Lemma stream_decode_truncated p n frame pre : is_frame p n frame -> proper_prefix pre frame ->
  stream_decode pre = (Ok None, pre).
Proof. intros HF Hp. unfold stream_decode. by rewrite (decode_truncated p n frame pre HF Hp). Qed.

Lemma try_read_next p n frame rest reads buffer : is_frame p n frame -> no_failure reads ->
  buffer ++ arriving reads = frame ++ rest ->
  exists reads' buffer', no_failure reads' /\ (length reads' <= length reads)%nat /\
    ((try_read_and_decode reads buffer = (Ok (Some (mkDecodedPdu n p)), reads', buffer') /\
      buffer' ++ arriving reads' = rest) \/
     (try_read_and_decode reads buffer = (Ok None, reads', buffer') /\
      buffer' ++ arriving reads' = frame ++ rest /\ (length reads' < length reads)%nat)).
Proof.
  intros HF. revert buffer. induction reads as [|s reads IH]; intros buffer Hr E;
    destruct (buffer_cases _ _ _ _ E) as [Hp|(b & -> & Hb)].
  - exfalso. destruct Hp as (q & Hq & ->). unfold arriving in E. cbn in E.
    rewrite <- app_assoc in E. apply app_inv_head in E. by destruct q.
  - exists [], b. split_and!; try done. left. cbn. by rewrite (stream_decode_frame _ _ _ _ HF).
  - apply Forall_cons_iff in Hr as [Hs Hr]. cbn [try_read_and_decode].
    rewrite (stream_decode_truncated _ _ _ _ HF Hp). destruct s as [bs| |]; [| |done].
    + destruct (Nat.eqb_spec (length bs) 0) as [H0|_]; [by apply nil_length_inv in H0|].
      destruct (IH (buffer ++ bs) Hr) as (reads' & buffer' & Hr' & Hl & Hcase).
      { unfold arriving in *. cbn in E. by rewrite <- app_assoc. }
      exists reads', buffer'. split; [done|]. split; [cbn; lia|].
      destruct Hcase as [?|(? & ? & ?)]; [by left|right]. split_and!; try done. cbn. lia.
    + exists reads, buffer. split; [done|]. split; [cbn; lia|]. right. split_and!; try done. cbn. lia.
  - exists (s :: reads), b. split; [done|]. split; [done|]. left. split; [|done].
    cbn [try_read_and_decode]. by rewrite (stream_decode_frame _ _ _ _ HF).
Qed.

(** A reader that calls [try_read_and_decode] again and again, until it fails. *)
Fixpoint receive (calls : nat) reads buffer : list DecodedPdu * list ReadStep * list Z :=
  match calls with
  | O => ([], reads, buffer)
  | Datatypes.S calls =>
      match try_read_and_decode reads buffer with
      | (Ok (Some d), reads, buffer) =>
          let '(ds, reads, buffer) := receive calls reads buffer in (d :: ds, reads, buffer)
      | (Ok None, reads, buffer) => receive calls reads buffer
      | (Err _, reads, buffer) => ([], reads, buffer)
      end
  end.

Lemma receive_nothing calls reads : no_failure reads -> arriving reads = [] ->
  exists reads', receive calls reads [] = ([], reads', []) /\ arriving reads' = [].
Proof.
  revert reads. induction calls as [|calls IH]; intros reads Hr Ha; cbn [receive]; [by exists reads|].
  destruct reads as [|s reads]; cbn [try_read_and_decode]; rewrite stream_decode_nil; [by exists []|].
  apply Forall_cons_iff in Hr as [Hs Hr]. destruct s as [bs| |]; [|by apply IH|done].
  unfold arriving in Ha. cbn in Ha. by apply app_nil in Ha as [-> _].
Qed.

Lemma receive_all calls msgs frames reads buffer :
  Forall2 (fun m frame => is_frame (pdu m) (serial m) frame) msgs frames ->
  no_failure reads -> buffer ++ arriving reads = concat frames ->
  (length msgs + length reads <= calls)%nat ->
  exists reads', receive calls reads buffer = (msgs, reads', []) /\ arriving reads' = [].
Proof.
  revert msgs frames reads buffer.
  induction calls as [|calls IH]; intros msgs frames reads buffer HF Hr E Hl.
  - destruct HF; [|cbn in Hl; lia]. apply app_nil in E as [-> ?]. cbn. by exists reads.
  - destruct HF as [|m frame msgs frames HF HFs].
    { apply app_nil in E as [-> ?]. by apply receive_nothing. }
    cbn [concat] in E. destruct (try_read_next _ _ _ _ reads buffer HF Hr E)
      as (reads' & buffer' & Hr' & Hl' & [[Ht E']|(Ht & E' & Hlt)]); cbn [receive]; rewrite Ht.
    + destruct (IH msgs frames reads' buffer' HFs Hr' E') as (r & -> & Ha); [cbn in Hl; lia|].
      exists r. by destruct m.
    + apply (IH (m :: msgs) (frame :: frames)); [by constructor|done|done|cbn in *; lia].
Qed.

(** C20: However the bytes of a sequence of messages are cut into pieces, and however often the
    reader has to wait, calling [try_read_and_decode] gives exactly these messages in their
    order, and leaves nothing behind. *)
Theorem messages_arrive msgs frames reads :
  Forall2 (fun m frame => is_frame (pdu m) (serial m) frame) msgs frames ->
  no_failure reads -> arriving reads = concat frames ->
  exists reads', receive (length msgs + length reads) reads [] = (msgs, reads', []) /\
    arriving reads' = [].
Proof. intros HF Hr E. by apply (receive_all _ msgs frames). Qed.

(** ** A frame that is never read *)

Lemma stuck_stream k n data c more : in_u64 n -> data_fits data ->
  deserialize k data c = Err (IoError UnexpectedEof) ->
  stream_decode (encode_raw_as_vec (vers k) n data c ++ more)
    = (Ok None, encode_raw_as_vec (vers k) n data c ++ more).
Proof.
  intros Hn Hd Hk. unfold data_fits, MAX_PDU_SIZE in Hd. unfold stream_decode, decode.
  rewrite decode_raw_frame by (apply vers_u64 || done || lia).
  unfold MAX_PDU_SIZE. destruct (Z.ltb_spec (64 * 1024 * 1024) (Z.of_nat (length data))); [lia|].
  cbn [mbind Res_bind]. unfold decoded_pdu. cbn [d_ident d_data d_is_compressed d_serial].
  by rewrite kind_of_vers, Hk.
Qed.

Lemma stuck_forever k n data c reads more : in_u64 n -> data_fits data ->
  deserialize k data c = Err (IoError UnexpectedEof) -> no_failure reads ->
  exists r reads' extra, try_read_and_decode reads (encode_raw_as_vec (vers k) n data c ++ more)
      = (r, reads', encode_raw_as_vec (vers k) n data c ++ more ++ extra) /\
    (r = Ok None \/ r = Err (IoError UnexpectedEof)) /\ extra ++ arriving reads' = arriving reads.
Proof.
  intros Hn Hd Hk. revert more. induction reads as [|s reads IH]; intros more Hr;
    cbn [try_read_and_decode]; rewrite (stuck_stream k n data c more Hn Hd Hk).
  - exists (Err (IoError UnexpectedEof)), [], []. rewrite app_nil_r. by auto.
  - apply Forall_cons_iff in Hr as [Hs Hr]. destruct s as [bs| |]; [| |done].
    + destruct (Nat.eqb_spec (length bs) 0) as [H0|_]; [by apply nil_length_inv in H0|].
      destruct (IH (more ++ bs) Hr) as (r & reads' & extra & Hrun & Hcase & E).
      exists r, reads', (bs ++ extra). rewrite <- app_assoc in *. rewrite Hrun.
      rewrite <- !app_assoc. split_and!; [done|done|]. rewrite E. done.
    + exists (Ok None), reads, []. rewrite app_nil_r. by auto.
Qed.

(** C39: A frame that is complete, but whose data end before the fields of its message do, is
    taken for a frame that is still arriving: whatever arrives after it is put behind it, and
    no message is read. And the size of a message is not checked when it is written: one
    that is too large is written, and refused by the reader. *)
Theorem framing_oversights k n data c : in_u64 n ->
  (data_fits data -> deserialize k data c = Err (IoError UnexpectedEof) ->
   forall reads, no_failure reads -> exists r reads' extra,
     try_read_and_decode reads (encode_raw_as_vec (vers k) n data c)
       = (r, reads', encode_raw_as_vec (vers k) n data c ++ extra) /\
     (r = Ok None \/ r = Err (IoError UnexpectedEof)) /\ extra ++ arriving reads' = arriving reads) /\
  (MAX_PDU_SIZE < Z.of_nat (length data) < 2 ^ 62 -> forall s : payload k,
   serialize k s = Ok (data, c) -> exists frame,
     encode (PduMessage k s) n = Ok frame /\ decode frame = Err Message).
Proof.
  intros Hn. split.
  - intros Hd Hk reads Hr. destruct (stuck_forever k n data c reads [] Hn Hd Hk Hr)
      as (r & reads' & extra & Hrun & Hcase). rewrite app_nil_r in Hrun. by exists r, reads', extra.
  - intros Hl s Hs. exists (encode_raw_as_vec (vers k) n data c). cbn [encode]. rewrite Hs.
    split; [done|]. unfold decode. rewrite <- (app_nil_r (encode_raw_as_vec _ _ _ _)).
    rewrite decode_raw_frame by (apply vers_u64 || done || lia).
    by destruct (Z.ltb_spec MAX_PDU_SIZE (Z.of_nat (length data))); [|lia].
Qed.

End Messages.

(** ** Examples *)

(** The fields of a message as bytes after their number; runs of one byte are compressed. *)
Definition demo_encode (s : list Z) : Res (list Z) := Ok (Z.of_nat (length s) :: s).

Definition demo_decode (r : list Z) : Res (list Z) :=
  match r with
  | n :: r => if (Z.to_nat n <=? length r)%nat then Ok (take (Z.to_nat n) r) else Err (IoError UnexpectedEof)
  | [] => Err (IoError UnexpectedEof)
  end.

Definition demo_compress (s : list Z) : Res (list Z) :=
  match s with
  | b :: l => Ok (if forallb (Z.eqb b) l then [1; b; Z.of_nat (length s)] else 0 :: s)
  | [] => Ok [0]
  end.

Definition demo_decompress (r : list Z) : Res (list Z) :=
  match r with
  | 0 :: s => Ok s
  | [1; b; n] => Ok (replicate (Z.to_nat n) b)
  | _ => Err Message
  end.

#[export] Instance demo_serde : Serde := {
  payload _ := list Z; encode_plain _ := demo_encode; encode_zstd _ := demo_compress;
  decode_plain _ := demo_decode; decode_zstd _ := demo_decompress }.

Lemma forallb_replicate b l : forallb (Z.eqb b) l = true -> replicate (length l) b = l.
Proof.
  induction l as [|c l IH]; cbn; [done|]. intros [Hc%Z.eqb_eq Hl]%andb_true_iff. by rewrite IH, Hc.
Qed.

#[export] Instance demo_serde_laws : SerdeLaws demo_serde.
Proof.
  split; intros k s bs; cbn -[Z.of_nat Z.to_nat].
  - intros [= <-]. cbn -[Z.of_nat Z.to_nat]. by rewrite Nat2Z.id, Nat.leb_refl, firstn_all.
  - destruct s as [|b l]; cbn -[Z.of_nat Z.to_nat]; intros [= <-]; [done|].
    destruct (forallb (Z.eqb b) l) eqn:E; [|done]. cbn -[Z.of_nat Z.to_nat].
    rewrite Nat2Z.id. cbn. by rewrite forallb_replicate.
Qed.

(** The frame of the source's test. *)
Example frame_test :
  encode_raw_as_vec 129 66 (bs "hello") false = [8; 66; 129; 1] ++ bs "hello" /\
  decode_raw ([8; 66; 129; 1] ++ bs "hello") = Ok (mkDecoded 129 66 (bs "hello") false, []).
Proof. by vm_compute. Qed.

Definition demo_message : Pdu := PduMessage Pdu_SendPaste (bs "ls -l").
Definition demo_long_message : Pdu := PduMessage Pdu_SendPaste (replicate 100 97).

Definition frame_of (p : Pdu) (n : Z) : list Z := match encode p n with Ok f => f | Err _ => [] end.

Lemma demo_is_frame : is_frame demo_message 7 (frame_of demo_message 7).
Proof. by vm_compute. Qed.

Lemma demo_long_is_frame : is_frame demo_long_message 8 (frame_of demo_long_message 8).
Proof. by vm_compute. Qed.

Lemma pdu_roundtrip_witness :
  decode (frame_of demo_long_message 8 ++ [1; 2]) = Ok (mkDecodedPdu 8 demo_long_message, [1; 2]).
Proof. apply (pdu_roundtrip demo_long_message 8 _ [1; 2]). exact demo_long_is_frame. Defined.

Lemma messages_arrive_witness : exists reads',
  receive 5 [ReadData (take 4 (frame_of demo_message 7)); ReadBlocked;
      ReadData (drop 4 (frame_of demo_message 7) ++ frame_of demo_long_message 8)] []
    = ([mkDecodedPdu 7 demo_message; mkDecodedPdu 8 demo_long_message], reads', []) /\
  arriving reads' = [].
Proof.
  apply (messages_arrive [mkDecodedPdu 7 demo_message; mkDecodedPdu 8 demo_long_message]
    [frame_of demo_message 7; frame_of demo_long_message 8]).
  - constructor; [exact demo_is_frame|]. constructor; [exact demo_long_is_frame|constructor].
  - repeat (constructor; [first [exact Logic.I|vm_compute; discriminate]|]). constructor.
  - by vm_compute.
Defined.

(** A message whose data say that five bytes follow, and only two do. *)
Lemma framing_oversights_witness : exists r reads' extra,
  try_read_and_decode [ReadData (frame_of demo_message 8)]
    (encode_raw_as_vec (vers Pdu_SendPaste) 7 [5; 1; 2] false)
    = (r, reads', encode_raw_as_vec (vers Pdu_SendPaste) 7 [5; 1; 2] false ++ extra) /\
  (r = Ok None \/ r = Err (IoError UnexpectedEof)) /\
  extra ++ arriving reads' = arriving [ReadData (frame_of demo_message 8)].
Proof.
  apply (framing_oversights Pdu_SendPaste 7 [5; 1; 2] false); [by vm_compute..|].
  constructor; [by vm_compute|constructor].
Defined.
