(* ===== verification/TermSize.v ===== *)
(** [TerminalSize] of [src/term/src/terminal.rs], shared by the screen and by the panes of the
    multiplexer. *)

From Stdlib Require Import ZArith.
From stdpp Require Import base numbers.
Local Open Scope Z_scope.

Record TerminalSize : Set := mkSize {
  rows : Z; cols : Z; pixel_width : Z; pixel_height : Z; dpi : Z
}.

#[export] Instance TerminalSize_eq_dec : EqDecision TerminalSize.
Proof. solve_decision. Defined.
