(* ===== verification/PaneTree.v ===== *)
(** The pane tree of a tab: [src/mux/src/tab.rs], the functions on the split
    tree. A node carries the sizes of its two children; a divider of one cell
    separates them. Panes are named by their ids: what the code does to a pane
    through its trait object ([resize]) is returned as the list of calls, in
    order, and what it reads from it ([get_dimensions]) is an argument.
    A [usize] is a [Z] that is not negative. *)

From Stdlib Require Import ZArith Lia.
From stdpp Require Import base numbers list option.
From S2P Require Import Prelude BinTree TermSize.
Local Open Scope Z_scope.

(** ** Sizes and splits *)

Definition PaneId : Set := Z.

Inductive SplitDirection : Set := Horizontal | Vertical.

#[export] Instance SplitDirection_eq_dec : EqDecision SplitDirection.
Proof. solve_decision. Defined.

(** The sizes of the first and the second child. *)
Record SplitDirectionAndSize : Set := mkSplit {
  direction : SplitDirection; first : TerminalSize; second : TerminalSize
}.

Inductive SplitSize : Set := Cells (n : Z) | Percent (n : Z).

Record SplitRequest : Set := mkRequest {
  req_direction : SplitDirection;
  target_is_second : bool;
  top_level : bool;
  req_size : SplitSize
}.

Definition SplitRequest_default : SplitRequest :=
  mkRequest Horizontal true false (Percent 50).

Definition PTree : Type := Tree PaneId SplitDirectionAndSize.
Definition PCursor : Type := BinTree.Cursor PaneId SplitDirectionAndSize.

(** ** Integers of the code *)

Definition usize_max : Z := 2 ^ 64 - 1.
Definition usize_saturating_sub (a b : Z) : Z := Z.max 0 (a - b).
Definition usize_saturating_mul (a b : Z) : Z := Z.min usize_max (a * b).

(** [checked_div(..).unwrap_or(1)]. *)
Definition div_or_one (a b : Z) : Z := if b =? 0 then 1 else a / b.

(** [a / b], which panics when [b] is zero. *)
Definition usize_div (a b : Z) : option Z := if b =? 0 then None else Some (a / b).

(** [try_into().unwrap()] from [isize] to [usize]. *)
Definition isize_to_usize (a : Z) : option Z := if 0 <=? a then Some a else None.

(** ** SplitDirectionAndSize *)

Definition top_of_second (s : SplitDirectionAndSize) : Z :=
  match direction s with Horizontal => 0 | Vertical => rows (first s) + 1 end.

Definition left_of_second (s : SplitDirectionAndSize) : Z :=
  match direction s with Horizontal => cols (first s) + 1 | Vertical => 0 end.

Definition width (s : SplitDirectionAndSize) : Z :=
  if decide (direction s = Horizontal) then cols (first s) + cols (second s) + 1
  else cols (first s).

Definition height (s : SplitDirectionAndSize) : Z :=
  if decide (direction s = Vertical) then rows (first s) + rows (second s) + 1
  else rows (first s).

(** [SplitDirectionAndSize::size]. *)
Definition split_size (s : SplitDirectionAndSize) : option TerminalSize :=
  cell_width ← usize_div (pixel_width (first s)) (cols (first s));
  cell_height ← usize_div (pixel_height (first s)) (rows (first s));
  let rows := height s in
  let cols := width s in
  Some (mkSize rows cols (cell_width * cols) (cell_height * rows) (dpi (first s))).

Definition tree_root_size (dims : PaneId -> TerminalSize) (t : PTree)
  : option (option TerminalSize) :=
  match t with
  | Empty => Some None
  | Leaf pane => Some (Some (dims pane))
  | Node _ _ (Some data) => s ← split_size data; Some (Some s)
  | Node _ _ None => Some None
  end.

(** [cell_dimensions]. *)
Definition cell_dimensions (size : TerminalSize) : option TerminalSize :=
  w ← usize_div (pixel_width size) (cols size);
  h ← usize_div (pixel_height size) (rows size);
  Some (mkSize 1 1 w h (dpi size)).

(** ** compute_min_size *)

Fixpoint compute_min_size (t : PTree) : Z * Z :=
  match t with
  | Node _ _ None | Empty => (1, 1)
  | Node lf rt (Some data) =>
      let '(left_x, left_y) := compute_min_size lf in
      let '(right_x, right_y) := compute_min_size rt in
      match direction data with
      | Vertical => (Z.max left_x right_x, left_y + right_y + 1)
      | Horizontal => (left_x + right_x + 1, Z.max left_y right_y)
      end
  | Leaf _ => (1, 1)
  end.

(** ** adjust_x_size and adjust_y_size

    The two functions are one text with the axes exchanged: [ax] is
    [Horizontal] for columns and [Vertical] for rows. A split along [ax]
    shares the change between its children, a cell each in turn; a split
    across it passes it to both. *)

Definition cells (ax : SplitDirection) (s : TerminalSize) : Z :=
  match ax with Horizontal => cols s | Vertical => rows s end.

(** Set the cells of an axis and the pixels that go with them. *)
Definition set_cells (ax : SplitDirection) (n : Z) (cell_dimensions s : TerminalSize)
  : TerminalSize :=
  match ax with
  | Horizontal => mkSize (rows s) n (usize_saturating_mul n (pixel_width cell_dimensions))
                    (pixel_height s) (dpi s)
  | Vertical => mkSize n (cols s) (pixel_width s)
                  (usize_saturating_mul n (pixel_height cell_dimensions)) (dpi s)
  end.

(** Copy the cells of an axis and their pixels. *)
Definition copy_cells (ax : SplitDirection) (from s : TerminalSize) : TerminalSize :=
  match ax with
  | Horizontal => mkSize (rows s) (cols from) (pixel_width from) (pixel_height s) (dpi s)
  | Vertical => mkSize (rows from) (cols s) (pixel_width s) (pixel_height from) (dpi s)
  end.

Definition set_dpi (n : Z) (s : TerminalSize) : TerminalSize :=
  mkSize (rows s) (cols s) (pixel_width s) (pixel_height s) n.

Definition set_first (f : TerminalSize) (d : SplitDirectionAndSize) : SplitDirectionAndSize :=
  mkSplit (direction d) f (second d).
Definition set_second (s : TerminalSize) (d : SplitDirectionAndSize) : SplitDirectionAndSize :=
  mkSplit (direction d) (first d) s.

(** Both children take the cell's resolution. *)
Definition set_dpis (cd : TerminalSize) (d : SplitDirectionAndSize) : SplitDirectionAndSize :=
  mkSplit (direction d) (set_dpi (dpi cd) (first d)) (set_dpi (dpi cd) (second d)).

Section AlongSplit.
  Context (ax : SplitDirection) (cd : TerminalSize).
  (** The recursive call on a child. *)
  Context (adjust : PTree -> Z -> option PTree).

(** The loop of a split along the axis; [None] also when the fuel runs out. *)
Fixpoint share_loop (fuel : nat) (lf rt : PTree) (data : SplitDirectionAndSize) (x : Z)
  : option (PTree * PTree * SplitDirectionAndSize) :=
  match fuel with
  | O => None
  | S fuel =>
      if x =? 0 then Some (lf, rt, data)
      else
        let data := set_dpis cd data in
        if 0 <? x then
          lf ← adjust lf 1;
          let data := set_first (set_cells ax (cells ax (first data) + 1) cd (first data)) data in
          let x := x - 1 in
          if 0 <? x then
            rt ← adjust rt 1;
            let data :=
              set_second (set_cells ax (cells ax (second data) + 1) cd (second data)) data in
            share_loop fuel lf rt data (x - 1)
          else share_loop fuel lf rt data x
        else
          '(lf, data, x, made_progress) ←
            (if 1 <? cells ax (first data) then
               lf ← adjust lf (-1);
               Some (lf, set_first (set_cells ax (cells ax (first data) - 1) cd (first data)) data,
                     x + 1, true)
             else Some (lf, data, x, false));
          '(rt, data, x, made_progress) ←
            (if (x <? 0) && (1 <? cells ax (second data)) then
               rt ← adjust rt (-1);
               Some (rt, set_second (set_cells ax (cells ax (second data) - 1) cd (second data)) data,
                     x + 1, true)
             else Some (rt, data, x, made_progress));
          if negb made_progress then Some (lf, rt, data)
          else share_loop fuel lf rt data x
  end.

(** The body of a split across the axis. *)
Definition pass_down (min : Z) (lf rt : PTree) (data : SplitDirectionAndSize) (x : Z)
  : option (PTree * PTree * SplitDirectionAndSize) :=
  if x =? 0 then Some (lf, rt, data)
  else
    let data := set_dpis cd data in
    let new := Z.max (i64_saturating_add (cells ax (first data)) x) min in
    let x := i64_sat (new - cells ax (first data)) in
    if negb (x =? 0) then
      lf ← adjust lf x;
      n ← isize_to_usize new;
      let data := set_first (set_cells ax n cd (first data)) data in
      rt ← adjust rt x;
      Some (lf, rt, set_second (copy_cells ax (first data) (second data)) data)
    else Some (lf, rt, data).

End AlongSplit.

Definition min_along (ax : SplitDirection) (t : PTree) : Z :=
  match ax with
  | Horizontal => fst (compute_min_size t)
  | Vertical => snd (compute_min_size t)
  end.

(** The recursion goes down the tree while its nodes change: the fuel is the
    depth left. *)
Fixpoint adjust_n (ax : SplitDirection) (fuel : nat) (cd : TerminalSize) (t : PTree) (x : Z)
  : option PTree :=
  match fuel with
  | O => None
  | S fuel =>
      match t with
      | Empty | Leaf _ | Node _ _ None => Some t
      | Node lf rt (Some data) =>
          '(lf, rt, data) ←
            (if decide (direction data = ax) then
               share_loop ax cd (adjust_n ax fuel cd) (S (Z.to_nat (Z.abs x))) lf rt data x
             else pass_down ax cd (adjust_n ax fuel cd) (min_along ax t) lf rt data x);
          Some (Node lf rt (Some data))
      end
  end.

Fixpoint tree_depth {L N} (t : Tree L N) : nat :=
  match t with Node lf rt _ => S (Nat.max (tree_depth lf) (tree_depth rt)) | _ => 1 end.

Definition adjust_x_size (t : PTree) (x_adjust : Z) (cell_dimensions : TerminalSize)
  : option PTree :=
  adjust_n Horizontal (tree_depth t) cell_dimensions t x_adjust.

Definition adjust_y_size (t : PTree) (y_adjust : Z) (cell_dimensions : TerminalSize)
  : option PTree :=
  adjust_n Vertical (tree_depth t) cell_dimensions t y_adjust.

(** ** Sizes of the panes *)

(** [collect_pane_sizes]: the panes with their sizes, left to right. *)
Fixpoint collect_pane_sizes (t : PTree) (size : TerminalSize) : list (PaneId * TerminalSize) :=
  match t with
  | Empty | Node _ _ None => []
  | Node lf rt (Some data) =>
      collect_pane_sizes lf (first data) ++ collect_pane_sizes rt (second data)
  | Leaf pane => [(pane, size)]
  end.

(** [apply_sizes_from_splits]: the [resize] calls it makes. *)
Fixpoint apply_sizes_from_splits (t : PTree) (size : TerminalSize)
  : list (PaneId * TerminalSize) :=
  match t with
  | Empty | Node _ _ None => []
  | Node lf rt (Some data) =>
      apply_sizes_from_splits lf (first data) ++ apply_sizes_from_splits rt (second data)
  | Leaf pane => [(pane, size)]
  end.

(** ** reconcile_tree_sizes *)

(** The two children of a split, from the size allocated to it. *)
Definition reconcile_split (allocated : TerminalSize) (data : SplitDirectionAndSize)
  : SplitDirectionAndSize :=
  let cell_width := div_or_one (pixel_width allocated) (cols allocated) in
  let cell_height := div_or_one (pixel_height allocated) (rows allocated) in
  let sized r c := mkSize r c (c * cell_width) (r * cell_height) (dpi allocated) in
  match direction data with
  | Horizontal =>
      let c := if cols allocated <? cols (first data) + 2
               then usize_saturating_sub (cols allocated) 2 else cols (first data) in
      mkSplit Horizontal (sized (rows allocated) c)
        (sized (rows allocated) (usize_saturating_sub (cols allocated) (1 + c)))
  | Vertical =>
      let r := if rows allocated <? rows (first data) + 2
               then usize_saturating_sub (rows allocated) 2 else rows (first data) in
      mkSplit Vertical (sized r (cols allocated))
        (sized (usize_saturating_sub (rows allocated) (1 + r)) (cols allocated))
  end.

Fixpoint reconcile_tree_sizes (t : PTree) (allocated : TerminalSize) : PTree :=
  match t with
  | Empty | Leaf _ | Node _ _ None => t
  | Node lf rt (Some data) =>
      let data := reconcile_split allocated data in
      Node (reconcile_tree_sizes lf (first data)) (reconcile_tree_sizes rt (second data))
        (Some data)
  end.

(** ** collect_tree_invariant_errors *)

(** The messages, with the numbers they show. *)
Inductive TreeError : Set :=
| H_first_rows (found want : Z)
| H_second_rows (found want : Z)
| H_cols (a b total want : Z)
| V_first_cols (found want : Z)
| V_second_cols (found want : Z)
| V_rows (a b total want : Z).

Definition split_errors (data : SplitDirectionAndSize) (allocated : TerminalSize)
  : list TreeError :=
  let unless (b : bool) e := if b then [] else [e] in
  match direction data with
  | Horizontal =>
      let total := cols (first data) + 1 + cols (second data) in
      unless (rows (first data) =? rows allocated) (H_first_rows (rows (first data)) (rows allocated)) ++
      unless (rows (second data) =? rows allocated) (H_second_rows (rows (second data)) (rows allocated)) ++
      unless (total =? cols allocated)
        (H_cols (cols (first data)) (cols (second data)) total (cols allocated))
  | Vertical =>
      let total := rows (first data) + 1 + rows (second data) in
      unless (cols (first data) =? cols allocated) (V_first_cols (cols (first data)) (cols allocated)) ++
      unless (cols (second data) =? cols allocated) (V_second_cols (cols (second data)) (cols allocated)) ++
      unless (total =? rows allocated)
        (V_rows (rows (first data)) (rows (second data)) total (rows allocated))
  end.

Fixpoint collect_tree_invariant_errors (t : PTree) (allocated : TerminalSize) : list TreeError :=
  match t with
  | Empty | Leaf _ | Node _ _ None => []
  | Node lf rt (Some data) =>
      split_errors data allocated ++
      collect_tree_invariant_errors lf (first data) ++
      collect_tree_invariant_errors rt (second data)
  end.

(** [debug_assert_tree_invariants]: [None] is the failed assertion. *)
Definition debug_assert_tree_invariants (t : PTree) (size : TerminalSize) : option unit :=
  rust_assert (match collect_tree_invariant_errors t size with [] => true | _ => false end).

(** ** The split of a dimension *)

Definition split_dimension (dim : Z) (request : SplitRequest) : Z * Z :=
  let target_size :=
    Z.max 1 (match req_size request with Cells n => n | Percent n => dim * n / 100 end) in
  let remain := usize_saturating_sub dim (target_size + 1) in
  if target_is_second request then (remain, target_size) else (target_size, remain).

(** The sizes a request gives to the parts of [w] by [h] cells. *)
Definition split_area (w h : Z) (request : SplitRequest) (cell_dims : TerminalSize)
  : SplitDirectionAndSize :=
  let '((width1, width2), (height1, height2)) :=
    match req_direction request with
    | Horizontal => (split_dimension w request, (h, h))
    | Vertical => ((w, w), split_dimension h request)
    end in
  let sized r c :=
    mkSize r c (pixel_width cell_dims * c) (pixel_height cell_dims * r) (dpi cell_dims) in
  mkSplit (req_direction request) (sized height1 width1) (sized height2 width2).

(** ** A specification: the layout

    The rectangles of the panes and of the dividers, by recursion on the tree. *)

Record Rect : Set := mkRect { rx : Z; ry : Z; rw : Z; rh : Z }.

Definition covers (x y : Z) (r : Rect) : bool :=
  (rx r <=? x) && (x <? rx r + rw r) && (ry r <=? y) && (y <? ry r + rh r).

Fixpoint pane_rects (t : PTree) (size : TerminalSize) (x y : Z) : list (PaneId * Rect) :=
  match t with
  | Empty | Node _ _ None => []
  | Leaf pane => [(pane, mkRect x y (cols size) (rows size))]
  | Node lf rt (Some data) =>
      pane_rects lf (first data) x y ++
      pane_rects rt (second data) (x + left_of_second data) (y + top_of_second data)
  end.

Fixpoint divider_rects (t : PTree) (x y : Z) : list Rect :=
  match t with
  | Empty | Leaf _ | Node _ _ None => []
  | Node lf rt (Some data) =>
      match direction data with
      | Horizontal => mkRect (x + cols (first data)) y 1 (height data)
      | Vertical => mkRect x (y + rows (first data)) (width data) 1
      end ::
      divider_rects lf x y ++
      divider_rects rt (x + left_of_second data) (y + top_of_second data)
  end.

(** Every node has its sizes, and no subtree is missing. *)
Fixpoint complete (t : PTree) : Prop :=
  match t with
  | Leaf _ => True
  | Node lf rt (Some _) => complete lf /\ complete rt
  | Empty | Node _ _ None => False
  end.

(** Sizes agree from the top down, and every pane has a cell. *)
Fixpoint fits (t : PTree) (size : TerminalSize) : Prop :=
  match t with
  | Empty | Node _ _ None => False
  | Leaf _ => 1 <= cols size /\ 1 <= rows size
  | Node lf rt (Some data) =>
      split_errors data size = [] /\ fits lf (first data) /\ fits rt (second data)
  end.

(** ** Lemmas *)

#[global] Arguments usize_saturating_sub : simpl never.

(** The other axis. *)
Definition across (ax : SplitDirection) : SplitDirection :=
  match ax with Horizontal => Vertical | Vertical => Horizontal end.

(** A split shares its axis, with a divider, and passes the other one on. *)
Definition splits (ax : SplitDirection) (data : SplitDirectionAndSize) (s : TerminalSize) : Prop :=
  cells ax (first data) + 1 + cells ax (second data) = cells ax s /\
  cells (across ax) (first data) = cells (across ax) s /\
  cells (across ax) (second data) = cells (across ax) s.

Lemma split_errors_nil data s : split_errors data s = [] <-> splits (direction data) data s.
Proof.
  unfold split_errors, splits. destruct (direction data); cbn [cells across];
    repeat match goal with |- context [Z.eqb ?a ?b] => destruct (Z.eqb_spec a b) end;
    cbn; split; intros H; try done; try lia; destruct H as (? & ? & ?); done.
Qed.

Lemma fits_node lf rt data s :
  fits (Node lf rt (Some data)) s <->
  splits (direction data) data s /\ fits lf (first data) /\ fits rt (second data).
Proof. cbn [fits]. by rewrite split_errors_nil. Qed.

Definition same_cells (s s' : TerminalSize) : Prop := cols s = cols s' /\ rows s = rows s'.

Lemma same_cells_axis s s' ax : same_cells s s' -> cells ax s = cells ax s'.
Proof. intros [? ?]. by destruct ax. Qed.

Lemma cells_same ax s s' :
  cells ax s = cells ax s' -> cells (across ax) s = cells (across ax) s' -> same_cells s s'.
Proof. destruct ax; cbn; by split. Qed.

Lemma fits_same t s s' : same_cells s s' -> fits t s -> fits t s'.
Proof.
  intros H. destruct t as [|lf rt [data|]|p]; try done.
  - rewrite !fits_node. unfold splits. by rewrite !(same_cells_axis s s' _ H).
  - destruct H as [H1 H2]. cbn. by rewrite H1, H2.
Qed.

Lemma fits_complete t s : fits t s -> complete t.
Proof.
  revert s. induction t as [|lf IHl rt IHr [data|]|p]; intros s; try done.
  intros (_ & H1 & H2)%fits_node. split; eauto.
Qed.

Lemma fits_no_errors t s : fits t s -> collect_tree_invariant_errors t s = [].
Proof.
  revert s. induction t as [|lf IHl rt IHr [data|]|p]; intros s; try done.
  intros (H0%split_errors_nil & H1 & H2)%fits_node. cbn. by rewrite H0, IHl, IHr.
Qed.

Lemma min_along_pos ax t : 1 <= min_along ax t.
Proof.
  unfold min_along.
  enough (1 <= fst (compute_min_size t) /\ 1 <= snd (compute_min_size t)) by (destruct ax; lia).
  induction t as [|lf IHl rt IHr [data|]|p]; cbn [compute_min_size]; try (cbn; lia).
  destruct (compute_min_size lf), (compute_min_size rt), (direction data); cbn in *; lia.
Qed.

Lemma min_along_node ax lf rt data :
  min_along ax (Node lf rt (Some data)) =
  if decide (direction data = ax) then min_along ax lf + min_along ax rt + 1
  else Z.max (min_along ax lf) (min_along ax rt).
Proof.
  unfold min_along. cbn [compute_min_size].
  destruct (compute_min_size lf), (compute_min_size rt), (direction data), ax; done.
Qed.

(** A tree that fits is at least as large as the minimum the code computes. *)
Lemma fits_min ax t s : fits t s -> min_along ax t <= cells ax s.
Proof.
  revert s. induction t as [|lf IHl rt IHr [data|]|p]; intros s; try done.
  - intros ((H1 & H2 & H3) & Hl & Hr)%fits_node. rewrite min_along_node.
    specialize (IHl _ Hl). specialize (IHr _ Hr). case_decide as Hd.
    + subst. lia.
    + assert (Ha : across (direction data) = ax) by (by destruct (direction data), ax).
      rewrite Ha in *. lia.
  - intros [H1 H2]. by destruct ax.
Qed.

Lemma fits_pos ax t s : fits t s -> 1 <= cells ax s.
Proof. intros H. pose proof (fits_min ax t s H). pose proof (min_along_pos ax t). lia. Qed.

(** *** reconcile *)

Lemma reconcile_direction s data : direction (reconcile_split s data) = direction data.
Proof. unfold reconcile_split. by destruct (direction data). Qed.

Lemma reconcile_splits s data :
  0 <= cells (direction data) (first data) ->
  splits (direction data) (reconcile_split s data) s <-> 1 <= cells (direction data) s.
Proof.
  unfold reconcile_split, splits, usize_saturating_sub.
  destruct (direction data); cbn [cells across first second rows cols]; intros Hf;
    repeat match goal with |- context [Z.ltb ?a ?b] => destruct (Z.ltb_spec a b) end; lia.
Qed.

Lemma reconcile_nonneg s data ax :
  0 <= cells ax s -> 0 <= cells ax (first data) ->
  0 <= cells ax (first (reconcile_split s data)) /\ 0 <= cells ax (second (reconcile_split s data)).
Proof.
  unfold reconcile_split, usize_saturating_sub.
  destruct (direction data), ax; cbn [cells across first second rows cols]; intros Hs Hf;
    repeat match goal with |- context [Z.ltb ?a ?b] => destruct (Z.ltb_spec a b) end; lia.
Qed.

(** The stored sizes are [usize]s. *)
Fixpoint sizes_nonneg (t : PTree) : Prop :=
  match t with
  | Node lf rt (Some data) =>
      0 <= cells (direction data) (first data) /\ sizes_nonneg lf /\ sizes_nonneg rt
  | _ => True
  end.

(** Every split has a cell for its divider. *)
Fixpoint roomy (t : PTree) (s : TerminalSize) : Prop :=
  match t with
  | Node lf rt (Some data) =>
      1 <= cells (direction data) s /\ roomy lf (first data) /\ roomy rt (second data)
  | _ => True
  end.

(** after [reconcile_tree_sizes] the tree has no invariant error exactly when every
    split was left at least one cell along its axis, whatever the sizes were before. *)
Theorem reconcile_invariant t s :
  sizes_nonneg t ->
  collect_tree_invariant_errors (reconcile_tree_sizes t s) s = [] <->
  roomy (reconcile_tree_sizes t s) s.
Proof.
  revert s. induction t as [|lf IHl rt IHr [data|]|p]; intros s Hn; try done.
  destruct Hn as (Hf & Hl & Hr). cbn [reconcile_tree_sizes collect_tree_invariant_errors roomy].
  rewrite !app_nil, split_errors_nil, reconcile_direction, reconcile_splits, IHl, IHr by done.
  done.
Qed.

Lemma reconcile_keeps s s' data :
  same_cells s s' -> splits (direction data) data s -> 1 <= cells (direction data) (second data) ->
  same_cells (first data) (first (reconcile_split s' data)) /\
  same_cells (second data) (second (reconcile_split s' data)).
Proof.
  unfold reconcile_split, splits, usize_saturating_sub, same_cells. intros [Hc Hr].
  destruct (direction data); cbn [cells across first second rows cols]; intros (H1 & H2 & H3) H4;
    repeat match goal with |- context [Z.ltb ?a ?b] => destruct (Z.ltb_spec a b) end; lia.
Qed.

Lemma reconcile_fits_ok t s s' x y :
  same_cells s s' -> fits t s ->
  fits (reconcile_tree_sizes t s') s' /\
  pane_rects (reconcile_tree_sizes t s') s' x y = pane_rects t s x y.
Proof.
  revert s s' x y. induction t as [|lf IHl rt IHr [data|]|p]; intros s s' x y Hs; try done.
  - intros (Hd & Hl & Hr)%fits_node. cbn [reconcile_tree_sizes pane_rects].
    destruct (reconcile_keeps s s' data Hs Hd (fits_pos _ _ _ Hr)) as [H1 H2].
    assert (Hp : left_of_second (reconcile_split s' data) = left_of_second data /\
                 top_of_second (reconcile_split s' data) = top_of_second data).
    { unfold left_of_second, top_of_second. rewrite reconcile_direction.
      destruct H1 as [-> ->]. done. }
    destruct Hp as [-> ->].
    destruct (IHl _ _ x y H1 Hl) as [Fl ->].
    destruct (IHr _ _ (x + left_of_second data) (y + top_of_second data) H2 Hr) as [Fr ->].
    split; [|done]. apply fits_node. split_and!; [|done|done].
    rewrite reconcile_direction.
    unfold splits in *. rewrite <- !(same_cells_axis _ _ _ H1), <- !(same_cells_axis _ _ _ H2),
      <- !(same_cells_axis _ _ _ Hs). done.
  - intros H. split; [by apply (fits_same _ _ _ Hs)|]. destruct Hs as [Hc Hr].
    cbn [reconcile_tree_sizes pane_rects]. by rewrite Hc, Hr.
Qed.

(** *** Growing *)

Lemma set_cells_ax ax n cd s : cells ax (set_cells ax n cd s) = n.
Proof. by destruct ax. Qed.

Lemma set_cells_across ax n cd s : cells (across ax) (set_cells ax n cd s) = cells (across ax) s.
Proof. by destruct ax. Qed.

Lemma copy_cells_ax ax f s : cells ax (copy_cells ax f s) = cells ax f.
Proof. by destruct ax. Qed.

Lemma copy_cells_across ax f s : cells (across ax) (copy_cells ax f s) = cells (across ax) s.
Proof. by destruct ax. Qed.

Lemma set_dpi_cells ax n s : cells ax (set_dpi n s) = cells ax s.
Proof. by destruct ax. Qed.

Create Rewrite HintDb tab_cells.
#[local] Hint Rewrite set_cells_ax set_cells_across copy_cells_ax copy_cells_across set_dpi_cells
  : tab_cells.

(** [s'] is [s] with [n] more cells along [ax]. *)
Definition grown (ax : SplitDirection) (n : Z) (s s' : TerminalSize) : Prop :=
  cells ax s' = cells ax s + n /\ cells (across ax) s' = cells (across ax) s.

(** The panes and the splits of a tree without its sizes. *)
Fixpoint skeleton (t : PTree) : Tree PaneId SplitDirection :=
  match t with
  | Empty => Empty
  | Leaf p => Leaf p
  | Node l r d => Node (skeleton l) (skeleton r) (direction <$> d)
  end.

(** The same panes, split the same way. *)
Definition same_panes (t t' : PTree) : Prop := skeleton t' = skeleton t.

#[export] Instance same_panes_equiv : Equivalence same_panes.
Proof. unfold same_panes. split; intros ?; intros; congruence. Qed.

Lemma same_panes_node l r d l' r' d' :
  same_panes l l' -> same_panes r r' -> direction d' = direction d ->
  same_panes (Node l r (Some d)) (Node l' r' (Some d')).
Proof. unfold same_panes. cbn. congruence. Qed.

Lemma same_depth t t' : same_panes t t' -> tree_depth t' = tree_depth t.
Proof.
  assert (H : forall t, tree_depth t = tree_depth (skeleton t))
    by (intros u; induction u; cbn; congruence).
  unfold same_panes. rewrite (H t), (H t'). congruence.
Qed.

Lemma same_leaves t t' : same_panes t t' -> leaves t' = leaves t.
Proof.
  assert (H : forall t, leaves t = leaves (skeleton t))
    by (intros u; induction u; cbn; congruence).
  unfold same_panes. rewrite (H t), (H t'). congruence.
Qed.

Lemma same_complete t t' : same_panes t t' -> complete t -> complete t'.
Proof.
  unfold same_panes. revert t'.
  induction t as [|l IHl r IHr [d|]|p]; intros [|l' r' [d'|]|p']; try done.
  cbn. intros [= ? ? ?] [? ?]. auto.
Qed.

(** What growing a child must do: the induction hypothesis. *)
Definition grows (ax : SplitDirection) (adjust : PTree -> Z -> option PTree) (d : nat) : Prop :=
  forall t s s' n, (tree_depth t <= d)%nat -> fits t s -> 0 <= n ->
    0 <= cells ax s + n <= i64_max -> grown ax n s s' ->
    exists t', adjust t n = Some t' /\ fits t' s' /\ same_panes t t'.

(** Two children and the sizes they fit. *)
Definition pair_fits (lf rt : PTree) (data : SplitDirectionAndSize) : Prop :=
  fits lf (first data) /\ fits rt (second data).

Lemma pair_fits_dpis lf rt data cd : pair_fits lf rt data -> pair_fits lf rt (set_dpis cd data).
Proof. intros [H1 H2]. split; [by apply (fits_same lf (first data))|by apply (fits_same rt (second data))]. Qed.

Section Growing.
  Context (ax : SplitDirection) (cd : TerminalSize) (adjust : PTree -> Z -> option PTree) (d : nat).
  Context (Hadj : grows ax adjust d).

(** One cell more for the first child. *)
Lemma grow_first lf rt data :
  (tree_depth lf <= d)%nat -> pair_fits lf rt data -> cells ax (first data) + 1 <= i64_max ->
  exists lf', adjust lf 1 = Some lf' /\ same_panes lf lf' /\
    pair_fits lf' rt (set_first (set_cells ax (cells ax (first data) + 1) cd (first data)) data).
Proof.
  intros Hd [Hl Hr] Hb. pose proof (fits_pos ax _ _ Hl).
  destruct (Hadj lf (first data) (set_cells ax (cells ax (first data) + 1) cd (first data)) 1)
    as (lf' & E & Hf & Hp); [done|done|lia|lia| |by exists lf'].
  split; [by rewrite set_cells_ax|by rewrite set_cells_across].
Qed.

Lemma grow_second lf rt data :
  (tree_depth rt <= d)%nat -> pair_fits lf rt data -> cells ax (second data) + 1 <= i64_max ->
  exists rt', adjust rt 1 = Some rt' /\ same_panes rt rt' /\
    pair_fits lf rt' (set_second (set_cells ax (cells ax (second data) + 1) cd (second data)) data).
Proof.
  intros Hd [Hl Hr] Hb. pose proof (fits_pos ax _ _ Hr).
  destruct (Hadj rt (second data) (set_cells ax (cells ax (second data) + 1) cd (second data)) 1)
    as (rt' & E & Hf & Hp); [done|done|lia|lia| |by exists rt'].
  split; [by rewrite set_cells_ax|by rewrite set_cells_across].
Qed.

Definition total (data : SplitDirectionAndSize) : Z :=
  cells ax (first data) + cells ax (second data).

(** The parts of [splits] that a loop along [ax] keeps. *)
Definition same_split (x : Z) (data data' : SplitDirectionAndSize) : Prop :=
  direction data' = direction data /\ total data' = total data + x /\
  cells (across ax) (first data') = cells (across ax) (first data) /\
  cells (across ax) (second data') = cells (across ax) (second data).

Lemma same_split_trans a b c d1 d2 d3 :
  same_split a d1 d2 -> same_split b d2 d3 -> c = a + b -> same_split c d1 d3.
Proof.
  intros (? & ? & ? & ?) (? & ? & ? & ?) ->. unfold same_split. split_and!; congruence || lia.
Qed.

Ltac tab_simpl :=
  unfold same_split, total in *;
  cbn [set_first set_second set_dpis direction first second] in *;
  autorewrite with tab_cells in *.

Lemma share_grows fuel lf rt data x :
  (tree_depth lf <= d)%nat -> (tree_depth rt <= d)%nat -> pair_fits lf rt data ->
  0 <= x < Z.of_nat fuel -> total data + x <= i64_max ->
  exists lf' rt' data', share_loop ax cd adjust fuel lf rt data x = Some (lf', rt', data') /\
    pair_fits lf' rt' data' /\ same_split x data data' /\ same_panes lf lf' /\ same_panes rt rt'.
Proof.
  revert lf rt data x. induction fuel as [|fuel IH]; intros lf rt data x Hdl Hdr Hf Hx Hb; [lia|].
  cbn [share_loop]. destruct (Z.eqb_spec x 0) as [->|Hx0].
  { exists lf, rt, data. split_and!; try done. unfold same_split. split_and!; lia || done. }
  rewrite (proj2 (Z.ltb_lt 0 x)) by lia.
  apply (pair_fits_dpis _ _ _ cd) in Hf. pose proof Hf as [H1%(fits_pos ax) H2%(fits_pos ax)].
  destruct (grow_first lf rt (set_dpis cd data)) as (lf' & -> & Pl & Hf1);
    [done|done|tab_simpl; lia|]. msimpl.
  pose proof (same_depth _ _ Pl) as Dl. set (data1 := set_first _ (set_dpis cd data)) in *.
  assert (Hs1 : same_split 1 data data1) by (subst data1; tab_simpl; split_and!; done || lia).
  destruct (Z.ltb_spec 0 (x - 1)) as [Hx1|Hx1].
  - destruct (grow_second lf' rt data1) as (rt' & -> & Pr & Hf2);
      [done|done|destruct Hs1 as (_ & ? & _); subst data1; tab_simpl; lia|]. msimpl.
    pose proof (same_depth _ _ Pr) as Dr. set (data2 := set_second _ data1) in *.
    assert (Hs2 : same_split 1 data1 data2) by (subst data2; tab_simpl; split_and!; done || lia).
    destruct (IH lf' rt' data2 (x - 1 - 1)) as (lf2 & rt2 & data3 & -> & Hf3 & Hs3 & Hp1 & Hp2);
      [lia|lia|done|lia|unfold same_split in *; lia|].
    exists lf2, rt2, data3. split_and!; [done|done| | |].
    + eapply same_split_trans; [exact Hs1| |instantiate (1 := x - 1); lia].
      eapply same_split_trans; [exact Hs2|exact Hs3|lia].
    + by etransitivity.
    + by etransitivity.
  - destruct (IH lf' rt data1 (x - 1)) as (lf2 & rt2 & data3 & -> & Hf3 & Hs3 & Hp1 & Hp2);
      [lia|lia|done|lia|unfold same_split in *; lia|].
    exists lf2, rt2, data3. split_and!; [done|done| | |done].
    + eapply same_split_trans; [exact Hs1|exact Hs3|lia].
    + by etransitivity.
Qed.

(** A split across the axis hands the whole change to both children. *)
Lemma pass_grows min lf rt data s x :
  (tree_depth lf <= d)%nat -> (tree_depth rt <= d)%nat -> pair_fits lf rt data ->
  0 <= x -> 0 <= cells ax s + x <= i64_max -> min <= cells ax s ->
  cells ax (first data) = cells ax s -> cells ax (second data) = cells ax s ->
  exists lf' rt' data', pass_down ax cd adjust min lf rt data x = Some (lf', rt', data') /\
    pair_fits lf' rt' data' /\ same_panes lf lf' /\ same_panes rt rt' /\
    direction data' = direction data /\
    cells ax (first data') = cells ax s + x /\ cells ax (second data') = cells ax s + x /\
    cells (across ax) (first data') = cells (across ax) (first data) /\
    cells (across ax) (second data') = cells (across ax) (second data).
Proof.
  intros Hdl Hdr Hf Hx Hb Hm E1 E2. unfold pass_down. destruct (Z.eqb_spec x 0) as [->|Hx0].
  { exists lf, rt, data. split_and!; done || lia. }
  apply (pair_fits_dpis _ _ _ cd) in Hf. cbn [set_dpis first second direction].
  autorewrite with tab_cells. rewrite E1.
  assert (Hsat : i64_saturating_add (cells ax s) x = cells ax s + x).
  { unfold i64_saturating_add. apply i64_sat_id. unfold in_i64, i64_min, i64_max in *. lia. }
  rewrite Hsat, Z.max_l by lia. replace (cells ax s + x - cells ax s) with x by lia.
  rewrite i64_sat_id by (unfold in_i64, i64_min, i64_max in *; pose proof (fits_pos ax _ _ (proj1 Hf));
                         tab_simpl; lia).
  rewrite (proj2 (Z.eqb_neq x 0)) by done. cbn [negb]. destruct Hf as [Hl Hr].
  cbn [set_dpis first second] in Hl, Hr.
  set (f := set_cells ax (cells ax s + x) cd (set_dpi (dpi cd) (first data))).
  destruct (Hadj lf _ f x Hdl Hl Hx) as (lf' & -> & Fl & Pl);
    [subst f; tab_simpl; lia|split; subst f; tab_simpl; lia|]. msimpl.
  unfold isize_to_usize. rewrite (proj2 (Z.leb_le 0 (cells ax s + x))) by lia. msimpl.
  cbn [set_first set_second first second]. fold f.
  destruct (Hadj rt _ (copy_cells ax f (set_dpi (dpi cd) (second data))) x Hdr Hr Hx)
    as (rt' & -> & Fr & Pr);
    [tab_simpl; lia|split; subst f; tab_simpl; lia|]. msimpl.
  eexists _, _, _. split; [done|]. split; [by split|]. split; [done|]. split; [done|].
  subst f. tab_simpl. split_and!; lia || done.
Qed.

End Growing.

(** Growing a tree that fits by [x >= 0] cells gives a tree that fits. *)
Lemma adjust_grows ax fuel cd : grows ax (adjust_n ax fuel cd) fuel.
Proof.
  induction fuel as [|fuel IH]; intros t s s' x Hd Hf Hx Hb [Ha Hc].
  { destruct t; cbn in Hd; lia. }
  destruct t as [|lf rt [data|]|p]; try done.
  - cbn [adjust_n]. cbn [tree_depth] in Hd. apply fits_node in Hf as ((S1 & S2 & S3) & Hl & Hr).
    case_decide as Hdir.
    + subst ax.
      destruct (share_grows (direction data) cd _ fuel IH (S (Z.to_nat (Z.abs x))) lf rt data x)
        as (lf' & rt' & data' & -> & Hf' & (D & T & A1 & A2) & Pl & Pr);
        [lia|lia|done|lia|unfold total; lia|]. msimpl.
      eexists. split; [done|]. destruct Hf' as [Fl Fr]. unfold total in T. split_and!.
      * apply fits_node. split; [|done]. unfold splits. rewrite D. split_and!; lia.
      * by apply same_panes_node.
    + assert (Hax : across (direction data) = ax) by (by destruct (direction data), ax).
      assert (Hax' : across ax = direction data) by (by destruct (direction data), ax).
      rewrite Hax in S2, S3.
      destruct (pass_grows ax cd _ fuel IH (min_along ax (Node lf rt (Some data))) lf rt data s x)
        as (lf' & rt' & data' & -> & [Fl Fr] & Pl & Pr & D & C1 & C2 & C3 & C4);
        [lia|lia|done|lia|lia| |done|done|].
      { apply fits_min. apply fits_node. unfold splits. rewrite Hax. by split_and!. }
      msimpl. eexists. split; [done|]. split_and!.
      * apply fits_node. split; [|done]. unfold splits. rewrite D, Hax.
        rewrite Hax' in *. split_and!; lia.
      * by apply same_panes_node.
  - exists (Leaf p). split; [done|]. split; [|done].
    assert (H1 := fits_pos ax _ _ Hf). assert (H2 := fits_pos (across ax) _ _ Hf).
    cbn [fits]. destruct ax; cbn in *; lia.
Qed.

(** *** Any adjustment returns *)

Definition adjusts (adjust : PTree -> Z -> option PTree) (d : nat) : Prop :=
  forall t x, (tree_depth t <= d)%nat -> exists t', adjust t x = Some t' /\ same_panes t t'.

Section Total.
  Context (ax : SplitDirection) (cd : TerminalSize) (adjust : PTree -> Z -> option PTree) (d : nat).
  Context (Hadj : adjusts adjust d).

Lemma share_total fuel lf rt data x :
  (tree_depth lf <= d)%nat -> (tree_depth rt <= d)%nat -> Z.abs x < Z.of_nat fuel ->
  exists lf' rt' data', share_loop ax cd adjust fuel lf rt data x = Some (lf', rt', data') /\
    same_panes lf lf' /\ same_panes rt rt' /\ direction data' = direction data.
Proof.
  revert lf rt data x. induction fuel as [|fuel IH]; intros lf rt data x Hl Hr Hx; [lia|].
  cbn [share_loop]. destruct (Z.eqb_spec x 0) as [->|Hx0]; [by exists lf, rt, data|].
  assert (Hgo : forall lf' rt' data' x', same_panes lf lf' -> same_panes rt rt' ->
            direction data' = direction data -> Z.abs x' < Z.of_nat fuel ->
            exists lf2 rt2 data2, share_loop ax cd adjust fuel lf' rt' data' x' = Some (lf2, rt2, data2) /\
              same_panes lf lf2 /\ same_panes rt rt2 /\ direction data2 = direction data).
  { intros lf' rt' data' x' Pl Pr D Hx'.
    destruct (IH lf' rt' data' x') as (lf2 & rt2 & data2 & E & P1 & P2 & D2);
      [rewrite (same_depth _ _ Pl); lia|rewrite (same_depth _ _ Pr); lia|done|].
    exists lf2, rt2, data2. split_and!; [done| | |congruence]; by etransitivity. }
  destruct (Z.ltb_spec 0 x).
  - destruct (Hadj lf 1 Hl) as (lf' & -> & Pl). msimpl. destruct (Z.ltb_spec 0 (x - 1)).
    + destruct (Hadj rt 1 Hr) as (rt' & -> & Pr). msimpl. apply Hgo; [done|done|done|lia].
    + apply Hgo; [done|done|done|lia].
  - cbn [set_dpis first second]. destruct (Z.ltb_spec 1 (cells ax (set_dpi (dpi cd) (first data)))).
    + destruct (Hadj lf (-1) Hl) as (lf' & -> & Pl). msimpl. cbn [set_first first second].
      destruct ((x + 1 <? 0) && _) eqn:E; bool_to_prop.
      * destruct (Hadj rt (-1) Hr) as (rt' & -> & Pr). msimpl. apply Hgo; [done|done|done|lia].
      * msimpl. apply Hgo; [done|done|done|lia].
    + msimpl. cbn [first second]. destruct ((x <? 0) && _) eqn:E; bool_to_prop.
      * destruct (Hadj rt (-1) Hr) as (rt' & -> & Pr). msimpl. apply Hgo; [done|done|done|lia].
      * msimpl. by exists lf, rt, (set_dpis cd data).
Qed.

Lemma pass_total t lf rt data x :
  (tree_depth lf <= d)%nat -> (tree_depth rt <= d)%nat ->
  exists lf' rt' data',
    pass_down ax cd adjust (min_along ax t) lf rt data x = Some (lf', rt', data') /\
    same_panes lf lf' /\ same_panes rt rt' /\ direction data' = direction data.
Proof.
  intros Hl Hr. unfold pass_down. destruct (x =? 0); [by exists lf, rt, data|].
  set (new := Z.max _ _). destruct (negb _); [|by exists lf, rt, (set_dpis cd data)].
  destruct (Hadj lf (i64_sat (new - cells ax (first (set_dpis cd data)))) Hl) as (lf' & -> & Pl). msimpl.
  unfold isize_to_usize. pose proof (min_along_pos ax t).
  rewrite (proj2 (Z.leb_le 0 new)) by lia. msimpl.
  destruct (Hadj rt (i64_sat (new - cells ax (first (set_dpis cd data)))) Hr) as (rt' & -> & Pr). msimpl.
  by eexists _, _, _.
Qed.

End Total.

Lemma adjust_total ax fuel cd : adjusts (adjust_n ax fuel cd) fuel.
Proof.
  induction fuel as [|fuel IH]; intros t x Hd; [destruct t; cbn in Hd; lia|].
  destruct t as [|lf rt [data|]|p]; try by eexists.
  cbn [adjust_n]. cbn [tree_depth] in Hd. case_decide.
  - destruct (share_total ax cd _ fuel IH (S (Z.to_nat (Z.abs x))) lf rt data x)
      as (lf' & rt' & data' & -> & Pl & Pr & D); [lia|lia|lia|]. msimpl.
    eexists. split; [done|]. by apply same_panes_node.
  - destruct (pass_total ax cd _ fuel IH (Node lf rt (Some data)) lf rt data x)
      as (lf' & rt' & data' & -> & Pl & Pr & D); [lia|lia|]. msimpl.
    eexists. split; [done|]. by apply same_panes_node.
Qed.

Lemma reconcile_same t s : same_panes t (reconcile_tree_sizes t s).
Proof.
  revert s. induction t as [|l IHl r IHr [d|]|p]; intros s; try done.
  cbn [reconcile_tree_sizes]. apply same_panes_node; [done|done|apply reconcile_direction].
Qed.

Lemma adjust_x_total t x cd : exists t', adjust_x_size t x cd = Some t' /\ same_panes t t'.
Proof. by apply adjust_total. Qed.

Lemma adjust_y_total t y cd : exists t', adjust_y_size t y cd = Some t' /\ same_panes t t'.
Proof. by apply adjust_total. Qed.

(** *** The layout tiles the tab *)

(** How many of the rectangles cover a cell. *)
Definition hits (x y : Z) (rs : list Rect) : nat := length (List.filter (covers x y) rs).

Lemma hits_app x y a b : hits x y (a ++ b) = (hits x y a + hits x y b)%nat.
Proof. unfold hits. by rewrite List.filter_app, length_app. Qed.

Lemma hits_one x y r : hits x y [r] = if covers x y r then 1%nat else 0%nat.
Proof. unfold hits. cbn. by destruct (covers x y r). Qed.

Lemma covers_spec x y r :
  covers x y r = true <-> rx r <= x < rx r + rw r /\ ry r <= y < ry r + rh r.
Proof. unfold covers. rewrite !andb_true_iff, !Z.leb_le, !Z.ltb_lt. lia. Qed.

(** Two parts and the line between them make the whole. *)
Lemma covers_split x y x1 y1 w h a b c :
  (covers x y a = true -> covers x y b = false /\ covers x y c = false) ->
  (covers x y b = true -> covers x y c = false) ->
  (covers x y (mkRect x1 y1 w h) = true <->
     covers x y a = true \/ covers x y b = true \/ covers x y c = true) ->
  ((if covers x y a then 1 else 0) + ((if covers x y b then 1 else 0) +
     (if covers x y c then 1 else 0)))%nat
  = (if covers x y (mkRect x1 y1 w h) then 1 else 0)%nat.
Proof.
  intros H1 H2 H3.
  destruct (covers x y a), (covers x y b), (covers x y c), (covers x y (mkRect x1 y1 w h));
    try reflexivity; intuition congruence.
Qed.

Lemma covers_false x y r : covers x y r = false <-> ~ covers x y r = true.
Proof. destruct (covers x y r); split; intros H; congruence || done. Qed.

Ltac rect_cover :=
  rewrite ?covers_false, !covers_spec; cbn [rx ry rw rh]; lia.

Lemma layout_tiles t s x0 y0 x y :
  fits t s ->
  (hits x y (map snd (pane_rects t s x0 y0)) + hits x y (divider_rects t x0 y0))%nat
  = hits x y [mkRect x0 y0 (cols s) (rows s)].
Proof.
  revert s x0 y0. induction t as [|lf IHl rt IHr [data|]|p]; intros s x0 y0; try done.
  intros ((S1 & S2 & S3) & Hl & Hr)%fits_node.
    pose proof (fits_pos (direction data) _ _ Hl). pose proof (fits_pos (direction data) _ _ Hr).
    cbn [pane_rects divider_rects]. rewrite map_app, hits_app.
    change (?r :: ?a ++ ?b) with ([r] ++ a ++ b). rewrite !hits_app.
    specialize (IHl _ x0 y0 Hl).
    specialize (IHr _ (x0 + left_of_second data) (y0 + top_of_second data) Hr).
    rewrite !hits_one in *.
    match goal with |- (?pl + ?pr + (?dv + (?dl + ?dr)))%nat = _ =>
      transitivity ((pl + dl) + (dv + (pr + dr)))%nat; [lia|] end.
    rewrite IHl, IHr. unfold left_of_second, top_of_second, width, height.
    destruct (direction data); cbn [cells across] in *;
      repeat case_decide; try done; apply covers_split; rect_cover.
Qed.

(** A column of two panes in a row, with sizes that do not agree. *)
Definition stale_tree : PTree :=
  Node (Leaf 1) (Leaf 2) (Some (mkSplit Horizontal (mkSize 9 40 400 180 96) (mkSize 7 50 500 140 96))).

Lemma reconcile_invariant_witness :
  collect_tree_invariant_errors stale_tree (mkSize 24 80 800 480 96) <> [] /\
  collect_tree_invariant_errors (reconcile_tree_sizes stale_tree (mkSize 24 80 800 480 96))
    (mkSize 24 80 800 480 96) = [].
Proof.
  split; [done|].
  apply (reconcile_invariant stale_tree (mkSize 24 80 800 480 96)); [by cbn|].
  cbn. split_and!; done || lia.
Defined.
