(* ===== verification/Tab.v ===== *)
(** A tab of the multiplexer: [TabInner] of [src/mux/src/tab.rs]. Every operation is
    a computation on the tab's state that may panic, with the list of the
    calls it makes on panes and on the mux, in order. The walks over the tree
    use the cursors of [BinTree], the sizes those of [PaneTree]. A pane is its
    id; what the code asks of a pane, of the mux and of the configuration is
    the class [TabEnv]. *)

From Stdlib Require Import ZArith Lia String.
From stdpp Require Import base numbers list option gmap.
From S2P Require Import Prelude CallMonad RangeSet BinTree TermSize PaneTree.
Local Open Scope Z_scope.

(** ** Data *)

Definition TabId : Set := Z.
Definition WindowId : Set := Z.
Definition DomainId : Set := Z.

Inductive NotifyMux : Set := Yes | No.

(** [pane.rs]. *)
Inductive CloseReason : Set := CloseWindow | CloseTab | ClosePane.

#[export] Instance NotifyMux_eq_dec : EqDecision NotifyMux.
Proof. solve_decision. Defined.

Inductive PaneDirection : Set := DirUp | DirDown | DirLeft | DirRight | DirNext | DirPrev.

#[export] Instance PaneDirection_eq_dec : EqDecision PaneDirection.
Proof. solve_decision. Defined.

Record Recency : Type := mkRecency { count : nat; by_idx : gmap nat nat }.

Definition Recency_default : Recency := mkRecency 0 ∅.

(** [Recency::tag] and [score]. *)
Definition tag (r : Recency) (idx : nat) : Recency :=
  mkRecency (count r + 1) (<[idx := count r]> (by_idx r)).

Definition score (r : Recency) (idx : nat) : nat := default 0%nat (by_idx r !! idx).

Record TabInner : Type := mkTab {
  tab_id : TabId;
  pane : option PTree;
  tab_size : TerminalSize;
  size_before_zoom : TerminalSize;
  active : nat;
  zoomed : option PaneId;
  title : string;
  title_is_user_set : bool;
  recency : Recency
}.

Definition set_pane (v : option PTree) (t : TabInner) : TabInner :=
  mkTab (tab_id t) v (tab_size t) (size_before_zoom t) (active t) (zoomed t) (title t)
    (title_is_user_set t) (recency t).
Definition set_tab_size (v : TerminalSize) (t : TabInner) : TabInner :=
  mkTab (tab_id t) (pane t) v (size_before_zoom t) (active t) (zoomed t) (title t)
    (title_is_user_set t) (recency t).
Definition set_size_before_zoom (v : TerminalSize) (t : TabInner) : TabInner :=
  mkTab (tab_id t) (pane t) (tab_size t) v (active t) (zoomed t) (title t)
    (title_is_user_set t) (recency t).
Definition set_active (v : nat) (t : TabInner) : TabInner :=
  mkTab (tab_id t) (pane t) (tab_size t) (size_before_zoom t) v (zoomed t) (title t)
    (title_is_user_set t) (recency t).
Definition put_zoomed (v : option PaneId) (t : TabInner) : TabInner :=
  mkTab (tab_id t) (pane t) (tab_size t) (size_before_zoom t) (active t) v (title t)
    (title_is_user_set t) (recency t).
Definition put_title (v : string) (u : bool) (t : TabInner) : TabInner :=
  mkTab (tab_id t) (pane t) (tab_size t) (size_before_zoom t) (active t) (zoomed t) v u (recency t).
Definition tag_recency (idx : nat) (t : TabInner) : TabInner :=
  mkTab (tab_id t) (pane t) (tab_size t) (size_before_zoom t) (active t) (zoomed t) (title t)
    (title_is_user_set t) (tag (recency t) idx).

(** The calls a tab makes. *)
Inductive Call : Set :=
| Resize (p : PaneId) (s : TerminalSize)
| SetZoomed (p : PaneId) (b : bool)
| SendResizeBatch (p : PaneId) (t : TabId) (sizes : list (PaneId * TerminalSize))
| SendRotatePanes (p : PaneId) (t : TabId) (clockwise : bool)
| FocusChanged (p : PaneId) (focused : bool)
| NotifyTabResized (t : TabId)
| PaneFocused (p : PaneId)
| TabTitleChanged (t : TabId) (title : string)
| RequestSessionSave
| WindowInvalidated (w : WindowId)
| SpawnRemovePanes (ps : list PaneId).

(** What a tab asks of its panes, of the mux and of the configuration:
    [has_mux] is [Mux::try_get().is_some()], [unzoom_on_switch_pane] the option of
    that name, [pane_resize_ok] whether [resize] returns [Ok]. *)
Class TabEnv : Type := {
  has_mux : bool;
  debug_assertions : bool;
  unzoom_on_switch_pane : bool;
  get_dimensions : PaneId -> TerminalSize;
  pane_resize_ok : PaneId -> TerminalSize -> bool;
  domain_id : PaneId -> DomainId;
  pane_is_dead : PaneId -> bool;
  pane_in_mux : PaneId -> bool;
  has_cached_agent_restore_intent : PaneId -> bool;
  pane_can_close : CloseReason -> PaneId -> bool;
  window_containing_tab : TabId -> option WindowId
}.

(** ** The monad *)

Abbreviation M := (CallM TabInner Call).

(** [self.pane.take().unwrap()], [self.pane.as_ref().unwrap()], [self.pane.replace(..)]. *)
Definition take_pane : M PTree := t ← gets pane; modify (set_pane None);; lift t.
Definition the_pane : M PTree := t ← gets pane; lift t.
Definition replace_pane (t : PTree) : M unit := modify (set_pane (Some t)).

(** The tree a cursor stands for, put back. *)
Definition replace_tree (c : PCursor) : M unit := t ← lift (tree c); replace_pane t.

(** [loop { body; match next { Ok(c) => .., Err(c) => break } }]; the body can leave the
    loop, which the last component says. *)
Fixpoint walk {A} (next : PCursor -> option Moved) (body : PCursor -> A -> M (PCursor * A * bool))
    (fuel : nat) (c : PCursor) (a : A) : M (PCursor * A * bool) :=
  match fuel with
  | O => panic
  | S fuel =>
      '(c, a, stop) ← body c a;
      if stop : bool then mret (c, a, true)
      else
        m ← lift (next c);
        match m with
        | Ok c => walk next body fuel c a
        | Err c => mret (c, a, false)
        end
  end.

(** A walk from the root of a tree. *)
Definition walk_tree {A} next (body : PCursor -> A -> M (PCursor * A * bool)) (t : PTree) (a : A)
  : M (PCursor * A * bool) :=
  walk next body (size t) (cursor t) a.

(** ** Positions of panes and splits *)

Record PositionedPane : Type := mkPositioned {
  pp_index : nat;
  pp_is_active : bool;
  pp_is_zoomed : bool;
  pp_left : Z;
  pp_top : Z;
  pp_width : Z;
  pp_pixel_width : Z;
  pp_height : Z;
  pp_pixel_height : Z;
  pp_pane : PaneId
}.

Record PositionedSplit : Type := mkPosSplit {
  ps_index : nat;
  ps_direction : SplitDirection;
  ps_left : Z;
  ps_top : Z;
  ps_size : Z
}.

(** The items of [cursor.path_to_root()]. *)
Definition path_items (c : PCursor) : option (list (PathBranch * option SplitDirectionAndSize)) :=
  parents (S (depth (path c))) (path_to_root c).

(** A round of the loop over the parents of a leaf: its corner, and the size its
    immediate parent gives it. *)
Definition leaf_step (a : Z * Z * option TerminalSize)
    (item : PathBranch * option SplitDirectionAndSize) : Z * Z * option TerminalSize :=
  let '(lft, top, parent_size) := a in
  let '(branch, node) := item in
  match node with
  | None => a
  | Some node =>
      let parent_size :=
        match parent_size with
        | None => Some (match branch with IsRight => second node | IsLeft => first node end)
        | Some s => Some s
        end in
      match branch with
      | IsRight => (lft + left_of_second node, top + top_of_second node, parent_size)
      | IsLeft => (lft, top, parent_size)
      end
  end.

Definition leaf_place (items : list (PathBranch * option SplitDirectionAndSize))
  : Z * Z * option TerminalSize := fold_left leaf_step items (0, 0, None).

(** The same for a split, which needs no size. *)
Definition node_step (a : Z * Z) (item : PathBranch * option SplitDirectionAndSize) : Z * Z :=
  let '(lft, top) := a in
  match item with
  | (IsRight, Some p) => (lft + left_of_second p, top + top_of_second p)
  | _ => a
  end.

Definition node_place (items : list (PathBranch * option SplitDirectionAndSize)) : Z * Z :=
  fold_left node_step items (0, 0).

(** The rounds of [iter_panes_impl] and of [iter_splits]. *)
Definition iter_panes_body (active_idx : nat) (zoomed_id : option PaneId) (root_size : TerminalSize)
    (c : PCursor) (panes : list PositionedPane) : M (PCursor * list PositionedPane * bool) :=
  match leaf_mut c with
  | None => mret (c, panes, false)
  | Some (pane, _) =>
      let index := length panes in
      items ← lift (path_items c);
      let '(lft, top, parent_size) := leaf_place items in
      let dims := default root_size parent_size in
      mret (c, panes ++ [mkPositioned index (index =? active_idx)%nat
                           (bool_decide (zoomed_id = Some pane)) lft top
                           (cols dims) (pixel_width dims) (rows dims) (pixel_height dims) pane],
            false)
  end.

Definition iter_panes_impl (respect_zoom_state : bool) : M (list PositionedPane) :=
  z ← gets zoomed;
  size ← gets tab_size;
  match respect_zoom_state, z with
  | true, Some zoomed =>
      mret [mkPositioned 0 true true 0 0 (cols size) (pixel_width size) (rows size)
              (pixel_height size) zoomed]
  | _, _ =>
      active_idx ← gets active;
      t ← take_pane;
      '(c, panes, _) ← walk_tree preorder_next (iter_panes_body active_idx z size) t [];
      replace_tree c;;
      mret panes
  end.

Definition iter_panes : M (list PositionedPane) := iter_panes_impl true.
Definition iter_panes_ignoring_zoom : M (list PositionedPane) := iter_panes_impl false.

Definition iter_splits_body (c : PCursor) (a : nat * list PositionedSplit)
  : M (PCursor * (nat * list PositionedSplit) * bool) :=
  let '(index, dividers) := a in
  if is_leaf c then mret (c, a, false)
  else
    items ← lift (path_items c);
    let '(lft, top) := node_place items in
    match node_mut c with
    | Some (Some node, _) =>
        let '(lft, top) :=
          match direction node with
          | Horizontal => (lft + cols (first node), top)
          | Vertical => (lft, top + rows (first node))
          end in
        let size := if decide (direction node = Horizontal) then height node else width node in
        mret (c, (S index, dividers ++ [mkPosSplit index (direction node) lft top size]), false)
    | _ => mret (c, (S index, dividers), false)
    end.

Definition iter_splits : M (list PositionedSplit) :=
  z ← gets zoomed;
  match z with
  | Some _ => mret []
  | None =>
      t ← take_pane;
      '(c, (_, dividers), _) ← walk_tree preorder_next iter_splits_body t (0%nat, []);
      replace_tree c;;
      mret dividers
  end.

Definition count_panes : M nat :=
  t ← take_pane;
  '(c, count, _) ←
    walk_tree preorder_next
      (fun c count => mret (c, if is_leaf c then S count else count, false)) t 0%nat;
  replace_tree c;;
  mret count.

(** [contains_pane] and its inner function. *)
Fixpoint contains (t : PTree) (p : PaneId) : bool :=
  match t with
  | Empty => false
  | Node lf rt _ => contains lf p || contains rt p
  | Leaf q => q =? p
  end.

Definition contains_pane (p : PaneId) : M bool :=
  t ← gets pane;
  mret (match t with Some root => contains root p | None => false end).

Definition get_active_pane : M (option PaneId) :=
  z ← gets zoomed;
  match z with
  | Some zoomed => mret (Some zoomed)
  | None =>
      panes ← iter_panes_ignoring_zoom;
      active ← gets active;
      mret (pp_pane <$> panes !! active)
  end.

Definition get_active_idx : M nat := gets active.
Definition get_size : M TerminalSize := gets tab_size.
Definition get_zoomed_pane : M (option PaneId) := gets zoomed.

(** [Tab::collect_pane_sizes]. *)
Definition tab_collect_pane_sizes : M (TabId * list (PaneId * TerminalSize)) :=
  t ← gets pane;
  size ← gets tab_size;
  id ← gets tab_id;
  mret (id, match t with Some root => collect_pane_sizes root size | None => [] end).

(** [TabInner::new]; the id comes from a counter of the process. *)
Definition tab_new (id : TabId) (size : TerminalSize) : TabInner :=
  mkTab id (Some Empty) size size 0 None "" false Recency_default.

Definition assign_pane (p : PaneId) : M unit :=
  match assign_top (cursor tree_new) p with
  | Ok c => t ← lift (tree c); modify (set_pane (Some t))
  | Err _ => panic
  end.

(** ** Titles *)

Section Titles.
Context `{TabEnv}.

Definition get_title : M string := gets title.

Definition get_explicit_title : M (option string) :=
  u ← gets title_is_user_set;
  s ← gets title;
  mret (if u && negb (String.eqb s "") then Some s else None).

(** [Mux::try_get().map(|mux| mux.notify(..))]. *)
Definition try_notify (c : Call) : M unit := if has_mux then emit c else mret tt.

(** [Mux::get()] panics without a mux. *)
Definition mux_get : M unit := if has_mux then mret tt else panic.

Definition set_title (s : string) : M unit :=
  was_user_set ← gets title_is_user_set;
  old ← gets title;
  id ← gets tab_id;
  let user_set := negb (String.eqb s "") in
  modify (put_title old user_set);;
  let persistence_changed := negb (Bool.eqb was_user_set user_set) || negb (String.eqb old s) in
  (if negb (String.eqb old s) then
     modify (put_title s user_set);;
     try_notify (TabTitleChanged id s)
   else mret tt);;
  if persistence_changed then emit RequestSessionSave else mret tt.

Definition set_title_from_remote (s : string) : M unit :=
  old ← gets title;
  modify (put_title (if String.eqb old s then old else s) (negb (String.eqb s ""))).

Definition set_title_from_terminal (s : string) : M unit :=
  user_set ← gets title_is_user_set;
  if user_set : bool then mret tt
  else
    old ← gets title;
    id ← gets tab_id;
    if String.eqb old s then mret tt
    else
      modify (put_title s user_set);;
      try_notify (TabTitleChanged id s).

End Titles.

(** ** Sizes *)

(** [isize] and [usize] casts. *)
Definition as_usize (z : Z) : Z := z mod 2 ^ 64.
Definition as_isize (z : Z) : Z := if z <=? i64_max then z else z - 2 ^ 64.
Definition usize_saturating_add (a b : Z) : Z := Z.min usize_max (a + b).

(** [apply_pane_size] on the data of a node. *)
Definition fit_node (pane_size : TerminalSize) (node : SplitDirectionAndSize)
  : SplitDirectionAndSize :=
  let cell_width := div_or_one (pixel_width pane_size) (cols pane_size) in
  let cell_height := div_or_one (pixel_height pane_size) (rows pane_size) in
  let sized r c old := mkSize r c (c * cell_width) (r * cell_height) (dpi old) in
  match direction node with
  | Horizontal =>
      mkSplit Horizontal
        (sized (rows pane_size) (cols (first node)) (first node))
        (sized (rows pane_size) (usize_saturating_sub (cols pane_size) (1 + cols (first node)))
           (second node))
  | Vertical =>
      mkSplit Vertical
        (sized (rows (first node)) (cols pane_size) (first node))
        (sized (usize_saturating_sub (rows pane_size) (1 + rows (first node))) (cols pane_size)
           (second node))
  end.

Definition apply_pane_size (pane_size : TerminalSize) (c : PCursor) : PCursor :=
  match node_mut c with
  | Some (Some node, assign) => assign (Some (fit_node pane_size node))
  | _ => c
  end.

(** The size available to the position: what the immediate parent gives it. *)
Definition available_size (root_size : TerminalSize) (c : PCursor) : TerminalSize :=
  match parent_next (path_to_root c) with
  | Some ((branch, Some parent), _) =>
      match branch with IsRight => second parent | IsLeft => first parent end
  | _ => root_size
  end.

(** [adjust_node_at_cursor] on the data of a node. *)
Definition move_divider (cell_dimensions : TerminalSize) (delta : Z) (node : SplitDirectionAndSize)
  : SplitDirectionAndSize :=
  match direction node with
  | Horizontal =>
      let width := width node in
      let c := as_usize (Z.min (Z.max (i64_saturating_add (as_isize (cols (first node))) delta) 1)
                               (i64_sat (as_isize width - 2))) in
      let c2 := usize_saturating_sub width (usize_saturating_add c 1) in
      mkSplit Horizontal (set_cells Horizontal c cell_dimensions (first node))
        (set_cells Horizontal c2 cell_dimensions (second node))
  | Vertical =>
      let height := height node in
      let r := as_usize (Z.min (Z.max (i64_saturating_add (as_isize (rows (first node))) delta) 1)
                               (i64_sat (as_isize height - 2))) in
      let r2 := usize_saturating_sub height (usize_saturating_add r 1) in
      mkSplit Vertical (set_cells Vertical r cell_dimensions (first node))
        (set_cells Vertical r2 cell_dimensions (second node))
  end.

Section Operations.
Context `{TabEnv}.

(** [pane.resize(size)]: the call, and whether it returned [Ok]. *)
Definition resize_pane (p : PaneId) (size : TerminalSize) : M bool :=
  emit (Resize p size);; mret (pane_resize_ok p size).

Definition resize_panes (sizes : list (PaneId * TerminalSize)) : M unit :=
  emits (map (fun '(p, size) => Resize p size) sizes).

Definition notify_tab_resized : M unit := id ← gets tab_id; try_notify (NotifyTabResized id).

(** [get_active_pane().map(|pane| ..)]. *)
Definition on_active_pane (f : PaneId -> M unit) : M unit :=
  p ← get_active_pane; match p with Some p => f p | None => mret tt end.

Definition send_resize_batch : M unit :=
  t ← the_pane;
  size ← gets tab_size;
  id ← gets tab_id;
  on_active_pane (fun p => emit (SendResizeBatch p id (collect_pane_sizes t size))).

Definition resize_impl (size : TerminalSize) (send_resize : bool) : M unit :=
  if (rows size =? 0) || (cols size =? 0) then mret tt
  else
    z ← gets zoomed;
    match z with
    | Some zoomed =>
        modify (set_tab_size size);;
        _ ← resize_pane zoomed size;
        mret tt
    | None =>
        dims ← lift (cell_dimensions size);
        t ← the_pane;
        let '(min_x, min_y) := compute_min_size t in
        current_size ← gets tab_size;
        let cols' := Z.max (cols size) min_x in
        let rows' := Z.max (rows size) min_y in
        let size := mkSize rows' cols' (cols' * pixel_width dims) (rows' * pixel_height dims)
                      (dpi dims) in
        t ← lift (adjust_x_size t (cols' - cols current_size) dims);
        t ← lift (adjust_y_size t (rows' - rows current_size) dims);
        modify (set_tab_size size);;
        let t := reconcile_tree_sizes t size in
        replace_pane t;;
        resize_panes (apply_sizes_from_splits t size);;
        (if send_resize then send_resize_batch else mret tt);;
        if debug_assertions then lift (debug_assert_tree_invariants t size) else mret tt
    end;;
    if send_resize then notify_tab_resized else mret tt.

Definition resize (size : TerminalSize) : M unit := resize_impl size true.

Definition toggle_zoom : M unit :=
  size ← gets tab_size;
  z ← gets zoomed;
  modify (put_zoomed None);;
  match z with
  | Some _ =>
      on_active_pane (fun p => emit (SetZoomed p false));;
      before ← gets size_before_zoom;
      modify (set_tab_size before);;
      resize size
  | None =>
      modify (set_size_before_zoom size);;
      on_active_pane (fun p =>
        emit (SetZoomed p true);;
        _ ← resize_pane p size;
        modify (put_zoomed (Some p)))
  end;;
  notify_tab_resized.

Definition set_zoomed (zoomed' : bool) : M bool :=
  z ← gets zoomed;
  if Bool.eqb (match z with Some _ => true | None => false end) zoomed' then mret zoomed'
  else toggle_zoom;; mret (negb zoomed').

(** *** rebuild_splits_sizes_from_contained_panes *)

(** The inner [compute_size]: the tree with the sizes of its panes, and its size. *)
Fixpoint compute_size (t : PTree) : option (PTree * option TerminalSize) :=
  match t with
  | Empty => Some (t, None)
  | Leaf p => Some (t, Some (get_dimensions p))
  | Node lf rt None => Some (t, None)
  | Node lf rt (Some data) =>
      '(lf, s1) ← compute_size lf;
      let data := match s1 with Some s => set_first s data | None => data end in
      '(rt, s2) ← compute_size rt;
      let data := match s2 with Some s => set_second s data | None => data end in
      s ← split_size data;
      Some (Node lf rt (Some data), Some s)
  end.

Definition rebuild_splits_sizes_from_contained_panes : M unit :=
  z ← gets zoomed;
  match z with
  | Some _ => mret tt
  | None =>
      t ← gets pane;
      match t with
      | None => mret tt
      | Some root =>
          '(root, size) ← lift (compute_size root);
          match size with
          | None => replace_pane root
          | Some size =>
              modify (set_tab_size size);;
              let root := reconcile_tree_sizes root size in
              replace_pane root;;
              if debug_assertions then lift (debug_assert_tree_invariants root size) else mret tt
          end
      end;;
      notify_tab_resized
  end.

(** *** Moving a divider *)

Definition tab_cell_dimensions : M TerminalSize :=
  size ← gets tab_size; lift (cell_dimensions size).

Definition adjust_node_at_cursor (c : PCursor) (delta : Z) : M PCursor :=
  cell_dims ← tab_cell_dimensions;
  mret (match node_mut c with
        | Some (Some node, assign) => assign (Some (move_divider cell_dims delta node))
        | _ => c
        end).

Definition cascade_body (root_size : TerminalSize) (c : PCursor) (_ : unit)
  : M (PCursor * unit * bool) :=
  let pane_size := available_size root_size c in
  match leaf_mut c with
  | Some (p, _) => _ ← resize_pane p pane_size; mret (c, tt, false)
  | None => mret (apply_pane_size pane_size c, tt, false)
  end.

Definition cascade_size_from_cursor (c : PCursor) : M unit :=
  m ← lift (preorder_next c);
  match m with
  | Err c => replace_tree c
  | Ok c =>
      root_size ← gets tab_size;
      '(c, _, _) ← walk preorder_next (cascade_body root_size) (size (root c)) c tt;
      replace_tree c;;
      send_resize_batch;;
      notify_tab_resized
  end.

(** The search for the split, or the leaf, with a number. *)
Definition find_body (wanted : PCursor -> bool) (n : nat) (c : PCursor) (index : nat)
  : M (PCursor * nat * bool) :=
  if wanted c then
    if (index =? n)%nat then mret (c, index, true) else mret (c, S index, false)
  else mret (c, index, false).

Definition resize_split_by (split_index : nat) (delta : Z) : M unit :=
  z ← gets zoomed;
  match z with
  | Some _ => mret tt
  | None =>
      t ← take_pane;
      '(c, _, found) ←
        walk_tree preorder_next (find_body (fun c => negb (is_leaf c)) split_index) t 0%nat;
      if found : bool then
        c ← adjust_node_at_cursor c delta;
        cascade_size_from_cursor c;;
        notify_tab_resized
      else replace_tree c
  end.

(** The climb from the active leaf to the first split of a direction. *)
Fixpoint adjust_up (fuel : nat) (split_direction : SplitDirection) (delta : Z) (c : PCursor)
  : M unit :=
  match fuel with
  | O => panic
  | S fuel =>
      match go_up c with
      | Err c => replace_tree c
      | Ok c =>
          match node_mut c with
          | Some (Some node, _) =>
              if decide (direction node = split_direction) then
                c ← adjust_node_at_cursor c delta;
                cascade_size_from_cursor c
              else adjust_up fuel split_direction delta c
          | _ => adjust_up fuel split_direction delta c
          end
      end
  end.

Definition adjust_pane_size (dir : PaneDirection) (amount : Z) : M unit :=
  z ← gets zoomed;
  match z with
  | Some _ => mret tt
  | None =>
      active_index ← gets active;
      t ← take_pane;
      '(c, _, found) ← walk_tree preorder_next (find_body is_leaf active_index) t 0%nat;
      if found : bool then
        split_direction ← lift (match dir with
                                | DirLeft | DirRight => Some Horizontal
                                | DirUp | DirDown => Some Vertical
                                | DirNext | DirPrev => None
                                end);
        delta ← lift (match dir with
                      | DirDown | DirRight => Some (as_isize amount)
                      | DirUp | DirLeft => Some (- as_isize amount)
                      | DirNext | DirPrev => None
                      end);
        adjust_up (S (depth (path c))) split_direction delta c
      else replace_tree c
  end.

(** *** Focus *)

(** [is_pane]. *)
Definition is_pane (p : PaneId) (other : option PaneId) : bool :=
  match other with Some q => q =? p | None => false end.

Definition advise_focus_change (prior : option PaneId) (notify : NotifyMux) : M unit :=
  mux_get;;
  current ← get_active_pane;
  match prior, current with
  | Some p, Some q =>
      if p =? q then mret tt
      else
        emit (FocusChanged p false);;
        emit (FocusChanged q true);;
        if decide (notify = Yes) then emit (PaneFocused q) else mret tt
  | None, Some q =>
      emit (FocusChanged q true);;
      if decide (notify = Yes) then emit (PaneFocused q) else mret tt
  | Some p, None => emit (FocusChanged p false)
  | None, None => mret tt
  end.

Definition set_active_idx_impl (pane_index : nat) (notify : NotifyMux) : M unit :=
  prior ← get_active_pane;
  modify (set_active pane_index);;
  modify (tag_recency pane_index);;
  advise_focus_change prior notify.

Definition set_active_pane (p : PaneId) (notify : NotifyMux) : M unit :=
  prior ← get_active_pane;
  if is_pane p prior then mret tt
  else
    z ← gets zoomed;
    let go :=
      panes ← iter_panes_ignoring_zoom;
      match List.find (fun q => pp_pane q =? p) panes with
      | Some item =>
          modify (set_active (pp_index item));;
          modify (tag_recency (pp_index item));;
          advise_focus_change prior notify
      | None => mret tt
      end in
    match z with
    | Some _ => if unzoom_on_switch_pane then toggle_zoom;; go else mret tt
    | None => go
    end.

(** [edge_intersects]. *)
Definition edge_intersects (active_start active_size current_start current_size : Z) : bool :=
  intersects_range (mkRange active_start (active_start + active_size))
    (mkRange current_start (current_start + current_size)).

(** The pane touches the active one on the side of the direction. *)
Definition is_adjacent (dir : PaneDirection) (active pane : PositionedPane) : bool :=
  match dir with
  | DirRight =>
      (pp_left pane =? pp_left active + pp_width active + 1) &&
      edge_intersects (pp_top active) (pp_height active) (pp_top pane) (pp_height pane)
  | DirLeft =>
      (pp_left pane + pp_width pane + 1 =? pp_left active) &&
      edge_intersects (pp_top active) (pp_height active) (pp_top pane) (pp_height pane)
  | DirUp =>
      (pp_top pane + pp_height pane + 1 =? pp_top active) &&
      edge_intersects (pp_left active) (pp_width active) (pp_left pane) (pp_width pane)
  | DirDown =>
      (pp_top active + pp_height active + 1 =? pp_top pane) &&
      edge_intersects (pp_left active) (pp_width active) (pp_left pane) (pp_width pane)
  | DirNext | DirPrev => false
  end.

(** One round of the loop over the panes: the best so far. *)
Definition best_round (dir : PaneDirection) (recency : Recency) (active : PositionedPane)
    (best : option (nat * PositionedPane)) (pane : PositionedPane)
  : option (nat * PositionedPane) :=
  let s := if is_adjacent dir active pane then (1 + score recency (pp_index pane))%nat else 0%nat in
  if (0 <? s)%nat then
    match best with
    | Some (best_score, best_pane) =>
        if (s <? best_score)%nat then Some (best_score, best_pane) else Some (s, pane)
    | None => Some (s, pane)
    end
  else best.

(** [get_pane_direction] once the panes are listed. *)
Definition pane_in_direction (dir : PaneDirection) (recency : Recency) (panes : list PositionedPane)
  : option nat :=
  match List.find pp_is_active panes with
  | None => Some 0%nat
  | Some active =>
      let max_pane_id := fold_right Nat.max 0%nat (map pp_index panes) in
      match dir with
      | DirNext =>
          Some (if (pp_index active =? max_pane_id)%nat then 0%nat else (pp_index active + 1)%nat)
      | DirPrev =>
          Some (if (pp_index active =? 0)%nat then max_pane_id else (pp_index active - 1)%nat)
      | _ => pp_index ∘ snd <$> fold_left (best_round dir recency active) panes None
      end
  end.

Definition get_pane_direction (dir : PaneDirection) (ignore_zoom : bool) : M (option nat) :=
  panes ← (if ignore_zoom then iter_panes_ignoring_zoom else iter_panes);
  r ← gets recency;
  mret (pane_in_direction dir r panes).

Definition activate_pane_direction_impl (dir : PaneDirection) (notify : NotifyMux) : M unit :=
  z ← gets zoomed;
  let go :=
    panel_idx ← get_pane_direction dir false;
    (match panel_idx with Some i => set_active_idx_impl i notify | None => mret tt end);;
    mux_get;;
    id ← gets tab_id;
    match window_containing_tab id with
    | Some window_id => emit (WindowInvalidated window_id)
    | None => mret tt
    end in
  match z with
  | Some _ => if unzoom_on_switch_pane then toggle_zoom;; go else mret tt
  | None => go
  end.

(** *** Rotation *)

(** The walk of a rotation: each leaf takes the pane of the one visited before. *)
Definition rotate_body (c : PCursor) (pane_to_swap : PaneId) : M (PCursor * PaneId * bool) :=
  match leaf_mut c with
  | Some (p, assign) => mret (assign pane_to_swap, p, false)
  | None => mret (c, pane_to_swap, false)
  end.

Definition rotate (next : PCursor -> option Moved) (start : list PositionedPane -> option PositionedPane)
    (clockwise : bool) : M unit :=
  panes ← iter_panes_ignoring_zoom;
  match panes with
  | [] => mret tt
  | _ =>
      pane_to_swap ← lift (start panes);
      t ← take_pane;
      '(c, _, _) ← walk_tree next rotate_body t (pp_pane pane_to_swap);
      t ← lift (tree c);
      replace_pane t;;
      size ← gets tab_size;
      resize_panes (apply_sizes_from_splits t size);;
      id ← gets tab_id;
      on_active_pane (fun p => emit (SendRotatePanes p id clockwise));;
      notify_tab_resized
  end.

Definition rotate_counter_clockwise : M unit := rotate postorder_next head false.
Definition rotate_clockwise : M unit := rotate preorder_next list.last true.

(** *** Swapping *)

Definition swap_active_with_index (pane_index : nat) (keep_focus : bool) : M (option unit) :=
  active_idx ← get_active_idx;
  p ← get_active_pane;
  match p with
  | None => mret None
  | Some p =>
      t ← take_pane;
      m ← lift (go_to_nth_leaf (cursor t) pane_index);
      match m with
      | Err c => replace_tree c;; mret None
      | Ok c =>
          '(p, c) ← lift ('(old, assign) ← leaf_mut c; Some (old, assign p));
          t ← lift (tree c);
          m ← lift (go_to_nth_leaf (cursor t) active_idx);
          match m with
          | Err c => replace_tree c;; mret None
          | Ok c =>
              '(p, c) ← lift ('(old, assign) ← leaf_mut c; Some (old, assign p));
              t ← lift (tree c);
              replace_pane t;;
              size ← gets tab_size;
              resize_panes (apply_sizes_from_splits t size);;
              (if keep_focus then set_active_idx_impl pane_index Yes
               else advise_focus_change (Some p) Yes);;
              mret None
          end
      end
  end.

(** *** Removing panes *)

(** What the loop of [remove_pane_if] keeps besides the cursor. *)
Record Removing : Type := mkRemoving {
  dead_panes : list PaneId;
  pane_index : nat;
  removed_indices : list nat
}.

(** The size of a split that lost a child. *)
Definition joined_size (cell_dims : TerminalSize) (parent : SplitDirectionAndSize) : TerminalSize :=
  mkSize (height parent) (width parent) (pixel_width cell_dims * width parent)
    (pixel_height cell_dims * height parent) (dpi cell_dims).

(** The leaf [p] under the cursor is to be removed. *)
Definition remove_leaf (zoomed_pane : option PaneId) (cell_dims : TerminalSize)
    (p : PaneId) (c : PCursor) (a : Removing) : M (PCursor * Removing * bool) :=
  let removed := removed_indices a ++ [pane_index a] in
  (if bool_decide (Some p = zoomed_pane) then modify (put_zoomed None) else mret tt);;
  u ← lift (unsplit_leaf c);
  match u with
  | Ok (c, dead, parent) =>
      parent ← lift parent;
      let size := joined_size cell_dims parent in
      let a := mkRemoving (dead_panes a ++ [dead]) (S (pane_index a)) removed in
      match leaf_mut c with
      | Some (unsplit, _) => _ ← resize_pane unsplit size; mret (c, a, false)
      | None => mret (apply_pane_size size c, a, false)
      end
  | Err c =>
      if is_top c && is_leaf c then
        replace_pane Empty;;
        mret (c, mkRemoving (dead_panes a ++ [p]) (pane_index a) removed, true)
      else
        replace_tree c;;
        mret (c, mkRemoving (dead_panes a) (pane_index a) removed, true)
  end.

Definition remove_body (f : nat -> PaneId -> bool) (zoomed_pane : option PaneId)
    (root_size cell_dims : TerminalSize) (c : PCursor) (a : Removing)
  : M (PCursor * Removing * bool) :=
  let pane_size := available_size root_size c in
  let some_dead := match dead_panes a with [] => false | _ => true end in
  match leaf_mut c with
  | Some (p, _) =>
      if f (pane_index a) p then remove_leaf zoomed_pane cell_dims p c a
      else
        (if some_dead then _ ← resize_pane p pane_size; mret tt else mret tt);;
        mret (c, mkRemoving (dead_panes a) (S (pane_index a)) (removed_indices a), false)
  | None => mret (if some_dead then apply_pane_size pane_size c else c, a, false)
  end.

(** After the loop: the active index shifts by the panes removed up to it, and the
    mux is asked to drop the removed ones. *)
Definition finish_removal (a : Removing) (kill : bool) : M (list PaneId) :=
  active_idx ← gets active;
  let removed := List.filter (fun idx => (idx <=? active_idx)%nat) (removed_indices a) in
  modify (set_active (active_idx - length removed)%nat);;
  (match dead_panes a with
   | [] => mret tt
   | dead => if kill then emit (SpawnRemovePanes dead) else mret tt
   end);;
  mret (dead_panes a).

Definition remove_pane_if (f : nat -> PaneId -> bool) (kill : bool) : M (list PaneId) :=
  zoomed_pane ← gets zoomed;
  root_size ← gets tab_size;
  t ← take_pane;
  cell_dims ← tab_cell_dimensions;
  '(c, a, stopped) ←
    walk preorder_next (remove_body f zoomed_pane root_size cell_dims)
      (size t * S (size t)) (cursor t) (mkRemoving [] 0 []);
  (if stopped : bool then mret tt else replace_tree c);;
  finish_removal a kill.

Definition some_removed (l : list PaneId) : bool := match l with [] => false | _ => true end.

Definition prune_dead_panes : M bool :=
  mux_get;;
  dead ← remove_pane_if (fun _ p =>
    (pane_is_dead p && negb (has_cached_agent_restore_intent p)) || negb (pane_in_mux p)) true;
  mret (some_removed dead).

Definition kill_pane (p : PaneId) : M bool :=
  dead ← remove_pane_if (fun _ q => q =? p) true; mret (some_removed dead).

Definition kill_panes_in_domain (domain : DomainId) : M bool :=
  dead ← remove_pane_if (fun _ q => domain_id q =? domain) true; mret (some_removed dead).

Definition remove_pane (p : PaneId) : M (option PaneId) :=
  panes ← remove_pane_if (fun _ q => q =? p) false; mret (head panes).

Definition can_close_without_prompting (reason : CloseReason) : M bool :=
  panes ← iter_panes_ignoring_zoom;
  mret (forallb (fun pos => pane_can_close reason (pp_pane pos)) panes).

Definition is_dead : M bool :=
  panes ← iter_panes_ignoring_zoom;
  mret (length (List.filter (fun pos => pane_is_dead (pp_pane pos)) panes) =? length panes)%nat.

(** *** Splitting *)

Definition compute_split_size (pane_index : nat) (request : SplitRequest)
  : M (option SplitDirectionAndSize) :=
  cell_dims ← tab_cell_dimensions;
  if top_level request then
    size ← gets tab_size;
    mret (Some (split_area (cols size) (rows size) request cell_dims))
  else
    _ ← set_zoomed false;
    panes ← iter_panes;
    mret ((fun pos => split_area (pp_width pos) (pp_height pos) request cell_dims) <$>
          panes !! pane_index).

(** The errors of [split_and_insert], by their messages. *)
Inductive SplitError : Set :=
| CannotSplitWhileZoomed | InvalidPaneIndex (n : nat) | NoSpaceForSplit | ResizeFailed.

Definition no_space (split_info : SplitDirectionAndSize) (tab_size : TerminalSize) : bool :=
  (rows (first split_info) =? 0) || (cols (first split_info) =? 0) ||
  (rows (second split_info) =? 0) || (cols (second split_info) =? 0) ||
  (rows tab_size <? top_of_second split_info + rows (second split_info)) ||
  (cols tab_size <? left_of_second split_info + cols (second split_info)).

(** The new pane at the root, beside everything else. *)
Definition insert_top_level (request : SplitRequest) (split_info : SplitDirectionAndSize)
    (p : PaneId) (c : PCursor) : M (result nat SplitError) :=
  let c := match assign_node c (Some split_info) with Err c | Ok c => c end in
  t ← lift (tree c);
  replace_pane t;;
  size ← lift (split_size split_info);
  modify (set_tab_size size);;
  let pane_index := if target_is_second request then (num_leaves t - 1)%nat else 0%nat in
  modify (set_active pane_index);;
  modify (tag_recency pane_index);;
  mret (Ok pane_index).

(** The new pane beside the leaf with an index. *)
Definition insert_at_leaf (pane_index : nat) (request : SplitRequest)
    (split_info : SplitDirectionAndSize) (p : PaneId) (c : PCursor) : M (result nat SplitError) :=
  m ← lift (go_to_nth_leaf c pane_index);
  match m with
  | Err c => replace_tree c;; mret (Err (InvalidPaneIndex pane_index))
  | Ok c =>
      '(existing_pane, assign) ← lift (leaf_mut c);
      let '(pane1, pane2) :=
        if target_is_second request then (existing_pane, p) else (p, existing_pane) in
      ok1 ← resize_pane pane1 (first split_info);
      if negb ok1 then mret (Err ResizeFailed)
      else
        ok2 ← resize_pane pane2 (second split_info);
        if negb ok2 then mret (Err ResizeFailed)
        else
          match split_leaf_and_insert_right (assign pane1) pane2 with
          | Err c => replace_tree c;; mret (Err (InvalidPaneIndex pane_index))
          | Ok c =>
              let c := match assign_node c (Some split_info) with Err c | Ok c => c end in
              replace_tree c;;
              if target_is_second request then
                modify (set_active (pane_index + 1)%nat);;
                modify (tag_recency (pane_index + 1)%nat);;
                mret (Ok (pane_index + 1)%nat)
              else mret (Ok pane_index)
          end
  end.

(** [TabInner::split_and_insert]. *)
Definition split_and_insert_inner (pane_index : nat) (request : SplitRequest) (p : PaneId)
  : M (result nat SplitError) :=
  z ← gets zoomed;
  match z with
  | Some _ => mret (Err CannotSplitWhileZoomed)
  | None =>
      split_info ← compute_split_size pane_index request;
      match split_info with
      | None => mret (Err (InvalidPaneIndex pane_index))
      | Some split_info =>
          size ← gets tab_size;
          if no_space split_info size then mret (Err NoSpaceForSplit)
          else
            needs_resize ← (if top_level request then
                              t ← the_pane; mret (1 <? num_leaves t)%nat
                            else mret false);
            (if needs_resize : bool then
               resize (if target_is_second request then first split_info else second split_info)
             else mret tt);;
            t ← take_pane;
            let c := cursor t in
            if top_level request && negb (is_leaf c) then
              match (if target_is_second request then split_node_and_insert_right c p
                     else split_node_and_insert_left c p) with
              | Ok c => insert_top_level request split_info p c
              | Err c => insert_at_leaf pane_index request split_info p c
              end
            else insert_at_leaf pane_index request split_info p c
      end
  end.

(** [Tab::split_and_insert]. *)
Definition split_and_insert (pane_index : nat) (request : SplitRequest) (p : PaneId)
  : M (result nat SplitError) :=
  r ← split_and_insert_inner pane_index request p;
  (match r with Ok _ => notify_tab_resized | Err _ => mret tt end);;
  mret r.

End Operations.
