(* ===== verification/TabWalk.v ===== *)
(** Walks over the tree of a tab: what a loop over [preorder_next] or [postorder_next]
    with a body that rewrites the position it stands on does to the tree, as a
    recursion on the tree. *)

From Stdlib Require Import ZArith Lia.
From stdpp Require Import base numbers list option gmap.
From S2P Require Import Prelude CallMonad BinTree TermSize PaneTree Tab.
Local Open Scope Z_scope.

(** ** Running computations *)

Lemma replace_tree_run c t st : tree c = Some t -> replace_tree c st = Some (tt, set_pane (Some t) st, []).
Proof. intros E. unfold replace_tree. by rewrite (silent_run _ _ _ _ (lift_run _ _ _ E)). Qed.

(** Unfold the primitive computations of a goal. *)
Ltac mrun :=
  cbv [mret CallM_ret gets modify emit lift take_pane the_pane replace_pane replace_tree panic];
  cbv [mbind CallM_bind].

(** ** Walks in preorder *)

Section Visit.
Context {A : Type} (body : PCursor -> A -> M (PCursor * A * bool)).

(** The body rewrites the label of the position and does not leave the loop, unless
    the position is a leaf outside [P]. *)
Definition in_place_on (P : PaneId -> Prop) : Prop := forall c a st c' a' stop st' tr,
  match it c with Leaf q => P q | _ => True end ->
  body c a st = Some (c', a', stop, st', tr) ->
  stop = false /\ path c' = path c /\
  match it c, it c' with
  | Leaf _, Leaf _ => True
  | Node l r _, Node l' r' _ => l' = l /\ r' = r
  | Empty, Empty => True
  | _, _ => False
  end.

Definition in_place : Prop := in_place_on (fun _ => True).

(** What the walk does to a subtree. *)
Fixpoint visit (t : PTree) (p : Path PaneId SplitDirectionAndSize) (a : A) : M (PTree * A) :=
  '(c, a, _) ← body (mkCursor t p) a;
  match t, it c with
  | Node l r _, Node _ _ d =>
      '(l, a) ← visit l (Left r d p) a;
      '(r, a) ← visit r (Right l d p) a;
      mret (Node l r d, a)
  | _, t' => mret (t', a)
  end.

(** What it does below a position. *)
Definition visit_below (t : PTree) (p : Path PaneId SplitDirectionAndSize) (a : A) : M (PTree * A) :=
  match t with
  | Node l r d =>
      '(l, a) ← visit l (Left r d p) a;
      '(r, a) ← visit r (Right l d p) a;
      mret (Node l r d, a)
  | _ => mret (t, a)
  end.

(** What it does to the rest, once it has left a subtree. *)
Fixpoint visit_rest (t : PTree) (p : Path PaneId SplitDirectionAndSize) (a : A) : M (PTree * A) :=
  match p with
  | Top => mret (t, a)
  | Left r d up => '(r, a) ← visit r (Right t d up) a; visit_rest (Node t r d) up a
  | Right l d up => visit_rest (Node l t d) up a
  end.

(** The number of positions after a subtree. *)
Fixpoint size_after (p : Path PaneId SplitDirectionAndSize) : nat :=
  match p with
  | Top => 0
  | Left r _ up => size r + size_after up
  | Right _ _ up => size_after up
  end.

(** No subtree after the position is missing. *)
Fixpoint proper_after (p : Path PaneId SplitDirectionAndSize) : Prop :=
  match p with
  | Top => True
  | Left r _ up => proper r /\ proper_after up
  | Right _ _ up => proper_after up
  end.

(** A computation after calls already made. *)
Definition after_calls {B} (tr : list Call) (r : option (B * TabInner * list Call))
  : option (B * TabInner * list Call) :=
  match r with Some (b, st, tr') => Some (b, st, tr ++ tr') | None => None end.

Lemma after_calls_app {B} tr tr' (r : option (B * TabInner * list Call)) :
  after_calls tr (after_calls tr' r) = after_calls (tr ++ tr') r.
Proof. destruct r as [[[b st] tr2]|]; cbn; [|done]. by rewrite app_assoc. Qed.

Lemma after_calls_nil {B} (r : option (B * TabInner * list Call)) : after_calls [] r = r.
Proof. by destruct r as [[[b st] tr]|]. Qed.

(** One round. *)
Lemma walk_round next fuel c a st c' a' st' tr :
  body c a st = Some (c', a', false, st', tr) ->
  walk next body (S fuel) c a st = after_calls tr
    (match next c' with
     | Some (Ok c) => walk next body fuel c a' st'
     | Some (Err c) => Some (c, a', false, st', [])
     | None => None
     end).
Proof.
  intros E. cbn [walk]. rewrite (bind_run _ _ _ _ _ _ E).
  cbv [mbind CallM_bind lift]. destruct (next c') as [[c2|c2]|]; [|done|done].
  destruct (walk next body fuel c2 a' st') as [[[b st2] tr2]|]; done.
Qed.

Context (P : PaneId -> Prop) (Hin : in_place_on P).

Lemma walk_visit t p a st t' a' st' tr fuel :
  proper t -> Forall P (leaves t) ->
  visit t p a st = Some (t', a', st', tr) -> (size t <= fuel)%nat ->
  match after t' p with
  | Some c => walk preorder_next body fuel (mkCursor t p) a st =
                after_calls tr (walk preorder_next body (fuel - size t) c a' st')
  | None => exists c, root c = plug t' p /\
              walk preorder_next body fuel (mkCursor t p) a st = Some (c, a', false, st', tr)
  end.
Proof.
  revert p a st t' a' st' tr fuel. induction t as [|l IHl r IHr d|x];
    intros p a st t' a' st' tr fuel Hp HP Hv Hf; [done| |].
  - destruct Hp as [Hl Hr]. cbn [leaves] in HP. apply Forall_app in HP as [Pl Pr].
    cbn [visit size] in Hv, Hf. destruct fuel as [|fuel]; [lia|].
    apply bind_inv in Hv as ([[c a0] stop] & st0 & tr0 & [t2 a2] & st2 & tr2 & E0 & Hv & [= -> -> -> ->]).
    destruct (Hin (mkCursor (Node l r d) p) _ _ _ _ _ _ _ I E0) as (-> & Hpc & Hit). destruct c as [[|l0 r0 d0|] p0]; try done.
    cbn in Hpc, Hit. destruct Hit as [-> ->]. subst p0. cbn [it] in Hv.
    apply bind_inv in Hv as ([l' a1] & st1 & tr1 & ? & st2' & tr2' & E1 & Hv & [= <- -> ->]).
    apply bind_inv in Hv as ([r' a1'] & st3 & tr3 & ? & ? & ? & E2 & Hv & [= <- -> ->]).
    cbv [mret CallM_ret] in Hv. injection Hv as <- <- <- <-.
    rewrite (walk_round _ _ _ _ _ _ _ _ _ E0). cbn [preorder_next is_leaf it go_left path].
    assert (Hs : (size l + size r <= fuel)%nat) by lia.
    pose proof (IHl (Left r d0 p) _ _ _ _ _ _ fuel Hl Pl E1 ltac:(lia)) as W1. cbn [after] in W1.
    pose proof (IHr (Right l' d0 p) _ _ _ _ _ _ (fuel - size l)%nat Hr Pr E2 ltac:(lia)) as W2.
    cbn [after] in W2. rewrite W1, app_nil_r.
    destruct (after (Node l' r' d0) p) as [c|].
    + rewrite W2, !after_calls_app, <- app_assoc. cbn [size Nat.sub]. by rewrite Nat.sub_add_distr.
    + destruct W2 as (c & Hc & ->). exists c. split; [done|]. done.
  - cbn [visit size] in Hv, Hf. destruct fuel as [|fuel]; [lia|].
    apply bind_inv in Hv as ([[c a0] stop] & st0 & tr0 & ? & st2 & tr2 & E0 & Hv & [= <- -> ->]).
    apply Forall_cons_iff in HP as [Px _].
    destruct (Hin (mkCursor (Leaf x) p) _ _ _ _ _ _ _ Px E0) as (-> & Hpc & Hit). destruct c as [[| |x'] p0]; try done.
    cbn in Hpc. subst p0. cbn [it] in Hv. cbv [mret CallM_ret] in Hv. injection Hv as <- <- <- <-.
    rewrite (walk_round _ _ _ _ _ _ _ _ _ E0), app_nil_r.
    pose proof (preorder_next_leaf x' p) as Hn.
    destruct (preorder_next_total (mkCursor (Leaf x') p)) as (m & Em & Hm).
    destruct (after (Leaf x') p) as [c|].
    + rewrite Hn. cbn [size Nat.sub]. by rewrite Nat.sub_0_r.
    + destruct Hn as [c Hn]. rewrite Hn in Em |- *. injection Em as <-. exists c.
      split; [done|]. cbn. by rewrite app_nil_r.
Qed.

Lemma walk_rest t p a st t' a' st' tr fuel :
  proper_after p -> Forall P (leaves_after p) -> visit_rest t p a st = Some (t', a', st', tr) -> (size_after p <= fuel)%nat ->
  match after t p with
  | Some c => exists c', root c' = t' /\
              walk preorder_next body fuel c a st = Some (c', a', false, st', tr)
  | None => t' = plug t p /\ a' = a /\ st' = st /\ tr = []
  end.
Proof.
  revert t a st tr fuel. induction p as [|r d up IH|l d up IH]; intros t a st tr fuel Hp HP Hv Hf.
  - cbv [visit_rest mret CallM_ret] in Hv. by injection Hv as <- <- <- <-.
  - destruct Hp as [Hr Hu]. cbn [visit_rest size_after after leaves_after] in *.
    apply Forall_app in HP as [Pr Pu].
    apply bind_inv in Hv as ([r' a1] & st1 & tr1 & [? ?] & ? & tr2 & E1 & Hv & [= <- <- <- ->]).
    pose proof (walk_visit r (Right t d up) _ _ _ _ _ _ fuel Hr Pr E1 ltac:(lia)) as W. cbn [after] in W.
    specialize (IH (Node t r' d) a1 st1 tr2 (fuel - size r)%nat Hu Pu Hv ltac:(lia)).
    destruct (after (Node t r' d) up) as [c|].
    + destruct IH as (c' & Hc & E). exists c'. split; [done|]. by rewrite W, E.
    + destruct IH as (-> & -> & -> & ->). destruct W as (c & Hc & E). exists c.
      split; [done|]. by rewrite E, app_nil_r.
  - by apply IH.
Qed.

(** A walk from any position. *)
Lemma walk_from t p a st t1 a1 st1 tr1 t' a' st' tr fuel :
  proper t -> proper_after p -> Forall P (leaves t) -> Forall P (leaves_after p) ->
  visit t p a st = Some (t1, a1, st1, tr1) ->
  visit_rest t1 p a1 st1 = Some (t', a', st', tr) ->
  (size t + size_after p <= fuel)%nat ->
  exists c, tree c = Some t' /\
    walk preorder_next body fuel (mkCursor t p) a st = Some (c, a', false, st', tr1 ++ tr).
Proof.
  intros Ht Hp Pt Pp Hv Hr Hf.
  pose proof (walk_visit t p a st t1 a1 st1 tr1 fuel Ht Pt Hv ltac:(lia)) as W.
  pose proof (walk_rest t1 p a1 st1 t' a' st' tr (fuel - size t)%nat Hp Pp Hr ltac:(lia)) as R.
  destruct (after t1 p) as [c|].
  - destruct R as (c' & Hc & E). exists c'. rewrite W, E. by rewrite tree_root, Hc.
  - destruct R as (-> & -> & -> & ->). destruct W as (c & Hc & E). exists c.
    by rewrite E, app_nil_r, tree_root, Hc.
Qed.

(** After a round on a position: what is below it, and the rest. *)
Lemma walk_below t p a st t1 a1 st1 tr1 t' a' st' tr fuel :
  proper t -> proper_after p -> Forall P (leaves t) -> Forall P (leaves_after p) ->
  visit_below t p a st = Some (t1, a1, st1, tr1) ->
  visit_rest t1 p a1 st1 = Some (t', a', st', tr) ->
  (size t + size_after p <= fuel)%nat ->
  exists c, tree c = Some t' /\
    match preorder_next (mkCursor t p) with
    | Some (Ok c) => walk preorder_next body fuel c a st
    | Some (Err c) => Some (c, a, false, st, [])
    | None => None
    end = Some (c, a', false, st', tr1 ++ tr).
Proof.
  intros Ht Hp Pt Pp Hv Hr Hf. destruct t as [|l r d|x]; [done| |].
  - cbn [proper leaves visit_below size] in *. destruct Ht as [Hl Hr']. apply Forall_app in Pt as [Pl Pr].
    apply bind_inv in Hv as ([l' a2] & st2 & tr2 & ? & ? & tr3 & E1 & Hv & [= <- -> ->]).
    apply bind_inv in Hv as ([r' a3] & st3 & tr4 & ? & ? & tr5 & E2 & Hv & [= <- -> ->]).
    cbv [mret CallM_ret] in Hv. injection Hv as <- <- <- <-. cbn [preorder_next is_leaf it go_left path].
    pose proof (walk_visit l (Left r d p) _ _ _ _ _ _ fuel Hl Pl E1 ltac:(lia)) as W1. cbn [after] in W1.
    destruct (walk_from r (Right l' d p) _ _ _ _ _ _ t' a' st' tr (fuel - size l)%nat Hr'
                Hp Pr Pp E2 Hr ltac:(cbn; lia))
      as (c & Hc & W2).
    exists c. split; [done|]. rewrite W1, W2. cbn. by rewrite !app_nil_r, !app_assoc.
  - cbv [visit_below mret CallM_ret] in Hv. injection Hv as <- <- <- <-.
    pose proof (walk_rest (Leaf x) p a st t' a' st' tr fuel Hp Pp Hr ltac:(cbn in Hf; lia)) as R.
    pose proof (preorder_next_leaf x p) as Hn.
    destruct (preorder_next_total (mkCursor (Leaf x) p)) as (m & Em & Hm).
    destruct (after (Leaf x) p) as [c|].
    + destruct R as (c' & Hc & E). exists c'. rewrite Hn. by rewrite tree_root, Hc, E.
    + destruct R as (-> & -> & -> & ->). destruct Hn as [c Hn]. rewrite Hn in Em |- *.
      injection Em as <-. exists c. cbn [moved] in Hm. by rewrite tree_root, Hm.
Qed.

End Visit.

Lemma walk_tree_visit {A} (body : PCursor -> A -> M (PCursor * A * bool)) t a st t' a' st' tr :
  in_place body -> proper t -> visit body t Top a st = Some (t', a', st', tr) ->
  exists c, tree c = Some t' /\ walk_tree preorder_next body t a st = Some (c, a', false, st', tr).
Proof.
  intros Hin Ht Hv. unfold walk_tree.
  destruct (walk_from body _ Hin t Top a st t' a' st' tr t' a' st' [] (size t)) as (c & Hc & E);
    try done; [by apply Forall_true|cbn; lia|]. exists c. by rewrite app_nil_r in E.
Qed.

(** A stretch of a walk where the body only updates what it carries. *)
Lemma walk_prefix {A} next (body : PCursor -> A -> M (PCursor * A * bool)) (g : A -> PCursor -> A)
    (I : A -> Prop) pre c0 post fuel c a st :
  visits next c (pre ++ c0 :: post) -> I a ->
  (forall c a, c ∈ pre -> I a -> body c a st = Some (c, g a c, false, st, []) /\ I (g a c)) ->
  walk next body (length pre + fuel) c a st = walk next body fuel c0 (fold_left g pre a) st.
Proof.
  revert c a. induction pre as [|c1 pre IH]; intros c a V Ha Hb.
  - cbn in V |- *. by inversion V; subst.
  - assert (c = c1) as -> by (by inversion V). cbn [app length Nat.add fold_left].
    destruct (Hb c1 a ltac:(left) Ha) as [Hc1 Ha1].
    rewrite (walk_round _ _ _ _ _ _ _ _ _ _ Hc1).
    cbn in V. inversion V as [? ? E Heq|? c' ? E V' Heq]; subst; [by destruct pre|].
    rewrite E, after_calls_nil. apply IH; [done|done|]. intros. apply Hb; [by right|done].
Qed.

(** The positions before a subtree, and the panes among them. *)
Definition leaf_labels (cs : list PCursor) : list PaneId :=
  omap (fun c => match it c with Leaf q => Some q | _ => None end) cs.

Lemma leaf_labels_positions t p : leaf_labels (positions t p) = leaves t.
Proof.
  unfold leaf_labels. revert p. induction t as [|l IHl r IHr d|q]; intros p; [done| |done].
  cbn. by rewrite omap_app, IHl, IHr.
Qed.

Lemma positions_plug t p : exists pre post,
  positions (plug t p) Top = pre ++ positions t p ++ post /\ leaf_labels pre = leaves_before p.
Proof.
  revert t. induction p as [|r d up IH|l d up IH]; intros t.
  - exists [], []. by rewrite app_nil_r.
  - destruct (IH (Node t r d)) as (pre & post & E & L).
    exists (pre ++ [mkCursor (Node t r d) up]), (positions r (Right t d up) ++ post).
    cbn [plug leaves_before]. rewrite E. split; [cbn; by rewrite <- !app_assoc|].
    unfold leaf_labels in *. by rewrite omap_app, L, app_nil_r.
  - destruct (IH (Node l t d)) as (pre & post & E & L).
    exists (pre ++ mkCursor (Node l t d) up :: positions l (Left t d up)), post.
    cbn [plug leaves_before]. rewrite E. split; [cbn; by rewrite <- !app_assoc|].
    rewrite <- (leaf_labels_positions l (Left t d up)).
    unfold leaf_labels in *. by rewrite omap_app, L.
Qed.

Lemma size_plug t p : (size t + size_after p <= size (plug t p))%nat.
Proof.
  revert t. induction p as [|r d up IH|l d up IH]; intros t; cbn; [lia| |];
    [specialize (IH (Node t r d))|specialize (IH (Node l t d))]; cbn in IH; lia.
Qed.

(** ** Walks in postorder: mirror images *)

Definition mirror_body {A} (body : PCursor -> A -> M (PCursor * A * bool))
    (c : PCursor) (a : A) : M (PCursor * A * bool) :=
  '(c', a', stop) ← body (mirror_cursor c) a; mret (mirror_cursor c', a', stop).

Lemma mirror_body_run {A} (body : PCursor -> A -> M (PCursor * A * bool)) c a st :
  mirror_body body (mirror_cursor c) a st =
  match body c a st with
  | Some (c', a', stop, st', tr) => Some (mirror_cursor c', a', stop, st', tr)
  | None => None
  end.
Proof.
  unfold mirror_body. rewrite mirror_cursor_involutive. cbv [mbind CallM_bind mret CallM_ret].
  destruct (body c a st) as [[[[[c1 a1] stop] st1] tr1]|]; [|done]. by rewrite app_nil_r.
Qed.

Lemma walk_mirror {A} (body : PCursor -> A -> M (PCursor * A * bool)) fuel c a st :
  walk postorder_next body fuel c a st =
  match walk preorder_next (mirror_body body) fuel (mirror_cursor c) a st with
  | Some (c', a', stop, st', tr) => Some (mirror_cursor c', a', stop, st', tr)
  | None => None
  end.
Proof.
  revert c a st. induction fuel as [|fuel IH]; intros c a st; [done|]. cbn [walk].
  cbv [mbind CallM_bind mret CallM_ret]. rewrite mirror_body_run.
  destruct (body c a st) as [[[[[c1 a1] stop] st1] tr1]|]; [|done].
  destruct stop; [cbn; rewrite mirror_cursor_involutive; by rewrite ?app_nil_r|].
  cbv [lift]. pose proof (postorder_mirror (mirror_cursor c1)) as Hm.
  rewrite mirror_cursor_involutive in Hm. rewrite Hm.
  destruct (preorder_next (mirror_cursor c1)) as [[c2|c2]|]; [|done|done]. cbn [mirror_moved].
  rewrite IH, mirror_cursor_involutive.
  destruct (walk preorder_next _ fuel c2 a1 st1) as [[[[[c3 a3] s3] st3] tr3]|]; [|done].
  done.
Qed.
