(* ===== verification/TabProps.v ===== *)
(** The theorems on a tab: its lists of panes and splits are the layout of its
    tree, resizing keeps the layout, and what the operations that change the
    tree do to its panes. *)

From Stdlib Require Import ZArith Lia String.
From stdpp Require Import base numbers list option gmap.
From S2P Require Import Prelude CallMonad BinTree TermSize PaneTree Tab TabWalk.
Local Open Scope Z_scope.

Lemma complete_proper t : complete t -> proper t.
Proof. induction t as [|lf IHl rt IHr [data|]|p]; cbn; tauto. Qed.

(** ** The lists of panes and of splits *)

(** Every node above the position has its sizes. *)
Fixpoint complete_path (p : Path PaneId SplitDirectionAndSize) : Prop :=
  match p with
  | Top => True
  | Left r d up => d <> None /\ complete r /\ complete_path up
  | Right l d up => d <> None /\ complete l /\ complete_path up
  end.

(** The corner and the size of a position. *)
Fixpoint place (root_size : TerminalSize) (p : Path PaneId SplitDirectionAndSize)
  : Z * Z * TerminalSize :=
  match p with
  | Left _ (Some d) up => let '(x, y, _) := place root_size up in (x, y, first d)
  | Right _ (Some d) up =>
      let '(x, y, _) := place root_size up in (x + left_of_second d, y + top_of_second d, second d)
  | _ => (0, 0, root_size)
  end.

Lemma path_items_some (c : PCursor) : exists items, path_items c = Some items.
Proof.
  unfold path_items. destruct (parents_depth (S (depth (path c))) (path c)) as (xs & E & _); [lia|].
  unfold path_to_root. eauto.
Qed.

Lemma parents_step fuel p items :
  parents (S fuel) p = Some items ->
  match parent_next (L:=PaneId) (N:=SplitDirectionAndSize) p with
  | None => items = []
  | Some (x, up) => exists items', items = x :: items' /\ parents fuel up = Some items'
  end.
Proof.
  cbn [parents]. destruct (parent_next p) as [[x up]|]; [|by intros [= <-]].
  destruct (parents fuel up) as [items'|]; [|done]. intros [= <-]. eauto.
Qed.

Lemma leaf_fold root_size p fuel items l0 t0 (ps : option TerminalSize) :
  complete_path p -> (depth p < fuel)%nat -> parents fuel p = Some items ->
  fold_left leaf_step items (l0, t0, ps) =
  (l0 + fst (fst (place root_size p)), t0 + snd (fst (place root_size p)),
   match ps, p with
   | Some s, _ => Some s
   | None, Top => None
   | None, _ => Some (snd (place root_size p))
   end).
Proof.
  revert fuel items l0 t0 ps. induction p as [|r d up IH|l d up IH];
    intros fuel items l0 t0 ps Hp Hf E; (destruct fuel as [|fuel]; [lia|]).
  - apply parents_step in E. cbn in E. subst. cbn. by rewrite !Z.add_0_r; destruct ps.
  - destruct d as [d|]; [|by destruct Hp]. destruct Hp as (_ & _ & Hp). cbn [depth] in Hf.
    apply parents_step in E as (items' & -> & E). cbn [fold_left leaf_step node_step].
    rewrite (IH fuel) by (done || lia). cbn [place]. destruct (place root_size up) as [[x y] s].
    by destruct ps.
  - destruct d as [d|]; [|by destruct Hp]. destruct Hp as (_ & _ & Hp). cbn [depth] in Hf.
    apply parents_step in E as (items' & -> & E). cbn [fold_left leaf_step node_step].
    rewrite (IH fuel) by (done || lia). cbn [place]. destruct (place root_size up) as [[x y] s].
    cbn [fst snd]. destruct ps; f_equal; f_equal; lia.
Qed.

Lemma leaf_place_ok root_size (c : PCursor) items :
  complete_path (path c) -> path_items c = Some items ->
  let '(lft, top, ps) := leaf_place items in
  (lft, top, default root_size ps) = place root_size (path c).
Proof.
  intros Hp E. unfold leaf_place.
  rewrite (leaf_fold root_size (path c) _ items 0 0 None Hp (Nat.lt_succ_diag_r _) E).
  rewrite !Z.add_0_l. by destruct (path c) as [|r [d|] up|l [d|] up]; cbn;
    try destruct (place root_size up) as [[x y] s].
Qed.

(** The loop of [iter_splits] computes the same corner. *)
Lemma node_place_leaf items : node_place items = (leaf_place items).1.
Proof.
  unfold node_place, leaf_place.
  enough (H : forall l t ps, fold_left node_step items (l, t) =
                             (fold_left leaf_step items (l, t, ps)).1) by apply H.
  induction items as [|[b [d|]] items IH]; intros l t ps; cbn [fold_left leaf_step node_step]; [done| |destruct b; apply IH].
  destruct b; apply IH.
Qed.

Lemma node_place_ok (c : PCursor) items root_size :
  complete_path (path c) -> path_items c = Some items ->
  node_place items = (place root_size (path c)).1.
Proof.
  intros Hp E. rewrite node_place_leaf. pose proof (leaf_place_ok root_size c items Hp E) as H.
  destruct (leaf_place items) as [[l t] ps]. by rewrite <- H.
Qed.

(** What the walk of [iter_panes_impl] adds for a subtree. *)
Fixpoint positioned (active_idx : nat) (z : option PaneId) (t : PTree) (s : TerminalSize)
    (x y : Z) (n : nat) : list PositionedPane :=
  match t with
  | Empty | Node _ _ None => []
  | Leaf p => [mkPositioned n (n =? active_idx)%nat (bool_decide (z = Some p)) x y
                 (cols s) (pixel_width s) (rows s) (pixel_height s) p]
  | Node lf rt (Some d) =>
      positioned active_idx z lf (first d) x y n ++
      positioned active_idx z rt (second d) (x + left_of_second d) (y + top_of_second d)
        (n + num_leaves lf)
  end.

Lemma positioned_length ai z t s x y n :
  complete t -> length (positioned ai z t s x y n) = num_leaves t.
Proof.
  revert s x y n. induction t as [|lf IHl rt IHr [d|]|p]; intros s x y n H; try done.
  cbn. rewrite length_app. destruct H. by rewrite IHl, IHr.
Qed.

Lemma iter_panes_body_in_place ai z s : in_place (iter_panes_body ai z s).
Proof.
  intros c a st c' a' stop st' tr _. unfold iter_panes_body, leaf_mut.
  destruct c as [[|l r d|p] q]; cbn [it].
  1,2: cbv [mret CallM_ret]; by intros [= <- <- <- <- <-].
  destruct (path_items_some (mkCursor (Leaf p) q)) as [items E]. mrun. rewrite E.
  destruct (leaf_place items) as [[? ?] ?]. by intros [= <- <- <- <- <-].
Qed.

Lemma visit_positioned ai z root_size t p panes st :
  complete t -> complete_path p ->
  let '(x, y, s) := place root_size p in
  visit (iter_panes_body ai z root_size) t p panes st =
    Some (t, panes ++ positioned ai z t s x y (length panes), st, []).
Proof.
  revert p panes. induction t as [|lf IHl rt IHr [d|]|q]; intros p panes Ht Hp; try done.
  - destruct Ht as [Hl Hr].
    specialize (IHl (Left rt (Some d) p) panes Hl (conj (Some_ne_None d) (conj Hr Hp))).
    specialize (IHr (Right lf (Some d) p)). cbn [place] in *.
    destruct (place root_size p) as [[x y] s]. cbn [positioned visit].
    erewrite silent_run by reflexivity. cbn [it].
    erewrite silent_run by exact IHl. cbv beta iota.
    erewrite silent_run by (apply IHr; [done|by split_and!]). cbv [mret CallM_ret].
    by rewrite app_assoc, length_app, positioned_length by done.
  - cbn [visit positioned]. destruct (path_items_some (mkCursor (Leaf q) p)) as [items E].
    pose proof (leaf_place_ok root_size (mkCursor (Leaf q) p) items Hp E) as Hpl. cbn [path] in Hpl.
    unfold iter_panes_body, leaf_mut. cbn [it]. mrun. rewrite E.
    destruct (leaf_place items) as [[l t0] ps]. destruct (place root_size p) as [[x y] s].
    by injection Hpl as -> -> ->.
Qed.

(** A loop that only looks at the tree. *)
Lemma browse_run {A B} (body : PCursor -> A -> M (PCursor * A * bool)) a a' st t
    (K : PCursor * A * bool -> M B) R :
  in_place body -> complete t -> pane st = Some t ->
  (forall st, visit body t Top a st = Some (t, a', st, [])) ->
  (forall c, tree c = Some t -> K (c, a', false) (set_pane None st) = R) ->
  (t ← take_pane; walk_tree preorder_next body t a ≫= K) st = R.
Proof.
  intros Hin Ht Hp Hv HK.
  destruct (walk_tree_visit body t a (set_pane None st) t a' _ [] Hin (complete_proper _ Ht) (Hv _))
    as (c & Hc & E).
  erewrite bind_run by (unfold take_pane; mrun; by rewrite Hp).
  erewrite silent_run by exact E. rewrite HK by done. by destruct R as [[[]]|].
Qed.

Lemma put_back {B} (k : M B) st t (c : PCursor) :
  pane st = Some t -> tree c = Some t -> (replace_tree c;; k) (set_pane None st) = k st.
Proof.
  intros Hp Hc. unfold replace_tree, replace_pane. mrun. rewrite Hc.
  replace (set_pane (Some t) (set_pane None st)) with st by (destruct st; cbn in *; by subst).
  by destruct (k st) as [[[]]|].
Qed.

Lemma iter_panes_ok st t :
  pane st = Some t -> complete t ->
  silent iter_panes_ignoring_zoom st (positioned (active st) (zoomed st) t (tab_size st) 0 0 0).
Proof.
  intros Hp Ht. unfold iter_panes_ignoring_zoom, iter_panes_impl, silent.
  do 3 (erewrite silent_run by reflexivity).
  eapply browse_run; [apply iter_panes_body_in_place|exact Ht|exact Hp| |].
  - intros st'. exact (visit_positioned (active st) (zoomed st) (tab_size st) t Top [] st' Ht I).
  - intros c Hc. by rewrite (put_back _ _ t).
Qed.

Lemma positioned_panes ai z t s x y n : complete t -> map pp_pane (positioned ai z t s x y n) = leaves t.
Proof.
  revert s x y n. induction t as [|lf IHl rt IHr [d|]|p]; intros s x y n H; try done.
  destruct H. cbn. by rewrite map_app, IHl, IHr.
Qed.

(** The pane with the focus. *)
Definition focused (st : TabInner) (t : PTree) : option PaneId :=
  match zoomed st with Some z => Some z | None => leaves t !! active st end.

Lemma get_active_ok st t :
  pane st = Some t -> complete t -> silent get_active_pane st (focused st t).
Proof.
  intros Hp Ht. unfold get_active_pane, focused, silent. erewrite silent_run by reflexivity.
  destruct (zoomed st) as [z|] eqn:Ez; [done|].
  erewrite silent_run by (by apply iter_panes_ok). erewrite silent_run by reflexivity.
  cbv [mret CallM_ret]. rewrite <- (positioned_panes (active st) (zoomed st) t (tab_size st) 0 0 0 Ht).
  by rewrite list_lookup_fmap.
Qed.

Lemma on_active_run `{TabEnv} f st t :
  pane st = Some t -> complete t ->
  on_active_pane f st = match focused st t with Some p => f p st | None => Some (tt, st, []) end.
Proof.
  intros Hp Ht. unfold on_active_pane. erewrite silent_run by (by apply get_active_ok).
  by destruct (focused st t).
Qed.

(** The splits of a subtree, numbered in preorder. *)
Fixpoint num_splits (t : PTree) : nat :=
  match t with Node l r _ => S (num_splits l + num_splits r) | _ => 0 end.

Fixpoint split_positions (t : PTree) (x y : Z) (n : nat) : list PositionedSplit :=
  match t with
  | Node lf rt (Some d) =>
      mkPosSplit n (direction d)
        (match direction d with Horizontal => x + cols (first d) | Vertical => x end)
        (match direction d with Horizontal => y | Vertical => y + rows (first d) end)
        (if decide (direction d = Horizontal) then height d else width d) ::
      split_positions lf x y (S n) ++
      split_positions rt (x + left_of_second d) (y + top_of_second d) (S n + num_splits lf)
  | _ => []
  end.

Lemma iter_splits_body_node lf rt d p n ds root_size st :
  complete_path p ->
  let '(x, y, _) := place root_size p in
  silent (iter_splits_body (mkCursor (Node lf rt (Some d)) p) (n, ds)) st
    (mkCursor (Node lf rt (Some d)) p,
     (S n, ds ++ [mkPosSplit n (direction d)
        (match direction d with Horizontal => x + cols (first d) | Vertical => x end)
        (match direction d with Horizontal => y | Vertical => y + rows (first d) end)
        (if decide (direction d = Horizontal) then height d else width d)]), false).
Proof.
  intros Hp. destruct (path_items_some (mkCursor (Node lf rt (Some d)) p)) as [items E].
  pose proof (node_place_ok (mkCursor (Node lf rt (Some d)) p) items root_size Hp E) as Hn.
  cbn [path] in Hn. unfold silent, iter_splits_body. cbn [is_leaf it]. mrun. rewrite E, Hn.
  destruct (place root_size p) as [[x y] s]. cbn. by destruct (direction d).
Qed.

Lemma iter_splits_body_in_place : in_place iter_splits_body.
Proof.
  intros c [n ds] st c' a' stop st' tr _. unfold iter_splits_body. destruct (is_leaf c) eqn:El.
  { cbv [mret CallM_ret]. intros [= <- <- <- <- <-]. split_and!; try done. by destruct (it c). }
  destruct (path_items_some c) as [items E]. mrun. rewrite E. destruct (node_place items) as [x y].
  destruct c as [[|l r [d|]|q] p]; cbn; try destruct (direction d);
    intros [= <- <- <- <- <-]; by split_and!.
Qed.

Lemma visit_splits root_size t p n ds st :
  complete t -> complete_path p ->
  let '(x, y, _) := place root_size p in
  visit iter_splits_body t p (n, ds) st =
    Some (t, ((n + num_splits t)%nat, ds ++ split_positions t x y n), st, []).
Proof.
  revert p n ds. induction t as [|lf IHl rt IHr [d|]|q]; intros p n ds Ht Hp; try done.
  - destruct Ht as [Hl Hr]. pose proof (iter_splits_body_node lf rt d p n ds root_size st Hp) as Hb.
    destruct (place root_size p) as [[x y] s] eqn:Epl.
    set (ds1 := ds ++ _) in Hb.
    specialize (IHl (Left rt (Some d) p) (S n) ds1 Hl (conj (Some_ne_None d) (conj Hr Hp))).
    specialize (IHr (Right lf (Some d) p) (S n + num_splits lf)%nat
      (ds1 ++ split_positions lf x y (S n)) Hr (conj (Some_ne_None d) (conj Hl Hp))).
    cbn [place] in *. rewrite Epl in *. cbn [split_positions visit num_splits].
    erewrite silent_run by exact Hb. cbn [it].
    erewrite silent_run by exact IHl. cbv beta iota. erewrite silent_run by exact IHr. cbv [mret CallM_ret].
    subst ds1. rewrite <- !app_assoc. do 3 f_equal. f_equal. f_equal. lia.
  - destruct (place root_size p) as [[x y] s]. cbn. by rewrite Nat.add_0_r, app_nil_r.
Qed.

Lemma iter_splits_ok st t :
  pane st = Some t -> complete t -> zoomed st = None ->
  silent iter_splits st (split_positions t 0 0 0).
Proof.
  intros Hp Ht Hz. unfold iter_splits, silent. erewrite silent_run by reflexivity. rewrite Hz.
  eapply browse_run; [apply iter_splits_body_in_place|exact Ht|exact Hp| |].
  - intros st'. exact (visit_splits (tab_size st) t Top 0 [] st' Ht I).
  - intros c Hc. cbv beta iota. by rewrite (put_back _ _ t).
Qed.

(** *** The lists are the layout *)

Definition pane_rect (q : PositionedPane) : PaneId * Rect :=
  (pp_pane q, mkRect (pp_left q) (pp_top q) (pp_width q) (pp_height q)).

Definition split_rect (s : PositionedSplit) : Rect :=
  match ps_direction s with
  | Horizontal => mkRect (ps_left s) (ps_top s) 1 (ps_size s)
  | Vertical => mkRect (ps_left s) (ps_top s) (ps_size s) 1
  end.

Lemma positioned_rects ai z t s x y n :
  map pane_rect (positioned ai z t s x y n) = pane_rects t s x y.
Proof.
  revert s x y n. induction t as [|lf IHl rt IHr [d|]|p]; intros s x y n; try done.
  cbn [positioned pane_rects]. by rewrite map_app, IHl, IHr.
Qed.

Lemma split_positions_rects t x y n :
  map split_rect (split_positions t x y n) = divider_rects t x y.
Proof.
  revert x y n. induction t as [|lf IHl rt IHr [d|]|p]; intros x y n; try done.
  cbn [split_positions divider_rects map]. rewrite map_app, IHl, IHr.
  f_equal. unfold split_rect. cbn. by destruct (direction d).
Qed.

Lemma positioned_index ai z t s x y n i q :
  complete t -> positioned ai z t s x y n !! i = Some q ->
  pp_index q = (n + i)%nat /\ pp_is_active q = (n + i =? ai)%nat /\
  pp_is_zoomed q = bool_decide (z = Some (pp_pane q)).
Proof.
  revert s x y n i. induction t as [|lf IHl rt IHr [d|]|p]; intros s x y n i Ht H; try done.
  - destruct Ht as [Hl Hr]. cbn [positioned] in H. apply lookup_app_Some in H as [H|[Hi H]].
    + by apply IHl in H.
    + rewrite positioned_length in H, Hi by done. apply IHr in H as (H1 & H2 & H3); [|done].
      replace (n + i)%nat with (n + num_leaves lf + (i - num_leaves lf))%nat by lia. done.
  - destruct i; [|done]. injection H as <-. cbn. by rewrite Nat.add_0_r.
Qed.

Lemma positioned_pixels ai z t s x y n :
  map (fun q => (pp_pane q, (pp_pixel_width q, pp_pixel_height q))) (positioned ai z t s x y n) =
  map (fun '(p, s) => (p, (pixel_width s, pixel_height s))) (collect_pane_sizes t s).
Proof.
  revert s x y n. induction t as [|lf IHl rt IHr [d|]|p]; intros s x y n; try done.
  cbn [positioned collect_pane_sizes]. by rewrite !map_app, IHl, IHr.
Qed.

Lemma split_positions_length t x y n : complete t -> length (split_positions t x y n) = num_splits t.
Proof.
  revert x y n. induction t as [|lf IHl rt IHr [d|]|p]; intros x y n H; try done.
  destruct H. cbn. rewrite length_app. by rewrite IHl, IHr.
Qed.

Lemma split_positions_index t x y n i s :
  complete t -> split_positions t x y n !! i = Some s -> ps_index s = (n + i)%nat.
Proof.
  revert x y n i. induction t as [|lf IHl rt IHr [d|]|p]; intros x y n i Ht H; try done.
  destruct Ht as [Hl Hr]. cbn [split_positions] in H. destruct i as [|i].
  { injection H as <-. cbn. lia. }
  cbn in H. apply lookup_app_Some in H as [H|[Hi H]].
  - apply IHl in H; [|done]. lia.
  - rewrite split_positions_length in H, Hi by done. apply IHr in H; [|done]. lia.
Qed.

(** C5: the panes and the splits that a tab lists are the rectangles of its tree's
    layout, numbered in order, with the pixel sizes of the splits; a tree whose
    sizes agree ([fits]) makes them tile the tab: each of its cells belongs to
    exactly one pane or divider, and nothing lies outside. *)
Theorem tab_layout st t :
  pane st = Some t -> zoomed st = None -> fits t (tab_size st) ->
  exists panes splits,
    iter_panes st = Some (panes, st, []) /\ iter_splits st = Some (splits, st, []) /\
    map pane_rect panes = pane_rects t (tab_size st) 0 0 /\
    map split_rect splits = divider_rects t 0 0 /\
    map (fun q => (pp_pane q, (pp_pixel_width q, pp_pixel_height q))) panes =
      map (fun '(p, s) => (p, (pixel_width s, pixel_height s))) (collect_pane_sizes t (tab_size st)) /\
    (forall i q, panes !! i = Some q ->
       pp_index q = i /\ pp_is_active q = (i =? active st)%nat /\ pp_is_zoomed q = false) /\
    (forall i s, splits !! i = Some s -> ps_index s = i) /\
    forall x y,
      (hits x y (map snd (map pane_rect panes)) + hits x y (map split_rect splits))%nat =
      if rng 0 (cols (tab_size st) - 1) x && rng 0 (rows (tab_size st) - 1) y then 1%nat else 0%nat.
Proof.
  intros Hp Hz Hf. pose proof (fits_complete _ _ Hf) as Ht.
  exists (positioned (active st) (zoomed st) t (tab_size st) 0 0 0), (split_positions t 0 0 0).
  split_and!.
  - unfold iter_panes, iter_panes_impl. do 2 (erewrite silent_run by reflexivity).
    rewrite Hz. pose proof (iter_panes_ok st t Hp Ht) as H.
    unfold silent, iter_panes_ignoring_zoom, iter_panes_impl in H.
    do 2 (erewrite silent_run in H by reflexivity). by rewrite Hz in H.
  - by apply iter_splits_ok.
  - apply positioned_rects.
  - apply split_positions_rects.
  - apply positioned_pixels.
  - intros i q H. apply positioned_index in H as (H1 & H2 & H3); [|done].
    split_and!; [done|done|]. rewrite H3, Hz. by apply bool_decide_eq_false.
  - intros i s H. by apply split_positions_index in H.
  - intros x y. rewrite positioned_rects, split_positions_rects, layout_tiles, hits_one by done.
    replace (covers x y _) with (rng 0 (cols (tab_size st) - 1) x && rng 0 (rows (tab_size st) - 1) y);
      [done|].
    apply eq_bool_prop_intro. rewrite !Is_true_true, covers_spec, andb_true_iff, !rng_spec. cbn. lia.
Qed.

(** ** Resizing *)

Lemma apply_sizes_collect t s : apply_sizes_from_splits t s = collect_pane_sizes t s.
Proof. done. Qed.

Section Resizing.
Context `{TabEnv}.

Definition resize_calls (t : PTree) (s : TerminalSize) : list Call :=
  map (fun '(p, s) => Resize p s) (collect_pane_sizes t s).

Definition batch_calls (st : TabInner) (t : PTree) (s : TerminalSize) : list Call :=
  match focused st t with
  | Some p => [SendResizeBatch p (tab_id st) (collect_pane_sizes t s)]
  | None => []
  end.

Definition notify_calls (id : TabId) : list Call := if has_mux then [NotifyTabResized id] else [].

Lemma notify_run st : notify_tab_resized st = Some (tt, st, notify_calls (tab_id st)).
Proof.
  unfold notify_tab_resized, try_notify, notify_calls. erewrite silent_run by reflexivity.
  by destruct has_mux.
Qed.

Lemma resize_panes_run t s st :
  resize_panes (apply_sizes_from_splits t s) st = Some (tt, st, resize_calls t s).
Proof. unfold resize_panes, resize_calls. by rewrite emits_run, apply_sizes_collect. Qed.

Lemma send_batch_run st t :
  pane st = Some t -> complete t ->
  send_resize_batch st = Some (tt, st, batch_calls st t (tab_size st)).
Proof.
  intros Hp Ht. unfold send_resize_batch.
  erewrite silent_run by (unfold silent, the_pane; mrun; by rewrite Hp).
  do 2 (erewrite silent_run by reflexivity). rewrite (on_active_run _ st t Hp Ht).
  unfold batch_calls. by destruct (focused st t).
Qed.

(** The size that [resize_impl] takes for a request. *)
Definition constrained (t : PTree) (s : TerminalSize) : TerminalSize :=
  let c := Z.max (cols s) (min_along Horizontal t) in
  let r := Z.max (rows s) (min_along Vertical t) in
  mkSize r c (c * (pixel_width s / cols s)) (r * (pixel_height s / rows s)) (dpi s).

Definition cell_of (s : TerminalSize) : TerminalSize :=
  mkSize 1 1 (pixel_width s / cols s) (pixel_height s / rows s) (dpi s).

Lemma resize_run st t s t1 t2 send :
  pane st = Some t -> complete t -> zoomed st = None -> cols s <> 0 -> rows s <> 0 ->
  adjust_x_size t (cols (constrained t s) - cols (tab_size st)) (cell_of s) = Some t1 ->
  adjust_y_size t1 (rows (constrained t s) - rows (tab_size st)) (cell_of s) = Some t2 ->
  same_panes t t2 ->
  let t' := reconcile_tree_sizes t2 (constrained t s) in
  let st' := set_pane (Some t') (set_tab_size (constrained t s) st) in
  (debug_assertions = true -> collect_tree_invariant_errors t' (constrained t s) = []) ->
  resize_impl s send st =
    Some (tt, st', resize_calls t' (constrained t s) ++
                   (if send then batch_calls st' t' (constrained t s) ++ notify_calls (tab_id st)
                    else [])).
Proof.
  intros Hp Ht Hz Hc Hr E1 E2 Hs t' st' Hd. unfold resize_impl.
  rewrite (proj2 (Z.eqb_neq _ _) Hc), (proj2 (Z.eqb_neq _ _) Hr). cbn [orb].
  erewrite silent_run by reflexivity. rewrite Hz.
  assert (Ht' : complete t').
  { apply (same_complete t); [|done]. unfold t'. etransitivity; [exact Hs|apply reconcile_same]. }
  match goal with |- (?m ≫= _) _ = _ =>
    assert (Hm : m st = Some (tt, st', resize_calls t' (constrained t s) ++
                   (if send then batch_calls st' t' (constrained t s) else []))) end.
  { erewrite silent_run
      by (unfold silent, lift, cell_dimensions, usize_div;
          rewrite (proj2 (Z.eqb_neq _ _) Hc), (proj2 (Z.eqb_neq _ _) Hr); msimpl; done).
    fold (cell_of s). erewrite silent_run by (unfold silent, the_pane; mrun; by rewrite Hp).
    rewrite (surjective_pairing (compute_min_size t)). erewrite silent_run by reflexivity. cbv zeta.
    change (mkSize (Z.max (rows s) (snd (compute_min_size t))) _ _ _ _) with (constrained t s).
    erewrite silent_run by (apply lift_run; exact E1).
    erewrite silent_run by (apply lift_run; exact E2).
    rewrite modify_run. unfold replace_pane. rewrite modify_run. fold t'. change (set_pane _ _) with st'.
    erewrite bind_run by apply resize_panes_run.
    assert (Hdbg : (if debug_assertions then lift (Ev := Call) (debug_assert_tree_invariants t' (constrained t s))
                    else mret tt) st' = Some (tt, st', [])).
    { destruct debug_assertions; [|done]. unfold lift, debug_assert_tree_invariants.
      by rewrite Hd by done. }
    destruct send.
    - erewrite bind_run by (apply (send_batch_run st' t' eq_refl Ht')). by rewrite Hdbg, app_nil_r.
    - erewrite silent_run by reflexivity. by rewrite Hdbg. }
  rewrite (bind_run _ _ _ _ _ _ Hm). destruct send.
  - rewrite notify_run. by rewrite <- app_assoc.
  - cbv [mret CallM_ret]. by rewrite !app_nil_r.
Qed.

(** C9: making a tab larger keeps its sizes in agreement: no assertion fails, the
    panes and splits stay the same ones, the tab has exactly the size asked for,
    and the calls are a resize of every pane to its part of the new layout, the
    whole list sent once to the focused pane, and the notification. *)
Theorem resize_grows st t s :
  pane st = Some t -> zoomed st = None -> fits t (tab_size st) ->
  cols (tab_size st) <= cols s <= i64_max -> rows (tab_size st) <= rows s <= i64_max ->
  exists t' s' st', same_panes t t' /\ fits t' s' /\ same_cells s' s /\
    st' = set_pane (Some t') (set_tab_size s' st) /\
    resize s st = Some (tt, st', resize_calls t' s' ++ batch_calls st' t' s' ++ notify_calls (tab_id st)).
Proof.
  intros Hp Hz Hf Hc Hr.
  pose proof (fits_min Horizontal _ _ Hf) as M1. pose proof (fits_min Vertical _ _ Hf) as M2.
  pose proof (min_along_pos Horizontal t). pose proof (min_along_pos Vertical t). cbn [cells] in *.
  set (s' := constrained t s).
  assert (Es : cols s' = cols s /\ rows s' = rows s) by (unfold s', constrained; cbn [cols rows]; lia).
  destruct Es as [Ec Er].
  destruct (adjust_grows Horizontal (tree_depth t) (cell_of s) t (tab_size st)
    (set_cells Horizontal (cols s) (cell_of s) (tab_size st)) (cols s' - cols (tab_size st)))
    as (t1 & E1 & F1 & P1); [lia|done|lia|cbn [cells]; lia|split; cbn [cells across set_cells cols rows]; lia|].
  destruct (adjust_grows Vertical (tree_depth t1) (cell_of s) t1
    (set_cells Horizontal (cols s) (cell_of s) (tab_size st)) s' (rows s' - rows (tab_size st)))
    as (t2 & E2 & F2 & P2); [lia|exact F1|lia|cbn [cells set_cells rows]; lia
                            |split; cbn [cells across set_cells cols rows]; lia|].
  destruct (reconcile_fits_ok t2 s' s' 0 0 (conj eq_refl eq_refl) F2) as [F3 _].
  exists (reconcile_tree_sizes t2 s'), s', (set_pane (Some (reconcile_tree_sizes t2 s')) (set_tab_size s' st)).
  split_and!; [|done|done|done|].
  - transitivity t2; [by transitivity t1|apply reconcile_same].
  - unfold resize. rewrite (resize_run st t s t1 t2 true); try done; try lia.
    + by eapply fits_complete.
    + by transitivity t1.
    + intros _. by apply fits_no_errors.
Qed.

End Resizing.

(** ** Any resize returns *)

Section ResizeTotal.
Context `{TabEnv}.

(** whatever the sizes stored in its tree, a tab answers every resize: a size
    with an empty side changes nothing; a zoomed tab resizes the zoomed pane only;
    otherwise the tab takes the size asked for, raised to the minimum of its tree,
    and every pane is told its part, without a panic (in a release build, which has
    no debug assertions), and the panes and splits stay the same ones. *)
Theorem resize_total st t s send :
  pane st = Some t -> complete t -> debug_assertions = false ->
  exists st' calls t',
    resize_impl s send st = Some (tt, st', calls) /\ pane st' = Some t' /\ same_panes t t' /\
    (rows s = 0 \/ cols s = 0 -> st' = st /\ calls = []) /\
    (rows s <> 0 -> cols s <> 0 ->
       match zoomed st with
       | Some z => t' = t /\ tab_size st' = s /\
                   calls = Resize z s :: (if send then notify_calls (tab_id st) else [])
       | None => tab_size st' = constrained t s /\
                 calls = resize_calls t' (constrained t s) ++
                   (if send then batch_calls st' t' (constrained t s) ++ notify_calls (tab_id st)
                    else [])
       end).
Proof.
  intros Hp Ht Hd.
  destruct (Z.eq_dec (rows s) 0) as [Er|Er].
  { exists st, [], t. unfold resize_impl. rewrite Er. by split_and!. }
  destruct (Z.eq_dec (cols s) 0) as [Ec|Ec].
  { exists st, [], t. unfold resize_impl. rewrite Ec, orb_true_r. by split_and!. }
  destruct (zoomed st) as [z|] eqn:Ez.
  - exists (set_tab_size s st), (Resize z s :: (if send then notify_calls (tab_id st) else [])), t.
    unfold resize_impl. rewrite (proj2 (Z.eqb_neq _ _) Er), (proj2 (Z.eqb_neq _ _) Ec). cbn [orb].
    erewrite silent_run by reflexivity. rewrite Ez.
    erewrite bind_run by (rewrite modify_run; reflexivity).
    split_and!; [|done|done|tauto|done]. destruct send; [|done]. by rewrite notify_run.
  - destruct (adjust_x_total t (cols (constrained t s) - cols (tab_size st)) (cell_of s)) as (t1 & E1 & P1).
    destruct (adjust_y_total t1 (rows (constrained t s) - rows (tab_size st)) (cell_of s)) as (t2 & E2 & P2).
    eexists _, _, (reconcile_tree_sizes t2 (constrained t s)).
    rewrite (resize_run st t s t1 t2 send); try done; [|by transitivity t1|by rewrite Hd].
    split_and!; [done|done| |tauto|done].
    transitivity t2; [by transitivity t1|apply reconcile_same].
Qed.

End ResizeTotal.

(** ** Small tabs, for evaluation *)

Section Samples.

(** An environment without a mux, where every call succeeds. *)
Definition sample_env (mux debug : bool) : TabEnv := {|
  has_mux := mux;
  debug_assertions := debug;
  unzoom_on_switch_pane := true;
  get_dimensions := fun _ => mkSize 24 80 800 480 96;
  pane_resize_ok := fun _ _ => true;
  domain_id := fun p => p mod 10;
  pane_is_dead := fun _ => false;
  pane_in_mux := fun _ => true;
  has_cached_agent_restore_intent := fun _ => false;
  pane_can_close := fun _ _ => true;
  window_containing_tab := fun _ => Some 1
|}.

Definition sz (c r : Z) : TerminalSize := mkSize r c (c * 10) (r * 20) 96.

Definition hsplit (w1 w2 h : Z) (a b : PTree) : PTree :=
  Node a b (Some (mkSplit Horizontal (sz w1 h) (sz w2 h))).
Definition vsplit (h1 h2 w : Z) (a b : PTree) : PTree :=
  Node a b (Some (mkSplit Vertical (sz w h1) (sz w h2))).

Definition sample_tab (t : PTree) (s : TerminalSize) (active : nat) : TabInner :=
  mkTab 7 (Some t) s s active None "" false Recency_default.

(** [a | (b / c)] on 80 by 24 cells. *)
Definition three_panes : PTree :=
  hsplit 40 39 24 (Leaf 1) (vsplit 12 11 39 (Leaf 2) (Leaf 3)).

End Samples.

Lemma resize_total_witness :
  exists st' calls t',
    @resize_impl (sample_env true false) (sz 20 10) true (sample_tab three_panes (sz 80 24) 0) =
      Some (tt, st', calls) /\ pane st' = Some t' /\ same_panes three_panes t'.
Proof.
  destruct (@resize_total (sample_env true false) (sample_tab three_panes (sz 80 24) 0) three_panes
              (sz 20 10) true) as (st' & calls & t' & H1 & H2 & H3 & _); [done|cbn; tauto|done|].
  exists st', calls, t'. by split_and!.
Defined.

Lemma three_panes_fits : fits three_panes (sz 80 24).
Proof. cbn. split_and!; done || lia. Qed.

Lemma resize_grows_witness :
  exists t' s' st', same_panes three_panes t' /\ fits t' s' /\ same_cells s' (sz 100 50) /\
    st' = set_pane (Some t') (set_tab_size s' (sample_tab three_panes (sz 80 24) 0)) /\
    @resize (sample_env true true) (sz 100 50) (sample_tab three_panes (sz 80 24) 0) =
      Some (tt, st', resize_calls t' s' ++ batch_calls st' t' s' ++ @notify_calls (sample_env true true) 7).
Proof.
  apply (@resize_grows (sample_env true true) (sample_tab three_panes (sz 80 24) 0));
    [done|done|apply three_panes_fits|cbn; unfold i64_max; lia|cbn; unfold i64_max; lia].
Defined.

Lemma tab_layout_witness :
  exists panes splits,
    iter_panes (sample_tab three_panes (sz 80 24) 1) =
      Some (panes, sample_tab three_panes (sz 80 24) 1, []) /\
    iter_splits (sample_tab three_panes (sz 80 24) 1) =
      Some (splits, sample_tab three_panes (sz 80 24) 1, []) /\
    map pane_rect panes = [(1, mkRect 0 0 40 24); (2, mkRect 41 0 39 12); (3, mkRect 41 13 39 11)] /\
    map split_rect splits = [mkRect 40 0 1 24; mkRect 41 12 39 1].
Proof.
  destruct (tab_layout (sample_tab three_panes (sz 80 24) 1) three_panes) as
    (panes & splits & H1 & H2 & H3 & H4 & _); [done|done|apply three_panes_fits|].
  exists panes, splits. by split_and!.
Defined.
