(* ===== verification/TabSplit.v ===== *)
(** The operations that change the tree of a tab: splitting a pane, rotating the
    panes, removing one, and what goes wrong in their error paths. *)

From Stdlib Require Import ZArith Lia String.
From stdpp Require Import base numbers list option gmap.
From S2P Require Import Prelude CallMonad BinTree TermSize PaneTree Tab TabWalk TabProps.
Local Open Scope Z_scope.

(** ** A position and its part of the layout *)

(** The sizes above a position agree. *)
Fixpoint fits_path (root_size : TerminalSize) (p : Path PaneId SplitDirectionAndSize) : Prop :=
  match p with
  | Top => True
  | Left r d up =>
      match d with
      | Some d => splits (direction d) d (snd (place root_size up)) /\ fits r (second d)
      | None => False
      end /\ fits_path root_size up
  | Right l d up =>
      match d with
      | Some d => splits (direction d) d (snd (place root_size up)) /\ fits l (first d)
      | None => False
      end /\ fits_path root_size up
  end.

Lemma place_left root_size r d up : snd (place root_size (Left r (Some d) up)) = first d.
Proof. cbn. by destruct (place root_size up) as [[x y] s]. Qed.

Lemma place_right root_size l d up : snd (place root_size (Right l (Some d) up)) = second d.
Proof. cbn. by destruct (place root_size up) as [[x y] s]. Qed.

(** A tree fits exactly when what is under a position fits its part and so does
    everything around it. *)
Lemma fits_plug t p s : fits (plug t p) s <-> fits t (snd (place s p)) /\ fits_path s p.
Proof.
  revert t. induction p as [|r d up IH|l d up IH]; intros t; [cbn; tauto| |].
  - cbn [plug]. rewrite IH. destruct d as [d|]; [|cbn; tauto].
    rewrite fits_node, place_left. cbn [fits_path]. tauto.
  - cbn [plug]. rewrite IH. destruct d as [d|]; [|cbn; tauto].
    rewrite fits_node, place_right. cbn [fits_path]. tauto.
Qed.

Lemma complete_plug t p : complete (plug t p) <-> complete t /\ complete_path p.
Proof.
  revert t. induction p as [|r d up IH|l d up IH]; intros t; [cbn; tauto| |];
    cbn [plug complete_path]; rewrite IH; destruct d; cbn; intuition congruence.
Qed.

(** The entries of a subtree in the list of panes. *)
Lemma positioned_plug ai z t p s :
  complete t -> complete_path p ->
  exists before after,
    positioned ai z (plug t p) s 0 0 0 =
      before ++ positioned ai z t (snd (place s p)) (fst (fst (place s p))) (snd (fst (place s p)))
                  (length (leaves_before p)) ++ after /\
    length before = length (leaves_before p).
Proof.
  revert t. induction p as [|r d up IH|l d up IH]; intros t Ht Hp.
  - exists [], []. by rewrite app_nil_r.
  - destruct d as [d|]; [|by destruct Hp]. destruct Hp as (_ & Hr & Hp).
    destruct (IH (Node t r (Some d)) (conj Ht Hr) Hp) as (b & a & E & L).
    cbn [plug positioned place leaves_before] in *. rewrite E.
    destruct (place s up) as [[x y] sz0]. cbn [fst snd].
    eexists b, _. split; [|done]. by rewrite <- !app_assoc.
  - destruct d as [d|]; [|by destruct Hp]. destruct Hp as (_ & Hl & Hp).
    destruct (IH (Node l t (Some d)) (conj Hl Ht) Hp) as (b & a & E & L).
    cbn [plug positioned place leaves_before] in *. rewrite E.
    destruct (place s up) as [[x y] sz0]. cbn [fst snd].
    eexists (b ++ positioned ai z l (first d) x y (length (leaves_before up))), a.
    rewrite !length_app, leaves_num. split; [by rewrite <- !app_assoc|].
    by rewrite positioned_length, L by done.
Qed.

(** The pane with an index: where the cursor of [go_to_nth_leaf] stands, and the
    entry of the list. *)
Lemma nth_pane st t n q :
  complete t -> positioned (active st) (zoomed st) t (tab_size st) 0 0 0 !! n = Some q ->
  exists p, t = plug (Leaf (pp_pane q)) p /\ length (leaves_before p) = n /\
    go_to_nth_leaf (cursor t) n = Some (Ok (mkCursor (Leaf (pp_pane q)) p)) /\
    pp_width q = cols (snd (place (tab_size st) p)) /\ pp_height q = rows (snd (place (tab_size st) p)).
Proof.
  intros Ht Hq. assert (Hn : (n < num_leaves t)%nat).
  { rewrite <- (positioned_length (active st) (zoomed st) t (tab_size st) 0 0 0 Ht).
    by eapply lookup_lt_Some. }
  destruct (proj1 (go_to_nth_leaf_ok t n (complete_proper _ Ht)) Hn) as ([it0 p] & a & E & Hi & Ha & Htr & Hl).
  cbn in Hi, Hl. subst it0. rewrite tree_root in Htr. unfold root in Htr. cbn in Htr.
  injection Htr as Htr. subst t. apply complete_plug in Ht as [Ht Hp].
  destruct (positioned_plug (active st) (zoomed st) (Leaf a) p (tab_size st) Ht Hp) as (b & c & Eb & Lb).
  rewrite Eb, lookup_app_r, Lb, Hl, Nat.sub_diag in Hq by lia. cbn in Hq. injection Hq as <-.
  exists p. by split_and!.
Qed.

Lemma leaves_plug (t : PTree) p : leaves (plug t p) = leaves_before p ++ leaves t ++ leaves_after p.
Proof. exact (leaves_root (mkCursor t p)). Qed.

(** The position of a pane of a tree. *)
Lemma leaf_position (t : PTree) la p lb :
  proper t -> leaves t = la ++ p :: lb ->
  exists pth, t = plug (Leaf p) pth /\ leaves_before pth = la /\ leaves_after pth = lb.
Proof.
  intros Ht E. assert (Hn : (length la < num_leaves t)%nat)
    by (rewrite <- leaves_num, E, length_app; cbn; lia).
  destruct (proj1 (go_to_nth_leaf_ok t (length la) Ht) Hn) as ([it0 pth] & a & _ & Hi & Ha & Htr & Hl).
  cbn in Hi, Hl. subst it0. rewrite tree_root in Htr. unfold root in Htr. cbn in Htr.
  injection Htr as <-. rewrite leaves_plug in E. cbn in E.
  apply app_inj_1 in E as [E1 E2]; [|done]. injection E2 as -> E2. by exists pth.
Qed.

(** ** Splitting a pane *)

(** The two parts of an area make it up, when neither is empty. *)
Lemma split_area_splits w h r cd s :
  0 <= w -> 0 <= h ->
  let info := split_area w h r cd in
  no_space info s = false ->
  splits (direction info) info (mkSize h w 0 0 0) /\
  1 <= cols (first info) /\ 1 <= cols (second info) /\
  1 <= rows (first info) /\ 1 <= rows (second info).
Proof.
  intros Hw Hh info. unfold no_space. intros H. bool_to_prop.
  unfold info, split_area, split_dimension, usize_saturating_sub, splits in *.
  destruct (req_direction r), (target_is_second r);
    cbn [direction first second rows cols cells across] in *; lia.
Qed.

Lemma fits_leaf p s : fits (Leaf p) s <-> 1 <= cols s /\ 1 <= rows s.
Proof. done. Qed.

Section Split.
Context `{TabEnv}.

Lemma cell_of_run st t :
  fits t (tab_size st) -> silent tab_cell_dimensions st (cell_of (tab_size st)).
Proof.
  intros Hf. pose proof (fits_pos Horizontal _ _ Hf) as H1. pose proof (fits_pos Vertical _ _ Hf) as H2.
  cbn [cells] in *. unfold tab_cell_dimensions, silent. erewrite silent_run by reflexivity.
  unfold lift, cell_dimensions, usize_div.
  by rewrite (proj2 (Z.eqb_neq (cols (tab_size st)) 0)), (proj2 (Z.eqb_neq (rows (tab_size st)) 0)) by lia.
Qed.

Lemma compute_split_size_run st t n r panes :
  pane st = Some t -> zoomed st = None -> fits t (tab_size st) -> top_level r = false ->
  iter_panes st = Some (panes, st, []) ->
  silent (compute_split_size n r) st
    ((fun q => split_area (pp_width q) (pp_height q) r (cell_of (tab_size st))) <$> panes !! n).
Proof.
  intros Hp Hz Hf Hr Hi. unfold compute_split_size, silent.
  erewrite silent_run by (by eapply cell_of_run). rewrite Hr.
  erewrite silent_run by (unfold silent, set_zoomed; erewrite silent_run by reflexivity; by rewrite Hz).
  by erewrite silent_run by exact Hi.
Qed.

Lemma iter_panes_unzoomed st : zoomed st = None -> iter_panes st = iter_panes_ignoring_zoom st.
Proof.
  intros Hz. unfold iter_panes, iter_panes_ignoring_zoom, iter_panes_impl.
  do 4 (erewrite silent_run by reflexivity). by rewrite Hz.
Qed.

(** The outcome of a split request that names a pane. *)
Definition split_info_of (st : TabInner) (r : SplitRequest) (q : PositionedPane) : SplitDirectionAndSize :=
  split_area (pp_width q) (pp_height q) r (cell_of (tab_size st)).

Lemma split_inner_run st t n r p panes :
  pane st = Some t -> zoomed st = None -> fits t (tab_size st) -> top_level r = false ->
  iter_panes st = Some (panes, st, []) ->
  split_and_insert_inner n r p st =
  match panes !! n with
  | None => Some (Err (InvalidPaneIndex n), st, [])
  | Some q =>
      if no_space (split_info_of st r q) (tab_size st) then Some (Err NoSpaceForSplit, st, [])
      else insert_at_leaf n r (split_info_of st r q) p (cursor t) (set_pane None st)
  end.
Proof.
  intros Hp Hz Hf Hr Hi. unfold split_and_insert_inner. erewrite silent_run by reflexivity. rewrite Hz.
  erewrite silent_run by (by eapply compute_split_size_run).
  destruct (panes !! n) as [q|]; cbn [fmap option_fmap option_map]; [|done].
  erewrite silent_run by reflexivity. fold (split_info_of st r q).
  destruct (no_space _ _); [done|]. rewrite Hr.
  do 2 (erewrite silent_run by reflexivity).
  erewrite bind_run by (unfold take_pane; mrun; by rewrite Hp). cbn [andb].
  by destruct (insert_at_leaf n r (split_info_of st r q) p (cursor t) (set_pane None st)) as [[[]]|].
Qed.

(** The panes of a request, left or upper one first. *)
Definition split_panes (r : SplitRequest) (q : PositionedPane) (p : PaneId) : PaneId * PaneId :=
  if target_is_second r then (pp_pane q, p) else (p, pp_pane q).

Lemma insert_at_leaf_run st t n r p q panes :
  pane st = Some t -> zoomed st = None -> complete t -> iter_panes st = Some (panes, st, []) ->
  panes !! n = Some q ->
  exists pth, t = plug (Leaf (pp_pane q)) pth /\ length (leaves_before pth) = n /\
    pp_width q = cols (snd (place (tab_size st) pth)) /\
    pp_height q = rows (snd (place (tab_size st) pth)) /\
    forall info, insert_at_leaf n r info p (cursor t) (set_pane None st) =
      let '(p1, p2) := split_panes r q p in
      if negb (pane_resize_ok p1 (first info)) then
        Some (Err ResizeFailed, set_pane None st, [Resize p1 (first info)])
      else if negb (pane_resize_ok p2 (second info)) then
        Some (Err ResizeFailed, set_pane None st, [Resize p1 (first info); Resize p2 (second info)])
      else
        let st' := set_pane (Some (plug (Node (Leaf p1) (Leaf p2) (Some info)) pth)) st in
        let n' := if target_is_second r then (n + 1)%nat else n in
        Some (Ok n', if target_is_second r then tag_recency n' (set_active n' st') else st',
              [Resize p1 (first info); Resize p2 (second info)]).
Proof.
  intros Hp Hz Ht Hi Hq. rewrite iter_panes_unzoomed in Hi by done.
  rewrite (iter_panes_ok st t Hp Ht) in Hi. injection Hi as <-.
  destruct (nth_pane st t n q Ht Hq) as (pth & -> & Hl & E & Hw & Hh).
  exists pth. split_and!; try done. intros info. unfold insert_at_leaf.
  erewrite silent_run by (apply lift_run; exact E). cbv beta iota.
  erewrite silent_run by (apply lift_run; reflexivity). cbv beta iota.
  unfold split_panes, resize_pane. destruct (target_is_second r).
  all: mrun; cbn [leaf_mut it].
  all: repeat match goal with |- context [pane_resize_ok ?a ?b] => destruct (pane_resize_ok a b) end.
  all: cbn [negb]; try done.
  all: cbn [split_leaf_and_insert_right it path assign_node]; rewrite tree_root; done.
Qed.

Lemma split_keeps_fits st r q p1 p2 pth a :
  fits (plug (Leaf a) pth) (tab_size st) ->
  pp_width q = cols (snd (place (tab_size st) pth)) ->
  pp_height q = rows (snd (place (tab_size st) pth)) ->
  no_space (split_info_of st r q) (tab_size st) = false ->
  fits (plug (Node (Leaf p1) (Leaf p2) (Some (split_info_of st r q))) pth) (tab_size st).
Proof.
  intros Hf Hw Hh Hn. apply fits_plug in Hf as [[Hc Hr] Hp]. apply fits_plug. split; [|done].
  destruct (split_area_splits (pp_width q) (pp_height q) r (cell_of (tab_size st)) (tab_size st))
    as (Hs & H1 & H2 & H3 & H4); [lia|lia|done|].
  apply fits_node. split; [|done].
  unfold splits in *. set (s' := snd (place (tab_size st) pth)) in *.
  unfold split_info_of. destruct (direction _); cbn [cells across cols rows] in *; lia.
Qed.

(** *** The halves of a rectangle

    The reference for a split: the request names a number of cells or a share of the side that is
    cut, at least one; the new pane gets these, the other what is left but for the cell of the
    divider. *)

Definition request_cells (r : SplitRequest) (dim : Z) : Z :=
  Z.max 1 (match req_size r with Cells n => n | Percent n => dim * n / 100 end).

Definition cut_side (r : SplitRequest) (q : Rect) : Z :=
  match req_direction r with Horizontal => rw q | Vertical => rh q end.

(** Where the second half begins, after the divider. *)
Definition second_at (r : SplitRequest) (q : Rect) : Z :=
  let n := request_cells r (cut_side r q) in
  if target_is_second r then cut_side r q - n else n + 1.

Definition halves (r : SplitRequest) (q : Rect) : Rect * Rect :=
  let k := second_at r q in
  match req_direction r with
  | Horizontal => (mkRect (rx q) (ry q) (k - 1) (rh q), mkRect (rx q + k) (ry q) (rw q - k) (rh q))
  | Vertical => (mkRect (rx q) (ry q) (rw q) (k - 1), mkRect (rx q) (ry q + k) (rw q) (rh q - k))
  end.

(** The size that the pane of a rectangle is told, with the pixels of a cell of the tab. *)
Definition told_size (tab : TerminalSize) (q : Rect) : TerminalSize :=
  mkSize (rh q) (rw q) (pixel_width tab / cols tab * rw q) (pixel_height tab / rows tab * rh q) (dpi tab).

(** There is no room for a cell, the divider and the new pane. *)
Definition too_small (r : SplitRequest) (q : Rect) : bool :=
  cut_side r q <? request_cells r (cut_side r q) + 2.

Definition rect_of (q : PositionedPane) : Rect := snd (pane_rect q).

Lemma split_info_halves st r q :
  let rect := rect_of q in let info := split_info_of st r q in
  too_small r rect = false ->
  first info = told_size (tab_size st) (fst (halves r rect)) /\
  second info = told_size (tab_size st) (snd (halves r rect)) /\
  rx (snd (halves r rect)) = rx rect + left_of_second info /\
  ry (snd (halves r rect)) = ry rect + top_of_second info.
Proof.
  intros rect info Hs. subst rect info. unfold too_small, halves, second_at, cut_side, request_cells in *.
  unfold split_info_of, split_area, split_dimension, usize_saturating_sub, told_size,
    left_of_second, top_of_second, rect_of, pane_rect in *.
  cbn [snd] in *. destruct (req_direction r); cbn [rx ry rw rh fst snd first second rows cols direction
    pixel_width pixel_height dpi cell_of] in *; bool_to_prop;
    set (k := match req_size r with Cells n => n | Percent n => _ end) in *;
    destruct (target_is_second r); cbn [rx ry rw rh fst snd first second rows cols direction] in *;
    rewrite ?(Z.max_r 0) by lia; split_and!; try done; try lia; repeat (f_equal; try lia).
Qed.

Lemma place_within s p t : fits (plug t p) s ->
  cols (snd (place s p)) <= cols s /\ rows (snd (place s p)) <= rows s.
Proof.
  intros [_ Hp]%fits_plug. revert Hp. induction p as [|r d up IH|l d up IH]; [cbn; lia| |];
    (destruct d as [d|]; [|by intros [[] _]]; intros [[Hs Hf] Hp]; specialize (IH Hp));
    rewrite ?place_left, ?place_right; unfold splits in Hs;
    pose proof (fits_pos Horizontal _ _ Hf); pose proof (fits_pos Vertical _ _ Hf);
    destruct (direction d); cbn [cells across] in *; lia.
Qed.

Lemma no_space_too_small st r q pth a :
  fits (plug (Leaf a) pth) (tab_size st) ->
  pp_width q = cols (snd (place (tab_size st) pth)) ->
  pp_height q = rows (snd (place (tab_size st) pth)) ->
  no_space (split_info_of st r q) (tab_size st) = too_small r (rect_of q).
Proof.
  intros Hf Hw Hh. pose proof (place_within _ _ _ Hf) as [Hc Hr].
  apply fits_plug in Hf as [[H1 H2] _]. rewrite <- Hw, <- Hh in *.
  apply eq_true_iff_eq. unfold no_space, too_small, cut_side, request_cells, split_info_of, split_area,
    split_dimension, usize_saturating_sub, left_of_second, top_of_second, rect_of, pane_rect.
  rewrite !orb_true_iff, !Z.eqb_eq, !Z.ltb_lt. cbn [snd rw rh].
  set (k := match req_size r with Cells n => n | Percent n => _ end).
  set (k' := match req_size r with Cells n => n | Percent n => _ end) in *.
  destruct (req_direction r), (target_is_second r); cbn [first second rows cols direction rw rh]; lia.
Qed.

(** What is at a position is a segment of the layout; the rest does not depend on it. *)
Lemma rects_plug p s : complete_path p ->
  exists before after, length before = length (leaves_before p) /\
    forall t, pane_rects (plug t p) s 0 0 =
      before ++ pane_rects t (snd (place s p)) (fst (fst (place s p))) (snd (fst (place s p))) ++ after.
Proof.
  induction p as [|r d up IH|l d up IH]; intros Hp.
  - exists [], []. split; [done|]. intros t. cbn. by rewrite app_nil_r.
  - destruct d as [d|]; [|by destruct Hp]. destruct Hp as (_ & Hr & Hp).
    destruct (IH Hp) as (b & a & L & E).
    exists b, (pane_rects r (second d) (fst (fst (place s up)) + left_of_second d)
                 (snd (fst (place s up)) + top_of_second d) ++ a).
    split; [done|]. intros t. cbn [plug place] in *. rewrite E. destruct (place s up) as [[x y] sz0]. cbn [fst snd pane_rects].
    by rewrite <- !app_assoc.
  - destruct d as [d|]; [|by destruct Hp]. destruct Hp as (_ & Hl & Hp).
    destruct (IH Hp) as (b & a & L & E).
    eexists (b ++ pane_rects l (first d) (fst (fst (place s up))) (snd (fst (place s up)))), a.
    cbn [plug place leaves_before]. split.
    + rewrite !length_app, L. f_equal.
      rewrite <- (positioned_rects 0 None l (first d) _ _ 0), length_map, positioned_length by done.
      symmetry. apply leaves_num.
    + intros t. rewrite E. destruct (place s up) as [[x y] sz0]. cbn [fst snd pane_rects].
      by rewrite <- !app_assoc.
Qed.

Lemma replace_nth {A} (b l a : list A) x n : length b = n ->
  b ++ l ++ a = take n (b ++ x :: a) ++ l ++ drop (S n) (b ++ x :: a).
Proof.
  intros <-. rewrite take_app_length, drop_app_ge by lia.
  by replace (S (length b) - length b)%nat with 1%nat by lia.
Qed.

(** The layout after the split of the pane that stands at [pth]. *)
Lemma split_layout st r q p1 p2 pth :
  complete_path pth ->
  pp_width q = cols (snd (place (tab_size st) pth)) ->
  pp_height q = rows (snd (place (tab_size st) pth)) ->
  let n := length (leaves_before pth) in let old := plug (Leaf (pp_pane q)) pth in
  pane_rects old (tab_size st) 0 0 !! n = Some (pane_rect q) ->
  too_small r (rect_of q) = false ->
  pane_rects (plug (Node (Leaf p1) (Leaf p2) (Some (split_info_of st r q))) pth) (tab_size st) 0 0 =
    take n (pane_rects old (tab_size st) 0 0) ++
    [(p1, fst (halves r (rect_of q))); (p2, snd (halves r (rect_of q)))] ++
    drop (S n) (pane_rects old (tab_size st) 0 0).
Proof.
  intros Hp Hw Hh n old Hq Hs. destruct (rects_plug pth (tab_size st) Hp) as (b & a & L & E).
  pose proof (split_info_halves st r q Hs) as (E1 & E2 & E3 & E4). subst old. rewrite !E in *.
  cbn [pane_rects app] in *. rewrite lookup_app_r, L in Hq by lia. subst n.
  rewrite Nat.sub_diag in Hq. cbn in Hq. injection Hq as Hx Hy _ _.
  etransitivity; [|exact (replace_nth b [(p1, _); (p2, _)] a _ _ L)].
  cbn [app]. f_equal. f_equal; [|f_equal]; f_equal.
  - rewrite E1. unfold halves, rect_of, pane_rect in *. cbn [snd] in *.
    destruct (req_direction r); cbn [fst rx ry rw rh told_size cols rows] in *; by rewrite Hx, Hy.
  - rewrite Hx, Hy. change (pp_left q) with (rx (rect_of q)). change (pp_top q) with (ry (rect_of q)).
    rewrite <- E3, <- E4, E2. by destruct (snd (halves r (rect_of q))).
Qed.

(** C13: splitting a pane in two, in a tab whose sizes agree and that is not zoomed. A number without a
    pane is refused, and so is a pane that has no room on the side that is cut for the cells
    requested, the divider and one cell more; both change nothing. A pane that refuses the size of its half
    makes the call fail, and the tab is then left without its tree (an oversight of the code). Otherwise
    the old pane's rectangle is cut along the requested direction in two halves ([halves]), the
    new pane gets the requested side, the other panes stand where they were, the sizes
    still agree, and both panes are told their sizes. *)
Theorem split_and_insert_spec st t n r p :
  pane st = Some t -> zoomed st = None -> fits t (tab_size st) -> top_level r = false ->
  let layout := pane_rects t (tab_size st) 0 0 in
  match layout !! n with
  | None => split_and_insert n r p st = Some (Err (InvalidPaneIndex n), st, [])
  | Some (a, rect) =>
      let '(q1, q2) := halves r rect in
      let '(s1, s2) := (told_size (tab_size st) q1, told_size (tab_size st) q2) in
      let '(p1, p2) := if target_is_second r then (a, p) else (p, a) in
      if too_small r rect then split_and_insert n r p st = Some (Err NoSpaceForSplit, st, [])
      else if negb (pane_resize_ok p1 s1) then
        split_and_insert n r p st = Some (Err ResizeFailed, set_pane None st, [Resize p1 s1])
      else if negb (pane_resize_ok p2 s2) then
        split_and_insert n r p st = Some (Err ResizeFailed, set_pane None st, [Resize p1 s1; Resize p2 s2])
      else
        let n' := if target_is_second r then (n + 1)%nat else n in
        exists st' t',
          split_and_insert n r p st =
            Some (Ok n', st', [Resize p1 s1; Resize p2 s2] ++ notify_calls (tab_id st)) /\
          pane st' = Some t' /\ fits t' (tab_size st) /\ tab_size st' = tab_size st /\
          pane_rects t' (tab_size st) 0 0 = take n layout ++ [(p1, q1); (p2, q2)] ++ drop (S n) layout /\
          active st' = (if target_is_second r then n' else active st)
  end.
Proof.
  intros Hp Hz Hf Hr layout. pose proof (fits_complete _ _ Hf) as Hc.
  set (panes := positioned (active st) (zoomed st) t (tab_size st) 0 0 0).
  assert (Hi : iter_panes st = Some (panes, st, [])) by (rewrite iter_panes_unzoomed by done; by apply iter_panes_ok).
  assert (Hl : layout = map pane_rect panes) by (symmetry; apply positioned_rects).
  unfold split_and_insert. pose proof (split_inner_run st t n r p panes Hp Hz Hf Hr Hi) as E.
  assert (Hln : layout !! n = pane_rect <$> panes !! n) by (rewrite Hl; apply list_lookup_fmap).
  rewrite Hln. destruct (panes !! n) as [q|] eqn:Hq; cbn [fmap option_fmap option_map]; [|by rewrite (silent_run _ _ _ _ E)].
  destruct (insert_at_leaf_run st t n r p q panes Hp Hz Hc Hi Hq) as (pth & -> & Hn & Hw & Hh & Hrun).
  rewrite (no_space_too_small st r q pth _ Hf Hw Hh) in E. unfold pane_rect at 1. cbv beta iota.
  fold (rect_of q). change (mkRect (pp_left q) (pp_top q) (pp_width q) (pp_height q)) with (rect_of q).
  rewrite (surjective_pairing (halves r (rect_of q))). cbv beta iota zeta. fold (split_panes r q p).
  destruct (too_small r (rect_of q)) eqn:Hs;
    [destruct (split_panes r q p); by rewrite (silent_run _ _ _ _ E)|].
  pose proof (split_info_halves st r q Hs) as (E1 & E2 & _ & _). rewrite Hrun, E1, E2 in E.
  destruct (split_panes r q p) as [p1 p2] eqn:Es.
  destruct (negb (pane_resize_ok p1 _)); [by rewrite (bind_run _ _ _ _ _ _ E)|].
  destruct (negb (pane_resize_ok p2 _)); [by rewrite (bind_run _ _ _ _ _ _ E)|].
  cbv zeta in E. match type of E with _ = Some (_, ?st2, _) => set (st' := st2) in E end.
  set (t' := plug (Node (Leaf p1) (Leaf p2) (Some (split_info_of st r q))) pth) in *.
  assert (Hst : pane st' = Some t' /\ tab_size st' = tab_size st /\ tab_id st' = tab_id st /\
    active st' = if target_is_second r then (n + 1)%nat else active st)
    by (subst st'; by destruct (target_is_second r)).
  destruct Hst as (S1 & S2 & S3 & S4). exists st', t'. split.
  { rewrite (bind_run _ _ _ _ _ _ E). cbv beta iota. erewrite bind_run by apply notify_run.
    cbv [mret CallM_ret]. by rewrite app_nil_r, S3. }
  pose proof Hs as Hn0. rewrite <- (no_space_too_small st r q pth _ Hf Hw Hh) in Hn0.
  split_and!; [exact S1|by eapply split_keeps_fits|exact S2| |rewrite S4; by destruct (target_is_second r)].
  rewrite <- Hn. apply split_layout; try done; [by apply complete_plug in Hc as [_ Hc]|].
  by rewrite Hn.
Qed.

End Split.

(** ** Rotation *)

(** The tree of the splits, without the panes. *)
Fixpoint bones {L N} (t : Tree L N) : Tree unit N :=
  match t with
  | Empty => Empty
  | Leaf _ => Leaf tt
  | Node l r d => Node (bones l) (bones r) d
  end.

Lemma bones_complete t t' : bones t' = bones t -> complete t -> complete t'.
Proof.
  revert t'. induction t as [|l IHl r IHr [d|]|p]; intros [|l' r' [d'|]|p']; try done.
  cbn. intros [= ? ? ?] [? ?]. auto.
Qed.

Lemma bones_num t : num_leaves (bones t) = num_leaves (t : PTree).
Proof. induction t; cbn; congruence. Qed.

(** A tree is its splits and its panes. *)
Lemma bones_leaves (t t' : PTree) : bones t = bones t' -> leaves t = leaves t' -> t = t'.
Proof.
  revert t'. induction t as [|l IHl r IHr d|p]; intros [|l' r' d'|p']; try done.
  - cbn. intros [= Hl Hr ->] E.
    assert (Hn : length (leaves l) = length (leaves l'))
      by (rewrite !leaves_num, <- !bones_num; by rewrite Hl).
    apply app_inj_1 in E as [E1 E2]; [|done]. by rewrite (IHl l'), (IHr r').
  - cbn. by intros _ [= ->].
Qed.

(** What a rotation does to a tree: every leaf takes the pane in hand and
    gives its own. *)
Fixpoint pass_panes (t : PTree) (x : PaneId) : PTree * PaneId :=
  match t with
  | Empty => (Empty, x)
  | Leaf p => (Leaf x, p)
  | Node l r d =>
      let '(l', x1) := pass_panes l x in
      let '(r', x2) := pass_panes r x1 in
      (Node l' r' d, x2)
  end.

Lemma pass_panes_spec t x :
  bones (pass_panes t x).1 = bones t /\
  leaves (pass_panes t x).1 ++ [(pass_panes t x).2] = x :: leaves t.
Proof.
  revert x. induction t as [|l IHl r IHr d|p]; intros x; [done| |done]. cbn.
  specialize (IHl x). destruct (pass_panes l x) as [l' x1].
  specialize (IHr x1). destruct (pass_panes r x1) as [r' x2]. cbn in *.
  destruct IHl as [-> El], IHr as [-> Er]. split; [done|].
  rewrite <- app_assoc, Er. rewrite app_comm_cons, <- El. by rewrite <- app_assoc.
Qed.

(** Both walks, as the body sees them. *)
Lemma visit_pass (body : PCursor -> PaneId -> M (PCursor * PaneId * bool)) t p x st :
  (forall c x st, body c x st = rotate_body c x st) -> proper t ->
  visit body t p x st = Some (pass_panes t x, st, []).
Proof.
  intros Hb. revert p x. induction t as [|l IHl r IHr d|q]; intros p x Ht; [done| |].
  - destruct Ht as [Hl Hr]. cbn [visit pass_panes].
    erewrite silent_run by (unfold silent; by rewrite Hb). cbn [it].
    erewrite silent_run by (by apply IHl). destruct (pass_panes l x) as [l' x1].
    erewrite silent_run by (by apply IHr). by destruct (pass_panes r x1) as [r' x2].
  - cbn [visit]. by erewrite silent_run by (unfold silent; by rewrite Hb).
Qed.

Lemma rotate_in_place (body : PCursor -> PaneId -> M (PCursor * PaneId * bool)) :
  (forall c x st, body c x st = rotate_body c x st) -> in_place body.
Proof.
  intros Hb c a st c' a' stop st' tr _. rewrite Hb. unfold rotate_body, leaf_mut.
  destruct c as [[|l r d|q] p]; cbv [mret CallM_ret]; cbn [it]; intros [= <- <- <- <- <-]; by split_and!.
Qed.

Lemma mirror_rotate_body c x st : mirror_body rotate_body c x st = rotate_body c x st.
Proof.
  unfold mirror_body, rotate_body, leaf_mut, mirror_cursor.
  destruct c as [[|l r d|q] p]; cbn [it path mirror]; mrun; cbn [it path mirror];
    by rewrite ?mirror_involutive, ?mirror_path_involutive.
Qed.

Lemma rotate_walk_clockwise t x st :
  proper t ->
  exists c y, tree c = Some (pass_panes t x).1 /\
    walk_tree preorder_next rotate_body t x st = Some (c, y, false, st, []).
Proof.
  intros Ht. destruct (pass_panes t x) as [t' y] eqn:E.
  destruct (walk_tree_visit rotate_body t x st t' y st [] (rotate_in_place _ (fun _ _ _ => eq_refl)) Ht)
    as (c & Hc & W); [by rewrite <- E; apply visit_pass|]. eauto.
Qed.

Lemma mirror_size (t : PTree) : size (mirror t) = size t.
Proof. induction t; cbn; lia. Qed.

Lemma rotate_walk_counter t x st :
  proper t ->
  exists c y, tree c = Some (mirror (pass_panes (mirror t) x).1) /\
    walk_tree postorder_next rotate_body t x st = Some (c, y, false, st, []).
Proof.
  intros Ht%proper_mirror. destruct (pass_panes (mirror t) x) as [t' y] eqn:E.
  destruct (walk_tree_visit (mirror_body rotate_body) (mirror t) x st t' y st []
              (rotate_in_place _ mirror_rotate_body) Ht)
    as (c & Hc & W); [by rewrite <- E; apply visit_pass; [apply mirror_rotate_body|]|].
  exists (mirror_cursor c), y. unfold walk_tree in *. rewrite mirror_size in W.
  rewrite walk_mirror. change (mirror_cursor (cursor t)) with (cursor (mirror t)). rewrite W.
  split; [|done]. rewrite tree_root in Hc |- *. injection Hc as <-.
  cbn [fst]. unfold root, mirror_cursor. cbn [it path].
  by rewrite mirror_plug.
Qed.

Lemma mirror_bones {L N} (t : Tree L N) : bones (mirror t) = mirror (bones t).
Proof. induction t; cbn; congruence. Qed.

Lemma mirror_leaves {L N} (t : Tree L N) : leaves (mirror t) = rev (leaves t).
Proof. induction t as [|l IHl r IHr d|p]; cbn; [done| |done]. by rewrite rev_app_distr, IHl, IHr. Qed.

(** Rotating clockwise brings the last pane to the front. *)
Lemma pass_last t ls x : leaves t = ls ++ [x] -> leaves (pass_panes t x).1 = x :: ls.
Proof.
  intros E. destruct (pass_panes_spec t x) as [_ H]. rewrite E, app_comm_cons in H.
  by apply app_inj_tail in H as [H _].
Qed.

(** The other way round, the first one to the end. *)
Lemma pass_first t ls x :
  leaves t = x :: ls -> leaves (mirror (pass_panes (mirror t) x).1) = ls ++ [x].
Proof.
  intros E. rewrite mirror_leaves, (pass_last _ (rev ls)).
  - cbn. by rewrite rev_involutive.
  - by rewrite mirror_leaves, E.
Qed.

Section Rotate.
Context `{TabEnv}.

Definition rotate_calls (st : TabInner) (t : PTree) (clockwise : bool) : list Call :=
  resize_calls t (tab_size st) ++
  match focused st t with Some p => [SendRotatePanes p (tab_id st) clockwise] | None => [] end ++
  notify_calls (tab_id st).

Lemma rotate_run st t t' next start x b :
  pane st = Some t -> complete t -> complete t' ->
  (exists q, start (positioned (active st) (zoomed st) t (tab_size st) 0 0 0) = Some q /\ pp_pane q = x) ->
  (exists c y, tree c = Some t' /\
     walk_tree next rotate_body t x (set_pane None st) = Some (c, y, false, set_pane None st, [])) ->
  start [] = None ->
  rotate next start b st = Some (tt, set_pane (Some t') st, rotate_calls (set_pane (Some t') st) t' b).
Proof.
  intros Hp Ht Ht' (q & Hq & Hx) (c & y & Hc & W) Hs. unfold rotate.
  erewrite silent_run by (by apply iter_panes_ok).
  destruct (positioned (active st) (zoomed st) t (tab_size st) 0 0 0) as [|q0 qs] eqn:El; [congruence|].
  erewrite silent_run by (apply lift_run; exact Hq).
  erewrite bind_run by (unfold take_pane; mrun; by rewrite Hp). rewrite Hx.
  erewrite silent_run by exact W. cbv beta iota.
  erewrite silent_run by (apply lift_run; exact Hc).
  unfold replace_pane. rewrite modify_run. erewrite silent_run by reflexivity.
  erewrite bind_run by apply resize_panes_run. erewrite silent_run by reflexivity.
  assert (Ha : forall f, on_active_pane f (set_pane (Some t') st) =
    match focused (set_pane (Some t') st) t' with
    | Some p => f p (set_pane (Some t') st) | None => Some (tt, set_pane (Some t') st, []) end)
    by (intros f; by apply on_active_run).
  change (set_pane (Some t') (set_pane None st)) with (set_pane (Some t') st).
  cbv [mbind CallM_bind]. rewrite Ha. unfold rotate_calls.
  destruct (focused _ t'); cbv [emit]; by rewrite notify_run.
Qed.

(** rotating clockwise gives every pane the place of the next one and the first place
    to the last pane; the splits stay as they are, every pane is told its new size, and
    rotating counter-clockwise afterwards restores the tab. *)
Theorem rotate_roundtrip st t ls x :
  pane st = Some t -> complete t -> leaves t = ls ++ [x] ->
  exists t' c,
    rotate_clockwise st = Some (tt, set_pane (Some t') st, rotate_calls (set_pane (Some t') st) t' true) /\
    leaves t' = x :: ls /\ bones t' = bones t /\
    rotate_counter_clockwise (set_pane (Some t') st) = Some (tt, st, c).
Proof.
  intros Hp Ht El. set (t' := (pass_panes t x).1).
  destruct (pass_panes_spec t x) as [Hb _]. pose proof (bones_complete _ _ Hb Ht) as Ht'.
  assert (El' : leaves t' = x :: ls) by exact (pass_last t ls x El).
  assert (Hback : mirror (pass_panes (mirror t') x).1 = t).
  { apply bones_leaves; [|by rewrite (pass_first t' ls x El')].
    rewrite mirror_bones, (proj1 (pass_panes_spec _ _)), mirror_bones, mirror_involutive. exact Hb. }
  exists t', (rotate_calls st t false). split_and!; [| |exact Hb|].
  - eapply rotate_run; [exact Hp|exact Ht|exact Ht'| | |done].
    + pose proof (positioned_panes (active st) (zoomed st) t (tab_size st) 0 0 0 Ht) as Hm.
      rewrite El in Hm. destruct (positioned _ _ _ _ _ _ _) as [|q qs] eqn:E using rev_ind;
        [by destruct ls|]. rewrite map_app in Hm. apply app_inj_tail in Hm as [_ Hm].
      exists q. by rewrite list.last_snoc.
    + by apply rotate_walk_clockwise, complete_proper.
  - exact El'.
  - unfold rotate_counter_clockwise. rewrite (rotate_run _ t' t postorder_next head x false).
    + by replace (set_pane (Some t) (set_pane (Some t') st)) with st by (destruct st; cbn in Hp |- *; by rewrite Hp).
    + done.
    + done.
    + done.
    + pose proof (positioned_panes (active st) (zoomed st) t' (tab_size st) 0 0 0 Ht') as Hm.
      rewrite El' in Hm. cbn. destruct (positioned _ _ _ _ _ _ _) as [|q qs]; [done|].
      exists q. by injection Hm as -> _.
    + destruct (rotate_walk_counter t' x (set_pane None (set_pane (Some t') st))) as (c & y & Hc & W);
        [by apply complete_proper|]. rewrite Hback in Hc. eauto.
    + done.
Qed.

End Rotate.

(** ** Instances *)

Definition three_tab (active : nat) : TabInner := sample_tab three_panes (sz 80 24) active.

Definition three_listed : list PositionedPane := positioned 1 None three_panes (sz 80 24) 0 0 0.

(** Pane 2 is 39 cells wide: cut into 19 and 19, to the right of a divider. *)
Lemma split_and_insert_spec_witness :
  exists st' t',
    @split_and_insert (sample_env true true) 1 SplitRequest_default 9 (three_tab 1) =
      Some (Ok 2%nat, st', [Resize 2 (sz 19 12); Resize 9 (sz 19 12); NotifyTabResized 7]) /\
    pane st' = Some t' /\ fits t' (sz 80 24) /\
    pane_rects t' (sz 80 24) 0 0 =
      [(1, mkRect 0 0 40 24); (2, mkRect 41 0 19 12); (9, mkRect 61 0 19 12); (3, mkRect 41 13 39 11)].
Proof.
  destruct (@split_and_insert_spec (sample_env true true) (three_tab 1) three_panes 1 SplitRequest_default 9)
    as (st' & t' & H1 & H2 & H3 & _ & H4 & _);
    [done|done|apply three_panes_fits|done|].
  exists st', t'. split; [exact H1|]. split; [exact H2|]. split; [exact H3|exact H4].
Defined.

Lemma rotate_roundtrip_witness :
  exists t' c,
    @rotate_clockwise (sample_env true true) (three_tab 0) =
      Some (tt, set_pane (Some t') (three_tab 0),
            @rotate_calls (sample_env true true) (set_pane (Some t') (three_tab 0)) t' true) /\
    leaves t' = [3; 1; 2] /\ bones t' = bones three_panes /\
    @rotate_counter_clockwise (sample_env true true) (set_pane (Some t') (three_tab 0)) =
      Some (tt, three_tab 0, c).
Proof.
  apply (@rotate_roundtrip (sample_env true true) (three_tab 0) three_panes [1; 2] 3); [done|by cbn|done].
Defined.
