(* ===== verification/TabRemove.v ===== *)
(** Removing a pane from a tab: what the pass over the tree does to the sizes, the
    theorem for a single pane, and the panes that [remove_pane_if] overlooks. *)

From Stdlib Require Import ZArith Lia String.
From stdpp Require Import base numbers list option gmap.
From S2P Require Import Prelude CallMonad BinTree TermSize PaneTree Tab TabWalk TabProps TabSplit.
Local Open Scope Z_scope.

(** ** The pass that hands sizes down *)

(** A subtree that was given a size: first children keep theirs. *)
Fixpoint cascade (s : TerminalSize) (t : PTree) : PTree :=
  match t with
  | Node l r (Some d) =>
      let d' := fit_node s d in
      Node (cascade (first d') l) (cascade (second d') r) (Some d')
  | _ => t
  end.

Lemma fit_direction s d : direction (fit_node s d) = direction d.
Proof. unfold fit_node. by destruct (direction d). Qed.

Lemma cascade_same s t : same_panes t (cascade s t).
Proof.
  revert s. induction t as [|l IHl r IHr [d|]|p]; intros s; try done.
  cbn [cascade]. apply same_panes_node; [apply IHl|apply IHr|apply fit_direction].
Qed.

(** At least as large, along both axes. *)
Definition at_least (s s' : TerminalSize) : Prop := cols s <= cols s' /\ rows s <= rows s'.

Lemma fit_node_grows d s s' :
  splits (direction d) d s -> at_least s s' -> 0 <= cells (direction d) (second d) ->
  splits (direction d) (fit_node s' d) s' /\
  at_least (first d) (first (fit_node s' d)) /\ at_least (second d) (second (fit_node s' d)).
Proof.
  unfold splits, at_least, fit_node, usize_saturating_sub. destruct (direction d);
    cbn [direction first second rows cols cells across]; lia.
Qed.

Lemma cascade_fits t s s' : fits t s -> at_least s s' -> fits (cascade s' t) s'.
Proof.
  revert s s'. induction t as [|l IHl r IHr [d|]|p]; intros s s'; try done.
  - intros (Hs & Hl & Hr)%fits_node Hg. cbn [cascade]. apply fits_node. rewrite fit_direction.
    destruct (fit_node_grows d s s' Hs Hg) as (S1 & G1 & G2).
    { pose proof (fits_pos (direction d) _ _ Hr). lia. }
    split_and!; [done|by eapply IHl|by eapply IHr].
  - cbn. unfold at_least. lia.
Qed.

Lemma complete_num t : complete t -> (0 < num_leaves t)%nat.
Proof. induction t as [|l IHl r IHr [d|]|p]; cbn; [done| |done|lia]. intros [?%IHl ?%IHr]. lia. Qed.

(** The size of a position's part. *)
Definition avail (root_size : TerminalSize) (p : Path PaneId SplitDirectionAndSize) : TerminalSize :=
  available_size root_size (mkCursor Empty p).

Section Remove.
Context `{TabEnv}.
Context (f : nat -> PaneId -> bool) (z : option PaneId) (root_size cd : TerminalSize).

Abbreviation body := (remove_body f z root_size cd).

(** The panes that are not to be removed. *)
Definition kept (q : PaneId) : Prop := forall i, f i q = false.

Definition advance (n : nat) (a : Removing) : Removing :=
  mkRemoving (dead_panes a) (pane_index a + n)%nat (removed_indices a).

Lemma body_leaf q p a st :
  kept q ->
  body (mkCursor (Leaf q) p) a st =
  Some (mkCursor (Leaf q) p, advance 1 a, false, st,
        match dead_panes a with [] => [] | _ => [Resize q (avail root_size p)] end).
Proof.
  intros Hk. unfold remove_body. cbn [leaf_mut it]. rewrite Hk. unfold advance.
  rewrite Nat.add_1_r. destruct (dead_panes a); mrun; by rewrite ?app_nil_r.
Qed.

Lemma body_node l r d p a st :
  body (mkCursor (Node l r (Some d)) p) a st =
  Some (mkCursor (Node l r (Some (match dead_panes a with [] => d | _ => fit_node (avail root_size p) d end))) p,
        a, false, st, []).
Proof. unfold remove_body. cbn [leaf_mut it]. by destruct (dead_panes a). Qed.

Lemma remove_in_place : in_place_on body kept.
Proof.
  intros c a st c' a' stop st' tr Hk. destruct c as [[|l r [d|]|q] p]; cbn [it path].
  - unfold remove_body. cbn [leaf_mut it]. cbv [mret CallM_ret].
    destruct (dead_panes a); intros [= <- <- <- <- <-]; by split_and!.
  - rewrite body_node. intros [= <- <- <- <- <-]. by split_and!.
  - unfold remove_body. cbn [leaf_mut it]. cbv [mret CallM_ret].
    destruct (dead_panes a); intros [= <- <- <- <- <-]; by split_and!.
  - rewrite body_leaf by done. intros [= <- <- <- <- <-]. by split_and!.
Qed.

(** After a removal the pass hands the sizes down. *)
Lemma visit_cascade t p a st :
  complete t -> Forall kept (leaves t) -> dead_panes a <> [] ->
  exists calls, visit body t p a st =
    Some (cascade (avail root_size p) t, advance (num_leaves t) a, st, calls).
Proof.
  revert p a. induction t as [|l IHl r IHr [d|]|q]; intros p a Ht Hk Hd; try done.
  - destruct Ht as [Hl Hr]. cbn [leaves] in Hk. apply Forall_app in Hk as [Kl Kr].
    set (d' := fit_node (avail root_size p) d).
    destruct (IHl (Left r (Some d') p) a Hl Kl Hd) as (c1 & E1).
    destruct (IHr (Right (cascade (first d') l) (Some d') p) (advance (num_leaves l) a) Hr Kr Hd) as (c2 & E2).
    exists (c1 ++ c2). cbn [visit cascade]. fold d'.
    pose proof (body_node l r d p a st) as Eb. fold d' in Eb.
    assert (Ed : match dead_panes a with [] => d | _ => d' end = d') by (by destruct (dead_panes a)).
    rewrite Ed in Eb. rewrite (silent_run _ _ _ _ Eb). cbn [it].
    rewrite (bind_run _ _ _ _ _ _ E1). cbv beta iota. rewrite (bind_run _ _ _ _ _ _ E2).
    cbv [mret CallM_ret]. rewrite app_nil_r. unfold advance. cbn [num_leaves dead_panes pane_index removed_indices].
    by rewrite Nat.add_assoc.
  - apply Forall_cons_iff in Hk as [Hq _]. exists [Resize q (avail root_size p)].
    cbn [visit]. rewrite (bind_run _ _ _ _ _ _ (body_leaf q p a st Hq)).
    destruct (dead_panes a); [done|]. done.
Qed.

Lemma avail_place p : complete_path p -> avail root_size p = snd (place root_size p).
Proof.
  unfold avail, available_size. destruct p as [|r d up|l d up]; [done|..];
    (destruct d as [d|]; [|by intros [? _]]); intros _; by rewrite ?place_left, ?place_right.
Qed.

(** The rest of the tree keeps its sizes in agreement. *)
Lemma visit_rest_fits t p a st :
  fits t (snd (place root_size p)) -> fits_path root_size p -> complete_path p ->
  Forall kept (leaves_after p) -> dead_panes a <> [] ->
  exists t' n calls, visit_rest body t p a st = Some (t', advance n a, st, calls) /\
    fits t' root_size /\ leaves t' = leaves_before p ++ leaves t ++ leaves_after p.
Proof.
  revert t a. induction p as [|r d up IH|l d up IH]; intros t a Ht Hp Hc Hk Hd.
  - exists t, 0%nat, []. cbn. rewrite app_nil_r. split_and!; [|done|done].
    cbv [mret CallM_ret]. unfold advance. rewrite Nat.add_0_r. by destruct a.
  - destruct d as [d|]; [|by destruct Hp]. destruct Hp as [[Hs Hr] Hp]. destruct Hc as (_ & Hcr & Hc).
    cbn [leaves_after] in Hk. apply Forall_app in Hk as [Kr Kp].
    destruct (visit_cascade r (Right t (Some d) up) a st Hcr Kr Hd) as (c1 & E1).
    rewrite place_left in Ht. change (avail root_size (Right t (Some d) up)) with (second d) in E1.
    destruct (IH (Node t (cascade (second d) r) (Some d)) (advance (num_leaves r) a)) as (t' & n & c2 & E2 & F & L);
      [|done|done|done|done|].
    { apply fits_node. split_and!; [done|done|]. apply (cascade_fits r (second d)); [done|by split]. }
    exists t', (num_leaves r + n)%nat, (c1 ++ c2). cbn [visit_rest].
    rewrite (bind_run _ _ _ _ _ _ E1). cbv beta iota. rewrite E2. split_and!; [|done|].
    + unfold advance. cbn. by rewrite Nat.add_assoc.
    + rewrite L. cbn. rewrite (same_leaves _ _ (cascade_same (second d) r)). by rewrite <- app_assoc.
  - destruct d as [d|]; [|by destruct Hp]. destruct Hp as [[Hs Hl] Hp]. destruct Hc as (_ & Hcl & Hc).
    rewrite place_right in Ht.
    destruct (IH (Node l t (Some d)) a) as (t' & n & c2 & E2 & F & L); [|done|done|done|done|].
    { apply fits_node. by split_and!. }
    exists t', n, c2. split_and!; [done|done|]. rewrite L. cbn. by rewrite <- !app_assoc.
Qed.

(** The walk up to the first pane to remove. *)
Lemma walk_to p pth st :
  proper (plug (Leaf p) pth) -> Forall kept (leaves_before pth) ->
  exists used, (used < size (plug (Leaf p) pth))%nat /\ forall fuel,
    walk preorder_next body (used + fuel) (cursor (plug (Leaf p) pth)) (mkRemoving [] 0 []) st =
    walk preorder_next body fuel (mkCursor (Leaf p) pth) (mkRemoving [] (length (leaves_before pth)) []) st.
Proof.
  intros Ht Hk. destruct (positions_plug (Leaf p) pth) as (pre & post & E & L).
  exists (length pre). split.
  { rewrite <- (positions_size _ Top), E, !length_app. cbn. lia. }
  intros fuel. set (g := fun (a : Removing) (c : PCursor) => match it c with Leaf _ => advance 1 a | _ => a end).
  rewrite (walk_prefix _ _ g (fun a => dead_panes a = []) pre (mkCursor (Leaf p) pth) post).
  - f_equal. rewrite <- L. clear.
    enough (Hg : forall a, fold_left g pre a = advance (length (leaf_labels pre)) a) by (by rewrite Hg).
    induction pre as [|c pre IH]; intros a; [destruct a; cbn; unfold advance; cbn; by rewrite Nat.add_0_r|].
    cbn [fold_left]. rewrite IH. unfold g, leaf_labels. cbn [omap list_omap].
    destruct (it c); [done|done|]. unfold advance. cbn. by rewrite <- Nat.add_assoc.
  - pose proof (preorder_visits_ok _ Ht) as V. rewrite E in V. exact V.
  - done.
  - intros c a Hc Ha. split.
    + unfold remove_body, g. destruct c as [[|l r d|q] q0]; cbn [leaf_mut it]; rewrite ?Ha; [done|done|].
      assert (Hq : kept q).
      { rewrite Forall_forall in Hk. apply Hk. rewrite <- L. unfold leaf_labels.
        apply list_elem_of_omap. by exists (mkCursor (Leaf q) q0). }
      rewrite Hq. unfold advance. rewrite Ha. by rewrite Nat.add_1_r.
    + unfold g. by destruct (it c).
Qed.

(** The parent of a position: the sibling, the sizes and the path above. *)
Definition parent_of (p : Path PaneId SplitDirectionAndSize)
  : option (PTree * SplitDirectionAndSize * Path PaneId SplitDirectionAndSize) :=
  match p with
  | Left r (Some d) up => Some (r, d, up)
  | Right l (Some d) up => Some (l, d, up)
  | _ => None
  end.

(** Only the node at the top takes the size. *)
Definition fit_top (s : TerminalSize) (t : PTree) : PTree :=
  match t with Node l r (Some d) => Node l r (Some (fit_node s d)) | _ => t end.

Lemma remove_leaf_run p pth sib d up a st :
  parent_of pth = Some (sib, d, up) -> complete sib -> f (pane_index a) p = true ->
  exists calls, body (mkCursor (Leaf p) pth) a st =
    Some (mkCursor (fit_top (joined_size cd d) sib) up,
          mkRemoving (dead_panes a ++ [p]) (S (pane_index a)) (removed_indices a ++ [pane_index a]),
          false, if bool_decide (Some p = z) then put_zoomed None st else st, calls).
Proof.
  intros Hpar Hc Hf. unfold remove_body. cbn [leaf_mut it]. rewrite Hf. unfold remove_leaf.
  assert (Hu : unsplit_leaf (mkCursor (Leaf p) pth) = Some (Ok (mkCursor sib up, p, Some d))).
  { by destruct pth as [|r [d0|] u|l [d0|] u]; try done; injection Hpar as -> -> ->. }
  set (st2 := if bool_decide _ then put_zoomed None st else st).
  assert (Hz : (if bool_decide (Some p = z) then modify (Ev := Call) (put_zoomed None) else mret tt) st = Some (tt, st2, []))
    by (subst st2; by destruct (bool_decide _)).
  destruct sib as [|l r [d2|]|q]; try done; cbn [fit_top].
  - exists []. rewrite (bind_run _ _ _ _ _ _ Hz). erewrite silent_run by (apply lift_run; exact Hu).
    cbv beta iota. by erewrite silent_run by (by apply lift_run).
  - exists [Resize q (joined_size cd d)]. rewrite (bind_run _ _ _ _ _ _ Hz).
    erewrite silent_run by (apply lift_run; exact Hu). cbv beta iota.
    by erewrite silent_run by (by apply lift_run).
Qed.

Lemma below_cascade s t p a st :
  complete t -> Forall kept (leaves t) -> dead_panes a <> [] ->
  exists n calls, visit_below body (fit_top s t) p a st = Some (cascade s t, advance n a, st, calls).
Proof.
  intros Ht Hk Hd. destruct t as [|l r [d|]|q]; try done.
  - destruct Ht as [Hl Hr]. cbn [leaves] in Hk. apply Forall_app in Hk as [Kl Kr].
    set (d' := fit_node s d). cbn [fit_top visit_below cascade]. fold d'.
    destruct (visit_cascade l (Left r (Some d') p) a st Hl Kl Hd) as (c1 & E1).
    destruct (visit_cascade r (Right (cascade (first d') l) (Some d') p) (advance (num_leaves l) a) st Hr Kr Hd)
      as (c2 & E2).
    exists (num_leaves l + num_leaves r)%nat, (c1 ++ c2).
    rewrite (bind_run _ _ _ _ _ _ E1). cbv beta iota. rewrite (bind_run _ _ _ _ _ _ E2).
    cbv [mret CallM_ret]. rewrite app_nil_r. unfold advance. cbn [dead_panes pane_index removed_indices].
    by rewrite Nat.add_assoc.
  - exists 0%nat, []. cbn. cbv [mret CallM_ret]. unfold advance. rewrite Nat.add_0_r. by destruct a.
Qed.

Lemma joined_cells c d s :
  cells (direction d) (first d) + 1 + cells (direction d) (second d) = cells (direction d) s ->
  cells (across (direction d)) (first d) = cells (across (direction d)) s ->
  cells (across (direction d)) (second d) = cells (across (direction d)) s ->
  0 <= cells (direction d) (first d) -> 0 <= cells (direction d) (second d) ->
  same_cells (joined_size c d) s /\ at_least (first d) (joined_size c d) /\
  at_least (second d) (joined_size c d).
Proof.
  unfold joined_size, same_cells, at_least, width, height.
  destruct (direction d); repeat case_decide; try done;
    cbn [cells across rows cols pixel_width pixel_height]; intros; split_and!; lia.
Qed.

(** Around a leaf: its sibling fits, and grows to the size of the parent. *)
Lemma parent_fits p pth :
  fits (plug (Leaf p) pth) root_size -> pth <> Top ->
  exists sib d up, parent_of pth = Some (sib, d, up) /\ complete sib /\
    fits (cascade (joined_size cd d) sib) (snd (place root_size up)) /\
    fits_path root_size up /\ complete_path up /\ num_leaves sib <> 0%nat /\
    leaves_before up ++ leaves sib ++ leaves_after up = leaves_before pth ++ leaves_after pth /\
    leaves_after up ⊆ leaves_after pth.
Proof.
  intros Hf Ht. pose proof (fits_complete _ _ Hf) as Hc. apply complete_plug in Hc as [_ Hc].
  apply fits_plug in Hf as [[H1 H2] Hf]. destruct pth as [|r d up|l d up]; [done|..];
    (destruct d as [d|]; [|by destruct Hf]); destruct Hf as [[(S1 & S2 & S3) Hs] Hf];
    destruct Hc as (_ & Hcs & Hc); rewrite ?place_left, ?place_right in *.
  - pose proof (fits_pos (direction d) _ _ Hs) as Hpos.
    assert (0 <= cells (direction d) (first d)) by (destruct (direction d); cbn; lia).
    destruct (joined_cells cd d _ S1 S2 S3) as (Hj & Hj1 & Hj2); [lia|lia|]. exists r, d, up.
    split_and!; try done.
    + eapply fits_same; [exact Hj|]. by apply (cascade_fits r (second d)).
    + pose proof (complete_num r Hcs). lia.
    + cbn. set_solver.
  - pose proof (fits_pos (direction d) _ _ Hs) as Hpos.
    assert (0 <= cells (direction d) (second d)) by (destruct (direction d); cbn; lia).
    destruct (joined_cells cd d _ S1 S2 S3) as (Hj & Hj1 & Hj2); [lia|lia|]. exists l, d, up.
    split_and!; try done.
    + eapply fits_same; [exact Hj|]. by apply (cascade_fits l (first d)).
    + pose proof (complete_num l Hcs). lia.
    + cbn. by rewrite <- app_assoc.
Qed.

Lemma path_after_proper p : complete_path p -> proper_after p.
Proof.
  induction p as [|r d up IH|l d up IH]; cbn; [done| |tauto].
  intros (_ & Hr & Hp). split; [by apply complete_proper|auto].
Qed.

Lemma fit_top_facts s t :
  complete t ->
  proper (fit_top s t) /\ leaves (fit_top s t) = leaves t /\ size (fit_top s t) = size t.
Proof. destruct t as [|l r [d|]|q]; try done. cbn. intros [? ?]. split_and!; auto using complete_proper. Qed.

Lemma remove_walk p pth st :
  let t := plug (Leaf p) pth in
  fits t root_size -> pth <> Top -> (forall i, f i p = true) ->
  Forall kept (leaves_before pth ++ leaves_after pth) ->
  exists c t' n calls,
    walk preorder_next body (size t * S (size t)) (cursor t) (mkRemoving [] 0 []) st =
      Some (c, mkRemoving [p] n [length (leaves_before pth)], false,
            if bool_decide (Some p = z) then put_zoomed None st else st, calls) /\
    tree c = Some t' /\ fits t' root_size /\ leaves t' = leaves_before pth ++ leaves_after pth.
Proof.
  intros t Hf Ht Hp Hk. destruct (proj1 (Forall_app _ _ _) Hk) as [Kb Ka].
  destruct (parent_fits p pth Hf Ht) as (sib & d & up & Hpar & Hc & Hfit & Hfp & Hcp & _ & Hl & _).
  assert (Kall : Forall kept (leaves_before up ++ leaves sib ++ leaves_after up)) by (by rewrite Hl).
  apply Forall_app in Kall as [_ Kall]. apply Forall_app in Kall as [Ks Ku].
  assert (Hsz : (size sib + size_after up <= size t)%nat).
  { subst t. destruct pth as [|r [d0|] u|l [d0|] u]; try done; injection Hpar as -> -> ->; cbn [plug];
      [pose proof (size_plug (Node (Leaf p) sib (Some d)) up)
      |pose proof (size_plug (Node sib (Leaf p) (Some d)) up)]; cbn [size] in *; lia. }
  destruct (walk_to p pth st) as (used & Hused & Ew);
    [apply complete_proper; by eapply fits_complete|done|]. fold t in Hused, Ew.
  set (a0 := mkRemoving [] (length (leaves_before pth)) []) in *.
  destruct (remove_leaf_run p pth sib d up a0 st Hpar Hc (Hp _)) as (c1 & E1).
  set (a1 := mkRemoving _ _ _) in E1. set (st1 := if bool_decide _ then _ else _) in *.
  destruct (fit_top_facts (joined_size cd d) sib Hc) as (Tp & Tl & Ts).
  destruct (below_cascade (joined_size cd d) sib up a1 st1 Hc Ks) as (n2 & c2 & E2); [done|].
  destruct (visit_rest_fits (cascade (joined_size cd d) sib) up (advance n2 a1) st1) as
    (t' & n3 & c3 & E3 & F3 & L3); try done.
  assert (Hfuel : exists fuel, (size t * S (size t) = used + S fuel)%nat /\ (size t <= fuel)%nat)
    by (exists (size t * S (size t) - used - 1)%nat; nia).
  destruct Hfuel as (fuel & -> & Hfuel).
  destruct (walk_below body kept remove_in_place (fit_top (joined_size cd d) sib) up a1 st1 _ _ _ _ _ _ _ _ fuel
              Tp (path_after_proper up Hcp) ltac:(by rewrite Tl) Ku E2 E3 ltac:(rewrite Ts; lia))
    as (c & Hcur & Ewb).
  exists c, t', (pane_index (advance n3 (advance n2 a1))), (c1 ++ c2 ++ c3).
  split_and!; [|done|done|].
  - rewrite Ew, (walk_round _ _ _ _ _ _ _ _ _ _ E1), Ewb. done.
  - rewrite L3, (same_leaves _ _ (cascade_same _ sib)). done.
Qed.

End Remove.

(** ** Closing one pane *)

Section Kill.
Context `{TabEnv}.

(** The pass of [remove_pane_if], with what it leaves in the tab. *)
Definition after_removal (st : TabInner) (t : PTree) (p : PaneId) (i : nat) : TabInner :=
  set_active (if (i <=? active st)%nat then active st - 1 else active st)%nat
    (set_pane (Some t) (if bool_decide (zoomed st = Some p) then put_zoomed None st else st)).

Definition killed (kill : bool) (p : PaneId) : list Call := if kill then [SpawnRemovePanes [p]] else [].

Lemma finish_run n p i kill st t st0 :
  st = set_pane (Some t) (if bool_decide (zoomed st0 = Some p) then put_zoomed None st0 else st0) ->
  finish_removal (mkRemoving [p] n [i]) kill st = Some ([p], after_removal st0 t p i, killed kill p).
Proof.
  intros ->. unfold finish_removal, after_removal, killed. erewrite silent_run by reflexivity.
  rewrite modify_run. cbn [List.filter removed_indices dead_panes].
  set (st1 := if bool_decide _ then _ else _).
  replace (active (set_pane (Some t) st1)) with (active st0) by (subst st1; by destruct (bool_decide _)).
  destruct (i <=? active st0)%nat, kill; cbn; by rewrite ?Nat.sub_0_r.
Qed.

Lemma remove_only_pane f z root_size cd p st fuel :
  f 0%nat p = true ->
  walk preorder_next (remove_body f z root_size cd) (S fuel) (cursor (Leaf p)) (mkRemoving [] 0 []) st =
  Some (cursor (Leaf p), mkRemoving [p] 0 [0%nat], true,
        set_pane (Some Empty) (if bool_decide (Some p = z) then put_zoomed None st else st), []).
Proof.
  intros Hf. cbn [walk]. unfold remove_body. cbn [leaf_mut it cursor pane_index]. rewrite Hf.
  unfold remove_leaf. by destruct (bool_decide _).
Qed.

Lemma kill_run st t la p lb kill :
  pane st = Some t -> fits t (tab_size st) -> leaves t = la ++ p :: lb -> p ∉ la ++ lb ->
  exists t' calls,
    remove_pane_if (fun _ q => q =? p) kill st =
      Some ([p], after_removal st t' p (length la), calls ++ killed kill p) /\
    leaves t' = la ++ lb /\ (la ++ lb <> [] -> fits t' (tab_size st)).
Proof.
  intros Hp Hf El Hn.
  destruct (leaf_position t la p lb (complete_proper _ (fits_complete _ _ Hf)) El) as (pth & Et & Eb & Ea).
  assert (Hk : Forall (kept (fun _ q => q =? p)) (leaves_before pth ++ leaves_after pth)).
  { rewrite Eb, Ea. apply Forall_forall. intros q Hq i. apply Z.eqb_neq. by intros ->. }
  unfold remove_pane_if. do 2 (erewrite silent_run by reflexivity).
  rewrite (bind_run take_pane _ st t (set_pane None st) []) by (unfold take_pane; mrun; by rewrite Hp).
  rewrite (silent_run _ _ _ (cell_of (tab_size st))) by (by apply (cell_of_run (set_pane None st) t)).
  assert (Htop : pth = Top \/ pth <> Top) by (destruct pth; auto). destruct Htop as [->|Ht].
  - cbn in Eb, Ea. subst t la lb. exists Empty, []. split_and!; [|done|done].
    rewrite (bind_run _ _ _ _ _ _ (remove_only_pane _ _ _ _ p _ 1 (Z.eqb_refl p))). cbv beta iota.
    erewrite silent_run by reflexivity. rewrite (finish_run _ _ _ _ _ Empty st); [done|].
    repeat case_bool_decide; congruence || done.
  - destruct (remove_walk (fun _ q => q =? p) (zoomed st) (tab_size st) (cell_of (tab_size st)) p pth
                (set_pane None st)) as (c & t' & n & calls & E & Hc & F & L);
      [by rewrite <- Et|done|intros; apply Z.eqb_refl|done|].
    exists t', calls. rewrite Eb, Ea in L. split_and!; [|done|done].
    rewrite <- Et in E. rewrite (bind_run _ _ _ _ _ _ E). cbv beta iota.
    rewrite (bind_run _ _ _ _ _ _ (replace_tree_run c t' _ Hc)).
    rewrite (finish_run _ _ _ _ _ t' st), Eb; [done|].
    repeat case_bool_decide; congruence || done.
Qed.

(** C10: closing a pane of a tab removes it and no other one: the remaining panes keep
    their order and their sizes agree again, the focus stays on the pane it was
    on (or moves back by one place), the zoom ends when it was the zoomed pane, the
    mux is asked to drop it; closing the last pane empties the tab. *)
Theorem kill_pane_spec st t la p lb :
  pane st = Some t -> fits t (tab_size st) -> leaves t = la ++ p :: lb -> p ∉ la ++ lb ->
  exists st' t' calls,
    kill_pane p st = Some (true, st', calls ++ [SpawnRemovePanes [p]]) /\
    pane st' = Some t' /\ leaves t' = la ++ lb /\ tab_size st' = tab_size st /\
    (la ++ lb <> [] -> fits t' (tab_size st')) /\
    zoomed st' = (if bool_decide (zoomed st = Some p) then None else zoomed st) /\
    active st' = (if (length la <=? active st)%nat then active st - 1 else active st)%nat /\
    (forall q, leaves t !! active st = Some q -> q <> p -> leaves t' !! active st' = Some q).
Proof.
  intros Hp Hf El Hn. destruct (kill_run st t la p lb true Hp Hf El Hn) as (t' & calls & E & L & F).
  exists (after_removal st t' p (length la)), t', calls. unfold kill_pane.
  assert (S : pane (after_removal st t' p (length la)) = Some t' /\
              tab_size (after_removal st t' p (length la)) = tab_size st /\
              zoomed (after_removal st t' p (length la)) =
                (if bool_decide (zoomed st = Some p) then None else zoomed st))
    by (unfold after_removal; by destruct (bool_decide _)).
  destruct S as (S1 & S2 & S3). split_and!; try done; [|by rewrite S2|].
  - rewrite (bind_run _ _ _ _ _ _ E). cbv [mret CallM_ret some_removed]. by rewrite app_nil_r.
  - intros q Hq Hqp. rewrite L. rewrite El in Hq. cbn.
    destruct (Nat.leb_spec (length la) (active st)) as [Hl|Hl].
    + rewrite lookup_app_r in Hq by done.
      destruct (active st - length la)%nat as [|k] eqn:Ek; [by injection Hq as ->|].
      rewrite lookup_app_r by lia. by replace (active st - 1 - length la)%nat with k by lia.
    + by rewrite lookup_app_l in Hq |- * by done.
Qed.

End Kill.

Lemma kill_pane_spec_witness :
  exists st' t' calls,
    @kill_pane (sample_env true true) 2 (three_tab 2) = Some (true, st', calls ++ [SpawnRemovePanes [2]]) /\
    pane st' = Some t' /\ leaves t' = [1; 3] /\ fits t' (sz 80 24) /\ active st' = 1%nat.
Proof.
  destruct (@kill_pane_spec (sample_env true true) (three_tab 2) three_panes [1] 2 [3])
    as (st' & t' & calls & H1 & H2 & H3 & H4 & H5 & _ & H6 & _);
    [done|apply three_panes_fits|done|cbn; set_solver|].
  exists st', t', calls. split_and!; [done|done|done| |done].
  rewrite H4 in H5. by apply H5.
Defined.
