(* ===== verification/TabFaults.v ===== *)
(** The bounds of a moved divider, and inputs on which the operations of a tab
    leave it with empty or forgotten panes, or with sizes that do not add up. *)

From Stdlib Require Import ZArith Lia String.
From stdpp Require Import base numbers list option gmap.
From S2P Require Import Prelude CallMonad BinTree TermSize PaneTree Tab TabWalk TabProps TabSplit TabRemove.
Local Open Scope Z_scope.

(** ** Moving a divider *)

(** The size across the divider is the one of the first child. *)
Definition extent (d : SplitDirectionAndSize) : Z :=
  cells (direction d) (first d) + cells (direction d) (second d) + 1.

Lemma move_divider_cells cd delta d :
  let ax := direction d in
  let n := as_usize (Z.min (Z.max (i64_saturating_add (as_isize (cells ax (first d))) delta) 1)
                           (i64_sat (as_isize (extent d) - 2))) in
  direction (move_divider cd delta d) = ax /\
  cells ax (first (move_divider cd delta d)) = n /\
  cells ax (second (move_divider cd delta d)) =
    usize_saturating_sub (extent d) (usize_saturating_add n 1) /\
  cells (across ax) (first (move_divider cd delta d)) = cells (across ax) (first d) /\
  cells (across ax) (second (move_divider cd delta d)) = cells (across ax) (second d).
Proof.
  unfold move_divider, extent, width, height. by destruct (direction d).
Qed.

(** C34: however far a divider is moved, in either direction, both sides keep at least
    one cell, nothing is gained or lost along the axis, the other axis is untouched,
    and a move that stays inside is exact. *)
Theorem move_divider_bounds cd delta d :
  let ax := direction d in
  1 <= cells ax (first d) -> 1 <= cells ax (second d) -> extent d <= i64_max -> in_i64 delta ->
  let d' := move_divider cd delta d in
  direction d' = ax /\
  1 <= cells ax (first d') /\ 1 <= cells ax (second d') /\ extent d' = extent d /\
  cells (across ax) (first d') = cells (across ax) (first d) /\
  cells (across ax) (second d') = cells (across ax) (second d) /\
  cells ax (first d') = clamp 1 (extent d - 2) (cells ax (first d) + delta).
Proof.
  intros ax H1 H2 Hx Hd d'. subst ax. destruct (move_divider_cells cd delta d) as (E1 & E2 & E3 & E4 & E5).
  fold d' in E1, E2, E3, E4, E5. unfold extent in *. rewrite E1.
  set (a := cells (direction d) (first d)) in *. set (b := cells (direction d) (second d)) in *.
  assert (En : as_usize (Z.min (Z.max (i64_saturating_add (as_isize a) delta) 1)
                               (i64_sat (as_isize (a + b + 1) - 2))) = clamp 1 (a + b + 1 - 2) (a + delta)).
  { unfold as_isize. rewrite !(proj2 (Z.leb_le _ _)) by lia.
    rewrite (i64_sat_id (a + b + 1 - 2)) by (unfold in_i64, i64_min, i64_max in *; lia).
    unfold as_usize, i64_saturating_add, i64_sat, clamp, in_i64, i64_min, i64_max in *.
    rewrite Z.mod_small; lia. }
  rewrite E2, E3, En. unfold usize_saturating_sub, usize_saturating_add, clamp, usize_max, i64_max in *.
  split_and!; lia || done.
Qed.

Lemma move_divider_bounds_witness :
  let d := mkSplit Horizontal (sz 40 24) (sz 39 24) in
  extent (move_divider (sz 1 1) (-100) d) = 80 /\
  cells Horizontal (first (move_divider (sz 1 1) (-100) d)) = 1.
Proof.
  destruct (move_divider_bounds (sz 1 1) (-100) (mkSplit Horizontal (sz 40 24) (sz 39 24)))
    as (_ & _ & _ & H1 & _ & _ & H2);
    [by vm_compute|by vm_compute|by vm_compute|split; by vm_compute|].
  by split.
Defined.

(** ** Shrinking *)

(** [((1 | 2) | 3)] on 7 columns. *)
Definition nested_row : PTree := hsplit 3 3 4 (hsplit 1 1 4 (Leaf 1) (Leaf 2)) (Leaf 3).

(** [(((1 | 2) | 3) | 4)] on 13 columns. *)
Definition nested_four : PTree :=
  hsplit 5 7 4 (hsplit 3 1 4 (hsplit 1 1 4 (Leaf 1) (Leaf 2)) (Leaf 3)) (Leaf 4).

(** [1 | (2 | 3)] on 7 columns. *)
Definition right_row : PTree := hsplit 3 3 4 (Leaf 1) (hsplit 1 1 4 (Leaf 2) (Leaf 3)).

Definition errors_of (st : TabInner) : list TreeError :=
  match pane st with Some t => collect_tree_invariant_errors t (tab_size st) | None => [] end.

(** Three inputs on which the sizes of a tab break. [adjust_x_size] takes a cell from a child
    that is already at its minimum. A row of three panes that is shrunk from 7 to 5 columns,
    its own minimum, leaves the first pane without a column. A row of four that is shrunk from
    13 to 7, its own minimum, is a panic in a debug build, and in a release build leaves sizes
    that do not add up. And a top-level split that leaves the old panes 2 columns, less than
    their minimum of 5, is not refused and leaves sizes that do not add up. *)
Example shrinking_breaks_layout :
  (fits nested_row (sz 7 4) /\ compute_min_size nested_row = (5, 1) /\
   exists st calls, @resize (sample_env true true) (sz 5 4) (sample_tab nested_row (sz 7 4) 0) =
                      Some (tt, st, calls) /\ Resize 1 (mkSize 4 0 0 80 96) ∈ calls) /\
  (fits nested_four (sz 13 4) /\ compute_min_size nested_four = (7, 1) /\
   @resize (sample_env true true) (sz 7 4) (sample_tab nested_four (sz 13 4) 0) = None /\
   exists st calls, @resize (sample_env true false) (sz 7 4) (sample_tab nested_four (sz 13 4) 0) =
                      Some (tt, st, calls) /\ errors_of st <> []) /\
  (fits right_row (sz 7 4) /\ compute_min_size right_row = (5, 1) /\
   exists st calls, @split_and_insert (sample_env true true) 0
       (mkRequest Horizontal true true (Cells 4)) 9 (sample_tab right_row (sz 7 4) 0) =
         Some (Ok 3%nat, st, calls) /\ errors_of st <> []).
Proof.
  split_and!; try done; try (cbn; split_and!; done || lia).
  - eexists _, _. split; [vm_compute; reflexivity|]. left.
  - eexists _, _. split; [vm_compute; reflexivity|]. vm_compute. done.
  - eexists _, _. split; [vm_compute; reflexivity|]. vm_compute. done.
Qed.

(** ** Removing several panes *)

Definition two_panes : PTree := hsplit 40 39 24 (Leaf 11) (Leaf 21).

(** [((2 | 3) | 11) / (21 | 5)]. *)
Definition five_panes : PTree :=
  vsplit 10 13 80 (hsplit 40 39 10 (hsplit 19 20 10 (Leaf 2) (Leaf 3)) (Leaf 11))
    (hsplit 40 39 13 (Leaf 21) (Leaf 5)).

(** [remove_pane_if] overlooks panes and loses count when several match. After a
    removal the cursor stands on the sibling, which is never tested: of two panes of one
    split that are both in the domain (here the panes with last digit 1) only the first
    is closed. And when the removed pane was a second child, the panes of its sibling are
    counted twice: the index of the next removed pane is too large, the focus is not
    shifted for it, and no pane is active any more. *)
Theorem remove_pane_if_overlooks :
  (exists st calls, @kill_panes_in_domain (sample_env true false) 1 (sample_tab two_panes (sz 80 24) 0) =
      Some (true, st, calls) /\ pane st = Some (Leaf 21) /\ SpawnRemovePanes [11] ∈ calls) /\
  (exists st calls, fits five_panes (sz 80 24) /\
      focused (sample_tab five_panes (sz 80 24) 4) five_panes = Some 5 /\
      @kill_panes_in_domain (sample_env true false) 1 (sample_tab five_panes (sz 80 24) 4) =
        Some (true, st, calls) /\
      leaves <$> pane st = Some [2; 3; 5] /\ active st = 3%nat /\
      get_active_pane st = Some (None, st, [])).
Proof.
  split; eexists _, _; split_and!; try (vm_compute; reflexivity); try (cbn; split_and!; done || lia).
  vm_compute. by repeat constructor.
Qed.
