(* ===== verification/TabSync.v ===== *)
(** A tab on the wire: the tree of pane entries that a mux server sends
    ([codec_pane_tree]) and that a client builds its own tab from
    ([sync_with_pane_tree]), of [src/mux/src/tab.rs]; and the theorem that the client's tab
    mirrors the server's. *)

From Stdlib Require Import ZArith Lia String.
From stdpp Require Import base numbers list option gmap strings.
From S2P Require Import Prelude CallMonad BinTree TermSize PaneTree Tab TabWalk TabProps TabSplit.
Local Open Scope Z_scope.

(** ** Data *)

Record CodexAppServerSession : Set := mkCodexSession {
  thread_id : string; session_id : string; executable : string; version : string;
  tui_args : list string
}.

(** [agent.rs]; the time stamp is a number. *)
Record AgentMetadata : Set := mkAgentMetadata {
  agent_id : string; agent_name : string; launch_cmd : string; declared_cwd : string;
  adopted_pid : option Z; adopted_start_time : option Z; created_at : Z;
  repo_root : option string; worktree : option string; branch : option string;
  managed_checkout : bool;
  codex_app_server : option CodexAppServerSession;
  launch_supervisor : option string
}.

Inductive CursorShape : Set :=
| ShapeDefault | BlinkingBlock | SteadyBlock | BlinkingUnderline | SteadyUnderline
| BlinkingBar | SteadyBar.

Inductive CursorVisibility : Set := Hidden | Visible.

Record StableCursorPosition : Set := mkCursorPosition {
  cur_x : Z; cur_y : Z; cur_shape : CursorShape; cur_visibility : CursorVisibility
}.

(** A url is its text. *)
Record PaneEntry : Set := mkEntry {
  window_id : WindowId;
  entry_tab_id : TabId;
  pane_id : PaneId;
  agent_metadata : option AgentMetadata;
  entry_title : string;
  entry_size : TerminalSize;
  working_dir : option string;
  is_active_pane : bool;
  is_zoomed_pane : bool;
  workspace : string;
  cursor_pos : StableCursorPosition;
  physical_top : Z;
  top_row : Z;
  left_col : Z;
  tty_name : option string
}.

Inductive PaneNode : Set :=
| PnEmpty
| PnSplit (lf rt : PaneNode) (node : SplitDirectionAndSize)
| PnLeaf (e : PaneEntry).

(** [PaneNode::into_tree], [root_size] and [window_and_tab_ids]. *)
Fixpoint into_tree (n : PaneNode) : Tree PaneEntry SplitDirectionAndSize :=
  match n with
  | PnEmpty => Empty
  | PnSplit lf rt node => Node (into_tree lf) (into_tree rt) (Some node)
  | PnLeaf e => Leaf e
  end.

Definition root_size (n : PaneNode) : option (option TerminalSize) :=
  match n with
  | PnEmpty => Some None
  | PnSplit _ _ node => s ← split_size node; Some (Some s)
  | PnLeaf e => Some (Some (entry_size e))
  end.

Fixpoint window_and_tab_ids (n : PaneNode) : option (WindowId * TabId) :=
  match n with
  | PnEmpty => None
  | PnSplit lf rt _ =>
      match window_and_tab_ids lf with Some r => Some r | None => window_and_tab_ids rt end
  | PnLeaf e => Some (window_id e, entry_tab_id e)
  end.

(** What the listing of a pane shows besides its size. *)
Class PaneInfo : Type := {
  pane_title : PaneId -> string;
  pane_working_dir : PaneId -> option string;
  pane_cursor_position : PaneId -> StableCursorPosition;
  pane_physical_top : PaneId -> Z;
  pane_tty_name : PaneId -> option string;
  window_workspace : WindowId -> option string
}.

(** ** The server's side *)

Section Codec.
Context `{TabEnv} `{PaneInfo}.

(** [pane_tree]; [None] is the panic of [data.unwrap()]. *)
Fixpoint pane_tree (t : PTree) (tab : TabId) (window : WindowId) (active_pane_id : option PaneId)
    (zoomed : option PaneId) (ws : string) (left_col top_row : Z) : option PaneNode :=
  match t with
  | Empty => Some PnEmpty
  | Node lf rt data =>
      data ← data;
      l ← pane_tree lf tab window active_pane_id zoomed ws left_col top_row;
      r ← pane_tree rt tab window active_pane_id zoomed ws
            (if decide (direction data = Vertical) then left_col
             else left_col + left_of_second data)
            (if decide (direction data = Horizontal) then top_row
             else top_row + top_of_second data);
      Some (PnSplit l r data)
  | Leaf p =>
      Some (PnLeaf (mkEntry window tab p None (pane_title p) (get_dimensions p) (pane_working_dir p)
        (bool_decide (active_pane_id = Some p))
        (match zoomed with Some z => z =? p | None => false end)
        ws (pane_cursor_position p) (pane_physical_top p) top_row left_col (pane_tty_name p)))
  end.

Definition codec_pane_tree_with_active_pane_id (active_pane_id : option PaneId) : M PaneNode :=
  mux_get;;
  id ← gets tab_id;
  match window_containing_tab id with
  | None => mret PnEmpty
  | Some window =>
      match window_workspace window with
      | None => mret PnEmpty
      | Some ws =>
          z ← gets zoomed;
          root ← gets pane;
          match root with
          | Some root => lift (pane_tree root id window active_pane_id z ws 0 0)
          | None => mret PnEmpty
          end
      end
  end.

Definition codec_pane_tree : M PaneNode :=
  active_pane_id ← get_active_pane;
  codec_pane_tree_with_active_pane_id active_pane_id.

(** ** The client's side *)

(** The caller's [make_pane] finds or makes the local pane of an entry; it has a
    state of its own. *)
Section Make.
Context {S : Type} (make_pane : PaneEntry -> S -> PaneId * S).

Record Building : Type := mkBuilding {
  b_active : option PaneId; b_zoomed : option PaneId; b_state : S
}.

Fixpoint build_from_pane_tree (t : Tree PaneEntry SplitDirectionAndSize) (b : Building)
  : PTree * Building :=
  match t with
  | Empty => (Empty, b)
  | Node lf rt data =>
      let '(lf, b) := build_from_pane_tree lf b in
      let '(rt, b) := build_from_pane_tree rt b in
      (Node lf rt data, b)
  | Leaf entry =>
      let '(p, s) := make_pane entry (b_state b) in
      (Leaf p, mkBuilding (if is_active_pane entry then Some p else b_active b)
                 (if is_zoomed_pane entry then Some p else b_zoomed b) s)
  end.

(** The search for the active pane. *)
Definition find_active_body (p : PaneId) (c : PCursor) (index : nat) : M (PCursor * nat * bool) :=
  match leaf_mut c with
  | Some (q, _) =>
      if p =? q then
        modify (set_active index);;
        modify (tag_recency index);;
        mret (c, index, true)
      else mret (c, Datatypes.S index, false)
  | None => mret (c, index, false)
  end.

Definition sync_with_pane_tree (size : TerminalSize) (root : PaneNode) (s : S) : M S :=
  let '(t, b) := build_from_pane_tree (into_tree root) (mkBuilding None None s) in
  modify (set_active 0%nat);;
  c ← (match b_active b with
       | Some p =>
           '(c, _, _) ← walk_tree preorder_next (find_active_body p) t 0%nat;
           mret c
       | None => mret (cursor t)
       end);
  replace_tree c;;
  modify (put_zoomed (b_zoomed b));;
  modify (set_tab_size size);;
  resize_impl size false;;
  _ ← the_pane;
  mret (b_state b).

End Make.
End Codec.

(** ** The client mirrors the server *)

(** The tree with other names for its panes. *)
Fixpoint relabel (g : PaneId -> PaneId) (t : PTree) : PTree :=
  match t with
  | Empty => Empty
  | Leaf p => Leaf (g p)
  | Node l r d => Node (relabel g l) (relabel g r) d
  end.

Lemma relabel_leaves g t : leaves (relabel g t) = map g (leaves t).
Proof. induction t as [|l IHl r IHr d|p]; cbn; [done| |done]. by rewrite map_app, IHl, IHr. Qed.

Lemma relabel_fits g t s : fits (relabel g t) s <-> fits t s.
Proof.
  revert s. induction t as [|l IHl r IHr [d|]|p]; intros s; cbn; try done. by rewrite IHl, IHr.
Qed.

Lemma relabel_rects g t s x y :
  pane_rects (relabel g t) s x y = map (fun '(p, r) => (g p, r)) (pane_rects t s x y).
Proof.
  revert s x y. induction t as [|l IHl r IHr [d|]|p]; intros s x y; cbn; try done.
  by rewrite map_app, IHl, IHr.
Qed.

Lemma adjust_zero ax t cd : adjust_n ax (tree_depth t) cd t 0 = Some t.
Proof.
  destruct t as [|l r [d|]|p]; try done. cbn [tree_depth adjust_n]. case_decide; done.
Qed.

Section Mirror.
Context `{TabEnv} `{PaneInfo}.
Context {S : Type} (make_pane : PaneEntry -> S -> PaneId * S) (g : PaneId -> PaneId).
Context (Hmake : forall e s, fst (make_pane e s) = g (pane_id e)) (Hinj : Inj (=) (=) g).

(** The marked pane, once a subtree was built. *)
Definition marked (mark : option PaneId) (t : PTree) (before : option PaneId) : option PaneId :=
  match mark with
  | Some p => if decide (p ∈ leaves t) then Some (g p) else before
  | None => before
  end.

Lemma marked_node mark l r d before :
  marked mark (Node l r d) before = marked mark r (marked mark l before).
Proof. unfold marked. destruct mark as [p|]; [|done]. cbn. repeat case_decide; set_solver. Qed.

Lemma build_tree t tab w ap z ws x y :
  complete t ->
  exists node, pane_tree t tab w ap z ws x y = Some node /\
    forall b, exists s', build_from_pane_tree make_pane (into_tree node) b =
      (relabel g t, mkBuilding (marked ap t (b_active b)) (marked z t (b_zoomed b)) s').
Proof.
  revert x y. induction t as [|l IHl r IHr [d|]|p]; intros x y Ht; try done.
  - destruct Ht as [Hl Hr]. destruct (IHl x y Hl) as (nl & El & Bl).
    destruct (IHr (if decide (direction d = Vertical) then x else x + left_of_second d)
                  (if decide (direction d = Horizontal) then y else y + top_of_second d) Hr) as (nr & Er & Br).
    eexists. cbn [pane_tree]. msimpl. rewrite El. msimpl. rewrite Er. msimpl. split; [done|].
    intros b. cbn [into_tree build_from_pane_tree]. destruct (Bl b) as (s1 & ->).
    destruct (Br (mkBuilding (marked ap l (b_active b)) (marked z l (b_zoomed b)) s1)) as (s2 & ->).
    exists s2. cbn [b_active b_zoomed]. by rewrite !marked_node.
  - eexists. split; [done|]. intros b. cbn [into_tree build_from_pane_tree relabel].
    match goal with |- context [make_pane ?e ?s] =>
      pose proof (Hmake e s) as Hp; destruct (make_pane e s) as [q s'] end.
    cbn in Hp. subst q. exists s'. f_equal. unfold marked. cbn [is_active_pane is_zoomed_pane leaves].
    f_equal.
    + destruct ap as [a|]; [|done]. case_bool_decide as E; case_decide as E'; try done; simplify_eq; set_solver.
    + destruct z as [a|]; [|done]. destruct (Z.eqb_spec a p); case_decide; subst; set_solver.
Qed.

(** The client finds the active pane at its index. *)
Lemma find_active t la p lb st :
  complete t -> leaves t = la ++ p :: lb -> p ∉ la ->
  exists c n, tree c = Some t /\
    walk_tree preorder_next (find_active_body p) t 0%nat st =
      Some (c, n, true, tag_recency (length la) (set_active (length la) st), []).
Proof.
  intros Ht El Hn. destruct (leaf_position t la p lb (complete_proper _ Ht) El) as (pth & Et & Eb & _).
  destruct (positions_plug (Leaf p) pth) as (pre & post & E & L). unfold walk_tree.
  assert (Hsz : exists fuel, size t = (length pre + Datatypes.S fuel)%nat).
  { exists (length post). rewrite <- (positions_size _ Top), Et, E, !length_app. cbn. lia. }
  destruct Hsz as [fuel ->]. exists (mkCursor (Leaf p) pth), (length la). split; [by rewrite tree_root, Et|].
  rewrite (walk_prefix _ _ (fun n c => if is_leaf c then Datatypes.S n else n) (fun _ => True) pre
             (mkCursor (Leaf p) pth) post).
  - replace (fold_left _ pre 0%nat) with (length la).
    { cbn [walk]. unfold find_active_body. cbn [leaf_mut it]. by rewrite Z.eqb_refl. }
    rewrite <- Eb, <- L. clear.
    enough (Hg : forall n, fold_left (fun n c => if is_leaf c then Datatypes.S n else n) pre n =
                           (n + length (leaf_labels pre))%nat) by (by rewrite Hg).
    induction pre as [|c pre IH]; intros n; [cbn; lia|]. cbn [fold_left]. rewrite IH.
    unfold leaf_labels, is_leaf. cbn [omap list_omap]. destruct (it c); cbn; lia.
  - pose proof (preorder_visits_ok _ (complete_proper _ Ht)) as V. rewrite Et, E in V.
    by rewrite Et.
  - done.
  - intros c n Hc _. split; [|done]. unfold find_active_body, is_leaf.
    destruct c as [[|l r d|q] q0]; cbn [leaf_mut it]; try done.
    assert (Hq : p <> q).
    { intros <-. apply Hn. rewrite <- Eb, <- L. apply list_elem_of_omap. by exists (mkCursor (Leaf p) q0). }
    by rewrite (proj2 (Z.eqb_neq _ _) Hq).
Qed.

Lemma resize_same st t :
  pane st = Some t -> fits t (tab_size st) ->
  exists t' s' calls,
    resize_impl (tab_size st) false st = Some (tt, set_pane (Some t') (set_tab_size s' st), calls) /\
    same_cells (tab_size st) s' /\ leaves t' = leaves t /\
    pane_rects t' s' 0 0 = pane_rects t (tab_size st) 0 0 /\ fits t' s' /\
    exists sizes, calls = map (fun '(p, s) => Resize p s) sizes.
Proof.
  intros Hp Hf. pose proof (fits_pos Horizontal _ _ Hf) as P1. pose proof (fits_pos Vertical _ _ Hf) as P2.
  cbn [cells] in P1, P2. destruct (zoomed st) as [z|] eqn:Ez.
  - exists t, (tab_size st), [Resize z (tab_size st)]. split_and!; try done; [|by exists [(z, tab_size st)]].
    unfold resize_impl. rewrite !(proj2 (Z.eqb_neq _ _)) by lia. cbn [orb].
    erewrite silent_run by reflexivity. rewrite Ez.
    erewrite bind_run by (rewrite modify_run; reflexivity).
    by replace (set_pane (Some t) (set_tab_size (tab_size st) st)) with (set_tab_size (tab_size st) st)
      by (destruct st; cbn in Hp |- *; by rewrite Hp).
  - set (s' := constrained t (tab_size st)).
    assert (Es : same_cells (tab_size st) s').
    { pose proof (fits_min Horizontal _ _ Hf). pose proof (fits_min Vertical _ _ Hf).
      unfold s', constrained, same_cells. cbn [cols rows cells] in *. lia. }
    destruct Es as [Ec Er]. destruct (reconcile_fits_ok t (tab_size st) s' 0 0 (conj Ec Er) Hf) as [F3 Rects].
    exists (reconcile_tree_sizes t s'), s', (resize_calls (reconcile_tree_sizes t s') s').
    split_and!; [|done|by rewrite (same_leaves _ _ (reconcile_same t s'))|done|done|by eexists].
    rewrite (resize_run st t (tab_size st) t t false); [by rewrite app_nil_r|done|by eapply fits_complete|done
      |lia|lia| | |done|intros _; by apply fits_no_errors].
    + fold s'. rewrite <- Ec, Z.sub_diag. apply adjust_zero.
    + fold s'. rewrite <- Er, Z.sub_diag. apply adjust_zero.
Qed.

Lemma focused_in st t p :
  (forall z, zoomed st = Some z -> z ∈ leaves t) -> focused st t = Some p -> p ∈ leaves t.
Proof.
  unfold focused. intros Hz Hfoc.
  destruct (zoomed st) as [z|]; [apply Hz; by injection Hfoc as ->|by apply list_elem_of_lookup_2 in Hfoc].
Qed.

Lemma codec_pane_tree_run st t w ws p node :
  has_mux = true -> window_containing_tab (tab_id st) = Some w -> window_workspace w = Some ws ->
  pane st = Some t -> complete t -> focused st t = Some p ->
  pane_tree t (tab_id st) w (Some p) (zoomed st) ws 0 0 = Some node ->
  codec_pane_tree st = Some (node, st, []).
Proof.
  intros Hm Hw Hws Hp Ht Hfoc En. unfold codec_pane_tree, codec_pane_tree_with_active_pane_id.
  erewrite silent_run by (by apply get_active_ok). rewrite Hfoc. unfold mux_get. rewrite Hm.
  do 2 (erewrite silent_run by reflexivity). rewrite Hw, Hws.
  do 2 (erewrite silent_run by reflexivity). rewrite Hp. unfold lift. by rewrite En.
Qed.

(** C17: a client that builds its tab from the tree a server sent mirrors the server's tab:
    the same panes (under the client's names) in the same places of the layout, the same
    focused pane, the same zoomed pane, whatever the client's tab was before; and the
    only calls it makes are resizes of its own panes, so nothing is echoed to
    the server. *)
Theorem sync_mirrors st t w ws cl s p :
  has_mux = true -> window_containing_tab (tab_id st) = Some w -> window_workspace w = Some ws ->
  pane st = Some t -> fits t (tab_size st) -> NoDup (leaves t) ->
  (forall z, zoomed st = Some z -> z ∈ leaves t) -> focused st t = Some p ->
  exists node cl' t' s' calls,
    codec_pane_tree st = Some (node, st, []) /\
    sync_with_pane_tree make_pane (tab_size st) node s cl = Some (s', cl', map (fun '(p, s) => Resize p s) calls) /\
    pane cl' = Some t' /\ same_cells (tab_size st) (tab_size cl') /\ fits t' (tab_size cl') /\
    pane_rects t' (tab_size cl') 0 0 =
      map (fun '(p, r) => (g p, r)) (pane_rects t (tab_size st) 0 0) /\
    zoomed cl' = g <$> zoomed st /\ focused cl' t' = Some (g p).
Proof.
  intros Hm Hw Hws Hp Hf Hnd Hz Hfoc. pose proof (fits_complete _ _ Hf) as Ht.
  assert (Hpl : p ∈ leaves t) by by eapply focused_in.
  destruct (build_tree t (tab_id st) w (Some p) (zoomed st) ws 0 0 Ht) as (node & En & Bn).
  destruct (Bn (mkBuilding None None s)) as (s' & Eb).
  destruct (list_elem_of_split _ _ Hpl) as (la & lb & El).
  assert (Hn : p ∉ la) by (rewrite El in Hnd; apply NoDup_app in Hnd as (_ & Hd & _);
                           intros Hin; apply (Hd p Hin); left).
  set (rt := relabel g t) in *.
  assert (Fr : fits rt (tab_size st)) by (by apply relabel_fits).
  assert (Elr : leaves rt = map g la ++ g p :: map g lb)
    by (unfold rt; by rewrite relabel_leaves, El, map_app).
  assert (Hnr : g p ∉ map g la) by (rewrite list_elem_of_In, in_map_iff; intros (q & Eq & Hq);
    apply Hinj in Eq as ->; apply Hn; by apply list_elem_of_In).
  destruct (find_active rt (map g la) (g p) (map g lb) (set_active 0%nat cl) (fits_complete _ _ Fr) Elr Hnr)
    as (c & n & Hc & Ew).
  set (i := length (map g la)) in *.
  set (z' := g <$> zoomed st).
  assert (Ez' : marked (zoomed st) t None = z').
  { unfold marked, z'. destruct (zoomed st) as [z|]; [|done]. rewrite decide_True by (by apply Hz). done. }
  assert (Ea' : marked (Some p) t None = Some (g p)) by (unfold marked; by rewrite decide_True).
  cbn [b_active b_zoomed] in Eb. rewrite Ez', Ea' in Eb.
  set (cl1 := set_tab_size (tab_size st) (put_zoomed z' (set_pane (Some rt)
                (tag_recency i (set_active i (set_active 0%nat cl)))))).
  destruct (resize_same cl1 rt eq_refl Fr) as (t' & s1 & calls & Er & Hs & Hl & Hrect & F' & (sizes & ->)).
  exists node, (set_pane (Some t') (set_tab_size s1 cl1)), t', s', sizes.
  split_and!; try done.
  - by eapply codec_pane_tree_run.
  - unfold sync_with_pane_tree. rewrite Eb. rewrite modify_run. cbn [b_active b_zoomed b_state].
    set (cl0 := tag_recency i (set_active i (set_active 0%nat cl))) in *.
    assert (Efind : ('(c, _, _) ← walk_tree preorder_next (find_active_body (g p)) rt 0%nat; mret c)
                      (set_active 0%nat cl) = Some (c, cl0, [])) by (by rewrite (bind_run _ _ _ _ _ _ Ew)).
    rewrite (bind_run _ _ _ _ _ _ Efind). rewrite (bind_run _ _ _ _ _ _ (replace_tree_run c rt _ Hc)).
    rewrite !modify_run. fold cl1. change (tab_size st) with (tab_size cl1).
    rewrite (bind_run _ _ _ _ _ _ Er). cbn [app].
    erewrite silent_run by reflexivity. cbv [mret CallM_ret]. by rewrite app_nil_r.
  - etransitivity; [exact Hrect|]. apply relabel_rects.
  - unfold focused in Hfoc |- *. cbn [zoomed]. change (zoomed (set_pane _ _)) with z'. unfold z'.
    destruct (zoomed st) as [z|]; [by injection Hfoc as ->|]. cbn.
    rewrite Hl, Elr. unfold i. by rewrite list_lookup_middle.
Qed.

End Mirror.

(** ** A tab and its mirror *)

Definition sample_info : PaneInfo := {|
  pane_title := fun _ => "sh"%string;
  pane_working_dir := fun _ => None;
  pane_cursor_position := fun _ => mkCursorPosition 0 0 ShapeDefault Visible;
  pane_physical_top := fun _ => 0;
  pane_tty_name := fun _ => None;
  window_workspace := fun _ => Some "default"%string
|}.

Lemma sync_mirrors_witness :
  exists node cl' t',
    @codec_pane_tree (sample_env true true) sample_info (sample_tab three_panes (sz 80 24) 1) =
      Some (node, sample_tab three_panes (sz 80 24) 1, []) /\
    pane cl' = Some t' /\
    pane_rects t' (tab_size cl') 0 0 =
      [(101, mkRect 0 0 40 24); (102, mkRect 41 0 39 12); (103, mkRect 41 13 39 11)] /\
    focused cl' t' = Some 102.
Proof.
  destruct (@sync_mirrors (sample_env true true) sample_info unit (fun e s => (100 + pane_id e, s))
              (fun p => 100 + p) (fun e s => eq_refl) ltac:(intros x y; lia)
              (sample_tab three_panes (sz 80 24) 1) three_panes 1 "default"%string
              (tab_new 3 (sz 10 10)) tt 2)
    as (node & cl' & t' & s' & calls & H1 & H2 & H3 & H4 & H5 & H6 & H7 & H8);
    try done; [cbn; repeat constructor; set_solver|].
  exists node, cl', t'. by split_and!.
Defined.
