(* ===== verification/Window.v ===== *)
(** A window of the multiplexer: [src/mux/src/window.rs]. It keeps the order of its tabs
    and the set of those that are parked (hidden). A tab is an object that the
    window shares with the mux, so that a window holds references: the ids
    of its tabs, which are unique. The objects are in a [Heap]. Every operation is a computation
    with the list of the calls it makes. *)

From Stdlib Require Import ZArith Lia String.
From S2P Require Import Prelude CallMonad BinTree Color TermSize PaneTree Tab.
From stdpp Require Import base numbers list option gmap sets strings.
Local Open Scope Z_scope.

(** ** Data *)

(** [src/config/src/units.rs]. *)
Inductive Dimension : Set := Points (x : f32) | Pixels (x : f32) | PercentOf (x : f32) | CellsOf (x : f32).

Inductive GeometryOrigin : Set :=
| ScreenCoordinateSystem | MainScreen | ActiveScreen | Named (name : string).

Record GuiPosition : Set := mkPosition { pos_x : Dimension; pos_y : Dimension; origin : GeometryOrigin }.

Record Window : Type := mkWindow {
  window_id : WindowId;
  tabs : list TabId;
  parked_tabs : gset TabId;
  workspace : string;
  win_title : string;
  initial_position : option GuiPosition
}.

Definition set_tabs (ts : list TabId) (w : Window) : Window :=
  mkWindow (window_id w) ts (parked_tabs w) (workspace w) (win_title w) (initial_position w).
Definition set_parked (p : gset TabId) (w : Window) : Window :=
  mkWindow (window_id w) (tabs w) p (workspace w) (win_title w) (initial_position w).
Definition put_workspace (s : string) (w : Window) : Window :=
  mkWindow (window_id w) (tabs w) (parked_tabs w) s (win_title w) (initial_position w).
Definition put_win_title (s : string) (w : Window) : Window :=
  mkWindow (window_id w) (tabs w) (parked_tabs w) (workspace w) s (initial_position w).

(** [ClientId] of [client.rs]. *)
Record ClientId : Set := mkClientId {
  hostname : string;
  username : string;
  pid : Z;
  epoch : Z;
  client_number : Z;
  ssh_auth_sock : option string
}.

#[export] Instance ClientId_eq_dec : EqDecision ClientId.
Proof. solve_decision. Defined.

#[export] Instance ClientId_countable : Countable ClientId.
Proof.
  refine (inj_countable'
    (fun c => (hostname c, username c, pid c, epoch c, client_number c, ssh_auth_sock c))
    (fun '(h, u, p, e, n, s) => mkClientId h u p e n s) _).
  by intros [].
Defined.

(** The calls a window and the mux make: those of a tab, the notifications, and what
    is asked of a pane. *)
Inductive Notice : Set :=
| TabCall (c : Call)
| WindowTitleChanged (w : WindowId) (title : string)
| WindowWorkspaceChanged (w : WindowId)
| TabAddedToWindow (t : TabId) (w : WindowId)
| ParkedTabsChanged (w : WindowId) (tab_ids parked_tab_ids : list TabId)
| KillPane (p : PaneId)
| PaneRemoved (p : PaneId)
| WindowRemoved (w : WindowId)
| MuxEmpty
| DetachDomain (d : DomainId)
| ActiveWorkspaceChanged (client : ClientId)
| WorkspaceRenamed (old_workspace new_workspace : string)
| AcknowledgeAgentAttention (p : PaneId)
| RemovePaneToken (p : PaneId)
| InvalidateTabResourceStatus
| ClearAgentMetadata (p : PaneId)
| ClearDetectedAgentInfo (p : PaneId)
| UnwatchPane (p : PaneId)
| RemoveAgentState (p : PaneId)
| RemoveMirroredTab (t : TabId)
| ClearCodexProcessMemory (d : DomainId).

(** The errors, by their messages. *)
Inductive WindowError : Set :=
| IndexOutOfRange | OrderLength | OrderDuplicate | OrderMismatch
| SubsetDuplicate | SubsetUnknown | ParkedStale | ParkedDuplicate | ParkedUnknown | LastVisibleTab
| ParkedDomainDuplicate | ParkedDomainUnknown | ParkedNotInDomain.

(** The [Tab] objects, by their ids. *)
Definition Heap : Type := gmap TabId TabInner.

Abbreviation WM := (CallM Window Notice).

(** [Vec::remove] and [Vec::insert], which panic out of range. *)
Definition vec_remove {A} (l : list A) (i : nat) : option (A * list A) :=
  x ← l !! i; Some (x, delete i l).

Definition vec_insert {A} (l : list A) (i : nat) (x : A) : option (list A) :=
  if (i <=? length l)%nat then Some (take i l ++ x :: drop i l) else None.

(** [HashSet::from_iter]. *)
Definition hash_set (l : list TabId) : gset TabId := list_to_set l.

(** ** What a window shows *)

Definition iter_visible (w : Window) : list TabId := filter (fun t => t ∉ parked_tabs w) (tabs w).

Definition is_empty (w : Window) : bool := match tabs w with [] => true | _ => false end.
Definition len (w : Window) : nat := length (tabs w).

Definition is_tab_parked (w : Window) (t : TabId) : bool := bool_decide (t ∈ parked_tabs w).

Definition parked_tab_ids (w : Window) : list TabId := filter (fun t => t ∈ parked_tabs w) (tabs w).

Definition get_by_idx (w : Window) (idx : nat) : option TabId := tabs w !! idx.

Definition visible_len (w : Window) : nat := (length (tabs w) - size (parked_tabs w))%nat.

Definition get_visible_by_idx (w : Window) (idx : nat) : option TabId := iter_visible w !! idx.

(** [Iterator::position] of an id. *)
Fixpoint position (l : list TabId) (t : TabId) : option nat :=
  match l with
  | [] => None
  | x :: l => if x =? t then Some 0%nat else S <$> position l t
  end.

Definition visible_idx_by_id (w : Window) (t : TabId) : option nat := position (iter_visible w) t.

Definition idx_by_id (w : Window) (t : TabId) : option nat := position (tabs w) t.

(** ** Operations *)

Section Operations.
Context `{TabEnv}.

(** [Mux::get()], a panic when there is no mux. *)
Definition get_mux : WM unit := if has_mux then mret tt else panic.

(** [Window::new]; [id] is the next value of the counter [WIN_ID], and
    [active_workspace] what the mux answers. *)
Definition window_new (id : WindowId) (active_workspace : string) (workspace : option string)
    (pos : option GuiPosition) : option Window :=
  match workspace with
  | Some ws => Some (mkWindow id [] ∅ ws EmptyString pos)
  | None => if has_mux then Some (mkWindow id [] ∅ active_workspace EmptyString pos) else None
  end.

Definition set_win_title (s : string) : WM unit :=
  w ← gets id;
  if bool_decide (win_title w <> s) then
    modify (put_win_title s);;
    (if has_mux then emit (WindowTitleChanged (window_id w) s) else mret tt)
  else mret tt.

Definition set_title_from_remote (s : string) : WM unit :=
  w ← gets id;
  if bool_decide (win_title w <> s) then modify (put_win_title s) else mret tt.

Definition set_workspace (s : string) : WM unit :=
  w ← gets id;
  if bool_decide (s = workspace w) then mret tt
  else modify (put_workspace s);; get_mux;; emit (WindowWorkspaceChanged (window_id w)).

Definition check_that_tab_isnt_already_in_window (t : TabId) : WM unit :=
  w ← gets id; lift (rust_assert (negb (bool_decide (t ∈ tabs w)))).

Definition invalidate : WM unit :=
  get_mux;;
  w ← gets id;
  emit (TabCall RequestSessionSave);;
  emit (TabCall (WindowInvalidated (window_id w))).

Definition insert_tab (index : nat) (t : TabId) : WM unit :=
  check_that_tab_isnt_already_in_window t;;
  w ← gets id;
  ts ← lift (vec_insert (tabs w) index t);
  modify (set_tabs ts);;
  invalidate.

Definition push (t : TabId) : WM unit :=
  check_that_tab_isnt_already_in_window t;;
  w ← gets id;
  modify (set_tabs (tabs w ++ [t]));;
  invalidate.

Definition move_by_idx (from to : nat) : WM TabId :=
  w ← gets id;
  if (from =? to)%nat then lift (tabs w !! from)
  else
    '(t, ts) ← lift (vec_remove (tabs w) from);
    ts ← lift (vec_insert ts to t);
    modify (set_tabs ts);;
    invalidate;;
    mret t.

Definition apply_tab_order (tab_ids : list TabId) : WM (result bool WindowError) :=
  w ← gets id;
  if negb (length tab_ids =? length (tabs w))%nat then mret (Err OrderLength)
  else
    let desired := hash_set tab_ids in
    if negb (size desired =? length tab_ids)%nat then mret (Err OrderDuplicate)
    else if negb (bool_decide (desired = hash_set (tabs w))) then mret (Err OrderMismatch)
    else if bool_decide (tabs w = tab_ids) then mret (Ok false)
    else
      let by_id : gmap TabId TabId := list_to_map ((fun t => (t, t)) <$> tabs w) in
      modify (set_tabs []);;
      ts ← lift (mapM (fun t => by_id !! t) tab_ids);
      modify (set_tabs ts);;
      mret (Ok true).

(** The loop of [apply_tab_order_subset]: the listed tabs are replaced in turn by
    those of [ordered]. *)
Fixpoint refill (desired : gset TabId) (by_id : gmap TabId TabId) (ts ordered : list TabId)
  : option (list TabId) :=
  match ts with
  | [] => Some []
  | t :: ts =>
      if bool_decide (t ∈ desired) then
        match ordered with
        | [] => None
        | tab_id :: ordered =>
            t ← by_id !! tab_id;
            ts ← refill desired by_id ts ordered;
            Some (t :: ts)
        end
      else ts ← refill desired by_id ts ordered; Some (t :: ts)
  end.

Definition apply_tab_order_subset (tab_ids : list TabId) : WM (result bool WindowError) :=
  w ← gets id;
  let desired := hash_set tab_ids in
  if negb (size desired =? length tab_ids)%nat then mret (Err SubsetDuplicate)
  else
    let current_subset := filter (fun t => t ∈ desired) (tabs w) in
    if negb (length current_subset =? length tab_ids)%nat then mret (Err SubsetUnknown)
    else if bool_decide (current_subset = tab_ids) then mret (Ok false)
    else
      let by_id : gmap TabId TabId := list_to_map ((fun t => (t, t)) <$> current_subset) in
      ts ← lift (refill desired by_id (tabs w) tab_ids);
      modify (set_tabs ts);;
      mret (Ok true).

Definition move_visible_by_idx (from to : nat) : WM (result TabId WindowError) :=
  w ← gets id;
  let visible := iter_visible w in
  if negb ((from <? length visible)%nat && (to <? length visible)%nat) then mret (Err IndexOutOfRange)
  else
    '(moved, visible) ← lift (vec_remove visible from);
    visible ← lift (vec_insert visible to moved);
    r ← apply_tab_order_subset visible;
    match r with
    | Err e => mret (Err e)
    | Ok changed => (if changed : bool then invalidate else mret tt);; mret (Ok moved)
    end.

Definition apply_parked_tabs (tab_ids parked_ids : list TabId) : WM (result bool WindowError) :=
  w ← gets id;
  if negb (bool_decide (tab_ids = tabs w)) then mret (Err ParkedStale)
  else
    let parked := hash_set parked_ids in
    if negb (size parked =? length parked_ids)%nat then mret (Err ParkedDuplicate)
    else if negb (bool_decide (parked ⊆ hash_set (tabs w))) then mret (Err ParkedUnknown)
    else if negb (size parked <? length (tabs w))%nat then mret (Err LastVisibleTab)
    else if bool_decide (parked = parked_tabs w) then mret (Ok false)
    else modify (set_parked parked);; mret (Ok true).

Definition apply_parked_tabs_subset (domain_tab_ids parked_ids : list TabId)
  : WM (result bool WindowError) :=
  w ← gets id;
  let domain := hash_set domain_tab_ids in
  if negb (size domain =? length domain_tab_ids)%nat then mret (Err ParkedDomainDuplicate)
  else
    let current := hash_set (tabs w) in
    if negb (bool_decide (domain ⊆ current)) then mret (Err ParkedDomainUnknown)
    else
      let parked := hash_set parked_ids in
      if negb ((size parked =? length parked_ids)%nat && bool_decide (parked ⊆ domain))
      then mret (Err ParkedNotInDomain)
      else
        let desired := filter (fun t => t ∉ domain) (parked_tabs w) ∪ parked in
        if negb (size desired <? size current)%nat then mret (Err LastVisibleTab)
        else if bool_decide (desired = parked_tabs w) then mret (Ok false)
        else modify (set_parked desired);; mret (Ok true).

Definition remove_by_idx (idx : nat) : WM TabId :=
  invalidate;;
  w ← gets id;
  '(t, ts) ← lift (vec_remove (tabs w) idx);
  modify (fun w => set_parked (parked_tabs w ∖ {[t]}) (set_tabs ts w));;
  mret t.

Definition remove_by_id (t : TabId) : WM unit :=
  w ← gets id;
  match idx_by_id w t with
  | Some idx =>
      '(_, ts) ← lift (vec_remove (tabs w) idx);
      modify (fun w => set_parked (parked_tabs w ∖ {[t]}) (set_tabs ts w));;
      invalidate
  | None => mret tt
  end.

(** ** Operations that reach into the tabs *)

Abbreviation WHM := (CallM (Window * Heap) Notice).

(** A computation on the window, and one on the object of a tab. *)
Definition on_window {A} (m : WM A) : WHM A := fun '(w, h) =>
  match m w with
  | Some (a, w, tr) => Some (a, (w, h), tr)
  | None => None
  end.

Definition on_tab {A} (t : TabId) (m : Tab.M A) : WHM A := fun '(w, h) =>
  s ← h !! t;
  match m s with
  | Some (a, s, tr) => Some (a, (w, <[t := s]> h), TabCall <$> tr)
  | None => None
  end.

(** [Mux::tab_has_cached_agent_restore_intent]. *)
Definition tab_has_cached_agent_restore_intent : Tab.M bool :=
  panes ← iter_panes_ignoring_zoom;
  mret (existsb (fun pos => has_cached_agent_restore_intent (pp_pane pos)) panes).

(** The short-circuiting loop of [Window::can_close_without_prompting]. *)
Fixpoint tabs_can_close (ts : list TabId) : WHM bool :=
  match ts with
  | [] => mret true
  | t :: ts =>
      ok ← on_tab t (Tab.can_close_without_prompting CloseWindow);
      if negb ok then mret false else tabs_can_close ts
  end.

Definition window_can_close_without_prompting : WHM bool :=
  w ← gets fst; tabs_can_close (tabs w).

(** The first [filter_map] of [prune_dead_tabs]: prune the panes of each tab and collect
    the dead tabs; [invalidated] is the flag it sets. *)
Fixpoint collect_dead (ts : list TabId) (invalidated : bool) : WHM (list TabId * bool) :=
  match ts with
  | [] => mret ([], invalidated)
  | t :: ts =>
      pruned ← on_tab t prune_dead_panes;
      dead ← on_tab t is_dead;
      drop_it ← (if dead : bool then
                   on_window get_mux;;
                   intent ← on_tab t tab_has_cached_agent_restore_intent;
                   mret (negb intent)
                 else mret false);
      '(rest, invalidated) ← collect_dead ts (invalidated || pruned);
      mret (if drop_it : bool then t :: rest else rest, invalidated)
  end.

Fixpoint remove_all (dead : list TabId) : WM unit :=
  match dead with
  | [] => mret tt
  | t :: dead => remove_by_id t;; remove_all dead
  end.

Definition prune_dead_tabs (live_tab_ids : list TabId) : WHM unit :=
  w ← gets fst;
  '(dead, invalidated) ← collect_dead (tabs w) false;
  on_window (remove_all dead);;
  w ← gets fst;
  on_window (remove_all (filter (fun t => t ∉ live_tab_ids) (tabs w)));;
  if invalidated || match dead with [] => false | _ => true end then on_window invalidate
  else mret tt.

End Operations.
