(* ===== verification/WindowProps.v ===== *)
(** The theorems on windows: what every operation keeps, what a new order of the tabs
    does, and when tabs can be parked. *)

From Stdlib Require Import ZArith Lia String.
From S2P Require Import Prelude CallMonad BinTree TermSize PaneTree Tab TabProps Window.
From stdpp Require Import base numbers list option gmap sets strings.
Local Open Scope Z_scope.

(** ** The invariant *)

Record window_wf (w : Window) : Prop := {
  wf_tabs : NoDup (tabs w);
  wf_parked : parked_tabs w ⊆ hash_set (tabs w)
}.

(** ** Lists as sets *)

Lemma elem_of_hash_set t l : t ∈ hash_set l <-> t ∈ l.
Proof. apply elem_of_list_to_set. Qed.

Lemma hash_set_size l : (size (hash_set l) <= length l)%nat.
Proof.
  induction l as [|x l IH]; cbn; [by rewrite size_empty|].
  unfold hash_set in *. rewrite size_union_alt, size_singleton.
  enough (size (list_to_set l ∖ {[x]} : gset TabId) <= size (list_to_set l : gset TabId))%nat by lia.
  apply subseteq_size, subseteq_difference_l. done.
Qed.

Lemma hash_set_nodup l : size (hash_set l) = length l <-> NoDup l.
Proof.
  split; [|apply size_list_to_set].
  induction l as [|x l IH]; [constructor|]. intros E. pose proof (hash_set_size l) as B.
  unfold hash_set in *. cbn [list_to_set length] in E.
  destruct (decide (x ∈ l)) as [Hx|Hx].
  - rewrite subseteq_union_1_L in E by set_solver. lia.
  - rewrite size_union, size_singleton in E by set_solver. constructor; [done|]. apply IH. lia.
Qed.

Lemma hash_set_eq l k : NoDup l -> NoDup k -> hash_set l = hash_set k <-> l ≡ₚ k.
Proof.
  intros Hl Hk. split; intros E.
  - apply NoDup_Permutation; [done..|]. intros x. by rewrite <- !elem_of_hash_set, E.
  - apply set_eq. intros x. by rewrite !elem_of_hash_set, E.
Qed.

Lemma filter_notin_perm (X : gset TabId) (l : list TabId) :
  NoDup l -> X ⊆ hash_set l -> (length (filter (fun t => t ∉ X) l) + size X = length l)%nat.
Proof.
  intros Hl Hs.
  assert (E : hash_set l = hash_set (filter (fun t => t ∉ X) l) ∪ X).
  { apply set_eq. intros x. rewrite elem_of_union, !elem_of_hash_set, list_elem_of_filter.
    specialize (Hs x). rewrite elem_of_hash_set in Hs. destruct (decide (x ∈ X)); intuition. }
  apply hash_set_nodup in Hl as Hsz. rewrite <- Hsz, E, size_union.
  - f_equal. symmetry. by apply hash_set_nodup, NoDup_filter.
  - intros x. rewrite elem_of_hash_set, list_elem_of_filter. intuition.
Qed.

(** ** The map of tabs by id *)

Lemma by_id_lookup (l : list TabId) t :
  t ∈ l -> (list_to_map ((fun t => (t, t)) <$> l) : gmap TabId TabId) !! t = Some t.
Proof.
  induction l as [|x l IH]; [by intros ?%elem_of_nil|]. intros Ht. cbn.
  destruct (decide (x = t)) as [->|Hx]; [by rewrite lookup_insert_eq|].
  rewrite lookup_insert_ne by done. apply IH. set_solver.
Qed.

Lemma mapM_by_id (l ids : list TabId) :
  (forall t, t ∈ ids -> t ∈ l) ->
  mapM (fun t => (list_to_map ((fun t => (t, t)) <$> l) : gmap TabId TabId) !! t) ids = Some ids.
Proof.
  induction ids as [|t ids IH]; [done|]. intros Hin. cbn [mapM].
  rewrite by_id_lookup by set_solver. msimpl. rewrite IH by set_solver. done.
Qed.

(** ** New orders *)

Lemma gets_run {St Ev A B} (f : St -> A) (k : A -> CallM St Ev B) st :
  (gets f ≫= k) st = k (f st) st.
Proof. by erewrite silent_run by done. Qed.

(** Run the reads, the tests and the changes of a window's operation. *)
Ltac window_step :=
  first [ rewrite gets_run; unfold id; cbv zeta beta | rewrite modify_run
        | match goal with
          | |- context [(if negb (?x =? ?y)%nat then _ else _) _] =>
              destruct (Nat.eqb_spec x y); cbn [negb]
          | |- context [(if bool_decide ?P then _ else _) _] => destruct (bool_decide_reflect P)
          | |- context [(if negb (bool_decide ?P) then _ else _) _] =>
              destruct (bool_decide_reflect P); cbn [negb]
          end ].

Lemma apply_tab_order_run w ids :
  NoDup (tabs w) ->
  exists r w', apply_tab_order ids w = Some (r, w', []) /\
    match r with
    | Ok changed => ids ≡ₚ tabs w /\ w' = set_tabs ids w /\ (changed = false <-> tabs w = ids)
    | Err _ => ~ ids ≡ₚ tabs w /\ w' = w
    end.
Proof.
  intros Hw. unfold apply_tab_order. window_step.
  assert (Fail : forall e : WindowError, (ids ≡ₚ tabs w -> False) -> exists r w',
    (mret (Err e) : WM (result bool WindowError)) w = Some (r, w', []) /\
    match r with
    | Ok changed => ids ≡ₚ tabs w /\ w' = set_tabs ids w /\ (changed = false <-> tabs w = ids)
    | Err _ => ~ ids ≡ₚ tabs w /\ w' = w
    end) by (intros e He; by exists (Err e), w).
  window_step; [|apply Fail; by intros ?%Permutation_length].
  window_step; [|apply Fail; intros E; apply n, hash_set_nodup; by rewrite E].
  apply hash_set_nodup in e0 as Hn.
  window_step; [|apply Fail; intros E; apply n; by apply hash_set_eq].
  assert (P : ids ≡ₚ tabs w) by (by apply hash_set_eq).
  window_step.
  - exists (Ok false), w. split_and!; try done. rewrite <- e2. by destruct w.
  - exists (Ok true), (set_tabs ids w). split_and!; [|done..].
    window_step. erewrite silent_run.
    2: { apply lift_run, mapM_by_id. intros t. by rewrite P. }
    by rewrite modify_run.
Qed.

(** The tabs that are not listed keep their places. *)
Definition keeps_others (P : TabId -> Prop) (ts ts' : list TabId) : Prop :=
  length ts' = length ts /\ forall i t, P t -> ts !! i = Some t <-> ts' !! i = Some t.

Lemma keeps_others_cons (P : TabId -> Prop) x y ts ts' :
  keeps_others P ts ts' -> (x = y \/ (~ P x /\ ~ P y)) -> keeps_others P (x :: ts) (y :: ts').
Proof.
  intros [L K] Hxy. split; [cbn; lia|]. intros [|i] t Ht; cbn; [|by apply K].
  split; intros [= ->]; destruct Hxy as [->|[]]; done.
Qed.

Lemma refill_spec (desired : gset TabId) by_id ts ordered :
  (forall t, t ∈ ordered -> t ∈ desired /\ by_id !! t = Some t) ->
  length (filter (fun t => t ∈ desired) ts) = length ordered ->
  exists ts', refill desired by_id ts ordered = Some ts' /\
    filter (fun t => t ∈ desired) ts' = ordered /\
    filter (fun t => t ∉ desired) ts' = filter (fun t => t ∉ desired) ts /\
    keeps_others (fun t => t ∉ desired) ts ts'.
Proof.
  revert ordered. induction ts as [|t ts IH]; intros ordered Ho L.
  { destruct ordered; [|done]. exists []. by split_and!. }
  cbn [refill]. rewrite filter_cons in L. destruct (decide (t ∈ desired)) as [Ht|Ht].
  - rewrite bool_decide_true by done. destruct ordered as [|o ordered]; [done|].
    destruct (Ho o) as [Hd Hb]; [set_solver|]. rewrite Hb. msimpl.
    destruct (IH ordered) as (ts' & -> & E1 & E2 & K); [set_solver|by injection L|].
    exists (o :: ts'). msimpl. rewrite !filter_cons, !decide_True, !(decide_False (P := _ ∉ desired)) by naive_solver.
    split_and!; [done|by rewrite E1|done|]. apply keeps_others_cons; [done|]. right. naive_solver.
  - rewrite bool_decide_false by done.
    destruct (IH ordered) as (ts' & -> & E1 & E2 & K); [done..|].
    exists (t :: ts'). msimpl. rewrite !filter_cons, !(decide_True (P := _ ∉ desired)), !decide_False by done.
    split_and!; [done|done|by rewrite E2|]. apply keeps_others_cons; [done|by left].
Qed.

(** The listed tabs of a window, when the list is sound. *)
Lemma subset_length w ids :
  NoDup (tabs w) -> NoDup ids ->
  length (filter (fun t => t ∈ hash_set ids) (tabs w)) = length ids <-> ids ⊆ tabs w.
Proof.
  intros Hw Hi.
  assert (S : filter (fun t => t ∈ hash_set ids) (tabs w) ⊆ ids).
  { intros t [Ht%elem_of_hash_set _]%list_elem_of_filter. done. }
  assert (N : NoDup (filter (fun t => t ∈ hash_set ids) (tabs w))) by by apply NoDup_filter.
  split.
  - intros L t Ht. assert (P : filter (fun t => t ∈ hash_set ids) (tabs w) ≡ₚ ids).
    { apply submseteq_length_Permutation; [by apply NoDup_submseteq|lia]. }
    rewrite <- P in Ht. by apply list_elem_of_filter in Ht as [_ ?].
  - intros Hs. apply Permutation_length, NoDup_Permutation; [done..|]. intros t.
    rewrite list_elem_of_filter, elem_of_hash_set. specialize (Hs t). intuition.
Qed.

Definition reorders (ids : list TabId) (w w' : Window) : Prop :=
  w' = set_tabs (tabs w') w /\ filter (fun t => t ∈ ids) (tabs w') = ids /\
  filter (fun t => t ∉ ids) (tabs w') = filter (fun t => t ∉ ids) (tabs w) /\
  keeps_others (fun t => t ∉ ids) (tabs w) (tabs w').

Lemma set_tabs_same w : set_tabs (tabs w) w = w.
Proof. by destruct w. Qed.

Lemma filter_hash_set (ids ts : list TabId) : filter (fun t => t ∈ hash_set ids) ts = filter (fun t => t ∈ ids) ts.
Proof. apply list_filter_iff. intros t. apply elem_of_hash_set. Qed.

Lemma filter_not_hash_set (ids ts : list TabId) :
  filter (fun t => t ∉ hash_set ids) ts = filter (fun t => t ∉ ids) ts.
Proof. apply list_filter_iff. intros t. by rewrite elem_of_hash_set. Qed.

Lemma apply_tab_order_subset_run w ids :
  NoDup (tabs w) ->
  exists r w', apply_tab_order_subset ids w = Some (r, w', []) /\
    match r with
    | Ok changed => NoDup ids /\ ids ⊆ tabs w /\ reorders ids w w' /\
        (changed = false <-> filter (fun t => t ∈ ids) (tabs w) = ids) /\ (changed = false <-> w' = w)
    | Err _ => ~ (NoDup ids /\ ids ⊆ tabs w) /\ w' = w
    end.
Proof.
  intros Hw. unfold apply_tab_order_subset. window_step.
  window_step; [apply hash_set_nodup in e as Hn|
    exists (Err SubsetDuplicate), w; split; [done|]; split; [|done]; intros [?%hash_set_nodup _]; done].
  window_step; [apply subset_length in e0 as Hs; [|done..]|
    exists (Err SubsetUnknown), w; split; [done|]; split; [|done]; intros [_ ?%subset_length]; done].
  window_step.
  - exists (Ok false), w. split; [done|]. rewrite filter_hash_set in *.
    split; [done|]. split; [done|]. split; [|done].
    unfold reorders. rewrite set_tabs_same. by split_and!.
  - destruct (refill_spec (hash_set ids)
      (list_to_map ((fun t => (t, t)) <$> filter (fun t => t ∈ hash_set ids) (tabs w))) (tabs w) ids)
      as (ts' & E & E1 & E2 & K).
    { intros t Ht. split; [by apply elem_of_hash_set|]. apply by_id_lookup, list_elem_of_filter.
      split; [by apply elem_of_hash_set|by apply Hs]. }
    { done. }
    rewrite filter_hash_set in *. rewrite !filter_not_hash_set in E2.
    exists (Ok true), (set_tabs ts' w). erewrite silent_run by (by apply lift_run).
    rewrite modify_run. split; [done|]. split; [done|]. split; [done|]. split.
    + split; [done|]. split; [done|]. split; [done|]. destruct K as [L K]. split; [done|].
      intros i t Ht. apply K. by rewrite elem_of_hash_set.
    + split; [done|]. split; [done|]. intros Ew. exfalso. apply n. by rewrite <- Ew.
Qed.

Lemma list_filter_ext {A} (P Q : A -> Prop) `{!forall x, Decision (P x), !forall x, Decision (Q x)}
    (l : list A) :
  (forall x, x ∈ l -> P x <-> Q x) -> filter P l = filter Q l.
Proof.
  induction l as [|x l IH]; [done|]. intros E. rewrite !filter_cons, IH by (intros; apply E; by right).
  assert (E' : P x <-> Q x) by (apply E; by left).
  destruct (decide (P x)) as [Hx|Hx], (decide (Q x)) as [Hy|Hy]; tauto || done.
Qed.

Lemma reorders_perm ids w w' : reorders ids w w' -> ids ⊆ tabs w -> NoDup (tabs w) -> NoDup ids ->
  tabs w' ≡ₚ tabs w.
Proof.
  intros (_ & E1 & E2 & _) Hs Hw Hi.
  rewrite <- (filter_app_complement (fun t => t ∈ ids) (tabs w')), E1, E2.
  rewrite <- (filter_app_complement (fun t => t ∈ ids) (tabs w)) at 2. apply Permutation_app_tail.
  apply NoDup_Permutation; [done|by apply NoDup_filter|]. intros t. rewrite list_elem_of_filter.
  specialize (Hs t). intuition.
Qed.

(** A list with one element moved. *)
Definition moved_list {A} (l : list A) (from to : nat) : option (A * list A) :=
  '(x, l) ← vec_remove l from; l ← vec_insert l to x; Some (x, l).

Lemma vec_remove_lookup {A} (l : list A) i x : l !! i = Some x -> vec_remove l i = Some (x, delete i l).
Proof. unfold vec_remove. by intros ->. Qed.

Lemma moved_list_perm {A} (l : list A) from to :
  (from < length l)%nat -> (to < length l)%nat ->
  exists x l', l !! from = Some x /\ vec_insert (delete from l) to x = Some l' /\
    moved_list l from to = Some (x, l') /\ l' ≡ₚ l.
Proof.
  intros Hf Ht. destruct (lookup_lt_is_Some_2 _ _ Hf) as [x E].
  assert (Ld : length (delete from l) = (length l - 1)%nat) by (by apply length_delete).
  assert (V : vec_insert (delete from l) to x =
              Some (take to (delete from l) ++ x :: drop to (delete from l))).
  { unfold vec_insert. by rewrite (proj2 (Nat.leb_le _ _)) by lia. }
  exists x, (take to (delete from l) ++ x :: drop to (delete from l)). split_and!; [done..| |].
  - unfold moved_list. rewrite (vec_remove_lookup _ _ _ E). msimpl. by rewrite V.
  - rewrite <- Permutation_middle, take_drop. symmetry. by apply delete_Permutation.
Qed.

Section Moves.
Context `{TabEnv}.

Definition invalidated (w : Window) : list Notice :=
  [TabCall RequestSessionSave; TabCall (WindowInvalidated (window_id w))].

Lemma invalidate_run w : has_mux = true -> invalidate w = Some (tt, w, invalidated w).
Proof. intros E. unfold invalidate, get_mux. by rewrite E. Qed.

Lemma iter_visible_elem w t : t ∈ iter_visible w <-> (t ∉ parked_tabs w) /\ t ∈ tabs w.
Proof. unfold iter_visible. by rewrite list_elem_of_filter. Qed.

Lemma move_visible_run w from to :
  has_mux = true -> NoDup (tabs w) ->
  (from < length (iter_visible w))%nat -> (to < length (iter_visible w))%nat ->
  exists moved l w', moved_list (iter_visible w) from to = Some (moved, l) /\
    move_visible_by_idx from to w =
      Some (Ok moved, w', if bool_decide (l = iter_visible w) then [] else invalidated w) /\
    iter_visible w' = l /\ w' = set_tabs (tabs w') w /\
    keeps_others (fun t => t ∈ parked_tabs w) (tabs w) (tabs w').
Proof.
  intros Hm Hw Hf Ht. destruct (moved_list_perm _ _ _ Hf Ht) as (x & l & E1 & E2 & E3 & P).
  assert (Nl : NoDup l) by (rewrite P; by apply NoDup_filter).
  assert (In : forall t, t ∈ l <-> (t ∉ parked_tabs w) /\ t ∈ tabs w).
  { intros t. by rewrite P, iter_visible_elem. }
  assert (Sl : l ⊆ tabs w) by (intros t Hl; by apply In in Hl as []).
  assert (Fv : forall ts : list TabId, (forall t, t ∈ ts -> t ∈ tabs w) ->
            filter (fun t => t ∈ l) ts = filter (fun t => t ∉ parked_tabs w) ts).
  { intros ts Hts. apply list_filter_ext. intros t Hin%Hts. rewrite In. intuition. }
  destruct (apply_tab_order_subset_run w l Hw) as ([changed|e] & w' & R & Spec);
    [|by destruct Spec as [[] _]].
  destruct Spec as (_ & _ & Re & C & _). pose proof (reorders_perm _ _ _ Re Sl Hw Nl) as Pt.
  destruct Re as (E' & F1 & F2 & K1 & K2).
  exists x, l, w'. split; [done|]. split; [|split; [|split; [done|]]].
  - unfold move_visible_by_idx. window_step.
    rewrite (proj2 (Nat.ltb_lt _ _) Hf), (proj2 (Nat.ltb_lt _ _) Ht). cbn [negb andb].
    erewrite silent_run by (by apply lift_run, vec_remove_lookup). cbv beta iota.
    erewrite silent_run by (by apply lift_run). rewrite (bind_run _ _ _ _ _ _ R). cbv beta iota.
    rewrite Fv in C by done. fold (iter_visible w) in C. destruct changed.
    + rewrite bool_decide_false by (intros El; by apply eq_sym, C in El).
      rewrite (bind_run _ _ _ _ _ _ (invalidate_run _ Hm)). by rewrite E'.
    + rewrite bool_decide_true; [done|]. symmetry. by apply C.
  - unfold iter_visible. rewrite E'. cbn. rewrite <- Fv, F1; [done|]. intros t. by rewrite Pt.
  - split; [done|]. intros i t Hp. apply K2. rewrite In. intuition.
Qed.
End Moves.

(** ** Parking *)

(** Whether parking [parked] leaves a tab of the window to be seen. *)
Lemma some_visible (ts : list TabId) (parked : gset TabId) :
  NoDup ts -> parked ⊆ hash_set ts ->
  (size parked < length ts)%nat <-> exists t, t ∈ ts /\ t ∉ parked.
Proof.
  intros Hn Hs. pose proof (filter_notin_perm parked ts Hn Hs) as E. split.
  - intros L. destruct (filter (fun t => t ∉ parked) ts) as [|t l] eqn:F; [cbn in E; lia|].
    exists t. assert (Ht : t ∈ filter (fun t => t ∉ parked) ts) by (rewrite F; by left).
    apply list_elem_of_filter in Ht as [? ?]. done.
  - intros (t & Ht & Hp). assert (Hf : t ∈ filter (fun t => t ∉ parked) ts) by (by apply list_elem_of_filter).
    destruct (filter (fun t => t ∉ parked) ts); [by apply elem_of_nil in Hf|]. cbn in E. lia.
Qed.

Lemma hash_set_subseteq (l k : list TabId) : hash_set l ⊆ hash_set k <-> l ⊆ k.
Proof.
  split; intros E t Ht.
  - apply elem_of_hash_set, E. by apply elem_of_hash_set.
  - apply elem_of_hash_set, E. by apply elem_of_hash_set.
Qed.

(** What a parking request must satisfy, and that it leaves a visible tab. *)
Definition parking_ok (w : Window) (ids parked : list TabId) : Prop :=
  ids = tabs w /\ NoDup parked /\ parked ⊆ tabs w /\ exists t, t ∈ tabs w /\ t ∉ parked.

Definition domain_parking_ok (w : Window) (domain parked : list TabId) : Prop :=
  NoDup domain /\ domain ⊆ tabs w /\ NoDup parked /\ parked ⊆ domain /\
  exists t, t ∈ tabs w /\ (t ∉ parked) /\ (t ∈ domain \/ t ∉ parked_tabs w).

(** What is parked after a request for the tabs of a domain. *)
Definition parked_after (w : Window) (domain parked : list TabId) : gset TabId :=
  filter (fun t => t ∉ hash_set domain) (parked_tabs w) ∪ hash_set parked.

Lemma set_parked_same w : set_parked (parked_tabs w) w = w.
Proof. by destruct w. Qed.

(** An operation that either does what [ok] and [good] say, or fails and changes nothing. *)
Definition all_or_nothing {A E} (m : WM (result A E)) (w : Window) (ok : Prop) (good : A -> Window -> Prop)
  : Prop :=
  exists r w', m w = Some (r, w', []) /\
    match r with Ok a => ok /\ good a w' | Err _ => ~ ok /\ w' = w end.

Lemma all_or_nothing_gets {A B E} (f : Window -> B) (k : B -> WM (result A E)) w ok good :
  all_or_nothing (k (f w)) w ok good -> all_or_nothing (gets f ≫= k) w ok good.
Proof. unfold all_or_nothing. by rewrite gets_run. Qed.

(** A check whose failure refutes [ok]. *)
Lemma all_or_nothing_check {A E} (b : bool) (e : E) (m : WM (result A E)) w ok good :
  (b = false -> ~ ok) -> (b = true -> all_or_nothing m w ok good) ->
  all_or_nothing (if negb b then mret (Err e) else m) w ok good.
Proof. destruct b; [by auto|]. intros Hf _. exists (Err e), w. auto. Qed.

Definition parks (w : Window) (parked : gset TabId) (changed : bool) (w' : Window) : Prop :=
  w' = set_parked parked w /\ (changed = false <-> w' = w).

Lemma parks_run w parked (ok : Prop) :
  ok ->
  all_or_nothing (E := WindowError) (if bool_decide (parked = parked_tabs w) then mret (Ok false)
    else modify (set_parked parked);; mret (Ok true)) w ok (parks w parked).
Proof.
  intros Hok. destruct (bool_decide_reflect (parked = parked_tabs w)) as [->|Hp].
  - exists (Ok false), w. unfold parks. by rewrite set_parked_same.
  - exists (Ok true), (set_parked parked w). split; [done|]. split; [done|]. split; [done|].
    split; [done|]. intros E. exfalso. apply Hp. by rewrite <- E.
Qed.

Lemma apply_parked_tabs_run w ids pids :
  window_wf w ->
  all_or_nothing (apply_parked_tabs ids pids) w (parking_ok w ids pids) (parks w (hash_set pids)).
Proof.
  intros [Hn Hp]. apply all_or_nothing_gets. unfold id. cbv zeta.
  apply all_or_nothing_check; [intros Hb%bool_decide_eq_false_1; by intros [? _]|].
  intros Eb%bool_decide_eq_true_1.
  apply all_or_nothing_check; [intros Hb%Nat.eqb_neq; rewrite hash_set_nodup in Hb; by intros (_ & ? & _)|].
  intros En%Nat.eqb_eq%hash_set_nodup.
  apply all_or_nothing_check;
    [intros Hb%bool_decide_eq_false_1; rewrite hash_set_subseteq in Hb; by intros (_ & _ & ? & _)|].
  intros Es%bool_decide_eq_true_1.
  assert (Sv : (exists t, t ∈ tabs w /\ t ∉ hash_set pids) <-> exists t, t ∈ tabs w /\ t ∉ pids).
  { by setoid_rewrite elem_of_hash_set. }
  apply all_or_nothing_check.
  - intros Hb%Nat.ltb_nlt. rewrite some_visible, Sv in Hb by done. by intros (_ & _ & _ & ?).
  - intros Hv%Nat.ltb_lt%some_visible; [|done..]. apply parks_run.
    split_and!; [done|done|by apply hash_set_subseteq|by apply Sv].
Qed.

Lemma apply_parked_tabs_subset_run w domain pids :
  window_wf w ->
  all_or_nothing (apply_parked_tabs_subset domain pids) w (domain_parking_ok w domain pids)
    (parks w (parked_after w domain pids)).
Proof.
  intros [Hn Hp]. apply all_or_nothing_gets. unfold id. cbv zeta.
  apply all_or_nothing_check; [intros Hb%Nat.eqb_neq; rewrite hash_set_nodup in Hb; by intros [? _]|].
  intros Ed%Nat.eqb_eq%hash_set_nodup.
  apply all_or_nothing_check;
    [intros Hb%bool_decide_eq_false_1; rewrite hash_set_subseteq in Hb; by intros (_ & ? & _)|].
  intros Es%bool_decide_eq_true_1.
  apply all_or_nothing_check.
  { intros Hb%andb_false_iff (_ & _ & N & S & _). apply hash_set_nodup in N. apply hash_set_subseteq in S.
    destruct Hb as [Hb%Nat.eqb_neq|Hb%bool_decide_eq_false_1]; done. }
  intros [En%Nat.eqb_eq%hash_set_nodup Ep%bool_decide_eq_true_1]%andb_prop.
  fold (parked_after w domain pids).
  assert (Sp : parked_after w domain pids ⊆ hash_set (tabs w)).
  { unfold parked_after. intros t [[_ Ht]%elem_of_filter|Ht]%elem_of_union; auto. }
  assert (Sv : (exists t, t ∈ tabs w /\ t ∉ parked_after w domain pids) <->
      exists t, t ∈ tabs w /\ (t ∉ pids) /\ (t ∈ domain \/ t ∉ parked_tabs w)).
  { unfold parked_after. setoid_rewrite elem_of_union. setoid_rewrite elem_of_filter.
    setoid_rewrite elem_of_hash_set. split; intros (t & Ht & Hq); exists t; (split; [done|]);
      destruct (decide (t ∈ domain)), (decide (t ∈ parked_tabs w)); tauto. }
  rewrite (proj2 (hash_set_nodup (tabs w)) Hn). apply all_or_nothing_check.
  - intros Hb%Nat.ltb_nlt. rewrite some_visible, Sv in Hb by done. by intros (_ & _ & _ & _ & ?).
  - intros Hv%Nat.ltb_lt%some_visible; [|done..]. apply parks_run.
    split_and!; [done|by apply hash_set_subseteq|done|by apply hash_set_subseteq|by apply Sv].
Qed.

(** ** Every operation keeps the invariant *)

Lemma vec_insert_perm {A} (l : list A) i x l' : vec_insert l i x = Some l' -> l' ≡ₚ x :: l.
Proof.
  unfold vec_insert. destruct (i <=? length l)%nat; intros [= <-].
  by rewrite <- Permutation_middle, take_drop.
Qed.

Lemma vec_remove_perm {A} (l : list A) i x l' : vec_remove l i = Some (x, l') -> l ≡ₚ x :: l'.
Proof.
  unfold vec_remove. destruct (l !! i) eqn:E; intros [= <- <-]. by apply delete_Permutation.
Qed.

Lemma wf_perm w ts : window_wf w -> ts ≡ₚ tabs w -> window_wf (set_tabs ts w).
Proof.
  intros [Hn Hp] P. split; cbn; [by rewrite P|]. intros t Ht%Hp. rewrite elem_of_hash_set in *. by rewrite P.
Qed.

Lemma wf_add w t ts : window_wf w -> t ∉ tabs w -> ts ≡ₚ t :: tabs w -> window_wf (set_tabs ts w).
Proof.
  intros [Hn Hp] Ht P. split; cbn; [rewrite P; by constructor|]. intros x Hx%Hp.
  rewrite elem_of_hash_set in *. rewrite P. by right.
Qed.

Lemma wf_remove w t ts :
  window_wf w -> tabs w ≡ₚ t :: ts -> window_wf (set_parked (parked_tabs w ∖ {[t]}) (set_tabs ts w)).
Proof.
  intros [Hn Hp] P. split; cbn.
  - rewrite P in Hn. by apply NoDup_cons in Hn as [_ ?].
  - intros x [Hx Hne]%elem_of_difference. apply Hp in Hx. rewrite elem_of_hash_set in *. rewrite P in Hx.
    set_solver.
Qed.

Lemma wf_parks w parked : window_wf w -> parked ⊆ hash_set (tabs w) -> window_wf (set_parked parked w).
Proof. intros [Hn Hp] S. by split. Qed.

Create HintDb window.
Create HintDb keeps.
#[export] Hint Resolve wf_perm wf_add wf_remove wf_parks : window.

Section Invariant.
Context `{TabEnv}.

Definition keeps_wf {A} (m : WM A) : Prop :=
  forall w a w' tr, window_wf w -> m w = Some (a, w', tr) -> window_wf w'.

Lemma invalidate_inv w a w' tr : invalidate w = Some (a, w', tr) -> w' = w.
Proof. unfold invalidate, get_mux. destruct has_mux; [|done]. by intros [= _ <- _]. Qed.

(** Take a run apart. *)
Ltac run_inv :=
  repeat match goal with
  | E : (_ ≫= _) _ = Some _ |- _ =>
      apply bind_inv in E as (? & ? & ? & ? & ? & ? & ? & ? & [= -> -> ->])
  | E : gets _ _ = Some _ |- _ => injection E as <- <- <-
  | E : modify _ _ = Some _ |- _ => injection E as <- <- <-
  | E : emit _ _ = Some _ |- _ => injection E as <- <- <-
  | E : mret _ _ = Some _ |- _ => injection E as <- <- <-
  | E : invalidate _ = Some _ |- _ => apply invalidate_inv in E as ->
  | E : lift ?o _ = Some _ |- _ =>
      let E' := fresh "E" in
      unfold lift in E; destruct o eqn:E'; [injection E as <- <- <-|done]
  | p : (_ * _)%type |- _ => destruct p
  | E : (if ?b then _ else _) _ = Some _ |- _ => destruct b eqn:?
  | E : (match ?x with Some _ => _ | None => _ end) _ = Some _ |- _ => destruct x eqn:?
  end.

Lemma check_absent w t a w' tr :
  check_that_tab_isnt_already_in_window t w = Some (a, w', tr) -> w' = w /\ t ∉ tabs w.
Proof.
  unfold check_that_tab_isnt_already_in_window. intros E. run_inv. split; [done|].
  unfold rust_assert, id in *. destruct (bool_decide_reflect (t ∈ tabs w)); done.
Qed.

Lemma insert_tab_wf i t : keeps_wf (insert_tab i t).
Proof.
  intros w a w' tr Hw E. unfold insert_tab in E. run_inv.
  apply check_absent in H0 as [-> Ht]. eauto using vec_insert_perm with window.
Qed.

Lemma push_wf t : keeps_wf (push t).
Proof.
  intros w a w' tr Hw E. unfold push in E. run_inv.
  apply check_absent in H0 as [-> Ht]. apply (wf_add _ t); [done..|]. unfold id.
  by rewrite Permutation_app_comm.
Qed.

Lemma move_by_idx_wf from to : keeps_wf (move_by_idx from to).
Proof.
  intros w a w' tr Hw E. unfold move_by_idx in E. run_inv; [done|].
  match goal with E1 : vec_remove _ _ = _, E2 : vec_insert _ _ _ = _ |- _ =>
    apply vec_remove_perm in E1; apply vec_insert_perm in E2 end.
  apply wf_perm; [done|]. unfold id in *. by etrans.
Qed.

Lemma remove_by_idx_wf i : keeps_wf (remove_by_idx i).
Proof.
  intros w a w' tr Hw E. unfold remove_by_idx in E. run_inv. eauto using vec_remove_perm with window.
Qed.

Lemma position_Some l t i : position l t = Some i -> l !! i = Some t.
Proof.
  revert i. induction l as [|x l IH]; [done|]. intros i. cbn.
  destruct (Z.eqb_spec x t) as [->|]; [by intros [= <-]|].
  destruct (position l t) as [j|]; [|done]. intros [= <-]. by apply IH.
Qed.

Lemma position_None l t : position l t = None <-> t ∉ l.
Proof.
  induction l as [|x l IH]; [by split; [intros _ ?%elem_of_nil|]|]. cbn.
  destruct (Z.eqb_spec x t) as [->|Hx]; [split; [done|set_solver]|].
  rewrite not_elem_of_cons, fmap_None, IH. intuition.
Qed.

Lemma remove_by_id_wf t : keeps_wf (remove_by_id t).
Proof.
  intros w a w' tr Hw E. unfold remove_by_id in E. run_inv; [|done].
  match goal with Ei : idx_by_id _ _ = Some _, Er : vec_remove _ _ = Some _ |- _ =>
    apply position_Some in Ei; unfold vec_remove in Er; unfold id in *; rewrite Ei in Er;
    injection Er as <- <- end.
  apply wf_remove; [done|]. by apply delete_Permutation.
Qed.

Lemma set_win_title_wf s : keeps_wf (set_win_title s).
Proof. intros w a w' tr [? ?] E. unfold set_win_title in E. by run_inv. Qed.

Lemma set_title_from_remote_wf s : keeps_wf (set_title_from_remote s).
Proof. intros w a w' tr [? ?] E. unfold set_title_from_remote in E. by run_inv. Qed.

Lemma set_workspace_wf s : keeps_wf (set_workspace s).
Proof.
  intros w a w' tr [? ?] E. unfold set_workspace, get_mux in E. by run_inv.
Qed.

(** The operations that fail or succeed as a whole. *)
Lemma apply_tab_order_wf ids : keeps_wf (apply_tab_order ids).
Proof.
  intros w a w' tr Hw E. destruct (apply_tab_order_run w ids) as (r & w2 & E2 & Spec); [apply Hw|].
  rewrite E2 in E. injection E as -> -> _. destruct a as [c|e].
  - destruct Spec as (P & -> & _). by apply wf_perm.
  - by destruct Spec as [_ ->].
Qed.

Lemma apply_tab_order_subset_wf ids : keeps_wf (apply_tab_order_subset ids).
Proof.
  intros w a w' tr Hw E. destruct (apply_tab_order_subset_run w ids) as (r & w2 & E2 & Spec); [apply Hw|].
  rewrite E2 in E. injection E as -> -> _. destruct a as [c|e]; [|by destruct Spec as [_ ->]].
  destruct Spec as (N & S & R & _). pose proof (reorders_perm _ _ _ R S (wf_tabs _ Hw) N) as P.
  destruct R as [-> _]. by apply wf_perm.
Qed.

Lemma move_visible_by_idx_wf from to : keeps_wf (move_visible_by_idx from to).
Proof.
  intros w a w' tr Hw E. unfold move_visible_by_idx in E. run_inv; [done|].
  match goal with E1 : apply_tab_order_subset _ _ = Some _ |- _ =>
    apply apply_tab_order_subset_wf in E1; [|done] end.
  match goal with E1 : (match ?r with Ok _ => _ | Err _ => _ end) _ = Some _ |- _ => destruct r end;
    by run_inv.
Qed.

Lemma apply_parked_tabs_wf ids pids : keeps_wf (apply_parked_tabs ids pids).
Proof.
  intros w a w' tr Hw E. destruct (apply_parked_tabs_run w ids pids Hw) as (r & w2 & E2 & Spec).
  rewrite E2 in E. injection E as -> -> _. destruct a as [c|e]; [|by destruct Spec as [_ ->]].
  destruct Spec as ((_ & _ & S & _) & -> & _). by apply wf_parks, hash_set_subseteq.
Qed.

Lemma apply_parked_tabs_subset_wf domain pids : keeps_wf (apply_parked_tabs_subset domain pids).
Proof.
  intros w a w' tr Hw E. destruct (apply_parked_tabs_subset_run w domain pids Hw) as (r & w2 & E2 & Spec).
  rewrite E2 in E. injection E as -> -> _. destruct a as [c|e]; [|by destruct Spec as [_ ->]].
  destruct Spec as ((_ & D & _ & S & _) & -> & _). apply wf_parks; [done|]. unfold parked_after.
  intros t [[_ Ht]%elem_of_filter|Ht]%elem_of_union; [by apply Hw|].
  rewrite elem_of_hash_set in *. by apply D, S.
Qed.

Definition keeps_wf_heap {A} (m : CallM (Window * Heap) Notice A) : Prop :=
  forall w h a w' h' tr, window_wf w -> m (w, h) = Some (a, (w', h'), tr) -> window_wf w'.

Lemma on_window_wf {A} (m : WM A) : keeps_wf m -> keeps_wf_heap (on_window m).
Proof.
  intros K w h a w' h' tr Hw E. unfold on_window in E.
  destruct (m w) as [[[a2 w2] tr2]|] eqn:E2; [|done]. injection E as <- <- _ _. by eapply K.
Qed.

Lemma on_tab_wf {A} t (m : Tab.M A) : keeps_wf_heap (on_tab t m).
Proof.
  intros w h a w' h' tr Hw E. unfold on_tab in E. destruct (h !! t) as [s|]; [|done]. cbn in E.
  destruct (m s) as [[[a2 s2] tr2]|]; [|done]. by injection E as _ <- _ _.
Qed.

Lemma bind_wf {A B} (m : CallM (Window * Heap) Notice A) (k : A -> CallM (Window * Heap) Notice B) :
  keeps_wf_heap m -> (forall a, keeps_wf_heap (k a)) -> keeps_wf_heap (m ≫= k).
Proof.
  intros Km Kk w h a w' h' tr Hw E.
  apply bind_inv in E as (b & [w1 h1] & ? & ? & [w2 h2] & ? & E1 & E2 & [= -> <- <- ->]).
  eapply Kk; [|exact E2]. by eapply Km.
Qed.

Lemma ret_wf {A} (a : A) : keeps_wf_heap (mret a).
Proof. by intros w h b w' h' tr Hw [= _ <- _ _]. Qed.

Lemma gets_wf {A} (f : Window * Heap -> A) : keeps_wf_heap (gets f).
Proof. by intros w h b w' h' tr Hw [= _ <- _ _]. Qed.

Lemma silent_wf {A} (m : WM A) : (forall w a w' tr, m w = Some (a, w', tr) -> w' = w) -> keeps_wf m.
Proof. intros K w a w' tr Hw ->%K. done. Qed.

Lemma get_mux_wf : keeps_wf get_mux.
Proof. apply silent_wf. unfold get_mux. intros. by run_inv. Qed.

Lemma invalidate_wf : keeps_wf invalidate.
Proof. apply silent_wf, invalidate_inv. Qed.

Lemma remove_all_wf dead : keeps_wf (remove_all dead).
Proof.
  induction dead as [|t dead IH]; intros w a w' tr Hw E; cbn [remove_all] in E; run_inv; [done|].
  eapply IH; [|done]. by eapply remove_by_id_wf.
Qed.

#[local] Hint Resolve on_window_wf on_tab_wf bind_wf ret_wf gets_wf get_mux_wf invalidate_wf
  remove_all_wf : keeps.

Lemma collect_dead_wf ts b : keeps_wf_heap (collect_dead ts b).
Proof.
  revert b. induction ts as [|t ts IH]; intros b; cbn [collect_dead]; [auto with keeps|].
  apply bind_wf; [auto with keeps|]. intros pruned. apply bind_wf; [auto with keeps|]. intros dead.
  apply bind_wf; [destruct dead; auto with keeps|]. intros dropped.
  apply bind_wf; [done|]. intros [rest inv]. auto with keeps.
Qed.

Lemma prune_dead_tabs_wf live : keeps_wf_heap (prune_dead_tabs live).
Proof.
  apply bind_wf; [auto with keeps|]. intros w. apply bind_wf; [apply collect_dead_wf|].
  intros [dead inv]. apply bind_wf; [auto with keeps|]. intros _.
  apply bind_wf; [auto with keeps|]. intros w2. apply bind_wf; [auto with keeps|]. intros _.
  destruct (inv || _); auto with keeps.
Qed.

Lemma tabs_can_close_wf ts : keeps_wf_heap (tabs_can_close ts).
Proof.
  induction ts as [|t ts IH]; cbn [tabs_can_close]; [auto with keeps|].
  apply bind_wf; [auto with keeps|]. intros []; cbn; [done|auto with keeps].
Qed.

(** ** Reachable windows *)

Inductive WinOp : Set :=
| OpSetTitle (s : string) | OpSetTitleFromRemote (s : string) | OpSetWorkspace (s : string)
| OpInsert (i : nat) (t : TabId) | OpPush (t : TabId) | OpMove (from to : nat)
| OpMoveVisible (from to : nat) | OpOrder (ids : list TabId) | OpOrderSubset (ids : list TabId)
| OpPark (ids parked : list TabId) | OpParkSubset (domain parked : list TabId)
| OpRemoveIdx (i : nat) | OpRemoveId (t : TabId) | OpCanClose | OpPrune (live : list TabId).

Definition run_op (o : WinOp) : CallM (Window * Heap) Notice unit :=
  match o with
  | OpSetTitle s => on_window (set_win_title s)
  | OpSetTitleFromRemote s => on_window (set_title_from_remote s)
  | OpSetWorkspace s => on_window (set_workspace s)
  | OpInsert i t => on_window (insert_tab i t)
  | OpPush t => on_window (push t)
  | OpMove from to => on_window (move_by_idx from to);; mret tt
  | OpMoveVisible from to => on_window (move_visible_by_idx from to);; mret tt
  | OpOrder ids => on_window (apply_tab_order ids);; mret tt
  | OpOrderSubset ids => on_window (apply_tab_order_subset ids);; mret tt
  | OpPark ids parked => on_window (apply_parked_tabs ids parked);; mret tt
  | OpParkSubset domain parked => on_window (apply_parked_tabs_subset domain parked);; mret tt
  | OpRemoveIdx i => on_window (remove_by_idx i);; mret tt
  | OpRemoveId t => on_window (remove_by_id t)
  | OpCanClose => window_can_close_without_prompting;; mret tt
  | OpPrune live => prune_dead_tabs live
  end.

Fixpoint run_ops (os : list WinOp) : CallM (Window * Heap) Notice unit :=
  match os with [] => mret tt | o :: os => run_op o;; run_ops os end.

#[local] Hint Resolve set_win_title_wf set_title_from_remote_wf set_workspace_wf insert_tab_wf push_wf
  move_by_idx_wf move_visible_by_idx_wf apply_tab_order_wf apply_tab_order_subset_wf
  apply_parked_tabs_wf apply_parked_tabs_subset_wf remove_by_idx_wf remove_by_id_wf tabs_can_close_wf
  prune_dead_tabs_wf : keeps.

Lemma run_ops_wf os : keeps_wf_heap (run_ops os).
Proof.
  induction os as [|o os IH]; cbn [run_ops]; [auto with keeps|]. apply bind_wf; [|done].
  destruct o; cbn [run_op]; auto with keeps;
    (apply bind_wf; [|auto with keeps]); auto with keeps.
  apply bind_wf; auto with keeps.
Qed.

(** What a well-formed window shows. *)
Definition consistent (w : Window) : Prop :=
  NoDup (tabs w) /\ tabs w ≡ₚ iter_visible w ++ parked_tab_ids w /\
  (forall t, is_tab_parked w t = true <-> t ∈ parked_tab_ids w) /\
  visible_len w = length (iter_visible w) /\
  (forall i t, get_visible_by_idx w i = Some t <-> visible_idx_by_id w t = Some i) /\
  (forall i t, get_by_idx w i = Some t <-> idx_by_id w t = Some i).

Lemma position_spec l t i : NoDup l -> l !! i = Some t <-> position l t = Some i.
Proof.
  intros Hn. split; [|apply position_Some]. intros E.
  destruct (position l t) as [j|] eqn:P.
  - f_equal. apply position_Some in P. by eapply NoDup_lookup.
  - apply position_None in P. exfalso. apply P. by apply list_elem_of_lookup_2 in E.
Qed.

Lemma wf_consistent w : window_wf w -> consistent w.
Proof.
  intros [Hn Hp]. split_and!; [done| | | |intros i t; by apply position_spec, NoDup_filter|
    intros i t; by apply position_spec].
  - unfold iter_visible, parked_tab_ids.
    rewrite <- (filter_app_complement (fun t => t ∉ parked_tabs w) (tabs w)) at 1.
    apply Permutation_app_head. apply reflexive_eq, list_filter_iff. intros t.
    destruct (decide (t ∈ parked_tabs w)); tauto.
  - intros t. unfold is_tab_parked, parked_tab_ids. rewrite bool_decide_eq_true, list_elem_of_filter.
    split; [|by intros []]. intros Ht. split; [done|]. by apply elem_of_hash_set, Hp.
  - unfold visible_len, iter_visible. pose proof (filter_notin_perm _ _ Hn Hp). lia.
Qed.

End Invariant.

(** ** Properties *)

(** C18: However a window is used, from its creation on: no tab is in it twice, what it
    calls parked are tabs of it, each of its tabs is shown or parked,
    [visible_len] counts what it shows, and looking up by index and by id are inverse. *)
Theorem reachable_windows_consistent `{TabEnv} id active_workspace ws pos w0 h os w h' calls :
  window_new id active_workspace ws pos = Some w0 ->
  run_ops os (w0, h) = Some (tt, (w, h'), calls) ->
  consistent w.
Proof.
  intros N E. apply wf_consistent. eapply run_ops_wf; [|exact E].
  unfold window_new in N. destruct ws; [|destruct has_mux; [|done]]; injection N as <-; split; cbn; constructor || set_solver.
Qed.

(** Reordering the tabs of a window never panics. A complete order is taken exactly
    when it is a permutation of the tabs; a partial one exactly when it names tabs of the
    window once each, and then the other tabs keep their places; a visible
    tab moved among the visible ones leaves the parked tabs in place. The
    answer says whether anything changed; a refused order changes nothing. *)
Theorem tab_order_spec `{TabEnv} w :
  window_wf w ->
  (forall ids, all_or_nothing (apply_tab_order ids) w (ids ≡ₚ tabs w)
     (fun changed w' => w' = set_tabs ids w /\ (changed = false <-> tabs w = ids))) /\
  (forall ids, all_or_nothing (apply_tab_order_subset ids) w (NoDup ids /\ ids ⊆ tabs w)
     (fun changed w' => reorders ids w w' /\ (changed = false <-> w' = w))) /\
  (forall from to, has_mux = true ->
     (from < length (iter_visible w))%nat -> (to < length (iter_visible w))%nat ->
     exists moved l w', moved_list (iter_visible w) from to = Some (moved, l) /\
       move_visible_by_idx from to w =
         Some (Ok moved, w', if bool_decide (l = iter_visible w) then [] else invalidated w) /\
       iter_visible w' = l /\ w' = set_tabs (tabs w') w /\
       keeps_others (fun t => t ∈ parked_tabs w) (tabs w) (tabs w')).
Proof.
  intros [Hn _]. split; [|split].
  - intros ids. destruct (apply_tab_order_run w ids Hn) as (r & w' & E & Spec).
    exists r, w'. split; [done|]. by destruct r.
  - intros ids. destruct (apply_tab_order_subset_run w ids Hn) as (r & w' & E & Spec).
    exists r, w'. split; [done|]. destruct r; [|done]. destruct Spec as (? & ? & ? & _ & ?). done.
  - intros from to Hm Hf Ht. by apply move_visible_run.
Qed.

(** Parking never panics and changes only the parked set. A request is granted exactly when it
    names the tabs of the window in their order (or, for a domain, tabs of it), each
    parked tab once and among them, and leaves some tab visible; a domain's
    request leaves what other domains have parked. *)
Theorem parking_spec w :
  window_wf w ->
  (forall ids parked,
     all_or_nothing (apply_parked_tabs ids parked) w (parking_ok w ids parked)
       (parks w (hash_set parked))) /\
  (forall domain parked,
     all_or_nothing (apply_parked_tabs_subset domain parked) w (domain_parking_ok w domain parked)
       (parks w (parked_after w domain parked))).
Proof.
  intros Hw. split; intros; [by apply apply_parked_tabs_run|by apply apply_parked_tabs_subset_run].
Qed.

(** A window with four tabs, the second and the last of them parked. *)
Definition sample_window : Window :=
  mkWindow 1 [4; 5; 6; 7] {[5; 7]} "default" "" None.

Lemma sample_window_wf : window_wf sample_window.
Proof. split; apply (bool_decide_unpack _); by vm_compute. Qed.

Definition sample_ops : list WinOp :=
  [OpPush 4; OpPush 6; OpInsert 1 5; OpPark [4; 5; 6] [5]; OpMoveVisible 1 0; OpRemoveId 4].

Lemma reachable_windows_consistent_witness :
  exists w h calls,
    @run_ops (sample_env true false) sample_ops (mkWindow 1 [] ∅ "default" EmptyString None, ∅) =
      Some (tt, (w, h), calls) /\
    tabs w = [6; 5] /\ consistent w.
Proof.
  destruct (@run_ops (sample_env true false) sample_ops (mkWindow 1 [] ∅ "default" EmptyString None, ∅))
    as [[[[] [w h]] calls]|] eqn:E; [|vm_compute in E; discriminate].
  exists w, h, calls. split; [done|]. split; [|by apply (@reachable_windows_consistent
    (sample_env true false) 1 "default" None None (mkWindow 1 [] ∅ "default" EmptyString None) ∅
    sample_ops w h calls)].
  replace w with (default sample_window ((fun r => fst (snd (fst r))) <$>
    @run_ops (sample_env true false) sample_ops (mkWindow 1 [] ∅ "default" EmptyString None, ∅)))
    by (by rewrite E).
  vm_compute. reflexivity.
Defined.

Lemma tab_order_spec_witness :
  exists w' calls,
    @move_visible_by_idx (sample_env true false) 1 0 sample_window = Some (Ok 6, w', calls) /\
    iter_visible w' = [6; 4] /\
    keeps_others (fun t => t ∈ parked_tabs sample_window) (tabs sample_window) (tabs w').
Proof.
  destruct (@tab_order_spec (sample_env true false) sample_window sample_window_wf) as (_ & _ & M).
  destruct (M 1%nat 0%nat) as (moved & l & w' & El & E & Ev & _ & K); [done|vm_compute; lia..|].
  assert (E2 : moved_list (iter_visible sample_window) 1 0 = Some (6, [6; 4])) by (vm_compute; reflexivity).
  rewrite E2 in El. injection El as <- <-. eauto.
Defined.

Lemma parking_spec_witness :
  parking_ok sample_window [4; 5; 6; 7] [6] /\
  all_or_nothing (apply_parked_tabs [4; 5; 6; 7] [6]) sample_window
    (parking_ok sample_window [4; 5; 6; 7] [6]) (parks sample_window (hash_set [6])).
Proof.
  split; [|apply (parking_spec sample_window sample_window_wf)].
  split_and!; [done|by apply (bool_decide_unpack _); vm_compute| |exists 4; split; set_solver].
  intros t. set_solver.
Defined.
