(* ===== verification/Mux.v ===== *)
(** The multiplexer's registry and the views of its clients: the part of
    [src/mux/src/lib.rs] and [client.rs] that keeps tabs, panes and windows, which tab of each window
    every client looks at, and which pane of each tab. A client view is shared by the
    clients that name it. The locks are left out: a method runs alone. A [HashMap] is a
    [gmap]; the order in which the code meets its entries is one of many, and no theorem
    depends on it. *)

From Stdlib Require Import ZArith Lia String.
From S2P Require Import Prelude CallMonad BinTree TermSize PaneTree Tab Window.
From stdpp Require Import base numbers list option gmap sets strings.
Local Open Scope Z_scope.

(** ** Data *)

Definition ClientViewId : Set := string.

Record ClientTabViewState : Set := mkTabView { active_pane_id : option PaneId }.

Record ClientWindowViewState : Type := mkWindowView {
  active_tab_id : option TabId;
  last_active_tab_id : option TabId;
  tab_views : gmap TabId ClientTabViewState
}.

Record ClientViewState : Type := mkView { window_views : gmap WindowId ClientWindowViewState }.

(** The times of [ClientInfo] are left out. *)
Record ClientInfo : Type := mkClientInfo {
  view_id : ClientViewId;
  active_workspace_ : option string;
  focused_pane_id : option PaneId
}.

Definition TabView_default : ClientTabViewState := mkTabView None.
Definition WindowView_default : ClientWindowViewState := mkWindowView None None ∅.
Definition View_default : ClientViewState := mkView ∅.

(** *** Methods of [ClientWindowViewState] *)

Definition view_active_pane_id (ws : ClientWindowViewState) : option PaneId :=
  t ← active_tab_id ws; tv ← tab_views ws !! t; active_pane_id tv.

(** [self.tabs.entry(tab_id).or_default()], and the same followed by an assignment. *)
Definition tab_entry (ws : ClientWindowViewState) (t : TabId) : ClientTabViewState :=
  default TabView_default (tab_views ws !! t).

Definition touch_tab (t : TabId) (ws : ClientWindowViewState) : ClientWindowViewState :=
  mkWindowView (active_tab_id ws) (last_active_tab_id ws) (<[t := tab_entry ws t]> (tab_views ws)).

Definition set_active_tab (t : TabId) (ws : ClientWindowViewState) : ClientWindowViewState :=
  touch_tab t
    (if bool_decide (active_tab_id ws <> Some t)
     then mkWindowView (Some t) (active_tab_id ws) (tab_views ws) else ws).

Definition put_active_pane (t : TabId) (p : option PaneId) (ws : ClientWindowViewState)
  : ClientWindowViewState :=
  mkWindowView (active_tab_id ws) (last_active_tab_id ws) (<[t := mkTabView p]> (tab_views ws)).

Definition view_set_active_pane (t : TabId) (p : PaneId) (ws : ClientWindowViewState)
  : ClientWindowViewState := put_active_pane t (Some p) (set_active_tab t ws).

Definition clear_removed_tab (t : TabId) (ws : ClientWindowViewState) : ClientWindowViewState :=
  mkWindowView (if bool_decide (active_tab_id ws = Some t) then None else active_tab_id ws)
    (if bool_decide (last_active_tab_id ws = Some t) then None else last_active_tab_id ws)
    (delete t (tab_views ws)).

(** *** The multiplexer *)

Record Mux : Type := mkMux {
  heap : Heap;
  mux_tabs : gset TabId;
  mux_panes : gset PaneId;
  windows : gmap WindowId Window;
  client_views : gmap ClientViewId ClientViewState;
  clients : gmap ClientId ClientInfo;
  identity : option ClientId;
  num_panes_by_workspace : gmap string nat
}.

Definition set_heap v (m : Mux) : Mux :=
  mkMux v (mux_tabs m) (mux_panes m) (windows m) (client_views m) (clients m) (identity m)
    (num_panes_by_workspace m).
Definition set_mux_tabs v (m : Mux) : Mux :=
  mkMux (heap m) v (mux_panes m) (windows m) (client_views m) (clients m) (identity m)
    (num_panes_by_workspace m).
Definition set_mux_panes v (m : Mux) : Mux :=
  mkMux (heap m) (mux_tabs m) v (windows m) (client_views m) (clients m) (identity m)
    (num_panes_by_workspace m).
Definition set_windows v (m : Mux) : Mux :=
  mkMux (heap m) (mux_tabs m) (mux_panes m) v (client_views m) (clients m) (identity m)
    (num_panes_by_workspace m).
Definition set_views v (m : Mux) : Mux :=
  mkMux (heap m) (mux_tabs m) (mux_panes m) (windows m) v (clients m) (identity m)
    (num_panes_by_workspace m).
Definition set_clients v (m : Mux) : Mux :=
  mkMux (heap m) (mux_tabs m) (mux_panes m) (windows m) (client_views m) v (identity m)
    (num_panes_by_workspace m).
Definition set_pane_counts v (m : Mux) : Mux :=
  mkMux (heap m) (mux_tabs m) (mux_panes m) (windows m) (client_views m) (clients m) (identity m) v.

Abbreviation MuxM := (CallM Mux Notice).

(** The errors, by their messages. *)
Inductive MuxError : Set :=
| PaneNotFound (p : PaneId) | TabNotFound (t : TabId) | WindowNotFound (w : WindowId)
| ClientNotFound (c : ClientId) | TabNotInWindow (t : TabId) (w : WindowId)
| TabParked (t : TabId) (w : WindowId) | PaneElsewhere (p : PaneId) | NoIdentity
| OfWindow (e : WindowError).

(** What the mux asks of its surroundings. *)
Class MuxEnv : Type := {
  shutdown_in_progress : bool;
  activity_count : nat;
  default_workspace : string;
  detachable : DomainId -> option bool
}.

(** ** Lookups *)

(** [Mux::window_containing_tab]. *)
Definition window_of_tab (m : Mux) (t : TabId) : option WindowId :=
  head ((fun kw => window_id kw.2) <$> filter (fun kw => t ∈ tabs kw.2) (map_to_list (windows m))).

Definition get_tab (m : Mux) (t : TabId) : option TabId :=
  if bool_decide (t ∈ mux_tabs m) then Some t else None.

Definition get_pane (m : Mux) (p : PaneId) : option PaneId :=
  if bool_decide (p ∈ mux_panes m) then Some p else None.

Definition mux_is_empty (m : Mux) : bool := bool_decide (mux_panes m = ∅).

Definition active_view_id_for_client (m : Mux) (c : ClientId) : option ClientViewId :=
  view_id <$> clients m !! c.

Definition active_view_id (m : Mux) : option ClientViewId :=
  c ← identity m; active_view_id_for_client m c.

(** [client_views.get(view_id)?.windows.get(&window_id)?]. *)
Definition window_view (m : Mux) (v : ClientViewId) (w : WindowId) : option ClientWindowViewState :=
  view ← client_views m !! v; window_views view !! w.

Definition get_active_tab_id_for_window_for_client (m : Mux) v w : option TabId :=
  window_view m v w ≫= active_tab_id.

Definition get_last_active_tab_id_for_window_for_client (m : Mux) v w : option TabId :=
  window_view m v w ≫= last_active_tab_id.

Definition get_active_tab_for_window_for_client (m : Mux) v w : option TabId :=
  t ← get_active_tab_id_for_window_for_client m v w; get_tab m t.

Definition get_active_tab_for_window_for_current_identity (m : Mux) w : option TabId :=
  v ← active_view_id m; get_active_tab_for_window_for_client m v w.

Definition get_active_tab_idx_for_window_for_current_identity (m : Mux) w : option nat :=
  t ← get_active_tab_for_window_for_current_identity m w;
  win ← windows m !! w;
  visible_idx_by_id win t.

Definition get_last_active_tab_idx_for_window_for_current_identity (m : Mux) w : option nat :=
  v ← active_view_id m;
  t ← get_last_active_tab_id_for_window_for_client m v w;
  win ← windows m !! w;
  visible_idx_by_id win t.

Definition get_active_pane_id_for_tab_for_client (m : Mux) v w t : option PaneId :=
  ws ← window_view m v w; tv ← tab_views ws !! t; active_pane_id tv.

Definition get_active_pane_for_tab_for_client (m : Mux) v w t : option PaneId :=
  p ← get_active_pane_id_for_tab_for_client m v w t; get_pane m p.

Definition get_active_pane_for_window_for_current_identity (m : Mux) w : option PaneId :=
  v ← active_view_id m;
  t ← get_active_tab_id_for_window_for_client m v w;
  get_active_pane_for_tab_for_client m v w t.

(** ** Updates of the views

    [client_views.entry(v).or_default()], and [windows.entry(w).or_default()] in it. *)

Definition view_entry (m : Mux) (v : ClientViewId) : ClientViewState :=
  default View_default (client_views m !! v).

Definition window_entry (m : Mux) (v : ClientViewId) (w : WindowId) : ClientWindowViewState :=
  default WindowView_default (window_views (view_entry m v) !! w).

Definition put_window_view v w ws (m : Mux) : Mux :=
  set_views (<[v := mkView (<[w := ws]> (window_views (view_entry m v)))]> (client_views m)) m.

(** A change of the window state [w] of every view that has one. *)
Definition update_window_views (w : WindowId) (f : ClientWindowViewState -> ClientWindowViewState)
    (m : Mux) : Mux :=
  set_views ((fun view => mkView (alter f w (window_views view))) <$> client_views m) m.

Section Operations.
Context {TE : TabEnv} {ME : MuxEnv}.

(** What a tab asks of this mux. *)
Definition mux_env (m : Mux) : TabEnv := {|
  has_mux := true;
  debug_assertions := @debug_assertions TE;
  unzoom_on_switch_pane := @unzoom_on_switch_pane TE;
  get_dimensions := @get_dimensions TE;
  pane_resize_ok := @pane_resize_ok TE;
  domain_id := @domain_id TE;
  pane_is_dead := @pane_is_dead TE;
  pane_in_mux := fun p => bool_decide (p ∈ mux_panes m);
  has_cached_agent_restore_intent := @has_cached_agent_restore_intent TE;
  pane_can_close := @pane_can_close TE;
  window_containing_tab := window_of_tab m
|}.

(** A computation on the object of a tab, on a window, and on a window with the objects. *)
Definition with_tab {A} (t : TabId) (c : TabEnv -> CallM TabInner Call A) : MuxM A := fun m =>
  s ← heap m !! t;
  match c (mux_env m) s with
  | Some (a, s, tr) => Some (a, set_heap (<[t := s]> (heap m)) m, TabCall <$> tr)
  | None => None
  end.

Definition with_window_and_tabs {A} (w : WindowId)
    (c : TabEnv -> CallM (Window * Heap) Notice A) : MuxM (option A) := fun m =>
  match windows m !! w with
  | None => Some (None, m, [])
  | Some win =>
      match c (mux_env m) (win, heap m) with
      | Some (a, (win, h), tr) => Some (Some a, set_heap h (set_windows (<[w := win]> (windows m)) m), tr)
      | None => None
      end
  end.

Definition with_window {A} (w : WindowId) (c : TabEnv -> CallM Window Notice A) : MuxM (option A) :=
  with_window_and_tabs w (fun env => on_window (c env)).

Fixpoint for_each {A} (l : list A) (f : A -> MuxM unit) : MuxM unit :=
  match l with [] => mret tt | x :: l => f x;; for_each l f end.

(** [get_active_pane] and [iter_panes_ignoring_zoom] of a tab. *)
Definition active_pane_of (t : TabId) : MuxM (option PaneId) := with_tab t (fun _ => get_active_pane).

Definition panes_of (t : TabId) : MuxM (list PaneId) :=
  panes ← with_tab t (fun _ => iter_panes_ignoring_zoom); mret (pp_pane <$> panes).

(** [Mux::resolve_pane_id]: the loop over the tabs does not end at the first one that has
    the pane. *)
Fixpoint find_pane (p : PaneId) (ts : list TabId) (ids : option (TabId * DomainId))
  : MuxM (option (TabId * DomainId)) :=
  match ts with
  | [] => mret ids
  | t :: ts =>
      panes ← panes_of t;
      find_pane p ts (if bool_decide (p ∈ panes) then Some (t, domain_id p) else ids)
  end.

Definition resolve_pane_id (p : PaneId) : MuxM (option (DomainId * WindowId * TabId)) :=
  m ← gets id;
  ids ← find_pane p (elements (mux_tabs m)) None;
  mret ('(t, d) ← ids; w ← window_of_tab m t; Some (d, w, t)).

(** [seed_view_state_for_tab]. *)
Definition seed_view_state_for_tab (ws : ClientWindowViewState) (t : TabId)
  : MuxM ClientWindowViewState :=
  let ws := touch_tab t ws in
  let ws := match active_tab_id ws with
            | None => mkWindowView (Some t) (last_active_tab_id ws) (tab_views ws)
            | Some _ => ws
            end in
  match active_pane_id (tab_entry ws t) with
  | Some _ => mret ws
  | None =>
      p ← active_pane_of t;
      match p with
      | Some p => mret (put_active_pane t (Some p) ws)
      | None => mret ws
      end
  end.

(** The common end of the operations that look at a tab: the window state of the view is
    changed, then completed from the tab. *)
Definition look_at (v : ClientViewId) (w : WindowId) (t : TabId)
    (f : ClientWindowViewState -> ClientWindowViewState) : MuxM unit :=
  m ← gets id;
  ws ← seed_view_state_for_tab (f (window_entry m v w)) t;
  modify (put_window_view v w ws).

(** ** Looking at tabs and panes *)

Definition set_active_tab_for_client_view_impl (v : ClientViewId) (w : WindowId) (t : TabId)
    (notify : bool) : MuxM (result unit MuxError) :=
  m ← gets id;
  match get_tab m t, windows m !! w with
  | None, _ => mret (Err (TabNotFound t))
  | _, None => mret (Err (WindowNotFound w))
  | Some _, Some win =>
      match idx_by_id win t with
      | None => mret (Err (TabNotInWindow t w))
      | Some _ =>
          if is_tab_parked win t then mret (Err (TabParked t w))
          else
            look_at v w t (set_active_tab t);;
            (if notify then emit (TabCall (WindowInvalidated w)) else mret tt);;
            mret (Ok tt)
      end
  end.

Definition set_active_tab_for_client_view v w t := set_active_tab_for_client_view_impl v w t true.

Definition for_current_identity (f : ClientViewId -> MuxM (result unit MuxError))
  : MuxM (result unit MuxError) :=
  m ← gets id;
  match active_view_id m with None => mret (Err NoIdentity) | Some v => f v end.

Definition set_active_tab_for_current_identity w t :=
  for_current_identity (fun v => set_active_tab_for_client_view v w t).

Definition seed_active_tab_for_current_identity w t :=
  for_current_identity (fun v => set_active_tab_for_client_view_impl v w t false).

Definition set_active_pane_for_client_view_impl (v : ClientViewId) (w : WindowId) (t : TabId)
    (p : PaneId) (notify : bool) : MuxM (result unit MuxError) :=
  r ← resolve_pane_id p;
  match r with
  | None => mret (Err (PaneNotFound p))
  | Some (_, pane_window, pane_tab) =>
      if negb ((pane_window =? w) && (pane_tab =? t)) then mret (Err (PaneElsewhere p))
      else
        m ← gets id;
        match get_tab m t with
        | None => mret (Err (TabNotFound t))
        | Some _ =>
            look_at v w t (view_set_active_pane t p);;
            (if notify then emit (TabCall (WindowInvalidated w)) else mret tt);;
            mret (Ok tt)
        end
  end.

Definition set_active_pane_for_client_view v w t p := set_active_pane_for_client_view_impl v w t p true.

Definition set_active_pane_for_current_identity w t p :=
  for_current_identity (fun v => set_active_pane_for_client_view v w t p).

Definition seed_active_pane_for_current_identity w t p :=
  for_current_identity (fun v => set_active_pane_for_client_view_impl v w t p false).

Definition update_focused_pane (p : PaneId) (c : ClientInfo) : ClientInfo :=
  mkClientInfo (view_id c) (active_workspace_ c) (Some p).

Definition set_focused_pane_for_client (c : ClientId) (p : PaneId) : MuxM (result unit MuxError) :=
  r ← resolve_pane_id p;
  match r with
  | None => mret (Err (PaneNotFound p))
  | Some (_, w, t) =>
      m ← gets id;
      match get_tab m t, clients m !! c with
      | None, _ => mret (Err (TabNotFound t))
      | _, None => mret (Err (ClientNotFound c))
      | Some _, Some info =>
          modify (fun m => set_clients (<[c := update_focused_pane p info]> (clients m)) m);;
          look_at (view_id info) w t (view_set_active_pane t p);;
          emit (AcknowledgeAgentAttention p);;
          mret (Ok tt)
      end
  end.

Definition record_focus_for_client (c : ClientId) (p : PaneId) : MuxM unit :=
  m ← gets id;
  let info := clients m !! c in
  let prior := info ≫= focused_pane_id in
  modify (fun m => set_clients (alter (update_focused_pane p) c (clients m)) m);;
  (match info with
   | None => mret tt
   | Some info =>
       r ← resolve_pane_id p;
       match r with
       | None => mret tt
       | Some (_, w, t) =>
           set_active_pane_for_client_view (view_id info) w t p;;
           emit (AcknowledgeAgentAttention p)
       end
   end);;
  if bool_decide (prior = Some p) then mret tt
  else
    m ← gets id;
    (match prior ≫= get_pane m with
     | Some q => emit (TabCall (FocusChanged q false))
     | None => mret tt
     end);;
    match get_pane m p with
    | Some _ => emit (TabCall (FocusChanged p true))
    | None => mret tt
    end.

Definition set_focused_pane_for_current_identity_lightweight (p : PaneId) : MuxM (result unit MuxError) :=
  m ← gets id;
  match identity m with None => mret (Ok tt) | Some c => set_focused_pane_for_client c p end.

Definition reconcile_focused_pane_for_current_identity (p : PaneId) : MuxM (result unit MuxError) :=
  r ← resolve_pane_id p;
  match r with
  | None => mret (Err (PaneNotFound p))
  | Some (_, w, t) =>
      r ← set_active_pane_for_current_identity w t p;
      match r with
      | Err e => mret (Err e)
      | Ok _ => emit (AcknowledgeAgentAttention p);; mret (Ok tt)
      end
  end.

(** [Tab::set_active_pane] without a notification. *)
Definition focus_pane_and_containing_tab (p : PaneId) : MuxM (result unit MuxError) :=
  m ← gets id;
  match get_pane m p with
  | None => mret (Err (PaneNotFound p))
  | Some _ =>
      r ← resolve_pane_id p;
      match r with
      | None => mret (Err (PaneNotFound p))
      | Some (_, w, t) =>
          r ← reconcile_focused_pane_for_current_identity p;
          match r with
          | Err e => mret (Err e)
          | Ok _ =>
              m ← gets id;
              match get_tab m t with
              | None => mret (Err (TabNotFound t))
              | Some _ => with_tab t (fun env => @set_active_pane env p Tab.No);; mret (Ok tt)
              end
          end
      end
  end.

(** ** Parking *)

(** The tab that takes the place of a parked one: the first visible one that is not before
    it, else the last visible one. *)
Definition replacement_for (tab_ids visible : list TabId) (t : TabId) : option TabId :=
  old_idx ← position tab_ids t;
  match list_find (fun c => default false ((fun i => (old_idx <=? i)%nat) <$> position tab_ids c) = true)
          visible with
  | Some (_, c) => Some c
  | None => last visible
  end.

Definition repair_parked_view (tab_ids visible : list TabId) (parked : gset TabId)
    (ws : ClientWindowViewState) : ClientWindowViewState :=
  let active :=
    match active_tab_id ws with
    | Some t =>
        if bool_decide (t ∈ parked) then
          match replacement_for tab_ids visible t with Some r => Some r | None => Some t end
        else Some t
    | None => head visible
    end in
  let last_active :=
    match last_active_tab_id ws with
    | Some t => if bool_decide (t ∈ parked) then None else Some t
    | None => None
    end in
  mkWindowView active last_active (tab_views ws).

(** The focus of a client whose pane is in a parked tab of the window. *)
Definition repair_focus (w : WindowId) (parked : gset TabId) (c : ClientId) : MuxM unit :=
  m ← gets id;
  match clients m !! c with
  | None => mret tt
  | Some info =>
      r ← (match focused_pane_id info with Some p => resolve_pane_id p | None => mret None end);
      if (match r with Some (_, pw, t) => (pw =? w) && bool_decide (t ∈ parked) | None => false end)
      then
        m ← gets id;
        let p := window_view m (view_id info) w ≫= view_active_pane_id in
        modify (fun m => set_clients
          (<[c := mkClientInfo (view_id info) (active_workspace_ info) p]> (clients m)) m)
      else mret tt
  end.

Definition repair_client_views_after_parked_change (w : WindowId) : MuxM unit :=
  m ← gets id;
  match windows m !! w with
  | None => mret tt
  | Some win =>
      let parked := hash_set (parked_tab_ids win) in
      match iter_visible win with
      | [] => mret tt
      | visible =>
          modify (update_window_views w (repair_parked_view (tabs win) visible parked));;
          m ← gets id;
          for_each (elements (dom (clients m))) (repair_focus w parked)
      end
  end.

(** [sort_by_key] of the position in [tab_ids]: a stable insertion sort. *)
Fixpoint insert_by_key (key : TabId -> option nat) (t : TabId) (l : list TabId) : list TabId :=
  match l with
  | [] => [t]
  | x :: l' =>
      match key t, key x with
      | Some i, Some j => if (i <=? j)%nat then t :: x :: l' else x :: insert_by_key key t l'
      | Some _, None => t :: x :: l'
      | None, Some _ => x :: insert_by_key key t l'
      | None, None => t :: x :: l'
      end
  end.

Definition sort_by_position (tab_ids l : list TabId) : list TabId :=
  foldr (insert_by_key (position tab_ids)) [] l.

Definition set_tab_parked (w : WindowId) (t : TabId) (parked : bool) : MuxM (result bool MuxError) :=
  m ← gets id;
  match windows m !! w with
  | None => mret (Err (WindowNotFound w))
  | Some win =>
      let tab_ids := tabs win in
      if negb (bool_decide (t ∈ tab_ids)) then mret (Err (TabNotInWindow t w))
      else
        let ids := parked_tab_ids win in
        let ids := if parked then if bool_decide (t ∈ ids) then ids else ids ++ [t]
                   else filter (fun c => c <> t) ids in
        let ids := sort_by_position tab_ids ids in
        r ← with_window w (fun _ => apply_parked_tabs tab_ids ids);
        r ← lift r;
        match r with
        | Err e => mret (Err (OfWindow e))
        | Ok changed =>
            (if changed : bool then
               repair_client_views_after_parked_change w;;
               emit (TabCall (WindowInvalidated w));;
               emit (ParkedTabsChanged w tab_ids ids)
             else mret tt);;
            mret (Ok changed)
        end
  end.

(** ** Adding *)

(** The counting stops at once when a tab is busy; nothing is busy here. *)
Fixpoint count_window (ws : string) (ts : list TabId) (count : gmap string nat)
  : MuxM (gmap string nat) :=
  match ts with
  | [] => mret count
  | t :: ts =>
      n ← with_tab t (fun _ => count_panes);
      count_window ws ts (<[ws := (default 0 (count !! ws) + n)%nat]> count)
  end.

Fixpoint count_windows (wins : list Window) (count : gmap string nat) : MuxM (gmap string nat) :=
  match wins with
  | [] => mret count
  | win :: wins => count ← count_window (workspace win) (tabs win) count; count_windows wins count
  end.

Definition recompute_pane_count : MuxM unit :=
  m ← gets id;
  count ← count_windows (snd <$> map_to_list (windows m)) ∅;
  modify (set_pane_counts count).

(** [Window::new] with the next id; the builder's notification comes when it is dropped. *)
Definition new_empty_window (w : WindowId) (active_ws : string) (ws : option string)
    (pos : option GuiPosition) : MuxM WindowId :=
  win ← lift (@window_new TE w active_ws ws pos);
  modify (fun m => set_windows (<[w := win]> (windows m)) m);;
  mret w.

Definition add_tab_no_panes (t : TabId) : MuxM unit :=
  modify (fun m => set_mux_tabs ({[t]} ∪ mux_tabs m) m);;
  emit InvalidateTabResourceStatus;;
  recompute_pane_count.

Definition add_tab_to_window (t : TabId) (w : WindowId) : MuxM (result unit MuxError) :=
  r ← with_window w (fun env => @push env t);
  match r with
  | None => mret (Err (WindowNotFound w))
  | Some _ =>
      m ← gets id;
      (match active_view_id m with
       | Some v => look_at v w t (fun ws => ws)
       | None => mret tt
       end);;
      recompute_pane_count;;
      emit (TabAddedToWindow t w);;
      mret (Ok tt)
  end.

(** ** Removing *)

(** What becomes of a window state when a tab of the window is gone. *)
Definition repair_removed_view (removed : TabId) (remaining : list TabId) (replacement_tab : option TabId)
    (ws : ClientWindowViewState) : option ClientWindowViewState :=
  let removed_was_active := bool_decide (active_tab_id ws = Some removed) in
  let ws := clear_removed_tab removed ws in
  let from_last :=
    t ← last_active_tab_id ws; if bool_decide (t ∈ remaining) then Some t else None in
  let replaced :=
    match (match from_last with Some t => Some t | None => replacement_tab end) with
    | Some t => set_active_tab t ws
    | None => ws
    end in
  match remaining with
  | [] => None
  | _ =>
      if removed_was_active then Some replaced
      else match active_tab_id ws with
           | Some a => Some (if bool_decide (a ∈ remaining) then ws else replaced)
           | None => Some ws
           end
  end.

Definition update_or_remove_window_views (w : WindowId)
    (f : ClientWindowViewState -> option ClientWindowViewState) (m : Mux) : Mux :=
  set_views ((fun view => mkView (partial_alter (fun ws => ws ≫= f) w (window_views view)))
             <$> client_views m) m.

(** Complete the window state of a view, if there is one, from a tab. *)
Definition seed_view (w : WindowId) (t : TabId) (v : ClientViewId) : MuxM unit :=
  m ← gets id;
  match window_view m v w with
  | None => mret tt
  | Some ws => ws ← seed_view_state_for_tab ws t; modify (put_window_view v w ws)
  end.

Definition repair_client_view_state_after_tab_removed (w : WindowId) (removed : TabId)
    (removed_idx : nat) (remaining : list TabId) : MuxM unit :=
  let replacement_idx := (removed_idx `min` (length remaining - 1))%nat in
  let replacement_tab := remaining !! replacement_idx in
  modify (update_or_remove_window_views w (repair_removed_view removed remaining replacement_tab));;
  m ← gets id;
  match replacement_tab ≫= get_tab m with
  | Some t => for_each (elements (dom (client_views m))) (seed_view w t)
  | None => mret tt
  end.

(** The window state that showed a pane shows the pane that the tab now has active. *)
Definition replace_active_pane (t : TabId) (p : PaneId) (replacement : option PaneId)
    (ws : ClientWindowViewState) : ClientWindowViewState :=
  mkWindowView (active_tab_id ws) (last_active_tab_id ws)
    (alter (fun tv => if bool_decide (active_pane_id tv = Some p) then mkTabView replacement else tv)
       t (tab_views ws)).

Definition remove_pane_internal (p : PaneId) : MuxM unit :=
  emit (RemovePaneToken p);;
  location ← resolve_pane_id p;
  emit InvalidateTabResourceStatus;;
  emit (ClearAgentMetadata p);;
  emit (ClearDetectedAgentInfo p);;
  emit (UnwatchPane p);;
  emit (RemoveAgentState p);;
  m ← gets id;
  let changed := bool_decide (p ∈ mux_panes m) in
  (if changed then
     modify (fun m => set_mux_panes (mux_panes m ∖ {[p]}) m);;
     emit (KillPane p);;
     emit (PaneRemoved p)
   else mret tt);;
  (match location with
   | Some (_, w, t) =>
       m ← gets id;
       replacement ← (match get_tab m t with Some t => active_pane_of t | None => mret None end);
       modify (update_window_views w (replace_active_pane t p replacement))
   | None => mret tt
   end);;
  if changed then recompute_pane_count else mret tt.

(** The windows that have the tab, with its place. *)
Definition remove_from_window (t : TabId) (w : WindowId)
  : MuxM (list (WindowId * nat * list TabId)) :=
  m ← gets id;
  match windows m !! w ≫= fun win => idx_by_id win t with
  | None => mret []
  | Some idx =>
      with_window w (fun env => @remove_by_id env t);;
      m ← gets id;
      mret (match windows m !! w with
            | Some win => [(window_id win, idx, tabs win)]
            | None => []
            end)
  end.

Fixpoint remove_from_windows (t : TabId) (ws : list WindowId)
  : MuxM (list (WindowId * nat * list TabId)) :=
  match ws with
  | [] => mret []
  | w :: ws =>
      removed ← remove_from_window t w;
      rest ← remove_from_windows t ws;
      mret (removed ++ rest)
  end.

Definition remove_tab_internal (t : TabId) : MuxM (option TabId) :=
  m ← gets id;
  match get_tab m t with
  | None => mret None
  | Some _ =>
      modify (fun m => set_mux_tabs (mux_tabs m ∖ {[t]}) m);;
      emit InvalidateTabResourceStatus;;
      emit (RemoveMirroredTab t);;
      m ← gets id;
      removed_from_windows ← remove_from_windows t (elements (dom (windows m)));
      for_each removed_from_windows (fun '(w, removed_idx, remaining) =>
        repair_client_view_state_after_tab_removed w t removed_idx remaining);;
      pane_ids ← panes_of t;
      for_each pane_ids remove_pane_internal;;
      recompute_pane_count;;
      mret (Some t)
  end.

Fixpoint panes_of_all (ts : list TabId) : MuxM (list PaneId) :=
  match ts with
  | [] => mret []
  | t :: ts => ps ← panes_of t; rest ← panes_of_all ts; mret (ps ++ rest)
  end.

Definition remove_window_internal (w : WindowId) : MuxM unit :=
  m ← gets id;
  modify (fun m => set_windows (delete w (windows m)) m);;
  (match windows m !! w with
   | None => mret tt
   | Some win =>
       modify (fun m => set_views
         ((fun view => mkView (delete w (window_views view))) <$> client_views m) m);;
       ps ← panes_of_all (tabs win);
       for_each (elements (hash_set (@domain_id TE <$> ps))) (fun d =>
         match detachable d with
         | Some true => emit (DetachDomain d)
         | _ => mret tt
         end);;
       for_each (tabs win) (fun t => remove_tab_internal t;; mret tt);;
       emit (WindowRemoved w)
   end);;
  recompute_pane_count.

(** The two loops of [prune_dead_windows] over the windows and over the tabs. *)
Fixpoint prune_windows (live : list TabId) (ws : list WindowId) : MuxM (list WindowId) :=
  match ws with
  | [] => mret []
  | w :: ws =>
      with_window_and_tabs w (fun env => @prune_dead_tabs env live);;
      m ← gets id;
      let dead := match windows m !! w with Some win => is_empty win | None => false end in
      rest ← prune_windows live ws;
      mret (if dead then w :: rest else rest)
  end.

Fixpoint find_dead_tabs (ts : list TabId) : MuxM (list TabId) :=
  match ts with
  | [] => mret []
  | t :: ts =>
      dead ← with_tab t (fun env => @is_dead env);
      kept ← (if dead : bool then with_tab t (fun env => @tab_has_cached_agent_restore_intent env)
              else mret true);
      rest ← find_dead_tabs ts;
      mret (if kept : bool then rest else t :: rest)
  end.

Definition prune_dead_windows : MuxM unit :=
  if shutdown_in_progress then mret tt
  else if (0 <? activity_count)%nat then mret tt
  else
    m ← gets id;
    dead_windows ← prune_windows (elements (mux_tabs m)) (elements (dom (windows m)));
    m ← gets id;
    dead_tab_ids ← find_dead_tabs (elements (mux_tabs m));
    for_each dead_tab_ids (fun t => remove_tab_internal t;; mret tt);;
    for_each dead_windows remove_window_internal;;
    m ← gets id;
    if mux_is_empty m then emit MuxEmpty else mret tt.

(** The panes of the domain are collected first; the tabs of all windows then drop theirs. *)
Definition domain_was_detached (d : DomainId) : MuxM unit :=
  emit (ClearCodexProcessMemory d);;
  m ← gets id;
  let dead_panes := filter (fun p => @domain_id TE p = d) (elements (mux_panes m)) in
  let ts := map_to_list (windows m) ≫= fun kw => tabs kw.2 in
  for_each ts (fun t => with_tab t (fun env => @kill_panes_in_domain env d);; mret tt);;
  for_each dead_panes remove_pane_internal;;
  prune_dead_windows.

Definition remove_pane (p : PaneId) : MuxM unit := remove_pane_internal p;; prune_dead_windows.

Definition remove_tab (t : TabId) : MuxM (option TabId) :=
  r ← remove_tab_internal t; prune_dead_windows;; mret r.

Definition kill_window (w : WindowId) : MuxM unit := remove_window_internal w;; prune_dead_windows.

(** ** Workspaces *)

Definition is_workspace_empty (m : Mux) (ws : string) : bool :=
  (default 0 (num_panes_by_workspace m !! ws) =? 0)%nat.

(** [names.sort(); names.dedup()]: the workspaces in order, once each. *)
Fixpoint insert_name (s : string) (l : list string) : list string :=
  match l with
  | [] => [s]
  | x :: l' => match String.compare s x with
               | Lt => s :: x :: l'
               | Eq => x :: l'
               | Gt => x :: insert_name s l'
               end
  end.

Definition iter_workspaces (m : Mux) : list string :=
  foldr insert_name [] ((fun kw => workspace kw.2) <$> map_to_list (windows m)).

(** [windows.sort()]. *)
Fixpoint insert_window (w : WindowId) (l : list WindowId) : list WindowId :=
  match l with
  | [] => [w]
  | x :: l' => if w <=? x then w :: x :: l' else x :: insert_window w l'
  end.

Definition iter_windows_in_workspace (m : Mux) (ws : string) : list WindowId :=
  foldr insert_window []
    (fst <$> filter (fun kw => workspace kw.2 = ws) (map_to_list (windows m))).

Definition active_workspace (m : Mux) : string :=
  default default_workspace (c ← identity m; info ← clients m !! c; active_workspace_ info).

Definition active_workspace_for_client (m : Mux) (c : ClientId) : string :=
  default default_workspace (clients m !! c ≫= active_workspace_).

Definition put_active_workspace (ws : string) (info : ClientInfo) : ClientInfo :=
  mkClientInfo (view_id info) (Some ws) (focused_pane_id info).

Definition set_active_workspace_for_client (c : ClientId) (ws : string) : MuxM unit :=
  m ← gets id;
  match clients m !! c with
  | None => mret tt
  | Some info =>
      modify (fun m => set_clients (<[c := put_active_workspace ws info]> (clients m)) m);;
      emit (ActiveWorkspaceChanged c)
  end.

Definition set_active_workspace (ws : string) : MuxM unit :=
  m ← gets id;
  match identity m with Some c => set_active_workspace_for_client c ws | None => mret tt end.

Definition rename_workspace (old_workspace new_workspace : string) : MuxM unit :=
  if bool_decide (old_workspace = new_workspace) then mret tt
  else
    emit (WorkspaceRenamed old_workspace new_workspace);;
    m ← gets id;
    for_each (elements (dom (windows m))) (fun w =>
      match windows m !! w with
      | Some win =>
          if bool_decide (workspace win = old_workspace)
          then with_window w (fun env => @set_workspace env new_workspace);; mret tt else mret tt
      | None => mret tt
      end);;
    recompute_pane_count;;
    m ← gets id;
    for_each (elements (dom (clients m))) (fun c =>
      if bool_decide (clients m !! c ≫= active_workspace_ = Some old_workspace)
      then set_active_workspace_for_client c new_workspace else mret tt).

(** ** Clients *)

Definition default_workspace_for_new_client (m : Mux) : string :=
  if negb (is_workspace_empty m default_workspace) then default_workspace
  else default default_workspace
         (snd <$> list_find (fun ws => is_workspace_empty m ws = false) (iter_workspaces m)).

Fixpoint seed_all (ts : list TabId) (ws : ClientWindowViewState) : MuxM ClientWindowViewState :=
  match ts with
  | [] => mret ws
  | t :: ts => ws ← seed_view_state_for_tab ws t; seed_all ts ws
  end.

(** The loop over the windows of the workspace: the visible tabs come first, so that one of them becomes
    the active tab. *)
Fixpoint bootstrap_windows (ws : list WindowId) (view : ClientViewState) (focused : option PaneId)
  : MuxM (ClientViewState * option PaneId) :=
  match ws with
  | [] => mret (view, focused)
  | w :: ws =>
      m ← gets id;
      match windows m !! w with
      | None => bootstrap_windows ws view focused
      | Some win =>
          state ← seed_all (iter_visible win) (default WindowView_default (window_views view !! w));
          state ← seed_all (filter (fun t => is_tab_parked win t = true) (tabs win)) state;
          bootstrap_windows ws (mkView (<[w := state]> (window_views view)))
            (match focused with Some p => Some p | None => view_active_pane_id state end)
      end
  end.

Definition build_bootstrap_view_state_for_workspace (ws : string)
  : MuxM (ClientViewState * option PaneId) :=
  m ← gets id; bootstrap_windows (iter_windows_in_workspace m ws) View_default None.

Definition or_else {A} (a b : option A) : option A := match a with Some x => Some x | None => b end.

Definition merge_tab (target bootstrap : option ClientTabViewState) : option ClientTabViewState :=
  match bootstrap with
  | None => target
  | Some b =>
      let t := default TabView_default target in
      Some (mkTabView (or_else (active_pane_id t) (active_pane_id b)))
  end.

Definition merge_window (target bootstrap : option ClientWindowViewState)
  : option ClientWindowViewState :=
  match bootstrap with
  | None => target
  | Some b =>
      let t := default WindowView_default target in
      Some (mkWindowView (or_else (active_tab_id t) (active_tab_id b))
              (or_else (last_active_tab_id t) (last_active_tab_id b))
              (merge merge_tab (tab_views t) (tab_views b)))
  end.

Definition merge_bootstrap_view_state (target bootstrap : ClientViewState) : ClientViewState :=
  mkView (merge merge_window (window_views target) (window_views bootstrap)).

Fixpoint preferred_focused_pane (view : ClientViewState) (ws : list WindowId) : MuxM (option PaneId) :=
  match ws with
  | [] => mret None
  | w :: ws =>
      match window_views view !! w ≫= view_active_pane_id with
      | None => preferred_focused_pane view ws
      | Some p =>
          r ← resolve_pane_id p;
          match r with Some _ => mret (Some p) | None => preferred_focused_pane view ws end
      end
  end.

Definition preferred_focused_pane_for_view_in_workspace (v : ClientViewId) (ws : string)
  : MuxM (option PaneId) :=
  m ← gets id;
  match client_views m !! v with
  | None => mret None
  | Some view => preferred_focused_pane view (iter_windows_in_workspace m ws)
  end.

Definition register_client (c : ClientId) (v : ClientViewId) : MuxM unit :=
  m ← gets id;
  let ws := default_workspace_for_new_client m in
  '(view, bootstrap_focused) ← build_bootstrap_view_state_for_workspace ws;
  modify (fun m => set_views
    (<[v := merge_bootstrap_view_state (view_entry m v) view]> (client_views m)) m);;
  preferred ← preferred_focused_pane_for_view_in_workspace v ws;
  modify (fun m => set_clients
    (<[c := mkClientInfo v (Some ws) (or_else preferred bootstrap_focused)]> (clients m)) m).

Definition unregister_client (c : ClientId) : MuxM unit :=
  modify (fun m => set_clients (delete c (clients m)) m).

Definition replace_identity (c : option ClientId) : MuxM (option ClientId) :=
  m ← gets id;
  modify (fun m => mkMux (heap m) (mux_tabs m) (mux_panes m) (windows m) (client_views m) (clients m)
                     c (num_panes_by_workspace m));;
  mret (identity m).

End Operations.
