(* ===== verification/MuxProps.v ===== *)
(** The theorems on the registry and the views: what parking and closing a tab do to
    the views of the clients, and where closing leaves a view astray. *)

From Stdlib Require Import ZArith Lia String.
From S2P Require Import Prelude CallMonad BinTree TermSize PaneTree Tab TabWalk TabProps Window WindowProps Mux.
From stdpp Require Import base numbers list option gmap sets strings sorting.
Local Open Scope Z_scope.

(** ** Reading tabs *)

(** The object of a tab with its tree in place: complete, or empty when its last pane
    was closed. *)
Definition tab_up (m : Mux) (t : TabId) : Prop :=
  exists st tr, heap m !! t = Some st /\ pane st = Some tr /\ (complete tr \/ tr = BinTree.Empty).

Definition tab_panes (m : Mux) (t : TabId) : list PaneId :=
  match heap m !! t ≫= pane with Some tr => leaves tr | None => [] end.

Definition tab_focus (m : Mux) (t : TabId) : option PaneId :=
  st ← heap m !! t; tr ← pane st; focused st tr.

Lemma iter_panes_quiet st tr :
  pane st = Some tr -> complete tr \/ tr = BinTree.Empty ->
  exists ps, silent iter_panes_ignoring_zoom st ps /\ pp_pane <$> ps = leaves tr.
Proof.
  intros Hp [Ht| ->].
  - eexists. split; [by apply iter_panes_ok|]. by apply positioned_panes.
  - exists []. split; [|done]. destruct st. cbn in *. subst. done.
Qed.

Lemma get_active_quiet st tr :
  pane st = Some tr -> complete tr \/ tr = BinTree.Empty -> silent get_active_pane st (focused st tr).
Proof.
  intros Hp Ht. destruct (iter_panes_quiet _ _ Hp Ht) as (ps & E & El).
  unfold get_active_pane, focused, silent. rewrite gets_run.
  destruct (zoomed st); [done|]. erewrite silent_run by exact E. rewrite gets_run.
  by rewrite <- list_lookup_fmap, El.
Qed.

(** ** Places in a list *)

Lemma position_app_l l1 l2 t : t ∈ l1 -> exists i, position (l1 ++ l2) t = Some i /\ (i < length l1)%nat.
Proof.
  induction l1 as [|x l1 IH]; [by intros ?%elem_of_nil|]. intros Ht. cbn.
  destruct (Z.eqb_spec x t) as [->|Hx]; [exists 0%nat; split; [done|lia]|].
  destruct IH as (i & -> & Hi); [set_solver|]. exists (S i). split; [done|cbn; lia].
Qed.

Lemma position_app_r l1 l2 t :
  t ∉ l1 -> position (l1 ++ l2) t = (fun i => (length l1 + i)%nat) <$> position l2 t.
Proof.
  induction l1 as [|x l1 IH]; intros Ht; cbn; [by destruct (position l2 t)|].
  destruct (Z.eqb_spec x t) as [->|Hx]; [set_solver|]. rewrite IH by set_solver.
  by destruct (position l2 t).
Qed.

(** The visible tab that is nearest to a parked one: the first after it, else the last
    before it. *)
Lemma replacement_for_spec (P : gset TabId) l1 a l2 :
  NoDup (l1 ++ a :: l2) -> a ∈ P ->
  replacement_for (l1 ++ a :: l2) (filter (fun t => t ∉ P) (l1 ++ a :: l2)) a =
  or_else (head (filter (fun t => t ∉ P) l2)) (last (filter (fun t => t ∉ P) l1)).
Proof.
  intros Hn Ha. unfold replacement_for.
  apply NoDup_app in Hn as (H1 & H12 & [Ha2 H2]%NoDup_cons).
  assert (Ha1 : a ∉ l1) by (intros Ha1; apply (H12 _ Ha1); by left).
  rewrite position_app_r by done. cbn [position]. rewrite Z.eqb_refl. cbn. rewrite Nat.add_0_r.
  rewrite filter_app, filter_cons_False by (by intros []).
  rewrite list_find_app_r.
  - destruct (filter (fun t => t ∉ P) l2) as [|c l2'] eqn:F; cbn.
    { by rewrite app_nil_r. }
    rewrite decide_True; [done|]. assert (Hc : c ∈ l2).
    { eapply list_elem_of_filter. rewrite F. by left. }
    rewrite position_app_r by (intros Hc1; apply (H12 _ Hc1); by right). cbn.
    destruct (Z.eqb_spec a c) as [->|]; [done|].
    destruct (position l2 c) eqn:E; [|by apply position_None in E]. cbn.
    apply Nat.leb_le. lia.
  - apply list_find_None, Forall_forall. intros c [_ Hc]%list_elem_of_filter.
    destruct (position_app_l l1 (a :: l2) c Hc) as (i & -> & Hi). cbn. intros E%Nat.leb_le. lia.
Qed.

(** Sorting by position gives the listed tabs in their order. *)
Lemma insert_by_key_perm key t l : insert_by_key key t l ≡ₚ t :: l.
Proof.
  induction l as [|x l IH]; [done|]. cbn.
  destruct (key t) as [i|], (key x) as [j|]; try done; [destruct (i <=? j)%nat; [done|]|];
    rewrite IH; apply perm_swap.
Qed.

Lemma sort_by_position_perm ts l : sort_by_position ts l ≡ₚ l.
Proof. induction l as [|x l IH]; [done|]. cbn. by rewrite insert_by_key_perm, IH. Qed.

Definition before (ts : list TabId) (x y : TabId) : Prop :=
  match position ts x, position ts y with Some i, Some j => (i <= j)%nat | _, _ => False end.

Lemma insert_by_key_sorted ts t l :
  t ∈ ts -> l ⊆ ts -> StronglySorted (before ts) l ->
  StronglySorted (before ts) (insert_by_key (position ts) t l).
Proof.
  intros Ht. unfold before. assert (Hsome : forall x, x ∈ ts -> exists i, position ts x = Some i).
  { intros x Hx. destruct (position ts x) eqn:E; [eauto|by apply position_None in E]. }
  induction l as [|x l IH]; intros Hl Hs; cbn; [repeat constructor|].
  apply StronglySorted_inv in Hs as [Hs Hx].
  destruct (Hsome t Ht) as [i Ei], (Hsome x) as [j Ej]; [apply Hl; by left|]. rewrite Ei, Ej.
  destruct (Nat.leb_spec i j) as [Hij|Hij].
  - constructor; [by constructor|]. constructor; [by rewrite Ei, Ej|].
    eapply Forall_impl; [exact Hx|]. intros y. rewrite Ei, Ej. destruct (position ts y); [lia|done].
  - constructor; [apply IH; [intros y Hy; apply Hl; by right|done]|].
    rewrite insert_by_key_perm. constructor; [rewrite Ei, Ej; lia|done].
Qed.

Lemma sort_by_position_sorted ts l :
  l ⊆ ts -> StronglySorted (before ts) (sort_by_position ts l).
Proof.
  induction l as [|x l IH]; intros Hl; cbn; [constructor|]. apply insert_by_key_sorted.
  - apply Hl. by left.
  - fold (sort_by_position ts l). intros y Hy. rewrite sort_by_position_perm in Hy. apply Hl. by right.
  - apply IH. intros y Hy. apply Hl. by right.
Qed.

Lemma filter_sorted (P : TabId -> Prop) `{!forall x, Decision (P x)} l1 l2 :
  NoDup (l1 ++ l2) -> StronglySorted (before (l1 ++ l2)) (filter P l2).
Proof.
  revert l1. induction l2 as [|x l2 IH]; intros l1 Hn; [constructor|].
  assert (IH2 : StronglySorted (before (l1 ++ x :: l2)) (filter P l2)).
  { specialize (IH (l1 ++ [x])). rewrite <- app_assoc in IH. by apply IH. }
  rewrite filter_cons. destruct (decide (P x)); [|done]. constructor; [done|].
  apply Forall_forall. intros y [_ Hy]%list_elem_of_filter.
  apply NoDup_app in Hn as (_ & H12 & [Hx _]%NoDup_cons). unfold before.
  rewrite !position_app_r by (intros Hin; apply (H12 _ Hin); set_solver). cbn. rewrite Z.eqb_refl.
  destruct (Z.eqb_spec x y) as [->|]; [done|]. cbn.
  destruct (position l2 y) eqn:E; [cbn; lia|by apply position_None in E].
Qed.

Lemma sort_by_position_filter ts l :
  NoDup ts -> NoDup l -> l ⊆ ts -> sort_by_position ts l = filter (fun t => t ∈ l) ts.
Proof.
  intros Ht Hl Hs. apply (StronglySorted_unique_strong (before ts)).
  - intros x y _ _. unfold before. destruct (position ts x) as [i|] eqn:Ex; [|done].
    destruct (position ts y) as [j|] eqn:Ey; [|done]. intros Hij Hji.
    assert (i = j) as -> by lia. apply position_Some in Ex, Ey. congruence.
  - by apply sort_by_position_sorted.
  - apply (filter_sorted _ [] ts Ht).
  - rewrite sort_by_position_perm. apply NoDup_Permutation; [done|by apply NoDup_filter|]. intros x.
    rewrite list_elem_of_filter. specialize (Hs x). intuition.
Qed.

Section Runs.
Context {TE : TabEnv} {ME : MuxEnv}.

Lemma with_tab_silent {A} t (c : TabEnv -> CallM TabInner Call A) m st a :
  heap m !! t = Some st -> silent (c (mux_env m)) st a -> silent (with_tab t c) m a.
Proof.
  intros Es E. unfold with_tab, silent. rewrite Es. msimpl. rewrite E.
  rewrite (insert_id (M := gmap TabId) (heap m) t st Es). by destruct m.
Qed.

Lemma panes_of_run m t : tab_up m t -> silent (panes_of t) m (tab_panes m t).
Proof.
  intros (st & tr & Es & Ep & Ht). destruct (iter_panes_quiet _ _ Ep Ht) as (ps & E & El).
  unfold panes_of, silent. erewrite silent_run by (by eapply with_tab_silent).
  unfold tab_panes. rewrite Es. msimpl. by rewrite Ep, El.
Qed.

Lemma active_pane_run m t : tab_up m t -> silent (active_pane_of t) m (tab_focus m t).
Proof.
  intros (st & tr & Es & Ep & Ht). unfold active_pane_of, tab_focus. rewrite Es. msimpl. rewrite Ep. msimpl.
  eapply with_tab_silent; [done|]. by apply get_active_quiet.
Qed.

(** What [resolve_pane_id] answers. *)
Definition resolved (m : Mux) (p : PaneId) : option (DomainId * WindowId * TabId) :=
  '(t, d) ← foldl (fun ids t => if bool_decide (p ∈ tab_panes m t) then Some (t, domain_id p) else ids)
              None (elements (mux_tabs m));
  w ← window_of_tab m t; Some (d, w, t).

Definition tabs_up (m : Mux) : Prop := forall t, t ∈ mux_tabs m -> tab_up m t.

Lemma find_pane_run m p ts ids :
  (forall t, t ∈ ts -> tab_up m t) ->
  silent (find_pane p ts ids) m
    (foldl (fun ids t => if bool_decide (p ∈ tab_panes m t) then Some (t, domain_id p) else ids) ids ts).
Proof.
  revert ids. induction ts as [|t ts IH]; intros ids Hts; [done|]. cbn [find_pane foldl].
  unfold silent. erewrite silent_run by (apply panes_of_run, Hts; by left).
  apply IH. intros t' Ht'. apply Hts. by right.
Qed.

Lemma resolve_run m p : tabs_up m -> silent (resolve_pane_id p) m (resolved m p).
Proof.
  intros Hup. unfold resolve_pane_id, silent. rewrite gets_run. unfold id.
  erewrite silent_run by (apply find_pane_run; intros t Ht; apply Hup; by apply elem_of_elements in Ht).
  done.
Qed.

(** A window state after [seed_view_state_for_tab]. *)
Definition seeded (m : Mux) (ws : ClientWindowViewState) (t : TabId) : ClientWindowViewState :=
  mkWindowView (match active_tab_id ws with Some a => Some a | None => Some t end)
    (last_active_tab_id ws)
    (<[t := mkTabView (or_else (active_pane_id (tab_entry ws t)) (tab_focus m t))]> (tab_views ws)).

Lemma seed_run m ws t : tab_up m t -> silent (seed_view_state_for_tab ws t) m (seeded m ws t).
Proof.
  intros Hup. unfold seed_view_state_for_tab, silent, seeded.
  assert (E : tab_entry match active_tab_id (touch_tab t ws) with
                | Some _ => touch_tab t ws
                | None => mkWindowView (Some t) (last_active_tab_id (touch_tab t ws)) (tab_views (touch_tab t ws))
                end t = tab_entry ws t).
  { unfold tab_entry at 1. by destruct (active_tab_id (touch_tab t ws)); cbn; rewrite lookup_insert_eq. }
  rewrite E. destruct (tab_entry ws t) as [[p|]] eqn:Et; cbn [active_pane_id or_else].
  - unfold touch_tab. cbn. rewrite Et. by destruct (active_tab_id ws).
  - erewrite silent_run by (by apply active_pane_run). unfold touch_tab, put_active_pane. cbn.
    destruct (tab_focus m t); rewrite Et; destruct (active_tab_id ws); cbn; by rewrite ?insert_insert_eq.
Qed.

Lemma look_at_run m v w t f :
  tab_up m t ->
  look_at v w t f m = Some (tt, put_window_view v w (seeded m (f (window_entry m v w)) t) m, []).
Proof.
  intros Hup. unfold look_at. rewrite gets_run. unfold id.
  by erewrite silent_run by (by apply seed_run).
Qed.

(** ** Running on windows *)

Lemma with_window_run {A} w (c : TabEnv -> CallM Window Notice A) m win a win' tr :
  windows m !! w = Some win -> c (mux_env m) win = Some (a, win', tr) ->
  with_window w c m = Some (Some a, set_windows (<[w := win']> (windows m)) m, tr).
Proof.
  intros Ew E. unfold with_window, with_window_and_tabs, on_window. rewrite Ew, E. by destruct m.
Qed.

Lemma set_windows_same m w win : windows m !! w = Some win -> set_windows (<[w := win]> (windows m)) m = m.
Proof. intros E. rewrite insert_id by done. by destruct m. Qed.

(** A computation that only changes the registered clients. *)
Definition only_clients (m m' : Mux) : Prop := m' = set_clients (clients m') m.

Lemma only_clients_trans m1 m2 m3 : only_clients m1 m2 -> only_clients m2 m3 -> only_clients m1 m3.
Proof. unfold only_clients. intros E1 E2. rewrite E2. by rewrite E1. Qed.

Lemma repair_focus_run w parked c m :
  tabs_up m -> exists m', repair_focus w parked c m = Some (tt, m', []) /\ only_clients m m'.
Proof.
  intros Hup. unfold repair_focus. rewrite gets_run. unfold id.
  assert (Same : only_clients m m) by by destruct m.
  destruct (clients m !! c) as [info|]; [|by exists m].
  assert (E : exists r, silent (match focused_pane_id info with
      | Some p => resolve_pane_id p | None => mret None end) m r).
  { destruct (focused_pane_id info); [|by exists None]. eexists. by apply resolve_run. }
  destruct E as [r E]. erewrite silent_run by exact E.
  destruct (match r with Some _ => _ | None => _ end); [|by exists m].
  rewrite gets_run. by eexists.
Qed.

Lemma repair_all_run w parked cs m :
  tabs_up m -> exists m', for_each cs (repair_focus w parked) m = Some (tt, m', []) /\ only_clients m m'.
Proof.
  revert m. induction cs as [|c cs IH]; intros m Hup; cbn [for_each]; [exists m; split; [done|by destruct m]|].
  destruct (repair_focus_run w parked c m Hup) as (m1 & E1 & O1).
  destruct (IH m1) as (m2 & E2 & O2).
  { rewrite O1. intros t Ht. destruct (Hup t Ht) as (st & tr & ?). by exists st, tr. }
  exists m2. split; [|by eapply only_clients_trans]. by rewrite (bind_runs _ _ _ _ _ _ _ _ _ E1 E2).
Qed.

End Runs.

(** ** Parking a tab *)

Lemma window_view_update m w f v w' :
  window_view (update_window_views w f m) v w' =
  if decide (w' = w) then f <$> window_view m v w else window_view m v w'.
Proof.
  unfold window_view, update_window_views. cbn. rewrite lookup_fmap.
  destruct (client_views m !! v) as [view|]; cbn; [|by destruct (decide _)].
  destruct (decide (w' = w)) as [->|Hw]; [by rewrite lookup_alter_eq|by rewrite lookup_alter_ne].
Qed.

Lemma parked_ids_set w : window_wf w -> hash_set (parked_tab_ids w) = parked_tabs w.
Proof.
  intros [_ Hp]. apply set_eq. intros t. unfold parked_tab_ids.
  rewrite elem_of_hash_set, list_elem_of_filter. split; [by intros []|].
  intros Ht. split; [done|]. by apply elem_of_hash_set, Hp.
Qed.

(** The set of parked tabs after a request. *)
Definition parked_update (parked : bool) (t : TabId) (P : gset TabId) : gset TabId :=
  if parked then {[t]} ∪ P else P ∖ {[t]}.

Definition requested (win : Window) (t : TabId) (parked : bool) : list TabId :=
  sort_by_position (tabs win)
    (if parked then
       if bool_decide (t ∈ parked_tab_ids win) then parked_tab_ids win else parked_tab_ids win ++ [t]
     else filter (fun c => c <> t) (parked_tab_ids win)).

Lemma requested_spec win t parked :
  window_wf win -> t ∈ tabs win ->
  NoDup (requested win t parked) /\ requested win t parked ⊆ tabs win /\
  hash_set (requested win t parked) = parked_update parked t (parked_tabs win) /\
  requested win t parked = parked_tab_ids (set_parked (parked_update parked t (parked_tabs win)) win).
Proof.
  intros Hw Ht. pose proof (parked_ids_set _ Hw) as E.
  assert (Ep : forall x, x ∈ parked_tab_ids win <-> x ∈ parked_tabs win)
    by (intros x; by rewrite <- E, elem_of_hash_set).
  assert (Sp : parked_tab_ids win ⊆ tabs win) by (intros x [_ Hx]%list_elem_of_filter; done).
  assert (Np : NoDup (parked_tab_ids win)) by apply NoDup_filter, Hw.
  unfold requested. set (ids := (if parked then
    if bool_decide (t ∈ parked_tab_ids win) then parked_tab_ids win else parked_tab_ids win ++ [t]
    else filter (fun c => c <> t) (parked_tab_ids win))).
  assert (Hids : NoDup ids /\ ids ⊆ tabs win /\
            forall x, x ∈ ids <-> x ∈ parked_update parked t (parked_tabs win)).
  { unfold ids, parked_update. destruct parked; [destruct (bool_decide_reflect (t ∈ parked_tab_ids win))|].
    - split_and!; [done..|]. intros x. rewrite Ep in *. set_solver.
    - split_and!; [|set_solver|intros x; rewrite elem_of_app, list_elem_of_singleton, Ep; set_solver].
      apply NoDup_app. split_and!; [done| |apply NoDup_singleton].
      by intros x Hx ->%list_elem_of_singleton.
    - split_and!; [by apply NoDup_filter|intros x [_ Hx]%list_elem_of_filter; by apply Sp|].
      intros x. rewrite list_elem_of_filter, elem_of_difference, elem_of_singleton, Ep. tauto. }
  destruct Hids as (Ni & Si & Hi). pose proof (sort_by_position_perm (tabs win) ids) as P.
  split_and!.
  - by rewrite P.
  - intros x. rewrite P. apply Si.
  - apply set_eq. intros x. by rewrite elem_of_hash_set, P.
  - rewrite sort_by_position_filter by (done || apply Hw). unfold parked_tab_ids. cbn.
    by apply list_filter_iff.
Qed.

(** The active tab that a view has after a repair. *)
Definition repaired_active (P : gset TabId) (ts : list TabId) (ws ws' : ClientWindowViewState) : Prop :=
  match active_tab_id ws with
  | None => active_tab_id ws' = head (filter (fun t => t ∉ P) ts)
  | Some a =>
      if decide (a ∈ P) then
        exists l1 l2, ts = l1 ++ a :: l2 /\
          active_tab_id ws' = or_else (head (filter (fun t => t ∉ P) l2)) (last (filter (fun t => t ∉ P) l1))
      else active_tab_id ws' = Some a
  end.

Lemma or_else_visible (P : gset TabId) l1 a l2 :
  (exists x, x ∈ l1 ++ a :: l2 /\ x ∉ P) -> a ∈ P ->
  exists r, or_else (head (filter (fun t => t ∉ P) l2)) (last (filter (fun t => t ∉ P) l1)) = Some r /\ r ∉ P.
Proof.
  intros (x & Hx & Hp) Ha.
  destruct (filter (fun t => t ∉ P) l2) as [|r l] eqn:F2; cbn.
  - destruct (last (filter (fun t => t ∉ P) l1)) as [r|] eqn:F1.
    + exists r. split; [done|]. apply last_Some in F1 as [l F1].
      assert (Hr : r ∈ filter (fun t => t ∉ P) l1) by (rewrite F1; set_solver).
      by apply list_elem_of_filter in Hr as [? _].
    + exfalso. apply last_None in F1. apply elem_of_app in Hx as [Hx|[->|Hx]%elem_of_cons]; [|done|].
      * assert (Hr : x ∈ filter (fun t => t ∉ P) l1) by (by apply list_elem_of_filter).
        rewrite F1 in Hr. by apply elem_of_nil in Hr.
      * assert (Hr : x ∈ filter (fun t => t ∉ P) l2) by (by apply list_elem_of_filter).
        rewrite F2 in Hr. by apply elem_of_nil in Hr.
  - exists r. split; [done|]. assert (Hr : r ∈ filter (fun t => t ∉ P) l2) by (rewrite F2; by left).
    by apply list_elem_of_filter in Hr as [? _].
Qed.

Lemma repair_parked_view_spec (P : gset TabId) ts ws :
  NoDup ts -> P ⊆ hash_set ts -> (exists x, x ∈ ts /\ x ∉ P) ->
  let ws' := repair_parked_view ts (filter (fun t => t ∉ P) ts) P ws in
  (exists a, active_tab_id ws' = Some a /\ a ∉ P) /\ repaired_active P ts ws ws' /\
  (forall a, last_active_tab_id ws' = Some a <-> last_active_tab_id ws = Some a /\ a ∉ P) /\
  tab_views ws' = tab_views ws.
Proof.
  intros Hn Hs Hv. cbv zeta.
  assert (A : (exists a, active_tab_id (repair_parked_view ts (filter (fun t => t ∉ P) ts) P ws) = Some a /\ a ∉ P) /\
              repaired_active P ts ws (repair_parked_view ts (filter (fun t => t ∉ P) ts) P ws)).
  { unfold repaired_active, repair_parked_view. cbn. destruct (active_tab_id ws) as [a|].
    - destruct (decide (a ∈ P)) as [Ha|Ha]; [rewrite bool_decide_true by done|rewrite bool_decide_false by done; eauto].
      destruct (list_elem_of_split ts a) as (l1 & l2 & ->); [by apply elem_of_hash_set, Hs|].
      rewrite replacement_for_spec by done.
      destruct (or_else_visible P l1 a l2 Hv Ha) as (r & Er & Hr). rewrite Er. split; [eauto|].
      exists l1, l2. by rewrite Er.
    - split; [|done]. destruct Hv as (x & Hx & Hp).
      destruct (filter (fun t => t ∉ P) ts) as [|r l] eqn:F.
      + assert (Hr : x ∈ filter (fun t => t ∉ P) ts) by (by apply list_elem_of_filter).
        rewrite F in Hr. by apply elem_of_nil in Hr.
      + exists r. split; [done|]. assert (Hr : r ∈ filter (fun t => t ∉ P) ts) by (rewrite F; by left).
        by apply list_elem_of_filter in Hr as [? _]. }
  destruct A as [A1 A2]. split; [done|]. split; [done|]. split; [|done].
  intros a. unfold repair_parked_view. cbn. destruct (last_active_tab_id ws) as [b|]; [|naive_solver].
  destruct (bool_decide_reflect (b ∈ P)); naive_solver.
Qed.

Section Parking.
Context {TE : TabEnv} {ME : MuxEnv}.

Lemma repair_run w win m :
  windows m !! w = Some win -> window_wf win -> iter_visible win <> [] -> tabs_up m ->
  exists m', repair_client_views_after_parked_change w m = Some (tt, m', []) /\
    only_clients (update_window_views w
      (repair_parked_view (tabs win) (iter_visible win) (parked_tabs win)) m) m'.
Proof.
  intros Ew Hw Hv Hup. unfold repair_client_views_after_parked_change. rewrite gets_run. unfold id.
  rewrite Ew, parked_ids_set by done. destruct (iter_visible win) as [|x l] eqn:F; [done|].
  rewrite modify_run, gets_run. apply repair_all_run. exact Hup.
Qed.

Lemma visible_nonempty (ts : list TabId) (P : gset TabId) :
  filter (fun t => t ∉ P) ts <> [] <-> exists x, x ∈ ts /\ x ∉ P.
Proof.
  split.
  - destruct (filter (fun t => t ∉ P) ts) as [|x l] eqn:F; [done|]. intros _. exists x.
    assert (Hx : x ∈ filter (fun t => t ∉ P) ts) by (rewrite F; by left).
    by apply list_elem_of_filter in Hx as [? ?].
  - intros (x & Hx & Hp) F. assert (Hf : x ∈ filter (fun t => t ∉ P) ts) by (by apply list_elem_of_filter).
    rewrite F in Hf. by apply elem_of_nil in Hf.
Qed.

(** What a granted request does to the views: those of the window are repaired, the others
    are as they were. *)
Definition views_repaired (w : WindowId) (win : Window) (P : gset TabId) (m m' : Mux) : Prop :=
  (forall v ws, window_view m v w = Some ws -> exists ws', window_view m' v w = Some ws' /\
     (exists a, active_tab_id ws' = Some a /\ a ∉ P) /\ repaired_active P (tabs win) ws ws' /\
     (forall a, last_active_tab_id ws' = Some a <-> last_active_tab_id ws = Some a /\ a ∉ P) /\
     tab_views ws' = tab_views ws) /\
  (forall v w', w' <> w -> window_view m' v w' = window_view m v w').

Lemma views_repaired_ok w win P m m' :
  window_wf win -> P ⊆ hash_set (tabs win) -> (exists x, x ∈ tabs win /\ x ∉ P) ->
  client_views m' = client_views (update_window_views w
    (repair_parked_view (tabs win) (filter (fun t => t ∉ P) (tabs win)) P) m) ->
  views_repaired w win P m m'.
Proof.
  intros [Hn _] Hs Hv E.
  assert (Ev : forall v w', window_view m' v w' = window_view (update_window_views w
    (repair_parked_view (tabs win) (filter (fun t => t ∉ P) (tabs win)) P) m) v w')
    by (intros v w'; unfold window_view; by rewrite E).
  split.
  - intros v ws Ews. eexists. rewrite Ev, window_view_update, decide_True, Ews by done. split; [done|].
    by apply repair_parked_view_spec.
  - intros v w' Hne. by rewrite Ev, window_view_update, decide_False.
Qed.

(** C15: Hiding or showing a tab through the mux never panics. It is refused, changing
    nothing, exactly for a tab that is not in the window or when nothing would be left to
    see. Otherwise exactly that tab is hidden or shown; when that changes
    something, every client that looks at the window looks at a visible tab
    afterwards: its own if that is visible, else the nearest visible one after it, else before
    it; no view remembers a hidden tab as the last one, the views of other windows are untouched,
    and the window is announced as invalid and then the new state. *)
Theorem set_tab_parked_spec m w win t parked :
  windows m !! w = Some win -> window_wf win -> tabs_up m ->
  let P := parked_update parked t (parked_tabs win) in
  exists r m' calls, set_tab_parked w t parked m = Some (r, m', calls) /\
    match r with
    | Err _ => m' = m /\ calls = [] /\ (t ∉ tabs win \/ forall x, x ∈ tabs win -> x ∈ P)
    | Ok changed =>
        t ∈ tabs win /\ (exists x, x ∈ tabs win /\ x ∉ P) /\
        windows m' = <[w := set_parked P win]> (windows m) /\ (changed = false <-> P = parked_tabs win) /\
        if changed then
          calls = [TabCall (WindowInvalidated w);
                   ParkedTabsChanged w (tabs win) (parked_tab_ids (set_parked P win))] /\
          views_repaired w win P m m'
        else m' = m /\ calls = []
    end.
Proof.
  intros Ew Hw Hup P. unfold set_tab_parked. rewrite gets_run. unfold id. rewrite Ew.
  destruct (bool_decide_reflect (t ∈ tabs win)) as [Ht|Ht]; cbn [negb];
    [|exists (Err (TabNotInWindow t w)), m, []; by split_and!; auto].
  destruct (requested_spec win t parked Hw Ht) as (Nr & Sr & Hr & Er).
  fold (requested win t parked). cbv zeta. set (ids := requested win t parked) in *.
  destruct (apply_parked_tabs_run win (tabs win) ids Hw) as (r & win' & E & Spec).
  rewrite (bind_run _ _ _ _ _ _ (with_window_run w (fun _ => apply_parked_tabs (tabs win) ids) m win _ _ _ Ew E)).
  erewrite silent_run by (by apply lift_run).
  assert (Sv : (exists x, x ∈ tabs win /\ x ∉ ids) <-> exists x, x ∈ tabs win /\ x ∉ P).
  { unfold P. rewrite <- Hr. by setoid_rewrite elem_of_hash_set. }
  destruct r as [changed|e]; cycle 1.
  { destruct Spec as [Hno ->]. rewrite set_windows_same by done.
    exists (Err (OfWindow e)), m, []. split; [done|]. split; [done|]. split; [done|]. right. intros x Hx.
    destruct (decide (x ∈ P)) as [|Hp]; [done|]. exfalso. apply Hno. split_and!; [done..|].
    apply Sv. by exists x. }
  destruct Spec as ((_ & _ & _ & Hv) & -> & Hc). rewrite Hr in *. fold P in Hc, Er.
  apply Sv in Hv as Hvis. clear Sv.
  assert (Ec : changed = false <-> P = parked_tabs win).
  { rewrite Hc. unfold P. split; [intros Es; exact (f_equal parked_tabs Es)|].
    intros Es. rewrite Es. apply set_parked_same. }
  destruct changed.
  - assert (Hs : P ⊆ hash_set (tabs win)) by (unfold P; rewrite <- Hr; by apply hash_set_subseteq).
    set (m1 := set_windows _ m).
    destruct (repair_run w (set_parked P win) m1) as (m2 & E2 & O2); [by apply lookup_insert_eq| | |exact Hup|].
    { by apply wf_parks. }
    { by apply visible_nonempty. }
    exists (Ok true), m2, [TabCall (WindowInvalidated w); ParkedTabsChanged w (tabs win) ids].
    split; [by rewrite (bind_runs _ _ _ _ _ _ _ _ _ (bind_runs _ _ _ _ _ _ _ _ _ E2 eq_refl) eq_refl)|].
    split; [done|]. split; [done|]. split; [by rewrite O2|]. split; [done|].
    split; [by rewrite Er|]. apply views_repaired_ok; [done..|]. by rewrite O2.
  - assert (Ep : parked_update parked t (parked_tabs win) = parked_tabs win) by (by apply Ec).
    assert (Em : set_windows (<[w := set_parked (parked_update parked t (parked_tabs win)) win]> (windows m)) m = m).
    { rewrite Ep, set_parked_same. by apply set_windows_same. }
    rewrite Em. exists (Ok false), m, []. split; [done|]. split; [done|]. split; [done|].
    split; [by rewrite <- Em at 1|]. by split_and!.
Qed.

End Parking.

(** ** Closing a tab *)

Section Closing.
Context {TE : TabEnv} {ME : MuxEnv}.

(** The objects of all tabs that are registered or in a window are there, with their trees,
    and the windows are well-formed. *)
Record world (m : Mux) : Prop := {
  world_tabs : tabs_up m;
  world_window : forall w win, windows m !! w = Some win ->
    window_wf win /\ window_id win = w /\ forall t, t ∈ tabs win -> tab_up m t
}.

(** The views look at the same tabs. *)
Definition same_look (ws ws' : ClientWindowViewState) : Prop :=
  active_tab_id ws = active_tab_id ws' /\ last_active_tab_id ws = last_active_tab_id ws' /\
  dom (tab_views ws) = dom (tab_views ws').

Definition option_rel {A} (R : A -> A -> Prop) : option A -> option A -> Prop :=
  option_relation R (fun _ => False) (fun _ => False).

Definition same_looks (m m' : Mux) : Prop :=
  forall v w, option_rel same_look (window_view m v w) (window_view m' v w).

Lemma same_looks_refl m m' : client_views m' = client_views m -> same_looks m m'.
Proof.
  intros E v w. unfold window_view. rewrite E. by destruct (client_views m !! v ≫= _); cbn.
Qed.

Lemma same_looks_trans m1 m2 m3 : same_looks m1 m2 -> same_looks m2 m3 -> same_looks m1 m3.
Proof.
  intros H1 H2 v w. specialize (H1 v w). specialize (H2 v w).
  destruct (window_view m1 v w), (window_view m2 v w), (window_view m3 v w); try done.
  destruct H1 as (? & ? & ?), H2 as (? & ? & ?). split_and!; by etrans.
Qed.

(** The tabs and the windows are as they were. *)
Definition same_world (m m' : Mux) : Prop :=
  heap m' = heap m /\ mux_tabs m' = mux_tabs m /\ windows m' = windows m.

Lemma same_world_up m m' t : same_world m m' -> tab_up m t -> tab_up m' t.
Proof. intros (E & _) (st & tr & ?). exists st, tr. by rewrite E. Qed.

Lemma same_world_world m m' : same_world m m' -> world m -> world m'.
Proof.
  intros S [Ht Hw]. pose proof S as (_ & Et & Ew). split.
  - intros t. rewrite Et. intros H. eapply same_world_up; [done|]. by apply Ht.
  - intros w win. rewrite Ew. intros H. destruct (Hw w win H) as (? & ? & U). split_and!; [done..|].
    intros t Hin. eapply same_world_up; [done|]. by apply U.
Qed.

Lemma count_panes_quiet st tr :
  pane st = Some tr -> complete tr \/ tr = BinTree.Empty -> silent count_panes st (length (leaves tr)).
Proof.
  intros Hp [Ht| ->]; [|destruct st; cbn in *; by subst].
  unfold count_panes, silent. eapply browse_run; [|exact Ht|exact Hp| |].
  - intros c a st' c' a' stop st2 tr2 _ [= <- <- <- <- <-]. split; [done|]. split; [done|].
    by destruct (it c).
  - intros st'. instantiate (1 := length (leaves tr)). change (length (leaves tr)) with (0 + length (leaves tr))%nat at 1.
    generalize 0%nat, (@BinTree.Top PaneId SplitDirectionAndSize). clear Hp.
    induction tr as [|l IHl r IHr [d|]|q]; intros n p; try done; cbn [visit].
    + destruct Ht as [Hl Hr]. erewrite silent_run by reflexivity. cbn [it].
      erewrite silent_run by (by apply IHl). cbv beta iota.
      erewrite silent_run by (by apply IHr). cbv beta iota. cbn. by rewrite length_app, Nat.add_assoc.
    + erewrite silent_run by reflexivity. cbn. by rewrite Nat.add_1_r.
  - intros c Hc. by rewrite (put_back _ _ tr).
Qed.

(** ** Runs that return *)

(** The computation returns, with a result and a state that satisfy [Q]. *)
Definition runs {A} (c : MuxM A) (m : Mux) (Q : A -> Mux -> Prop) : Prop :=
  exists a m' calls, c m = Some (a, m', calls) /\ Q a m'.

Lemma runs_bind {A B} (c : MuxM A) (k : A -> MuxM B) m Q :
  runs c m (fun a m' => runs (k a) m' Q) -> runs (c ≫= k) m Q.
Proof.
  intros (a & m1 & tr1 & E1 & b & m2 & tr2 & E2 & HQ). exists b, m2, (tr1 ++ tr2).
  split; [|done]. by eapply bind_runs.
Qed.

Lemma runs_mono {A} (c : MuxM A) m (Q R : A -> Mux -> Prop) :
  runs c m Q -> (forall a m', Q a m' -> R a m') -> runs c m R.
Proof. intros (a & m' & tr & E & HQ) H. exists a, m', tr. auto. Qed.

Lemma runs_silent {A} (c : MuxM A) m a (Q : A -> Mux -> Prop) : silent c m a -> Q a m -> runs c m Q.
Proof. intros E HQ. by exists a, m, []. Qed.

Lemma runs_ret {A} (a : A) m (Q : A -> Mux -> Prop) : Q a m -> runs (mret a) m Q.
Proof. by apply runs_silent. Qed.

Lemma runs_gets {A} (f : Mux -> A) m (Q : A -> Mux -> Prop) : Q (f m) m -> runs (gets f) m Q.
Proof. by apply runs_silent. Qed.

Lemma runs_modify f m (Q : unit -> Mux -> Prop) : Q tt (f m) -> runs (modify f) m Q.
Proof. intros HQ. by exists tt, (f m), []. Qed.

Lemma runs_emit e m (Q : unit -> Mux -> Prop) : Q tt m -> runs (emit e) m Q.
Proof. intros HQ. by exists tt, m, [e]. Qed.

Lemma runs_for_each {A} (l : list A) (f : A -> MuxM unit) (I : Mux -> Prop) m :
  I m -> (forall x m, x ∈ l -> I m -> runs (f x) m (fun _ => I)) -> runs (for_each l f) m (fun _ => I).
Proof.
  revert m. induction l as [|x l IH]; intros m Hm Hf; cbn [for_each]; [by apply runs_ret|].
  apply runs_bind. eapply runs_mono; [apply Hf; [by left|exact Hm]|]. cbv beta. intros _ m' Hm'.
  apply IH; [exact Hm'|]. intros y m2 Hy. apply Hf. by right.
Qed.

(** ** The parts of closing *)

Lemma count_window_run ws ts count m :
  (forall t, t ∈ ts -> tab_up m t) -> exists count', silent (count_window ws ts count) m count'.
Proof.
  revert count. induction ts as [|t ts IH]; intros count Hts; cbn [count_window]; [by exists count|].
  destruct (Hts t) as (st & tr & Es & Ep & Ht); [by left|].
  destruct (IH (<[ws := (default 0 (count !! ws) + length (leaves tr))%nat]> count)) as [count' E].
  { intros t' Ht'. apply Hts. by right. }
  exists count'. unfold silent. erewrite silent_run; [exact E|].
  eapply with_tab_silent; [done|]. by apply count_panes_quiet.
Qed.

Lemma count_windows_run wins count m :
  (forall win t, win ∈ wins -> t ∈ tabs win -> tab_up m t) ->
  exists count', silent (count_windows wins count) m count'.
Proof.
  revert count. induction wins as [|win wins IH]; intros count Hw; cbn [count_windows]; [by exists count|].
  destruct (count_window_run (workspace win) (tabs win) count m) as [c1 E1].
  { intros t Ht. eapply Hw; [by left|done]. }
  destruct (IH c1) as [c2 E2]; [intros w t Hin; apply Hw; by right|].
  exists c2. unfold silent. by erewrite silent_run by exact E1.
Qed.

Lemma recompute_run m :
  world m -> runs recompute_pane_count m (fun _ m' => exists c, m' = set_pane_counts c m).
Proof.
  intros [_ Hw]. unfold recompute_pane_count. apply runs_bind, runs_gets. unfold id.
  destruct (count_windows_run (snd <$> map_to_list (windows m)) ∅ m) as [c E].
  - intros win t ([w win'] & -> & Hin)%list_elem_of_fmap Ht. apply elem_of_map_to_list in Hin.
    by apply (Hw w win').
  - apply runs_bind. eapply runs_silent; [exact E|]. apply runs_modify. eauto.
Qed.

Lemma replace_active_pane_looks w t p r m :
  same_looks m (update_window_views w (replace_active_pane t p r) m).
Proof.
  intros v w'. rewrite window_view_update. destruct (decide (w' = w)) as [->|].
  - destruct (window_view m v w) as [ws|]; [|done]. cbn. unfold same_look. cbn. by rewrite dom_alter_L.
  - by destruct (window_view m v w').
Qed.

Lemma remove_pane_run p m :
  world m -> runs (remove_pane_internal p) m
    (fun _ m' => same_world m m' /\ same_looks m m' /\ clients m' = clients m).
Proof.
  intros W. unfold remove_pane_internal. apply runs_bind, runs_emit, runs_bind.
  eapply runs_silent; [apply resolve_run, W|]. do 5 apply runs_bind, runs_emit.
  apply runs_bind, runs_gets. unfold id. cbv zeta. apply runs_bind.
  apply (runs_mono _ _ (fun _ m1 => same_world m m1 /\ client_views m1 = client_views m /\ clients m1 = clients m)).
  { destruct (bool_decide _); [|by apply runs_ret].
    apply runs_bind, runs_modify, runs_bind, runs_emit, runs_emit. done. }
  intros _ m1 (S1 & V1 & C1). pose proof (same_world_world _ _ S1 W) as W1. apply runs_bind.
  apply (runs_mono _ _ (fun _ m2 => same_world m m2 /\ same_looks m m2 /\ clients m2 = clients m)).
  { destruct (resolved m p) as [[[d w] t]|]; [|by apply runs_ret; split_and!; try apply S1; [apply same_looks_refl|]].
    apply runs_bind, runs_gets, runs_bind. unfold get_tab, id.
    assert (E : exists r, silent (match (if bool_decide (t ∈ mux_tabs m1) then Some t else None) with
                | Some t => active_pane_of t | None => mret None end) m1 r).
    { destruct (bool_decide_reflect (t ∈ mux_tabs m1)) as [Ht|Ht]; [|by exists None].
      eexists. by apply active_pane_run, W1. }
    destruct E as [r E]. eapply runs_silent; [exact E|]. apply runs_modify.
    split; [exact S1|]. split; [|done]. eapply same_looks_trans; [by apply same_looks_refl|].
    apply replace_active_pane_looks. }
  intros _ m2 (S2 & L2 & C2). destruct (bool_decide _); [|by apply runs_ret].
  eapply runs_mono; [apply recompute_run; by eapply same_world_world|]. by intros _ m3 [c ->].
Qed.


(** *** The window *)

Definition without (t : TabId) (ts : list TabId) (win : Window) : Window :=
  set_parked (parked_tabs win ∖ {[t]}) (set_tabs ts win).

Lemma remove_by_id_run m win t l1 l2 :
  tabs win = l1 ++ t :: l2 -> t ∉ l1 ->
  @remove_by_id (mux_env m) t win =
    Some (tt, without t (l1 ++ l2) win, @invalidated win).
Proof.
  intros E Ht. unfold remove_by_id. rewrite gets_run. unfold id, idx_by_id. rewrite E.
  rewrite position_app_r by done. cbn [position]. rewrite Z.eqb_refl. cbn [fmap option_fmap option_map].
  rewrite Nat.add_0_r.
  erewrite silent_run.
  2: { apply lift_run, vec_remove_lookup. rewrite lookup_app_r, Nat.sub_diag by done. done. }
  cbv beta iota. rewrite modify_run. rewrite delete_middle. reflexivity.
Qed.

Lemma remove_from_window_other t w m :
  (forall win, windows m !! w = Some win -> t ∉ tabs win) -> silent (remove_from_window t w) m [].
Proof.
  intros Hno. unfold remove_from_window, silent. rewrite gets_run. unfold id.
  destruct (windows m !! w) as [win|]; [|done]. cbn. unfold idx_by_id.
  destruct (position (tabs win) t) as [i|] eqn:E; [|done]. exfalso.
  apply (Hno win eq_refl). apply position_Some in E. by eapply list_elem_of_lookup_2.
Qed.

Lemma remove_from_windows_others t ws m :
  (forall w win, w ∈ ws -> windows m !! w = Some win -> t ∉ tabs win) ->
  silent (remove_from_windows t ws) m [].
Proof.
  induction ws as [|w ws IH]; intros Hno; [done|]. cbn [remove_from_windows]. unfold silent.
  erewrite silent_run by (apply remove_from_window_other; intros win; apply Hno; by left).
  by erewrite silent_run by (apply IH; intros w' win' Hw'; apply Hno; by right).
Qed.

Lemma remove_from_windows_run m w win t l1 l2 ws :
  windows m !! w = Some win -> window_id win = w -> NoDup (tabs win) -> tabs win = l1 ++ t :: l2 ->
  (forall w' win', windows m !! w' = Some win' -> t ∈ tabs win' -> w' = w) ->
  NoDup ws -> w ∈ ws ->
  runs (remove_from_windows t ws) m (fun r m' =>
    r = [(w, length l1, l1 ++ l2)] /\ m' = set_windows (<[w := without t (l1 ++ l2) win]> (windows m)) m).
Proof.
  intros Ew Ei Hn Et Honly. assert (Ht1 : t ∉ l1).
  { rewrite Et in Hn. apply NoDup_app in Hn as (_ & H12 & _). intros Hin. apply (H12 _ Hin). by left. }
  induction ws as [|w0 ws IH]; intros Hws Hin; [by apply elem_of_nil in Hin|].
  apply NoDup_cons in Hws as [Hw0 Hws]. cbn [remove_from_windows]. apply runs_bind.
  destruct (decide (w0 = w)) as [->|Hne].
  - eapply (runs_mono _ _ (fun r m' => r = [(w, length l1, l1 ++ l2)] /\
      m' = set_windows (<[w := without t (l1 ++ l2) win]> (windows m)) m)).
    { unfold remove_from_window. apply runs_bind, runs_gets. unfold id, idx_by_id. rewrite Ew. cbn [mbind option_bind].
      rewrite Et, position_app_r by done. cbn [position]. rewrite Z.eqb_refl.
      cbn [fmap option_fmap option_map]. rewrite Nat.add_0_r. apply runs_bind.
      eexists _, _, _. split; [apply (with_window_run w (fun env => @remove_by_id env t) m win);
        [done|by apply remove_by_id_run]|].
      apply runs_bind, runs_gets, runs_ret. split; [|done]. cbn. rewrite lookup_insert_eq. cbn. by rewrite Ei. }
    intros r m' [-> ->]. apply runs_bind. eapply runs_silent; [apply remove_from_windows_others|by apply runs_ret].
    intros w' win' Hw'. cbn. rewrite lookup_insert_ne by (intros ->; done). intros E' Hin'.
    rewrite (Honly _ _ E' Hin') in Hw'. done.
  - eapply runs_silent; [apply remove_from_window_other|].
    { intros win' E' Hin'. by rewrite (Honly _ _ E' Hin') in Hne. }
    apply runs_bind. eapply runs_mono; [apply IH; [done|set_solver]|]. intros r m' [-> ->]. by apply runs_ret.
Qed.

(** *** The views *)

(** The tab that takes the place of a closed one: the last active tab if it is still there,
    else the next tab, else the previous one. *)
Definition closing_choice (l1 l2 : list TabId) (last_active : option TabId) : option TabId :=
  or_else (t ← last_active; if bool_decide (t ∈ l1 ++ l2) then Some t else None)
    (or_else (head l2) (last l1)).

Lemma neighbour l1 l2 :
  (l1 ++ l2) !! (length l1 `min` (length (l1 ++ l2) - 1))%nat = or_else (head l2) (last l1) :> option TabId.
Proof.
  destruct l2 as [|x l2]; cbn.
  - rewrite app_nil_r. rewrite last_lookup. f_equal. lia.
  - rewrite length_app. cbn. rewrite Nat.min_l by lia. by rewrite list_lookup_middle.
Qed.

Lemma neighbour_some (l1 l2 : list TabId) :
  l1 ++ l2 <> [] -> exists c, or_else (head l2) (last l1) = Some c /\ c ∈ l1 ++ l2.
Proof.
  intros Hne. rewrite <- neighbour.
  destruct (lookup_lt_is_Some_2 (l1 ++ l2) (length l1 `min` (length (l1 ++ l2) - 1))%nat) as [c E].
  { destruct (l1 ++ l2); [done|cbn; lia]. }
  exists c. split; [done|]. by eapply list_elem_of_lookup_2.
Qed.

Lemma closing_choice_some (l1 l2 : list TabId) b :
  l1 ++ l2 <> [] -> exists c, closing_choice l1 l2 b = Some c /\ c ∈ l1 ++ l2.
Proof.
  intros Hne. unfold closing_choice. destruct b as [b|]; cbn; [|by apply neighbour_some].
  destruct (bool_decide_reflect (b ∈ l1 ++ l2)); [by exists b|by apply neighbour_some].
Qed.

(** A window state without the closed tab, looking at another one. *)
Definition looks_away (t : TabId) (ws : ClientWindowViewState) : Prop :=
  (t ∉ dom (tab_views ws)) /\ last_active_tab_id ws <> Some t /\ active_tab_id ws <> Some t.

Lemma clear_looks_away t ws : looks_away t (clear_removed_tab t ws).
Proof.
  unfold looks_away, clear_removed_tab. cbn. rewrite dom_delete_L.
  split_and!; [set_solver|by destruct (bool_decide_reflect (last_active_tab_id ws = Some t))|
    by destruct (bool_decide_reflect (active_tab_id ws = Some t))].
Qed.

Lemma set_active_looks_away t c ws :
  looks_away t ws -> c <> t -> looks_away t (set_active_tab c ws) /\ active_tab_id (set_active_tab c ws) = Some c.
Proof.
  intros (H1 & H2 & H3) Hc. unfold looks_away, set_active_tab, touch_tab.
  destruct (bool_decide_reflect (active_tab_id ws <> Some c)) as [Ha|Ha]; cbn; rewrite dom_insert_L.
  - split_and!; [set_solver|done|congruence|done].
  - destruct (decide (active_tab_id ws = Some c)) as [E|]; [|done]. rewrite E.
    split_and!; [set_solver|done|congruence|done].
Qed.

Lemma repair_removed_view_spec t l1 l2 ws :
  t ∉ l1 ++ l2 ->
  match repair_removed_view t (l1 ++ l2) (or_else (head l2) (last l1)) ws with
  | None => l1 ++ l2 = []
  | Some ws' => l1 ++ l2 <> [] /\ looks_away t ws' /\
      forall a, active_tab_id ws = Some a ->
        active_tab_id ws' = if decide (a ∈ l1 ++ l2) then Some a
                            else closing_choice l1 l2 (last_active_tab_id ws)
  end.
Proof.
  intros Ht. unfold repair_removed_view. cbv zeta. set (ws1 := clear_removed_tab t ws).
  pose proof (clear_looks_away t ws) as L1. fold ws1 in L1.
  assert (Hc : or_else (b ← last_active_tab_id ws1; if bool_decide (b ∈ l1 ++ l2) then Some b else None)
                 (or_else (head l2) (last l1)) = closing_choice l1 l2 (last_active_tab_id ws)).
  { unfold closing_choice. f_equal. cbn.
    destruct (bool_decide_reflect (last_active_tab_id ws = Some t)) as [->|]; [|done]. cbn.
    by rewrite bool_decide_false. }
  fold (or_else (b ← last_active_tab_id ws1; if bool_decide (b ∈ l1 ++ l2) then Some b else None)
          (or_else (head l2) (last l1))). rewrite Hc.
  destruct (decide (l1 ++ l2 = [])) as [->|Hne]; [done|].
  destruct (closing_choice_some l1 l2 (last_active_tab_id ws) Hne) as (c & -> & Hin).
  destruct (set_active_looks_away t c ws1 L1) as [L2 A2]; [congruence|].
  assert (Ha1 : active_tab_id ws <> Some t -> active_tab_id ws1 = active_tab_id ws).
  { intros H. cbn. by rewrite bool_decide_false. }
  destruct (l1 ++ l2) as [|x l] eqn:El; [done|].
  destruct (bool_decide_reflect (active_tab_id ws = Some t)) as [Et|Et].
  { split; [done|]. split; [done|]. intros a. rewrite Et. intros [= <-]. by rewrite decide_False. }
  rewrite Ha1 by done. destruct (active_tab_id ws) as [a|] eqn:Ea; [|by split_and!].
  split; [done|]. destruct (bool_decide_reflect (a ∈ x :: l)) as [Hl|Hl].
  - split; [done|]. intros a' [= <-]. rewrite decide_True by done. by apply Ha1.
  - split; [done|]. intros a' [= <-]. by rewrite decide_False.
Qed.

Lemma window_view_put m v w ws v' w' :
  window_view (put_window_view v w ws m) v' w' =
  if decide (v' = v /\ w' = w) then Some ws else window_view m v' w'.
Proof.
  unfold window_view, put_window_view, view_entry. cbn. destruct (decide (v' = v)) as [->|Hv].
  - rewrite lookup_insert_eq. cbn. destruct (decide (w' = w)) as [->|Hw].
    + by rewrite lookup_insert_eq, decide_True.
    + rewrite lookup_insert_ne, decide_False by naive_solver. by destruct (client_views m !! v).
  - by rewrite lookup_insert_ne, decide_False by naive_solver.
Qed.

Lemma window_view_update_or_remove m w f v w' :
  window_view (update_or_remove_window_views w f m) v w' =
  if decide (w' = w) then window_view m v w ≫= f else window_view m v w'.
Proof.
  unfold window_view, update_or_remove_window_views. cbn. rewrite lookup_fmap.
  destruct (client_views m !! v) as [view|]; cbn; [|by destruct (decide _)].
  destruct (decide (w' = w)) as [->|Hw]; [by rewrite lookup_partial_alter_eq|by rewrite lookup_partial_alter_ne].
Qed.

(** Completing window states from the tab [r] changes only what is missing. *)
Definition completed (r : TabId) (ws ws' : ClientWindowViewState) : Prop :=
  (forall a, active_tab_id ws = Some a -> active_tab_id ws' = Some a) /\
  (active_tab_id ws' = active_tab_id ws \/ active_tab_id ws' = Some r) /\
  last_active_tab_id ws' = last_active_tab_id ws /\ dom (tab_views ws') ⊆ {[r]} ∪ dom (tab_views ws).

Lemma completed_refl r ws : completed r ws ws.
Proof. split_and!; auto. set_solver. Qed.

Lemma completed_seeded r m ws ws' : completed r ws ws' -> completed r ws (seeded m ws' r).
Proof.
  intros (H1 & H2 & H3 & H4). unfold completed, seeded. cbn. rewrite dom_insert_L. split_and!.
  - intros a Ha. by rewrite (H1 a Ha).
  - destruct (active_tab_id ws') eqn:E; auto.
  - done.
  - set_solver.
Qed.

Definition views_completed (w : WindowId) (r : TabId) (m m' : Mux) : Prop :=
  same_world m m' /\ clients m' = clients m /\
  (forall v w', w' <> w -> window_view m' v w' = window_view m v w') /\
  forall v, option_rel (completed r) (window_view m v w) (window_view m' v w).

Lemma seed_view_run w r v m m1 :
  views_completed w r m m1 -> tab_up m r -> runs (seed_view w r v) m1 (fun _ => views_completed w r m).
Proof.
  intros (S & C & V & K) Hup. unfold seed_view. apply runs_bind, runs_gets. unfold id.
  destruct (window_view m1 v w) as [ws1|] eqn:E1; [|by apply runs_ret].
  apply runs_bind. eapply runs_silent; [apply seed_run; by eapply same_world_up|]. apply runs_modify.
  split; [done|]. split; [done|]. split.
  - intros v' w' Hne. rewrite window_view_put, decide_False by naive_solver. by apply V.
  - intros v'. rewrite window_view_put. specialize (K v'). destruct (decide (v' = v)) as [->|Hv].
    + rewrite decide_True by done. rewrite E1 in K. destruct (window_view m v w); [|done]. cbn in *.
      by apply completed_seeded.
    + by rewrite decide_False by naive_solver.
Qed.

Lemma views_completed_refl w r m : views_completed w r m m.
Proof.
  split; [done|]. split; [done|]. split; [done|]. intros v.
  destruct (window_view m v w); cbn; [apply completed_refl|done].
Qed.

Lemma repair_removed_run w t l1 l2 m :
  world m ->
  runs (repair_client_view_state_after_tab_removed w t (length l1) (l1 ++ l2)) m (fun _ m' =>
    exists m1, m1 = update_or_remove_window_views w
        (repair_removed_view t (l1 ++ l2) (or_else (head l2) (last l1))) m /\
      (m' = m1 \/ exists r, or_else (head l2) (last l1) = Some r /\ views_completed w r m1 m')).
Proof.
  intros W. unfold repair_client_view_state_after_tab_removed. cbv zeta. rewrite neighbour.
  apply runs_bind, runs_modify, runs_bind, runs_gets. unfold id.
  set (m1 := update_or_remove_window_views _ _ m).
  destruct (or_else (head l2) (last l1)) as [r|] eqn:Er; cbn [mbind option_bind]; [|apply runs_ret; exists m1; auto].
  unfold get_tab. destruct (bool_decide_reflect (r ∈ mux_tabs m1)) as [Hr|Hr]; [|apply runs_ret; exists m1; auto].
  apply (runs_mono _ _ (fun _ => views_completed w r m1)).
  - apply (runs_for_each _ _ (views_completed w r m1)); [apply views_completed_refl|].
    intros v m2 _ K. apply seed_view_run; [done|]. apply W. exact Hr.
  - intros _ m2 K. exists m1. split; [done|]. right. by exists r.
Qed.

(** What closing the tab [t] between [l1] and [l2] does to the view of the window. *)
Definition closed_view (t : TabId) (l1 l2 : list TabId) (ws : ClientWindowViewState)
    (o : option ClientWindowViewState) : Prop :=
  match o with
  | None => l1 ++ l2 = []
  | Some ws' => l1 ++ l2 <> [] /\ looks_away t ws' /\
      forall a, active_tab_id ws = Some a ->
        active_tab_id ws' = if decide (a ∈ l1 ++ l2) then Some a
                            else closing_choice l1 l2 (last_active_tab_id ws)
  end.

Lemma closed_view_same t l1 l2 ws o o' :
  closed_view t l1 l2 ws o -> option_rel same_look o o' -> closed_view t l1 l2 ws o'.
Proof.
  destruct o as [ws1|], o' as [ws2|]; cbn; try done. intros (H1 & (L1 & L2 & L3) & H2) (E1 & E2 & E3).
  unfold looks_away. rewrite <- E1, <- E2, <- E3. by split_and!.
Qed.

Lemma closed_view_completed t l1 l2 ws o o' r :
  t <> r -> closed_view t l1 l2 ws o -> option_rel (completed r) o o' -> closed_view t l1 l2 ws o'.
Proof.
  intros Hr. destruct o as [ws1|], o' as [ws2|]; cbn; try done.
  intros (H1 & (L1 & L2 & L3) & H2) (E1 & E2 & E3 & E4). split; [done|]. split.
  - split; [set_solver|]. split; [by rewrite E3|]. destruct E2 as [->| ->]; [done|congruence].
  - intros a Ha. specialize (H2 a Ha). destruct (decide (a ∈ l1 ++ l2)); [auto|].
    destruct (closing_choice_some l1 l2 (last_active_tab_id ws) H1) as (c & Ec & _). rewrite Ec in *. auto.
Qed.

Lemma world_without m w win t l1 l2 :
  world m -> windows m !! w = Some win -> tabs win = l1 ++ t :: l2 ->
  world (set_windows (<[w := without t (l1 ++ l2) win]> (windows m)) m).
Proof.
  intros [Ht Hw] Ew El. split; [exact Ht|]. intros w' win'. cbn.
  destruct (decide (w' = w)) as [->|Hne]; [|rewrite lookup_insert_ne by done; apply Hw].
  rewrite lookup_insert_eq. intros [= <-]. destruct (Hw w win Ew) as (Wf & Wi & Up). split_and!; [|done|].
  - apply wf_remove; [done|]. rewrite El. by rewrite Permutation_middle.
  - intros t' Hin. cbn in Hin. apply Up. rewrite El. set_solver.
Qed.

(** The views after the windows are repaired. *)
Lemma views_after_removal m w win t l1 l2 m3 :
  t ∉ l1 ++ l2 ->
  (exists m1, m1 = update_or_remove_window_views w
      (repair_removed_view t (l1 ++ l2) (or_else (head l2) (last l1)))
      (set_windows (<[w := without t (l1 ++ l2) win]> (windows m)) m) /\
    (m3 = m1 \/ exists r, or_else (head l2) (last l1) = Some r /\ views_completed w r m1 m3)) ->
  (forall v w', w' <> w -> window_view m3 v w' = window_view m v w') /\
  (forall v ws, window_view m v w = Some ws -> closed_view t l1 l2 ws (window_view m3 v w)).
Proof.
  intros Ht (m1 & -> & Hm3).
  set (m0 := set_windows _ m) in *. set (m1 := update_or_remove_window_views _ _ m0) in *.
  assert (Ho : forall v w', w' <> w -> window_view m1 v w' = window_view m v w').
  { intros v w' Hne. unfold m1. by rewrite window_view_update_or_remove, decide_False. }
  assert (Hc : forall v ws, window_view m v w = Some ws -> closed_view t l1 l2 ws (window_view m1 v w)).
  { intros v ws E. unfold m1. rewrite window_view_update_or_remove, decide_True by done.
    change (window_view m0 v w) with (window_view m v w). rewrite E. by apply repair_removed_view_spec. }
  destruct Hm3 as [->|(r & Er & _ & _ & V & K)]; [done|]. split.
  - intros v w' Hne. rewrite V by done. by apply Ho.
  - intros v ws E. eapply closed_view_completed; [|by apply Hc|apply K]. intros ->.
    destruct (neighbour_some l1 l2) as (c & Ec & Hin); [by destruct l1, l2|]. congruence.
Qed.

(** The rest of [remove_tab_internal], after the windows and the views: the panes are removed, the
    count is made anew. *)
Definition panes_removed (t : TabId) : MuxM (option TabId) :=
  pane_ids ← panes_of t;
  for_each pane_ids remove_pane_internal;;
  recompute_pane_count;;
  mret (Some t).

Lemma panes_removed_run t m : world m -> tab_up m t ->
  runs (panes_removed t) m (fun r m' => r = Some t /\ same_world m m' /\ same_looks m m').
Proof.
  intros W Up. unfold panes_removed. apply runs_bind. eapply runs_silent; [by apply panes_of_run|].
  apply runs_bind. eapply runs_mono.
  { apply (runs_for_each _ _ (fun m' => same_world m m' /\ same_looks m m')).
    - split; [done|by apply same_looks_refl].
    - intros p m' _ [S L]. eapply runs_mono; [apply remove_pane_run; by eapply same_world_world|].
      cbv beta. intros _ m5 ((E1 & E2 & E3) & L5 & _). destruct S as (F1 & F2 & F3).
      split; [by split_and!; etrans|by eapply same_looks_trans]. }
  cbv beta. intros _ m5 [S5 L5]. apply runs_bind.
  eapply runs_mono; [apply recompute_run; by eapply same_world_world|]. cbv beta. intros _ m6 [c ->].
  by apply runs_ret.
Qed.

(** What closing the tab [t] of the window [w] leads to. *)
Definition tab_closed (m : Mux) (w : WindowId) (win : Window) (t : TabId) (l1 l2 : list TabId) (m' : Mux) : Prop :=
  mux_tabs m' = mux_tabs m ∖ {[t]} /\ heap m' = heap m /\
  windows m' = <[w := without t (l1 ++ l2) win]> (windows m) /\
  (forall v w', w' <> w -> option_rel same_look (window_view m v w') (window_view m' v w')) /\
  (forall v ws, window_view m v w = Some ws -> closed_view t l1 l2 ws (window_view m' v w)).

Lemma remove_tab_run m w win t l1 l2 :
  world m -> t ∈ mux_tabs m -> windows m !! w = Some win -> tabs win = l1 ++ t :: l2 ->
  (forall w' win', windows m !! w' = Some win' -> t ∈ tabs win' -> w' = w) ->
  runs (remove_tab_internal t) m (fun r m' => r = Some t /\ tab_closed m w win t l1 l2 m').
Proof.
  intros W Ht Ew El Honly. destruct (world_window _ W _ _ Ew) as (Wf & Wi & Up).
  pose proof (wf_tabs _ Wf) as Hn. rewrite El in Hn.
  assert (Ht12 : t ∉ l1 ++ l2) by (rewrite <- Permutation_middle in Hn; by apply NoDup_cons in Hn as [? _]).
  unfold remove_tab_internal. apply runs_bind, runs_gets. unfold id, get_tab. rewrite bool_decide_true by done.
  apply runs_bind, runs_modify. do 2 apply runs_bind, runs_emit. apply runs_bind, runs_gets.
  set (m1 := set_mux_tabs _ m).
  assert (W1 : world m1).
  { split; [|apply W]. intros t' Ht'. cbn in Ht'. apply W. set_solver. }
  apply runs_bind. eapply runs_mono.
  { apply (remove_from_windows_run m1 w win t l1 l2); try done; [apply Wf|apply NoDup_elements|].
    apply elem_of_elements, elem_of_dom. by exists win. }
  intros r m2 [-> ->]. pose proof (world_without m1 w win t l1 l2 W1 Ew El) as W2. cbn [for_each].
  apply runs_bind, runs_bind. eapply runs_mono; [by apply repair_removed_run|]. cbv beta.
  intros _ m3 V3. pose proof (views_after_removal m1 w win t l1 l2 m3 Ht12 V3) as [Vo Vc].
  assert (S3 : same_world (set_windows (<[w := without t (l1 ++ l2) win]> (windows m1)) m1) m3).
  { destruct V3 as (m4 & -> & [->|(r & _ & S & _)]); done. }
  apply runs_ret. eapply runs_mono.
  { apply (panes_removed_run t m3); [by eapply same_world_world|].
    eapply same_world_up; [exact S3|]. apply Up. rewrite El. set_solver. }
  cbv beta. intros r m6 (-> & (F1 & F2 & F3) & L6). destruct S3 as (G1 & G2 & G3). split; [done|].
  unfold tab_closed. rewrite F1, F2, F3, G1, G2, G3. do 3 (split; [done|]). split.
  - intros v w' Hne. change (window_view m v w') with (window_view m1 v w'). rewrite <- (Vo v w' Hne). apply L6.
  - intros v ws E. eapply closed_view_same; [by apply Vc|apply L6].
Qed.

(** C11: Closing a tab returns; the tab is out of the registry and out of its window, whose
    other tabs keep their order. A client that looked at it looks at its last active
    tab of the window if that is still there, else at the next tab, else at the
    previous one; one that looked at another tab of the window still does; none
    remembers the closed tab, and a view forgets a window without tabs. The views of the other
    windows look where they did. *)
Theorem remove_tab_spec m w win t l1 l2 :
  world m -> t ∈ mux_tabs m -> windows m !! w = Some win -> tabs win = l1 ++ t :: l2 ->
  (forall w' win', windows m !! w' = Some win' -> t ∈ tabs win' -> w' = w) ->
  exists m' calls, remove_tab_internal t m = Some (Some t, m', calls) /\
    mux_tabs m' = mux_tabs m ∖ {[t]} /\ heap m' = heap m /\
    windows m' = <[w := without t (l1 ++ l2) win]> (windows m) /\
    (forall v w', w' <> w -> option_rel same_look (window_view m v w') (window_view m' v w')) /\
    (forall v ws, window_view m v w = Some ws -> closed_view t l1 l2 ws (window_view m' v w)).
Proof.
  intros W Ht Ew El Honly.
  destruct (remove_tab_run m w win t l1 l2 W Ht Ew El Honly) as (r & m' & calls & E & -> & R).
  by exists m', calls.
Qed.

(** *** Where closing leaves a view astray *)

(** A tab that is in no window: the views stay as they are. *)
Lemma remove_detached_run m t :
  world m -> t ∈ mux_tabs m -> (forall w win, windows m !! w = Some win -> t ∉ tabs win) ->
  runs (remove_tab_internal t) m (fun r m' => r = Some t /\ mux_tabs m' = mux_tabs m ∖ {[t]} /\ same_looks m m').
Proof.
  intros W Ht Hno. unfold remove_tab_internal. apply runs_bind, runs_gets. unfold id, get_tab.
  rewrite bool_decide_true by done.
  apply runs_bind, runs_modify. do 2 apply runs_bind, runs_emit. apply runs_bind, runs_gets.
  set (m1 := set_mux_tabs _ m).
  assert (W1 : world m1).
  { split; [|apply W]. intros t' Ht'. cbn in Ht'. apply W. set_solver. }
  apply runs_bind. eapply runs_silent.
  { apply remove_from_windows_others. intros w win _ Ew. by apply (Hno w win). }
  cbn [for_each]. apply runs_bind, runs_ret. eapply runs_mono.
  { apply (panes_removed_run t m1 W1). by apply W. }
  cbv beta. intros r m6 (-> & (F1 & F2 & F3) & L6). split; [done|]. split; [by rewrite F2|]. exact L6.
Qed.

(** No client may select a parked tab. *)
Lemma parked_not_selectable m v w win t :
  t ∈ mux_tabs m -> windows m !! w = Some win -> t ∈ tabs win -> t ∈ parked_tabs win ->
  set_active_tab_for_client_view v w t m = Some (Err (TabParked t w), m, []).
Proof.
  intros Ht Ew Hin Hp. unfold set_active_tab_for_client_view, set_active_tab_for_client_view_impl.
  rewrite gets_run. unfold id, get_tab. rewrite bool_decide_true, Ew by done. unfold idx_by_id.
  destruct (position (tabs win) t) as [i|] eqn:E; [|by apply position_None in E].
  unfold is_tab_parked. by rewrite bool_decide_true.
Qed.

(** Hiding the last visible tab is refused. *)
Lemma parking_refused m w win t :
  windows m !! w = Some win -> window_wf win -> t ∈ tabs win ->
  (forall x, x ∈ tabs win -> x <> t -> x ∈ parked_tabs win) ->
  exists e, set_tab_parked w t true m = Some (Err e, m, []).
Proof.
  intros Ew Hw Ht Hall. unfold set_tab_parked. rewrite gets_run. unfold id. rewrite Ew, bool_decide_true by done.
  cbn [negb]. destruct (requested_spec win t true Hw Ht) as (Nr & Sr & Hr & Er).
  fold (requested win t true). cbv zeta. set (ids := requested win t true) in *.
  destruct (apply_parked_tabs_run win (tabs win) ids Hw) as (r & win' & E & Spec).
  rewrite (bind_run _ _ _ _ _ _ (with_window_run w (fun _ => apply_parked_tabs (tabs win) ids) m win _ _ _ Ew E)).
  erewrite silent_run by (by apply lift_run). destruct r as [changed|e]; cycle 1.
  { destruct Spec as [_ ->]. rewrite set_windows_same by done. by exists (OfWindow e). }
  exfalso. destruct Spec as ((_ & _ & _ & x & Hx & Hp) & _). apply Hp. apply elem_of_hash_set.
  rewrite Hr. cbn. apply elem_of_union. destruct (decide (x = t)) as [->|Hne]; [left; set_solver|right; by apply Hall].
Qed.

(** C35: Three oversights of closing a tab. A tab that is in no window any more when it is removed (as
    [prune_dead_windows] removes a tab whose last pane is gone: it takes it out of its window first) stays
    the active tab of every client that looked at it, though the mux does not have it. A
    client without another last tab that looked at the closed tab of a window is given the
    neighbour of it even if that is parked, a tab that no client may select. And closing the last visible tab is
    not refused, although hiding it is: a window of hidden tabs is left. *)
Theorem closing_oversights m t :
  world m -> t ∈ mux_tabs m ->
  ((forall w win, windows m !! w = Some win -> t ∉ tabs win) ->
   exists m' calls, remove_tab_internal t m = Some (Some t, m', calls) /\ (t ∉ mux_tabs m') /\
     forall v w ws, window_view m v w = Some ws -> active_tab_id ws = Some t ->
       exists ws', window_view m' v w = Some ws' /\ active_tab_id ws' = Some t) /\
  (forall w win l1 l2, windows m !! w = Some win -> tabs win = l1 ++ t :: l2 ->
   (forall w' win', windows m !! w' = Some win' -> t ∈ tabs win' -> w' = w) ->
   exists m' calls win', remove_tab_internal t m = Some (Some t, m', calls) /\
     windows m' !! w = Some win' /\ tabs win' = l1 ++ l2 /\
     (forall v ws r, window_view m v w = Some ws -> active_tab_id ws = Some t -> last_active_tab_id ws = None ->
        or_else (head l2) (last l1) = Some r -> r ∈ parked_tabs win -> r ∈ mux_tabs m ->
        exists ws', window_view m' v w = Some ws' /\ active_tab_id ws' = Some r /\
          set_active_tab_for_client_view v w r m' = Some (Err (TabParked r w), m', [])) /\
     ((forall x, x ∈ l1 ++ l2 -> x ∈ parked_tabs win) ->
        iter_visible win' = [] /\ exists e, set_tab_parked w t true m = Some (Err e, m, []))).
Proof.
  intros W Ht. split.
  - intros Hno. destruct (remove_detached_run m t W Ht Hno) as (r & m' & calls & E & -> & Et & L).
    exists m', calls. split; [done|]. split; [rewrite Et; set_solver|]. intros v w ws Ev Ea.
    specialize (L v w). rewrite Ev in L. destruct (window_view m' v w) as [ws'|]; [|done].
    exists ws'. split; [done|]. destruct L as (<- & _). done.
  - intros w win l1 l2 Ew El Honly. destruct (world_window _ W _ _ Ew) as (Wf & _ & _).
    pose proof (wf_tabs _ Wf) as Hn. rewrite El in Hn.
    assert (Ht12 : t ∉ l1 ++ l2) by (rewrite <- Permutation_middle in Hn; by apply NoDup_cons in Hn as [? _]).
    destruct (remove_tab_run m w win t l1 l2 W Ht Ew El Honly) as (r0 & m' & calls & E & -> & (Et & _ & Ews & _ & V)).
    exists m', calls, (without t (l1 ++ l2) win). split; [done|].
    assert (Ew' : windows m' !! w = Some (without t (l1 ++ l2) win)) by (rewrite Ews; apply lookup_insert_eq).
    split; [done|]. split; [done|]. split.
    + intros v ws r Ev Ea El0 Er Hp Hr. specialize (V v ws Ev).
      assert (Hin : r ∈ l1 ++ l2).
      { destruct (neighbour_some l1 l2) as (c & Ec & Hc); [by intros E0; destruct l1, l2|]. congruence. }
      destruct (window_view m' v w) as [ws'|]; [|rewrite V in Hin; by apply elem_of_nil in Hin].
      destruct V as (_ & _ & V). exists ws'. split; [done|]. specialize (V t Ea).
      rewrite decide_False in V by done. unfold closing_choice in V. rewrite El0 in V. cbn in V.
      split; [by rewrite V|]. assert (r <> t) by (intros ->; done).
      apply (parked_not_selectable m' v w (without t (l1 ++ l2) win) r); [rewrite Et; set_solver|exact Ew'|exact Hin|]. cbn. set_solver.
    + intros Hall. split.
      * unfold iter_visible, without. cbn. destruct (filter _ (l1 ++ l2)) as [|x l] eqn:F; [done|].
        assert (Hx : x ∈ filter (fun x => x ∉ parked_tabs win ∖ {[t]}) (l1 ++ l2)) by (rewrite F; by left).
        apply list_elem_of_filter in Hx as [Hx Hin]. exfalso. apply Hx. apply elem_of_difference.
        split; [by apply Hall|]. intros ->%elem_of_singleton. done.
      * apply (parking_refused m w win t Ew Wf); rewrite El; [set_solver|].
        intros x Hx Hne. apply Hall. set_solver.
Qed.

End Closing.

(** ** Where closing leaves a view astray *)

#[export] Instance sample_mux_env : MuxEnv := {|
  shutdown_in_progress := false;
  activity_count := 0;
  default_workspace := "default";
  detachable := fun _ => None
|}.

(** Three tabs with a pane each in window 10, and a client that looks at the second, after the
    first. *)
Definition one_pane_tab (t : TabId) (tr : PTree) : TabInner :=
  mkTab t (Some tr) (sz 80 24) (sz 80 24) 0 None EmptyString false Recency_default.

Definition sample_view : ClientWindowViewState :=
  mkWindowView (Some 2) (Some 1) {[1 := mkTabView (Some 101); 2 := mkTabView (Some 102)]}.

Definition sample_client : ClientId := mkClientId "host" "user" 1 0 0 None.

Definition sample_mux (tree2 : PTree) (parked : gset TabId) (ws : ClientWindowViewState) : Mux :=
  mkMux {[1 := one_pane_tab 1 (Leaf 101); 2 := one_pane_tab 2 tree2; 3 := one_pane_tab 3 (Leaf 103)]}
    {[1; 2; 3]} {[101; 102; 103]}
    {[10 := mkWindow 10 [1; 2; 3] parked "default" "" None]}
    {["view" := mkView {[10 := ws]}]}
    {[sample_client := mkClientInfo "view" (Some "default") (Some 102)]} (Some sample_client) ∅.

(** What is to be seen of a mux: the tabs of the window, those shown, the tab the client looks
    at by its id, and the tab the mux finds for it. *)
Definition observe (r : option (unit * Mux * list Notice))
  : option (list TabId * list TabId * option TabId * option TabId) :=
  '(_, m, _) ← r;
  win ← windows m !! 10;
  Some (tabs win, iter_visible win, get_active_tab_id_for_window_for_client m "view" 10,
        get_active_tab_for_window_for_client m "view" 10).

(** The first of the oversights as a client sees it: tab 2 has lost its last pane. *)
Example prune_forgets_views :
  observe (@prune_dead_windows (sample_env true false) _ (sample_mux BinTree.Empty ∅ sample_view)) =
    Some ([1; 3], [1; 3], Some 2, None).
Proof. vm_compute. reflexivity. Qed.

Lemma sample_tab_up parked ws t : t ∈ [1; 2; 3] -> tab_up (sample_mux (Leaf 102) parked ws) t.
Proof.
  intros Ht. assert (E : t = 1 \/ t = 2 \/ t = 3) by set_solver.
  destruct E as [->|[->| ->]]; eexists _, _; (split; [vm_compute; reflexivity|]);
    (split; [reflexivity|]); by left.
Qed.

Lemma sample_window_10 parked :
  parked ⊆ {[1; 2; 3]} -> window_wf (mkWindow 10 [1; 2; 3] parked "default" "" None).
Proof.
  intros Hp. split; [apply (bool_decide_unpack _); by vm_compute|]. intros t Ht%Hp.
  apply elem_of_hash_set. cbn. set_solver.
Qed.

Lemma sample_world parked ws :
  parked ⊆ {[1; 2; 3]} -> world (sample_mux (Leaf 102) parked ws).
Proof.
  intros Hp. split; [intros t Ht; apply sample_tab_up; set_solver|].
  cbn. intros w win [<- <-]%lookup_singleton_Some. split_and!; [by apply sample_window_10|done|].
  intros t Ht. by apply sample_tab_up.
Qed.

Lemma set_tab_parked_spec_witness :
  exists m' calls,
    @set_tab_parked (sample_env true false) 10 2 true (sample_mux (Leaf 102) ∅ sample_view) =
      Some (Ok true, m', calls) /\
    views_repaired 10 (mkWindow 10 [1; 2; 3] ∅ "default" "" None) {[2]}
      (sample_mux (Leaf 102) ∅ sample_view) m'.
Proof.
  destruct (@set_tab_parked_spec (sample_env true false) (sample_mux (Leaf 102) ∅ sample_view) 10
              (mkWindow 10 [1; 2; 3] ∅ "default" "" None) 2 true) as (r & m' & calls & E & Spec).
  - reflexivity.
  - by apply sample_window_10.
  - by apply sample_world.
  - exists m', calls. assert (Er : r = Ok true).
    { transitivity (default (Ok true) ((fun x => fst (fst x)) <$> Some (r, m', calls))); [done|].
      rewrite <- E. vm_compute. reflexivity. }
    rewrite Er in *. split; [exact E|]. destruct Spec as (_ & _ & _ & _ & _ & Spec).
    replace ({[2]} : gset TabId) with (parked_update true 2 ∅) by (by vm_compute). exact Spec.
Defined.

Lemma remove_tab_spec_witness :
  exists m' calls,
    @remove_tab_internal (sample_env true false) 2 (sample_mux (Leaf 102) ∅ sample_view) =
      Some (Some 2, m', calls) /\
    closed_view 2 [1] [3] sample_view (window_view m' "view" 10).
Proof.
  destruct (@remove_tab_spec (sample_env true false) (sample_mux (Leaf 102) ∅ sample_view) 10
              (mkWindow 10 [1; 2; 3] ∅ "default" "" None) 2 [1] [3]) as (m' & calls & E & _ & _ & _ & _ & V).
  - apply sample_world. set_solver.
  - cbn. set_solver.
  - done.
  - done.
  - cbn. by intros w' win' [<- <-]%lookup_singleton_Some.
  - exists m', calls. split; [done|]. by apply V.
Defined.

(** Tab 3 is parked; a client that looks at tab 2, and at no other before, is given tab 3. *)
Lemma closing_oversights_witness :
  let m := sample_mux (Leaf 102) {[3]} (set_active_tab 2 WindowView_default) in
  exists m' calls ws', @remove_tab_internal (sample_env true false) 2 m = Some (Some 2, m', calls) /\
    window_view m' "view" 10 = Some ws' /\ active_tab_id ws' = Some 3.
Proof.
  intros m.
  destruct (@closing_oversights (sample_env true false) m 2) as [_ H2].
  - apply sample_world. set_solver.
  - cbn. set_solver.
  - destruct (H2 10 (mkWindow 10 [1; 2; 3] {[3]} "default" "" None) [1] [3]) as (m' & calls & win' & E & _ & _ & V & _).
    + reflexivity.
    + reflexivity.
    + intros w' win'. cbn. by intros [<- _]%lookup_singleton_Some.
    + destruct (V "view"%string (set_active_tab 2 WindowView_default) 3) as (ws' & Ev & Ea & _);
        [reflexivity|reflexivity|reflexivity|reflexivity|cbn; set_solver|cbn; set_solver|].
      exists m', calls, ws'. split; [exact E|]. split; [exact Ev|exact Ea].
Defined.
