(* ===== verification/CharWidth.v ===== *)
(** How many cells a character occupies: [src/wakterm-char-props/src/widechar_width.rs] with its
    range tables, [Presentation] of [emoji.rs], and [UnicodeVersion],
    [grapheme_column_width] and their neighbours of [src/wakterm-cell/src/lib.rs]. The lookup table that
    [emoji_variation.rs] stores as a literal is the one that [WcLookupTable::new] builds. The map of
    variation sequences (a [phf] map) and the emoji trie (a crate) are the class [CharTables], and the
    segmentation into graphemes, also a crate, is the class [Graphemes]. *)

From Stdlib Require Import ZArith Lia.
From S2P Require Import Prelude.
From stdpp Require Import base numbers list option gmap.
Local Open Scope Z_scope.

(** ** Classes of width *)

Inductive WcWidth : Set :=
| WcWidth_One | WcWidth_Two | NonPrint | Combining | Ambiguous | PrivateUse | Unassigned
| WidenedIn9 | NonCharacter.

#[export] Instance WcWidth_eq_dec : EqDecision WcWidth.
Proof. solve_decision. Defined.

(** A range of characters, both ends included. *)
Abbreviation R := (Z * Z)%type.

(** ** The tables of [widechar_width.rs] *)

Definition ASCII_TABLE : list R :=
  [(0x20, 0x7E)].

Definition PRIVATE_TABLE : list R :=
  [(0xE000, 0xF8FF); (0xF0000, 0xFFFFD); (0x100000, 0x10FFFD)].

Definition NONPRINT_TABLE : list R :=
  [(0x0, 0x1F); (0x7F, 0x9F); (0xAD, 0xAD); (0x600, 0x605); (0x61C, 0x61C); (0x6DD, 0x6DD);
   (0x70F, 0x70F); (0x890, 0x891); (0x8E2, 0x8E2); (0x180E, 0x180E); (0x200B, 0x200F);
   (0x2028, 0x202E); (0x2060, 0x2064); (0x2066, 0x206F); (0xD800, 0xDFFF); (0xFEFF, 0xFEFF);
   (0xFFF9, 0xFFFB); (0x110BD, 0x110BD); (0x110CD, 0x110CD); (0x13430, 0x1343F);
   (0x1BCA0, 0x1BCA3); (0x1D173, 0x1D17A); (0xE0001, 0xE0001); (0xE0020, 0xE007F)].

Definition COMBINING_TABLE : list R :=
  [(0x300, 0x36F); (0x483, 0x489); (0x591, 0x5BD); (0x5BF, 0x5BF); (0x5C1, 0x5C2);
   (0x5C4, 0x5C5); (0x5C7, 0x5C7); (0x610, 0x61A); (0x64B, 0x65F); (0x670, 0x670);
   (0x6D6, 0x6DC); (0x6DF, 0x6E4); (0x6E7, 0x6E8); (0x6EA, 0x6ED); (0x711, 0x711);
   (0x730, 0x74A); (0x7A6, 0x7B0); (0x7EB, 0x7F3); (0x7FD, 0x7FD); (0x816, 0x819);
   (0x81B, 0x823); (0x825, 0x827); (0x829, 0x82D); (0x859, 0x85B); (0x897, 0x89F);
   (0x8CA, 0x8E1); (0x8E3, 0x903); (0x93A, 0x93C); (0x93E, 0x94F); (0x951, 0x957);
   (0x962, 0x963); (0x981, 0x983); (0x9BC, 0x9BC); (0x9BE, 0x9C4); (0x9C7, 0x9C8);
   (0x9CB, 0x9CD); (0x9D7, 0x9D7); (0x9E2, 0x9E3); (0x9FE, 0x9FE); (0xA01, 0xA03);
   (0xA3C, 0xA3C); (0xA3E, 0xA42); (0xA47, 0xA48); (0xA4B, 0xA4D); (0xA51, 0xA51);
   (0xA70, 0xA71); (0xA75, 0xA75); (0xA81, 0xA83); (0xABC, 0xABC); (0xABE, 0xAC5);
   (0xAC7, 0xAC9); (0xACB, 0xACD); (0xAE2, 0xAE3); (0xAFA, 0xAFF); (0xB01, 0xB03);
   (0xB3C, 0xB3C); (0xB3E, 0xB44); (0xB47, 0xB48); (0xB4B, 0xB4D); (0xB55, 0xB57);
   (0xB62, 0xB63); (0xB82, 0xB82); (0xBBE, 0xBC2); (0xBC6, 0xBC8); (0xBCA, 0xBCD);
   (0xBD7, 0xBD7); (0xC00, 0xC04); (0xC3C, 0xC3C); (0xC3E, 0xC44); (0xC46, 0xC48);
   (0xC4A, 0xC4D); (0xC55, 0xC56); (0xC62, 0xC63); (0xC81, 0xC83); (0xCBC, 0xCBC);
   (0xCBE, 0xCC4); (0xCC6, 0xCC8); (0xCCA, 0xCCD); (0xCD5, 0xCD6); (0xCE2, 0xCE3);
   (0xCF3, 0xCF3); (0xD00, 0xD03); (0xD3B, 0xD3C); (0xD3E, 0xD44); (0xD46, 0xD48);
   (0xD4A, 0xD4D); (0xD57, 0xD57); (0xD62, 0xD63); (0xD81, 0xD83); (0xDCA, 0xDCA);
   (0xDCF, 0xDD4); (0xDD6, 0xDD6); (0xDD8, 0xDDF); (0xDF2, 0xDF3); (0xE31, 0xE31);
   (0xE34, 0xE3A); (0xE47, 0xE4E); (0xEB1, 0xEB1); (0xEB4, 0xEBC); (0xEC8, 0xECE);
   (0xF18, 0xF19); (0xF35, 0xF35); (0xF37, 0xF37); (0xF39, 0xF39); (0xF3E, 0xF3F);
   (0xF71, 0xF84); (0xF86, 0xF87); (0xF8D, 0xF97); (0xF99, 0xFBC); (0xFC6, 0xFC6);
   (0x102B, 0x103E); (0x1056, 0x1059); (0x105E, 0x1060); (0x1062, 0x1064); (0x1067, 0x106D);
   (0x1071, 0x1074); (0x1082, 0x108D); (0x108F, 0x108F); (0x109A, 0x109D); (0x135D, 0x135F);
   (0x1712, 0x1715); (0x1732, 0x1734); (0x1752, 0x1753); (0x1772, 0x1773); (0x17B4, 0x17D3);
   (0x17DD, 0x17DD); (0x180B, 0x180D); (0x180F, 0x180F); (0x1885, 0x1886); (0x18A9, 0x18A9);
   (0x1920, 0x192B); (0x1930, 0x193B); (0x1A17, 0x1A1B); (0x1A55, 0x1A5E); (0x1A60, 0x1A7C);
   (0x1A7F, 0x1A7F); (0x1AB0, 0x1ACE); (0x1B00, 0x1B04); (0x1B34, 0x1B44); (0x1B6B, 0x1B73);
   (0x1B80, 0x1B82); (0x1BA1, 0x1BAD); (0x1BE6, 0x1BF3); (0x1C24, 0x1C37); (0x1CD0, 0x1CD2);
   (0x1CD4, 0x1CE8); (0x1CED, 0x1CED); (0x1CF4, 0x1CF4); (0x1CF7, 0x1CF9); (0x1DC0, 0x1DFF);
   (0x20D0, 0x20F0); (0x2CEF, 0x2CF1); (0x2D7F, 0x2D7F); (0x2DE0, 0x2DFF); (0x302A, 0x302F);
   (0x3099, 0x309A); (0xA66F, 0xA672); (0xA674, 0xA67D); (0xA69E, 0xA69F); (0xA6F0, 0xA6F1);
   (0xA802, 0xA802); (0xA806, 0xA806); (0xA80B, 0xA80B); (0xA823, 0xA827); (0xA82C, 0xA82C);
   (0xA880, 0xA881); (0xA8B4, 0xA8C5); (0xA8E0, 0xA8F1); (0xA8FF, 0xA8FF); (0xA926, 0xA92D);
   (0xA947, 0xA953); (0xA980, 0xA983); (0xA9B3, 0xA9C0); (0xA9E5, 0xA9E5); (0xAA29, 0xAA36);
   (0xAA43, 0xAA43); (0xAA4C, 0xAA4D); (0xAA7B, 0xAA7D); (0xAAB0, 0xAAB0); (0xAAB2, 0xAAB4);
   (0xAAB7, 0xAAB8); (0xAABE, 0xAABF); (0xAAC1, 0xAAC1); (0xAAEB, 0xAAEF); (0xAAF5, 0xAAF6);
   (0xABE3, 0xABEA); (0xABEC, 0xABED); (0xFB1E, 0xFB1E); (0xFE00, 0xFE0F); (0xFE20, 0xFE2F);
   (0x101FD, 0x101FD); (0x102E0, 0x102E0); (0x10376, 0x1037A); (0x10A01, 0x10A03);
   (0x10A05, 0x10A06); (0x10A0C, 0x10A0F); (0x10A38, 0x10A3A); (0x10A3F, 0x10A3F);
   (0x10AE5, 0x10AE6); (0x10D24, 0x10D27); (0x10D69, 0x10D6D); (0x10EAB, 0x10EAC);
   (0x10EFC, 0x10EFF); (0x10F46, 0x10F50); (0x10F82, 0x10F85); (0x11000, 0x11002);
   (0x11038, 0x11046); (0x11070, 0x11070); (0x11073, 0x11074); (0x1107F, 0x11082);
   (0x110B0, 0x110BA); (0x110C2, 0x110C2); (0x11100, 0x11102); (0x11127, 0x11134);
   (0x11145, 0x11146); (0x11173, 0x11173); (0x11180, 0x11182); (0x111B3, 0x111C0);
   (0x111C9, 0x111CC); (0x111CE, 0x111CF); (0x1122C, 0x11237); (0x1123E, 0x1123E);
   (0x11241, 0x11241); (0x112DF, 0x112EA); (0x11300, 0x11303); (0x1133B, 0x1133C);
   (0x1133E, 0x11344); (0x11347, 0x11348); (0x1134B, 0x1134D); (0x11357, 0x11357);
   (0x11362, 0x11363); (0x11366, 0x1136C); (0x11370, 0x11374); (0x113B8, 0x113C0);
   (0x113C2, 0x113C2); (0x113C5, 0x113C5); (0x113C7, 0x113CA); (0x113CC, 0x113D0);
   (0x113D2, 0x113D2); (0x113E1, 0x113E2); (0x11435, 0x11446); (0x1145E, 0x1145E);
   (0x114B0, 0x114C3); (0x115AF, 0x115B5); (0x115B8, 0x115C0); (0x115DC, 0x115DD);
   (0x11630, 0x11640); (0x116AB, 0x116B7); (0x1171D, 0x1172B); (0x1182C, 0x1183A);
   (0x11930, 0x11935); (0x11937, 0x11938); (0x1193B, 0x1193E); (0x11940, 0x11940);
   (0x11942, 0x11943); (0x119D1, 0x119D7); (0x119DA, 0x119E0); (0x119E4, 0x119E4);
   (0x11A01, 0x11A0A); (0x11A33, 0x11A39); (0x11A3B, 0x11A3E); (0x11A47, 0x11A47);
   (0x11A51, 0x11A5B); (0x11A8A, 0x11A99); (0x11C2F, 0x11C36); (0x11C38, 0x11C3F);
   (0x11C92, 0x11CA7); (0x11CA9, 0x11CB6); (0x11D31, 0x11D36); (0x11D3A, 0x11D3A);
   (0x11D3C, 0x11D3D); (0x11D3F, 0x11D45); (0x11D47, 0x11D47); (0x11D8A, 0x11D8E);
   (0x11D90, 0x11D91); (0x11D93, 0x11D97); (0x11EF3, 0x11EF6); (0x11F00, 0x11F01);
   (0x11F03, 0x11F03); (0x11F34, 0x11F3A); (0x11F3E, 0x11F42); (0x11F5A, 0x11F5A);
   (0x13440, 0x13440); (0x13447, 0x13455); (0x1611E, 0x1612F); (0x16AF0, 0x16AF4);
   (0x16B30, 0x16B36); (0x16F4F, 0x16F4F); (0x16F51, 0x16F87); (0x16F8F, 0x16F92);
   (0x16FE4, 0x16FE4); (0x16FF0, 0x16FF1); (0x1BC9D, 0x1BC9E); (0x1CF00, 0x1CF2D);
   (0x1CF30, 0x1CF46); (0x1D165, 0x1D169); (0x1D16D, 0x1D172); (0x1D17B, 0x1D182);
   (0x1D185, 0x1D18B); (0x1D1AA, 0x1D1AD); (0x1D242, 0x1D244); (0x1DA00, 0x1DA36);
   (0x1DA3B, 0x1DA6C); (0x1DA75, 0x1DA75); (0x1DA84, 0x1DA84); (0x1DA9B, 0x1DA9F);
   (0x1DAA1, 0x1DAAF); (0x1E000, 0x1E006); (0x1E008, 0x1E018); (0x1E01B, 0x1E021);
   (0x1E023, 0x1E024); (0x1E026, 0x1E02A); (0x1E08F, 0x1E08F); (0x1E130, 0x1E136);
   (0x1E2AE, 0x1E2AE); (0x1E2EC, 0x1E2EF); (0x1E4EC, 0x1E4EF); (0x1E5EE, 0x1E5EF);
   (0x1E8D0, 0x1E8D6); (0x1E944, 0x1E94A); (0xE0100, 0xE01EF)].

Definition COMBININGLETTERS_TABLE : list R :=
  [(0x1160, 0x11FF); (0xD7B0, 0xD7FF)].

Definition DOUBLEWIDE_TABLE : list R :=
  [(0x1100, 0x115F); (0x2329, 0x232A); (0x2630, 0x2637); (0x268A, 0x268F); (0x2E80, 0x2E99);
   (0x2E9B, 0x2EF3); (0x2F00, 0x2FD5); (0x2FF0, 0x303E); (0x3041, 0x3096); (0x3099, 0x30FF);
   (0x3105, 0x312F); (0x3131, 0x318E); (0x3190, 0x31E5); (0x31EF, 0x321E); (0x3220, 0x3247);
   (0x3250, 0xA48C); (0xA490, 0xA4C6); (0xA960, 0xA97C); (0xAC00, 0xD7A3); (0xF900, 0xFAFF);
   (0xFE10, 0xFE19); (0xFE30, 0xFE52); (0xFE54, 0xFE66); (0xFE68, 0xFE6B); (0xFF01, 0xFF60);
   (0xFFE0, 0xFFE6); (0x16FE0, 0x16FE4); (0x16FF0, 0x16FF1); (0x17000, 0x187F7);
   (0x18800, 0x18CD5); (0x18CFF, 0x18D08); (0x1AFF0, 0x1AFF3); (0x1AFF5, 0x1AFFB);
   (0x1AFFD, 0x1AFFE); (0x1B000, 0x1B122); (0x1B132, 0x1B132); (0x1B150, 0x1B152);
   (0x1B155, 0x1B155); (0x1B164, 0x1B167); (0x1B170, 0x1B2FB); (0x1D300, 0x1D356);
   (0x1D360, 0x1D376); (0x1F200, 0x1F200); (0x1F202, 0x1F202); (0x1F210, 0x1F219);
   (0x1F21B, 0x1F22E); (0x1F230, 0x1F231); (0x1F237, 0x1F237); (0x1F23B, 0x1F23B);
   (0x1F240, 0x1F248); (0x1F260, 0x1F265); (0x1F57A, 0x1F57A); (0x1F5A4, 0x1F5A4);
   (0x1F6D1, 0x1F6D2); (0x1F6D5, 0x1F6D7); (0x1F6DC, 0x1F6DF); (0x1F6F4, 0x1F6FC);
   (0x1F7E0, 0x1F7EB); (0x1F7F0, 0x1F7F0); (0x1F90C, 0x1F90F); (0x1F919, 0x1F93A);
   (0x1F93C, 0x1F945); (0x1F947, 0x1F97F); (0x1F985, 0x1F9BF); (0x1F9C1, 0x1F9FF);
   (0x1FA70, 0x1FA7C); (0x1FA80, 0x1FA89); (0x1FA8F, 0x1FAC6); (0x1FACE, 0x1FADC);
   (0x1FADF, 0x1FAE9); (0x1FAF0, 0x1FAF8); (0x20000, 0x2FFFD); (0x30000, 0x3FFFD)].

Definition AMBIGUOUS_TABLE : list R :=
  [(0xA1, 0xA1); (0xA4, 0xA4); (0xA7, 0xA8); (0xAA, 0xAA); (0xAD, 0xAE); (0xB0, 0xB4);
   (0xB6, 0xBA); (0xBC, 0xBF); (0xC6, 0xC6); (0xD0, 0xD0); (0xD7, 0xD8); (0xDE, 0xE1);
   (0xE6, 0xE6); (0xE8, 0xEA); (0xEC, 0xED); (0xF0, 0xF0); (0xF2, 0xF3); (0xF7, 0xFA);
   (0xFC, 0xFC); (0xFE, 0xFE); (0x101, 0x101); (0x111, 0x111); (0x113, 0x113); (0x11B, 0x11B);
   (0x126, 0x127); (0x12B, 0x12B); (0x131, 0x133); (0x138, 0x138); (0x13F, 0x142);
   (0x144, 0x144); (0x148, 0x14B); (0x14D, 0x14D); (0x152, 0x153); (0x166, 0x167);
   (0x16B, 0x16B); (0x1CE, 0x1CE); (0x1D0, 0x1D0); (0x1D2, 0x1D2); (0x1D4, 0x1D4);
   (0x1D6, 0x1D6); (0x1D8, 0x1D8); (0x1DA, 0x1DA); (0x1DC, 0x1DC); (0x251, 0x251);
   (0x261, 0x261); (0x2C4, 0x2C4); (0x2C7, 0x2C7); (0x2C9, 0x2CB); (0x2CD, 0x2CD);
   (0x2D0, 0x2D0); (0x2D8, 0x2DB); (0x2DD, 0x2DD); (0x2DF, 0x2DF); (0x300, 0x36F);
   (0x391, 0x3A1); (0x3A3, 0x3A9); (0x3B1, 0x3C1); (0x3C3, 0x3C9); (0x401, 0x401);
   (0x410, 0x44F); (0x451, 0x451); (0x2010, 0x2010); (0x2013, 0x2016); (0x2018, 0x2019);
   (0x201C, 0x201D); (0x2020, 0x2022); (0x2024, 0x2027); (0x2030, 0x2030); (0x2032, 0x2033);
   (0x2035, 0x2035); (0x203B, 0x203B); (0x203E, 0x203E); (0x2074, 0x2074); (0x207F, 0x207F);
   (0x2081, 0x2084); (0x20AC, 0x20AC); (0x2103, 0x2103); (0x2105, 0x2105); (0x2109, 0x2109);
   (0x2113, 0x2113); (0x2116, 0x2116); (0x2121, 0x2122); (0x2126, 0x2126); (0x212B, 0x212B);
   (0x2153, 0x2154); (0x215B, 0x215E); (0x2160, 0x216B); (0x2170, 0x2179); (0x2189, 0x2189);
   (0x2190, 0x2199); (0x21B8, 0x21B9); (0x21D2, 0x21D2); (0x21D4, 0x21D4); (0x21E7, 0x21E7);
   (0x2200, 0x2200); (0x2202, 0x2203); (0x2207, 0x2208); (0x220B, 0x220B); (0x220F, 0x220F);
   (0x2211, 0x2211); (0x2215, 0x2215); (0x221A, 0x221A); (0x221D, 0x2220); (0x2223, 0x2223);
   (0x2225, 0x2225); (0x2227, 0x222C); (0x222E, 0x222E); (0x2234, 0x2237); (0x223C, 0x223D);
   (0x2248, 0x2248); (0x224C, 0x224C); (0x2252, 0x2252); (0x2260, 0x2261); (0x2264, 0x2267);
   (0x226A, 0x226B); (0x226E, 0x226F); (0x2282, 0x2283); (0x2286, 0x2287); (0x2295, 0x2295);
   (0x2299, 0x2299); (0x22A5, 0x22A5); (0x22BF, 0x22BF); (0x2312, 0x2312); (0x2460, 0x24E9);
   (0x24EB, 0x254B); (0x2550, 0x2573); (0x2580, 0x258F); (0x2592, 0x2595); (0x25A0, 0x25A1);
   (0x25A3, 0x25A9); (0x25B2, 0x25B3); (0x25B6, 0x25B7); (0x25BC, 0x25BD); (0x25C0, 0x25C1);
   (0x25C6, 0x25C8); (0x25CB, 0x25CB); (0x25CE, 0x25D1); (0x25E2, 0x25E5); (0x25EF, 0x25EF);
   (0x2605, 0x2606); (0x2609, 0x2609); (0x260E, 0x260F); (0x261C, 0x261C); (0x261E, 0x261E);
   (0x2640, 0x2640); (0x2642, 0x2642); (0x2660, 0x2661); (0x2663, 0x2665); (0x2667, 0x266A);
   (0x266C, 0x266D); (0x266F, 0x266F); (0x269E, 0x269F); (0x26BF, 0x26BF); (0x26C6, 0x26CD);
   (0x26CF, 0x26D3); (0x26D5, 0x26E1); (0x26E3, 0x26E3); (0x26E8, 0x26E9); (0x26EB, 0x26F1);
   (0x26F4, 0x26F4); (0x26F6, 0x26F9); (0x26FB, 0x26FC); (0x26FE, 0x26FF); (0x273D, 0x273D);
   (0x2776, 0x277F); (0x2B56, 0x2B59); (0x3248, 0x324F); (0xE000, 0xF8FF); (0xFE00, 0xFE0F);
   (0xFFFD, 0xFFFD); (0x1F100, 0x1F10A); (0x1F110, 0x1F12D); (0x1F130, 0x1F169);
   (0x1F170, 0x1F18D); (0x1F18F, 0x1F190); (0x1F19B, 0x1F1AC); (0xE0100, 0xE01EF);
   (0xF0000, 0xFFFFD); (0x100000, 0x10FFFD)].

Definition UNASSIGNED_TABLE : list R :=
  [(0x378, 0x379); (0x380, 0x383); (0x38B, 0x38B); (0x38D, 0x38D); (0x3A2, 0x3A2);
   (0x530, 0x530); (0x557, 0x558); (0x58B, 0x58C); (0x590, 0x590); (0x5C8, 0x5CF);
   (0x5EB, 0x5EE); (0x5F5, 0x5FF); (0x70E, 0x70E); (0x74B, 0x74C); (0x7B2, 0x7BF);
   (0x7FB, 0x7FC); (0x82E, 0x82F); (0x83F, 0x83F); (0x85C, 0x85D); (0x85F, 0x85F);
   (0x86B, 0x86F); (0x88F, 0x88F); (0x892, 0x896); (0x984, 0x984); (0x98D, 0x98E);
   (0x991, 0x992); (0x9A9, 0x9A9); (0x9B1, 0x9B1); (0x9B3, 0x9B5); (0x9BA, 0x9BB);
   (0x9C5, 0x9C6); (0x9C9, 0x9CA); (0x9CF, 0x9D6); (0x9D8, 0x9DB); (0x9DE, 0x9DE);
   (0x9E4, 0x9E5); (0x9FF, 0xA00); (0xA04, 0xA04); (0xA0B, 0xA0E); (0xA11, 0xA12);
   (0xA29, 0xA29); (0xA31, 0xA31); (0xA34, 0xA34); (0xA37, 0xA37); (0xA3A, 0xA3B);
   (0xA3D, 0xA3D); (0xA43, 0xA46); (0xA49, 0xA4A); (0xA4E, 0xA50); (0xA52, 0xA58);
   (0xA5D, 0xA5D); (0xA5F, 0xA65); (0xA77, 0xA80); (0xA84, 0xA84); (0xA8E, 0xA8E);
   (0xA92, 0xA92); (0xAA9, 0xAA9); (0xAB1, 0xAB1); (0xAB4, 0xAB4); (0xABA, 0xABB);
   (0xAC6, 0xAC6); (0xACA, 0xACA); (0xACE, 0xACF); (0xAD1, 0xADF); (0xAE4, 0xAE5);
   (0xAF2, 0xAF8); (0xB00, 0xB00); (0xB04, 0xB04); (0xB0D, 0xB0E); (0xB11, 0xB12);
   (0xB29, 0xB29); (0xB31, 0xB31); (0xB34, 0xB34); (0xB3A, 0xB3B); (0xB45, 0xB46);
   (0xB49, 0xB4A); (0xB4E, 0xB54); (0xB58, 0xB5B); (0xB5E, 0xB5E); (0xB64, 0xB65);
   (0xB78, 0xB81); (0xB84, 0xB84); (0xB8B, 0xB8D); (0xB91, 0xB91); (0xB96, 0xB98);
   (0xB9B, 0xB9B); (0xB9D, 0xB9D); (0xBA0, 0xBA2); (0xBA5, 0xBA7); (0xBAB, 0xBAD);
   (0xBBA, 0xBBD); (0xBC3, 0xBC5); (0xBC9, 0xBC9); (0xBCE, 0xBCF); (0xBD1, 0xBD6);
   (0xBD8, 0xBE5); (0xBFB, 0xBFF); (0xC0D, 0xC0D); (0xC11, 0xC11); (0xC29, 0xC29);
   (0xC3A, 0xC3B); (0xC45, 0xC45); (0xC49, 0xC49); (0xC4E, 0xC54); (0xC57, 0xC57);
   (0xC5B, 0xC5C); (0xC5E, 0xC5F); (0xC64, 0xC65); (0xC70, 0xC76); (0xC8D, 0xC8D);
   (0xC91, 0xC91); (0xCA9, 0xCA9); (0xCB4, 0xCB4); (0xCBA, 0xCBB); (0xCC5, 0xCC5);
   (0xCC9, 0xCC9); (0xCCE, 0xCD4); (0xCD7, 0xCDC); (0xCDF, 0xCDF); (0xCE4, 0xCE5);
   (0xCF0, 0xCF0); (0xCF4, 0xCFF); (0xD0D, 0xD0D); (0xD11, 0xD11); (0xD45, 0xD45);
   (0xD49, 0xD49); (0xD50, 0xD53); (0xD64, 0xD65); (0xD80, 0xD80); (0xD84, 0xD84);
   (0xD97, 0xD99); (0xDB2, 0xDB2); (0xDBC, 0xDBC); (0xDBE, 0xDBF); (0xDC7, 0xDC9);
   (0xDCB, 0xDCE); (0xDD5, 0xDD5); (0xDD7, 0xDD7); (0xDE0, 0xDE5); (0xDF0, 0xDF1);
   (0xDF5, 0xE00); (0xE3B, 0xE3E); (0xE5C, 0xE80); (0xE83, 0xE83); (0xE85, 0xE85);
   (0xE8B, 0xE8B); (0xEA4, 0xEA4); (0xEA6, 0xEA6); (0xEBE, 0xEBF); (0xEC5, 0xEC5);
   (0xEC7, 0xEC7); (0xECF, 0xECF); (0xEDA, 0xEDB); (0xEE0, 0xEFF); (0xF48, 0xF48);
   (0xF6D, 0xF70); (0xF98, 0xF98); (0xFBD, 0xFBD); (0xFCD, 0xFCD); (0xFDB, 0xFFF);
   (0x10C6, 0x10C6); (0x10C8, 0x10CC); (0x10CE, 0x10CF); (0x1249, 0x1249); (0x124E, 0x124F);
   (0x1257, 0x1257); (0x1259, 0x1259); (0x125E, 0x125F); (0x1289, 0x1289); (0x128E, 0x128F);
   (0x12B1, 0x12B1); (0x12B6, 0x12B7); (0x12BF, 0x12BF); (0x12C1, 0x12C1); (0x12C6, 0x12C7);
   (0x12D7, 0x12D7); (0x1311, 0x1311); (0x1316, 0x1317); (0x135B, 0x135C); (0x137D, 0x137F);
   (0x139A, 0x139F); (0x13F6, 0x13F7); (0x13FE, 0x13FF); (0x169D, 0x169F); (0x16F9, 0x16FF);
   (0x1716, 0x171E); (0x1737, 0x173F); (0x1754, 0x175F); (0x176D, 0x176D); (0x1771, 0x1771);
   (0x1774, 0x177F); (0x17DE, 0x17DF); (0x17EA, 0x17EF); (0x17FA, 0x17FF); (0x181A, 0x181F);
   (0x1879, 0x187F); (0x18AB, 0x18AF); (0x18F6, 0x18FF); (0x191F, 0x191F); (0x192C, 0x192F);
   (0x193C, 0x193F); (0x1941, 0x1943); (0x196E, 0x196F); (0x1975, 0x197F); (0x19AC, 0x19AF);
   (0x19CA, 0x19CF); (0x19DB, 0x19DD); (0x1A1C, 0x1A1D); (0x1A5F, 0x1A5F); (0x1A7D, 0x1A7E);
   (0x1A8A, 0x1A8F); (0x1A9A, 0x1A9F); (0x1AAE, 0x1AAF); (0x1ACF, 0x1AFF); (0x1B4D, 0x1B4D);
   (0x1BF4, 0x1BFB); (0x1C38, 0x1C3A); (0x1C4A, 0x1C4C); (0x1C8B, 0x1C8F); (0x1CBB, 0x1CBC);
   (0x1CC8, 0x1CCF); (0x1CFB, 0x1CFF); (0x1F16, 0x1F17); (0x1F1E, 0x1F1F); (0x1F46, 0x1F47);
   (0x1F4E, 0x1F4F); (0x1F58, 0x1F58); (0x1F5A, 0x1F5A); (0x1F5C, 0x1F5C); (0x1F5E, 0x1F5E);
   (0x1F7E, 0x1F7F); (0x1FB5, 0x1FB5); (0x1FC5, 0x1FC5); (0x1FD4, 0x1FD5); (0x1FDC, 0x1FDC);
   (0x1FF0, 0x1FF1); (0x1FF5, 0x1FF5); (0x1FFF, 0x1FFF); (0x2065, 0x2065); (0x2072, 0x2073);
   (0x208F, 0x208F); (0x209D, 0x209F); (0x20C1, 0x20CF); (0x20F1, 0x20FF); (0x218C, 0x218F);
   (0x242A, 0x243F); (0x244B, 0x245F); (0x2B74, 0x2B75); (0x2B96, 0x2B96); (0x2CF4, 0x2CF8);
   (0x2D26, 0x2D26); (0x2D28, 0x2D2C); (0x2D2E, 0x2D2F); (0x2D68, 0x2D6E); (0x2D71, 0x2D7E);
   (0x2D97, 0x2D9F); (0x2DA7, 0x2DA7); (0x2DAF, 0x2DAF); (0x2DB7, 0x2DB7); (0x2DBF, 0x2DBF);
   (0x2DC7, 0x2DC7); (0x2DCF, 0x2DCF); (0x2DD7, 0x2DD7); (0x2DDF, 0x2DDF); (0x2E5E, 0x2E7F);
   (0x2E9A, 0x2E9A); (0x2EF4, 0x2EFF); (0x2FD6, 0x2FEF); (0x3040, 0x3040); (0x3097, 0x3098);
   (0x3100, 0x3104); (0x3130, 0x3130); (0x318F, 0x318F); (0x31E6, 0x31EE); (0x321F, 0x321F);
   (0x3401, 0x4DBE); (0x4E01, 0x9FFE); (0xA48D, 0xA48F); (0xA4C7, 0xA4CF); (0xA62C, 0xA63F);
   (0xA6F8, 0xA6FF); (0xA7CE, 0xA7CF); (0xA7D2, 0xA7D2); (0xA7D4, 0xA7D4); (0xA7DD, 0xA7F1);
   (0xA82D, 0xA82F); (0xA83A, 0xA83F); (0xA878, 0xA87F); (0xA8C6, 0xA8CD); (0xA8DA, 0xA8DF);
   (0xA954, 0xA95E); (0xA97D, 0xA97F); (0xA9CE, 0xA9CE); (0xA9DA, 0xA9DD); (0xA9FF, 0xA9FF);
   (0xAA37, 0xAA3F); (0xAA4E, 0xAA4F); (0xAA5A, 0xAA5B); (0xAAC3, 0xAADA); (0xAAF7, 0xAB00);
   (0xAB07, 0xAB08); (0xAB0F, 0xAB10); (0xAB17, 0xAB1F); (0xAB27, 0xAB27); (0xAB2F, 0xAB2F);
   (0xAB6C, 0xAB6F); (0xABEE, 0xABEF); (0xABFA, 0xABFF); (0xAC01, 0xD7A2); (0xD7A4, 0xD7AF);
   (0xD7C7, 0xD7CA); (0xD7FC, 0xD7FF); (0xFA6E, 0xFA6F); (0xFADA, 0xFAFF); (0xFB07, 0xFB12);
   (0xFB18, 0xFB1C); (0xFB37, 0xFB37); (0xFB3D, 0xFB3D); (0xFB3F, 0xFB3F); (0xFB42, 0xFB42);
   (0xFB45, 0xFB45); (0xFBC3, 0xFBD2); (0xFD90, 0xFD91); (0xFDC8, 0xFDCE); (0xFE1A, 0xFE1F);
   (0xFE53, 0xFE53); (0xFE67, 0xFE67); (0xFE6C, 0xFE6F); (0xFE75, 0xFE75); (0xFEFD, 0xFEFE);
   (0xFF00, 0xFF00); (0xFFBF, 0xFFC1); (0xFFC8, 0xFFC9); (0xFFD0, 0xFFD1); (0xFFD8, 0xFFD9);
   (0xFFDD, 0xFFDF); (0xFFE7, 0xFFE7); (0xFFEF, 0xFFF8); (0x1000C, 0x1000C); (0x10027, 0x10027);
   (0x1003B, 0x1003B); (0x1003E, 0x1003E); (0x1004E, 0x1004F); (0x1005E, 0x1007F);
   (0x100FB, 0x100FF); (0x10103, 0x10106); (0x10134, 0x10136); (0x1018F, 0x1018F);
   (0x1019D, 0x1019F); (0x101A1, 0x101CF); (0x101FE, 0x1027F); (0x1029D, 0x1029F);
   (0x102D1, 0x102DF); (0x102FC, 0x102FF); (0x10324, 0x1032C); (0x1034B, 0x1034F);
   (0x1037B, 0x1037F); (0x1039E, 0x1039E); (0x103C4, 0x103C7); (0x103D6, 0x103FF);
   (0x1049E, 0x1049F); (0x104AA, 0x104AF); (0x104D4, 0x104D7); (0x104FC, 0x104FF);
   (0x10528, 0x1052F); (0x10564, 0x1056E); (0x1057B, 0x1057B); (0x1058B, 0x1058B);
   (0x10593, 0x10593); (0x10596, 0x10596); (0x105A2, 0x105A2); (0x105B2, 0x105B2);
   (0x105BA, 0x105BA); (0x105BD, 0x105BF); (0x105F4, 0x105FF); (0x10737, 0x1073F);
   (0x10756, 0x1075F); (0x10768, 0x1077F); (0x10786, 0x10786); (0x107B1, 0x107B1);
   (0x107BB, 0x107FF); (0x10806, 0x10807); (0x10809, 0x10809); (0x10836, 0x10836);
   (0x10839, 0x1083B); (0x1083D, 0x1083E); (0x10856, 0x10856); (0x1089F, 0x108A6);
   (0x108B0, 0x108DF); (0x108F3, 0x108F3); (0x108F6, 0x108FA); (0x1091C, 0x1091E);
   (0x1093A, 0x1093E); (0x10940, 0x1097F); (0x109B8, 0x109BB); (0x109D0, 0x109D1);
   (0x10A04, 0x10A04); (0x10A07, 0x10A0B); (0x10A14, 0x10A14); (0x10A18, 0x10A18);
   (0x10A36, 0x10A37); (0x10A3B, 0x10A3E); (0x10A49, 0x10A4F); (0x10A59, 0x10A5F);
   (0x10AA0, 0x10ABF); (0x10AE7, 0x10AEA); (0x10AF7, 0x10AFF); (0x10B36, 0x10B38);
   (0x10B56, 0x10B57); (0x10B73, 0x10B77); (0x10B92, 0x10B98); (0x10B9D, 0x10BA8);
   (0x10BB0, 0x10BFF); (0x10C49, 0x10C7F); (0x10CB3, 0x10CBF); (0x10CF3, 0x10CF9);
   (0x10D28, 0x10D2F); (0x10D3A, 0x10D3F); (0x10D66, 0x10D68); (0x10D86, 0x10D8D);
   (0x10D90, 0x10E5F); (0x10E7F, 0x10E7F); (0x10EAA, 0x10EAA); (0x10EAE, 0x10EAF);
   (0x10EB2, 0x10EC1); (0x10EC5, 0x10EFB); (0x10F28, 0x10F2F); (0x10F5A, 0x10F6F);
   (0x10F8A, 0x10FAF); (0x10FCC, 0x10FDF); (0x10FF7, 0x10FFF); (0x1104E, 0x11051);
   (0x11076, 0x1107E); (0x110C3, 0x110CC); (0x110CE, 0x110CF); (0x110E9, 0x110EF);
   (0x110FA, 0x110FF); (0x11135, 0x11135); (0x11148, 0x1114F); (0x11177, 0x1117F);
   (0x111E0, 0x111E0); (0x111F5, 0x111FF); (0x11212, 0x11212); (0x11242, 0x1127F);
   (0x11287, 0x11287); (0x11289, 0x11289); (0x1128E, 0x1128E); (0x1129E, 0x1129E);
   (0x112AA, 0x112AF); (0x112EB, 0x112EF); (0x112FA, 0x112FF); (0x11304, 0x11304);
   (0x1130D, 0x1130E); (0x11311, 0x11312); (0x11329, 0x11329); (0x11331, 0x11331);
   (0x11334, 0x11334); (0x1133A, 0x1133A); (0x11345, 0x11346); (0x11349, 0x1134A);
   (0x1134E, 0x1134F); (0x11351, 0x11356); (0x11358, 0x1135C); (0x11364, 0x11365);
   (0x1136D, 0x1136F); (0x11375, 0x1137F); (0x1138A, 0x1138A); (0x1138C, 0x1138D);
   (0x1138F, 0x1138F); (0x113B6, 0x113B6); (0x113C1, 0x113C1); (0x113C3, 0x113C4);
   (0x113C6, 0x113C6); (0x113CB, 0x113CB); (0x113D6, 0x113D6); (0x113D9, 0x113E0);
   (0x113E3, 0x113FF); (0x1145C, 0x1145C); (0x11462, 0x1147F); (0x114C8, 0x114CF);
   (0x114DA, 0x1157F); (0x115B6, 0x115B7); (0x115DE, 0x115FF); (0x11645, 0x1164F);
   (0x1165A, 0x1165F); (0x1166D, 0x1167F); (0x116BA, 0x116BF); (0x116CA, 0x116CF);
   (0x116E4, 0x116FF); (0x1171B, 0x1171C); (0x1172C, 0x1172F); (0x11747, 0x117FF);
   (0x1183C, 0x1189F); (0x118F3, 0x118FE); (0x11907, 0x11908); (0x1190A, 0x1190B);
   (0x11914, 0x11914); (0x11917, 0x11917); (0x11936, 0x11936); (0x11939, 0x1193A);
   (0x11947, 0x1194F); (0x1195A, 0x1199F); (0x119A8, 0x119A9); (0x119D8, 0x119D9);
   (0x119E5, 0x119FF); (0x11A48, 0x11A4F); (0x11AA3, 0x11AAF); (0x11AF9, 0x11AFF);
   (0x11B0A, 0x11BBF); (0x11BE2, 0x11BEF); (0x11BFA, 0x11BFF); (0x11C09, 0x11C09);
   (0x11C37, 0x11C37); (0x11C46, 0x11C4F); (0x11C6D, 0x11C6F); (0x11C90, 0x11C91);
   (0x11CA8, 0x11CA8); (0x11CB7, 0x11CFF); (0x11D07, 0x11D07); (0x11D0A, 0x11D0A);
   (0x11D37, 0x11D39); (0x11D3B, 0x11D3B); (0x11D3E, 0x11D3E); (0x11D48, 0x11D4F);
   (0x11D5A, 0x11D5F); (0x11D66, 0x11D66); (0x11D69, 0x11D69); (0x11D8F, 0x11D8F);
   (0x11D92, 0x11D92); (0x11D99, 0x11D9F); (0x11DAA, 0x11EDF); (0x11EF9, 0x11EFF);
   (0x11F11, 0x11F11); (0x11F3B, 0x11F3D); (0x11F5B, 0x11FAF); (0x11FB1, 0x11FBF);
   (0x11FF2, 0x11FFE); (0x1239A, 0x123FF); (0x1246F, 0x1246F); (0x12475, 0x1247F);
   (0x12544, 0x12F8F); (0x12FF3, 0x12FFF); (0x13456, 0x1345F); (0x143FB, 0x143FF);
   (0x14647, 0x160FF); (0x1613A, 0x167FF); (0x16A39, 0x16A3F); (0x16A5F, 0x16A5F);
   (0x16A6A, 0x16A6D); (0x16ABF, 0x16ABF); (0x16ACA, 0x16ACF); (0x16AEE, 0x16AEF);
   (0x16AF6, 0x16AFF); (0x16B46, 0x16B4F); (0x16B5A, 0x16B5A); (0x16B62, 0x16B62);
   (0x16B78, 0x16B7C); (0x16B90, 0x16D3F); (0x16D7A, 0x16E3F); (0x16E9B, 0x16EFF);
   (0x16F4B, 0x16F4E); (0x16F88, 0x16F8E); (0x16FA0, 0x16FDF); (0x16FE5, 0x16FEF);
   (0x16FF2, 0x16FFF); (0x17001, 0x187F6); (0x187F8, 0x187FF); (0x18CD6, 0x18CFE);
   (0x18D01, 0x18D07); (0x18D09, 0x1AFEF); (0x1AFF4, 0x1AFF4); (0x1AFFC, 0x1AFFC);
   (0x1AFFF, 0x1AFFF); (0x1B123, 0x1B131); (0x1B133, 0x1B14F); (0x1B153, 0x1B154);
   (0x1B156, 0x1B163); (0x1B168, 0x1B16F); (0x1B2FC, 0x1BBFF); (0x1BC6B, 0x1BC6F);
   (0x1BC7D, 0x1BC7F); (0x1BC89, 0x1BC8F); (0x1BC9A, 0x1BC9B); (0x1BCA4, 0x1CBFF);
   (0x1CCFA, 0x1CCFF); (0x1CEB4, 0x1CEFF); (0x1CF2E, 0x1CF2F); (0x1CF47, 0x1CF4F);
   (0x1CFC4, 0x1CFFF); (0x1D0F6, 0x1D0FF); (0x1D127, 0x1D128); (0x1D1EB, 0x1D1FF);
   (0x1D246, 0x1D2BF); (0x1D2D4, 0x1D2DF); (0x1D2F4, 0x1D2FF); (0x1D357, 0x1D35F);
   (0x1D379, 0x1D3FF); (0x1D455, 0x1D455); (0x1D49D, 0x1D49D); (0x1D4A0, 0x1D4A1);
   (0x1D4A3, 0x1D4A4); (0x1D4A7, 0x1D4A8); (0x1D4AD, 0x1D4AD); (0x1D4BA, 0x1D4BA);
   (0x1D4BC, 0x1D4BC); (0x1D4C4, 0x1D4C4); (0x1D506, 0x1D506); (0x1D50B, 0x1D50C);
   (0x1D515, 0x1D515); (0x1D51D, 0x1D51D); (0x1D53A, 0x1D53A); (0x1D53F, 0x1D53F);
   (0x1D545, 0x1D545); (0x1D547, 0x1D549); (0x1D551, 0x1D551); (0x1D6A6, 0x1D6A7);
   (0x1D7CC, 0x1D7CD); (0x1DA8C, 0x1DA9A); (0x1DAA0, 0x1DAA0); (0x1DAB0, 0x1DEFF);
   (0x1DF1F, 0x1DF24); (0x1DF2B, 0x1DFFF); (0x1E007, 0x1E007); (0x1E019, 0x1E01A);
   (0x1E022, 0x1E022); (0x1E025, 0x1E025); (0x1E02B, 0x1E02F); (0x1E06E, 0x1E08E);
   (0x1E090, 0x1E0FF); (0x1E12D, 0x1E12F); (0x1E13E, 0x1E13F); (0x1E14A, 0x1E14D);
   (0x1E150, 0x1E28F); (0x1E2AF, 0x1E2BF); (0x1E2FA, 0x1E2FE); (0x1E300, 0x1E4CF);
   (0x1E4FA, 0x1E5CF); (0x1E5FB, 0x1E5FE); (0x1E600, 0x1E7DF); (0x1E7E7, 0x1E7E7);
   (0x1E7EC, 0x1E7EC); (0x1E7EF, 0x1E7EF); (0x1E7FF, 0x1E7FF); (0x1E8C5, 0x1E8C6);
   (0x1E8D7, 0x1E8FF); (0x1E94C, 0x1E94F); (0x1E95A, 0x1E95D); (0x1E960, 0x1EC70);
   (0x1ECB5, 0x1ED00); (0x1ED3E, 0x1EDFF); (0x1EE04, 0x1EE04); (0x1EE20, 0x1EE20);
   (0x1EE23, 0x1EE23); (0x1EE25, 0x1EE26); (0x1EE28, 0x1EE28); (0x1EE33, 0x1EE33);
   (0x1EE38, 0x1EE38); (0x1EE3A, 0x1EE3A); (0x1EE3C, 0x1EE41); (0x1EE43, 0x1EE46);
   (0x1EE48, 0x1EE48); (0x1EE4A, 0x1EE4A); (0x1EE4C, 0x1EE4C); (0x1EE50, 0x1EE50);
   (0x1EE53, 0x1EE53); (0x1EE55, 0x1EE56); (0x1EE58, 0x1EE58); (0x1EE5A, 0x1EE5A);
   (0x1EE5C, 0x1EE5C); (0x1EE5E, 0x1EE5E); (0x1EE60, 0x1EE60); (0x1EE63, 0x1EE63);
   (0x1EE65, 0x1EE66); (0x1EE6B, 0x1EE6B); (0x1EE73, 0x1EE73); (0x1EE78, 0x1EE78);
   (0x1EE7D, 0x1EE7D); (0x1EE7F, 0x1EE7F); (0x1EE8A, 0x1EE8A); (0x1EE9C, 0x1EEA0);
   (0x1EEA4, 0x1EEA4); (0x1EEAA, 0x1EEAA); (0x1EEBC, 0x1EEEF); (0x1EEF2, 0x1EFFF);
   (0x1F02C, 0x1F02F); (0x1F094, 0x1F09F); (0x1F0AF, 0x1F0B0); (0x1F0C0, 0x1F0C0);
   (0x1F0D0, 0x1F0D0); (0x1F0F6, 0x1F0FF); (0x1F1AE, 0x1F1E5); (0x1F203, 0x1F20F);
   (0x1F23C, 0x1F23F); (0x1F249, 0x1F24F); (0x1F252, 0x1F25F); (0x1F266, 0x1F2FF);
   (0x1F6D8, 0x1F6DB); (0x1F6ED, 0x1F6EF); (0x1F6FD, 0x1F6FF); (0x1F777, 0x1F77A);
   (0x1F7DA, 0x1F7DF); (0x1F7EC, 0x1F7EF); (0x1F7F1, 0x1F7FF); (0x1F80C, 0x1F80F);
   (0x1F848, 0x1F84F); (0x1F85A, 0x1F85F); (0x1F888, 0x1F88F); (0x1F8AE, 0x1F8AF);
   (0x1F8BC, 0x1F8BF); (0x1F8C2, 0x1F8FF); (0x1FA54, 0x1FA5F); (0x1FA6E, 0x1FA6F);
   (0x1FA7D, 0x1FA7F); (0x1FA8A, 0x1FA8E); (0x1FAC7, 0x1FACD); (0x1FADD, 0x1FADE);
   (0x1FAEA, 0x1FAEF); (0x1FAF9, 0x1FAFF); (0x1FB93, 0x1FB93); (0x1FBFA, 0x1FFFD);
   (0x20001, 0x2A6DE); (0x2A6E0, 0x2A6FF); (0x2A701, 0x2B738); (0x2B73A, 0x2B73F);
   (0x2B741, 0x2B81C); (0x2B81E, 0x2B81F); (0x2B821, 0x2CEA0); (0x2CEA2, 0x2CEAF);
   (0x2CEB1, 0x2EBDF); (0x2EBE1, 0x2EBEF); (0x2EBF1, 0x2EE5C); (0x2EE5E, 0x2F7FF);
   (0x2FA1E, 0x2FFFD); (0x30001, 0x31349); (0x3134B, 0x3134F); (0x31351, 0x323AE);
   (0x323B0, 0x3FFFD); (0x40000, 0x4FFFD); (0x50000, 0x5FFFD); (0x60000, 0x6FFFD);
   (0x70000, 0x7FFFD); (0x80000, 0x8FFFD); (0x90000, 0x9FFFD); (0xA0000, 0xAFFFD);
   (0xB0000, 0xBFFFD); (0xC0000, 0xCFFFD); (0xD0000, 0xDFFFD); (0xE0000, 0xE0000);
   (0xE0002, 0xE001F); (0xE0080, 0xE00FF); (0xE01F0, 0xEFFFD)].

Definition NONCHAR_TABLE : list R :=
  [(0xFDD0, 0xFDEF); (0xFFFE, 0xFFFF); (0x1FFFE, 0x1FFFF); (0x2FFFE, 0x2FFFF);
   (0x3FFFE, 0x3FFFF); (0x4FFFE, 0x4FFFF); (0x5FFFE, 0x5FFFF); (0x6FFFE, 0x6FFFF);
   (0x7FFFE, 0x7FFFF); (0x8FFFE, 0x8FFFF); (0x9FFFE, 0x9FFFF); (0xAFFFE, 0xAFFFF);
   (0xBFFFE, 0xBFFFF); (0xCFFFE, 0xCFFFF); (0xDFFFE, 0xDFFFF); (0xEFFFE, 0xEFFFF);
   (0xFFFFE, 0xFFFFF); (0x10FFFE, 0x10FFFF)].

Definition WIDENED_TABLE : list R :=
  [(0x231A, 0x231B); (0x23E9, 0x23EC); (0x23F0, 0x23F0); (0x23F3, 0x23F3); (0x25FD, 0x25FE);
   (0x2614, 0x2615); (0x2648, 0x2653); (0x267F, 0x267F); (0x2693, 0x2693); (0x26A1, 0x26A1);
   (0x26AA, 0x26AB); (0x26BD, 0x26BE); (0x26C4, 0x26C5); (0x26CE, 0x26CE); (0x26D4, 0x26D4);
   (0x26EA, 0x26EA); (0x26F2, 0x26F3); (0x26F5, 0x26F5); (0x26FA, 0x26FA); (0x26FD, 0x26FD);
   (0x2705, 0x2705); (0x270A, 0x270B); (0x2728, 0x2728); (0x274C, 0x274C); (0x274E, 0x274E);
   (0x2753, 0x2755); (0x2757, 0x2757); (0x2795, 0x2797); (0x27B0, 0x27B0); (0x27BF, 0x27BF);
   (0x2B1B, 0x2B1C); (0x2B50, 0x2B50); (0x2B55, 0x2B55); (0x1F004, 0x1F004); (0x1F0CF, 0x1F0CF);
   (0x1F18E, 0x1F18E); (0x1F191, 0x1F19A); (0x1F201, 0x1F201); (0x1F21A, 0x1F21A);
   (0x1F22F, 0x1F22F); (0x1F232, 0x1F236); (0x1F238, 0x1F23A); (0x1F250, 0x1F251);
   (0x1F300, 0x1F320); (0x1F32D, 0x1F335); (0x1F337, 0x1F37C); (0x1F37E, 0x1F393);
   (0x1F3A0, 0x1F3CA); (0x1F3CF, 0x1F3D3); (0x1F3E0, 0x1F3F0); (0x1F3F4, 0x1F3F4);
   (0x1F3F8, 0x1F43E); (0x1F440, 0x1F440); (0x1F442, 0x1F4FC); (0x1F4FF, 0x1F53D);
   (0x1F54B, 0x1F54E); (0x1F550, 0x1F567); (0x1F595, 0x1F596); (0x1F5FB, 0x1F64F);
   (0x1F680, 0x1F6C5); (0x1F6CC, 0x1F6CC); (0x1F6D0, 0x1F6D0); (0x1F6EB, 0x1F6EC);
   (0x1F910, 0x1F918); (0x1F980, 0x1F984); (0x1F9C0, 0x1F9C0)].

(** ** Classification *)

(** The comparison of [in_table]: of the range [r] with [c]. *)
Definition range_cmp (c : Z) (r : R) : comparison :=
  if (r.1 <=? c) && (c <=? r.2) then Eq else Z.compare r.1 c.

Definition in_table (arr : list R) (c : Z) : bool :=
  match binary_search_by (fun i => from_option (range_cmp c) Eq (arr !! i)) (length arr) with
  | Ok _ => true
  | Err _ => false
  end.

(** [WcWidth::from_char]. *)
Definition from_char (c : Z) : WcWidth :=
  if in_table ASCII_TABLE c then WcWidth_One
  else if in_table PRIVATE_TABLE c then PrivateUse
  else if in_table NONPRINT_TABLE c then NonPrint
  else if in_table NONCHAR_TABLE c then NonCharacter
  else if in_table COMBINING_TABLE c then Combining
  else if in_table COMBININGLETTERS_TABLE c then Combining
  else if in_table DOUBLEWIDE_TABLE c then WcWidth_Two
  else if in_table AMBIGUOUS_TABLE c then Ambiguous
  else if in_table UNASSIGNED_TABLE c then Unassigned
  else if in_table WIDENED_TABLE c then WidenedIn9
  else WcWidth_One.

Definition width_unicode_8_or_earlier (w : WcWidth) : Z :=
  match w with
  | WcWidth_One => 1
  | WcWidth_Two => 2
  | NonPrint | Combining | Unassigned | NonCharacter => 0
  | Ambiguous | PrivateUse => 1
  | WidenedIn9 => 1
  end.

Definition width_unicode_9_or_later (w : WcWidth) : Z :=
  if bool_decide (w = WidenedIn9) then 2 else width_unicode_8_or_earlier w.

(** [WcLookupTable]: an array of 65536 entries, all [One] at first; a finite map
    holds those that were written. *)
Record WcLookupTable : Set := mkWcLookupTable { table : gmap Z WcWidth }.

Definition wc_get (t : WcLookupTable) (c : Z) : WcWidth := default WcWidth_One (table t !! c).

(** [for i in start..=end.min(0xffff) { table[i as usize] = w; }] *)
Definition write_range (w : WcWidth) (t : WcLookupTable) (r : R) : WcLookupTable :=
  fold_left (fun t i => mkWcLookupTable (<[i := w]> (table t)))
    (zrange r.1 (Z.min r.2 0xFFFF)) t.

Definition write_table (w : WcWidth) (arr : list R) (t : WcLookupTable) : WcLookupTable :=
  fold_left (write_range w) arr t.

(** [WcLookupTable::new]. *)
Definition WcLookupTable_new (_ : unit) : WcLookupTable :=
  let t := mkWcLookupTable ∅ in
  let t := write_table WidenedIn9 WIDENED_TABLE t in
  let t := write_table Unassigned UNASSIGNED_TABLE t in
  let t := write_table Ambiguous AMBIGUOUS_TABLE t in
  let t := write_table WcWidth_Two DOUBLEWIDE_TABLE t in
  let t := write_table Combining COMBININGLETTERS_TABLE t in
  let t := write_table Combining COMBINING_TABLE t in
  let t := write_table NonCharacter NONCHAR_TABLE t in
  let t := write_table NonPrint NONPRINT_TABLE t in
  write_table PrivateUse PRIVATE_TABLE t.

Definition classify (t : WcLookupTable) (c : Z) : WcWidth :=
  if c <=? 0xFFFF then wc_get t c else from_char c.

(** The constant of [emoji_variation.rs], a literal of 65536 entries that [codegen] writes from
    [WcLookupTable::new()]; here it is built where it is used. *)
Definition WCWIDTH_TABLE : unit -> WcLookupTable := WcLookupTable_new.

(** ** Presentation *)

Inductive Presentation : Set := Presentation_Text | Presentation_Emoji.

#[export] Instance Presentation_eq_dec : EqDecision Presentation.
Proof. solve_decision. Defined.

Class CharTables := {
  (** [VARIATION_MAP.get]. *)
  variation_map : list Z -> option (Presentation * Presentation);
  (** [EMOJI_PRESENTATION.contains_u32]. *)
  emoji_presentation : Z -> bool
}.

(** The extended grapheme clusters of a string. *)
Class Graphemes := graphemes : list Z -> list (list Z).

(** [str::chars] of valid UTF-8. *)
Fixpoint chars (s : list Z) : list Z :=
  match s with
  | [] => []
  | x :: r =>
      if x <? 0x80 then x :: chars r
      else match r with
           | [] => []
           | y :: r =>
               let yb := Z.land y 0x3F in
               if x <? 0xE0 then Z.lor (Z.shiftl (Z.land x 0x1F) 6) yb :: chars r
               else match r with
                    | [] => []
                    | z :: r =>
                        let yz := Z.lor (Z.shiftl yb 6) (Z.land z 0x3F) in
                        if x <? 0xF0 then Z.lor (Z.shiftl (Z.land x 0x1F) 12) yz :: chars r
                        else match r with
                             | [] => []
                             | w :: r =>
                                 Z.lor (Z.shiftl (Z.land x 0x07) 18)
                                   (Z.lor (Z.shiftl yz 6) (Z.land w 0x3F)) :: chars r
                             end
                    end
           end
  end.

(** [UnicodeVersion]. *)
Record UnicodeVersion : Set := mkUnicodeVersion {
  version : Z;
  ambiguous_are_wide : bool;
  cell_widths : option (gmap Z Z)
}.

Definition UnicodeVersion_new (v : Z) : UnicodeVersion := mkUnicodeVersion v false None.

Section Widths.
Context `{CharTables}.

Definition for_char (c : Z) : Presentation :=
  if emoji_presentation c then Presentation_Emoji else Presentation_Text.

Definition for_grapheme (s : list Z) : Presentation * option Presentation :=
  match variation_map s with
  | Some (a, b) => (a, Some b)
  | None =>
      (if existsb (fun c => bool_decide (for_char c = Presentation_Emoji)) (chars s)
       then Presentation_Emoji else Presentation_Text, None)
  end.

Definition version_width (v : UnicodeVersion) (c : WcWidth) : Z :=
  if bool_decide (c = Unassigned) then 1
  else if bool_decide (c = Ambiguous) && ambiguous_are_wide v then 2
  else if 9 <=? version v then width_unicode_9_or_later c
  else width_unicode_8_or_earlier c.

Definition wcwidth (v : UnicodeVersion) (c : Z) : Z :=
  match (ws ← cell_widths v; ws !! c) with
  | Some width => width
  | None => version_width v (classify (WCWIDTH_TABLE tt) c)
  end.

Definition version_idx (v : UnicodeVersion) : Z :=
  Z.lor (if 9 <? version v then 2 else 0) (if ambiguous_are_wide v then 1 else 0).

Definition LATEST_UNICODE_VERSION : UnicodeVersion := mkUnicodeVersion 14 false None.

(** The width that the presentation of a grapheme forces. *)
Definition forced_width (s : list Z) (v : UnicodeVersion) : option Z :=
  if 14 <=? version v then
    match for_grapheme s with
    | (_, Some Presentation_Emoji) => Some 2
    | (_, Some Presentation_Text) => Some 1
    | (Presentation_Emoji, None) => Some 2
    | (Presentation_Text, None) => None
    end
  else None.

Definition grapheme_column_width (s : list Z) (v : option UnicodeVersion) : Z :=
  let v := default LATEST_UNICODE_VERSION v in
  match s with
  | [b] => wcwidth v b
  | _ =>
      match forced_width s v with
      | Some w => w
      | None => Z.min (fold_left (fun w c => w + wcwidth v c) (chars s) 0) 2
      end
  end.

Definition unicode_column_width `{Graphemes} (s : list Z) (v : option UnicodeVersion) : Z :=
  fold_left (fun w g => w + grapheme_column_width g v) (graphemes s) 0.
End Widths.

(** The characters of the trie [WHITE_SPACE] of [white_space.rs], decoded. *)
Definition WHITE_SPACE : list R :=
  [(0x9, 0xD); (0x20, 0x20); (0x85, 0x85); (0xA0, 0xA0); (0x1680, 0x1680); (0x2000, 0x200A);
   (0x2028, 0x2029); (0x202F, 0x202F); (0x205F, 0x205F); (0x3000, 0x3000)].

Definition is_white_space_char (c : Z) : bool :=
  existsb (fun r => (r.1 <=? c) && (c <=? r.2)) WHITE_SPACE.

Definition is_white_space_grapheme (g : list Z) : bool := forallb is_white_space_char (chars g).

(** ** The lookup table answers as the search does *)

Definition in_range (c : Z) (r : R) : bool := (r.1 <=? c) && (c <=? r.2).

(** The ranges ascend, without overlap. *)
Fixpoint ascending (lo : Z) (arr : list R) : bool :=
  match arr with
  | [] => true
  | r :: arr => (lo <? r.1) && (r.1 <=? r.2) && ascending r.2 arr
  end.

Lemma ascending_lookup lo arr i r :
  ascending lo arr = true -> arr !! i = Some r -> lo < r.1 <= r.2.
Proof.
  revert lo i. induction arr as [|r0 arr IH]; intros lo i Ha Hi; [done|].
  cbn in Ha. bool_to_prop. destruct i as [|i]; [by simplify_eq/=|].
  cbn in Hi. specialize (IH r0.2 i). intuition lia.
Qed.

Lemma ascending_lt lo arr i j r s :
  ascending lo arr = true -> (i < j)%nat -> arr !! i = Some r -> arr !! j = Some s -> r.2 < s.1.
Proof.
  revert lo i j. induction arr as [|r0 arr IH]; intros lo i j Ha Hij Hi Hj; [done|].
  cbn in Ha. bool_to_prop. destruct j as [|j]; [lia|]. cbn in Hj.
  destruct i as [|i]; simplify_eq/=; [by eapply ascending_lookup|].
  by eapply (IH r0.2 i j); [|lia|..].
Qed.

(** The first range that does not end before [c]. *)
Definition first_reaching (c : Z) (arr : list R) : nat :=
  match list_find (fun r : R => c <= r.2) arr with Some (i, _) => i | None => length arr end.

Section Table.
Context (lo c : Z) (arr : list R) (Ha : ascending lo arr = true).

Abbreviation n := (first_reaching c arr).

Lemma first_reaching_spec i r :
  arr !! i = Some r -> ((i < n)%nat /\ r.2 < c) \/ ((n <= i)%nat /\ c <= r.2).
Proof.
  intros Hi. unfold first_reaching.
  destruct (list_find _ arr) as [[k x]|] eqn:E.
  - apply list_find_Some in E as (Ex & Hx & E). cbn in Hx.
    destruct (decide (i < k)%nat) as [Hik|Hik].
    + left. split; [done|]. specialize (E i r Hi Hik). cbn in E. lia.
    + right. split; [lia|]. destruct (decide (k = i)) as [->|]; [by simplify_eq|].
      pose proof (ascending_lt _ _ k i _ _ Ha ltac:(lia) Ex Hi).
      pose proof (ascending_lookup _ _ _ _ Ha Hi). lia.
  - apply list_find_None in E. rewrite Forall_lookup in E. specialize (E i r Hi). cbn in E.
    left. apply lookup_lt_Some in Hi. lia.
Qed.

Lemma first_reaching_le : (n <= length arr)%nat.
Proof.
  unfold first_reaching. destruct (list_find _ arr) as [[k x]|] eqn:E; [|lia].
  apply list_find_Some in E as (Ex & _). apply lookup_lt_Some in Ex. lia.
Qed.

(** What the search compares: [Lt] before the first range that reaches [c], [Gt] after
    it, and [Eq] there if [c] is in it. *)
Lemma range_cmp_spec i r :
  arr !! i = Some r ->
  range_cmp c r = if (i <? n)%nat then Lt
                  else if in_range c r then Eq else Gt.
Proof.
  intros Hi. unfold range_cmp, in_range. pose proof (ascending_lookup _ _ _ _ Ha Hi).
  destruct (first_reaching_spec i r Hi) as [[Hin Hr]|[Hin Hr]].
  - rewrite (proj2 (Nat.ltb_lt _ _) Hin), (proj2 (Z.leb_gt c _)), andb_false_r by lia.
    by apply Z.compare_lt_iff; lia.
  - rewrite (proj2 (Nat.ltb_ge _ _) Hin), (proj2 (Z.leb_le c _) Hr), andb_true_r.
    destruct (Z.leb_spec r.1 c); [done|]. apply Z.compare_gt_iff. lia.
Qed.

Lemma in_range_first i r : arr !! i = Some r -> in_range c r = true -> i = n.
Proof.
  intros Hi Hc. unfold in_range in Hc. bool_to_prop.
  destruct (first_reaching_spec i r Hi) as [|[Hin _]]; [lia|].
  destruct (decide (i = n)) as [|Hne]; [done|]. apply lookup_lt_Some in Hi as Hlen.
  assert (n < length arr)%nat as [s Hs]%lookup_lt_is_Some by lia.
  pose proof (ascending_lt _ _ n i _ _ Ha ltac:(lia) Hs Hi).
  destruct (first_reaching_spec n s Hs); lia.
Qed.

Lemma in_table_spec : in_table arr c = existsb (in_range c) arr.
Proof.
  unfold in_table. set (cmp := fun i => _).
  assert (Hcmp : forall i r, arr !! i = Some r -> cmp i = range_cmp c r)
    by (intros i r Hi; unfold cmp; by rewrite Hi).
  destruct (existsb (in_range c) arr) eqn:Ex.
  - apply existsb_exists in Ex as (r & [i Hi]%list_elem_of_In%list_elem_of_lookup & Hr).
    pose proof (in_range_first i r Hi Hr) as ->. pose proof (lookup_lt_Some _ _ _ Hi).
    pose proof (binary_search_spec cmp (length arr) n (S n)) as B.
    destruct (binary_search_by cmp (length arr)) as [k|k]; [done|]. exfalso.
    enough (n = S n) by lia. apply B; try lia.
    + intros j Hj. assert (j < length arr)%nat as [s Hs]%lookup_lt_is_Some by lia.
      rewrite (Hcmp j s Hs), (range_cmp_spec j s Hs). by rewrite (proj2 (Nat.ltb_lt _ _) Hj).
    + intros j Hj. replace j with n by lia.
      by rewrite (Hcmp _ _ Hi), (range_cmp_spec _ _ Hi), Nat.ltb_irrefl, Hr.
    + intros j Hj. assert (j < length arr)%nat as [s Hs]%lookup_lt_is_Some by lia.
      rewrite (Hcmp j s Hs), (range_cmp_spec j s Hs), (proj2 (Nat.ltb_ge _ _)) by lia.
      destruct (in_range c s) eqn:Es; [|done]. pose proof (in_range_first j s Hs Es). lia.
  - pose proof first_reaching_le as Hle.
    pose proof (binary_search_spec cmp (length arr) n n) as B.
    destruct (binary_search_by cmp (length arr)) as [k|k]; [|done]. exfalso.
    enough (n <= k < n)%nat by lia. apply B; try lia.
    + intros j Hj. assert (j < length arr)%nat as [s Hs]%lookup_lt_is_Some by lia.
      rewrite (Hcmp j s Hs), (range_cmp_spec j s Hs). by rewrite (proj2 (Nat.ltb_lt _ _) Hj).
    + intros j Hj. assert (j < length arr)%nat as [s Hs]%lookup_lt_is_Some by lia.
      rewrite (Hcmp j s Hs), (range_cmp_spec j s Hs), (proj2 (Nat.ltb_ge _ _)) by lia.
      destruct (in_range c s) eqn:Es; [|done].
      assert (existsb (in_range c) arr = true); [|congruence].
      apply existsb_exists. exists s. split; [by eapply list_elem_of_In, list_elem_of_lookup_2|done].
Qed.
End Table.

Lemma elem_of_zrange lo hi c : c ∈ zrange lo hi <-> lo <= c <= hi.
Proof.
  unfold zrange. rewrite list_elem_of_In, in_map_iff. split.
  - intros (n & <- & Hn%in_seq). lia.
  - intros Hc. exists (Z.to_nat (c - lo)). rewrite in_seq. lia.
Qed.

Lemma write_range_spec w t r c :
  c <= 0xFFFF -> wc_get (write_range w t r) c = if in_range c r then w else wc_get t c.
Proof.
  intros Hc. unfold write_range.
  assert (Hfold : forall l t, wc_get (fold_left
      (fun t i => mkWcLookupTable (<[i := w]> (table t))) l t) c
      = if bool_decide (c ∈ l) then w else wc_get t c).
  { induction l as [|i l IH]; intros t0; [done|]. cbn [fold_left]. rewrite IH.
    destruct (decide (c ∈ l)) as [Hl|Hl].
    - rewrite !bool_decide_true by set_solver. done.
    - rewrite bool_decide_false by done. unfold wc_get at 1. cbn [table].
      destruct (decide (i = c)) as [->|Hi].
      + rewrite bool_decide_true by set_solver. by rewrite lookup_insert_eq.
      + rewrite bool_decide_false by set_solver. by rewrite lookup_insert_ne. }
  rewrite Hfold. unfold in_range.
  destruct (bool_decide (c ∈ zrange r.1 (Z.min r.2 0xFFFF))) eqn:E.
  - apply bool_decide_eq_true, elem_of_zrange in E.
    by rewrite !(proj2 (Z.leb_le _ _)) by lia.
  - apply bool_decide_eq_false in E. rewrite elem_of_zrange in E.
    destruct (Z.leb_spec r.1 c), (Z.leb_spec c r.2); try done. lia.
Qed.

Lemma write_table_spec w arr t c :
  c <= 0xFFFF -> wc_get (write_table w arr t) c = if existsb (in_range c) arr then w else wc_get t c.
Proof.
  intros Hc. unfold write_table. revert t.
  induction arr as [|r arr IH]; intros t; [done|]. cbn [fold_left existsb].
  rewrite IH, write_range_spec by done. by destruct (in_range c r), (existsb _ arr).
Qed.

Definition all_tables : list (list R) :=
  [ASCII_TABLE; PRIVATE_TABLE; NONPRINT_TABLE; NONCHAR_TABLE; COMBINING_TABLE;
   COMBININGLETTERS_TABLE; DOUBLEWIDE_TABLE; AMBIGUOUS_TABLE; UNASSIGNED_TABLE; WIDENED_TABLE].

Lemma tables_ascending : forallb (ascending (-1)) all_tables = true.
Proof. vm_compute. reflexivity. Qed.

Lemma in_table_existsb arr c : arr ∈ all_tables -> in_table arr c = existsb (in_range c) arr.
Proof.
  intros Ha%list_elem_of_In. apply (in_table_spec (-1)).
  by apply (proj1 (forallb_forall _ _) tables_ascending).
Qed.

(** The tables that are written do not touch ASCII, which the table leaves out. *)
Lemma ascii_untouched :
  forallb (forallb (fun r : R => (r.2 <? 0x20) || (0x7E <? r.1))) (tail all_tables) = true.
Proof. vm_compute. reflexivity. Qed.

Lemma ascii_not_in arr c :
  arr ∈ tail all_tables -> 0x20 <= c <= 0x7E -> existsb (in_range c) arr = false.
Proof.
  intros Ha%list_elem_of_In Hc. apply not_true_is_false. rewrite existsb_exists.
  intros (r & Hr & Hin). unfold in_range in Hin.
  pose proof (proj1 (forallb_forall _ _) ascii_untouched _ Ha) as H.
  pose proof (proj1 (forallb_forall _ _) H _ Hr) as H'. cbn in H'.
  apply orb_prop in H'. destruct H'; bool_to_prop; lia.
Qed.

(** A visible ASCII character or a space has one column, if no width is configured for it. *)
Lemma ascii_width v c : cell_widths v = None -> 0x20 <= c <= 0x7E -> wcwidth v c = 1.
Proof.
  intros Hv Hc. unfold wcwidth. rewrite Hv. cbn [mbind option_bind]. unfold classify.
  rewrite (proj2 (Z.leb_le _ _)) by lia. unfold WCWIDTH_TABLE, WcLookupTable_new. cbv zeta.
  rewrite !write_table_spec, !ascii_not_in by (lia || (unfold all_tables; cbn [tail]; set_solver)).
  unfold version_width, wc_get. cbn [table]. rewrite lookup_empty. by destruct (9 <=? version v).
Qed.

(** C36: the lookup table is an optimisation only: whatever the character, it classifies
    it as the search through the ten tables of ranges does, precedence and the
    omitted ASCII table included. *)
Theorem classify_is_from_char c : classify (WCWIDTH_TABLE tt) c = from_char c.
Proof.
  unfold classify. destruct (Z.leb_spec c 0xFFFF) as [Hc|]; [|done].
  unfold WCWIDTH_TABLE, WcLookupTable_new. cbv zeta. rewrite !write_table_spec by done.
  unfold from_char. rewrite !in_table_existsb by (unfold all_tables; set_solver).
  destruct (existsb (in_range c) ASCII_TABLE) eqn:E; [|by repeat case_match].
  unfold ASCII_TABLE, in_range in E. cbn in E. rewrite orb_false_r in E. bool_to_prop.
  by rewrite !ascii_not_in by (done || (unfold all_tables; cbn [tail]; set_solver)).
Qed.
