(* ===== verification/Cell.v ===== *)
(** A cell of the screen: [src/wakterm-cell/src/lib.rs], with [ColorAttribute] of [color.rs],
    [ImageCell] of [image.rs] and [Hyperlink] of the escape parser's [hyperlink.rs]. The style of a
    cell is a 32-bit word of bit fields, two small colours and a heap record for what is rare;
    its text is a word of eight bytes that holds short strings itself. A [&str] is the list of
    its bytes. *)

From Stdlib Require Import ZArith Lia SpecFloat String.
From S2P Require Import Prelude Color CsiTypes CharWidth.
From stdpp Require Import base numbers list option gmap.
Local Open Scope Z_scope.

(** ** Colours *)

(** Comparison of [f32]: NaN differs from itself, and the zeros are equal. *)
Definition f32_eqb : f32 -> f32 -> bool := SFeqb.

Definition srgba_eqb (a b : SrgbaTuple) : bool :=
  f32_eqb (srgba_r a) (srgba_r b) && f32_eqb (srgba_g a) (srgba_g b) &&
  f32_eqb (srgba_b a) (srgba_b b) && f32_eqb (srgba_a a) (srgba_a b).

(** [ColorAttribute] of [color.rs]. *)
Inductive ColorAttribute : Set :=
| TrueColorWithPaletteFallback (color : SrgbaTuple) (idx : Z)
| TrueColorWithDefaultFallback (color : SrgbaTuple)
| ColorAttribute_PaletteIndex (idx : Z)
| ColorAttribute_Default.

(** The derived [PartialEq]. *)
Definition color_eqb (a b : ColorAttribute) : bool :=
  match a, b with
  | TrueColorWithPaletteFallback c i, TrueColorWithPaletteFallback d j => srgba_eqb c d && (i =? j)
  | TrueColorWithDefaultFallback c, TrueColorWithDefaultFallback d => srgba_eqb c d
  | ColorAttribute_PaletteIndex i, ColorAttribute_PaletteIndex j => i =? j
  | ColorAttribute_Default, ColorAttribute_Default => true
  | _, _ => false
  end.

Inductive SmallColor : Set := SmallColor_Default | SmallColor_PaletteIndex (idx : Z).

#[export] Instance SmallColor_eq_dec : EqDecision SmallColor.
Proof. solve_decision. Defined.

Definition SmallColor_into (c : SmallColor) : ColorAttribute :=
  match c with
  | SmallColor_Default => ColorAttribute_Default
  | SmallColor_PaletteIndex idx => ColorAttribute_PaletteIndex idx
  end.

(** ** Hyperlinks and images *)

(** [Hyperlink] of [hyperlink.rs]; [Arc] compares what it points to. *)
Record Hyperlink : Set := mkHyperlink {
  params : gmap (list Z) (list Z);
  uri : list Z;
  implicit : bool
}.

#[export] Instance Hyperlink_eq_dec : EqDecision Hyperlink.
Proof. solve_decision. Defined.

Definition is_implicit (h : Hyperlink) : bool := implicit h.
Definition Hyperlink_new (u : list Z) : Hyperlink := mkHyperlink ∅ u false.
Definition Hyperlink_new_implicit (u : list Z) : Hyperlink := mkHyperlink ∅ u true.
Definition Hyperlink_new_with_id (u id : list Z) : Hyperlink :=
  mkHyperlink (<[bs "id" := id]> ∅) u false.
Definition Hyperlink_new_with_params (u : list Z) (ps : gmap (list Z) (list Z)) : Hyperlink :=
  mkHyperlink ps u false.

(** [TextureCoordinate]: [NotNan<f32>] compares as [f32]. *)
Record TextureCoordinate : Set := mkTexture { tex_x : f32; tex_y : f32 }.

Definition texture_eqb (a b : TextureCoordinate) : bool :=
  f32_eqb (tex_x a) (tex_x b) && f32_eqb (tex_y a) (tex_y b).

(** [ImageData] by its hash, which is all that its [PartialEq] looks at and all
    that a cell does with it. *)
Record ImageData : Set := mkImageData { image_hash : list Z }.

Definition image_data_eqb (a b : ImageData) : bool := bool_decide (image_hash a = image_hash b).

Record ImageCell : Set := mkImageCell {
  top_left : TextureCoordinate;
  bottom_right : TextureCoordinate;
  data : ImageData;
  z_index : Z;
  padding : Z * Z * Z * Z;
  image_id : option Z;
  placement_id : option Z
}.

Definition ImageCell_eqb (a b : ImageCell) : bool :=
  texture_eqb (top_left a) (top_left b) && texture_eqb (bottom_right a) (bottom_right b) &&
  image_data_eqb (data a) (data b) && (z_index a =? z_index b) &&
  bool_decide (padding a = padding b) && bool_decide (image_id a = image_id b) &&
  bool_decide (placement_id a = placement_id b).

Definition ImageCell_new (tl br : TextureCoordinate) (d : ImageData) : ImageCell :=
  mkImageCell tl br d 0 (0, 0, 0, 0) None None.

Definition matches_placement (im : ImageCell) (id : Z) (p : option Z) : bool :=
  bool_decide (image_id im = Some id) && bool_decide (placement_id im = p).

Definition has_placement_id (im : ImageCell) : bool := bool_decide (is_Some (placement_id im)).

(** ** Attributes *)

Record FatAttributes : Set := mkFat {
  fat_hyperlink : option Hyperlink;
  fat_image : list ImageCell;
  fat_underline_color : ColorAttribute;
  fat_foreground : ColorAttribute;
  fat_background : ColorAttribute
}.

Record CellAttributes : Set := mkCellAttributes {
  attributes : Z;
  small_foreground : SmallColor;
  small_background : SmallColor;
  fat : option FatAttributes
}.

Fixpoint list_eqb {A} (eqb : A -> A -> bool) (l k : list A) : bool :=
  match l, k with
  | [], [] => true
  | x :: l, y :: k => eqb x y && list_eqb eqb l k
  | _, _ => false
  end.

Definition option_eqb {A} (eqb : A -> A -> bool) (a b : option A) : bool :=
  match a, b with
  | Some x, Some y => eqb x y
  | None, None => true
  | _, _ => false
  end.

Definition fat_eqb (a b : FatAttributes) : bool :=
  bool_decide (fat_hyperlink a = fat_hyperlink b) &&
  list_eqb ImageCell_eqb (fat_image a) (fat_image b) &&
  color_eqb (fat_underline_color a) (fat_underline_color b) &&
  color_eqb (fat_foreground a) (fat_foreground b) &&
  color_eqb (fat_background a) (fat_background b).

(** The derived [PartialEq] of [CellAttributes]. *)
Definition attrs_eqb (a b : CellAttributes) : bool :=
  (attributes a =? attributes b) && bool_decide (small_foreground a = small_foreground b) &&
  bool_decide (small_background a = small_background b) && option_eqb fat_eqb (fat a) (fat b).

Definition set_attributes (w : Z) (a : CellAttributes) : CellAttributes :=
  mkCellAttributes w (small_foreground a) (small_background a) (fat a).
Definition put_foreground (c : SmallColor) (a : CellAttributes) : CellAttributes :=
  mkCellAttributes (attributes a) c (small_background a) (fat a).
Definition put_background (c : SmallColor) (a : CellAttributes) : CellAttributes :=
  mkCellAttributes (attributes a) (small_foreground a) c (fat a).
Definition put_fat (f : option FatAttributes) (a : CellAttributes) : CellAttributes :=
  mkCellAttributes (attributes a) (small_foreground a) (small_background a) f.

Definition set_fat_hyperlink (h : option Hyperlink) (f : FatAttributes) : FatAttributes :=
  mkFat h (fat_image f) (fat_underline_color f) (fat_foreground f) (fat_background f).
Definition set_fat_image (l : list ImageCell) (f : FatAttributes) : FatAttributes :=
  mkFat (fat_hyperlink f) l (fat_underline_color f) (fat_foreground f) (fat_background f).
Definition set_fat_underline_color (c : ColorAttribute) (f : FatAttributes) : FatAttributes :=
  mkFat (fat_hyperlink f) (fat_image f) c (fat_foreground f) (fat_background f).
Definition set_fat_foreground (c : ColorAttribute) (f : FatAttributes) : FatAttributes :=
  mkFat (fat_hyperlink f) (fat_image f) (fat_underline_color f) c (fat_background f).
Definition set_fat_background (c : ColorAttribute) (f : FatAttributes) : FatAttributes :=
  mkFat (fat_hyperlink f) (fat_image f) (fat_underline_color f) (fat_foreground f) c.

(** ** Bit fields *)

(** The enums that are [repr(u8)]. *)
Inductive SemanticType : Set := SemanticType_Output | SemanticType_Input | SemanticType_Prompt.

#[export] Instance Blink_enum : CEnum Blink :=
  {| disc b := match b with Blink_None => 0 | Blink_Slow => 1 | Blink_Rapid => 2 end;
     variants := [Blink_None; Blink_Slow; Blink_Rapid] |}.
#[export] Instance Intensity_enum : CEnum Intensity :=
  {| disc i := match i with Intensity_Normal => 0 | Intensity_Bold => 1 | Intensity_Half => 2 end;
     variants := [Intensity_Normal; Intensity_Bold; Intensity_Half] |}.
#[export] Instance Underline_enum : CEnum Underline :=
  {| disc u := match u with
       | Underline_None => 0 | Underline_Single => 1 | Underline_Double => 2
       | Underline_Curly => 3 | Underline_Dotted => 4 | Underline_Dashed => 5 end;
     variants := [Underline_None; Underline_Single; Underline_Double; Underline_Curly;
                  Underline_Dotted; Underline_Dashed] |}.
#[export] Instance VerticalAlign_enum : CEnum VerticalAlign :=
  {| disc v := match v with
       | VerticalAlign_BaseLine => 0 | VerticalAlign_SuperScript => 1
       | VerticalAlign_SubScript => 2 end;
     variants := [VerticalAlign_BaseLine; VerticalAlign_SuperScript; VerticalAlign_SubScript] |}.
#[export] Instance SemanticType_enum : CEnum SemanticType :=
  {| disc s := match s with
       | SemanticType_Output => 0 | SemanticType_Input => 1 | SemanticType_Prompt => 2 end;
     variants := [SemanticType_Output; SemanticType_Input; SemanticType_Prompt] |}.

#[export] Instance Blink_laws : CEnumLaws Blink.
Proof. by intros []. Qed.
#[export] Instance Intensity_laws : CEnumLaws Intensity.
Proof. by intros []. Qed.
#[export] Instance Underline_laws : CEnumLaws Underline.
Proof. by intros []. Qed.
#[export] Instance VerticalAlign_laws : CEnumLaws VerticalAlign.
Proof. by intros []. Qed.
#[export] Instance SemanticType_laws : CEnumLaws SemanticType.
Proof. by intros []. Qed.

#[export] Instance SemanticType_eq_dec : EqDecision SemanticType.
Proof. solve_decision. Defined.

(** [!x] of a [u32]. *)
Definition u32_not (x : Z) : Z := Z.lxor x u32_max.

(** The first form of the macro [bitfield!]: one bit. *)
Definition bit_get (bitnum : Z) (a : CellAttributes) : bool :=
  Z.land (attributes a) (Z.shiftl 1 bitnum) =? Z.shiftl 1 bitnum.

Definition bit_set (bitnum : Z) (value : bool) (a : CellAttributes) : CellAttributes :=
  let attr_value := if value then Z.shiftl 1 bitnum else 0 in
  set_attributes (Z.lor (Z.land (attributes a) (u32_not (Z.shiftl 1 bitnum))) attr_value) a.

(** The third form: an enum. [mem::transmute] of a number that is no
    discriminant is undefined behaviour: [None]. *)
Definition enum_get {T} `{CEnum T} (bitmask bitshift : Z) (a : CellAttributes) : option T :=
  from_i64 (as_u8 (Z.land (Z.shiftr (attributes a) bitshift) bitmask)).

Definition enum_set {T} `{CEnum T} (bitmask bitshift : Z) (value : T) (a : CellAttributes)
  : CellAttributes :=
  let clear := u32_not (Z.shiftl bitmask bitshift) in
  let attr_value := Z.shiftl (Z.land (disc value) bitmask) bitshift in
  set_attributes (Z.lor (Z.land (attributes a) clear) attr_value) a.

Definition intensity : CellAttributes -> option Intensity := enum_get 3 0.
Definition set_intensity : Intensity -> CellAttributes -> CellAttributes := enum_set 3 0.
Definition underline : CellAttributes -> option Underline := enum_get 7 2.
Definition set_underline : Underline -> CellAttributes -> CellAttributes := enum_set 7 2.
Definition blink : CellAttributes -> option Blink := enum_get 3 5.
Definition set_blink : Blink -> CellAttributes -> CellAttributes := enum_set 3 5.
Definition italic : CellAttributes -> bool := bit_get 7.
Definition set_italic : bool -> CellAttributes -> CellAttributes := bit_set 7.
Definition reverse : CellAttributes -> bool := bit_get 8.
Definition set_reverse : bool -> CellAttributes -> CellAttributes := bit_set 8.
Definition strikethrough : CellAttributes -> bool := bit_get 9.
Definition set_strikethrough : bool -> CellAttributes -> CellAttributes := bit_set 9.
Definition invisible : CellAttributes -> bool := bit_get 10.
Definition set_invisible : bool -> CellAttributes -> CellAttributes := bit_set 10.
Definition wrapped : CellAttributes -> bool := bit_get 11.
Definition set_wrapped : bool -> CellAttributes -> CellAttributes := bit_set 11.
Definition overline : CellAttributes -> bool := bit_get 12.
Definition set_overline : bool -> CellAttributes -> CellAttributes := bit_set 12.
Definition semantic_type : CellAttributes -> option SemanticType := enum_get 3 13.
Definition set_semantic_type : SemanticType -> CellAttributes -> CellAttributes := enum_set 3 13.
Definition vertical_align : CellAttributes -> option VerticalAlign := enum_get 3 15.
Definition set_vertical_align : VerticalAlign -> CellAttributes -> CellAttributes := enum_set 3 15.

(** [CellAttributes::blank]. *)
Definition blank_attrs : CellAttributes :=
  mkCellAttributes 0 SmallColor_Default SmallColor_Default None.

Definition attribute_bits_equal (a b : CellAttributes) : bool := attributes a =? attributes b.

(** ** The record of rare attributes *)

Definition no_fat : FatAttributes :=
  mkFat None [] ColorAttribute_Default ColorAttribute_Default ColorAttribute_Default.

Definition allocate_fat_attributes (a : CellAttributes) : CellAttributes :=
  match fat a with Some _ => a | None => put_fat (Some no_fat) a end.

(** [self.fat.as_mut().unwrap()] after [allocate_fat_attributes]. *)
Definition with_fat (g : FatAttributes -> FatAttributes) (a : CellAttributes) : CellAttributes :=
  let a := allocate_fat_attributes a in put_fat (g <$> fat a) a.

Definition color_is_default (c : ColorAttribute) : bool := color_eqb c ColorAttribute_Default.

Definition fat_is_none (f : FatAttributes) : bool :=
  if negb (match fat_image f with [] => true | _ => false end) then false
  else bool_decide (fat_hyperlink f = None) && color_is_default (fat_underline_color f) &&
       color_is_default (fat_foreground f) && color_is_default (fat_background f).

Definition deallocate_fat_attributes_if_none (a : CellAttributes) : CellAttributes :=
  match fat a with
  | Some f => if fat_is_none f then put_fat None a else a
  | None => a
  end.

(** [if let Some(fat) = self.fat.as_mut()]. *)
Definition map_fat (g : FatAttributes -> FatAttributes) (a : CellAttributes) : CellAttributes :=
  put_fat (g <$> fat a) a.

Definition set_foreground (c : ColorAttribute) (a : CellAttributes) : CellAttributes :=
  match c with
  | ColorAttribute_Default =>
      deallocate_fat_attributes_if_none
        (map_fat (set_fat_foreground ColorAttribute_Default) (put_foreground SmallColor_Default a))
  | ColorAttribute_PaletteIndex idx =>
      deallocate_fat_attributes_if_none
        (map_fat (set_fat_foreground ColorAttribute_Default)
           (put_foreground (SmallColor_PaletteIndex idx) a))
  | c => with_fat (set_fat_foreground c) (put_foreground SmallColor_Default a)
  end.

Definition foreground (a : CellAttributes) : ColorAttribute :=
  match fat a with
  | Some f =>
      if negb (color_is_default (fat_foreground f)) then fat_foreground f
      else SmallColor_into (small_foreground a)
  | None => SmallColor_into (small_foreground a)
  end.

Definition set_background (c : ColorAttribute) (a : CellAttributes) : CellAttributes :=
  match c with
  | ColorAttribute_Default =>
      deallocate_fat_attributes_if_none
        (map_fat (set_fat_background ColorAttribute_Default) (put_background SmallColor_Default a))
  | ColorAttribute_PaletteIndex idx =>
      deallocate_fat_attributes_if_none
        (map_fat (set_fat_background ColorAttribute_Default)
           (put_background (SmallColor_PaletteIndex idx) a))
  | c => with_fat (set_fat_background c) (put_background SmallColor_Default a)
  end.

Definition background (a : CellAttributes) : ColorAttribute :=
  match fat a with
  | Some f =>
      if negb (color_is_default (fat_background f)) then fat_background f
      else SmallColor_into (small_background a)
  | None => SmallColor_into (small_background a)
  end.

Definition clear (a : CellAttributes) : CellAttributes := blank_attrs.

Definition set_hyperlink (link : option Hyperlink) (a : CellAttributes) : CellAttributes :=
  match link, fat a with
  | None, None => a
  | _, _ => deallocate_fat_attributes_if_none (with_fat (set_fat_hyperlink link) a)
  end.

Definition hyperlink (a : CellAttributes) : option Hyperlink :=
  match fat a with Some f => fat_hyperlink f | None => None end.

Definition set_underline_color (c : ColorAttribute) (a : CellAttributes) : CellAttributes :=
  match color_is_default c, fat a with
  | true, None => a
  | _, _ => deallocate_fat_attributes_if_none (with_fat (set_fat_underline_color c) a)
  end.

Definition underline_color (a : CellAttributes) : ColorAttribute :=
  match fat a with Some f => fat_underline_color f | None => ColorAttribute_Default end.

(** ** Images *)

Definition set_image (im : ImageCell) (a : CellAttributes) : CellAttributes :=
  with_fat (set_fat_image [im]) a.

Definition clear_images (a : CellAttributes) : CellAttributes :=
  deallocate_fat_attributes_if_none (map_fat (set_fat_image []) a).

Definition detach_image_with_placement (id : Z) (p : option Z) (a : CellAttributes)
  : CellAttributes :=
  deallocate_fat_attributes_if_none
    (map_fat (fun f => set_fat_image
       (List.filter (fun im => negb (matches_placement im id p)) (fat_image f)) f) a).

(** [Vec::insert]; the index is in range. *)
Definition insert_at {A} (i : nat) (x : A) (l : list A) : list A := take i l ++ x :: drop i l.

(** The images of a cell are in z-order: where a new one goes. *)
Definition insert_by_z (im : ImageCell) (l : list ImageCell) : list ImageCell :=
  let cmp i := from_option (fun probe => Z.compare (z_index probe) (z_index im)) Eq (l !! i) in
  match binary_search_by cmp (length l) with
  | Ok idx | Err idx => insert_at idx im l
  end.

Definition attach_image (im : ImageCell) (a : CellAttributes) : CellAttributes :=
  with_fat (fun f => set_fat_image (insert_by_z im (fat_image f)) f) a.

(** [CellAttributes::images]: never [Some] of nothing. *)
Definition images (a : CellAttributes) : option (list ImageCell) :=
  match fat a with
  | Some f => match fat_image f with [] => None | l => Some l end
  | None => None
  end.

(** [clone_sgr_only]. *)
Definition clone_sgr_only (a : CellAttributes) : CellAttributes :=
  let res := mkCellAttributes (attributes a) (small_foreground a) (small_background a) None in
  let res :=
    match fat a with
    | Some f =>
        if negb (color_is_default (fat_background f)) || negb (color_is_default (fat_foreground f))
        then with_fat (fun n => set_fat_background (fat_background f)
                                  (set_fat_foreground (fat_foreground f) n)) res
        else res
    | None => res
    end in
  let res := set_semantic_type SemanticType_Output res in
  let res := set_underline_color (underline_color a) res in
  set_strikethrough false (set_overline false (set_underline Underline_None res)).

Inductive AttributeChange : Set :=
| AttributeChange_Intensity (v : Intensity)
| AttributeChange_Underline (v : Underline)
| AttributeChange_Italic (v : bool)
| AttributeChange_Blink (v : Blink)
| AttributeChange_Reverse (v : bool)
| AttributeChange_StrikeThrough (v : bool)
| AttributeChange_Invisible (v : bool)
| AttributeChange_Foreground (v : ColorAttribute)
| AttributeChange_Background (v : ColorAttribute)
| AttributeChange_Hyperlink (v : option Hyperlink).

Definition apply_change (c : AttributeChange) (a : CellAttributes) : CellAttributes :=
  match c with
  | AttributeChange_Intensity v => set_intensity v a
  | AttributeChange_Underline v => set_underline v a
  | AttributeChange_Italic v => set_italic v a
  | AttributeChange_Blink v => set_blink v a
  | AttributeChange_Reverse v => set_reverse v a
  | AttributeChange_StrikeThrough v => set_strikethrough v a
  | AttributeChange_Invisible v => set_invisible v a
  | AttributeChange_Foreground v => set_foreground v a
  | AttributeChange_Background v => set_background v a
  | AttributeChange_Hyperlink v => set_hyperlink v a
  end.

(** ** Text: eight bytes, or a pointer *)

(** [TeenyString(u64)], on a little-endian machine: a word with the marker bit set, which holds the
    string, or the address of a [TeenyStringHeap], whose marker bit is clear. *)
Inductive TeenyString : Set :=
| Inline (word : Z)
| Heap (bytes : list Z) (width : Z).

Definition marker_mask : Z := 0x8000000000000000.
Definition double_wide_mask : Z := 0xc000000000000000.

Definition is_double_width (word : Z) : bool := Z.land word double_wide_mask =? double_wide_mask.

Definition set_marker_bit (word width : Z) : Z :=
  if 1 <? width then Z.lor word double_wide_mask else Z.lor word marker_mask.

(** The word whose first bytes in memory are [l], the others being zero, and the
    first [n] bytes of a word. *)
Fixpoint le_word (l : list Z) : Z :=
  match l with
  | [] => 0
  | b :: l => b + 2 ^ 8 * le_word l
  end.

Fixpoint le_bytes (n : nat) (w : Z) : list Z :=
  match n with
  | O => []
  | S n => w mod 2 ^ 8 :: le_bytes n (w / 2 ^ 8)
  end.

(** The text that [from_str] stores: control and movement characters become a space. *)
Definition defang (s : list Z) : list Z :=
  match s with
  | [] => bs " "
  | [13; 10] => bs " "
  | [b] => if (b <? 0x20) || (b =? 0x7f) then bs " " else s
  | _ => s
  end.

(** The bytes before the first zero ([position(|&b| b == 0)]). *)
Fixpoint before_zero (l : list Z) : list Z :=
  match l with
  | [] => []
  | b :: l => if b =? 0 then [] else b :: before_zero l
  end.

Definition ts_as_bytes (t : TeenyString) : list Z :=
  match t with
  | Inline word => before_zero (le_bytes 7 word)
  | Heap bytes _ => bytes
  end.

Definition ts_width (t : TeenyString) : Z :=
  match t with
  | Inline word => if is_double_width word then 2 else 1
  | Heap _ width => width
  end.

Definition ts_space : TeenyString := Inline 0x8000000000000020.

(** [Cell]. *)
Record Cell : Set := mkCell { text : TeenyString; attrs : CellAttributes }.

Section Cells.
Context `{CharTables}.

(** [TeenyString::from_str]. *)
Definition from_str (s : list Z) (width : option Z) (v : option UnicodeVersion) : TeenyString :=
  let s := defang s in
  let width := match width with Some w => w | None => grapheme_column_width s v end in
  if (length s <? 8)%nat && (width <? 3)
  then Inline (set_marker_bit (le_word s) width)
  else Heap s width.

Definition ts_from_char (c : Z) : TeenyString := from_str (encode_utf8 c) None None.

Definition ts_clone (t : TeenyString) : TeenyString :=
  match t with
  | Inline word => Inline word
  | Heap bytes _ => from_str bytes None None
  end.

Definition ts_eqb (a b : TeenyString) : bool :=
  bool_decide (ts_as_bytes a = ts_as_bytes b).

Definition Cell_new (c : Z) (a : CellAttributes) : Cell := mkCell (ts_from_char c) a.
Definition blank_with_attrs (a : CellAttributes) : Cell := mkCell ts_space a.
Definition Cell_blank : Cell := blank_with_attrs blank_attrs.
Definition new_grapheme (s : list Z) (a : CellAttributes) (v : option UnicodeVersion) : Cell :=
  mkCell (from_str s None v) a.
Definition new_grapheme_with_width (s : list Z) (width : Z) (a : CellAttributes) : Cell :=
  mkCell (from_str s (Some width) None) a.

Definition cell_str (c : Cell) : list Z := ts_as_bytes (text c).
Definition cell_width (c : Cell) : Z := ts_width (text c).
Definition set_cell_attrs (f : CellAttributes -> CellAttributes) (c : Cell) : Cell :=
  mkCell (text c) (f (attrs c)).

Definition Cell_clone (c : Cell) : Cell := mkCell (ts_clone (text c)) (attrs c).
Definition Cell_eqb (a b : Cell) : bool :=
  ts_eqb (text a) (text b) && attrs_eqb (attrs a) (attrs b).

Definition cell_presentation (c : Cell) : Presentation :=
  match for_grapheme (cell_str c) with
  | (_, Some variation) => variation
  | (presentation, None) => presentation
  end.
End Cells.
