(* ===== verification/CellProps.v ===== *)
(** Theorems on cells: the packed attributes implement a record of their values, the text of a
    cell is read back as it was stored, and images stay in z-order. *)

From Stdlib Require Import ZArith Lia Sorted String.
From S2P Require Import Prelude Color CsiTypes CharWidth Cell.
From stdpp Require Import base numbers list option gmap sorting.
Local Open Scope Z_scope.

(** ** Bits of the attribute word *)

Definition u32_range (w : Z) : Prop := 0 <= w <= u32_max.

Lemma testbit_ones k i : 0 <= k -> Z.testbit (Z.ones k) i = (0 <=? i) && (i <? k).
Proof.
  intros Hk. destruct (Z.leb_spec 0 i); cbn [andb].
  - destruct (Z.ltb_spec i k); [by apply Z.ones_spec_low | by apply Z.ones_spec_high].
  - by apply Z.testbit_neg_r.
Qed.

Lemma testbit_u32_not x i : 0 <= i -> Z.testbit (u32_not x) i = xorb (Z.testbit x i) (i <? 32).
Proof.
  intros Hi. unfold u32_not. change u32_max with (Z.ones 32).
  rewrite Z.lxor_spec, testbit_ones by lia. by rewrite (proj2 (Z.leb_le 0 i)).
Qed.

(** The word after a field of [k] bits at [s] is set to [v]. *)
Lemma testbit_put k s v w i :
  0 <= k -> 0 <= s -> s + k <= 32 -> 0 <= i ->
  Z.testbit (Z.lor (Z.land w (u32_not (Z.shiftl (Z.ones k) s)))
               (Z.shiftl (Z.land v (Z.ones k)) s)) i =
  if (s <=? i) && (i <? s + k) then Z.testbit v (i - s)
  else Z.testbit w i && (i <? 32).
Proof.
  intros Hk Hs H32 Hi. rewrite Z.lor_spec, Z.land_spec, testbit_u32_not by done.
  rewrite !Z.shiftl_spec, Z.land_spec, testbit_ones by done.
  destruct (Z.leb_spec s i); cbn [andb].
  - rewrite (proj2 (Z.leb_le 0 (i - s))) by lia. cbn [andb].
    destruct (Z.ltb_spec i (s + k)); [rewrite (proj2 (Z.ltb_lt (i - s) k)) by lia
      |rewrite (proj2 (Z.ltb_ge (i - s) k)) by lia].
    + rewrite (proj2 (Z.ltb_lt i 32)) by lia. cbn. by rewrite andb_false_r, andb_true_r.
    + by rewrite andb_false_r, orb_false_r.
  - rewrite (proj2 (Z.leb_gt 0 (i - s))) by lia. cbn [andb].
    by rewrite andb_false_r, orb_false_r.
Qed.

(** Two words agree on a range of bits. *)
Definition agree (s k : Z) (w w' : Z) : Prop :=
  forall i, s <= i < s + k -> Z.testbit w i = Z.testbit w' i.

Lemma bit_get_testbit b a : 0 <= b -> bit_get b a = Z.testbit (attributes a) b.
Proof.
  intros Hb. unfold bit_get. apply eq_true_iff_eq. rewrite Z.eqb_eq. rewrite Z.shiftl_1_l. split.
  - intros H. pose proof (f_equal (fun z => Z.testbit z b) H) as Hz. cbv beta in Hz.
    by rewrite Z.land_spec, Z.pow2_bits_true, andb_true_r in Hz.
  - intros H. apply Z.bits_inj'. intros i Hi. rewrite Z.land_spec, Z.pow2_bits_eqb by done.
    destruct (Z.eqb_spec b i) as [->|]; [by rewrite H|by rewrite andb_false_r].
Qed.

Lemma bit_set_put b v a :
  bit_set b v a =
  set_attributes (Z.lor (Z.land (attributes a) (u32_not (Z.shiftl (Z.ones 1) b)))
    (Z.shiftl (Z.land (Z.b2z v) (Z.ones 1)) b)) a.
Proof. unfold bit_set. destruct v; cbn [Z.b2z]; [done|]. by rewrite Z.land_0_l, Z.shiftl_0_l. Qed.

Lemma field_agree k s w w' :
  0 <= k -> 0 <= s -> agree s k w w' ->
  Z.land (Z.shiftr w s) (Z.ones k) = Z.land (Z.shiftr w' s) (Z.ones k).
Proof.
  intros Hk Hs H. apply Z.bits_inj'. intros i Hi.
  rewrite !Z.land_spec, !Z.shiftr_spec, testbit_ones by done.
  rewrite (proj2 (Z.leb_le 0 i)) by done. cbn [andb].
  destruct (Z.ltb_spec i k); [|by rewrite !andb_false_r]. by rewrite H by lia.
Qed.

Lemma field_small k s w v :
  0 <= k -> 0 <= s -> 0 <= v < 2 ^ k ->
  (forall i, s <= i < s + k -> Z.testbit w i = Z.testbit v (i - s)) ->
  Z.land (Z.shiftr w s) (Z.ones k) = v.
Proof.
  intros Hk Hs Hv H.
  rewrite <- (Z.mod_small v (2 ^ k)) by done. rewrite <- Z.land_ones by done.
  apply Z.bits_inj'. intros i Hi.
  rewrite !Z.land_spec, Z.shiftr_spec, testbit_ones by done.
  rewrite (proj2 (Z.leb_le 0 i)) by done. cbn [andb].
  destruct (Z.ltb_spec i k); [|by rewrite !andb_false_r].
  rewrite H by lia. by replace (i + s - s) with i by lia.
Qed.

Section Fields.
Context (k s : Z) (Hk : 0 <= k <= 8) (Hs : 0 <= s) (H32 : s + k <= 32).

Lemma enum_get_agree {T} `{CEnum T} a a' :
  agree s k (attributes a) (attributes a') ->
  enum_get (T := T) (Z.ones k) s a = enum_get (Z.ones k) s a'.
Proof. intros Ha. unfold enum_get. by rewrite (field_agree k s _ _ ltac:(lia) Hs Ha). Qed.

Lemma bit_get_agree a a' :
  0 < k -> agree s k (attributes a) (attributes a') -> bit_get s a = bit_get s a'.
Proof. intros Hk' Ha. rewrite !bit_get_testbit by done. apply Ha. lia. Qed.

Lemma enum_set_agree {T} `{CEnum T} (v : T) a s' k' :
  0 <= s' -> s' + k' <= 32 -> s' + k' <= s \/ s + k <= s' ->
  agree s' k' (attributes (enum_set (Z.ones k) s v a)) (attributes a).
Proof.
  intros Hs' H32' Hd i Hi. unfold enum_set. cbn [attributes set_attributes].
  rewrite testbit_put by lia. rewrite (proj2 (Z.ltb_lt i 32)) by lia.
  destruct (Z.leb_spec s i), (Z.ltb_spec i (s + k)); cbn [andb]; try lia;
    by rewrite andb_true_r.
Qed.

Lemma enum_get_set {T} `{CEnum T} `{!CEnumLaws T} (v : T) a :
  0 <= disc v < 2 ^ k -> enum_get (Z.ones k) s (enum_set (Z.ones k) s v a) = Some v.
Proof.
  intros Hv. unfold enum_get. rewrite (field_small k s _ (disc v)) by
    (done || lia || (intros i Hi; unfold enum_set; cbn [attributes set_attributes];
       rewrite testbit_put by lia; rewrite (proj2 (Z.leb_le s i)), (proj2 (Z.ltb_lt i (s + k))) by lia;
       done)).
  unfold as_u8. rewrite Z.mod_small; [apply from_disc|].
  split; [lia|]. apply Z.lt_le_trans with (2 ^ k); [lia|]. apply Z.pow_le_mono_r; lia.
Qed.
End Fields.

Lemma bit_set_agree b v a s' k' :
  0 <= b < 32 -> 0 <= s' -> s' + k' <= 32 -> s' + k' <= b \/ b < s' ->
  agree s' k' (attributes (bit_set b v a)) (attributes a).
Proof.
  intros Hb Hs' H32 Hd i Hi. rewrite bit_set_put. cbn [attributes set_attributes].
  rewrite testbit_put by lia. rewrite (proj2 (Z.ltb_lt i 32)) by lia.
  destruct (Z.leb_spec b i), (Z.ltb_spec i (b + 1)); cbn [andb]; try lia; by rewrite andb_true_r.
Qed.

Lemma bit_get_set b v a : 0 <= b < 32 -> bit_get b (bit_set b v a) = v.
Proof.
  intros Hb. rewrite bit_get_testbit, bit_set_put by lia. cbn [attributes set_attributes].
  rewrite testbit_put by lia. rewrite Z.leb_refl, (proj2 (Z.ltb_lt b (b + 1))), Z.sub_diag by lia.
  by destruct v.
Qed.

(** ** What a cell looks like, as a record *)

(** The values of the bit fields. *)
Record Flags : Set := mkFlags {
  f_intensity : Intensity; f_underline : Underline; f_blink : Blink; f_italic : bool;
  f_reverse : bool; f_strikethrough : bool; f_invisible : bool; f_wrapped : bool;
  f_overline : bool; f_semantic_type : SemanticType; f_vertical_align : VerticalAlign
}.

(** The style of a cell: the values that the getters report. *)
Record Style : Set := mkStyle {
  flags : Flags;
  s_foreground : ColorAttribute;
  s_background : ColorAttribute;
  s_underline_color : ColorAttribute;
  s_hyperlink : option Hyperlink;
  s_images : list ImageCell
}.

Definition flags_of (a : CellAttributes) : option Flags :=
  i ← intensity a; u ← underline a; b ← blink a; s ← semantic_type a; v ← vertical_align a;
  Some (mkFlags i u b (italic a) (Cell.reverse a) (strikethrough a) (invisible a) (wrapped a)
          (overline a) s v).

#[global] Arguments flags_of : simpl never.

(** [None] if a getter would transmute a number that is no discriminant. *)
Definition style_of (a : CellAttributes) : option Style :=
  f ← flags_of a;
  Some (mkStyle f (foreground a) (background a) (underline_color a) (hyperlink a)
          (default [] (images a))).

(** Every operation that changes attributes. *)
Inductive AttrOp : Set :=
| OpChange (c : AttributeChange)
| OpWrapped (v : bool)
| OpOverline (v : bool)
| OpSemanticType (v : SemanticType)
| OpVerticalAlign (v : VerticalAlign)
| OpUnderlineColor (v : ColorAttribute)
| OpSetImage (im : ImageCell)
| OpAttachImage (im : ImageCell)
| OpClearImages
| OpDetachImage (id : Z) (p : option Z)
| OpCloneSgrOnly
| OpClear.

Definition apply_op (o : AttrOp) : CellAttributes -> CellAttributes :=
  match o with
  | OpChange c => apply_change c
  | OpWrapped v => set_wrapped v
  | OpOverline v => set_overline v
  | OpSemanticType v => set_semantic_type v
  | OpVerticalAlign v => set_vertical_align v
  | OpUnderlineColor v => set_underline_color v
  | OpSetImage im => set_image im
  | OpAttachImage im => attach_image im
  | OpClearImages => clear_images
  | OpDetachImage id p => detach_image_with_placement id p
  | OpCloneSgrOnly => clone_sgr_only
  | OpClear => clear
  end.

Definition blank_flags : Flags :=
  mkFlags Intensity_Normal Underline_None Blink_None false false false false false false
    SemanticType_Output VerticalAlign_BaseLine.

Definition blank_style : Style :=
  mkStyle blank_flags ColorAttribute_Default ColorAttribute_Default ColorAttribute_Default None [].

Definition flag_op (o : AttrOp) (f : Flags) : Flags :=
  let '(mkFlags i u b it re st iv w ov se va) := f in
  match o with
  | OpChange (AttributeChange_Intensity v) => mkFlags v u b it re st iv w ov se va
  | OpChange (AttributeChange_Underline v) => mkFlags i v b it re st iv w ov se va
  | OpChange (AttributeChange_Blink v) => mkFlags i u v it re st iv w ov se va
  | OpChange (AttributeChange_Italic v) => mkFlags i u b v re st iv w ov se va
  | OpChange (AttributeChange_Reverse v) => mkFlags i u b it v st iv w ov se va
  | OpChange (AttributeChange_StrikeThrough v) => mkFlags i u b it re v iv w ov se va
  | OpChange (AttributeChange_Invisible v) => mkFlags i u b it re st v w ov se va
  | OpWrapped v => mkFlags i u b it re st iv v ov se va
  | OpOverline v => mkFlags i u b it re st iv w v se va
  | OpSemanticType v => mkFlags i u b it re st iv w ov v va
  | OpVerticalAlign v => mkFlags i u b it re st iv w ov se v
  | OpCloneSgrOnly => mkFlags i Underline_None b it re false iv w false SemanticType_Output va
  | OpClear => blank_flags
  | _ => f
  end.

(** The operations on the record. *)
Definition spec_op (o : AttrOp) (s : Style) : Style :=
  let '(mkStyle f fg bg uc link ims) := s in
  let f := flag_op o f in
  match o with
  | OpChange (AttributeChange_Foreground c) => mkStyle f c bg uc link ims
  | OpChange (AttributeChange_Background c) => mkStyle f fg c uc link ims
  | OpChange (AttributeChange_Hyperlink h) => mkStyle f fg bg uc h ims
  | OpUnderlineColor c => mkStyle f fg bg c link ims
  | OpSetImage im => mkStyle f fg bg uc link [im]
  | OpAttachImage im => mkStyle f fg bg uc link (insert_by_z im ims)
  | OpClearImages => mkStyle f fg bg uc link []
  | OpDetachImage id p =>
      mkStyle f fg bg uc link (List.filter (fun im => negb (matches_placement im id p)) ims)
  | OpCloneSgrOnly => mkStyle f fg bg uc None []
  | OpClear => blank_style
  | _ => mkStyle f fg bg uc link ims
  end.

(** A getter after the setter of another field. *)
Ltac fields :=
  unfold intensity, set_intensity, underline, set_underline, blink, set_blink, italic, set_italic,
    Cell.reverse, set_reverse, strikethrough, set_strikethrough, invisible, set_invisible, wrapped,
    set_wrapped, overline, set_overline, semantic_type, set_semantic_type, vertical_align,
    set_vertical_align.

(** The masks of the fields, as numbers of bits. *)
Ltac mask_bits m := lazymatch m with 3 => constr:(2) | 7 => constr:(3) end.

Ltac getter :=
  fields;
  lazymatch goal with
  | |- enum_get ?m ?s _ = _ => let k := mask_bits m in apply (enum_get_agree k s); [lia..|]
  | |- bit_get ?s _ = _ => apply (bit_get_agree 1 s); [lia..|]
  end;
  lazymatch goal with
  | |- agree _ _ (attributes (enum_set ?m ?s _ _)) _ =>
      let k := mask_bits m in apply (enum_set_agree k s); lia
  | |- agree _ _ (attributes (bit_set _ _ _)) _ => apply bit_set_agree; lia
  end.

Lemma flags_of_Some a f :
  flags_of a = Some f <->
  intensity a = Some (f_intensity f) /\ underline a = Some (f_underline f) /\
  blink a = Some (f_blink f) /\ italic a = f_italic f /\ Cell.reverse a = f_reverse f /\
  strikethrough a = f_strikethrough f /\ invisible a = f_invisible f /\ wrapped a = f_wrapped f /\
  overline a = f_overline f /\ semantic_type a = Some (f_semantic_type f) /\
  vertical_align a = Some (f_vertical_align f).
Proof.
  unfold flags_of. split.
  - intros H. destruct (intensity a), (underline a), (blink a), (semantic_type a),
      (vertical_align a); simplify_eq/=. done.
  - intros (-> & -> & -> & -> & -> & -> & -> & -> & -> & -> & ->). by destruct f.
Qed.

(** The getter of the field that was set. *)
Ltac own_getter :=
  fields;
  lazymatch goal with
  | |- bit_get ?s (bit_set ?s _ _) = _ => apply bit_get_set; lia
  | |- enum_get ?m ?s (enum_set ?m ?s ?v _) = _ =>
      let k := mask_bits m in apply (enum_get_set k s); [lia|lia|lia|apply _|destruct v; cbn; lia]
  end.

Ltac set_flags :=
  intros (? & ? & ? & ? & ? & ? & ? & ? & ? & ? & ?)%flags_of_Some; apply flags_of_Some;
  match goal with |- context [flag_op _ ?f] => destruct f; cbn [flag_op] in * end;
  cbn [f_intensity f_underline f_blink f_italic f_reverse f_strikethrough f_invisible f_wrapped
       f_overline f_semantic_type f_vertical_align] in *;
  repeat match goal with |- _ /\ _ => split end;
  match goal with
  | |- ?g _ = _ => first [ own_getter
                        | match goal with H : g _ = _ |- _ => rewrite <- H; getter end ]
  end.

Section SetFlags.
Context (a : CellAttributes) (f : Flags).

Lemma set_intensity_flags v :
  flags_of a = Some f -> flags_of (set_intensity v a) = Some (flag_op (OpChange (AttributeChange_Intensity v)) f).
Proof. set_flags. Qed.

Lemma set_underline_flags v :
  flags_of a = Some f -> flags_of (set_underline v a) = Some (flag_op (OpChange (AttributeChange_Underline v)) f).
Proof. set_flags. Qed.

Lemma set_blink_flags v :
  flags_of a = Some f -> flags_of (set_blink v a) = Some (flag_op (OpChange (AttributeChange_Blink v)) f).
Proof. set_flags. Qed.

Lemma set_italic_flags v :
  flags_of a = Some f -> flags_of (set_italic v a) = Some (flag_op (OpChange (AttributeChange_Italic v)) f).
Proof. set_flags. Qed.

Lemma set_reverse_flags v :
  flags_of a = Some f -> flags_of (set_reverse v a) = Some (flag_op (OpChange (AttributeChange_Reverse v)) f).
Proof. set_flags. Qed.

Lemma set_strikethrough_flags v :
  flags_of a = Some f -> flags_of (set_strikethrough v a) = Some (flag_op (OpChange (AttributeChange_StrikeThrough v)) f).
Proof. set_flags. Qed.

Lemma set_invisible_flags v :
  flags_of a = Some f -> flags_of (set_invisible v a) = Some (flag_op (OpChange (AttributeChange_Invisible v)) f).
Proof. set_flags. Qed.

Lemma set_wrapped_flags v :
  flags_of a = Some f -> flags_of (set_wrapped v a) = Some (flag_op (OpWrapped v) f).
Proof. set_flags. Qed.

Lemma set_overline_flags v :
  flags_of a = Some f -> flags_of (set_overline v a) = Some (flag_op (OpOverline v) f).
Proof. set_flags. Qed.

Lemma set_semantic_type_flags v :
  flags_of a = Some f -> flags_of (set_semantic_type v a) = Some (flag_op (OpSemanticType v) f).
Proof. set_flags. Qed.

Lemma set_vertical_align_flags v :
  flags_of a = Some f -> flags_of (set_vertical_align v a) = Some (flag_op (OpVerticalAlign v) f).
Proof. set_flags. Qed.
End SetFlags.

Lemma flags_of_attributes a a' : attributes a = attributes a' -> flags_of a = flags_of a'.
Proof. intros H. unfold flags_of. fields. unfold enum_get, bit_get. by rewrite H. Qed.

(** Only the seventeen low bits of the word are used. *)
Definition word_ok (w : Z) : Prop := 0 <= w /\ forall i, 17 <= i -> Z.testbit w i = false.

Lemma put_word_ok k s v w :
  0 <= k -> 0 <= s -> s + k <= 17 -> word_ok w ->
  word_ok (Z.lor (Z.land w (u32_not (Z.shiftl (Z.ones k) s))) (Z.shiftl (Z.land v (Z.ones k)) s)).
Proof.
  intros Hk Hs H17 [H0 Hw]. split.
  - rewrite Z.ones_equiv, Z.lor_nonneg, !Z.shiftl_nonneg. split; apply Z.land_nonneg; [by left|].
    right. pose proof (Z.pow_pos_nonneg 2 k). lia.
  - intros i Hi. rewrite testbit_put by lia. rewrite (proj2 (Z.ltb_ge i (s + k))) by lia.
    by rewrite andb_false_r, Hw.
Qed.

Lemma bit_set_word_ok b v a :
  0 <= b < 17 -> word_ok (attributes a) -> word_ok (attributes (bit_set b v a)).
Proof. intros Hb Hw. rewrite bit_set_put. apply put_word_ok; [lia..|done]. Qed.

Lemma enum_set_word_ok {T} `{CEnum T} k s (v : T) a :
  0 <= k -> 0 <= s -> s + k <= 17 -> word_ok (attributes a) ->
  word_ok (attributes (enum_set (Z.ones k) s v a)).
Proof. intros. by apply put_word_ok. Qed.

(** ** The record of rare attributes *)

#[global] Arguments with_fat : simpl never.
#[global] Arguments map_fat : simpl never.
#[global] Arguments deallocate_fat_attributes_if_none : simpl never.

(** The rare attributes, whether or not there is a record for them. *)
Definition vfat (a : CellAttributes) : FatAttributes := default no_fat (fat a).

Definition pick (c : ColorAttribute) (s : SmallColor) : ColorAttribute :=
  if color_is_default c then SmallColor_into s else c.

Lemma color_is_default_spec c : color_is_default c = true <-> c = ColorAttribute_Default.
Proof. by destruct c. Qed.

Lemma foreground_pick a : foreground a = pick (fat_foreground (vfat a)) (small_foreground a).
Proof. unfold foreground, pick, vfat. destruct (fat a) as [f|]; [|done]. by destruct (color_is_default _). Qed.

Lemma background_pick a : background a = pick (fat_background (vfat a)) (small_background a).
Proof. unfold background, pick, vfat. destruct (fat a) as [f|]; [|done]. by destruct (color_is_default _). Qed.

Lemma underline_color_vfat a : underline_color a = fat_underline_color (vfat a).
Proof. unfold underline_color, vfat. by destruct (fat a). Qed.

Lemma hyperlink_vfat a : hyperlink a = fat_hyperlink (vfat a).
Proof. unfold hyperlink, vfat. by destruct (fat a). Qed.

Lemma images_vfat a : default [] (images a) = fat_image (vfat a).
Proof. unfold images, vfat. destruct (fat a) as [f|]; [|done]. cbn. by destruct (fat_image f). Qed.

(** A colour that is not small is in the record, and the small colour is then unset. *)
Definition color_ok (c : ColorAttribute) (s : SmallColor) : Prop :=
  match c with
  | ColorAttribute_Default => True
  | ColorAttribute_PaletteIndex _ => False
  | _ => s = SmallColor_Default
  end.

(** The invariant: used bits only, colours in one place only, no record without content. *)
Record attrs_ok (a : CellAttributes) : Prop := {
  ok_word : word_ok (attributes a);
  ok_foreground : color_ok (fat_foreground (vfat a)) (small_foreground a);
  ok_background : color_ok (fat_background (vfat a)) (small_background a);
  ok_record : forall f, fat a = Some f -> fat_is_none f = false
}.

Lemma fat_is_none_spec f : fat_is_none f = true <-> f = no_fat.
Proof.
  unfold fat_is_none. split; [|by intros ->].
  destruct f as [h ims u fg bg]; cbn. destruct ims; [|done]. cbn.
  rewrite !andb_true_iff, !color_is_default_spec, bool_decide_eq_true.
  by intros (((-> & ->) & ->) & ->).
Qed.

Lemma vfat_put f a : vfat (put_fat f a) = default no_fat f.
Proof. done. Qed.

Lemma vfat_dealloc a : vfat (deallocate_fat_attributes_if_none a) = vfat a.
Proof.
  unfold deallocate_fat_attributes_if_none, vfat. destruct (fat a) as [f|] eqn:E; [|by rewrite E].
  destruct (fat_is_none f) eqn:Ef; [|by rewrite E]. by apply fat_is_none_spec in Ef as ->.
Qed.

Lemma vfat_with g a : vfat (with_fat g a) = g (vfat a).
Proof. unfold with_fat, allocate_fat_attributes, vfat. by destruct (fat a) eqn:E; cbn; rewrite ?E. Qed.

Lemma vfat_map g a : g no_fat = no_fat -> vfat (map_fat g a) = g (vfat a).
Proof. unfold map_fat, vfat. cbn. by destruct (fat a). Qed.

Lemma dealloc_small a :
  attributes (deallocate_fat_attributes_if_none a) = attributes a /\
  small_foreground (deallocate_fat_attributes_if_none a) = small_foreground a /\
  small_background (deallocate_fat_attributes_if_none a) = small_background a.
Proof. unfold deallocate_fat_attributes_if_none. by repeat case_match. Qed.

Lemma with_small g a :
  attributes (with_fat g a) = attributes a /\
  small_foreground (with_fat g a) = small_foreground a /\
  small_background (with_fat g a) = small_background a.
Proof. unfold with_fat, allocate_fat_attributes. by case_match. Qed.

Lemma dealloc_record a f :
  fat (deallocate_fat_attributes_if_none a) = Some f -> fat_is_none f = false.
Proof.
  unfold deallocate_fat_attributes_if_none. destruct (fat a) as [f0|] eqn:E; [|congruence].
  destruct (fat_is_none f0) eqn:Ef; cbn; congruence.
Qed.

Lemma with_record g a f :
  fat (with_fat g a) = Some f -> f = g (vfat a).
Proof.
  unfold with_fat, allocate_fat_attributes, vfat.
  destruct (fat a) as [f0|] eqn:E; cbn; rewrite ?E; cbn; by intros [= <-].
Qed.

(** ** The refinement *)

(** The word and the record [a] represent the style [s]. *)
Record implements (a : CellAttributes) (s : Style) : Prop := {
  im_ok : attrs_ok a;
  im_flags : flags_of a = Some (flags s);
  im_foreground : s_foreground s = pick (fat_foreground (vfat a)) (small_foreground a);
  im_background : s_background s = pick (fat_background (vfat a)) (small_background a);
  im_underline_color : s_underline_color s = fat_underline_color (vfat a);
  im_hyperlink : s_hyperlink s = fat_hyperlink (vfat a);
  im_images : s_images s = fat_image (vfat a)
}.

Lemma implements_style a s : implements a s <-> attrs_ok a /\ style_of a = Some s.
Proof.
  unfold style_of. rewrite foreground_pick, background_pick, underline_color_vfat, hyperlink_vfat,
    images_vfat. split.
  - intros [Hok -> ? ? ? ? ?]. split; [done|]. destruct s; simplify_eq/=. done.
  - intros [Hok H]. destruct (flags_of a) eqn:E; [|done]. simplify_eq/=. by split.
Qed.

(** An operation on the bits. *)
Lemma flags_step a s w f :
  implements a s -> word_ok w -> flags_of (set_attributes w a) = Some f ->
  implements (set_attributes w a)
    (mkStyle f (s_foreground s) (s_background s) (s_underline_color s) (s_hyperlink s) (s_images s)).
Proof. intros [[]] Hw Hf. split; try done. Qed.

(** An operation on the rest. *)
Lemma extras_step a a' s s' :
  implements a s -> attributes a' = attributes a -> flags s' = flags s ->
  color_ok (fat_foreground (vfat a')) (small_foreground a') ->
  color_ok (fat_background (vfat a')) (small_background a') ->
  (forall f, fat a' = Some f -> fat_is_none f = false) ->
  s_foreground s' = pick (fat_foreground (vfat a')) (small_foreground a') ->
  s_background s' = pick (fat_background (vfat a')) (small_background a') ->
  s_underline_color s' = fat_underline_color (vfat a') ->
  s_hyperlink s' = fat_hyperlink (vfat a') -> s_images s' = fat_image (vfat a') ->
  implements a' s'.
Proof.
  intros [[] Hf] Ha Hs. intros. split; try done; [split; try done; by rewrite Ha|].
  by rewrite Hs, <- Hf; apply flags_of_attributes.
Qed.

(** Simplify the state after an operation on the record of rare attributes. *)
Ltac rare :=
  repeat match goal with
  | |- context [deallocate_fat_attributes_if_none ?a] =>
      let H1 := fresh in let H2 := fresh in let H3 := fresh in
      destruct (dealloc_small a) as (H1 & H2 & H3);
      rewrite ?H1, ?H2, ?H3, ?vfat_dealloc; clear H1 H2 H3
  | |- context [with_fat ?g ?a] =>
      let H1 := fresh in let H2 := fresh in let H3 := fresh in
      destruct (with_small g a) as (H1 & H2 & H3);
      rewrite ?H1, ?H2, ?H3, ?vfat_with; clear H1 H2 H3
  end; rewrite ?vfat_map by done; cbn.

Ltac rare_step Him :=
  apply (extras_step _ _ _ _ Him); rare; try done; try congruence;
  try (by match goal with |- flag_op _ ?f = ?f => destruct f end);
  first [ by intros ? ?%dealloc_record
        | by intros ? ->%with_record; unfold fat_is_none; cbn;
          rewrite ?andb_false_r; first [done | case_match]
        | idtac ].

Lemma insert_by_z_cons im l : exists x k, insert_by_z im l = x :: k.
Proof.
  assert (H : forall i, exists x k, insert_at i im l = x :: k)
    by (intros i; unfold insert_at; destruct (take i l); eauto).
  unfold insert_by_z. destruct (binary_search_by _ _); apply H.
Qed.

Section Extras.
Context (a : CellAttributes) (f : Flags) (fg bg uc : ColorAttribute).
Context (link : option Hyperlink) (ims : list ImageCell).
Let s := mkStyle f fg bg uc link ims.
Context (Him : implements a s).

Lemma set_foreground_implements c :
  implements (set_foreground c a) (spec_op (OpChange (AttributeChange_Foreground c)) s).
Proof. pose proof Him as [[]]; cbn in *. destruct c; unfold set_foreground; rare_step Him. Qed.

Lemma set_background_implements c :
  implements (set_background c a) (spec_op (OpChange (AttributeChange_Background c)) s).
Proof. pose proof Him as [[]]; cbn in *. destruct c; unfold set_background; rare_step Him. Qed.

Lemma set_hyperlink_implements h :
  implements (set_hyperlink h a) (spec_op (OpChange (AttributeChange_Hyperlink h)) s).
Proof.
  pose proof Him as [[]]; cbn in *.
  unfold set_hyperlink. destruct h as [h|]; [|destruct (fat a) eqn:E]; rare_step Him.
  all: unfold vfat; by rewrite E.
Qed.

Lemma set_underline_color_implements c :
  implements (set_underline_color c a) (spec_op (OpUnderlineColor c) s).
Proof.
  pose proof Him as [[]]; cbn in *. unfold set_underline_color.
  destruct (color_is_default c) eqn:Ec; [|rare_step Him].
  apply color_is_default_spec in Ec as ->. destruct (fat a) eqn:E; rare_step Him.
  all: unfold vfat; by rewrite E.
Qed.

Lemma set_image_implements im : implements (set_image im a) (spec_op (OpSetImage im) s).
Proof. pose proof Him as [[]]; cbn in *. unfold set_image. rare_step Him. Qed.

Lemma attach_image_implements im : implements (attach_image im a) (spec_op (OpAttachImage im) s).
Proof. pose proof Him as [[]]; cbn in *. unfold attach_image. rare_step Him.
  intros ? ->%with_record. unfold fat_is_none. cbn.
  by destruct (insert_by_z_cons im (fat_image (vfat a))) as (x & k & ->).
Qed.

Lemma clear_images_implements : implements (clear_images a) (spec_op OpClearImages s).
Proof. pose proof Him as [[]]; cbn in *. unfold clear_images. rare_step Him. Qed.

Lemma detach_image_implements id p :
  implements (detach_image_with_placement id p a) (spec_op (OpDetachImage id p) s).
Proof. pose proof Him as [[]]; cbn in *. unfold detach_image_with_placement. rare_step Him. Qed.
End Extras.

Lemma mk_flags_step a f fg bg uc link ims (g : CellAttributes -> CellAttributes) f' :
  implements a (mkStyle f fg bg uc link ims) ->
  (forall a, g a = set_attributes (attributes (g a)) a) ->
  (forall a, word_ok (attributes a) -> word_ok (attributes (g a))) ->
  (forall a, flags_of a = Some f -> flags_of (g a) = Some f') ->
  implements (g a) (mkStyle f' fg bg uc link ims).
Proof.
  intros Him Hg Hw Hf. rewrite Hg. apply (flags_step a (mkStyle f fg bg uc link ims)); [done|..].
  - apply Hw, Him.
  - rewrite <- Hg. apply Hf, Him.
Qed.

Ltac word_step :=
  fields; intros;
  lazymatch goal with
  | |- word_ok (attributes (bit_set _ _ _)) => apply bit_set_word_ok; [lia|done]
  | |- word_ok (attributes (enum_set ?m ?s _ _)) =>
      let k := mask_bits m in apply (enum_set_word_ok k s); [lia..|done]
  end.

Ltac flag_step Him lem :=
  apply (mk_flags_step _ _ _ _ _ _ _ _ _ Him); [done | word_step | intros; by apply lem].

(** The copy that [clone_sgr_only] starts from: colours only. *)
Lemma colors_only_implements a f fg bg uc link ims :
  implements a (mkStyle f fg bg uc link ims) ->
  let res := mkCellAttributes (attributes a) (small_foreground a) (small_background a) None in
  implements
    match fat a with
    | Some r =>
        if negb (color_is_default (fat_background r)) || negb (color_is_default (fat_foreground r))
        then with_fat (fun n => set_fat_background (fat_background r)
                                  (set_fat_foreground (fat_foreground r) n)) res
        else res
    | None => res
    end
    (mkStyle f fg bg ColorAttribute_Default None []).
Proof.
  intros Him res. pose proof Him as [[]]. cbn in *. unfold vfat in *.
  destruct (fat a) as [r|] eqn:E; cbn in *; [|rare_step Him].
  destruct (color_is_default (fat_background r)) eqn:Eb;
    destruct (color_is_default (fat_foreground r)) eqn:Ef; cbn [negb orb]; rare_step Him;
    rewrite ?color_is_default_spec in *.
  all: try (intros ? ->%with_record; unfold fat_is_none; cbn; by rewrite ?Eb, ?Ef, ?andb_false_r).
  - by rewrite im_foreground0, Ef.
  - by rewrite im_background0, Eb.
Qed.

Lemma blank_implements : implements blank_attrs blank_style.
Proof. split; try done. split; try done. split; [done|]. intros i Hi. apply Z.testbit_0_l. Qed.

(** Every operation but [clone_sgr_only], which is made of others. *)
Lemma simple_op_implements o a s :
  o <> OpCloneSgrOnly -> implements a s -> implements (apply_op o a) (spec_op o s).
Proof.
  intros Ho Him. destruct s as [f fg bg uc link ims].
  destruct o as [[]| | | | | | | | | | |]; cbn [apply_op apply_change spec_op].
  - flag_step Him set_intensity_flags.
  - flag_step Him set_underline_flags.
  - flag_step Him set_italic_flags.
  - flag_step Him set_blink_flags.
  - flag_step Him set_reverse_flags.
  - flag_step Him set_strikethrough_flags.
  - flag_step Him set_invisible_flags.
  - by eapply set_foreground_implements.
  - by eapply set_background_implements.
  - by eapply set_hyperlink_implements.
  - flag_step Him set_wrapped_flags.
  - flag_step Him set_overline_flags.
  - flag_step Him set_semantic_type_flags.
  - flag_step Him set_vertical_align_flags.
  - by eapply set_underline_color_implements.
  - by eapply set_image_implements.
  - by eapply attach_image_implements.
  - by eapply clear_images_implements.
  - by eapply detach_image_implements.
  - done.
  - apply blank_implements.
Qed.

Lemma clone_sgr_only_implements a s :
  implements a s -> implements (clone_sgr_only a) (spec_op OpCloneSgrOnly s).
Proof.
  intros Him. destruct s as [[] fg bg uc link ims].
  pose proof (colors_only_implements _ _ _ _ _ _ _ Him) as H0. cbv zeta in H0.
  apply (simple_op_implements (OpSemanticType SemanticType_Output)) in H0; [|done].
  apply (simple_op_implements (OpUnderlineColor uc)) in H0; [|done].
  apply (simple_op_implements (OpChange (AttributeChange_Underline Underline_None))) in H0; [|done].
  apply (simple_op_implements (OpOverline false)) in H0; [|done].
  apply (simple_op_implements (OpChange (AttributeChange_StrikeThrough false))) in H0; [|done].
  pose proof (im_underline_color _ _ Him) as Huc. cbn in Huc.
  unfold clone_sgr_only. rewrite underline_color_vfat, <- Huc. exact H0.
Qed.

Lemma op_implements o a s : implements a s -> implements (apply_op o a) (spec_op o s).
Proof.
  intros Him. destruct o; first [by apply clone_sgr_only_implements | by apply simple_op_implements].
Qed.

(** ** Images in z-order *)

Definition z_le (x y : ImageCell) : Prop := z_index x <= z_index y.

Lemma z_split l z :
  StronglySorted z_le l ->
  exists A B C, l = A ++ B ++ C /\ Forall (fun x => z_index x < z) A /\
    Forall (fun x => z_index x = z) B /\ Forall (fun x => z < z_index x) C.
Proof.
  induction 1 as [|x l Hs (A & B & C & -> & HA & HB & HC) Hx]; [by exists [], [], []|].
  assert (Hge : z <= z_index x -> A = []).
  { intros Hz. destruct A as [|a A]; [done|]. inversion HA; inversion Hx; unfold z_le in *; lia. }
  destruct (Z.lt_trichotomy (z_index x) z) as [Hz|[Hz|Hz]].
  - exists (x :: A), B, C. split_and!; try done; by constructor.
  - rewrite Hge by lia. exists [], (x :: B), C. split_and!; try done; by constructor.
  - rewrite Hge by lia. exists [], [], (x :: B ++ C). rewrite Hge in Hx by lia.
    split; [done|]. do 2 (split; [done|]). constructor; [done|].
    eapply Forall_impl; [exact Hx|]. unfold z_le. cbn. lia.
Qed.

(** An image is inserted after those below it and before those above it. *)
Lemma insert_by_z_split im l :
  StronglySorted z_le l ->
  exists l1 l2, l = l1 ++ l2 /\ insert_by_z im l = l1 ++ im :: l2 /\
    Forall (fun x => z_le x im) l1 /\ Forall (z_le im) l2.
Proof.
  intros Hs. destruct (z_split l (z_index im) Hs) as (A & B & C & -> & HA & HB & HC).
  rewrite Forall_lookup in HA, HB, HC.
  assert (Hidx : forall i, (length A <= i <= length A + length B)%nat ->
    exists l1 l2, A ++ B ++ C = l1 ++ l2 /\ insert_at i im (A ++ B ++ C) = l1 ++ im :: l2 /\
      Forall (fun x => z_le x im) l1 /\ Forall (z_le im) l2).
  { intros i Hi. exists (A ++ take (i - length A) B), (drop (i - length A) B ++ C).
    unfold insert_at. rewrite take_app_ge, take_app_le, drop_app_ge, drop_app_le by lia.
    rewrite <- !(assoc_L app), (assoc_L app (take _ B)), take_drop.
    do 2 (split; [done|]). rewrite !Forall_app, !Forall_lookup. unfold z_le.
    repeat split; intros j x Hj.
    - specialize (HA j x Hj). lia.
    - rewrite lookup_take_Some in Hj. specialize (HB j x (proj1 Hj)). lia.
    - rewrite lookup_drop in Hj. specialize (HB _ x Hj). lia.
    - specialize (HC j x Hj). lia. }
  unfold insert_by_z. cbv zeta.
  match goal with |- context [binary_search_by ?c _] => set (cmp := c) end.
  pose proof (binary_search_spec cmp (length (A ++ B ++ C)) (length A) (length A + length B)) as Hb.
  rewrite !length_app in Hb. rewrite !length_app.
  assert (Hcmp : forall i x, (A ++ B ++ C) !! i = Some x -> cmp i = Z.compare (z_index x) (z_index im))
    by (intros i x Hi; unfold cmp; by rewrite Hi).
  assert (HinA : forall i, (i < length A)%nat -> cmp i = Lt).
  { intros i Hi. destruct (lookup_lt_is_Some_2 A i Hi) as [x Hx].
    rewrite (Hcmp i x) by by apply lookup_app_l_Some.
    specialize (HA i x Hx). by apply Z.compare_lt_iff. }
  assert (HinB : forall i, (length A <= i < length A + length B)%nat -> cmp i = Eq).
  { intros i Hi. destruct (lookup_lt_is_Some_2 B (i - length A)) as [x Hx]; [lia|].
    rewrite (Hcmp i x) by (rewrite lookup_app_r by lia; by apply lookup_app_l_Some).
    specialize (HB _ x Hx). by apply Z.compare_eq_iff. }
  assert (HinC : forall i, (length A + length B <= i < length A + (length B + length C))%nat ->
    cmp i = Gt).
  { intros i Hi. destruct (lookup_lt_is_Some_2 C (i - length A - length B)) as [x Hx]; [lia|].
    rewrite (Hcmp i x) by (rewrite !lookup_app_r by lia; done).
    specialize (HC _ x Hx). by apply Z.compare_gt_iff. }
  specialize (Hb HinA HinB HinC ltac:(lia)).
  destruct (binary_search_by _ _) as [k|k]; apply Hidx; lia.
Qed.

Lemma spec_op_sorted o s : StronglySorted z_le (s_images s) -> StronglySorted z_le (s_images (spec_op o s)).
Proof.
  destruct s as [f fg bg uc link ims]. cbn. intros Hs.
  destruct o as [[]| | | | | | | | | | |]; cbn; try done.
  - by repeat constructor.
  - destruct (insert_by_z_split im ims Hs) as (l1 & l2 & -> & -> & H1 & H2).
    apply StronglySorted_app in Hs as (Hx & Hs1 & Hs2). apply StronglySorted_app.
    split_and!; [|done|by constructor]. rewrite Forall_forall in H1, H2.
    intros x1 x2 Hx1 [->|Hx2]%elem_of_cons; auto.
  - constructor.
  - induction Hs as [|x l Hs IH Hx]; [constructor|]. cbn. case_match; [|done].
    constructor; [done|]. rewrite Forall_forall in *. intros y Hy. apply Hx.
    apply list_elem_of_In in Hy. apply list_elem_of_In. by apply filter_In in Hy as [].
  - constructor.
  - constructor.
Qed.

(** ** The representation is unique *)

Lemma from_i64_disc {T} `{CEnum T} n (t : T) : from_i64 n = Some t -> disc t = n.
Proof. intros Hf%List.find_some. destruct Hf as [_ Hf]. by apply Z.eqb_eq in Hf. Qed.

Lemma enum_get_inj {T} `{CEnum T} k s a a' (v : T) :
  0 <= k <= 8 -> 0 <= s ->
  enum_get (Z.ones k) s a = Some v -> enum_get (Z.ones k) s a' = Some v ->
  agree s k (attributes a) (attributes a').
Proof.
  intros Hk Hs Ha%from_i64_disc Ha'%from_i64_disc.
  assert (Hsmall : forall w, as_u8 (Z.land w (Z.ones k)) = Z.land w (Z.ones k)).
  { intros w. unfold as_u8. rewrite Z.land_ones by lia. apply Z.mod_small.
    pose proof (Z.mod_pos_bound w (2 ^ k) ltac:(apply Z.pow_pos_nonneg; lia)).
    pose proof (Z.pow_le_mono_r 2 k 8). lia. }
  rewrite Hsmall in Ha, Ha'. intros i Hi.
  assert (H0 : Z.testbit (Z.land (Z.shiftr (attributes a) s) (Z.ones k)) (i - s) =
               Z.testbit (Z.land (Z.shiftr (attributes a') s) (Z.ones k)) (i - s)) by congruence.
  rewrite !Z.land_spec, !Z.shiftr_spec, testbit_ones in H0 by lia.
  rewrite (proj2 (Z.leb_le 0 (i - s))), (proj2 (Z.ltb_lt (i - s) k)), !andb_true_r in H0 by lia.
  by replace (i - s + s) with i in H0 by lia.
Qed.

Lemma flags_word_inj a a' f :
  word_ok (attributes a) -> word_ok (attributes a') -> flags_of a = Some f -> flags_of a' = Some f ->
  attributes a = attributes a'.
Proof.
  intros [H0 Hw] [H0' Hw'] Hf%flags_of_Some Hf'%flags_of_Some.
  destruct Hf as (Fi & Fu & Fb & F7 & F8 & F9 & F10 & F11 & F12 & Fs & Fv).
  destruct Hf' as (Fi' & Fu' & Fb' & F7' & F8' & F9' & F10' & F11' & F12' & Fs' & Fv').
  pose proof (enum_get_inj 2 0 _ _ _ ltac:(lia) ltac:(lia) Fi Fi') as Ai.
  pose proof (enum_get_inj 3 2 _ _ _ ltac:(lia) ltac:(lia) Fu Fu') as Au.
  pose proof (enum_get_inj 2 5 _ _ _ ltac:(lia) ltac:(lia) Fb Fb') as Ab.
  pose proof (enum_get_inj 2 13 _ _ _ ltac:(lia) ltac:(lia) Fs Fs') as As.
  pose proof (enum_get_inj 2 15 _ _ _ ltac:(lia) ltac:(lia) Fv Fv') as Av.
  revert F7 F7' F8 F8' F9 F9' F10 F10' F11 F11' F12 F12'. fields.
  rewrite !bit_get_testbit by lia. intros. apply Z.bits_inj'. intros i Hi.
  destruct (decide (17 <= i)); [by rewrite Hw, Hw'|].
  destruct (decide (i < 2)); [apply Ai; lia|]. destruct (decide (i < 5)); [apply Au; lia|].
  destruct (decide (i < 7)); [apply Ab; lia|]. destruct (decide (15 <= i)); [apply Av; lia|].
  destruct (decide (13 <= i)); [apply As; lia|].
  assert (i = 7 \/ i = 8 \/ i = 9 \/ i = 10 \/ i = 11 \/ i = 12) as Hi' by lia.
  destruct Hi' as [->|[->|[->|[->|[->| ->]]]]]; congruence.
Qed.

Lemma pick_inj c s c' s' :
  color_ok c s -> color_ok c' s' -> pick c s = pick c' s' -> c = c' /\ s = s'.
Proof. destruct c, c', s, s'; cbn; intros; simplify_eq; done. Qed.

Lemma vfat_fat a : attrs_ok a -> fat a = if fat_is_none (vfat a) then None else Some (vfat a).
Proof.
  intros [_ _ _ Hr]. unfold vfat. destruct (fat a) as [f|] eqn:E; [|done].
  cbn. by rewrite (Hr f).
Qed.

Lemma style_inj a a' s : implements a s -> implements a' s -> a = a'.
Proof.
  intros [Ho Hf Hfg Hbg Hu Hh Hi] [Ho' Hf' Hfg' Hbg' Hu' Hh' Hi'].
  destruct (pick_inj _ _ _ _ (ok_foreground _ Ho) (ok_foreground _ Ho')) as [E1 E2]; [congruence|].
  destruct (pick_inj _ _ _ _ (ok_background _ Ho) (ok_background _ Ho')) as [E3 E4]; [congruence|].
  assert (Ev : vfat a = vfat a').
  { destruct (vfat a), (vfat a'); cbn in *. congruence. }
  pose proof (vfat_fat _ Ho) as Ef. pose proof (vfat_fat _ Ho') as Ef'.
  pose proof (flags_word_inj _ _ _ (ok_word _ Ho) (ok_word _ Ho') Hf Hf').
  rewrite Ev in Ef. destruct a, a'; cbn in *. congruence.
Qed.

Definition run_ops (ops : list AttrOp) : CellAttributes :=
  fold_left (fun a o => apply_op o a) ops blank_attrs.
Definition spec_ops (ops : list AttrOp) : Style :=
  fold_left (fun s o => spec_op o s) ops blank_style.

Lemma run_implements ops : implements (run_ops ops) (spec_ops ops).
Proof.
  unfold run_ops, spec_ops. generalize blank_implements.
  generalize blank_attrs, blank_style. induction ops as [|o ops IH]; intros a s Him; [done|].
  cbn [fold_left]. by apply IH, op_implements.
Qed.

Lemma spec_ops_sorted ops : StronglySorted z_le (s_images (spec_ops ops)).
Proof.
  unfold spec_ops. assert (StronglySorted z_le (s_images blank_style)) as Hs by constructor.
  revert Hs. generalize blank_style. induction ops as [|o ops IH]; intros s Hs; [done|].
  cbn [fold_left]. by apply IH, spec_op_sorted.
Qed.

(** C30: the packed attributes implement a plain record of the sixteen values. Whatever
    sequence of setters builds them from blank, no getter transmutes a number that is no discriminant
    and each reports the value of the record; and since a colour has one
    place and an empty record of rare attributes is freed, two sequences give equal attributes
    exactly when they give equal records, so that comparing attributes compares styles. The images
    of a cell are in z-order. *)
Theorem attributes_refine ops :
  style_of (run_ops ops) = Some (spec_ops ops) /\
  StronglySorted (fun x y => z_index x <= z_index y) (s_images (spec_ops ops)) /\
  forall ops', run_ops ops = run_ops ops' <-> spec_ops ops = spec_ops ops'.
Proof.
  pose proof (run_implements ops) as Him. split; [by apply implements_style|].
  split; [apply spec_ops_sorted|]. intros ops'. pose proof (run_implements ops') as Him'. split.
  - intros E. rewrite <- E in Him'.
    apply implements_style in Him as [_ ?], Him' as [_ ?]. congruence.
  - intros E. rewrite <- E in Him'. by apply (style_inj _ _ (spec_ops ops)).
Qed.

(** ** Text *)

Lemma le_word_bound l : Forall is_byte l -> 0 <= le_word l < 2 ^ (8 * Z.of_nat (length l)).
Proof.
  induction 1 as [|b l Hb _ IH]; [cbn; lia|]. cbn [le_word length].
  replace (8 * Z.of_nat (S (length l))) with (8 + 8 * Z.of_nat (length l)) by lia.
  rewrite Z.pow_add_r by lia. unfold is_byte in Hb. lia.
Qed.

(** The first bytes of a word are not affected by what is set above them. *)
Lemma le_bytes_word n l k :
  Forall is_byte l -> (length l <= n)%nat ->
  le_bytes n (le_word l + k * 2 ^ (8 * Z.of_nat n)) = l ++ replicate (n - length l) 0.
Proof.
  revert l k. induction n as [|n IH]; intros l k Hl Hn.
  { destruct l; [done|cbn in Hn; lia]. }
  replace (8 * Z.of_nat (S n)) with (8 * Z.of_nat n + 8) by lia.
  rewrite Z.pow_add_r by lia. cbn [le_bytes]. change (2 ^ 8) with 256.
  destruct l as [|b l].
  - cbn [le_word]. rewrite Z.add_0_l, Z.mul_assoc, Z.mod_mul, Z.div_mul by lia.
    specialize (IH [] k Hl ltac:(cbn; lia)). cbn [le_word] in IH. rewrite Z.add_0_l in IH.
    rewrite IH. cbn. by rewrite Nat.sub_0_r.
  - apply Forall_cons in Hl as [Hb Hl]. unfold is_byte in Hb. cbn [le_word length] in *.
    change (2 ^ 8) with 256.
    replace (b + 256 * le_word l + k * (2 ^ (8 * Z.of_nat n) * 256))
      with (b + (le_word l + k * 2 ^ (8 * Z.of_nat n)) * 256) by lia.
    rewrite Z.mod_add, Z.mod_small, Z.div_add, Z.div_small, Z.add_0_l by lia.
    rewrite IH by (done || lia). done.
Qed.

Lemma before_zero_app l n : Forall (fun b => b <> 0) l -> before_zero (l ++ replicate n 0) = l.
Proof.
  induction 1 as [|b l Hb _ IH]; [by destruct n|]. cbn.
  rewrite (proj2 (Z.eqb_neq b 0)) by done. by rewrite IH.
Qed.

(** The marker is added above the seven bytes. *)
Lemma set_marker_bit_add l w :
  Forall is_byte l -> (length l < 8)%nat ->
  set_marker_bit (le_word l) w = le_word l + (if 1 <? w then 0xc0 else 0x80) * 2 ^ (8 * Z.of_nat 7).
Proof.
  intros Hl Hn. pose proof (le_word_bound l Hl) as Hb.
  assert (2 ^ (8 * Z.of_nat (length l)) <= 2 ^ 56) by (apply Z.pow_le_mono_r; lia).
  unfold set_marker_bit, double_wide_mask, marker_mask. change (8 * Z.of_nat 7) with 56.
  change 0xc000000000000000 with (0xc0 * 2 ^ 56). change 0x8000000000000000 with (0x80 * 2 ^ 56).
  destruct (1 <? w); rewrite lor_disjoint by lia; done.
Qed.

Lemma is_double_width_set l w :
  Forall is_byte l -> (length l < 8)%nat ->
  is_double_width (set_marker_bit (le_word l) w) = (1 <? w).
Proof.
  intros Hl Hn. pose proof (le_word_bound l Hl) as Hb.
  assert (2 ^ (8 * Z.of_nat (length l)) <= 2 ^ 56) by (apply Z.pow_le_mono_r; lia).
  unfold is_double_width, set_marker_bit, double_wide_mask, marker_mask.
  destruct (1 <? w).
  - apply Z.eqb_eq. rewrite Z.land_lor_distr_l, Z.land_diag.
    change 0xc000000000000000 with (0xc0 * 2 ^ 56). by rewrite land_disjoint by lia.
  - apply Z.eqb_neq. intros H0. apply (f_equal (fun z => Z.testbit z 62)) in H0.
    rewrite Z.land_spec, Z.lor_spec in H0.
    assert (Z.testbit (le_word l) 62 = false) as E.
    { rewrite <- (Z.mod_small (le_word l) (2 ^ 56)) by lia. by apply Z.mod_pow2_bits_high. }
    rewrite E in H0. by vm_compute in H0.
Qed.

Section Text.
Context `{CharTables}.

(** A string without NUL bytes, as a [str] of printable text is. *)
Definition plain (s : list Z) : Prop := Forall (fun b => is_byte b /\ b <> 0) s.

Lemma defang_plain s : plain s -> plain (defang s).
Proof.
  intros Hs. assert (plain [32]) by (apply Forall_singleton; unfold is_byte; lia).
  unfold defang. repeat case_match; done.
Qed.

Lemma inline_bytes s w :
  plain s -> (length s < 8)%nat ->
  before_zero (le_bytes 7 (set_marker_bit (le_word s) w)) = s.
Proof.
  intros Hs Hn. assert (Forall is_byte s) by by apply (Forall_impl _ _ _ Hs); intros ? [].
  rewrite set_marker_bit_add by done. rewrite le_bytes_word by (done || lia).
  apply before_zero_app. by apply (Forall_impl _ _ _ Hs); intros ? [].
Qed.

Lemma from_str_bytes s w v : plain s -> ts_as_bytes (from_str s w v) = defang s.
Proof.
  intros Hs%defang_plain. unfold from_str. cbv zeta.
  destruct (length (defang s) <? 8)%nat eqn:En; [|done]. apply Nat.ltb_lt in En.
  destruct w; case_match; by first [apply inline_bytes | done].
Qed.

Lemma defang_idem s : defang (defang s) = defang s.
Proof.
  unfold defang at 2 3. repeat case_match; try done.
  all: unfold defang; repeat case_match; simplify_eq; try done; congruence.
Qed.

(** The width that is stored: an inline string has one or two columns. *)
Definition stored_width (s : list Z) (w : Z) : Z :=
  if (length s <? 8)%nat && (w <? 3) then (if 1 <? w then 2 else 1) else w.

Lemma from_str_width s w v :
  plain s ->
  ts_width (from_str s w v) =
    stored_width (defang s) (default (grapheme_column_width (defang s) v) w).
Proof.
  intros Hs%defang_plain. unfold from_str, stored_width. cbv zeta.
  assert (Forall is_byte (defang s)) by by apply (Forall_impl _ _ _ Hs); intros ? [].
  destruct (length (defang s) <? 8)%nat eqn:En; [|done]. apply Nat.ltb_lt in En.
  change (match w with Some w => w | None => _ end) with (default (grapheme_column_width (defang s) v) w).
  case_match; [|done]. cbn [ts_width andb]. by rewrite is_double_width_set.
Qed.

(** a cell's text is read back as it was stored (control characters as a space), with the
    width it was given, except that eight bytes hold no width but one and two. A clone
    has the same text; its width is the same unless the string is on the heap, when
    it is computed again for the default version of Unicode, whatever
    width it was given. *)
Theorem teeny_string_roundtrip s w v :
  plain s ->
  let t := from_str s w v in
  ts_as_bytes t = defang s /\
  ts_width t = stored_width (defang s) (default (grapheme_column_width (defang s) v) w) /\
  ts_as_bytes (ts_clone t) = defang s /\
  ts_width (ts_clone t) =
    match t with
    | Inline _ => ts_width t
    | Heap _ _ => stored_width (defang s) (grapheme_column_width (defang s) None)
    end.
Proof.
  intros Hs t. assert (Hb : ts_as_bytes t = defang s) by by apply from_str_bytes.
  split; [done|]. split; [by apply from_str_width|].
  destruct t as [word|bytes width] eqn:E; [done|]. cbn [ts_clone ts_as_bytes] in *. subst bytes.
  rewrite from_str_bytes, from_str_width, defang_idem by by apply defang_plain. done.
Qed.
End Text.

(** Tables for the witnesses: the raised fist and what is above the basic plane are emoji. *)
Definition demo_tables : CharTables :=
  {| variation_map _ := None; emoji_presentation c := (c =? 0x270A) || (0xFFFF <? c) |}.

(** A raised fist with three combining accents: one column in Unicode 8, two since. *)
Definition accented_fist : list Z := [0xE2; 0x9C; 0x8A; 0xCC; 0x80; 0xCC; 0x80; 0xCC; 0x80].

Lemma teeny_string_roundtrip_witness :
  plain accented_fist /\
  (let t := @from_str demo_tables accented_fist (Some 1) None in
   ts_as_bytes t = accented_fist /\ ts_width t = 1 /\ ts_width (@ts_clone demo_tables t) = 2).
Proof.
  assert (plain accented_fist) as Hp
    by (unfold plain, accented_fist; repeat (apply Forall_cons; split; [unfold is_byte; lia|]); by apply Forall_nil).
  split; [done|].
  destruct (@teeny_string_roundtrip demo_tables accented_fist (Some 1) None Hp) as (H1 & H2 & _ & H4).
  cbv zeta. rewrite H1, H2, H4. vm_compute. done.
Defined.
