(* ===== verification/Line.v ===== *)
(** A line of the screen: [src/wakterm-surface/src/line/]. A line holds its cells in one of two
    storages: a vector of cells ([vecstorage.rs]), where a wide cell is followed by a blank
    for its second column, or a string with runs of attributes ([clusterline.rs]), which takes
    less memory and can only be appended to. [line.rs] edits either, converting to the
    vector when it must. Columns are [nat]; a function that can panic returns [option].
    The bit set crate, the segmentation of a string for links and the rules' regular expressions
    are classes. *)

From Stdlib Require Import ZArith Lia String.
From S2P Require Import Prelude Color CsiTypes CharWidth Cell.
From stdpp Require Import base numbers list option gmap.
Local Open Scope Z_scope.

(** ** Third-party code *)

(** [fixedbitset::FixedBitSet]. [bs_set] is [set(i, true)], which panics beyond the length. *)
Class BitSet := {
  bitset : Type;
  with_capacity : nat -> bitset;
  grow : nat -> bitset -> bitset;
  bs_set : nat -> bitset -> option bitset;
  contains : bitset -> nat -> bool;
  bs_len : bitset -> nat
}.

Class BitSetLaws `{BitSet} : Prop := {
  capacity_len n : bs_len (with_capacity n) = n;
  capacity_contains n i : contains (with_capacity n) i = false;
  grow_len n b : bs_len (grow n b) = Nat.max n (bs_len b);
  grow_contains n b i : contains (grow n b) i = contains b i;
  set_in_range n b : (n < bs_len b)%nat ->
    exists b', bs_set n b = Some b' /\ bs_len b' = bs_len b /\
      forall i, contains b' i = (i =? n)%nat || contains b i
}.

(** ** Flags of a line: [linebits.rs] *)

Definition NONE : Z := 0.
Definition BIDI_ENABLED : Z := 1.
Definition HAS_HYPERLINK : Z := 2.
Definition SCANNED_IMPLICIT_HYPERLINKS : Z := 4.
Definition HAS_IMPLICIT_HYPERLINKS : Z := 8.
Definition DOUBLE_WIDTH : Z := 16.
Definition DOUBLE_HEIGHT_TOP : Z := 32.
Definition DOUBLE_HEIGHT_BOTTOM : Z := 64.
Definition RTL : Z := 128.
Definition AUTO_DETECT_DIRECTION : Z := 256.
Definition DOUBLE_WIDTH_HEIGHT_MASK : Z :=
  Z.lor (Z.lor DOUBLE_WIDTH DOUBLE_HEIGHT_TOP) DOUBLE_HEIGHT_BOTTOM.

(** What [bitflags] generates; [!f] has the known flags only, which are nine. *)
Definition bits_not (f : Z) : Z := Z.lxor f 0x1FF.
Definition bits_contains (b f : Z) : bool := Z.land b f =? f.
Definition bits_insert (b f : Z) : Z := Z.lor b f.
Definition bits_remove (b f : Z) : Z := Z.land b (bits_not f).
Definition bits_put (b f : Z) (v : bool) : Z := if v then bits_insert b f else bits_remove b f.

(** ** References to cells: [cellref.rs] *)

Inductive CellRef : Set :=
| CellRef_CellRef (idx : nat) (cell : Cell)
| CellRef_ClusterRef (idx : nat) (text : list Z) (width : Z) (attrs : CellAttributes).

Definition ref_index (r : CellRef) : nat :=
  match r with CellRef_CellRef i _ | CellRef_ClusterRef i _ _ _ => i end.
Definition ref_str (r : CellRef) : list Z :=
  match r with CellRef_CellRef _ c => cell_str c | CellRef_ClusterRef _ t _ _ => t end.
Definition ref_width (r : CellRef) : Z :=
  match r with CellRef_CellRef _ c => cell_width c | CellRef_ClusterRef _ _ w _ => w end.
Definition ref_attrs (r : CellRef) : CellAttributes :=
  match r with CellRef_CellRef _ c => attrs c | CellRef_ClusterRef _ _ _ a => a end.

Definition same_contents (a b : CellRef) : bool :=
  bool_decide (ref_str a = ref_str b) && (ref_width a =? ref_width b) &&
  attrs_eqb (ref_attrs a) (ref_attrs b).

(** [rposition], and the last cell. *)
Fixpoint rposition {A} (p : A -> bool) (l : list A) : option nat :=
  match l with
  | [] => None
  | x :: l => match rposition p l with
              | Some i => Some (S i)
              | None => if p x then Some O else None
              end
  end.

Section Storage.
Context `{CharTables} `{Graphemes}.

Definition as_cell (r : CellRef) : Cell :=
  match r with
  | CellRef_CellRef _ c => Cell_clone c
  | CellRef_ClusterRef _ t w a => new_grapheme_with_width t w a
  end.

(** *** [vecstorage.rs] *)

(** [VecStorage::set_cell]; a placed image of the old cell is kept, unless cleared. *)
Definition vec_set_cell (idx : nat) (cell : Cell) (clear_image_placement : bool)
  (cells : list Cell) : option (list Cell) :=
  old ← cells !! idx;
  let cell :=
    if clear_image_placement then cell
    else match images (attrs old) with
         | Some ims =>
             fold_left (fun c im => if has_placement_id im
                                    then set_cell_attrs (attach_image im) c else c) ims cell
         | None => cell
         end in
  Some (<[idx := cell]> cells).

(** [VecStorageIter]. *)
Fixpoint vec_iter (idx skip_width : nat) (cells : list Cell) : list CellRef :=
  match cells with
  | [] => []
  | c :: cells =>
      match skip_width with
      | S k => vec_iter (S idx) k cells
      | O => CellRef_CellRef idx c :: vec_iter (S idx) (Z.to_nat (cell_width c - 1)) cells
      end
  end.

(** *** [clusterline.rs] *)

Record Cluster : Set := mkCluster { cluster_width : Z; cluster_attrs : CellAttributes }.

Context `{BitSet}.

Record ClusteredLine : Type := mkClusteredLine {
  cl_text : list Z;
  is_double_wide : option bitset;
  clusters : list Cluster;
  cl_len : nat;
  last_cell_width : option Z
}.

Definition ClusteredLine_new : ClusteredLine := mkClusteredLine [] None [] O None.

(** [NonZeroU8::new]. *)
Definition nonzero_u8 (z : Z) : option Z := if z =? 0 then None else Some z.

Definition in_wide (wide : option bitset) (idx : nat) : bool :=
  match wide with Some b => contains b idx | None => false end.

(** [ClusteredLine::is_double_wide]. *)
Definition cell_is_double_wide (cl : ClusteredLine) (idx : nat) : bool :=
  in_wide (is_double_wide cl) idx.

(** [ClusterLineCellIter]: the current cluster is the head of the list. *)
Fixpoint cluster_iter (cl : ClusteredLine) (gs : list (list Z)) (cs : list Cluster)
  (idx : nat) (cluster_total : Z) : list CellRef :=
  match gs with
  | [] => []
  | text :: gs =>
      let width := if cell_is_double_wide cl idx then 2 else 1 in
      let total := cluster_total + width in
      match cs with
      | [] => []
      | c :: rest =>
          let '(cs', total') := if cluster_width c <=? total then (rest, 0) else (cs, total) in
          CellRef_ClusterRef idx text width (cluster_attrs c)
            :: cluster_iter cl gs cs' (idx + Z.to_nat width) total'
      end
  end.

Definition cl_iter (cl : ClusteredLine) : list CellRef :=
  cluster_iter cl (graphemes (cl_text cl)) (clusters cl) O 0.

(** One cell, and blanks for its other columns. *)
Definition spread (r : CellRef) : list Cell :=
  as_cell r :: replicate (Z.to_nat (ref_width r - 1)) (blank_with_attrs (ref_attrs r)).

Definition to_cell_vec (cl : ClusteredLine) : list Cell := concat (map spread (cl_iter cl)).

(** The loop of [from_cell_vec]: the run in progress, the bits, the text, the runs
    before it, whether a cell was wide, and the length. A run too long for its
    16 bits is a panic. *)
Record Collect : Type := mkCollect {
  run : option Cluster; wide_bits : bitset; collected : list Z; runs : list Cluster;
  any_double : bool; collected_len : nat; last_width : option Z
}.

Definition collect_cell (st : Collect) (cell : CellRef) : option Collect :=
  let w := ref_width cell in
  bits ← (if 1 <? w then bs_set (ref_index cell) (wide_bits st) else Some (wide_bits st));
  let fresh := mkCluster (as_u16 w) (ref_attrs cell) in
  '(run', runs') ←
    match run st with
    | None => Some (fresh, runs st)
    | Some c =>
        if negb (attrs_eqb (cluster_attrs c) (ref_attrs cell)) then Some (fresh, runs st ++ [c])
        else if cluster_width c + as_u16 w <=? u16_max
             then Some (mkCluster (cluster_width c + as_u16 w) (cluster_attrs c), runs st)
             else None
    end;
  Some (mkCollect (Some run') bits (collected st ++ ref_str cell) runs'
          (any_double st || (1 <? w)) (collected_len st + Z.to_nat w) (nonzero_u8 1)).

Fixpoint collect_cells (st : Collect) (cells : list CellRef) : option Collect :=
  match cells with
  | [] => Some st
  | c :: cells => st ← collect_cell st c; collect_cells st cells
  end.

Definition from_cell_vec (hint : nat) (cells : list CellRef) : option ClusteredLine :=
  st ← collect_cells (mkCollect None (with_capacity hint) [] [] false O None) cells;
  if Z.of_nat (collected_len st) <=? u32_max then
    Some (mkClusteredLine (collected st)
            (if any_double st then Some (wide_bits st) else None)
            (runs st ++ opt_list (run st)) (collected_len st) (last_width st))
  else None.

Definition set_clusters (cs : list Cluster) (cl : ClusteredLine) : ClusteredLine :=
  mkClusteredLine (cl_text cl) (is_double_wide cl) cs (cl_len cl) (last_cell_width cl).
Definition set_last_cell_width (w : option Z) (cl : ClusteredLine) : ClusteredLine :=
  mkClusteredLine (cl_text cl) (is_double_wide cl) (clusters cl) (cl_len cl) w.

(** The last run is extended if the attributes are equal and its 16 bits suffice. *)
Definition extend_clusters (w : Z) (a : CellAttributes) (cs : list Cluster) : list Cluster :=
  match last cs with
  | Some c =>
      if negb (attrs_eqb (cluster_attrs c) a) || (u16_max <? cluster_width c + w)
      then cs ++ [mkCluster w a]
      else removelast cs ++ [mkCluster (cluster_width c + w) (cluster_attrs c)]
  | None => cs ++ [mkCluster w a]
  end.

(** The bit of a wide cell is set, in a bit set that is made or grown. *)
Definition mark_wide (w : Z) (idx : nat) (wide : option bitset) : option (option bitset) :=
  if 1 <? w then
    let b := match wide with
             | Some b => grow (S idx) b
             | None => with_capacity (S idx)
             end in
    b ← bs_set idx b; Some (Some b)
  else Some wide.

(** [append_grapheme]. *)
Definition append_grapheme (text : list Z) (cell_width : Z) (a : CellAttributes)
  (cl : ClusteredLine) : option ClusteredLine :=
  let w := as_u16 cell_width in
  let idx := cl_len cl in
  wide ← mark_wide w idx (is_double_wide cl);
  Some (mkClusteredLine (cl_text cl ++ text) wide (extend_clusters w a (clusters cl))
          (idx + Z.to_nat w) (nonzero_u8 (as_u8 w))).

(** [append]: the same steps for a [Cell]. *)
Definition append (c : Cell) (cl : ClusteredLine) : option ClusteredLine :=
  append_grapheme (cell_str c) (cell_width c) (attrs c) cl.

(** The spaces at the end of a string. *)
Fixpoint leading_spaces (l : list Z) : nat :=
  match l with
  | b :: l => if b =? 32 then S (leading_spaces l) else O
  | [] => O
  end.
Definition trailing_spaces (l : list Z) : nat := leading_spaces (rev l).

(** The loop of [prune_trailing_blanks]; a run or a length below zero is a panic. *)
Fixpoint prune_spaces (n : nat) (pruned : bool) (cl : ClusteredLine)
  : option (ClusteredLine * bool) :=
  match n with
  | O => Some (cl, pruned)
  | S n =>
      match last (clusters cl) with
      | Some c =>
          if negb (attrs_eqb (cluster_attrs c) blank_attrs) then Some (cl, pruned)
          else
            rust_assert ((1 <=? cluster_width c) && (0 <? cl_len cl)%nat);;
            let w := cluster_width c - 1 in
            let cs := removelast (clusters cl) in
            prune_spaces n true
              (mkClusteredLine (removelast (cl_text cl)) (is_double_wide cl)
                 (if w =? 0 then cs else cs ++ [mkCluster w (cluster_attrs c)])
                 (cl_len cl - 1) None)
      | None => prune_spaces n pruned cl
      end
  end.

Definition cl_prune_trailing_blanks (cl : ClusteredLine) : option (ClusteredLine * bool) :=
  match trailing_spaces (cl_text cl) with
  | O => Some (cl, false)
  | n => prune_spaces n false cl
  end.

Definition compute_last_cell_width (cl : ClusteredLine) : ClusteredLine :=
  match last_cell_width cl, last (cl_iter cl) with
  | None, Some r => set_last_cell_width (nonzero_u8 (as_u8 (ref_width r))) cl
  | _, _ => cl
  end.

(** [ClusteredLine::set_last_cell_was_wrapped]. *)
Definition cl_set_wrapped (w : bool) (cl : ClusteredLine) : option ClusteredLine :=
  let cl := compute_last_cell_width cl in
  match last_cell_width cl, last (clusters cl) with
  | Some width, Some c =>
      let a := set_wrapped w (cluster_attrs c) in
      let cs := removelast (clusters cl) in
      if cluster_width c =? width
      then Some (set_clusters (cs ++ [mkCluster (cluster_width c) a]) cl)
      else rust_assert (width <=? cluster_width c);;
           Some (set_clusters (cs ++ [mkCluster (cluster_width c - width) (cluster_attrs c);
                                      mkCluster width a]) cl)
  | _, _ => Some cl
  end.
End Storage.

(** ** Lines: [line.rs] *)

Record ZoneRange : Set := mkZoneRange { zone_type : SemanticType; zone_start : Z; zone_end : Z }.

#[export] Instance ZoneRange_eq_dec : EqDecision ZoneRange.
Proof. solve_decision. Defined.

Inductive DoubleClickRange : Set :=
| DoubleClick_Range (first last : nat)
| DoubleClick_RangeWithWrap (first last : nat).

(** [Direction] and [ParagraphDirectionHint] of [src/bidi]. *)
Inductive Direction : Set := Direction_LeftToRight | Direction_RightToLeft.

#[export] Instance Direction_eq_dec : EqDecision Direction.
Proof. solve_decision. Defined.

Inductive ParagraphDirectionHint : Set :=
| Hint_LeftToRight | Hint_RightToLeft | Hint_AutoLeftToRight | Hint_AutoRightToLeft.

(** [RuleMatch] of [hyperlink.rs]; rules match with regular expressions (a crate), and
    [grapheme_indices] is of another crate than [Graphemes]. *)
Record RuleMatch : Set := mkRuleMatch { match_start : nat; match_end : nat; link : Hyperlink }.

Class HyperlinkRules := {
  Rule : Type;
  match_hyperlinks : list Z -> list Rule -> list RuleMatch;
  grapheme_indices : list Z -> list (nat * list Z)
}.

Section Lines.
Context `{CharTables} `{Graphemes} `{BitSet} `{HyperlinkRules}.

Inductive CellStorage : Type := V (cells : list Cell) | C (cl : ClusteredLine).

Record Line : Type := mkLine {
  storage : CellStorage;
  zones : list ZoneRange;
  seqno : Z;
  line_bits : Z
}.

Definition set_storage (st : CellStorage) (l : Line) : Line :=
  mkLine st (zones l) (seqno l) (line_bits l).
Definition set_bits (b : Z) (l : Line) : Line := mkLine (storage l) (zones l) (seqno l) b.
Definition set_zones (z : list ZoneRange) (l : Line) : Line :=
  mkLine (storage l) z (seqno l) (line_bits l).

Definition from_cells (cells : list Cell) (sq : Z) : Line := mkLine (V cells) [] sq NONE.
Definition with_width_and_cell (width : nat) (cell : Cell) (sq : Z) : Line :=
  from_cells (replicate width (Cell_clone cell)) sq.
Definition Line_new (sq : Z) : Line := mkLine (C ClusteredLine_new) [] sq NONE.
Definition with_width (width : nat) (sq : Z) : Line := from_cells (replicate width Cell_blank) sq.

Definition from_text (s : list Z) (a : CellAttributes) (sq : Z) (v : option UnicodeVersion)
  : Line :=
  from_cells (concat (map (fun sub =>
    let cell := new_grapheme sub a v in
    cell :: replicate (Z.to_nat (cell_width cell - 1)) (Cell_new " "%ch a)) (graphemes s))) sq.

(** *** Reading *)

Definition len (l : Line) : nat :=
  match storage l with V cells => length cells | C cl => cl_len cl end.

Definition visible_cells (l : Line) : list CellRef :=
  match storage l with V cells => vec_iter O O cells | C cl => cl_iter cl end.

Definition get_cell (idx : nat) (l : Line) : option CellRef :=
  List.find (fun r => (ref_index r =? idx)%nat) (visible_cells l).

Definition as_str (l : Line) : list Z :=
  match storage l with
  | V _ => concat (map ref_str (visible_cells l))
  | C cl => cl_text cl
  end.

(** [continue] before the range, [break] after it. *)
Fixpoint in_columns (first last : nat) (rs : list CellRef) : list CellRef :=
  match rs with
  | [] => []
  | r :: rs =>
      if (ref_index r <? first)%nat then in_columns first last rs
      else if (last <=? ref_index r)%nat then []
      else r :: in_columns first last rs
  end.

Definition columns_as_str (first last : nat) (l : Line) : list Z :=
  concat (map ref_str (in_columns first last (visible_cells l))).

Definition columns_as_line (first last : nat) (l : Line) : Line :=
  from_cells (map as_cell (in_columns first last (visible_cells l))) (seqno l).

Definition is_whitespace (l : Line) : bool :=
  forallb (fun r => bool_decide (ref_str r = bs " ")) (visible_cells l).

Definition last_cell_was_wrapped (l : Line) : bool :=
  match last (visible_cells l) with Some r => wrapped (ref_attrs r) | None => false end.

(** The two scans of [compute_double_click_range]. *)
Fixpoint scan_up (is_word : list Z -> bool) (col upper : nat) (rs : list CellRef) : nat :=
  match rs with
  | [] => upper
  | r :: rs =>
      if (ref_index r <? col)%nat then scan_up is_word col upper rs
      else if negb (is_word (ref_str r)) then upper
      else scan_up is_word col (S (ref_index r)) rs
  end.

Fixpoint scan_down (is_word : list Z -> bool) (col lower : nat) (rs : list CellRef) : nat :=
  match rs with
  | [] => lower
  | r :: rs =>
      if (col <? ref_index r)%nat then scan_down is_word col lower rs
      else if negb (is_word (ref_str r)) then lower
      else scan_down is_word col (ref_index r) rs
  end.

Definition compute_double_click_range (col : nat) (is_word : list Z -> bool) (l : Line)
  : DoubleClickRange :=
  if (len l <=? col)%nat then DoubleClick_Range col col
  else
    let cells := visible_cells l in
    let upper := scan_up is_word col col cells in
    let lower := scan_down is_word col col (rev cells) in
    if (lower <? upper)%nat && (len l <=? upper)%nat && last_cell_was_wrapped l
    then DoubleClick_RangeWithWrap lower upper
    else DoubleClick_Range lower upper.

(** *** Sequence numbers and flags *)

Definition SEQ_ZERO : Z := 0.

Definition changed_since (sq : Z) (l : Line) : bool := (seqno l =? SEQ_ZERO) || (sq <? seqno l).

Definition update_last_change_seqno (sq : Z) (l : Line) : Line :=
  mkLine (storage l) (zones l) (Z.max (seqno l) sq) (line_bits l).

Definition is_single_width (l : Line) : bool :=
  Z.land (line_bits l) DOUBLE_WIDTH_HEIGHT_MASK =? NONE.
Definition set_single_width (sq : Z) (l : Line) : Line :=
  update_last_change_seqno sq (set_bits (bits_remove (line_bits l) DOUBLE_WIDTH_HEIGHT_MASK) l).
Definition line_is_double_width (l : Line) : bool :=
  Z.land (line_bits l) DOUBLE_WIDTH_HEIGHT_MASK =? DOUBLE_WIDTH.
Definition set_double_width (sq : Z) (l : Line) : Line :=
  update_last_change_seqno sq
    (set_bits (bits_insert (bits_remove (line_bits l) (Z.lor DOUBLE_HEIGHT_TOP DOUBLE_HEIGHT_BOTTOM))
                 DOUBLE_WIDTH) l).
Definition is_double_height_top (l : Line) : bool :=
  Z.land (line_bits l) DOUBLE_WIDTH_HEIGHT_MASK =? Z.lor DOUBLE_WIDTH DOUBLE_HEIGHT_TOP.
Definition set_double_height_top (sq : Z) (l : Line) : Line :=
  update_last_change_seqno sq
    (set_bits (bits_insert (bits_remove (line_bits l) DOUBLE_HEIGHT_BOTTOM)
                 (Z.lor DOUBLE_WIDTH DOUBLE_HEIGHT_TOP)) l).
Definition is_double_height_bottom (l : Line) : bool :=
  Z.land (line_bits l) DOUBLE_WIDTH_HEIGHT_MASK =? Z.lor DOUBLE_WIDTH DOUBLE_HEIGHT_BOTTOM.
Definition set_double_height_bottom (sq : Z) (l : Line) : Line :=
  update_last_change_seqno sq
    (set_bits (bits_insert (bits_remove (line_bits l) DOUBLE_HEIGHT_TOP)
                 (Z.lor DOUBLE_WIDTH DOUBLE_HEIGHT_BOTTOM)) l).

Definition set_bidi_enabled (enabled : bool) (sq : Z) (l : Line) : Line :=
  update_last_change_seqno sq (set_bits (bits_put (line_bits l) BIDI_ENABLED enabled) l).

Definition set_direction (d : Direction) (auto_detect : bool) (sq : Z) (l : Line) : Line :=
  let b := bits_put (line_bits l) RTL (bool_decide (d = Direction_LeftToRight)) in
  update_last_change_seqno sq (set_bits (bits_put b AUTO_DETECT_DIRECTION auto_detect) l).

Definition set_bidi_info (enabled : bool) (d : ParagraphDirectionHint) (sq : Z) (l : Line) : Line :=
  let b := bits_put (line_bits l) BIDI_ENABLED enabled in
  let '(auto, rtl) := match d with
                      | Hint_AutoRightToLeft => (true, true)
                      | Hint_AutoLeftToRight => (true, false)
                      | Hint_LeftToRight => (false, false)
                      | Hint_RightToLeft => (false, true)
                      end in
  let b := bits_put b AUTO_DETECT_DIRECTION auto in
  update_last_change_seqno sq (set_bits (bits_put b RTL rtl) l).

Definition bidi_info (l : Line) : bool * ParagraphDirectionHint :=
  (bits_contains (line_bits l) BIDI_ENABLED,
   match bits_contains (line_bits l) AUTO_DETECT_DIRECTION, bits_contains (line_bits l) RTL with
   | true, true => Hint_AutoRightToLeft
   | false, true => Hint_RightToLeft
   | true, false => Hint_AutoLeftToRight
   | false, false => Hint_LeftToRight
   end).

Definition has_hyperlink (l : Line) : bool :=
  negb (Z.land (line_bits l) (Z.lor HAS_HYPERLINK HAS_IMPLICIT_HYPERLINKS) =? NONE).

(** *** Conversions between the storages *)

(** [coerce_vec_storage]: the cells as a vector. *)
Definition vec_of (l : Line) : list Cell :=
  match storage l with V cells => cells | C cl => to_cell_vec cl end.

(** Edit the vector. *)
Definition edit_vec (f : list Cell -> option (list Cell)) (l : Line) : option Line :=
  cells ← f (vec_of l); Some (set_storage (V cells) l).

Definition map_vec (f : list Cell -> list Cell) (l : Line) : Line :=
  set_storage (V (f (vec_of l))) l.

Definition compress_for_scrollback (l : Line) : option Line :=
  match storage l with
  | V cells => cl ← from_cell_vec (length cells) (visible_cells l); Some (set_storage (C cl) l)
  | C _ => Some l
  end.

(** *** Zones *)

Definition invalidate_zones (l : Line) : Line := set_zones [] l.

Definition last_non_blank (l : Line) : nat :=
  fold_left (fun n r =>
    if negb (bool_decide (ref_str r = cell_str Cell_blank)) ||
       negb (attrs_eqb (ref_attrs r) (attrs Cell_blank))
    then ref_index r else n) (visible_cells l) (len l).

(** The loop of [compute_zones]: the type of the last cell, the zone in progress and those
    before it. *)
Fixpoint zone_loop (limit : nat) (prev : option SemanticType) (current : option ZoneRange)
  (acc : list ZoneRange) (rs : list CellRef) : option (list ZoneRange) :=
  match rs with
  | [] => Some (acc ++ opt_list current)
  | r :: rs =>
      if (limit <? ref_index r)%nat then Some (acc ++ opt_list current)
      else
        let idx := as_u16 (Z.of_nat (ref_index r)) in
        st ← semantic_type (ref_attrs r);
        if bool_decide (prev = Some st) then
          zone_loop limit (Some st)
            ((fun z => mkZoneRange (zone_type z) (zone_start z) idx) <$> current) acc rs
        else
          rust_assert (idx + 1 <=? u16_max);;
          zone_loop limit (Some st) (Some (mkZoneRange st idx idx)) (acc ++ opt_list current) rs
  end.

Definition compute_zones (l : Line) : option Line :=
  zs ← zone_loop (last_non_blank l) None None [] (visible_cells l); Some (set_zones zs l).

Definition semantic_zone_ranges (l : Line) : option (Line * list ZoneRange) :=
  l ← match zones l with [] => compute_zones l | _ => Some l end; Some (l, zones l).

(** *** Implicit hyperlinks *)

Definition without_implicit_link (c : Cell) : Cell :=
  match hyperlink (attrs c) with
  | Some h => if is_implicit h then new_grapheme (cell_str c) (set_hyperlink None (attrs c)) None else c
  | None => c
  end.

Definition invalidate_implicit_hyperlinks_impl (sq : Z) (l : Line) : Line :=
  let l := map_vec (map without_implicit_link) l in
  update_last_change_seqno sq
    (set_bits (Z.land (line_bits l) (bits_not HAS_IMPLICIT_HYPERLINKS)) l).

Definition invalidate_implicit_hyperlinks (sq : Z) (l : Line) : Line :=
  if Z.land (line_bits l) (Z.lor SCANNED_IMPLICIT_HYPERLINKS HAS_IMPLICIT_HYPERLINKS) =? NONE
  then l
  else
    let l := set_bits (Z.land (line_bits l) (bits_not SCANNED_IMPLICIT_HYPERLINKS)) l in
    if Z.land (line_bits l) HAS_IMPLICIT_HYPERLINKS =? NONE then l
    else invalidate_implicit_hyperlinks_impl sq l.

(** [VecStorage::scan_and_create_hyperlinks]: the matches that contain the
    grapheme's first byte; the first gives its link. *)
Definition apply_matches (byte_idx : nat) (ms : list RuleMatch) (c : Cell) : Cell * bool :=
  fold_left (fun (st : Cell * bool) m =>
    let '(c, matched) := st in
    if (match_start m <=? byte_idx)%nat && (byte_idx <? match_end m)%nat &&
       bool_decide (hyperlink (attrs c) = None)
    then (set_cell_attrs (set_hyperlink (Some (link m))) c, true)
    else (c, matched)) ms (c, false).

Fixpoint scan_graphemes (ms : list RuleMatch) (gs : list (nat * list Z)) (cell_idx : nat)
  (has : bool) (cells : list Cell) : option (list Cell * bool) :=
  match gs with
  | [] => Some (cells, has)
  | (byte_idx, _) :: gs =>
      c ← cells !! cell_idx;
      let '(c, matched) := apply_matches byte_idx ms c in
      scan_graphemes ms gs (cell_idx + Z.to_nat (cell_width c)) (has || matched)
        (<[cell_idx := c]> cells)
  end.

Definition scan_and_create_hyperlinks (rules : list Rule) (l : Line) : option Line :=
  if Z.land (line_bits l) SCANNED_IMPLICIT_HYPERLINKS =? SCANNED_IMPLICIT_HYPERLINKS
  then Some l
  else
    let l := set_bits (Z.land (Z.lor (line_bits l) SCANNED_IMPLICIT_HYPERLINKS)
                         (bits_not HAS_IMPLICIT_HYPERLINKS)) l in
    let line := as_str l in
    match match_hyperlinks line rules with
    | [] => Some l
    | ms =>
        '(cells, has) ← scan_graphemes ms (grapheme_indices line) O false (vec_of l);
        let l := set_storage (V cells) l in
        Some (if has : bool then set_bits (Z.lor (line_bits l) HAS_IMPLICIT_HYPERLINKS) l else l)
    end.

(** *** Editing *)

Definition mark_hyperlink (a : CellAttributes) (l : Line) : Line :=
  match hyperlink a with
  | Some _ => set_bits (Z.lor (line_bits l) HAS_HYPERLINK) l
  | None => l
  end.

(** [Vec::resize_with]. *)
Definition vec_resize (n : nat) (l : list Cell) : list Cell :=
  take n l ++ replicate (n - length l) Cell_blank.

Definition vec_remove (i : nat) (l : list Cell) : option (list Cell) :=
  rust_assert (i <? length l)%nat;; Some (delete i l).

Definition vec_insert (i : nat) (c : Cell) (l : list Cell) : option (list Cell) :=
  rust_assert (i <=? length l)%nat;; Some (insert_at i c l).

(** [invalidate_grapheme_at_or_before]. *)
Definition nerf_before (idx : nat) (cells : list Cell) : option (list Cell) :=
  match idx with
  | O => Some cells
  | S prior =>
      c ← cells !! prior;
      if 1 <? cell_width c then
        foldr (fun i acc => cells ← acc; arr_set cells i (blank_with_attrs (attrs c)))
          (Some cells) (rev (seq prior (Z.to_nat (cell_width c))))
      else Some cells
  end.

(** The implied blanks of a line in runs, up to a column. *)
Fixpoint pad_cluster (n : nat) (cl : ClusteredLine) : option ClusteredLine :=
  match n with
  | O => Some cl
  | S n => cl ← append_grapheme (bs " ") 1 blank_attrs cl; pad_cluster n cl
  end.

(** The part of [set_cell_impl] that works on the vector. *)
Definition vec_place (idx : nat) (cell : Cell) (clear : bool) (cells : list Cell)
  : option (list Cell) :=
  let width := Z.to_nat (Z.max 1 (cell_width cell)) in
  let cells := if (length cells <? idx + width)%nat then vec_resize (idx + width) cells
               else cells in
  cells ← nerf_before idx cells;
  cells ← foldr (fun i acc => cells ← acc;
                   vec_set_cell (idx + i) (blank_with_attrs (attrs cell)) clear cells)
            (Some cells) (rev (seq 1 (width - 1)));
  vec_set_cell idx cell clear cells.

Definition set_cell_impl (idx : nat) (cell : Cell) (clear : bool) (sq : Z) (l : Line)
  : option Line :=
  let l := invalidate_implicit_hyperlinks sq l in
  let l := invalidate_zones l in
  let l := update_last_change_seqno sq l in
  let l := mark_hyperlink (attrs cell) l in
  match storage l with
  | C cl =>
      if (cl_len cl <? idx)%nat && Cell_eqb cell Cell_blank then Some l
      else
        cl ← pad_cluster (idx - cl_len cl) cl;
        if (idx =? cl_len cl)%nat then
          cl ← append cell cl; Some (set_storage (C cl) l)
        else edit_vec (vec_place idx cell clear) (set_storage (C cl) l)
  | V _ => edit_vec (vec_place idx cell clear) l
  end.

Definition set_cell (idx : nat) (cell : Cell) (sq : Z) (l : Line) : option Line :=
  set_cell_impl idx cell false sq l.

Definition set_cell_clearing_image_placements (idx : nat) (cell : Cell) (sq : Z) (l : Line)
  : option Line :=
  set_cell_impl idx cell true sq l.

Definition set_cell_grapheme (idx : nat) (t : list Z) (width : Z) (a : CellAttributes) (sq : Z)
  (l : Line) : option Line :=
  let l := mark_hyperlink a l in
  let slow l := set_cell idx (new_grapheme_with_width t width a) sq l in
  match storage l with
  | C cl =>
      if (cl_len cl <? idx)%nat && bool_decide (t = bs " ") && attrs_eqb a blank_attrs
      then Some l
      else
        cl ← pad_cluster (idx - cl_len cl) cl;
        if (idx =? cl_len cl)%nat then
          cl ← append_grapheme t width a cl;
          Some (update_last_change_seqno sq
                  (invalidate_zones (invalidate_implicit_hyperlinks sq (set_storage (C cl) l))))
        else slow (set_storage (C cl) l)
  | V _ => slow l
  end.

(** [overlay_text_with_attribute]. *)
Fixpoint overlay_graphemes (start : nat) (i : nat) (gs : list (list Z)) (a : CellAttributes)
  (sq : Z) (l : Line) : option Line :=
  match gs with
  | [] => Some l
  | g :: gs =>
      let cell := new_grapheme g a None in
      l ← set_cell (i + start) cell sq l;
      overlay_graphemes (start + Z.to_nat (cell_width cell - 1)) (S i) gs a sq l
  end.

Definition overlay_text_with_attribute (start : nat) (s : list Z) (a : CellAttributes) (sq : Z)
  (l : Line) : option Line :=
  overlay_graphemes start O (graphemes s) a sq l.

(** [changed]: what most edits end with. *)
Definition touch (sq : Z) (l : Line) : Line :=
  invalidate_zones (update_last_change_seqno sq l).

Definition insert_cell (x : nat) (cell : Cell) (right_margin : nat) (sq : Z) (l : Line)
  : option Line :=
  let l := invalidate_implicit_hyperlinks sq l in
  l ← edit_vec (fun cells =>
        cells ← (if (right_margin <=? length cells)%nat
                 then i ← usize_sub right_margin 1; vec_remove i cells
                 else Some cells);
        let cells := if (length cells <=? x)%nat then vec_resize x cells else cells in
        cells ← foldr (fun _ acc => cells ← acc;
                         vec_insert x (blank_with_attrs (attrs cell)) cells)
                  (Some cells) (seq 1 (Z.to_nat (cell_width cell - 1)));
        vec_insert x cell cells) l;
  Some (touch sq l).

Definition erase_cell (x : nat) (sq : Z) (l : Line) : option Line :=
  if (len l <=? x)%nat then Some l
  else
    let l := invalidate_implicit_hyperlinks sq l in
    l ← edit_vec (fun cells => cells ← nerf_before x cells;
                    cells ← vec_remove x cells; Some (cells ++ [Cell_blank])) l;
    Some (touch sq l).

Definition remove_cell (x : nat) (sq : Z) (l : Line) : option Line :=
  if (len l <=? x)%nat then Some l
  else
    let l := invalidate_implicit_hyperlinks sq l in
    l ← edit_vec (fun cells => cells ← nerf_before x cells; vec_remove x cells) l;
    Some (touch sq l).

Definition erase_cell_with_margin (x right_margin : nat) (sq : Z) (blank : CellAttributes)
  (l : Line) : option Line :=
  let l := invalidate_implicit_hyperlinks sq l in
  l ← (if (x <? len l)%nat
       then edit_vec (fun cells => cells ← nerf_before x cells; vec_remove x cells) l
       else Some l);
  l ← (if (right_margin <=? len l + 1)%nat
       then edit_vec (fun cells => i ← usize_sub right_margin 1;
                        vec_insert i (blank_with_attrs blank) cells) l
       else Some l);
  Some (touch sq l).

Definition prune_trailing_blanks (sq : Z) (l : Line) : option Line :=
  match storage l with
  | C cl =>
      '(cl, pruned) ← cl_prune_trailing_blanks cl;
      let l := set_storage (C cl) l in
      Some (if pruned : bool then touch sq l else l)
  | V cells =>
      match rposition (fun c => negb (bool_decide (cell_str c = bs " ")) ||
                                negb (attrs_eqb (attrs c) blank_attrs)) cells with
      | Some i => Some (touch sq (set_storage (V (vec_resize (S i) cells)) l))
      | None => Some l
      end
  end.

Fixpoint fill_cells (cols : list nat) (cell : Cell) (sq : Z) (l : Line) : option Line :=
  match cols with
  | [] => Some l
  | x :: cols => l ← set_cell_impl x (Cell_clone cell) true sq l; fill_cells cols cell sq l
  end.

(** [fill_range]: columns [first .. last]. *)
Definition fill_range (first last : nat) (cell : Cell) (sq : Z) (l : Line) : option Line :=
  if (len l =? 0)%nat && Cell_eqb cell Cell_blank then Some l
  else l ← fill_cells (seq first (last - first)) cell sq l; prune_trailing_blanks sq l.

Definition resize (width : nat) (sq : Z) (l : Line) : Line :=
  touch sq (map_vec (vec_resize width) l).

Definition resize_and_clear (width : nat) (sq : Z) (blank : CellAttributes) (l : Line) : Line :=
  set_bits NONE (touch sq (map_vec (fun cells =>
    let cells := map (fun _ => blank_with_attrs blank) cells in
    take width cells ++ replicate (width - length cells) (blank_with_attrs blank)) l)).

Definition set_last_cell_was_wrapped (w : bool) (sq : Z) (l : Line) : option Line :=
  let l := update_last_change_seqno sq l in
  match storage l with
  | C cl =>
      cl ← (if (cl_len cl =? 0)%nat then append Cell_blank cl else Some cl);
      cl ← cl_set_wrapped w cl; Some (set_storage (C cl) l)
  | V cells =>
      Some (match last cells with
            | Some c => set_storage (V (removelast cells ++ [set_cell_attrs (set_wrapped w) c])) l
            | None => l
            end)
  end.

Definition from_text_with_wrapped_last_col (s : list Z) (a : CellAttributes) (sq : Z) : Line :=
  map_vec (fun cells => match last cells with
                        | Some c => removelast cells ++ [set_cell_attrs (set_wrapped true) c]
                        | None => cells
                        end) (from_text s a sq None).

(** The cells of another line, as they are pushed by [append_line]. *)
Definition push_cells (r : CellRef) : list Cell :=
  as_cell r :: replicate (Z.to_nat (ref_width r - 1)) (Cell_new " "%ch (ref_attrs r)).

Fixpoint append_cells (rs : list CellRef) (cl : ClusteredLine) : option ClusteredLine :=
  match rs with
  | [] => Some cl
  | r :: rs => cl ← append (as_cell r) cl; append_cells rs cl
  end.

Definition append_line (other : Line) (sq : Z) (l : Line) : option Line :=
  l ← match storage l with
      | V cells =>
          Some (set_storage (V (cells ++ concat (map push_cells (visible_cells other)))) l)
      | C cl => cl ← append_cells (visible_cells other) cl; Some (set_storage (C cl) l)
      end;
  Some (touch sq l).

(** [split_off]: the line before the column, and the new line from it on. *)
Definition split_off (idx : nat) (sq : Z) (l : Line) : Line * Line :=
  let cells := vec_of l in
  let idx := Nat.min idx (length cells) in
  (set_storage (V (take idx cells)) l, mkLine (V (drop idx cells)) [] sq (line_bits l)).

(** The loop of [wrap]: the lines before the one in progress, that one, and the column at which
    it starts. *)
Fixpoint wrap_cells (width : nat) (sq : Z) (acc : list Line) (current : option Line)
  (delta : nat) (rs : list CellRef) : option (list Line) :=
  match rs with
  | [] => Some (acc ++ opt_list current)
  | r :: rs =>
      '(acc, line, delta) ←
        match current with
        | Some line =>
            if (width <? len line + Z.to_nat (ref_width r))%nat then
              line ← set_last_cell_was_wrapped true sq line;
              Some (acc ++ [line], Line_new sq, ref_index r)
            else Some (acc, line, delta)
        | None => Some (acc, Line_new sq, ref_index r)
        end;
      line ← set_cell_grapheme (ref_index r - delta) (ref_str r) (ref_width r) (ref_attrs r) sq line;
      wrap_cells width sq acc (Some line) delta rs
  end.

Definition wrap (width : nat) (sq : Z) (l : Line) : option (list Line) :=
  let cells := visible_cells l in
  match rposition (fun r => negb (bool_decide (ref_str r = bs " "))) cells with
  | Some end_idx => wrap_cells width sq [] None O (take (S end_idx) cells)
  | None => Some [l]
  end.

(** *** Links over several lines: [apply_hyperlink_rules] *)

Definition Line_clone (l : Line) : Line :=
  match storage l with
  | V cells => set_storage (V (map Cell_clone cells)) l
  | C _ => l
  end.

Fixpoint join_lines (logical : Line) (rest : list Line) : option Line :=
  match rest with
  | [] => Some logical
  | line :: rest =>
      logical ← append_line (Line_clone line) (Z.max (seqno logical) (seqno line)) logical;
      join_lines logical rest
  end.

(** The physical lines are cut out of the logical one again, by their lengths. *)
Fixpoint cut_lines (sq : Z) (logical : Line) (lines : list Line) : option (list Line) :=
  match lines with
  | [] => Some []
  | phys :: lines =>
      let '(cut, rest) := split_off (len phys) sq logical in
      cut ← set_last_cell_was_wrapped (last_cell_was_wrapped phys) sq cut;
      cut ← match storage phys with C _ => compress_for_scrollback cut | V _ => Some cut end;
      lines ← cut_lines sq rest lines;
      Some (cut :: lines)
  end.

Definition apply_hyperlink_rules (rules : list Rule) (logical_line : list Line)
  : option (list Line) :=
  match rules, logical_line with
  | [], _ | _, [] => Some logical_line
  | _, first :: rest =>
      if forallb (fun l => bits_contains (line_bits l) SCANNED_IMPLICIT_HYPERLINKS) logical_line
      then Some logical_line
      else
        logical ← join_lines (Line_clone first) rest;
        let sq := seqno logical in
        logical ← scan_and_create_hyperlinks rules (invalidate_implicit_hyperlinks sq logical);
        if negb (has_hyperlink logical) then
          Some (map (fun l => set_bits (bits_put (line_bits l) SCANNED_IMPLICIT_HYPERLINKS true) l)
                  logical_line)
        else cut_lines sq logical logical_line
  end.
End Lines.
