(* ===== verification/LineProps.v ===== *)
(** Theorems on lines: both storages show the same cells, wrapping a line and joining the pieces
    again keeps its cells, and what an edit of a cell does. *)

From Stdlib Require Import ZArith Lia String.
From S2P Require Import Prelude Color CsiTypes CharWidth Cell CellProps Line.
From stdpp Require Import base numbers list option gmap.
Local Open Scope Z_scope.

(** ** Cells up to equality of attributes *)

(** Runs merge attributes that [==] identifies, which is finer than identity for
    a zero of either sign only, and a NaN is merged with nothing. *)
Definition attrs_same (a b : CellAttributes) : Prop := a = b \/ attrs_eqb a b = true.

Lemma attrs_same_set_wrapped w a b :
  attrs_same a b -> attrs_same (set_wrapped w a) (set_wrapped w b).
Proof.
  intros [->|E]; [by left|]. right. unfold attrs_eqb in *.
  rewrite !andb_true_iff in *. destruct E as [[[Ew ?] ?] ?]. split_and!; try done.
  apply Z.eqb_eq in Ew. apply Z.eqb_eq. unfold set_wrapped, bit_set. cbn. by rewrite Ew.
Qed.

Lemma attrs_same_wrapped a b : attrs_same a b -> wrapped a = wrapped b.
Proof.
  intros [->|E]; [done|]. unfold attrs_eqb in E. rewrite !andb_true_iff in E.
  destruct E as [[[Ew%Z.eqb_eq _] _] _]. unfold wrapped, bit_get. by rewrite Ew.
Qed.

(** The same text, width and attributes; and also the same column. *)
Definition content_same (r r' : CellRef) : Prop :=
  ref_str r = ref_str r' /\ ref_width r = ref_width r' /\ attrs_same (ref_attrs r) (ref_attrs r').
Definition ref_same (r r' : CellRef) : Prop := ref_index r = ref_index r' /\ content_same r r'.

(** The same cell, in either form. *)
Definition ref_eq (r r' : CellRef) : Prop :=
  ref_index r = ref_index r' /\ ref_str r = ref_str r' /\ ref_width r = ref_width r' /\
  ref_attrs r = ref_attrs r'.

Lemma ref_eq_same r r' r'' : ref_eq r r' -> ref_same r' r'' -> ref_same r r''.
Proof. unfold ref_eq, ref_same, content_same. intros (-> & -> & -> & ->). done. Qed.

Lemma Forall2_ref_eq_same rs rs' rs'' :
  Forall2 ref_eq rs rs' -> Forall2 ref_same rs' rs'' -> Forall2 ref_same rs rs''.
Proof.
  intros H12. revert rs''. induction H12 as [|r r' rs rs' Hr _ IH]; intros rs'' H23.
  - by apply Forall2_nil_inv_l in H23 as ->.
  - apply Forall2_cons_inv_l in H23 as (r'' & k & Hr' & Hk & ->).
    constructor; [by eapply ref_eq_same|by apply IH].
Qed.

(** ** Sequences of cells *)

(** A cell has one or two columns. *)
Definition narrow (r : CellRef) : Prop := ref_width r = 1 \/ ref_width r = 2.

Definition cols (r : CellRef) : nat := Z.to_nat (ref_width r).
Definition total_cols (rs : list CellRef) : nat := sum_list_with cols rs.

(** Each cell starts where the one before it ends. *)
Fixpoint indexed (i : nat) (rs : list CellRef) : Prop :=
  match rs with
  | [] => True
  | r :: rs => ref_index r = i /\ indexed (i + cols r) rs
  end.

Lemma indexed_app i rs rs' :
  indexed i (rs ++ rs') <-> indexed i rs /\ indexed (i + total_cols rs) rs'.
Proof.
  revert i. induction rs as [|r rs IH]; intros i; cbn.
  - by rewrite Nat.add_0_r, (left_id True _).
  - rewrite IH, (assoc and). unfold total_cols, cols. cbn. by rewrite Nat.add_assoc.
Qed.

Lemma total_cols_app rs rs' : total_cols (rs ++ rs') = (total_cols rs + total_cols rs')%nat.
Proof. apply sum_list_with_app. Qed.

Lemma narrow_cols r : narrow r -> (cols r = 1 \/ cols r = 2)%nat /\ Z.of_nat (cols r) = ref_width r.
Proof. unfold narrow, cols. lia. Qed.

Lemma indexed_lt i rs r :
  Forall narrow rs -> indexed i rs -> r ∈ rs -> (i <= ref_index r < i + total_cols rs)%nat.
Proof.
  revert i. induction rs as [|r0 rs IH]; intros i Hn Hi Hr; [by apply elem_of_nil in Hr|].
  apply Forall_cons in Hn as [H0 Hn]. destruct Hi as [E Hi].
  pose proof (narrow_cols _ H0). unfold total_cols in *. cbn.
  apply elem_of_cons in Hr as [->|Hr]; [lia|]. specialize (IH _ Hn Hi Hr). lia.
Qed.

Lemma indexed_inj i rs r r' :
  Forall narrow rs -> indexed i rs -> r ∈ rs -> r' ∈ rs -> ref_index r = ref_index r' -> r = r'.
Proof.
  revert i. induction rs as [|r0 rs IH]; intros i Hn Hi Hr Hr' E; [by apply elem_of_nil in Hr|].
  apply Forall_cons in Hn as [H0 Hn]. destruct Hi as [E0 Hi]. pose proof (narrow_cols _ H0).
  apply elem_of_cons in Hr, Hr'. destruct Hr as [->|Hr], Hr' as [->|Hr']; [done|..|by eapply IH].
  - pose proof (indexed_lt _ _ _ Hn Hi Hr'). lia.
  - pose proof (indexed_lt _ _ _ Hn Hi Hr). lia.
Qed.

(** The visible cells of a vector of cells that have a width. *)
Lemma vec_iter_indexed i k cells :
  Forall (fun c => 1 <= cell_width c) cells -> indexed (i + k) (vec_iter i k cells).
Proof.
  intros Hc. revert i k. induction Hc as [|c cells Hw Hc IH]; intros i k; [done|].
  destruct k as [|k]; cbn.
  - split; [lia|]. unfold cols. cbn. specialize (IH (S i) (Z.to_nat (cell_width c - 1))).
    by replace (i + 0 + Z.to_nat (cell_width c))%nat
      with (S i + Z.to_nat (cell_width c - 1))%nat by lia.
  - specialize (IH (S i) k). by replace (i + S k)%nat with (S i + k)%nat by lia.
Qed.

Lemma vec_iter_lt i k cells r :
  r ∈ vec_iter i k cells -> (ref_index r < i + length cells)%nat.
Proof.
  revert i k. induction cells as [|c cells IH]; intros i k Hr; [by apply elem_of_nil in Hr|].
  destruct k as [|k]; cbn in Hr.
  - apply elem_of_cons in Hr as [->|Hr]; [cbn; lia|]. specialize (IH _ _ Hr). cbn. lia.
  - specialize (IH _ _ Hr). cbn. lia.
Qed.

Lemma vec_iter_Forall (P : Cell -> Prop) i k cells :
  Forall P cells ->
  Forall (fun r => exists j c, r = CellRef_CellRef j c /\ P c) (vec_iter i k cells).
Proof.
  intros HP. revert i k. induction HP as [|c cells Hc _ IH]; intros i k; [constructor|].
  destruct k; cbn; [constructor; eauto|apply IH].
Qed.

(** ** Runs of attributes *)

Definition total_width (rs : list CellRef) : Z := foldr (fun r n => ref_width r + n) 0 rs.

Lemma total_width_app rs rs' : total_width (rs ++ rs') = total_width rs + total_width rs'.
Proof. unfold total_width. induction rs as [|r rs IH]; cbn in *; lia. Qed.

Lemma total_width_cols rs : Forall narrow rs -> total_width rs = Z.of_nat (total_cols rs).
Proof.
  induction 1 as [|r rs Hr _ IH]; [done|]. destruct (narrow_cols _ Hr) as [_ Hw].
  unfold total_cols in *. cbn [sum_list_with foldr]. rewrite Nat2Z.inj_add, <- IH, Hw. done.
Qed.

(** The runs cover the cells: each has the width and the attributes of a group. *)
Inductive covers : list Cluster -> list CellRef -> Prop :=
| covers_nil : covers [] []
| covers_cons c g cs rs :
    g <> [] -> cluster_width c = total_width g ->
    Forall (fun r => attrs_same (cluster_attrs c) (ref_attrs r)) g ->
    covers cs rs -> covers (c :: cs) (g ++ rs).

Lemma covers_single c g :
  g <> [] -> cluster_width c = total_width g ->
  Forall (fun r => attrs_same (cluster_attrs c) (ref_attrs r)) g -> covers [c] g.
Proof.
  intros. rewrite <- (app_nil_r g). apply covers_cons; try done. constructor.
Qed.

Lemma runs_cover_app cs cs' rs rs' : covers cs rs -> covers cs' rs' -> covers (cs ++ cs') (rs ++ rs').
Proof.
  induction 1 as [|c g cs rs Hg Hw Ha _ IH]; intros Hc; [done|].
  cbn. rewrite <- (assoc_L app). apply covers_cons; auto.
Qed.

Lemma covers_app_inv cs cs' rs :
  covers (cs ++ cs') rs -> exists r1 r2, rs = r1 ++ r2 /\ covers cs r1 /\ covers cs' r2.
Proof.
  revert rs. induction cs as [|c cs IH]; intros rs Hc; cbn in Hc.
  - exists [], rs. by repeat split; [constructor|].
  - inversion Hc as [|c' g cs0 rs0 Hg Hw Ha Hc']; subst.
    destruct (IH _ Hc') as (r1 & r2 & -> & H1 & H2).
    exists (g ++ r1), r2. split; [by rewrite (assoc_L app)|]. split; [by apply covers_cons|done].
Qed.

Lemma covers_snoc_inv cs c rs :
  covers (cs ++ [c]) rs ->
  exists r1 g, rs = r1 ++ g /\ covers cs r1 /\ g <> [] /\ cluster_width c = total_width g /\
    Forall (fun r => attrs_same (cluster_attrs c) (ref_attrs r)) g.
Proof.
  intros (r1 & r2 & -> & H1 & H2)%covers_app_inv. exists r1, r2.
  inversion H2 as [|c' g cs0 rs0 Hg Hw Ha Hc']; subst. inversion Hc'; subst.
  by rewrite app_nil_r.
Qed.

Lemma snoc_or_nil {A} (l : list A) : l = [] \/ exists k x, l = k ++ [x].
Proof. destruct l as [|x l] using rev_ind; eauto. Qed.

Lemma removelast_snoc {A} (l : list A) x : removelast (l ++ [x]) = l.
Proof. apply removelast_last. Qed.

Lemma covers_extend cs rs r w a :
  covers cs rs -> ref_width r = w -> ref_attrs r = a ->
  covers (extend_clusters w a cs) (rs ++ [r]).
Proof.
  intros Hc Hw Ha. unfold extend_clusters.
  assert (Hnew : covers [mkCluster w a] [r]).
  { apply covers_single; cbn; [done|lia|]. apply Forall_singleton. left. by rewrite Ha. }
  destruct (snoc_or_nil cs) as [->|(cs0 & c & ->)]; [by apply runs_cover_app|].
  rewrite last_snoc. case_match eqn:E; [by apply runs_cover_app|].
  apply orb_false_elim in E as [E%negb_false_iff _]. rewrite removelast_snoc.
  apply covers_snoc_inv in Hc as (r1 & g & -> & H1 & Hg & Hcw & Hca).
  rewrite <- (assoc_L app). apply runs_cover_app; [done|]. apply covers_single; cbn.
  - by destruct g.
  - rewrite total_width_app. cbn. lia.
  - apply Forall_app. split; [done|]. apply Forall_singleton. right. by rewrite Ha.
Qed.

(** ** What the string storage represents *)

Section Representation.
Context `{CharTables} `{Graphemes} `{BitSet} `{!BitSetLaws}.

Record represents (cl : ClusteredLine) (rs : list CellRef) : Prop := {
  rep_text : cl_text cl = concat (map ref_str rs);
  rep_wide : forall i, cell_is_double_wide cl i = true <->
                       exists r, r ∈ rs /\ ref_index r = i /\ ref_width r = 2;
  rep_clusters : covers (clusters cl) rs;
  rep_len : cl_len cl = total_cols rs;
  rep_indexed : indexed 0 rs;
  rep_narrow : Forall narrow rs
}.

Lemma represents_new : represents ClusteredLine_new [].
Proof.
  split; try done; [|exact covers_nil].
  intros i. split; [done|]. intros (r & Hr & _). by apply elem_of_nil in Hr.
Qed.

Lemma narrow_u16 w : w = 1 \/ w = 2 -> as_u16 w = w /\ as_u8 w = w /\ nonzero_u8 w = Some w.
Proof. intros [-> | ->]; done. Qed.

Lemma mark_wide_spec w idx wide :
  exists wide', mark_wide w idx wide = Some wide' /\
    forall i, in_wide wide' i = (1 <? w) && (i =? idx)%nat || in_wide wide i.
Proof.
  unfold mark_wide. destruct (1 <? w); [|by exists wide]. cbv zeta.
  set (b0 := match wide with Some b => grow _ b | None => _ end).
  assert (Hb0 : (idx < bs_len b0)%nat /\ forall i, contains b0 i = in_wide wide i).
  { unfold b0, in_wide. destruct wide as [b|].
    - rewrite grow_len. split; [lia|]. intros i. apply grow_contains.
    - rewrite capacity_len. split; [lia|]. intros i. apply capacity_contains. }
  destruct Hb0 as [Hlen Hcont]. destruct (set_in_range _ _ Hlen) as (b' & Hset & _ & Hb').
  exists (Some b'). rewrite Hset. split; [done|]. intros i. cbn. by rewrite Hb', Hcont.
Qed.

(** The bits and the cells agree on one more cell. *)
Lemma wide_snoc (p p' : nat -> bool) rs r :
  (forall i, p i = true <-> exists r, r ∈ rs /\ ref_index r = i /\ ref_width r = 2) ->
  narrow r -> (forall i, p' i = (1 <? ref_width r) && (i =? ref_index r)%nat || p i) ->
  forall i, p' i = true <-> exists r', r' ∈ rs ++ [r] /\ ref_index r' = i /\ ref_width r' = 2.
Proof.
  intros Hp Hr Hp' i. rewrite Hp', orb_true_iff, andb_true_iff, Hp, Z.ltb_lt, Nat.eqb_eq. split.
  - intros [[Hw Hi]|(r' & Hin & Hri)].
    + exists r. rewrite elem_of_app, list_elem_of_singleton. unfold narrow in Hr. intuition lia.
    + exists r'. rewrite elem_of_app. tauto.
  - intros (r' & [Hin|Hin]%elem_of_app & Hri & Hrw); [right; eauto|].
    apply list_elem_of_singleton in Hin as ->. left. lia.
Qed.

(** Appending a cell. *)
Lemma append_represents cl rs t w a :
  represents cl rs -> w = 1 \/ w = 2 ->
  exists cl', append_grapheme t w a cl = Some cl' /\
    represents cl' (rs ++ [CellRef_ClusterRef (cl_len cl) t w a]) /\ last_cell_width cl' = Some w.
Proof.
  intros [Ht Hwide Hc Hl Hi Hn] Hw. unfold append_grapheme.
  destruct (narrow_u16 w Hw) as (-> & -> & ->). cbv zeta.
  destruct (mark_wide_spec w (cl_len cl) (is_double_wide cl)) as (wide & -> & Hbits).
  cbn [mbind option_bind]. eexists. split; [done|].
  split; [|done]. set (r := CellRef_ClusterRef (cl_len cl) t w a). split; cbn.
  - rewrite map_app, concat_app, Ht. cbn. by rewrite app_nil_r.
  - by apply (wide_snoc (cell_is_double_wide cl)).
  - by apply covers_extend.
  - rewrite total_cols_app, Hl. unfold total_cols, cols. cbn. lia.
  - apply indexed_app. split; [done|]. cbn. by rewrite Hl.
  - apply Forall_app. split; [done|]. by apply Forall_singleton.
Qed.

(** Reading the cells of one run, and of all. *)
Lemma cluster_iter_run cl c cs g rs idx t :
  (forall idx, indexed idx rs ->
     Forall2 ref_same (cluster_iter cl (map ref_str rs) cs idx 0) rs) ->
  g <> [] -> cluster_width c = t + total_width g ->
  Forall (fun r => attrs_same (cluster_attrs c) (ref_attrs r)) g -> Forall narrow g ->
  (forall r, r ∈ g -> cell_is_double_wide cl (ref_index r) = (1 <? ref_width r)) ->
  indexed idx (g ++ rs) ->
  Forall2 ref_same (cluster_iter cl (map ref_str (g ++ rs)) (c :: cs) idx t) (g ++ rs).
Proof.
  intros Hrs. revert idx t. induction g as [|r g IH]; intros idx t Hg Hw Ha Hn Hd Hi; [done|].
  apply Forall_cons in Ha as [Har Ha]. apply Forall_cons in Hn as [Hnr Hn].
  destruct Hi as [Hir Hi]. pose proof (Hd r ltac:(left)) as Hdr. rewrite Hir in Hdr.
  assert (Hwr : (if cell_is_double_wide cl idx then 2 else 1) = ref_width r).
  { rewrite Hdr. destruct (Z.ltb_spec 1 (ref_width r)), Hnr; lia. }
  cbn [app map cluster_iter]. rewrite Hwr. unfold total_width in Hw. cbn in Hw. fold (total_width g) in Hw.
  assert (Hr : ref_same (CellRef_ClusterRef idx (ref_str r) (ref_width r) (cluster_attrs c)) r)
    by (by repeat split).
  destruct g as [|r' g].
  - cbn in Hw. rewrite (proj2 (Z.leb_le _ _)) by lia. constructor; [done|]. by apply Hrs.
  - assert (0 < total_width (r' :: g)).
    { pose proof (total_width_cols _ Hn). apply Forall_cons in Hn as [Hn' _].
      destruct (narrow_cols _ Hn'). unfold total_cols in *. cbn in *. lia. }
    rewrite (proj2 (Z.leb_gt _ _)) by lia. constructor; [done|].
    apply IH; try done; [lia|]. intros r0 Hr0. apply Hd. by right.
Qed.

Lemma cluster_iter_covers cl cs rs idx :
  covers cs rs -> Forall narrow rs ->
  (forall r, r ∈ rs -> cell_is_double_wide cl (ref_index r) = (1 <? ref_width r)) ->
  indexed idx rs -> Forall2 ref_same (cluster_iter cl (map ref_str rs) cs idx 0) rs.
Proof.
  intros Hc. revert idx. induction Hc as [|c g cs rs Hg Hw Ha Hc IH]; intros idx Hn Hd Hi; [constructor|].
  apply Forall_app in Hn as [Hng Hn]. apply cluster_iter_run; try done.
  - intros idx' Hi'. apply IH; try done. intros r Hr. apply Hd. apply elem_of_app. by right.
  - intros r Hr. apply Hd. apply elem_of_app. by left.
Qed.

(** The cells are read back, if the text is segmented as it was put together. *)
Lemma iter_represents cl rs :
  represents cl rs -> graphemes (concat (map ref_str rs)) = map ref_str rs ->
  Forall2 ref_same (cl_iter cl) rs.
Proof.
  intros [Ht Hwide Hc Hl Hi Hn] Hg. unfold cl_iter. rewrite Ht, Hg.
  apply cluster_iter_covers; try done. intros r Hr. apply eq_true_iff_eq. rewrite Hwide, Z.ltb_lt.
  assert (narrow r) as Hnr by (rewrite Forall_forall in Hn; auto). split.
  - intros (r' & Hr' & E & Hw). assert (r' = r) as -> by by eapply (indexed_inj 0). lia.
  - intros Hw. exists r. unfold narrow in Hnr. intuition lia.
Qed.

(** *** Collecting the cells of a vector *)

Record collecting (hint : nat) (st : Collect) (rs : list CellRef) : Prop := {
  col_text : collected st = concat (map ref_str rs);
  col_wide : forall i, contains (wide_bits st) i = true <->
                       exists r, r ∈ rs /\ ref_index r = i /\ ref_width r = 2;
  col_any : any_double st = false -> Forall (fun r => ref_width r = 1) rs;
  col_runs : covers (runs st ++ opt_list (run st)) rs;
  col_total : collected_len st = total_cols rs;
  col_bits : bs_len (wide_bits st) = hint
}.

Lemma total_width_pos rs : Forall narrow rs -> 0 <= total_width rs.
Proof. intros Hn. rewrite total_width_cols by done. lia. Qed.

(** The runs after one more cell. *)
Lemma run_step cs c rs r :
  covers (cs ++ opt_list c) rs -> narrow r -> Forall narrow rs ->
  total_width (rs ++ [r]) <= u16_max ->
  exists c' cs',
    match c with
    | None => Some (mkCluster (ref_width r) (ref_attrs r), cs)
    | Some c =>
        if negb (attrs_eqb (cluster_attrs c) (ref_attrs r))
        then Some (mkCluster (ref_width r) (ref_attrs r), cs ++ [c])
        else if cluster_width c + ref_width r <=? u16_max
             then Some (mkCluster (cluster_width c + ref_width r) (cluster_attrs c), cs)
             else None
    end = Some (c', cs') /\ covers (cs' ++ [c']) (rs ++ [r]).
Proof.
  intros Hc Hr Hn Ht. set (fresh := mkCluster (ref_width r) (ref_attrs r)).
  assert (Hnew : covers [fresh] [r])
    by (apply covers_single; cbn; [done|lia|apply Forall_singleton; by left]).
  destruct c as [c|]; cbn in Hc.
  - destruct (attrs_eqb (cluster_attrs c) (ref_attrs r)) eqn:E; cbn [negb].
    + apply covers_snoc_inv in Hc as (r1 & g & -> & Hr1 & Hg & Hcw & Hca).
      apply Forall_app in Hn as [Hn1 Hng]. pose proof (total_width_pos _ Hn1).
      rewrite !total_width_app in Ht. cbn in Ht.
      rewrite (proj2 (Z.leb_le _ _)) by lia. eexists _, _. split; [done|].
      rewrite <- (assoc_L app). apply runs_cover_app; [done|]. apply covers_single; cbn.
      * by destruct g.
      * rewrite total_width_app. cbn. lia.
      * apply Forall_app. split; [done|]. apply Forall_singleton. by right.
    + eexists _, _. split; [done|]. by apply runs_cover_app.
  - rewrite app_nil_r in Hc. eexists _, _. split; [done|]. by apply runs_cover_app.
Qed.

Lemma collect_cell_step hint st rs r :
  collecting hint st rs -> narrow r -> Forall narrow rs -> (ref_index r < hint)%nat ->
  total_width (rs ++ [r]) <= u16_max ->
  exists st', collect_cell st r = Some st' /\ collecting hint st' (rs ++ [r]).
Proof.
  intros [Ht Hwide Hany Hc Htot Hb] Hr Hn Hi Hw. unfold collect_cell.
  destruct (narrow_u16 _ Hr) as (E & _ & _). rewrite !E. cbv zeta.
  assert (exists b, (if 1 <? ref_width r then bs_set (ref_index r) (wide_bits st)
                     else Some (wide_bits st)) = Some b /\ bs_len b = hint /\
    forall i, contains b i = (1 <? ref_width r) && (i =? ref_index r)%nat || contains (wide_bits st) i)
    as (b & -> & Hlen & Hbits).
  { destruct (1 <? ref_width r); [|by exists (wide_bits st)].
    destruct (set_in_range (ref_index r) (wide_bits st)) as (b & Hset & Hl & Hb'); [lia|].
    exists b. rewrite Hset. split_and!; [done|lia|done]. }
  cbn [mbind option_bind].
  destruct (run_step _ _ _ _ Hc Hr Hn Hw) as (c' & cs' & -> & Hc').
  cbn [mbind option_bind]. eexists. split; [done|]. split; cbn; try done.
  - rewrite map_app, concat_app, Ht. cbn. by rewrite app_nil_r.
  - by apply (wide_snoc (contains (wide_bits st))).
  - intros [Hd Hw1]%orb_false_elim. apply Forall_app. split; [by apply Hany|].
    apply Forall_singleton. apply Z.ltb_ge in Hw1. unfold narrow in Hr. lia.
  - rewrite total_cols_app, Htot. unfold total_cols, cols. cbn. lia.
Qed.

Lemma collect_all hint rs' : forall st rs,
  collecting hint st rs -> Forall narrow (rs ++ rs') ->
  Forall (fun r => (ref_index r < hint)%nat) rs' -> total_width (rs ++ rs') <= u16_max ->
  exists st', collect_cells st rs' = Some st' /\ collecting hint st' (rs ++ rs').
Proof.
  induction rs' as [|r rs' IH]; intros st rs Hst Hn Hi Hw.
  - rewrite app_nil_r. by exists st.
  - apply Forall_cons in Hi as [Hir Hi]. pose proof Hn as Hn0.
    apply Forall_app in Hn as [Hn Hn']. apply Forall_cons in Hn' as [Hnr Hn'].
    rewrite (cons_middle r rs rs'), (assoc_L app) in Hw |- *.
    destruct (collect_cell_step hint st rs r) as (st' & Hs & Hst'); try done.
    { rewrite total_width_app in Hw. pose proof (total_width_pos _ Hn'). lia. }
    destruct (IH st' (rs ++ [r])) as (st'' & Hs' & Hst''); try done.
    { by rewrite <- (assoc_L app). }
    exists st''. split; [|done]. cbn [collect_cells]. by rewrite Hs.
Qed.

(** [from_cell_vec] represents the cells that it is given. *)
Lemma from_cell_vec_represents hint rs :
  indexed 0 rs -> Forall narrow rs -> Forall (fun r => (ref_index r < hint)%nat) rs ->
  total_width rs <= u16_max ->
  exists cl, from_cell_vec hint rs = Some cl /\ represents cl rs.
Proof.
  intros Hi Hn Hlt Hw. unfold from_cell_vec.
  destruct (collect_all hint rs (mkCollect None (with_capacity hint) [] [] false O None) [])
    as (st & Hst & [Ht Hwide Hany Hc Htot Hb]); try done.
  { split; cbn; try done; [|constructor|apply capacity_len]. intros i. rewrite capacity_contains.
    split; [done|]. intros (r & Hr & _). by apply elem_of_nil in Hr. }
  rewrite Hst. cbn [mbind option_bind app] in *. rewrite (proj2 (Z.leb_le _ _)).
  - eexists. split; [done|]. split; cbn; try done. intros i. unfold cell_is_double_wide. cbn.
    destruct (any_double st) eqn:E; [apply Hwide|]. split; [done|]. intros (r & Hr & _ & Hr2).
    specialize (Hany eq_refl). rewrite Forall_forall in Hany. specialize (Hany r Hr). lia.
  - rewrite total_width_cols in Hw by done. unfold u16_max, u32_max in *. lia.
Qed.
End Representation.

(** ** The two storages *)

(** A vector whose cells have one or two columns, none of them cut off at the end, whose texts
    are as [from_str] stores them. *)
Record vec_ok (cells : list Cell) : Prop := {
  vo_width : Forall (fun c => cell_width c = 1 \/ cell_width c = 2) cells;
  vo_text : Forall (fun c => plain (cell_str c) /\ defang (cell_str c) = cell_str c) cells;
  vo_whole : total_cols (vec_iter 0 0 cells) = length cells
}.

(** The same, by computation. *)
Definition vec_okb (cells : list Cell) : bool :=
  forallb (fun c => (cell_width c =? 1) || (cell_width c =? 2)) cells &&
  forallb (fun c => forallb (rng 1 255) (cell_str c) &&
                    bool_decide (defang (cell_str c) = cell_str c)) cells &&
  (total_cols (vec_iter 0 0 cells) =? length cells)%nat.

Lemma vec_okb_ok cells : vec_okb cells = true -> vec_ok cells.
Proof.
  unfold vec_okb. rewrite !andb_true_iff, Nat.eqb_eq, !forallb_forall. intros [[Hw Ht] Hl].
  split; [..|done]; apply Forall_forall; intros c Hc%list_elem_of_In.
  - specialize (Hw c Hc). apply orb_true_iff in Hw. rewrite !Z.eqb_eq in Hw. done.
  - specialize (Ht c Hc). rewrite andb_true_iff, forallb_forall, bool_decide_eq_true in Ht.
    destruct Ht as [Hp Hd]. split; [|done]. apply Forall_forall. intros b Hb%list_elem_of_In.
    specialize (Hp b Hb). rewrite rng_spec in Hp. unfold is_byte. lia.
Qed.

Section Compress.
Context `{CharTables} `{Graphemes} `{BitSet} `{!BitSetLaws} `{HyperlinkRules}.

Lemma vec_ok_narrow cells : vec_ok cells -> Forall narrow (vec_iter 0 0 cells).
Proof.
  intros [Hw _ _]. eapply Forall_impl; [by apply vec_iter_Forall|].
  intros r (j & c & -> & Hc). done.
Qed.

Lemma vec_ok_indexed cells : vec_ok cells -> indexed 0 (vec_iter 0 0 cells).
Proof.
  intros [Hw _ _]. apply (vec_iter_indexed 0 0). eapply Forall_impl; [exact Hw|]. cbn. lia.
Qed.

(** What [to_cell_vec] spreads is seen again by the iterator. *)
Lemma vec_iter_skip i k l cells :
  length l = k -> vec_iter i k (l ++ cells) = vec_iter (i + k) 0 cells.
Proof.
  revert i k. induction l as [|c l IH]; intros i k <-; cbn; [by rewrite Nat.add_0_r|].
  rewrite IH by done. f_equal. lia.
Qed.

Definition text_ok (r : CellRef) : Prop := plain (ref_str r) /\ defang (ref_str r) = ref_str r.

Lemma new_grapheme_same i t w a :
  w = 1 \/ w = 2 -> plain t /\ defang t = t ->
  ref_eq (CellRef_CellRef i (new_grapheme_with_width t w a)) (CellRef_ClusterRef i t w a).
Proof.
  intros Hw [Hp Hd]. unfold ref_eq, new_grapheme_with_width.
  cbn [ref_index ref_str ref_width ref_attrs attrs]. unfold cell_str, cell_width. cbn [text].
  rewrite from_str_bytes, from_str_width, Hd by done. cbn [default from_option].
  do 2 (split; [done|]). split; [|done]. unfold stored_width.
  destruct Hw as [-> | ->]; by destruct (length t <? 8)%nat.
Qed.

Lemma to_vec_same i rs :
  Forall (fun r => exists i t w a, r = CellRef_ClusterRef i t w a) rs ->
  indexed i rs -> Forall narrow rs -> Forall text_ok rs ->
  Forall2 ref_eq (vec_iter i 0 (concat (map spread rs))) rs.
Proof.
  intros Hc. revert i. induction Hc as [|r rs (j & t & w & a & ->) Hc IH]; intros i Hi Hn Ht;
    [constructor|].
  apply Forall_cons in Hn as [Hr Hn], Ht as [Htr Ht]. destruct Hi as [<- Hi].
  pose proof (new_grapheme_same j t w a Hr Htr) as Hsame. pose proof Hsame as (_ & _ & Hw & _).
  cbn [map concat spread as_cell app vec_iter ref_width ref_attrs ref_index] in *.
  rewrite Hw. rewrite vec_iter_skip by by rewrite length_replicate.
  constructor; [done|]. unfold cols in Hi. cbn in Hi. unfold narrow in Hr. cbn in Hr.
  replace (S j + Z.to_nat (w - 1))%nat with (j + Z.to_nat w)%nat by lia. by apply IH.
Qed.

Lemma cluster_iter_form cl gs cs i t :
  Forall (fun r => exists i t w a, r = CellRef_ClusterRef i t w a) (cluster_iter cl gs cs i t).
Proof.
  revert cs i t. induction gs as [|g gs IH]; intros cs i t; [constructor|]. cbn.
  destruct cs as [|c cs]; [constructor|]. case_match; constructor; eauto.
Qed.

(** Properties that equal cells share. *)
Lemma same_transport rs rs' i :
  Forall2 ref_same rs rs' -> indexed i rs' -> Forall narrow rs' -> Forall text_ok rs' ->
  indexed i rs /\ Forall narrow rs /\ Forall text_ok rs.
Proof.
  intros Hs. revert i. induction Hs as [|r r' rs rs' (Ei & Et & Ew & _) _ IH]; intros i Hi Hn Ht; [done|].
  apply Forall_cons in Hn as [Hr Hn], Ht as [Htr Ht]. destruct Hi as [Hi0 Hi].
  destruct (IH _ Hi Hn Ht) as (H1' & H2' & H3'). split_and!.
  - split; [congruence|]. unfold cols in *. by rewrite Ew.
  - constructor; [|done]. unfold narrow in *. by rewrite Ew.
  - constructor; [|done]. unfold text_ok in *. by rewrite Et.
Qed.

Lemma vec_ok_text cells : vec_ok cells -> Forall text_ok (vec_iter 0 0 cells).
Proof.
  intros [_ Ht _]. eapply Forall_impl; [by apply vec_iter_Forall|].
  intros r (j & c & -> & Hc). done.
Qed.

(** C29: compressing a line for the scrollback loses nothing. If its text is
    segmented into its cells, and the line fits 16-bit columns, then the compressed
    line has the same length and text and shows the same cells, column
    by column, and so does the vector that it is expanded to when it is edited again. *)
Theorem compress_keeps_cells l cells :
  storage l = V cells -> vec_ok cells -> Z.of_nat (length cells) <= u16_max ->
  graphemes (as_str l) = map ref_str (visible_cells l) ->
  exists l' cl, compress_for_scrollback l = Some l' /\ storage l' = C cl /\
    len l' = len l /\ as_str l' = as_str l /\
    Forall2 ref_same (visible_cells l') (visible_cells l) /\
    Forall2 ref_same (vec_iter 0 0 (vec_of l')) (visible_cells l).
Proof.
  intros Hst Hok Hlen Hg. destruct l as [st zs sq b]. cbn in Hst. subst st.
  unfold as_str, compress_for_scrollback, len in *. cbn [storage visible_cells set_storage] in *.
  set (rs := vec_iter 0 0 cells) in *.
  pose proof (vec_ok_narrow _ Hok) as Hn. pose proof (vec_ok_indexed _ Hok) as Hi.
  pose proof (vec_ok_text _ Hok) as Ht. pose proof (vo_whole _ Hok) as Hw. fold rs in Hn, Hi, Ht, Hw.
  destruct (from_cell_vec_represents (length cells) rs) as (cl & Hcl & Hrep); try done.
  { apply Forall_forall. intros r Hr. by apply vec_iter_lt in Hr. }
  { rewrite total_width_cols by done. lia. }
  pose proof (iter_represents cl rs Hrep Hg) as Hsame.
  eexists _, cl. rewrite Hcl. cbn [mbind option_bind]. split; [done|].
  cbn [storage visible_cells vec_of set_storage]. split; [done|]. split; [by rewrite (rep_len _ _ Hrep)|].
  split; [apply (rep_text _ _ Hrep)|]. split; [done|].
  destruct (same_transport _ _ 0 Hsame Hi Hn Ht) as (Hi' & Hn' & Ht').
  eapply Forall2_ref_eq_same; [|exact Hsame]. apply to_vec_same; try done. apply cluster_iter_form.
Qed.
End Compress.

(** ** Wrapping *)

(** A cell with its wrapped flag set or cleared. *)
Definition rewrap (w : bool) (r : CellRef) : CellRef :=
  CellRef_ClusterRef (ref_index r) (ref_str r) (ref_width r) (set_wrapped w (ref_attrs r)).

Definition rewrap_last (w : bool) (rs : list CellRef) : list CellRef :=
  match last rs with
  | Some r => removelast rs ++ [rewrap w r]
  | None => rs
  end.

Lemma rewrap_last_snoc w rs r : rewrap_last w (rs ++ [r]) = rs ++ [rewrap w r].
Proof. unfold rewrap_last. by rewrite last_snoc, removelast_snoc. Qed.

(** The same cells from column [i] on. *)
Fixpoint reindex (i : nat) (rs : list CellRef) : list CellRef :=
  match rs with
  | [] => []
  | r :: rs =>
      CellRef_ClusterRef i (ref_str r) (ref_width r) (ref_attrs r) :: reindex (i + cols r) rs
  end.

Lemma reindex_app i rs rs' : reindex i (rs ++ rs') = reindex i rs ++ reindex (i + total_cols rs) rs'.
Proof.
  revert i. induction rs as [|r rs IH]; intros i; cbn; [by rewrite Nat.add_0_r|].
  rewrite IH. unfold total_cols. cbn. by rewrite Nat.add_assoc.
Qed.

Lemma reindex_content i rs : Forall2 content_same (reindex i rs) rs.
Proof. revert i. induction rs as [|r rs IH]; intros i; constructor; [|done]. by repeat split; left. Qed.

Lemma reindex_cols i rs : total_cols (reindex i rs) = total_cols rs.
Proof.
  revert i. induction rs as [|r rs IH]; intros i; [done|]. unfold total_cols in *. cbn. by rewrite IH.
Qed.

Lemma reindex_str i rs : map ref_str (reindex i rs) = map ref_str rs.
Proof. revert i. induction rs as [|r rs IH]; intros i; [done|]. cbn. by rewrite IH. Qed.

(** The reference: cells are taken as long as they fit. *)
Fixpoint wrap_spec (width : nat) (cur rs : list CellRef) : list (list CellRef) :=
  match rs with
  | [] => [cur]
  | r :: rs =>
      if (width <? total_cols cur + cols r)%nat then cur :: wrap_spec width [r] rs
      else wrap_spec width (cur ++ [r]) rs
  end.

Lemma wrap_spec_concat width cur rs : concat (wrap_spec width cur rs) = cur ++ rs.
Proof.
  revert cur. induction rs as [|r rs IH]; intros cur; cbn; [done|]. case_match; cbn; rewrite IH; [done|].
  by rewrite <- (assoc_L app).
Qed.

Lemma wrap_spec_fits width cur rs :
  (total_cols cur <= width)%nat -> Forall (fun r => (cols r <= width)%nat) rs ->
  Forall (fun g => (total_cols g <= width)%nat) (wrap_spec width cur rs).
Proof.
  intros Hc Hr. revert cur Hc. induction Hr as [|r rs Hr0 Hr IH]; intros cur Hc; cbn.
  - by constructor.
  - case_match eqn:E; bool_to_prop.
    + constructor; [done|]. apply IH. unfold total_cols, cols in *. cbn. lia.
    + apply IH. rewrite total_cols_app. unfold total_cols, cols in *. cbn. lia.
Qed.

Lemma wrap_spec_ne width cur rs : wrap_spec width cur rs <> [].
Proof. revert cur. induction rs as [|r rs IH]; intros cur; cbn; [done|]. by case_match. Qed.

Section Wrapping.
Context `{CharTables} `{Graphemes} `{BitSet} `{!BitSetLaws} `{HyperlinkRules}.

Lemma total_width_one g r :
  Forall narrow (g ++ [r]) -> total_width (g ++ [r]) = ref_width r -> g = [].
Proof.
  intros [Hn _]%Forall_app Hw. rewrite total_width_app in Hw. cbn in Hw.
  destruct g as [|r' g]; [done|]. apply Forall_cons in Hn as [Hr' Hn].
  pose proof (total_width_pos _ Hn). unfold narrow, total_width in *. cbn in *. lia.
Qed.

Lemma covers_rewrap cs c r1 g r w :
  covers cs r1 -> Forall narrow (g ++ [r]) -> cluster_width c = total_width (g ++ [r]) ->
  Forall (fun r => attrs_same (cluster_attrs c) (ref_attrs r)) (g ++ [r]) ->
  covers (if cluster_width c =? ref_width r
          then cs ++ [mkCluster (cluster_width c) (set_wrapped w (cluster_attrs c))]
          else cs ++ [mkCluster (cluster_width c - ref_width r) (cluster_attrs c);
                      mkCluster (ref_width r) (set_wrapped w (cluster_attrs c))])
    (r1 ++ g ++ [rewrap w r]) /\ ref_width r <= cluster_width c.
Proof.
  intros Hc Hn Hw [Hg Hr%Forall_inv]%Forall_app. cbv beta in Hr.
  assert (Hnew : covers [mkCluster (ref_width r) (set_wrapped w (cluster_attrs c))] [rewrap w r]).
  { apply covers_single; [done|cbn; lia|]. apply Forall_singleton.
    by apply (attrs_same_set_wrapped w (cluster_attrs c) (ref_attrs r)). }
  destruct (Z.eqb_spec (cluster_width c) (ref_width r)) as [E|E].
  - rewrite E. split; [|lia]. rewrite (total_width_one g r Hn) by lia. by apply runs_cover_app.
  - pose proof Hn as [Hng _]%Forall_app. pose proof (total_width_pos _ Hng).
    rewrite total_width_app in Hw. cbn in Hw. split; [|lia]. apply runs_cover_app; [done|].
    apply (runs_cover_app [mkCluster _ _] [mkCluster _ _] g [_]); [|done]. apply covers_single; cbn.
    + intros ->. cbn in *. lia.
    + lia.
    + done.
Qed.

Lemma wide_rewrap rs r w i :
  (exists r', r' ∈ rs ++ [r] /\ ref_index r' = i /\ ref_width r' = 2) <->
  exists r', r' ∈ rs ++ [rewrap w r] /\ ref_index r' = i /\ ref_width r' = 2.
Proof.
  split; intros (r' & [Hr|Hr]%elem_of_app & Hi & Hw); try (exists r'; rewrite elem_of_app; by auto).
  - apply list_elem_of_singleton in Hr as ->. exists (rewrap w r).
    rewrite elem_of_app, list_elem_of_singleton. by auto.
  - apply list_elem_of_singleton in Hr as ->. exists r.
    rewrite elem_of_app, list_elem_of_singleton. by auto.
Qed.

(** Marking the last cell of a line in runs. *)
Lemma cl_set_wrapped_represents cl rs r w :
  represents cl (rs ++ [r]) -> last_cell_width cl = Some (ref_width r) ->
  exists cl', cl_set_wrapped w cl = Some cl' /\ represents cl' (rs ++ [rewrap w r]) /\
    last_cell_width cl' = Some (ref_width r).
Proof.
  intros [Ht Hwide Hc Hl Hi Hn] Hlast. unfold cl_set_wrapped.
  assert (compute_last_cell_width cl = cl) as -> by (unfold compute_last_cell_width; by rewrite Hlast).
  rewrite Hlast.
  destruct (snoc_or_nil (clusters cl)) as [E|(cs & c & E)]; rewrite E in Hc |- *.
  { inversion Hc. by destruct rs. }
  rewrite last_snoc, removelast_snoc.
  apply covers_snoc_inv in Hc as (r1 & g0 & Erg & Hc1 & Hg & Hcw & Hca).
  destruct (snoc_or_nil g0) as [->|(g & r0 & ->)]; [done|].
  rewrite (assoc_L app) in Erg. apply app_inj_tail in Erg as [-> ->].
  pose proof Hn as Hn'. rewrite <- (assoc_L app) in Hn'. apply Forall_app in Hn' as [_ Hng].
  destruct (covers_rewrap cs c r1 g r0 w Hc1 Hng Hcw Hca) as [Hcov Hle]. cbv zeta.
  assert (Hrep : forall cs', covers cs' (r1 ++ g ++ [rewrap w r0]) ->
    represents (set_clusters cs' cl) ((r1 ++ g) ++ [rewrap w r0])).
  { intros cs' Hcs. split; cbn.
    - by rewrite Ht, !map_app.
    - intros i. rewrite <- wide_rewrap. apply Hwide.
    - by rewrite <- (assoc_L app).
    - rewrite Hl, !total_cols_app. done.
    - apply indexed_app in Hi as [Hi1 Hi2]. by apply indexed_app.
    - apply Forall_app in Hn as [Hn1 Hn2%Forall_inv]. apply Forall_app. split; [done|].
      by apply Forall_singleton. }
  destruct (cluster_width c =? ref_width r0); [by eexists; split; [|split; [by apply Hrep|]]|].
  unfold rust_assert. rewrite (proj2 (Z.leb_le _ _)) by done. cbn [mbind option_bind].
  by eexists; split; [|split; [by apply Hrep|]].
Qed.

(** *** A line in runs that is being filled *)

(** No scan for implicit links has marked the line. *)
Definition unscanned (b : Z) : Prop :=
  Z.land b (Z.lor SCANNED_IMPLICIT_HYPERLINKS HAS_IMPLICIT_HYPERLINKS) = 0.

Record filled (l : Line) (g : list CellRef) : Prop := {
  fi_cl : exists cl, storage l = C cl /\ represents cl (reindex 0 g) /\
          forall r, last g = Some r -> last_cell_width cl = Some (ref_width r);
  fi_bits : unscanned (line_bits l)
}.

Lemma filled_new sq : filled (Line_new sq) [].
Proof. split; [|done]. eexists. split; [done|]. split; [apply represents_new|done]. Qed.

Lemma mark_hyperlink_spec a l :
  storage (mark_hyperlink a l) = storage l /\
  (unscanned (line_bits l) -> unscanned (line_bits (mark_hyperlink a l))).
Proof.
  unfold mark_hyperlink. case_match; [|done]. split; [done|]. unfold unscanned. cbn [line_bits set_bits].
  intros Hb. by rewrite Z.land_lor_distr_l, Hb.
Qed.

Lemma invalidate_unscanned sq l :
  unscanned (line_bits l) -> invalidate_implicit_hyperlinks sq l = l.
Proof. unfold unscanned, invalidate_implicit_hyperlinks. by intros ->. Qed.

Lemma filled_len l g : filled l g -> len l = total_cols g.
Proof.
  intros [(cl & Hst & Hrep & _) _]. unfold len. rewrite Hst, (rep_len _ _ Hrep). apply reindex_cols.
Qed.

Lemma represents_index cl rs : represents cl rs -> indexed 0 rs.
Proof. by intros []. Qed.

Lemma set_cell_grapheme_append l g r sq :
  filled l g -> narrow r ->
  exists l', set_cell_grapheme (total_cols g) (ref_str r) (ref_width r) (ref_attrs r) sq l = Some l' /\
    filled l' (g ++ [r]).
Proof.
  intros [(cl & Hst & Hrep & Hlast) Hb] Hr. unfold set_cell_grapheme. cbv zeta.
  destruct (mark_hyperlink_spec (ref_attrs r) l) as [E Hb']. specialize (Hb' Hb).
  set (l1 := mark_hyperlink _ l) in *. rewrite E, Hst.
  pose proof (rep_len _ _ Hrep) as Hl. rewrite reindex_cols in Hl. rewrite Hl.
  rewrite Nat.ltb_irrefl, Nat.sub_diag. cbn [andb pad_cluster mbind option_bind].
  rewrite Hl, Nat.eqb_refl.
  destruct (append_represents cl _ (ref_str r) (ref_width r) (ref_attrs r) Hrep Hr)
    as (cl' & Hcl' & Hrep' & Hw). rewrite Hcl'. cbn [mbind option_bind]. eexists. split; [done|].
  rewrite invalidate_unscanned by done. split; [|done]. exists cl'. split; [done|]. split.
  - rewrite reindex_app. cbn. by rewrite <- Hl.
  - intros r'. rewrite last_snoc. by intros [= <-].
Qed.

(** [l] is the piece [g] of a wrapped line, marked as wrapped or not. *)
Definition shows (w : bool) (l : Line) (g : list CellRef) : Prop :=
  exists cl, storage l = C cl /\ represents cl (reindex 0 (if w then rewrap_last true g else g)).

Lemma set_wrapped_shows l g sq :
  filled l g -> g <> [] ->
  exists l', set_last_cell_was_wrapped true sq l = Some l' /\ shows true l' g.
Proof.
  intros [(cl & Hst & Hrep & Hlast) Hb] Hg. destruct (snoc_or_nil g) as [->|(g0 & r & ->)]; [done|].
  specialize (Hlast r). rewrite last_snoc in Hlast. specialize (Hlast eq_refl).
  unfold set_last_cell_was_wrapped. cbv zeta. cbn [update_last_change_seqno storage]. rewrite Hst.
  pose proof (rep_len _ _ Hrep) as Hl. rewrite reindex_cols, total_cols_app in Hl.
  assert (Hr : narrow r).
  { pose proof (rep_narrow _ _ Hrep) as Hn. rewrite reindex_app in Hn.
    apply Forall_app in Hn as [_ Hn%Forall_inv]. done. }
  destruct (Nat.eqb_spec (cl_len cl) 0) as [E|_].
  { unfold total_cols, narrow in *. cbn in Hl. unfold cols in Hl. lia. }
  cbn [mbind option_bind]. rewrite reindex_app in Hrep. cbn in Hrep.
  destruct (cl_set_wrapped_represents cl _ _ true Hrep Hlast) as (cl' & -> & Hrep' & _).
  cbn [mbind option_bind]. eexists. split; [done|]. exists cl'. split; [done|].
  rewrite rewrap_last_snoc, reindex_app. exact Hrep'.
Qed.

(** The pieces of a wrapped line: all but the last are marked. *)
Fixpoint pieces (ls : list Line) (gs : list (list CellRef)) : Prop :=
  match ls, gs with
  | [l], [g] => shows false l g
  | l :: ls, g :: gs => shows true l g /\ pieces ls gs
  | _, _ => False
  end.

Lemma pieces_cons l g ls gs :
  gs <> [] -> shows true l g -> pieces ls gs -> pieces (l :: ls) (g :: gs).
Proof. intros Hgs Hl Hp. destruct ls, gs; done. Qed.

Lemma wrap_loop width sq rs : forall acc l g delta,
  filled l g -> g <> [] -> indexed (delta + total_cols g) rs -> Forall narrow rs ->
  exists ls, wrap_cells width sq acc (Some l) delta rs = Some (acc ++ ls) /\
    pieces ls (wrap_spec width g rs).
Proof.
  induction rs as [|r rs IH]; intros acc l g delta Hl Hg Hi Hn; cbn [wrap_cells wrap_spec].
  - exists [l]. split; [done|]. destruct Hl as [(cl & Hst & Hrep & _) _]. by exists cl.
  - apply Forall_cons in Hn as [Hr Hn]. destruct Hi as [Hir Hi].
    rewrite (filled_len _ _ Hl). fold (cols r).
    destruct (width <? total_cols g + cols r)%nat.
    + destruct (set_wrapped_shows l g sq Hl Hg) as (l' & -> & Hl'). cbn [mbind option_bind].
      rewrite Nat.sub_diag.
      destruct (set_cell_grapheme_append (Line_new sq) [] r sq) as (l1 & Hl1 & Hf1);
        [apply filled_new|done|].
      change (total_cols []) with O in Hl1. rewrite Hl1. cbn [mbind option_bind].
      destruct (IH (acc ++ [l']) l1 [r] (ref_index r) Hf1) as (ls & Hls & Hp); [done| |done|].
      { rewrite Hir. unfold total_cols. cbn. by rewrite Nat.add_0_r. }
      exists (l' :: ls). rewrite <- (assoc_L app) in Hls. split; [done|].
      apply pieces_cons; [apply wrap_spec_ne|done|done].
    + cbn [mbind option_bind]. replace (ref_index r - delta)%nat with (total_cols g) by lia.
      destruct (set_cell_grapheme_append l g r sq Hl Hr) as (l1 & Hl1 & Hf1).
      rewrite Hl1. cbn [mbind option_bind].
      apply IH; try done; [by destruct g|]. rewrite total_cols_app, Nat.add_assoc.
      unfold total_cols at 2. cbn. by rewrite Nat.add_0_r.
Qed.

(** *** Reading the pieces *)

(** Every stretch of cells is segmented as it is put together. *)
Definition segmentable (rs : list CellRef) : Prop :=
  forall a b c, rs = a ++ b ++ c -> graphemes (concat (map ref_str b)) = map ref_str b.

Lemma rewrap_last_str w g : map ref_str (rewrap_last w g) = map ref_str g.
Proof.
  destruct (snoc_or_nil g) as [->|(g0 & r & ->)]; [done|]. by rewrite rewrap_last_snoc, !map_app.
Qed.

(** The pieces as they are marked: every last cell but that of the last piece. *)
Fixpoint marked (gs : list (list CellRef)) : list (list CellRef) :=
  match gs with
  | [] => []
  | [g] => [g]
  | g :: gs => rewrap_last true g :: marked gs
  end.

Lemma marked_cons g gs : gs <> [] -> marked (g :: gs) = rewrap_last true g :: marked gs.
Proof. by destruct gs. Qed.

Lemma shows_read w l g :
  shows w l g -> graphemes (concat (map ref_str g)) = map ref_str g ->
  len l = total_cols g /\
  Forall2 ref_same (visible_cells l) (reindex 0 (if w then rewrap_last true g else g)).
Proof.
  intros (cl & Hst & Hrep) Hg. unfold len, visible_cells. rewrite Hst. split.
  - rewrite (rep_len _ _ Hrep), reindex_cols. destruct w; [|done].
    destruct (snoc_or_nil g) as [->|(g0 & r & ->)]; [done|].
    by rewrite rewrap_last_snoc, !total_cols_app.
  - apply iter_represents; [done|]. rewrite reindex_str. destruct w; [|done].
    by rewrite rewrap_last_str.
Qed.

Lemma pieces_read ls gs :
  pieces ls gs -> Forall (fun g => graphemes (concat (map ref_str g)) = map ref_str g) gs ->
  map len ls = map total_cols gs /\
  Forall2 (fun l g => Forall2 ref_same (visible_cells l) (reindex 0 g)) ls (marked gs).
Proof.
  revert gs. induction ls as [|l ls IH]; intros gs Hp Hs; [by destruct gs|].
  destruct gs as [|g gs]; [by destruct ls|]. apply Forall_cons in Hs as [Hs0 Hs].
  assert (Hcase : (ls = [] /\ gs = [] /\ shows false l g) \/
                  (gs <> [] /\ shows true l g /\ pieces ls gs)).
  { destruct ls as [|l' ls], gs as [|g' gs]; [by left| |by destruct ls, Hp|by right].
    by destruct Hp. }
  destruct Hcase as [(-> & -> & Hl)|(Hgs & Hl & Hp')].
  - destruct (shows_read false l g Hl Hs0) as [E1 E2]. cbn. rewrite E1. by repeat constructor.
  - destruct (shows_read true l g Hl Hs0) as [E1 E2]. destruct (IH gs Hp' Hs) as [F1 F2].
    rewrite marked_cons by done. cbn [map]. rewrite E1, F1. split; [done|]. by constructor.
Qed.

(** What is behind the last cell that is not a space. *)
Lemma rposition_app {A} (p : A -> bool) kept rest :
  Forall (fun x => p x = false) rest -> (forall x, last kept = Some x -> p x = true) ->
  rposition p (kept ++ rest) = match kept with [] => None | _ => Some (pred (length kept)) end.
Proof.
  intros Hr Hk. assert (Hnone : rposition p rest = None).
  { clear Hk. induction Hr as [|x rest Hx _ IH]; [done|]. cbn. by rewrite IH, Hx. }
  induction kept as [|x kept IH]; [done|]. cbn [app rposition].
  destruct kept as [|y kept]; [cbn; by rewrite Hnone, Hk|].
  rewrite IH; [done|]. intros z Hz. by apply Hk.
Qed.

Lemma segmentable_chunks gs rs :
  segmentable rs -> rs = concat gs ->
  Forall (fun g => graphemes (concat (map ref_str g)) = map ref_str g) gs.
Proof.
  intros Hs ->. rewrite Forall_forall. intros g Hg. apply list_elem_of_split in Hg as (g1 & g2 & ->).
  apply (Hs (concat g1) g (concat g2)). by rewrite concat_app.
Qed.

(** C31: wrapping a line to a width, for a line of cells of one or two columns, whose text is segmented again
    into its cells. Spaces at the end of the line are dropped; a line of spaces only is returned as it is.
    The cells before them are all kept, in order: they are cut greedily in pieces that fit ([wrap_spec] is the
    reference), and each new line shows exactly the cells of its piece, text, width and
    attributes, from column 0 on; but for the last line its last cell is marked as wrapped. *)
Theorem wrap_keeps_cells width sq l kept spaces :
  visible_cells l = kept ++ spaces -> Forall (fun r => ref_str r = bs " ") spaces ->
  (forall r, last kept = Some r -> ref_str r <> bs " ") ->
  indexed 0 kept -> Forall narrow kept -> Forall (fun r => (cols r <= width)%nat) kept ->
  segmentable kept ->
  match kept with
  | [] => wrap width sq l = Some [l]
  | _ =>
    let gs := wrap_spec width [] kept in
    concat gs = kept /\ Forall (fun g => (total_cols g <= width)%nat) gs /\
    exists ls, wrap width sq l = Some ls /\ map len ls = map total_cols gs /\
      Forall2 (fun l g => Forall2 ref_same (visible_cells l) (reindex 0 g)) ls (marked gs)
  end.
Proof.
  intros Hv Hsp Hlast Hi Hn Hw Hseg. unfold wrap. rewrite Hv, rposition_app; cycle 1.
  { eapply Forall_impl; [exact Hsp|]. cbv beta. intros r ->. by vm_compute. }
  { intros r Hr. rewrite bool_decide_eq_false_2; [done|]. by apply Hlast. }
  destruct kept as [|r0 rs]; [done|]. cbv zeta. rewrite wrap_spec_concat. split; [done|].
  split; [apply wrap_spec_fits; [unfold total_cols; cbn; lia|done]|].
  assert (E0 : take (S (pred (length (r0 :: rs)))) ((r0 :: rs) ++ spaces) = r0 :: rs)
    by (cbn; by rewrite take_app_length).
  rewrite E0. clear E0 Hlast Hv. destruct Hi as [Hir Hi].
  apply Forall_cons in Hn as [Hr Hn]. pose proof Hw as [Hwr Hw']%Forall_cons.
  cbn [wrap_cells mbind option_bind]. rewrite Nat.sub_diag.
  destruct (set_cell_grapheme_append (Line_new sq) [] r0 sq) as (l1 & Hl1 & Hf1);
    [apply filled_new|done|].
  change (total_cols []) with O in Hl1. rewrite Hl1. cbn [mbind option_bind app] in *.
  destruct (wrap_loop width sq rs [] l1 [r0] (ref_index r0) Hf1) as (ls & -> & Hp); [done| |done|].
  { rewrite Hir. unfold total_cols. cbn. by rewrite Nat.add_0_r. }
  assert (Espec : wrap_spec width [] (r0 :: rs) = wrap_spec width [r0] rs).
  { cbn [wrap_spec app]. rewrite (proj2 (Nat.ltb_ge _ _)); [done|]. unfold total_cols. cbn in *. lia. }
  rewrite Espec. exists ls. split; [done|]. apply pieces_read; [done|].
  apply (segmentable_chunks _ (r0 :: rs) Hseg). by rewrite wrap_spec_concat.
Qed.
End Wrapping.

(** ** Instances for the witnesses *)

(** One grapheme per character, one bit per column. *)
Fixpoint demo_graphemes (s : list Z) : list (list Z) :=
  match s with
  | [] => []
  | x :: r =>
      if x <? 0x80 then [x] :: demo_graphemes r
      else match r with
           | [] => [[x]]
           | y :: r =>
               if x <? 0xE0 then [x; y] :: demo_graphemes r
               else match r with
                    | [] => [[x; y]]
                    | z :: r => [x; y; z] :: demo_graphemes r
                    end
           end
  end.

Definition demo_bitset : BitSet :=
  {| bitset := list bool;
     with_capacity n := replicate n false;
     grow n b := b ++ replicate (n - length b) false;
     bs_set i b := arr_set b i true;
     contains b i := default false (b !! i);
     bs_len := length |}.

Definition demo_rules : HyperlinkRules :=
  {| Rule := unit; match_hyperlinks _ _ := []; grapheme_indices _ := [] |}.

Lemma demo_bitset_laws : @BitSetLaws demo_bitset.
Proof.
  split; cbn.
  - intros n. apply length_replicate.
  - intros n i. destruct (replicate n false !! i) eqn:E; [|done].
    by apply lookup_replicate in E as [-> _].
  - intros n b. rewrite length_app, length_replicate. lia.
  - intros n b i. rewrite lookup_app. destruct (b !! i); [done|]. cbn.
    destruct (replicate _ false !! _) eqn:E; [|done]. by apply lookup_replicate in E as [-> _].
  - intros n b Hn. rewrite arr_set_Some by done. eexists. split; [done|].
    split; [apply length_insert|]. intros i. destruct (Nat.eqb_spec i n) as [->|Hi].
    + by rewrite list_lookup_insert_eq.
    + by rewrite list_lookup_insert_ne.
Qed.

#[local] Existing Instances demo_tables demo_bitset demo_bitset_laws demo_rules.
#[local] Instance demo_segmentation : Graphemes := demo_graphemes.

(** "xあy", the wide character (three bytes) in bold. *)
Definition demo_wide : list Z := [0xE3; 0x81; 0x82].
Definition bold : CellAttributes := set_intensity Intensity_Bold blank_attrs.
Definition demo_cells : list Cell :=
  [new_grapheme_with_width [120] 1 blank_attrs; new_grapheme_with_width demo_wide 2 bold;
   blank_with_attrs bold; new_grapheme_with_width [121] 1 blank_attrs].

Lemma demo_cells_ok : vec_ok demo_cells.
Proof. apply vec_okb_ok. vm_compute. reflexivity. Qed.

Lemma compress_keeps_cells_witness :
  vec_ok demo_cells /\
  exists l' cl, compress_for_scrollback (from_cells demo_cells 7) = Some l' /\ storage l' = C cl /\
    len l' = 4%nat /\ as_str l' = [120] ++ demo_wide ++ [121].
Proof.
  split; [exact demo_cells_ok|].
  destruct (compress_keeps_cells (from_cells demo_cells 7) demo_cells) as (l' & cl & H1 & H2 & H3 & H4 & _).
  - reflexivity.
  - exact demo_cells_ok.
  - vm_compute. discriminate.
  - vm_compute. reflexivity.
  - exists l', cl. split; [exact H1|]. split; [exact H2|]. split; [exact H3|]. rewrite H4.
    vm_compute. reflexivity.
Defined.

Lemma demo_segmentable (t : list (list Z)) rs :
  map ref_str rs = t -> (forall i j, demo_graphemes (concat (take j (drop i t))) = take j (drop i t)) ->
  segmentable rs.
Proof.
  intros <- Ht a b c ->. specialize (Ht (length a) (length b)).
  rewrite !map_app, drop_app_length', take_app_length' in Ht by by rewrite length_map. done.
Qed.

(** Three cells and two spaces: the spaces are dropped. *)
Definition spaced_cells : list Cell :=
  demo_cells ++ [blank_with_attrs blank_attrs; blank_with_attrs bold].

Lemma spaced_cells_ok : vec_ok spaced_cells.
Proof. apply vec_okb_ok. vm_compute. reflexivity. Qed.

Lemma wrap_keeps_cells_witness :
  exists ls, wrap 2 7 (from_cells spaced_cells 7) = Some ls /\ map len ls = [1; 2; 1]%nat.
Proof.
  set (l := from_cells spaced_cells 7).
  pose proof (vec_ok_indexed _ spaced_cells_ok) as Hi. pose proof (vec_ok_narrow _ spaced_cells_ok) as Hn.
  destruct (wrap_keeps_cells 2 7 l (take 3 (visible_cells l)) (drop 3 (visible_cells l)))
    as (_ & _ & ls & H1 & H2 & _).
  - symmetry. apply take_drop.
  - repeat (apply Forall_cons; split; [vm_compute; reflexivity|]). by apply Forall_nil.
  - intros r Hr. vm_compute in Hr. injection Hr as <-. by vm_compute.
  - vm_compute. tauto.
  - by apply Forall_take.
  - repeat (apply Forall_cons; split; [vm_compute; lia|]). by apply Forall_nil.
  - apply (demo_segmentable [[120]; demo_wide; [121]]); [vm_compute; reflexivity|].
    intros [|[|[|[|i]]]] [|[|[|[|j]]]]; vm_compute; reflexivity.
  - exists ls. split; [exact H1|]. rewrite H2. vm_compute. reflexivity.
Defined.
