(* ===== verification/LineEdit.v ===== *)
(** Theorems on the edits of a line: setting a cell, and where the code does not keep
    what it promises. *)

From Stdlib Require Import ZArith Lia String.
From S2P Require Import Prelude Color CsiTypes CharWidth Cell CellProps Line LineProps.
From stdpp Require Import base numbers list option gmap.
Local Open Scope Z_scope.

(** ** Which cell is seen at a column *)

Lemma find_vec_iter m : forall i k cells c,
  (k <= 1)%nat -> Forall (fun c => cell_width c <= 2) cells -> cells !! m = Some c ->
  (m = O -> k = O) ->
  (forall m', m = S m' -> exists p, cells !! m' = Some p /\ cell_width p <= 1) ->
  List.find (fun r => (ref_index r =? i + m)%nat) (vec_iter i k cells) =
    Some (CellRef_CellRef (i + m) c).
Proof.
  induction m as [|m IH]; intros i k cells c Hk Hw Hc H0 HS.
  - rewrite (H0 eq_refl). destruct cells as [|x cells]; simplify_eq/=.
    by rewrite Nat.add_0_r, Nat.eqb_refl.
  - destruct cells as [|x cells]; [done|]. cbn in Hc. apply Forall_cons in Hw as [Hx Hw].
    assert (HS' : forall m', m = S m' -> exists p, cells !! m' = Some p /\ cell_width p <= 1).
    { intros m' ->. destruct (HS (S m') eq_refl) as (p & Hp & Hpw). by exists p. }
    replace (i + S m)%nat with (S i + m)%nat by lia. destruct k as [|k]; cbn [vec_iter].
    + cbn [List.find ref_index]. rewrite (proj2 (Nat.eqb_neq _ _)) by lia.
      apply IH; try done; [lia|]. intros ->.
      destruct (HS O eq_refl) as (p & Hp & Hpw). simplify_eq/=. lia.
    + apply IH; try done; lia.
Qed.

Section Edit.
Context `{CharTables} `{Graphemes} `{BitSet} `{!BitSetLaws} `{HyperlinkRules}.

(** The vector, long enough for [n] columns. *)
Definition padded (n : nat) (cells : list Cell) : list Cell :=
  if (length cells <? n)%nat then vec_resize n cells else cells.

Lemma padded_length n cells : length (padded n cells) = Nat.max n (length cells).
Proof.
  unfold padded, vec_resize. case_match; bool_to_prop; [|lia].
  rewrite length_app, length_take, length_replicate. lia.
Qed.

Lemma padded_Forall (P : Cell -> Prop) n cells :
  P Cell_blank -> Forall P cells -> Forall P (padded n cells).
Proof.
  intros Hb Hc. unfold padded, vec_resize. case_match; [|done].
  apply Forall_app. split; [by apply Forall_take|by apply Forall_replicate].
Qed.

(** The cell before the column after its wide neighbour is blanked. *)
Definition nerfed (p : Cell) : Cell := if 1 <? cell_width p then blank_with_attrs (attrs p) else p.

Lemma nerf_before_spec idx cells :
  (idx < length cells)%nat -> Forall (fun c => cell_width c = 1 \/ cell_width c = 2) cells ->
  exists cells', nerf_before idx cells = Some cells' /\ length cells' = length cells /\
    (forall j, (S j < idx \/ idx < j)%nat -> cells' !! j = cells !! j) /\
    (forall m p, idx = S m -> cells !! m = Some p -> cells' !! m = Some (nerfed p)) /\
    (forall Q : CellAttributes -> Prop, Forall (fun c => Q (attrs c)) cells ->
       Forall (fun c => Q (attrs c)) cells').
Proof.
  intros Hi Hw. unfold nerf_before. destruct idx as [|m]; [by exists cells|].
  destruct (lookup_lt_is_Some_2 cells m) as [p Hp]; [lia|]. rewrite Hp. cbn [mbind option_bind].
  destruct (Z.ltb_spec 1 (cell_width p)) as [Hwide|Hwide].
  - assert (cell_width p = 2) as ->.
    { rewrite Forall_lookup in Hw. specialize (Hw m p Hp). lia. }
    set (b := blank_with_attrs (attrs p)). change (Z.to_nat 2) with 2%nat.
    cbn [seq rev app foldr mbind option_bind].
    rewrite arr_set_Some by lia. cbn [mbind option_bind].
    rewrite arr_set_Some by (rewrite length_insert; lia).
    eexists. split; [done|]. rewrite !length_insert. split; [done|]. split; [|split].
    + intros j Hj. by rewrite !list_lookup_insert_ne by lia.
    + intros m' p' [= <-] Hp'. rewrite list_lookup_insert_ne by lia.
      rewrite list_lookup_insert_eq by lia. simplify_eq. unfold nerfed.
      by rewrite (proj2 (Z.ltb_lt _ _) Hwide).
    + intros Q HQ. assert (Q (attrs b)).
      { rewrite Forall_lookup in HQ. by apply (HQ m p). }
      by repeat apply Forall_insert.
  - exists cells. split_and!; try done. intros m' p' [= <-] Hp'. simplify_eq. unfold nerfed.
    by rewrite (proj2 (Z.ltb_ge _ _) Hwide).
Qed.

(** No placed image of the old cell is kept. *)
Lemma vec_set_cell_spec idx c clear cells :
  (idx < length cells)%nat ->
  clear = true \/ (exists old, cells !! idx = Some old /\ images (attrs old) = None) ->
  vec_set_cell idx c clear cells = Some (<[idx := c]> cells).
Proof.
  intros Hi Hc. unfold vec_set_cell. destruct (lookup_lt_is_Some_2 cells idx Hi) as [old Ho].
  rewrite Ho. cbn [mbind option_bind]. destruct Hc as [->|(old' & Ho' & Him)]; [done|].
  simplify_eq. rewrite Him. by destruct clear.
Qed.

(** Placing a cell of one or two columns in a vector. *)
Lemma vec_place_spec idx c clear cells :
  Forall (fun c => cell_width c = 1 \/ cell_width c = 2) cells ->
  clear = true \/ Forall (fun c => images (attrs c) = None) cells ->
  cell_width c = 1 \/ cell_width c = 2 ->
  let n := (idx + Z.to_nat (cell_width c))%nat in
  exists cells', vec_place idx c clear cells = Some cells' /\
    length cells' = Nat.max n (length cells) /\
    cells' !! idx = Some c /\
    (forall j, (idx < j < n)%nat -> cells' !! j = Some (blank_with_attrs (attrs c))) /\
    (forall j, (S j < idx \/ n <= j)%nat -> cells' !! j = padded n cells !! j) /\
    (forall m p, idx = S m -> padded n cells !! m = Some p -> cells' !! m = Some (nerfed p)).
Proof.
  intros Hw Him Hc n. unfold vec_place. cbv zeta.
  replace (Z.to_nat (Z.max 1 (cell_width c))) with (Z.to_nat (cell_width c)) by lia. fold n.
  fold (padded n cells). pose proof (padded_length n cells) as Hlen.
  assert (Hi : (idx < length (padded n cells))%nat) by lia.
  destruct (nerf_before_spec idx (padded n cells) Hi) as (cells1 & -> & Hlen1 & Hother1 & Hprior1 & HQ).
  { apply padded_Forall; [by left|done]. }
  cbn [mbind option_bind].
  assert (Him1 : clear = true \/ Forall (fun c => images (attrs c) = None) cells1).
  { destruct Him as [->|Him]; [by left|]. right. apply (HQ (fun a => images a = None)).
    by apply (padded_Forall (fun c => images (attrs c) = None)). }
  assert (Hold : forall j, (j < length cells1)%nat -> clear = true \/
            exists old, cells1 !! j = Some old /\ images (attrs old) = None).
  { intros j Hj. destruct Him1 as [|Him1]; [by left|]. right.
    destruct (lookup_lt_is_Some_2 cells1 j Hj) as [old Ho]. exists old. split; [done|].
    rewrite Forall_lookup in Him1. by apply (Him1 j). }
  set (b := blank_with_attrs (attrs c)).
  destruct Hc as [Hc|Hc]; subst n; rewrite Hc in *;
    [change (Z.to_nat 1) with 1%nat in *|change (Z.to_nat 2) with 2%nat in *];
    cbn [Nat.sub seq rev app foldr mbind option_bind].
  - rewrite vec_set_cell_spec by (lia || apply Hold; lia).
    eexists. split; [done|]. rewrite length_insert, Hlen1, Hlen.
    split; [done|]. split; [apply list_lookup_insert_eq; lia|]. split; [lia|]. split.
    + intros j Hj. rewrite list_lookup_insert_ne by lia. apply Hother1. lia.
    + intros m p -> Hp. rewrite list_lookup_insert_ne by lia. by apply Hprior1.
  - rewrite (vec_set_cell_spec (idx + 1)) by (lia || apply Hold; lia).
    cbn [mbind option_bind]. rewrite vec_set_cell_spec.
    + eexists. split; [done|]. rewrite !length_insert, Hlen1, Hlen. split; [done|].
      split; [apply list_lookup_insert_eq; rewrite length_insert; lia|]. split; [|split].
      * intros j Hj. replace j with (idx + 1)%nat by lia.
        rewrite list_lookup_insert_ne by lia. apply list_lookup_insert_eq. lia.
      * intros j Hj. rewrite !list_lookup_insert_ne by lia. apply Hother1. lia.
      * intros m p -> Hp. rewrite !list_lookup_insert_ne by lia. by apply Hprior1.
    + rewrite length_insert. lia.
    + rewrite list_lookup_insert_ne by lia. apply Hold. lia.
Qed.

(** The cells of [cells] with [c] at the column [idx], in a vector: the cell is seen at its column and its
    second column is a blank of its style; every column that does not belong to it or to the
    neighbour before it is as it was (blank where the line was extended), and a wide neighbour, whose second
    column is taken, is a blank. *)
Definition placed (idx : nat) (c : Cell) (cells : list Cell) (l' : Line) : Prop :=
  let n := (idx + Z.to_nat (cell_width c))%nat in
  exists cells', storage l' = V cells' /\ length cells' = Nat.max n (length cells) /\
    get_cell idx l' = Some (CellRef_CellRef idx c) /\
    (forall j, (idx < j < n)%nat -> cells' !! j = Some (blank_with_attrs (attrs c))) /\
    (forall j, (S j < idx \/ n <= j)%nat -> cells' !! j = padded n cells !! j) /\
    (forall m p, idx = S m -> padded n cells !! m = Some p -> cells' !! m = Some (nerfed p)).

Lemma edit_place idx c clear l :
  Forall (fun c => cell_width c = 1 \/ cell_width c = 2) (vec_of l) ->
  clear = true \/ Forall (fun c => images (attrs c) = None) (vec_of l) ->
  cell_width c = 1 \/ cell_width c = 2 ->
  exists cells', edit_vec (vec_place idx c clear) l = Some (set_storage (V cells') l) /\
    placed idx c (vec_of l) (set_storage (V cells') l).
Proof.
  intros Hw Him Hc. unfold edit_vec.
  destruct (vec_place_spec idx c clear (vec_of l) Hw Him Hc) as (cells' & -> & Hlen & Hidx & Hblank & Ho & Hn).
  exists cells'. split; [done|]. unfold placed. exists cells'. split_and!; try done.
  set (n := (idx + Z.to_nat (cell_width c))%nat) in *.
  unfold get_cell, visible_cells. cbn [storage set_storage].
  assert (Hnerf : forall m, idx = S m -> exists p, cells' !! m = Some p /\ cell_width p <= 1).
  { intros m ->. destruct (lookup_lt_is_Some_2 (padded n (vec_of l)) m) as [p Hpm].
    { rewrite padded_length. lia. }
    exists (nerfed p). split; [by apply Hn|]. unfold nerfed. by destruct (Z.ltb_spec 1 (cell_width p)). }
  apply (find_vec_iter idx 0 0); try done; [lia|].
  apply Forall_lookup. intros j x Hx.
  destruct (decide (j = idx)) as [->|Hj]; [simplify_eq; lia|].
  destruct (decide (S j = idx)) as [Hj1|Hj1].
  { destruct (Hnerf j (eq_sym Hj1)) as (p & Hp' & Hle). simplify_eq. lia. }
  destruct (decide (idx < j < n)%nat) as [Hj2|Hj2].
  { rewrite Hblank in Hx by done. simplify_eq. done. }
  rewrite Ho in Hx by lia.
  assert (Hpad : Forall (fun c => cell_width c = 1 \/ cell_width c = 2) (padded n (vec_of l)))
    by (apply padded_Forall; [by left|done]).
  rewrite Forall_lookup in Hpad. specialize (Hpad j x Hx). lia.
Qed.

(** The blanks that a line in runs implies, written out. *)
Definition blank_refs (i n : nat) : list CellRef :=
  map (fun k => CellRef_ClusterRef k (bs " ") 1 blank_attrs) (seq i n).

Lemma pad_represents n : forall cl rs, represents cl rs ->
  exists cl', pad_cluster n cl = Some cl' /\ represents cl' (rs ++ blank_refs (cl_len cl) n) /\
    cl_len cl' = (cl_len cl + n)%nat.
Proof.
  induction n as [|n IH]; intros cl rs Hr; cbn [pad_cluster].
  - exists cl. rewrite app_nil_r. by split_and!.
  - destruct (append_represents cl rs (bs " ") 1 blank_attrs Hr) as (cl1 & -> & Hr1 & _); [by left|].
    assert (Hl : cl_len cl1 = S (cl_len cl)).
    { rewrite (rep_len _ _ Hr1), total_cols_app, <- (rep_len _ _ Hr). unfold total_cols, cols. cbn. lia. }
    destruct (IH cl1 _ Hr1) as (cl' & Hp & Hr' & Hl'). cbn [mbind option_bind].
    exists cl'. split; [done|]. rewrite <- (assoc_L app), Hl in Hr'. split; [exact Hr'|lia].
Qed.

End Edit.

#[local] Existing Instances demo_tables demo_bitset demo_bitset_laws demo_rules.
#[local] Instance demo_segmentation : Graphemes := demo_graphemes.


(** ** Oversights *)

Lemma bits_put_testbit b k v i :
  0 <= i -> 0 <= k < 9 ->
  Z.testbit (bits_put b (2 ^ k) v) i =
    if i =? k then v else if v then Z.testbit b i else Z.testbit b i && (i <? 9).
Proof.
  intros Hi Hk. unfold bits_put, bits_insert, bits_remove, bits_not.
  change 0x1FF with (Z.ones 9). rewrite (Z.eqb_sym i k). destruct v.
  - rewrite Z.lor_spec, Z.pow2_bits_eqb by lia.
    destruct (Z.eqb_spec k i); [apply orb_true_r|apply orb_false_r].
  - rewrite Z.land_spec, Z.lxor_spec, testbit_ones, Z.pow2_bits_eqb by lia.
    rewrite (proj2 (Z.leb_le 0 i)) by done. cbn [andb]. destruct (Z.eqb_spec k i) as [->|].
    + rewrite (proj2 (Z.ltb_lt _ _)) by lia. apply andb_false_r.
    + by rewrite xorb_false_l.
Qed.

Lemma bits_contains_testbit b k : 0 <= k -> bits_contains b (2 ^ k) = Z.testbit b k.
Proof.
  intros Hk. unfold bits_contains. apply eq_true_iff_eq. rewrite Z.eqb_eq. split.
  - intros E. apply (f_equal (fun z => Z.testbit z k)) in E.
    by rewrite Z.land_spec, Z.pow2_bits_true, andb_true_r in E.
  - intros E. apply Z.bits_inj'. intros i Hi. rewrite Z.land_spec, Z.pow2_bits_eqb by done.
    destruct (Z.eqb_spec k i) as [->|]; [by rewrite E|apply andb_false_r].
Qed.

Lemma set_direction_info d auto sq l :
  (bidi_info (set_direction d auto sq l)).2 =
    match auto, d with
    | false, Direction_LeftToRight => Hint_RightToLeft
    | false, Direction_RightToLeft => Hint_LeftToRight
    | true, Direction_LeftToRight => Hint_AutoRightToLeft
    | true, Direction_RightToLeft => Hint_AutoLeftToRight
    end.
Proof.
  unfold bidi_info, set_direction. cbn [snd line_bits set_bits update_last_change_seqno].
  change AUTO_DETECT_DIRECTION with (2 ^ 8). change RTL with (2 ^ 7).
  rewrite !bits_contains_testbit, !bits_put_testbit by lia. by destruct auto, d.
Qed.

(** A line that ends in a wide cell and is marked as wrapped, and a bold "x". *)
Definition wrapped_wide : list Cell :=
  [new_grapheme_with_width demo_wide 2 (set_wrapped true blank_attrs);
   blank_with_attrs (set_wrapped true blank_attrs)].
Definition bold_x : Line := from_cells [new_grapheme_with_width [120] 1 bold] 7.

(** Clear the mark of a line and join the next to it, as a resize does. *)
Definition rejoin (l : option Line) : option (bool * list (option Intensity)) :=
  l ← l; l ← set_last_cell_was_wrapped false 8 l; l' ← append_line bold_x 8 l;
  Some (last_cell_was_wrapped l, map (fun r => intensity (ref_attrs r)) (visible_cells l')).

(** oversights. [set_direction] sets the opposite direction, whatever the line. A cell
    inserted at the second column of a wide cell cannot be seen, as the wide cell is not
    blanked first: the text shown is that of an inserted blank. The wrapped mark of a line that ends in
    a wide cell is not cleared when lines are joined: in a vector the mark of its hidden
    second column is; and in a compressed line, where the width of that cell is noted as one, the
    run is split in the middle of the cell, so that the next cell loses its attributes. *)
Theorem line_oversights :
  (forall d sq l, (bidi_info (set_direction d false sq l)).2 =
     match d with
     | Direction_LeftToRight => Hint_RightToLeft
     | Direction_RightToLeft => Hint_LeftToRight
     end) /\
  as_str <$> insert_cell 2 (new_grapheme_with_width [122] 1 bold) 80 8 (from_cells demo_cells 7) =
    Some ([120] ++ demo_wide ++ [32; 121]) /\
  rejoin (Some (from_cells wrapped_wide 7)) = Some (true, [Some Intensity_Normal; Some Intensity_Bold]) /\
  rejoin (compress_for_scrollback (from_cells wrapped_wide 7)) =
    Some (true, [Some Intensity_Normal; Some Intensity_Normal]).
Proof.
  split; [intros d sq l; by rewrite set_direction_info; destruct d|].
  split_and!; vm_compute; reflexivity.
Qed.
