(* ===== verification/LineSafe.v ===== *)
(** Lines of plain text: every cell has one column and a text of an alphabet whose strings the
    segmentation gives back. The edits of [line.rs] that the terminal uses return on
    such lines, and their lines are plain again. *)

From Stdlib Require Import ZArith Lia String.
From S2P Require Import Prelude CallMonad Post Color CsiTypes CharWidth Cell CellProps Line LineProps LineEdit.
From stdpp Require Import base numbers list option gmap.
Local Open Scope Z_scope.

(** An alphabet of graphemes: short, without control characters, and a text of them is
    segmented into them. *)
Class SimpleText `{Graphemes} (G : list Z -> Prop) : Prop := {
  simple_space : G (bs " ");
  simple_plain g : G g -> plain g /\ defang g = g /\ (length g < 8)%nat;
  simple_last_space g : G g -> last g = Some 32 -> g = bs " ";
  simple_segments gs : Forall G gs -> graphemes (concat gs) = gs
}.

Definition is_inline (t : TeenyString) : Prop :=
  match t with Inline _ => True | Heap _ _ => False end.

Section Plain.
Context `{CharTables} `{Graphemes} `{BitSet} `{!BitSetLaws} `{HyperlinkRules}.
Context (G : list Z -> Prop) `{!SimpleText G}.
(** No line is longer than this; the runs of a line count their columns in 16 bits. *)
Context (max_cols : nat) (Hmax : Z.of_nat max_cols <= u16_max).

Record plain_cell (c : Cell) : Prop := {
  pc_width : cell_width c = 1; pc_text : G (cell_str c); pc_inline : is_inline (text c)
}.

Definition plain_ref (r : CellRef) : Prop := ref_width r = 1 /\ G (ref_str r).

Definition plain_cl (cl : ClusteredLine) : Prop :=
  (exists rs, represents cl rs /\ Forall plain_ref rs) /\
  (last_cell_width cl = None \/ last_cell_width cl = Some 1).

Definition plain_storage (st : CellStorage) : Prop :=
  match st with V cells => Forall plain_cell cells | C cl => plain_cl cl end.

Record plain_line (l : Line) : Prop := {
  pl_storage : plain_storage (storage l);
  pl_bits : unscanned (line_bits l);
  pl_len : (len l <= max_cols)%nat
}.

(** ** Cells *)

Lemma plain_grapheme t a : G t -> plain_cell (new_grapheme_with_width t 1 a).
Proof.
  intros Ht. destruct (simple_plain t Ht) as (Hp & Hd & Hl). unfold new_grapheme_with_width.
  split; unfold cell_width, cell_str; cbn [text].
  - rewrite from_str_width by done. unfold stored_width. rewrite Hd. cbn. by case_match.
  - by rewrite from_str_bytes, Hd.
  - unfold from_str. rewrite Hd, (proj2 (Nat.ltb_lt _ _) Hl). done.
Qed.

Lemma plain_blank a : plain_cell (blank_with_attrs a).
Proof. split; [done| |done]. apply simple_space. Qed.

Lemma plain_set_attrs f c : plain_cell c -> plain_cell (set_cell_attrs f c).
Proof. by intros []. Qed.

Lemma plain_clone c : plain_cell c -> Cell_clone c = c.
Proof. intros [_ _ Hi]. unfold Cell_clone. destruct c as [[w|] a]; done. Qed.

Lemma plain_clones cells : Forall plain_cell cells -> map Cell_clone cells = cells.
Proof. induction 1 as [|c cells Hc _ IH]; [done|]. cbn. by rewrite IH, plain_clone. Qed.

Lemma plain_narrow r : plain_ref r -> narrow r.
Proof. intros [Hw _]. by left. Qed.

Lemma plain_narrows rs : Forall plain_ref rs -> Forall narrow rs.
Proof. intros Hr. eapply Forall_impl; [exact Hr|]. apply plain_narrow. Qed.

Lemma plain_cols rs : Forall plain_ref rs -> total_cols rs = length rs.
Proof.
  induction 1 as [|r rs [Hw _] _ IH]; [done|]. unfold total_cols in *. cbn. rewrite IH.
  unfold cols. by rewrite Hw.
Qed.

Lemma plain_segments rs :
  Forall plain_ref rs -> graphemes (concat (map ref_str rs)) = map ref_str rs.
Proof.
  intros Hr. apply simple_segments. apply Forall_map. eapply Forall_impl; [exact Hr|]. by intros r [].
Qed.

Lemma plain_same rs rs' : Forall2 ref_same rs rs' -> Forall plain_ref rs' -> Forall plain_ref rs.
Proof.
  induction 1 as [|r r' rs rs' (_ & Es & Ew & _) _ IH]; [done|].
  intros [[Hw Ht] Hr]%Forall_cons. constructor; [|auto]. unfold plain_ref. by rewrite Ew, Es.
Qed.

Lemma plain_as_cell r : plain_ref r ->
  (exists i t w a, r = CellRef_ClusterRef i t w a) \/
  (exists i c, r = CellRef_CellRef i c /\ plain_cell c) -> plain_cell (as_cell r).
Proof.
  intros [Hw Ht] [(i & t & w & a & ->)|(i & c & -> & Hc)]; cbn in *.
  - subst w. by apply plain_grapheme.
  - by rewrite plain_clone.
Qed.

(** ** Reading *)

Lemma plain_vec_iter i cells :
  Forall plain_cell cells ->
  Forall plain_ref (vec_iter i 0 cells) /\ length (vec_iter i 0 cells) = length cells.
Proof.
  intros Hc. revert i. induction Hc as [|c cells [Hw Ht Hi] _ IH]; intros i; [done|].
  cbn [vec_iter]. rewrite Hw. destruct (IH (S i)) as [IH1 IH2]. cbn [length].
  split; [by constructor|]. by rewrite <- IH2.
Qed.

Lemma plain_iter cl :
  plain_cl cl -> Forall plain_ref (cl_iter cl) /\ length (cl_iter cl) = cl_len cl.
Proof.
  intros [(rs & Hrep & Hrs) _].
  pose proof (iter_represents cl rs Hrep (plain_segments rs Hrs)) as Hsame.
  split; [by eapply plain_same|]. rewrite (Forall2_length _ _ _ Hsame), (rep_len _ _ Hrep).
  by rewrite plain_cols.
Qed.

Lemma plain_visible l :
  plain_line l -> Forall plain_ref (visible_cells l) /\ length (visible_cells l) = len l.
Proof.
  intros [Hs _ _]. unfold visible_cells, len. destruct (storage l) as [cells|cl].
  - by apply plain_vec_iter.
  - by apply plain_iter.
Qed.

Lemma plain_spread rs :
  Forall plain_ref rs -> Forall (fun r => exists i t w a, r = CellRef_ClusterRef i t w a) rs ->
  Forall plain_cell (concat (map spread rs)) /\ length (concat (map spread rs)) = length rs.
Proof.
  induction 1 as [|r rs Hr Hrs IH]; [done|]. intros [Hf Hfs]%Forall_cons. specialize (IH Hfs).
  cbn [map concat]. unfold spread at 1 3. destruct IH as [IH1 IH2]. pose proof Hr as [Hw _]. rewrite Hw.
  change (replicate _ _) with (@nil Cell). cbn [app length]. rewrite IH2. split; [|done].
  constructor; [|done]. apply plain_as_cell; auto.
Qed.

Lemma plain_vec_of l :
  plain_line l -> Forall plain_cell (vec_of l) /\ length (vec_of l) = len l.
Proof.
  intros [Hs _ _]. unfold vec_of, len. destruct (storage l) as [cells|cl]; [done|].
  destruct (plain_iter cl Hs) as [Hp <-]. apply plain_spread; [done|]. apply cluster_iter_form.
Qed.

Lemma plain_as_cells l : plain_line l -> Forall plain_cell (map as_cell (visible_cells l)).
Proof.
  intros Hl. destruct (plain_visible l Hl) as [Hp _]. apply Forall_map.
  pose proof (pl_storage _ Hl) as Hs. unfold visible_cells in *.
  destruct (storage l) as [cells|cl].
  - apply (vec_iter_Forall _ 0 0) in Hs. apply Forall_forall. intros r Hr.
    rewrite Forall_forall in Hp, Hs. destruct (Hs r Hr) as (j & c & -> & Hc).
    apply plain_as_cell; [by apply Hp|]. right. eauto.
  - apply Forall_forall. intros r Hr. rewrite Forall_forall in Hp.
    apply plain_as_cell; [by apply Hp|]. left.
    pose proof (cluster_iter_form cl (graphemes (cl_text cl)) (clusters cl) 0 0) as Hf.
    rewrite Forall_forall in Hf. by apply Hf.
Qed.

(** ** Steps that keep a plain line *)

Lemma plain_new sq : plain_line (Line_new sq).
Proof.
  split; [|done|cbn; lia]. split; [|by left]. exists []. split; [apply represents_new|done].
Qed.

Lemma plain_cells cells sq :
  Forall plain_cell cells -> (length cells <= max_cols)%nat -> plain_line (from_cells cells sq).
Proof. by split. Qed.

Lemma plain_update sq l : plain_line l -> plain_line (update_last_change_seqno sq l).
Proof. by intros []. Qed.

Lemma plain_zones l : plain_line l -> plain_line (invalidate_zones l).
Proof. by intros []. Qed.

Lemma plain_touch sq l : plain_line l -> plain_line (touch sq l).
Proof. by intros []. Qed.

Lemma plain_mark a l : plain_line l -> plain_line (mark_hyperlink a l).
Proof.
  intros [Hs Hb Hl]. destruct (mark_hyperlink_spec a l) as [E Hb'].
  split; [by rewrite E|auto|]. unfold len in *. by rewrite E.
Qed.

Lemma plain_invalidate sq l : plain_line l -> invalidate_implicit_hyperlinks sq l = l.
Proof. intros [_ Hb _]. by apply invalidate_unscanned. Qed.

Lemma plain_bits b l : plain_line l -> unscanned b -> plain_line (set_bits b l).
Proof. by intros []. Qed.

Lemma plain_set_storage st l :
  plain_line l -> plain_storage st -> (len (set_storage st l) <= max_cols)%nat ->
  plain_line (set_storage st l).
Proof. by intros []. Qed.

(** Flags that do not say that the line was scanned for links. *)
Definition scan_free (f : Z) : Prop :=
  Z.land f (Z.lor SCANNED_IMPLICIT_HYPERLINKS HAS_IMPLICIT_HYPERLINKS) = 0.

Lemma unscanned_put b f v : unscanned b -> scan_free f -> unscanned (bits_put b f v).
Proof.
  unfold unscanned, scan_free, bits_put, bits_insert, bits_remove. intros Hb Hf. destruct v.
  - by rewrite Z.land_lor_distr_l, Hb, Hf.
  - rewrite <- Z.land_assoc, (Z.land_comm (bits_not f)), Z.land_assoc, Hb. done.
Qed.

Lemma unscanned_insert b f : unscanned b -> scan_free f -> unscanned (bits_insert b f).
Proof. intros Hb Hf. exact (unscanned_put b f true Hb Hf). Qed.

Lemma unscanned_remove b f : unscanned b -> unscanned (bits_remove b f).
Proof.
  unfold unscanned, bits_remove. intros Hb.
  by rewrite <- Z.land_assoc, (Z.land_comm (bits_not f)), Z.land_assoc, Hb.
Qed.

Lemma plain_bidi e h sq l : plain_line l -> plain_line (set_bidi_info e h sq l).
Proof.
  intros Hl. unfold set_bidi_info. destruct h; apply plain_update, plain_bits; try done;
    repeat apply unscanned_put; by try apply pl_bits.
Qed.

Lemma plain_single sq l : plain_line l -> plain_line (set_single_width sq l).
Proof. intros Hl. apply plain_update, plain_bits; [done|]. by apply unscanned_remove, pl_bits. Qed.

Lemma plain_double_width sq l : plain_line l -> plain_line (set_double_width sq l).
Proof.
  intros Hl. apply plain_update, plain_bits; [done|].
  apply unscanned_insert; [|done]. by apply unscanned_remove, pl_bits.
Qed.

Lemma plain_double_top sq l : plain_line l -> plain_line (set_double_height_top sq l).
Proof.
  intros Hl. apply plain_update, plain_bits; [done|].
  apply unscanned_insert; [|done]. by apply unscanned_remove, pl_bits.
Qed.

Lemma plain_double_bottom sq l : plain_line l -> plain_line (set_double_height_bottom sq l).
Proof.
  intros Hl. apply plain_update, plain_bits; [done|].
  apply unscanned_insert; [|done]. by apply unscanned_remove, pl_bits.
Qed.

(** A change to the vector of the cells. *)
Definition plain_vec (cells : list Cell) : Prop :=
  Forall plain_cell cells /\ (length cells <= max_cols)%nat.

Lemma plain_vec_line l : plain_line l -> plain_vec (vec_of l).
Proof. intros Hl. destruct (plain_vec_of l Hl) as [Hc E]. split; [done|]. rewrite E. apply Hl. Qed.

Lemma plain_edit f l :
  plain_line l -> yields (f (vec_of l)) plain_vec -> yields (edit_vec f l) plain_line.
Proof.
  intros Hl Hf. unfold edit_vec. eapply yields_bind; [exact Hf|]. intros cells [Hc Hn].
  apply yields_Some, plain_set_storage; done.
Qed.

Lemma plain_map f l : plain_line l -> plain_vec (f (vec_of l)) -> plain_line (map_vec f l).
Proof. intros Hl [Hc Hn]. by apply plain_set_storage. Qed.

Lemma plain_resized n cells :
  Forall plain_cell cells -> (n <= max_cols)%nat -> plain_vec (vec_resize n cells).
Proof.
  intros Hc Hn. unfold vec_resize. split.
  - apply Forall_app. split; [by apply Forall_take|]. apply Forall_replicate, plain_blank.
  - rewrite length_app, length_take, length_replicate. lia.
Qed.

Lemma plain_resize n sq l : plain_line l -> (n <= max_cols)%nat -> plain_line (Line.resize n sq l).
Proof.
  intros Hl Hn. apply plain_touch, plain_map; [done|]. apply plain_resized; [|done].
  by apply plain_vec_line.
Qed.

Lemma plain_resize_and_clear n sq a l :
  plain_line l -> (n <= max_cols)%nat -> plain_line (resize_and_clear n sq a l).
Proof.
  intros Hl Hn. apply plain_bits; [|done]. apply plain_touch, plain_map; [done|]. split.
  - apply Forall_app. split; [apply Forall_take|]; [|apply Forall_replicate, plain_blank].
    apply Forall_map, Forall_forall. intros c _. apply plain_blank.
  - rewrite length_app, length_take, length_replicate, length_map. lia.
Qed.

(** ** Setting cells *)

Lemma plain_nerf idx cells :
  (idx <= length cells)%nat -> Forall plain_cell cells -> nerf_before idx cells = Some cells.
Proof.
  intros Hi Hc. unfold nerf_before. destruct idx as [|p]; [done|].
  destruct (lookup_lt_is_Some_2 cells p Hi) as [c E]. rewrite E. cbn [mbind option_bind].
  rewrite Forall_lookup in Hc. by rewrite (pc_width _ (Hc p c E)).
Qed.

Lemma plain_attach ims c : plain_cell c ->
  plain_cell (fold_left (fun c im => if has_placement_id im
                                     then set_cell_attrs (attach_image im) c else c) ims c).
Proof.
  revert c. induction ims as [|im ims IH]; intros c Hc; [done|]. cbn [fold_left]. apply IH.
  case_match; [by apply plain_set_attrs|done].
Qed.

Lemma plain_vec_set idx c clear cells :
  Forall plain_cell cells -> (idx < length cells)%nat -> plain_cell c ->
  yields (vec_set_cell idx c clear cells)
    (fun cells' => Forall plain_cell cells' /\ length cells' = length cells).
Proof.
  intros Hcs Hi Hc. unfold vec_set_cell. eapply yields_bind; [by apply yields_lookup|].
  intros old _. apply yields_Some. rewrite length_insert. split; [|done].
  apply Forall_insert; [done|]. repeat case_match; try done. by apply plain_attach.
Qed.

Lemma plain_place idx c clear cells :
  Forall plain_cell cells -> plain_cell c ->
  yields (vec_place idx c clear cells)
    (fun cells' => Forall plain_cell cells' /\ length cells' = Nat.max (S idx) (length cells)).
Proof.
  intros Hcs Hc. unfold vec_place. cbv zeta. rewrite (pc_width _ Hc).
  change (Z.to_nat (Z.max 1 1)) with 1%nat. fold (padded (idx + 1) cells).
  pose proof (padded_length (idx + 1) cells) as Hlen.
  assert (Hp : Forall plain_cell (padded (idx + 1) cells))
    by (apply padded_Forall; [apply plain_blank|done]).
  rewrite plain_nerf by (done || lia). cbn [Nat.sub seq rev foldr mbind option_bind].
  eapply yields_weaken; [apply plain_vec_set; [done|lia|done]|].
  cbn. intros cells' [Hc' E]. split; [done|]. lia.
Qed.

Lemma plain_append t a cl :
  plain_cl cl -> G t ->
  yields (append_grapheme t 1 a cl) (fun cl' => plain_cl cl' /\ cl_len cl' = S (cl_len cl)).
Proof.
  intros [(rs & Hrep & Hrs) _] Ht.
  destruct (append_represents cl rs t 1 a Hrep ltac:(by left)) as (cl' & E & Hrep' & Hlast).
  rewrite E. apply yields_Some.
  assert (Hrs' : Forall plain_ref (rs ++ [CellRef_ClusterRef (cl_len cl) t 1 a]))
    by (apply Forall_app; split; [done|by apply Forall_singleton]).
  split; [split; [eauto|by right]|].
  pose proof (rep_len _ _ Hrep') as E1. pose proof (rep_len _ _ Hrep) as E2.
  rewrite plain_cols in E1, E2 by done. rewrite length_app in E1. cbn in E1. lia.
Qed.

Lemma plain_append_cell c cl :
  plain_cl cl -> plain_cell c ->
  yields (append c cl) (fun cl' => plain_cl cl' /\ cl_len cl' = S (cl_len cl)).
Proof. intros Hcl [Hw Ht _]. unfold append. rewrite Hw. by apply plain_append. Qed.

Lemma plain_pad n cl :
  plain_cl cl -> yields (pad_cluster n cl) (fun cl' => plain_cl cl' /\ cl_len cl' = (cl_len cl + n)%nat).
Proof.
  revert cl. induction n as [|n IH]; intros cl Hcl; cbn [pad_cluster].
  - apply yields_Some. split; [done|lia].
  - eapply yields_bind; [apply plain_append; [done|apply simple_space]|]. intros cl' [Hcl' E].
    eapply yields_weaken; [by apply IH|]. cbn. intros cl'' [Hcl'' E']. split; [done|]. lia.
Qed.

(** The line with its cells in another storage. *)
Lemma plain_put_cl cl l :
  plain_line l -> plain_cl cl -> (cl_len cl <= max_cols)%nat -> plain_line (set_storage (C cl) l).
Proof. intros Hl Hcl Hn. by apply plain_set_storage. Qed.

Lemma plain_edit_place idx c clear l :
  plain_line l -> plain_cell c -> (idx < max_cols)%nat ->
  yields (edit_vec (vec_place idx c clear) l) plain_line.
Proof.
  intros Hl Hc Hi. apply plain_edit; [done|]. destruct (plain_vec_line l Hl) as [Hcs Hn].
  eapply yields_weaken; [by apply plain_place|]. cbn. intros cells [Hcs' E]. split; [done|]. lia.
Qed.

Lemma plain_set_cell_impl idx c clear sq l :
  plain_line l -> plain_cell c -> (idx < max_cols)%nat ->
  yields (set_cell_impl idx c clear sq l) plain_line.
Proof.
  intros Hl Hc Hi. unfold set_cell_impl. rewrite plain_invalidate by done. cbv zeta.
  assert (Hl1 : plain_line (mark_hyperlink (attrs c) (update_last_change_seqno sq (invalidate_zones l))))
    by (by apply plain_mark, plain_update, plain_zones).
  revert Hl1. set (l1 := mark_hyperlink _ _). intros Hl1.
  pose proof (pl_storage _ Hl1) as Hs. pose proof (pl_len _ Hl1) as Hn. unfold len in Hn.
  destruct (storage l1) as [cells|cl]; [by apply plain_edit_place|].
  case_match; [done|]. eapply yields_bind; [by apply plain_pad|]. intros cl' [Hcl' E].
  destruct (Nat.eqb_spec idx (cl_len cl')) as [Ei|Ei].
  - eapply yields_bind; [by apply plain_append_cell|]. intros cl'' [Hcl'' E'].
    apply yields_Some, plain_put_cl; [done..|lia].
  - apply plain_edit_place; [|done..]. apply plain_put_cl; [done..|lia].
Qed.

Lemma plain_set_cell idx c sq l :
  plain_line l -> plain_cell c -> (idx < max_cols)%nat -> yields (set_cell idx c sq l) plain_line.
Proof. apply plain_set_cell_impl. Qed.

Lemma plain_set_cell_grapheme idx t a sq l :
  plain_line l -> G t -> (idx < max_cols)%nat ->
  yields (set_cell_grapheme idx t 1 a sq l) plain_line.
Proof.
  intros Hl Ht Hi. unfold set_cell_grapheme. cbv zeta.
  pose proof (plain_mark a l Hl) as Hl1. revert Hl1. set (l1 := mark_hyperlink _ _). intros Hl1.
  pose proof (pl_storage _ Hl1) as Hs. pose proof (pl_len _ Hl1) as Hn. unfold len in Hn.
  destruct (storage l1) as [cells|cl]; [apply plain_set_cell; [done|by apply plain_grapheme|done]|].
  case_match; [done|]. eapply yields_bind; [by apply plain_pad|]. intros cl' [Hcl' E].
  destruct (Nat.eqb_spec idx (cl_len cl')) as [Ei|Ei].
  - eapply yields_bind; [by apply plain_append|]. intros cl'' [Hcl'' E'].
    assert (plain_line (set_storage (C cl'') l1)) by (apply plain_put_cl; [done..|lia]).
    apply yields_Some, plain_update, plain_zones. by rewrite plain_invalidate.
  - apply plain_set_cell; [|by apply plain_grapheme|done]. apply plain_put_cl; [done..|lia].
Qed.

(** ** Inserting and erasing *)

Lemma plain_insert x c cells :
  Forall plain_cell cells -> plain_cell c -> (x <= length cells)%nat ->
  yields (vec_insert x c cells)
    (fun cells' => Forall plain_cell cells' /\ length cells' = S (length cells)).
Proof.
  intros Hcs Hc Hx. unfold vec_insert, insert_at. rewrite (proj2 (Nat.leb_le _ _) Hx).
  apply yields_Some. rewrite length_app. cbn. rewrite length_take, length_drop. split; [|lia].
  apply Forall_app. split; [by apply Forall_take|]. constructor; [done|by apply Forall_drop].
Qed.

Lemma plain_remove i cells :
  Forall plain_cell cells -> (i < length cells)%nat ->
  yields (vec_remove i cells)
    (fun cells' => Forall plain_cell cells' /\ length cells' = (length cells - 1)%nat).
Proof.
  intros Hcs Hi. unfold vec_remove. rewrite (proj2 (Nat.ltb_lt _ _) Hi). apply yields_Some.
  rewrite length_delete by by apply lookup_lt_is_Some_2. split; [by apply Forall_delete|lia].
Qed.

Lemma plain_insert_cell x c rm sq l :
  plain_line l -> plain_cell c -> (1 <= rm <= max_cols)%nat -> (x < max_cols)%nat ->
  yields (insert_cell x c rm sq l) plain_line.
Proof.
  intros Hl Hc Hrm Hx. unfold insert_cell. rewrite plain_invalidate by done. cbv zeta.
  eapply yields_bind; [apply (plain_edit _ l Hl)|]; [|intros l' Hl'; by apply plain_touch].
  destruct (plain_vec_line l Hl) as [Hcs Hn].
  eapply yields_bind with (P := fun cells : list Cell => Forall plain_cell cells /\ (length cells < max_cols)%nat).
  - destruct (Nat.leb_spec rm (length (vec_of l))).
    + rewrite usize_sub_Some by lia. cbn [mbind option_bind].
      eapply yields_weaken; [apply plain_remove; [done|lia]|]. cbn. intros cells [Hcs' E].
      split; [done|]. lia.
    + apply yields_Some. split; [done|]. lia.
  - intros cells [Hcs' Hn']. rewrite (pc_width _ Hc). cbn [Z.sub Z.to_nat seq foldr mbind option_bind].
    match goal with |- context [if (?a <=? ?b)%nat then ?u else ?v] =>
      set (cells1 := if (a <=? b)%nat then u else v) end.
    assert (Hc1 : Forall plain_cell cells1 /\ (x <= length cells1 < max_cols)%nat).
    { unfold cells1. case_match; bool_to_prop; [|split; [done|lia]].
      destruct (plain_resized x cells Hcs') as [Hr Hlen]; [lia|]. split; [done|].
      unfold vec_resize. rewrite length_app, length_take, length_replicate. lia. }
    destruct Hc1 as [Hc1 Hx1]. eapply yields_weaken; [apply plain_insert; [done..|lia]|].
    cbn. intros cells' [Hc' E]. split; [done|]. lia.
Qed.

Lemma plain_erase_cell x rm sq a l :
  plain_line l -> (x < rm <= max_cols)%nat ->
  yields (erase_cell_with_margin x rm sq a l) plain_line.
Proof.
  intros Hl Hx. unfold erase_cell_with_margin. rewrite plain_invalidate by done. cbv zeta.
  destruct (plain_vec_of l Hl) as [Hcs E]. pose proof (pl_len _ Hl) as Hn.
  eapply yields_bind with (P := fun l => plain_line l /\ ((len l < max_cols)%nat \/ (len l <= x)%nat)).
  - destruct (Nat.ltb_spec x (len l)); [|apply yields_Some; split; [done|by right]].
    unfold edit_vec. eapply yields_bind.
    + rewrite plain_nerf by (done || lia). cbn [mbind option_bind]. apply plain_remove; [done|lia].
    + intros cells [Hc' E']. apply yields_Some. split; [|left; cbn; lia].
      apply plain_set_storage; [done..|]. cbn. lia.
  - intros l1 [Hl1 Hn1]. destruct (plain_vec_of l1 Hl1) as [Hcs1 E1].
    eapply yields_bind with (P := plain_line); [|intros l2 Hl2; by apply plain_touch].
    destruct (Nat.leb_spec rm (len l1 + 1)); [|done].
    apply plain_edit; [done|]. rewrite usize_sub_Some by lia. cbn [mbind option_bind].
    eapply yields_weaken; [apply plain_insert; [done|apply plain_blank|lia]|].
    cbn. intros cells [Hc' E']. split; [done|]. lia.
Qed.

(** ** Pruning blanks *)

Lemma covers_init cs c rs r :
  covers (cs ++ [c]) (rs ++ [r]) -> Forall plain_ref (rs ++ [r]) ->
  1 <= cluster_width c /\
  covers (if cluster_width c - 1 =? 0 then cs
          else cs ++ [mkCluster (cluster_width c - 1) (cluster_attrs c)]) rs.
Proof.
  intros (r1 & g0 & E & Hc & Hg & Hw & Ha)%covers_snoc_inv Hp.
  destruct (snoc_or_nil g0) as [->|(g & r' & ->)]; [done|].
  rewrite (assoc_L app) in E. apply app_inj_tail in E as [-> ->].
  apply Forall_app in Hp as [Hp Hr%Forall_inv]. apply Forall_app in Hp as [_ Hpg].
  rewrite total_width_app in Hw. cbn in Hw. rewrite (proj1 Hr) in Hw.
  pose proof (plain_narrows _ Hpg) as Hng. pose proof (total_width_cols _ Hng) as Htw.
  rewrite plain_cols in Htw by done. split; [lia|]. destruct (Z.eqb_spec (cluster_width c - 1) 0).
  - destruct g; [by rewrite app_nil_r|]. cbn [length] in Htw. lia.
  - apply Forall_app in Ha as [Ha _]. apply runs_cover_app; [done|].
    apply covers_single; [|cbn; lia|done]. intros ->. cbn in *. lia.
Qed.

Lemma plain_drop_last cl rs r cs c :
  represents cl (rs ++ [r]) -> Forall plain_ref (rs ++ [r]) -> ref_str r = bs " " ->
  clusters cl = cs ++ [c] ->
  represents (mkClusteredLine (removelast (cl_text cl)) (is_double_wide cl)
    (if cluster_width c - 1 =? 0 then cs
     else cs ++ [mkCluster (cluster_width c - 1) (cluster_attrs c)]) (cl_len cl - 1) None) rs.
Proof.
  intros [Ht Hwide Hc Hl Hi Hn] Hp Er Ec. rewrite Ec in Hc. destruct (covers_init cs c rs r Hc Hp) as [_ Hcov].
  pose proof Hp as [Hprs [Hw _]%Forall_inv]%Forall_app.
  split; cbn.
  - rewrite Ht, map_app, concat_app. cbn. rewrite Er. cbn. apply removelast_snoc.
  - intros i. unfold cell_is_double_wide in *. cbn. rewrite Hwide. split.
    + intros (r' & [Hr|Hr]%elem_of_app & E & E2); [by exists r'|].
      apply list_elem_of_singleton in Hr as ->. lia.
    + intros (r' & Hr & E). exists r'. rewrite elem_of_app. by auto.
  - done.
  - rewrite Hl, !plain_cols, length_app by done. cbn. lia.
  - by apply indexed_app in Hi as [Hi _].
  - by apply Forall_app in Hn as [Hn _].
Qed.

Lemma leading_spaces_rev l :
  match leading_spaces l with O => True | S n => exists k, l = 32 :: k /\ leading_spaces k = n end.
Proof.
  destruct l as [|b l]; [done|]. cbn. destruct (Z.eqb_spec b 32) as [->|]; [|done]. by exists l.
Qed.

Lemma plain_prune_spaces n cl pruned :
  plain_cl cl -> (n <= trailing_spaces (cl_text cl))%nat ->
  yields (prune_spaces n pruned cl) (fun '(cl', _) => plain_cl cl' /\ (cl_len cl' <= cl_len cl)%nat).
Proof.
  revert cl pruned. induction n as [|n IH]; intros cl pruned Hcl Hn; [by split|]. cbn [prune_spaces].
  pose proof Hcl as [(rs0 & Hrep & Hrs) Hlast]. pose proof (rep_clusters _ _ Hrep) as Hc.
  unfold trailing_spaces in Hn. pose proof (leading_spaces_rev (rev (cl_text cl))) as Hsp.
  destruct (leading_spaces (rev (cl_text cl))) as [|m]; [lia|]. destruct Hsp as (k & Ek & Em).
  assert (Et : cl_text cl = rev k ++ [32]) by (by rewrite <- (rev_involutive (cl_text cl)), Ek).
  pose proof (rep_text _ _ Hrep) as Ht.
  destruct (snoc_or_nil rs0) as [->|(rs & r & ->)]; [rewrite Et in Ht; by destruct (rev k)|].
  assert (Er : ref_str r = bs " ").
  { pose proof Hrs as [_ [_ Hg]%Forall_inv]%Forall_app. apply simple_last_space; [done|].
    rewrite Et, map_app, concat_app in Ht. cbn in Ht. rewrite app_nil_r in Ht.
    destruct (snoc_or_nil (ref_str r)) as [E|(g & b & E)]; rewrite E in Ht |- *.
    - pose proof (plain_segments [r]) as Hseg. cbn in Hseg.
      destruct (simple_plain _ Hg) as (_ & Hd & _). by rewrite E in Hd.
    - rewrite (assoc_L app) in Ht. apply app_inj_tail in Ht as [_ <-]. by rewrite last_snoc. }
  destruct (snoc_or_nil (clusters cl)) as [E|(cs & c & E)]; rewrite E in Hc |- *.
  { inversion Hc. by destruct rs. }
  rewrite last_snoc, removelast_snoc. case_match; [by apply yields_Some|].
  destruct (covers_init cs c rs r Hc Hrs) as [Hw _].
  pose proof (rep_len _ _ Hrep) as Hl. rewrite plain_cols, length_app in Hl by done. cbn in Hl.
  rewrite (proj2 (Z.leb_le _ _) Hw), (proj2 (Nat.ltb_lt 0 (cl_len cl))) by lia.
  cbn [andb rust_assert mbind option_bind].
  pose proof (plain_drop_last cl rs r cs c Hrep Hrs Er E) as Hrep'.
  eapply yields_weaken; [apply IH|].
  - split; [|by left]. exists rs. split; [done|]. by apply Forall_app in Hrs as [? _].
  - cbn. unfold trailing_spaces. rewrite Et, removelast_snoc, rev_involutive. lia.
  - cbn. intros [cl' b]. intros [Hcl' Hle]. split; [done|]. lia.
Qed.

Lemma plain_prune sq l : plain_line l -> yields (prune_trailing_blanks sq l) plain_line.
Proof.
  intros Hl. pose proof (pl_storage _ Hl) as Hs. pose proof (pl_len _ Hl) as Hn.
  unfold prune_trailing_blanks, len in *. destruct (storage l) as [cells|cl].
  - destruct (rposition _ cells) as [i|] eqn:E; [|done]. apply yields_Some, plain_touch.
    assert (Hi : (i < length cells)%nat).
    { clear -E. revert i E. induction cells as [|c cells IH]; intros i E; [done|]. cbn in E.
      destruct (rposition _ cells) as [j|]; simplify_eq; cbn; [|repeat case_match; simplify_eq; lia].
      specialize (IH j eq_refl). lia. }
    destruct (plain_resized (S i) cells Hs) as [Hc Hlen]; [lia|]. by apply plain_set_storage.
  - eapply yields_bind with (P := fun '(cl', _) => plain_cl cl' /\ (cl_len cl' <= cl_len cl)%nat).
    + unfold cl_prune_trailing_blanks. destruct (trailing_spaces (cl_text cl)) as [|n] eqn:E; [by split|].
      apply plain_prune_spaces; [done|]. lia.
    + intros [cl' b] [Hcl' Hle]. apply yields_Some.
      assert (plain_line (set_storage (C cl') l)) by (apply plain_put_cl; [done..|lia]).
      destruct b; [by apply plain_touch|done].
Qed.

Lemma plain_fill_cells cols c sq l :
  plain_line l -> plain_cell c -> Forall (fun x => x < max_cols)%nat cols ->
  yields (fill_cells cols c sq l) plain_line.
Proof.
  intros Hl Hc Hx. revert l Hl. induction Hx as [|x cols Hx _ IH]; intros l Hl; [done|].
  cbn [fill_cells]. rewrite plain_clone by done.
  eapply yields_bind; [by apply plain_set_cell_impl|]. apply IH.
Qed.

Lemma plain_fill_range first last c sq l :
  plain_line l -> plain_cell c -> (last <= max_cols)%nat ->
  yields (fill_range first last c sq l) plain_line.
Proof.
  intros Hl Hc Hx. unfold fill_range. case_match; [done|].
  eapply yields_bind; [apply plain_fill_cells; [done..|]|intros l' Hl'; by apply plain_prune].
  apply Forall_forall. intros x Hin%elem_of_seq. lia.
Qed.

(** ** Wrapping and compressing *)

Lemma plain_cl_set_wrapped w cl :
  plain_cl cl -> yields (cl_set_wrapped w cl) (fun cl' => plain_cl cl' /\ cl_len cl' = cl_len cl).
Proof.
  intros Hcl. pose proof Hcl as [(rs0 & Hrep & Hrs) Hlast].
  destruct (snoc_or_nil rs0) as [->|(rs & r & ->)].
  { pose proof (rep_clusters _ _ Hrep) as Hc. inversion Hc as [E|? g ? ? Hg]; [|by destruct g].
    unfold cl_set_wrapped.
    assert (compute_last_cell_width cl = cl) as ->.
    { pose proof (plain_iter cl Hcl) as [_ E']. rewrite (rep_len _ _ Hrep) in E'. cbn in E'.
      unfold compute_last_cell_width. destruct (cl_iter cl); [|done]. by case_match. }
    rewrite <- E. cbn [last]. by destruct (last_cell_width cl). }
  pose proof Hrs as [Hrs1 Hr%Forall_inv]%Forall_app. pose proof (proj1 Hr) as Hw.
  set (cl1 := compute_last_cell_width cl).
  assert (Hcl1 : represents cl1 (rs ++ [r]) /\ last_cell_width cl1 = Some 1 /\ cl_len cl1 = cl_len cl).
  { unfold cl1, compute_last_cell_width. destruct Hlast as [E|E]; rewrite E; [|done].
    destruct (plain_iter cl Hcl) as [Hpi Ei].
    destruct (snoc_or_nil (cl_iter cl)) as [En|(is0 & i0 & En)]; rewrite En in Hpi, Ei |- *.
    - rewrite (rep_len _ _ Hrep), plain_cols, length_app in Ei by done. cbn in Ei. lia.
    - rewrite last_snoc. apply Forall_app in Hpi as [_ [Hwi _]%Forall_inv]. rewrite Hwi.
      split; [|done]. destruct Hrep as [? ? ? ? ? ?]. by split. }
  destruct Hcl1 as (Hrep1 & Hl1 & En).
  destruct (cl_set_wrapped_represents cl1 rs r w Hrep1) as (cl' & E & Hrep' & Hlast'); [by rewrite Hw|].
  assert (cl_set_wrapped w cl = cl_set_wrapped w cl1) as ->.
  { unfold cl_set_wrapped. change (compute_last_cell_width cl) with cl1.
    assert (compute_last_cell_width cl1 = cl1) as -> by (unfold compute_last_cell_width at 1; by rewrite Hl1).
    done. }
  rewrite E. apply yields_Some. rewrite Hw in Hlast'.
  assert (Hrs' : Forall plain_ref (rs ++ [rewrap w r]))
    by (apply Forall_app; split; [done|apply Forall_singleton; exact Hr]).
  split; [split; [eauto|by right]|].
  pose proof (rep_len _ _ Hrep') as E1. pose proof (rep_len _ _ Hrep1) as E2.
  rewrite plain_cols in E1, E2 by done. rewrite length_app in E1, E2. cbn in *. lia.
Qed.

Lemma plain_set_wrapped w sq l :
  (1 <= max_cols)%nat -> plain_line l -> yields (set_last_cell_was_wrapped w sq l) plain_line.
Proof.
  intros Hm Hl. unfold set_last_cell_was_wrapped. cbv zeta. cbn [update_last_change_seqno storage].
  pose proof (pl_storage _ Hl) as Hs. pose proof (pl_len _ Hl) as Hn. unfold len in Hn.
  pose proof (plain_update sq l Hl) as Hl'.
  destruct (storage l) as [cells|cl].
  - apply yields_Some. destruct (snoc_or_nil cells) as [->|(cs & c & ->)]; [done|].
    rewrite last_snoc, removelast_snoc. apply Forall_app in Hs as [Hcs Hc%Forall_inv].
    rewrite length_app in Hn. cbn in Hn. apply plain_set_storage; [done| |cbn; rewrite length_app; cbn; lia].
    apply Forall_app. split; [done|]. apply Forall_singleton. by apply plain_set_attrs.
  - eapply yields_bind with (P := fun cl => plain_cl cl /\ (cl_len cl <= max_cols)%nat).
    + destruct (Nat.eqb_spec (cl_len cl) 0) as [E0|]; [|done].
      eapply yields_weaken; [apply plain_append_cell; [done|apply plain_blank]|].
      cbn. intros cl' [Hcl' E]. split; [done|]. lia.
    + intros cl1 [Hcl1 Hn1]. eapply yields_bind; [by apply plain_cl_set_wrapped|].
      intros cl2 [Hcl2 E]. apply yields_Some, plain_set_storage; [done..|]. cbn. lia.
Qed.

Lemma collected_width cells st st' :
  collect_cells st cells = Some st' ->
  last_width st = None \/ last_width st = Some 1 -> last_width st' = None \/ last_width st' = Some 1.
Proof.
  revert st. induction cells as [|c cells IH]; intros st E Hl; [by simplify_eq/=|].
  cbn [collect_cells] in E. destruct (collect_cell st c) as [st1|] eqn:E1; [|done].
  apply (IH st1 E). right. unfold collect_cell in E1. cbv zeta in E1.
  destruct (if 1 <? ref_width c then _ else _) as [bits|]; [|done]. cbn [mbind option_bind] in E1.
  match type of E1 with (?o ≫= _) = _ => destruct o as [[run' runs']|]; [|done] end.
  cbn in E1. by simplify_eq.
Qed.

Lemma plain_compress l : plain_line l -> yields (compress_for_scrollback l) plain_line.
Proof.
  intros Hl. pose proof (pl_storage _ Hl) as Hs. pose proof (pl_len _ Hl) as Hn.
  pose proof (plain_visible l Hl) as [Hp Ev].
  unfold compress_for_scrollback, len, visible_cells in *. destruct (storage l) as [cells|cl]; [|done].
  pose proof (plain_narrows _ Hp) as Hnar.
  assert (Hi : indexed 0 (vec_iter 0 0 cells)).
  { apply (vec_iter_indexed 0 0). eapply Forall_impl; [exact Hs|]. intros c [Hw _ _]. lia. }
  destruct (from_cell_vec_represents (length cells) (vec_iter 0 0 cells)) as (cl & E & Hrep); try done.
  { apply Forall_forall. intros r Hr. by apply vec_iter_lt in Hr. }
  { rewrite total_width_cols, plain_cols by done. lia. }
  rewrite E. apply yields_Some, plain_set_storage; [done| |].
  - split; [eauto|]. unfold from_cell_vec in E.
    destruct (collect_cells _ _) as [st|] eqn:Ec; [|done]. cbn [mbind option_bind] in E.
    case_match; [|done]. simplify_eq. eapply collected_width; [exact Ec|by left].
  - cbn. rewrite (rep_len _ _ Hrep), plain_cols by done. lia.
Qed.

End Plain.

Create HintDb plain discriminated.
#[export] Hint Resolve plain_blank plain_new plain_update plain_touch plain_bidi plain_single
  plain_double_width plain_double_top plain_double_bottom : plain.
