(* ===== verification/LineText.v ===== *)
(** The text that a line of plain cells shows, column by column, and what setting a cell does to
    it, whatever the storage of the line. *)

From Stdlib Require Import ZArith Lia String.
From S2P Require Import Prelude CallMonad Post Color CsiTypes CharWidth Cell CellProps Line LineProps LineEdit LineSafe.
From stdpp Require Import base numbers list option gmap.
Local Open Scope Z_scope.

(** A column past the end shows a blank. *)
Definition at_col (ts : list (list Z)) (j : nat) : list Z := default (bs " ") (ts !! j).

Lemma at_col_app ts ts' j :
  at_col (ts ++ ts') j = if (j <? length ts)%nat then at_col ts j else at_col ts' (j - length ts)%nat.
Proof.
  unfold at_col. destruct (Nat.ltb_spec j (length ts)).
  - by rewrite lookup_app_l.
  - by rewrite lookup_app_r.
Qed.

Lemma at_col_blanks n j : at_col (replicate n (bs " ")) j = bs " ".
Proof.
  unfold at_col. destruct (replicate n (bs " ") !! j) eqn:E; [|done].
  by apply lookup_replicate in E as [-> _].
Qed.

Lemma at_col_beyond ts j : (length ts <= j)%nat -> at_col ts j = bs " ".
Proof. intros Hj. unfold at_col. by rewrite lookup_ge_None_2. Qed.

(** A text set in one column. *)
Definition overwrite (idx : nat) (t : list Z) (ts ts' : list (list Z)) : Prop :=
  forall j, at_col ts' j = if (j =? idx)%nat then t else at_col ts j.

Lemma overwrite_snoc n t ts :
  overwrite (length ts + n) t ts (ts ++ replicate n (bs " ") ++ [t]).
Proof.
  intros j. rewrite !at_col_app, length_replicate.
  destruct (Nat.ltb_spec j (length ts)); destruct (Nat.eqb_spec j (length ts + n)); try lia; [done|..].
  - destruct (Nat.ltb_spec (j - length ts) n); [lia|]. subst j.
    by replace (length ts + n - length ts - n)%nat with O by lia.
  - rewrite (at_col_beyond ts j) by lia. destruct (Nat.ltb_spec (j - length ts) n); [apply at_col_blanks|].
    apply at_col_beyond. cbn. lia.
Qed.

Section Text.
Context `{CharTables} `{Graphemes} `{BitSet} `{!BitSetLaws} `{HyperlinkRules}.
Context (G : list Z -> Prop) `{!SimpleText G}.
Context (max_cols : nat) (Hmax : Z.of_nat max_cols <= u16_max).

(** The text of a line, one grapheme per cell. *)
Definition row_text (l : Line) : list (list Z) := map ref_str (visible_cells l).

Lemma vec_text i cells :
  Forall (plain_cell G) cells -> map ref_str (vec_iter i 0 cells) = map cell_str cells.
Proof.
  intros Hc. revert i. induction Hc as [|c cells [Hw _ _] _ IH]; intros i; [done|].
  cbn [vec_iter map]. rewrite Hw. cbn [ref_str]. f_equal. apply (IH (S i)).
Qed.

Lemma cl_text_of cl rs :
  represents cl rs -> Forall (plain_ref G) rs -> map ref_str (cl_iter cl) = map ref_str rs.
Proof.
  intros Hrep Hrs. pose proof (iter_represents cl rs Hrep (plain_segments G rs Hrs)) as Hsame.
  clear Hrep Hrs. induction Hsame as [|r r' rs1 rs2 (_ & Es & _) _ IH]; [done|]. cbn. by rewrite IH, Es.
Qed.

Lemma spread_text rs :
  Forall (plain_ref G) rs -> Forall (fun r => exists i t w a, r = CellRef_ClusterRef i t w a) rs ->
  map cell_str (concat (map spread rs)) = map ref_str rs.
Proof.
  induction 1 as [|r rs [Hw Ht] Hrs IH]; [done|]. intros [(i & t & w & a & ->) Hfs]%Forall_cons.
  cbn [map concat]. unfold spread at 1. rewrite Hw. change (replicate _ _) with (@nil Cell).
  cbn [app map]. rewrite IH by done. f_equal. cbn in Hw, Ht |- *. subst w.
  unfold cell_str, new_grapheme_with_width. cbn [text]. destruct (simple_plain t Ht) as (Hp & Hd & _).
  by rewrite from_str_bytes, Hd.
Qed.

Lemma vec_of_text l : plain_line G max_cols l -> map cell_str (vec_of l) = row_text l.
Proof.
  intros [Hs _ _]. unfold vec_of, row_text, visible_cells. destruct (storage l) as [cells|cl].
  - by rewrite vec_text.
  - apply spread_text; [by apply plain_iter|]. apply cluster_iter_form.
Qed.

(** ** Runs of text *)

Lemma append_text t a cl :
  plain_cl G cl -> G t ->
  yields (append_grapheme t 1 a cl) (fun cl' => plain_cl G cl' /\
    map ref_str (cl_iter cl') = map ref_str (cl_iter cl) ++ [t]).
Proof.
  intros Hcl Ht. pose proof (plain_append G max_cols t a cl Hcl Ht) as Hp.
  pose proof Hcl as [(rs & Hrep & Hrs) _].
  destruct (append_represents cl rs t 1 a Hrep ltac:(by left)) as (cl' & E & Hrep' & _).
  rewrite E in *. destruct Hp as [Hcl' _]. split; [done|].
  rewrite (cl_text_of cl rs Hrep Hrs), (cl_text_of cl' _ Hrep').
  - by rewrite map_app.
  - apply Forall_app. split; [done|]. by apply Forall_singleton.
Qed.

Lemma pad_text n cl :
  plain_cl G cl -> yields (pad_cluster n cl) (fun cl' => plain_cl G cl' /\
    map ref_str (cl_iter cl') = map ref_str (cl_iter cl) ++ replicate n (bs " ")).
Proof.
  revert cl. induction n as [|n IH]; intros cl Hcl; cbn [pad_cluster].
  - split; [done|]. by rewrite app_nil_r.
  - eapply yields_bind; [apply append_text; [done|apply simple_space]|]. intros cl1 [Hcl1 E1].
    eapply yields_weaken; [by apply IH|]. cbn beta. intros cl2 [Hcl2 E2]. split; [done|].
    by rewrite E2, E1, <- app_assoc.
Qed.

(** ** Cells *)

Lemma attach_text ims c :
  cell_str (fold_left (fun c im => if has_placement_id im
    then set_cell_attrs (attach_image im) c else c) ims c) = cell_str c.
Proof.
  revert c. induction ims as [|im ims IH]; intros c; [done|]. cbn [fold_left]. rewrite IH. by case_match.
Qed.

Lemma padded_text n cells j : at_col (map cell_str (padded n cells)) j = at_col (map cell_str cells) j.
Proof.
  unfold padded, vec_resize. case_match; [|done]. bool_to_prop.
  rewrite take_ge, map_app, at_col_app by lia. rewrite length_map.
  case_match; [done|]. bool_to_prop. rewrite (at_col_beyond (map _ cells)) by (rewrite length_map; lia).
  change (map cell_str ?x) with (cell_str <$> x). rewrite fmap_replicate. apply at_col_blanks.
Qed.

Lemma place_text idx c clear cells :
  Forall (plain_cell G) cells -> plain_cell G c ->
  yields (vec_place idx c clear cells) (fun cells' => Forall (plain_cell G) cells' /\
    overwrite idx (cell_str c) (map cell_str cells) (map cell_str cells')).
Proof.
  intros Hcs Hc. pose proof (plain_place G max_cols idx c clear cells Hcs Hc) as Hp. revert Hp.
  unfold vec_place. cbv zeta. rewrite (pc_width _ _ Hc). change (Z.to_nat (Z.max 1 1)) with 1%nat.
  fold (padded (idx + 1) cells). pose proof (padded_length (idx + 1) cells) as Hlen.
  assert (Hpc : Forall (plain_cell G) (padded (idx + 1) cells))
    by (apply padded_Forall; [by apply plain_blank|done]).
  rewrite (plain_nerf G) by (done || lia). cbn [Nat.sub seq rev foldr mbind option_bind].
  unfold vec_set_cell. destruct (lookup_lt_is_Some_2 (padded (idx + 1) cells) idx) as [old ->]; [lia|].
  cbn [mbind option_bind]. intros [Hcs' _]. split; [exact Hcs'|]. clear Hcs'.
  set (c' := if clear then c else _).
  assert (Ec : cell_str c' = cell_str c).
  { unfold c'. destruct clear; [done|]. case_match; [apply attach_text|done]. }
  intros j. change (map cell_str ?x) with (cell_str <$> x). rewrite list_fmap_insert. unfold at_col at 1.
  destruct (Nat.eqb_spec j idx) as [->|Hj].
  - rewrite list_lookup_insert_eq; [by rewrite Ec|]. rewrite length_fmap. lia.
  - rewrite list_lookup_insert_ne by done. apply padded_text.
Qed.

Lemma edit_place_text idx c clear l :
  plain_line G max_cols l -> plain_cell G c -> (idx < max_cols)%nat ->
  yields (edit_vec (vec_place idx c clear) l) (fun l' => plain_line G max_cols l' /\
    overwrite idx (cell_str c) (row_text l) (row_text l')).
Proof.
  intros Hl Hc Hi. pose proof (plain_edit_place G max_cols idx c clear l Hl Hc Hi) as Hp.
  destruct (plain_vec_line G max_cols l Hl) as [Hcs _].
  pose proof (place_text idx c clear (vec_of l) Hcs Hc) as Ht. unfold edit_vec in *.
  destruct (vec_place idx c clear (vec_of l)) as [cells|]; [|done]. cbn in Hp, Ht |- *.
  destruct Ht as [Hcs' Ht]. split; [done|].
  rewrite vec_text by done. by rewrite <- vec_of_text.
Qed.

(** A run of text: what is set behind its end is appended, after blanks. *)
Lemma row_text_cl cl l : row_text (set_storage (C cl) l) = map ref_str (cl_iter cl).
Proof. done. Qed.

Lemma cl_length cl : plain_cl G cl -> length (map ref_str (cl_iter cl)) = cl_len cl.
Proof. intros Hcl. rewrite length_map. by apply (plain_iter G). Qed.

(** Padding a run and setting the column after it, or one inside. *)
Lemma pad_overwrite n idx t ts ts' :
  (n = idx - length ts)%nat -> overwrite idx t (ts ++ replicate n (bs " ")) ts' -> overwrite idx t ts ts'.
Proof.
  intros -> Ho j. rewrite (Ho j). case_match; [done|]. rewrite at_col_app.
  destruct (Nat.ltb_spec j (length ts)); [done|]. by rewrite at_col_blanks, at_col_beyond.
Qed.

Lemma append_overwrite t ts : overwrite (length ts) t ts (ts ++ [t]).
Proof. pose proof (overwrite_snoc O t ts) as Ho. by rewrite Nat.add_0_r in Ho. Qed.

(** A blank set behind the end of a run is not stored. *)
Lemma blank_overwrite idx ts : (length ts < idx)%nat -> overwrite idx (bs " ") ts ts.
Proof. intros Hi j. destruct (Nat.eqb_spec j idx) as [->|]; [|done]. apply at_col_beyond. lia. Qed.

Lemma set_cell_text idx c sq l :
  plain_line G max_cols l -> plain_cell G c -> (idx < max_cols)%nat ->
  yields (set_cell idx c sq l) (fun l' => plain_line G max_cols l' /\
    overwrite idx (cell_str c) (row_text l) (row_text l')).
Proof.
  intros Hl Hc Hi. unfold set_cell, set_cell_impl. rewrite (plain_invalidate G max_cols) by done. cbv zeta.
  assert (Hl1 : plain_line G max_cols (mark_hyperlink (attrs c) (update_last_change_seqno sq (invalidate_zones l))))
    by (by apply plain_mark, plain_update, plain_zones).
  assert (Er : row_text (mark_hyperlink (attrs c) (update_last_change_seqno sq (invalidate_zones l))) = row_text l).
  { unfold row_text, visible_cells. by rewrite (proj1 (mark_hyperlink_spec _ _)). }
  rewrite <- Er. clear Er. revert Hl1. generalize (mark_hyperlink (attrs c) (update_last_change_seqno sq (invalidate_zones l))).
  clear l Hl. intros l Hl. pose proof (pl_storage _ _ _ Hl) as Hs. pose proof (pl_len _ _ _ Hl) as Hn.
  unfold len in Hn. destruct (storage l) as [cells|cl] eqn:Est; [by apply edit_place_text|].
  assert (Er : row_text l = map ref_str (cl_iter cl)) by (unfold row_text, visible_cells; by rewrite Est).
  pose proof (cl_length cl Hs) as Hlen.
  destruct ((cl_len cl <? idx)%nat && Cell_eqb c Cell_blank) eqn:Eb.
  - apply andb_prop in Eb as [Hlt%Nat.ltb_lt [Heq _]%andb_prop]. apply bool_decide_eq_true in Heq.
    split; [done|]. rewrite Er. change (cell_str c) with (ts_as_bytes (text c)). rewrite Heq.
    apply blank_overwrite. lia.
  - rewrite Er. eapply yields_bind; [by apply pad_text|]. intros cl1 [Hcl1 E1].
    pose proof (cl_length cl1 Hcl1) as Hlen1. rewrite E1, length_app, length_replicate, Hlen in Hlen1.
    destruct (Nat.eqb_spec idx (cl_len cl1)) as [Ei|Ei].
    + unfold append. rewrite (pc_width _ _ Hc).
      eapply yields_bind; [apply append_text; [done|apply Hc]|]. intros cl2 [Hcl2 E2].
      pose proof (cl_length cl2 Hcl2) as Hlen2. rewrite E2, E1, !length_app, length_replicate, Hlen in Hlen2. cbn in Hlen2.
      apply yields_Some. split; [apply plain_put_cl; [done..|lia]|]. rewrite row_text_cl.
      eapply pad_overwrite; [by rewrite Hlen|]. rewrite E2, E1. subst idx.
      pose proof (append_overwrite (cell_str c) (map ref_str (cl_iter cl) ++ replicate (cl_len cl1 - cl_len cl) (bs " "))) as Ho.
      by rewrite length_app, length_replicate, Hlen, Hlen1 in Ho.
    + eapply yields_weaken; [apply edit_place_text; [apply plain_put_cl; [done..|lia]|done..]|].
      cbn beta. intros l2 [Hl2 Ho]. split; [done|]. rewrite row_text_cl, E1 in Ho.
      eapply pad_overwrite; [by rewrite Hlen|]. exact Ho.
Qed.

Lemma grapheme_str t a : G t -> cell_str (new_grapheme_with_width t 1 a) = t.
Proof.
  intros Ht. destruct (simple_plain t Ht) as (Hp & Hd & _).
  unfold cell_str, new_grapheme_with_width. cbn [text]. by rewrite from_str_bytes, Hd.
Qed.

Lemma set_grapheme_cell idx t a sq l :
  plain_line G max_cols l -> G t -> (idx < max_cols)%nat ->
  yields (set_cell idx (new_grapheme_with_width t 1 a) sq l) (fun l' => plain_line G max_cols l' /\
    overwrite idx t (row_text l) (row_text l')).
Proof.
  intros Hl Ht Hi. pose proof (set_cell_text idx (new_grapheme_with_width t 1 a) sq l Hl) as Hp.
  rewrite (grapheme_str t a Ht) in Hp. apply Hp; [by apply plain_grapheme|done].
Qed.

Lemma set_grapheme_text idx t a sq l :
  plain_line G max_cols l -> G t -> (idx < max_cols)%nat ->
  yields (set_cell_grapheme idx t 1 a sq l) (fun l' => plain_line G max_cols l' /\
    overwrite idx t (row_text l) (row_text l')).
Proof.
  intros Hl Ht Hi. unfold set_cell_grapheme. cbv zeta.
  pose proof (plain_mark G max_cols a l Hl) as Hl1.
  assert (Er : row_text (mark_hyperlink a l) = row_text l).
  { unfold row_text, visible_cells. by rewrite (proj1 (mark_hyperlink_spec _ _)). }
  rewrite <- Er. clear Er. revert Hl1. generalize (mark_hyperlink a l).
  clear l Hl. intros l Hl. pose proof (pl_storage _ _ _ Hl) as Hs. pose proof (pl_len _ _ _ Hl) as Hn.
  unfold len in Hn. destruct (storage l) as [cells|cl] eqn:Est; [by apply set_grapheme_cell|].
  assert (Er : row_text l = map ref_str (cl_iter cl)) by (unfold row_text, visible_cells; by rewrite Est).
  pose proof (cl_length cl Hs) as Hlen. rewrite Er.
  destruct (_ && _) eqn:Eb.
  - apply andb_prop in Eb as [[Hlt%Nat.ltb_lt Heq]%andb_prop _]. apply bool_decide_eq_true in Heq. subst t.
    apply yields_Some. split; [done|]. rewrite Er. apply blank_overwrite. lia.
  - eapply yields_bind; [by apply pad_text|]. intros cl1 [Hcl1 E1].
    pose proof (cl_length cl1 Hcl1) as Hlen1. rewrite E1, length_app, length_replicate, Hlen in Hlen1.
    destruct (Nat.eqb_spec idx (cl_len cl1)) as [Ei|Ei].
    + eapply yields_bind; [by apply append_text|]. intros cl2 [Hcl2 E2].
      pose proof (cl_length cl2 Hcl2) as Hlen2. rewrite E2, E1, !length_app, length_replicate, Hlen in Hlen2. cbn in Hlen2.
      assert (Hp : plain_line G max_cols (set_storage (C cl2) l)) by (apply plain_put_cl; [done..|lia]).
      apply yields_Some. rewrite (plain_invalidate G max_cols) by done. split; [by apply plain_update, plain_zones|].
      change (row_text (update_last_change_seqno sq (invalidate_zones (set_storage (C cl2) l))))
        with (map ref_str (cl_iter cl2)).
      eapply pad_overwrite; [by rewrite Hlen|]. rewrite E2, E1. subst idx.
      pose proof (append_overwrite t (map ref_str (cl_iter cl) ++ replicate (cl_len cl1 - cl_len cl) (bs " "))) as Ho.
      by rewrite length_app, length_replicate, Hlen, Hlen1 in Ho.
    + eapply yields_weaken; [apply set_grapheme_cell; [apply plain_put_cl; [done..|lia]|done..]|].
      cbn beta. intros l2 [Hl2 Ho]. split; [done|]. rewrite row_text_cl, E1 in Ho.
      eapply pad_overwrite; [by rewrite Hlen|]. exact Ho.
Qed.

End Text.
