(* ===== verification/TermTypes.v ===== *)
(** The types that the terminal model shares: positions and the cursor
    ([src/term/src/lib.rs]), the configuration and the bidi mode ([config.rs]), character sets
    and the saved cursor ([terminalstate/mod.rs]), the keyboard encodings
    ([src/termwiz/src/input.rs]) and the cursor's shape ([src/wakterm-surface/src/lib.rs]). *)

From Stdlib Require Import ZArith Lia.
From S2P Require Import Prelude Color CsiTypes CharWidth Cell Line.
From stdpp Require Import base numbers list option gmap.
Local Open Scope Z_scope.

Inductive CursorVisibility : Set := CursorVisibility_Hidden | CursorVisibility_Visible.

Inductive CursorShape : Set :=
| CursorShape_Default | CursorShape_BlinkingBlock | CursorShape_SteadyBlock
| CursorShape_BlinkingUnderline | CursorShape_SteadyUnderline
| CursorShape_BlinkingBar | CursorShape_SteadyBar.

Inductive KeyboardEncoding : Set :=
| KeyboardEncoding_Xterm | KeyboardEncoding_CsiU | KeyboardEncoding_Win32
| KeyboardEncoding_Kitty (flags : Z).

#[export] Instance KeyboardEncoding_eq_dec : EqDecision KeyboardEncoding.
Proof. solve_decision. Defined.

Inductive Position : Set := Absolute (n : Z) | Relative (n : Z).

(** A column is a [usize]; a row relative to the top of the view is an [i64]. *)
Record CursorPosition : Set := mkCursor {
  cursor_x : nat; cursor_y : Z;
  cursor_shape : CursorShape; cursor_visibility : CursorVisibility; cursor_seqno : Z
}.

Definition CursorPosition_default : CursorPosition :=
  mkCursor O 0 CursorShape_Default CursorVisibility_Visible 0.

Inductive CharSet : Set := CharSet_Ascii | CharSet_Uk | CharSet_DecLineDrawing.

#[export] Instance CharSet_eq_dec : EqDecision CharSet.
Proof. solve_decision. Defined.

Inductive MouseEncoding : Set :=
| MouseEncoding_X10 | MouseEncoding_Utf8 | MouseEncoding_SGR | MouseEncoding_SgrPixels.

#[export] Instance MouseEncoding_eq_dec : EqDecision MouseEncoding.
Proof. solve_decision. Defined.

Record SavedCursor : Set := mkSavedCursor {
  position : CursorPosition;
  saved_wrap_next : bool;
  saved_pen : CellAttributes;
  saved_dec_origin_mode : bool;
  saved_g0_charset : CharSet;
  saved_g1_charset : CharSet
}.

Record BidiMode : Set := mkBidiMode { enabled : bool; hint : ParagraphDirectionHint }.

(** What the methods of the trait [TerminalConfiguration] answer. The palette and what only the
    keyboard, the clipboard and the images use is left out. *)
Record TerminalConfiguration : Set := mkConfiguration {
  config_scrollback_size : nat;
  config_unicode_version : UnicodeVersion;
  config_bidi_mode : BidiMode;
  enq_answerback : list Z;
  enable_kitty_keyboard : bool;
  normalize_output_to_unicode_nfc : bool;
  enable_title_reporting : bool;
  enable_checksum_rectangular_area : bool
}.

Section Bidi.
Context `{CharTables} `{Graphemes} `{BitSet} `{HyperlinkRules}.

(** [BidiMode::apply_to_line]. *)
Definition apply_to_line (m : BidiMode) (sq : Z) (l : Line) : Line :=
  set_bidi_info (enabled m) (hint m) sq l.

End Bidi.
