(* ===== verification/Esc.v ===== *)
(** Escape sequences without parameters and the actions of the parser: [Esc] and [EscCode] of
    [src/wakterm-escape-parser/src/esc.rs], [ControlCode] and [Action] of [lib.rs], and the
    [Performer] of [parser/mod.rs], which turns what [vtparse] reports into actions. The device
    control strings, the operating system commands and the kitty images are not modelled:
    their events give no action here. *)

From Stdlib Require Import ZArith Lia String.
From S2P Require Import Prelude VtTables VtParse Color CsiTypes CsiParse.
From stdpp Require Import base numbers list option.
Local Open Scope Z_scope.

(** ** [esc.rs] *)

(** The code is the final byte, with the intermediate byte above it. *)
Inductive EscCode : Set :=
| FullReset | Index | NextLine | CursorPositionLowerLeft | HorizontalTabSet | ReverseIndex
| SingleShiftG2 | SingleShiftG3 | StartOfGuardedArea | EndOfGuardedArea | StartOfString
| ReturnTerminalId | StringTerminator | PrivacyMessage | ApplicationProgramCommand | TmuxTitle
| DecBackIndex | DecSaveCursorPosition | DecRestoreCursorPosition | DecApplicationKeyPad
| DecNormalKeyPad | DecLineDrawingG0 | UkCharacterSetG0 | AsciiCharacterSetG0
| DecLineDrawingG1 | UkCharacterSetG1 | AsciiCharacterSetG1 | DecScreenAlignmentDisplay
| DecDoubleHeightTopHalfLine | DecDoubleHeightBottomHalfLine | DecSingleWidthLine
| DecDoubleWidthLine | ApplicationModeArrowUpPress | ApplicationModeArrowDownPress
| ApplicationModeArrowRightPress | ApplicationModeArrowLeftPress | ApplicationModeHomePress
| ApplicationModeEndPress | F1Press | F2Press | F3Press | F4Press.

#[export] Instance EscCode_enum : CEnum EscCode :=
  {| disc c := match c with
       | FullReset => 0x63 | Index => 0x44 | NextLine => 0x45 | CursorPositionLowerLeft => 0x46
       | HorizontalTabSet => 0x48 | ReverseIndex => 0x4d | SingleShiftG2 => 0x4e
       | SingleShiftG3 => 0x4f | StartOfGuardedArea => 0x56 | EndOfGuardedArea => 0x57
       | StartOfString => 0x58 | ReturnTerminalId => 0x5a | StringTerminator => 0x5c
       | PrivacyMessage => 0x5e | ApplicationProgramCommand => 0x5f | TmuxTitle => 0x6b
       | DecBackIndex => 0x36 | DecSaveCursorPosition => 0x37
       | DecRestoreCursorPosition => 0x38 | DecApplicationKeyPad => 0x3d
       | DecNormalKeyPad => 0x3e | DecLineDrawingG0 => 0x2830 | UkCharacterSetG0 => 0x2841
       | AsciiCharacterSetG0 => 0x2842 | DecLineDrawingG1 => 0x2930
       | UkCharacterSetG1 => 0x2941 | AsciiCharacterSetG1 => 0x2942
       | DecScreenAlignmentDisplay => 0x2338 | DecDoubleHeightTopHalfLine => 0x2333
       | DecDoubleHeightBottomHalfLine => 0x2334 | DecSingleWidthLine => 0x2335
       | DecDoubleWidthLine => 0x2336 | ApplicationModeArrowUpPress => 0x4f41
       | ApplicationModeArrowDownPress => 0x4f42 | ApplicationModeArrowRightPress => 0x4f43
       | ApplicationModeArrowLeftPress => 0x4f44 | ApplicationModeHomePress => 0x4f48
       | ApplicationModeEndPress => 0x4f46 | F1Press => 0x4f50 | F2Press => 0x4f51
       | F3Press => 0x4f52 | F4Press => 0x4f53
       end;
     variants :=
        [FullReset; Index; NextLine; CursorPositionLowerLeft; HorizontalTabSet; ReverseIndex;
        SingleShiftG2; SingleShiftG3; StartOfGuardedArea; EndOfGuardedArea; StartOfString;
        ReturnTerminalId; StringTerminator; PrivacyMessage; ApplicationProgramCommand;
        TmuxTitle; DecBackIndex; DecSaveCursorPosition; DecRestoreCursorPosition;
        DecApplicationKeyPad; DecNormalKeyPad; DecLineDrawingG0; UkCharacterSetG0;
        AsciiCharacterSetG0; DecLineDrawingG1; UkCharacterSetG1; AsciiCharacterSetG1;
        DecScreenAlignmentDisplay; DecDoubleHeightTopHalfLine; DecDoubleHeightBottomHalfLine;
        DecSingleWidthLine; DecDoubleWidthLine; ApplicationModeArrowUpPress;
        ApplicationModeArrowDownPress; ApplicationModeArrowRightPress;
        ApplicationModeArrowLeftPress; ApplicationModeHomePress; ApplicationModeEndPress;
        F1Press; F2Press; F3Press; F4Press] |}.

#[export] Instance EscCode_laws : CEnumLaws EscCode.
Proof. intros []; reflexivity. Qed.

#[export] Instance EscCode_eq_dec : EqDecision EscCode.
Proof. solve_decision. Defined.

Inductive Esc : Set :=
| Esc_Unspecified (intermediate : option Z) (control : Z)
| Esc_Code (c : EscCode).

#[export] Instance Esc_eq_dec : EqDecision Esc.
Proof. solve_decision. Defined.

(** [internal_parse]; a code is found by its number. *)
Definition internal_parse (intermediate : option Z) (control : Z) : option Esc :=
  let packed := match intermediate with
                | Some high => Z.lor (Z.shiftl high 8) control
                | None => control
                end in
  Esc_Code <$> from_i64 packed.

Definition Esc_parse (intermediate : option Z) (control : Z) : Esc :=
  default (Esc_Unspecified intermediate control) (internal_parse intermediate control).

(** [Display]; the bytes are characters, so those above 0x7f are written in two. *)
Definition Esc_fmt (e : Esc) : list Z :=
  27 :: match e with
        | Esc_Code c =>
            let packed := disc c in
            if u8_max <? packed
            then encode_utf8 (as_u8 (Z.shiftr packed 8)) ++ encode_utf8 (as_u8 (Z.land packed 0xff))
            else encode_utf8 (as_u8 (Z.land packed 0xff))
        | Esc_Unspecified (Some i) control => encode_utf8 i ++ encode_utf8 control
        | Esc_Unspecified None control => encode_utf8 control
        end.

(** ** [lib.rs] *)

Inductive ControlCode : Set :=
| ControlCode_Null | ControlCode_StartOfHeading | ControlCode_StartOfText
| ControlCode_EndOfText | ControlCode_EndOfTransmission | ControlCode_Enquiry
| ControlCode_Acknowledge | ControlCode_Bell | ControlCode_Backspace
| ControlCode_HorizontalTab | ControlCode_LineFeed | ControlCode_VerticalTab
| ControlCode_FormFeed | ControlCode_CarriageReturn | ControlCode_ShiftOut
| ControlCode_ShiftIn | ControlCode_DataLinkEscape | ControlCode_DeviceControlOne
| ControlCode_DeviceControlTwo | ControlCode_DeviceControlThree | ControlCode_DeviceControlFour
| ControlCode_NegativeAcknowledge | ControlCode_SynchronousIdle
| ControlCode_EndOfTransmissionBlock | ControlCode_Cancel | ControlCode_EndOfMedium
| ControlCode_Substitute | ControlCode_Escape | ControlCode_FileSeparator
| ControlCode_GroupSeparator | ControlCode_RecordSeparator | ControlCode_UnitSeparator
| ControlCode_BPH | ControlCode_NBH | ControlCode_IND | ControlCode_NEL | ControlCode_SSA
| ControlCode_ESA | ControlCode_HTS | ControlCode_HTJ | ControlCode_VTS | ControlCode_PLD
| ControlCode_PLU | ControlCode_RI | ControlCode_SS2 | ControlCode_SS3 | ControlCode_DCS
| ControlCode_PU1 | ControlCode_PU2 | ControlCode_STS | ControlCode_CCH | ControlCode_MW
| ControlCode_SPA | ControlCode_EPA | ControlCode_SOS | ControlCode_SCI | ControlCode_CSI
| ControlCode_ST | ControlCode_OSC | ControlCode_PM | ControlCode_APC.

#[export] Instance ControlCode_enum : CEnum ControlCode :=
  {| disc c := match c with
       | ControlCode_Null => 0x0 | ControlCode_StartOfHeading => 0x1
       | ControlCode_StartOfText => 0x2 | ControlCode_EndOfText => 0x3
       | ControlCode_EndOfTransmission => 0x4 | ControlCode_Enquiry => 0x5
       | ControlCode_Acknowledge => 0x6 | ControlCode_Bell => 0x7
       | ControlCode_Backspace => 0x8 | ControlCode_HorizontalTab => 0x9
       | ControlCode_LineFeed => 0xa | ControlCode_VerticalTab => 0xb
       | ControlCode_FormFeed => 0xc | ControlCode_CarriageReturn => 0xd
       | ControlCode_ShiftOut => 0xe | ControlCode_ShiftIn => 0xf
       | ControlCode_DataLinkEscape => 0x10 | ControlCode_DeviceControlOne => 0x11
       | ControlCode_DeviceControlTwo => 0x12 | ControlCode_DeviceControlThree => 0x13
       | ControlCode_DeviceControlFour => 0x14 | ControlCode_NegativeAcknowledge => 0x15
       | ControlCode_SynchronousIdle => 0x16 | ControlCode_EndOfTransmissionBlock => 0x17
       | ControlCode_Cancel => 0x18 | ControlCode_EndOfMedium => 0x19
       | ControlCode_Substitute => 0x1a | ControlCode_Escape => 0x1b
       | ControlCode_FileSeparator => 0x1c | ControlCode_GroupSeparator => 0x1d
       | ControlCode_RecordSeparator => 0x1e | ControlCode_UnitSeparator => 0x1f
       | ControlCode_BPH => 0x82 | ControlCode_NBH => 0x83 | ControlCode_IND => 0x84
       | ControlCode_NEL => 0x85 | ControlCode_SSA => 0x86 | ControlCode_ESA => 0x87
       | ControlCode_HTS => 0x88 | ControlCode_HTJ => 0x89 | ControlCode_VTS => 0x8a
       | ControlCode_PLD => 0x8b | ControlCode_PLU => 0x8c | ControlCode_RI => 0x8d
       | ControlCode_SS2 => 0x8e | ControlCode_SS3 => 0x8f | ControlCode_DCS => 0x90
       | ControlCode_PU1 => 0x91 | ControlCode_PU2 => 0x92 | ControlCode_STS => 0x93
       | ControlCode_CCH => 0x94 | ControlCode_MW => 0x95 | ControlCode_SPA => 0x96
       | ControlCode_EPA => 0x97 | ControlCode_SOS => 0x98 | ControlCode_SCI => 0x9a
       | ControlCode_CSI => 0x9b | ControlCode_ST => 0x9c | ControlCode_OSC => 0x9d
       | ControlCode_PM => 0x9e | ControlCode_APC => 0x9f
       end;
     variants :=
        [ControlCode_Null; ControlCode_StartOfHeading; ControlCode_StartOfText;
        ControlCode_EndOfText; ControlCode_EndOfTransmission; ControlCode_Enquiry;
        ControlCode_Acknowledge; ControlCode_Bell; ControlCode_Backspace;
        ControlCode_HorizontalTab; ControlCode_LineFeed; ControlCode_VerticalTab;
        ControlCode_FormFeed; ControlCode_CarriageReturn; ControlCode_ShiftOut;
        ControlCode_ShiftIn; ControlCode_DataLinkEscape; ControlCode_DeviceControlOne;
        ControlCode_DeviceControlTwo; ControlCode_DeviceControlThree;
        ControlCode_DeviceControlFour; ControlCode_NegativeAcknowledge;
        ControlCode_SynchronousIdle; ControlCode_EndOfTransmissionBlock; ControlCode_Cancel;
        ControlCode_EndOfMedium; ControlCode_Substitute; ControlCode_Escape;
        ControlCode_FileSeparator; ControlCode_GroupSeparator; ControlCode_RecordSeparator;
        ControlCode_UnitSeparator; ControlCode_BPH; ControlCode_NBH; ControlCode_IND;
        ControlCode_NEL; ControlCode_SSA; ControlCode_ESA; ControlCode_HTS; ControlCode_HTJ;
        ControlCode_VTS; ControlCode_PLD; ControlCode_PLU; ControlCode_RI; ControlCode_SS2;
        ControlCode_SS3; ControlCode_DCS; ControlCode_PU1; ControlCode_PU2; ControlCode_STS;
        ControlCode_CCH; ControlCode_MW; ControlCode_SPA; ControlCode_EPA; ControlCode_SOS;
        ControlCode_SCI; ControlCode_CSI; ControlCode_ST; ControlCode_OSC; ControlCode_PM;
        ControlCode_APC] |}.

#[export] Instance ControlCode_laws : CEnumLaws ControlCode.
Proof. intros []; reflexivity. Qed.

#[export] Instance ControlCode_eq_dec : EqDecision ControlCode.
Proof. solve_decision. Defined.

Inductive Action : Set :=
| Action_Print (c : Z)
| Action_PrintString (s : list Z)
| Action_Control (c : ControlCode)
| Action_Esc (e : Esc)
| Action_CSI (c : CSI).

(** [Action::append_to]: consecutive characters are joined in a string. A string is its
    characters. *)
Definition append_to (a : Action) (dest : list Action) : list Action :=
  match a with
  | Action_Print c =>
      match list.last dest with
      | Some (Action_PrintString s) => removelast dest ++ [Action_PrintString (s ++ [c])]
      | Some (Action_Print prior) => removelast dest ++ [Action_PrintString [prior; c]]
      | _ => dest ++ [a]
      end
  | _ => dest ++ [a]
  end.

(** ** [parser/mod.rs] *)

(** The actions of one event. *)
Definition perform_event (e : VTAction) : option (list Action) :=
  match e with
  | VtPrint c => Some [Action_Print c]
  | VtExecuteC0orC1 b =>
      Some (match from_i64 b with Some code => [Action_Control code] | None => [] end)
  | VtCsiDispatch params truncated control =>
      cs ← csi_parse params truncated control; Some (map Action_CSI cs)
  | VtEscDispatch _ intermediates _ control =>
      Some [Action_Esc (Esc_parse (match intermediates with [i] => Some i | _ => None end)
                          control)]
  | _ => Some []
  end.

Fixpoint perform_events (es : list VTAction) : option (list Action) :=
  match es with
  | [] => Some []
  | e :: es => a ← perform_event e; r ← perform_events es; Some (a ++ r)
  end.
