(* ===== verification/Screen.v ===== *)
(** The screen of [src/term/src/screen.rs]: the lines of the view and of the scrollback before it,
    and every operation on them. The ring buffer [VecDeque] is a list (its two slices
    matter only to [with_phys_lines]); a row of the view is an [i64], an index into the
    lines a [usize], a stable row an [isize]. [None] is a panic. *)

From Stdlib Require Import ZArith Lia.
From S2P Require Import Prelude Color CsiTypes CharWidth Cell Line TermSize TermTypes.
From stdpp Require Import base numbers list option gmap.
Local Open Scope Z_scope.

(** [range.start..range.end]. *)
Abbreviation range A := (A * A)%type.

(** [z as usize], for a bound that is compared with a length. *)
Definition as_usize (z : Z) : Z := z mod 2 ^ 64.

Section Screen.
Context `{CharTables} `{Graphemes} `{BitSet} `{HyperlinkRules}.

Record Screen : Type := mkScreen {
  lines : list Line;
  stable_row_index_offset : nat;
  config : TerminalConfiguration;
  allow_scrollback : bool;
  keyboard_stack : list KeyboardEncoding;
  physical_rows : nat;
  physical_cols : nat;
  screen_dpi : Z;
  saved_cursor : option SavedCursor
}.

Definition set_lines (ls : list Line) (s : Screen) : Screen :=
  mkScreen ls (stable_row_index_offset s) (config s) (allow_scrollback s) (keyboard_stack s)
    (physical_rows s) (physical_cols s) (screen_dpi s) (saved_cursor s).
Definition set_offset (n : nat) (s : Screen) : Screen :=
  mkScreen (lines s) n (config s) (allow_scrollback s) (keyboard_stack s)
    (physical_rows s) (physical_cols s) (screen_dpi s) (saved_cursor s).
Definition set_keyboard_stack (k : list KeyboardEncoding) (s : Screen) : Screen :=
  mkScreen (lines s) (stable_row_index_offset s) (config s) (allow_scrollback s) k
    (physical_rows s) (physical_cols s) (screen_dpi s) (saved_cursor s).
Definition set_physical (rows cols : nat) (s : Screen) : Screen :=
  mkScreen (lines s) (stable_row_index_offset s) (config s) (allow_scrollback s)
    (keyboard_stack s) rows cols (screen_dpi s) (saved_cursor s).
Definition set_dpi (d : Z) (s : Screen) : Screen :=
  mkScreen (lines s) (stable_row_index_offset s) (config s) (allow_scrollback s)
    (keyboard_stack s) (physical_rows s) (physical_cols s) d (saved_cursor s).
Definition set_saved_cursor (c : option SavedCursor) (s : Screen) : Screen :=
  mkScreen (lines s) (stable_row_index_offset s) (config s) (allow_scrollback s)
    (keyboard_stack s) (physical_rows s) (physical_cols s) (screen_dpi s) c.

(** The method [scrollback_size], through the function of the same name. *)
Definition scrollback_size (s : Screen) : nat :=
  if allow_scrollback s then config_scrollback_size (config s) else O.

(** ** Creation *)

Definition Screen_new (size : TerminalSize) (cfg : TerminalConfiguration) (allow : bool) (sq : Z)
  (bidi : BidiMode) : Screen :=
  let physical_rows := Z.to_nat (Z.max 1 (rows size)) in
  let physical_cols := Z.to_nat (Z.max 1 (cols size)) in
  mkScreen (replicate physical_rows (apply_to_line bidi sq (Line_new sq))) O cfg allow []
    physical_rows physical_cols (dpi size) None.

Definition full_reset (s : Screen) : Screen := set_keyboard_stack [] s.

(** ** Rows *)

Definition clamp_visible_row (row : Z) (s : Screen) : Z :=
  Z.min (Z.max 0 row) (Z.of_nat (physical_rows s)).

Definition phys_row (row : Z) (s : Screen) : nat :=
  (length (lines s) - physical_rows s + Z.to_nat (clamp_visible_row row s))%nat.

Definition phys_range (r : range Z) (s : Screen) : range nat := (phys_row r.1 s, phys_row r.2 s).

(** The row is an [i32]; a screen with fewer lines than rows is a panic. *)
Definition scrollback_or_visible_row (row : Z) (s : Screen) : option nat :=
  top ← usize_sub (length (lines s)) (physical_rows s);
  Some (Z.to_nat (Z.max 0 (Z.of_nat top + row))).

Definition scrollback_or_visible_range (r : range Z) (s : Screen) : option (range nat) :=
  first ← scrollback_or_visible_row r.1 s;
  last ← scrollback_or_visible_row r.2 s;
  Some (first, last).

Definition phys_to_stable_row_index (phys : nat) (s : Screen) : Z :=
  Z.of_nat (phys + stable_row_index_offset s).

Definition stable_row_to_phys (stable : Z) (s : Screen) : option nat :=
  let idx := stable - Z.of_nat (stable_row_index_offset s) in
  if (idx <? 0) || (Z.of_nat (length (lines s)) <=? idx) then None else Some (Z.to_nat idx).

Definition visible_row_to_stable_row (vis : Z) (s : Screen) : Z :=
  phys_to_stable_row_index (phys_row vis s) s.

(** [None] is the panic of [lines.len() - 1] without lines. *)
Definition stable_range (r : range Z) (s : Screen) : option (range nat) :=
  let range_len := as_usize (r.2 - r.1) in
  let n := length (lines s) in
  match stable_row_to_phys r.1 s with
  | None => Some (O, Z.to_nat (Z.min range_len (Z.of_nat n)))
  | Some first =>
      match stable_row_to_phys (r.2 - 1) s with
      | None =>
          last ← usize_sub n 1;
          Some (Z.to_nat (Z.max 0 (Z.of_nat last - range_len)), S last)
      | Some last => Some (first, S last)
      end
  end.

(** ** Lines *)

(** [line_mut], and what is done to the line. *)
Definition with_line (idx : nat) (f : Line -> option Line) (s : Screen) : option Screen :=
  l ← lines s !! idx; l ← f l; Some (set_lines (<[idx := l]> (lines s)) s).

Definition scrollback_rows (s : Screen) : nat := length (lines s).

Definition dirty_line (row : Z) (sq : Z) (s : Screen) : Screen :=
  let idx := phys_row row s in
  if (idx <? length (lines s))%nat
  then set_lines (alter (update_last_change_seqno sq) idx (lines s)) s else s.

(** The same change to the lines of some indices, in order. *)
Fixpoint for_lines (ixs : list nat) (f : Line -> option Line) (ls : list Line)
  : option (list Line) :=
  match ixs with
  | [] => Some ls
  | i :: ixs => l ← ls !! i; l ← f l; for_lines ixs f (<[i := l]> ls)
  end.

(** The indices of a range. *)
Definition indices (r : range nat) : list nat := seq r.1 (r.2 - r.1).

(** The view; the test helpers [visible_lines] and [all_lines]. *)
Definition visible_lines (s : Screen) : list Line :=
  take (physical_rows s) (drop (length (lines s) - physical_rows s) (lines s)).

(** ** Cells *)

Definition screen_insert_cell (x : nat) (y : Z) (right_margin : nat) (sq : Z) (s : Screen)
  : option Screen :=
  with_line (phys_row y s) (fun l =>
    let l := update_last_change_seqno sq l in
    l ← insert_cell x Cell_blank right_margin sq l;
    Some (if (physical_cols s <? len l)%nat then Line.resize (physical_cols s) sq l else l)) s.

Definition screen_erase_cell (x : nat) (y : Z) (right_margin : nat) (sq : Z)
  (blank : CellAttributes) (s : Screen) : option Screen :=
  with_line (phys_row y s) (erase_cell_with_margin x right_margin sq blank) s.

Definition screen_set_cell (x : nat) (y : Z) (cell : Cell) (sq : Z) (s : Screen)
  : option Screen :=
  with_line (phys_row y s) (set_cell x (Cell_clone cell) sq) s.

Definition screen_set_cell_grapheme (x : nat) (y : Z) (t : list Z) (width : Z)
  (a : CellAttributes) (sq : Z) (s : Screen) : option Screen :=
  with_line (phys_row y s) (set_cell_grapheme x t width a sq) s.

(** [cell_mut] and [get_cell] expand the line and give the cell. *)
Definition screen_get_cell (x : nat) (y : Z) (s : Screen) : option Cell * Screen :=
  let idx := phys_row y s in
  match lines s !! idx with
  | None => (None, s)
  | Some l => (vec_of l !! x, set_lines (alter (map_vec id) idx (lines s)) s)
  end.

Definition clear_line (y : Z) (cols : range nat) (a : CellAttributes) (sq : Z) (bidi : BidiMode)
  (s : Screen) : option Screen :=
  with_line (phys_row y s) (fun l =>
    let l := if (cols.1 =? 0)%nat then apply_to_line bidi sq l else l in
    fill_range cols.1 cols.2 (blank_with_attrs a) sq l) s.

(** ** Scrolling *)

(** A blank line of the width of the screen, if the style is not the default one. *)
Definition blank_line (a : CellAttributes) (sq : Z) (s : Screen) : Line :=
  if attrs_eqb blank_attrs a then Line_new sq
  else with_width_and_cell (physical_cols s) (blank_with_attrs a) sq.

(** [VecDeque::insert] panics beyond the end, [VecDeque::remove] does nothing there. *)
Definition deque_insert {A} (i : nat) (x : A) (l : list A) : option (list A) :=
  rust_assert (i <=? length l)%nat;; Some (insert_at i x l).

(** The first loop of [scroll_up]: removed lines are used again at the bottom. *)
Fixpoint move_lines (n remove_idx : nat) (insert_idx : option nat) (recycle : Line -> Line)
  (ls : list Line) : option (list Line) :=
  match n with
  | O => Some ls
  | S n =>
      l ← ls !! remove_idx;
      let ls := delete remove_idx ls in
      ls ← match insert_idx with
           | None => Some (ls ++ [recycle l])
           | Some i => i ← usize_sub i 1; deque_insert i (recycle l) ls
           end;
      move_lines n remove_idx insert_idx recycle ls
  end.

Fixpoint remove_lines (n idx : nat) (ls : list Line) : list Line :=
  match n with O => ls | S n => remove_lines n idx (delete idx ls) end.

Fixpoint add_lines (n : nat) (insert_idx : option nat) (line : Line) (ls : list Line)
  : option (list Line) :=
  match n with
  | O => Some ls
  | S n =>
      ls ← match insert_idx with
           | None => Some (ls ++ [line])
           | Some i => deque_insert i line ls
           end;
      add_lines n insert_idx line ls
  end.

Definition scroll_up (region : range Z) (num_rows : nat) (sq : Z) (blank : CellAttributes)
  (bidi : BidiMode) (s : Screen) : option Screen :=
  let phys_scroll := phys_range region s in
  height ← usize_sub phys_scroll.2 phys_scroll.1;
  let num_rows := Nat.min num_rows height in
  let scrollback_ok := (region.1 =? 0) && allow_scrollback s in
  let insert_at := if region.2 =? Z.of_nat (physical_rows s) then None else Some phys_scroll.2 in
  ls ← (if scrollback_ok then Some (lines s)
        else for_lines (indices phys_scroll) (Some ∘ update_last_change_seqno sq) (lines s));
  let lines_removed :=
    if scrollback_ok then (length ls + num_rows - (physical_rows s + scrollback_size s))%nat
    else num_rows in
  ls ← (if region.1 =? 0
        then for_lines (indices (phys_range (0, Z.of_nat num_rows) s)) compress_for_scrollback ls
        else Some ls);
  let remove_idx := if region.1 =? 0 then O else phys_scroll.1 in
  let to_move := Nat.min lines_removed num_rows in
  ls ← move_lines to_move remove_idx insert_at
         (fun l => if attrs_eqb blank_attrs blank then Line_new sq
                   else update_last_change_seqno sq
                          (resize_and_clear (physical_cols s) sq blank l)) ls;
  let to_remove := (lines_removed - to_move)%nat in
  let to_add := (num_rows - to_move)%nat in
  let ls := remove_lines to_remove remove_idx ls in
  let offset := if (remove_idx =? 0)%nat && scrollback_ok
                then (stable_row_index_offset s + lines_removed)%nat
                else stable_row_index_offset s in
  ls ← add_lines to_add insert_at (apply_to_line bidi sq (blank_line blank sq s)) ls;
  let s := set_offset offset (set_lines ls s) in
  if (0 <? to_remove)%nat || ((0 <? to_add)%nat && negb (region.2 =? Z.of_nat (physical_rows s)))
  then
    ls ← for_lines (indices (phys_range (region.2, Z.of_nat (physical_rows s)) s))
           (Some ∘ update_last_change_seqno sq) ls;
    Some (set_lines ls s)
  else Some s.

Definition erase_scrollback (s : Screen) : option Screen :=
  to_clear ← usize_sub (length (lines s)) (physical_rows s);
  let s' := set_lines (drop to_clear (lines s)) s in
  Some (if allow_scrollback s then set_offset (stable_row_index_offset s + to_clear) s' else s').

Definition scroll_down (region : range Z) (num_rows : nat) (sq : Z) (blank : CellAttributes)
  (bidi : BidiMode) (s : Screen) : option Screen :=
  let phys_scroll := phys_range region s in
  height ← usize_sub phys_scroll.2 phys_scroll.1;
  let num_rows := Nat.min num_rows height in
  let middle := (phys_scroll.2 - num_rows)%nat in
  ls ← for_lines (indices (phys_scroll.1, middle)) (Some ∘ update_last_change_seqno sq) (lines s);
  let ls := remove_lines num_rows middle ls in
  ls ← add_lines num_rows (Some phys_scroll.1) (apply_to_line bidi sq (blank_line blank sq s)) ls;
  Some (set_lines ls s).

(** ** Scrolling between the left and the right margin *)

(** The cells of a line between the margins, and the line expanded. *)
Definition copy_cells (margins : range nat) (l : Line) : option (list Cell) :=
  n ← usize_sub margins.2 margins.1;
  Some (map Cell_clone (take n (drop margins.1 (vec_of l)))).

(** Cells are placed into a line from the left margin on; the rest up to the right
    margin is blanked. *)
Definition place_cells (margins : range nat) (cells : list Cell) (sq : Z) (blank : CellAttributes)
  (l : Line) : option Line :=
  let l := update_last_change_seqno sq l in
  let last := (margins.1 + length cells)%nat in
  let l := if (len l <? last)%nat then Line.resize last sq l else l in
  l ← edit_vec (fun v =>
        rust_assert (last <=? length v)%nat;;
        Some (take margins.1 v ++ map Cell_clone cells ++ drop last v)) l;
  fill_range last margins.2 (blank_with_attrs blank) sq l.

(** The cells between the margins are blanked. *)
Definition blank_cells (margins : range nat) (sq : Z) (blank : CellAttributes) (l : Line)
  : option Line :=
  let l := update_last_change_seqno sq l in
  n ← usize_sub margins.2 margins.1;
  Some (map_vec (fun v =>
    let m := length (take n (drop margins.1 v)) in
    take margins.1 v ++ replicate m (blank_with_attrs blank) ++ drop (margins.1 + m) v) l).

(** The copies of a scroll, from a row to another, in order. *)
Fixpoint copy_rows (moves : list (nat * nat)) (margins : range nat) (sq : Z)
  (blank : CellAttributes) (ls : list Line) : option (list Line) :=
  match moves with
  | [] => Some ls
  | (src, dest) :: moves =>
      l ← ls !! src;
      cells ← copy_cells margins l;
      let ls := <[src := map_vec id l]> ls in
      d ← ls !! dest;
      d ← place_cells margins cells sq blank d;
      copy_rows moves margins sq blank (<[dest := d]> ls)
  end.

Definition scroll_up_within_margins (region : range Z) (margins : range nat) (num_rows : nat)
  (sq : Z) (blank : CellAttributes) (bidi : BidiMode) (s : Screen) : option Screen :=
  if (margins.1 =? 0)%nat && (margins.2 =? physical_cols s)%nat
  then scroll_up region num_rows sq blank bidi s
  else
    let '(top, bottom) := phys_range region s in
    height ← usize_sub bottom top;
    let num_rows := Nat.min num_rows height in
    let rows_to_copy := (height - num_rows)%nat in
    ls ← copy_rows (map (fun dest => (dest + num_rows, dest)%nat) (seq top rows_to_copy))
           margins sq blank (lines s);
    ls ← for_lines (indices (top + rows_to_copy, bottom)%nat) (blank_cells margins sq blank) ls;
    Some (set_lines ls s).

Definition scroll_down_within_margins (region : range Z) (margins : range nat) (num_rows : nat)
  (sq : Z) (blank : CellAttributes) (bidi : BidiMode) (s : Screen) : option Screen :=
  if (margins.1 =? 0)%nat && (margins.2 =? physical_cols s)%nat
  then scroll_down region num_rows sq blank bidi s
  else
    let '(top, bottom) := phys_range region s in
    height ← usize_sub bottom top;
    let num_rows := Nat.min num_rows height in
    let rows_to_copy := (height - num_rows)%nat in
    ls ← copy_rows (map (fun src => (src, src + num_rows)%nat) (rev (seq top rows_to_copy)))
           margins sq blank (lines s);
    ls ← for_lines (indices (top, top + num_rows)%nat) (blank_cells margins sq blank) ls;
    Some (set_lines ls s).

(** ** Resizing *)

(** The loop of [rewrap_lines]: the new lines, the logical line in progress, the cursor's column
    in it, and the new place of the cursor. *)
Record Rewrap : Type := mkRewrap {
  rewrapped : list Line;
  logical_line : option Line;
  logical_cursor_x : option nat;
  adjusted_cursor : nat * nat
}.

(** Where the column [x] of a logical line goes, that starts at the new line [row]. *)
Definition place_cursor (x row new_cols old_cols cursor_x : nat) : nat * nat :=
  let num_lines := (x / new_cols)%nat in
  let last_x := (x - num_lines * new_cols)%nat in
  let y := (row + num_lines)%nat in
  if (last_x =? 0)%nat && (0 <? y)%nat
  then (if (new_cols <? old_cols)%nat then cursor_x else new_cols, y - 1)%nat
  else (last_x, y).

Definition rewrap_line (new_cols old_cols cursor_x cursor_y : nat) (sq : Z) (phys_idx : nat)
  (line : Line) (st : Rewrap) : option Rewrap :=
  let line := update_last_change_seqno sq line in
  let was_wrapped := last_cell_was_wrapped line in
  line ← (if was_wrapped then set_last_cell_was_wrapped false sq line else Some line);
  let here := (phys_idx =? cursor_y)%nat in
  '(line, x) ←
    match logical_line st with
    | None => Some (line, if here then Some cursor_x else logical_cursor_x st)
    | Some prior =>
        let x := if here then Some (cursor_x + len prior)%nat else logical_cursor_x st in
        line ← append_line line sq prior; Some (line, x)
    end;
  if was_wrapped then Some (mkRewrap (rewrapped st) (Some line) x (adjusted_cursor st))
  else
    let adjusted :=
      match x with
      | Some x => place_cursor x (length (rewrapped st)) new_cols old_cols cursor_x
      | None => adjusted_cursor st
      end in
    ls ← (if (len line <=? new_cols)%nat then Some [line] else wrap new_cols sq line);
    Some (mkRewrap (rewrapped st ++ ls) None None adjusted).

Fixpoint rewrap_loop (new_cols old_cols cursor_x cursor_y : nat) (sq : Z) (phys_idx : nat)
  (ls : list Line) (st : Rewrap) : option Rewrap :=
  match ls with
  | [] => Some st
  | l :: ls =>
      st ← rewrap_line new_cols old_cols cursor_x cursor_y sq phys_idx l st;
      rewrap_loop new_cols old_cols cursor_x cursor_y sq (S phys_idx) ls st
  end.

(** Whitespace is dropped from the end of the lines while there are more than
    [capacity]; each round drops one. *)
Fixpoint prune_back (fuel capacity : nat) (ls : list Line) : list Line :=
  match fuel with
  | O => ls
  | S fuel =>
      if (capacity <? length ls)%nat && from_option is_whitespace false (last ls)
      then prune_back fuel capacity (removelast ls)
      else ls
  end.

Definition rewrap_lines (new_cols new_rows cursor_x cursor_y : nat) (sq : Z) (s : Screen)
  : option (Screen * (nat * nat)) :=
  st ← rewrap_loop new_cols (physical_cols s) cursor_x cursor_y sq O (lines s)
         (mkRewrap [] None None (cursor_x, cursor_y));
  let ls := rewrapped st in
  let capacity := (new_rows + scrollback_size s)%nat in
  Some (set_lines (prune_back (length ls) capacity ls) s, adjusted_cursor st).

(** The last line is dropped, [n] times, if it is white. *)
Fixpoint drop_white (n : nat) (ls : list Line) : list Line :=
  match n with
  | O => ls
  | S n => drop_white n (if from_option is_whitespace false (last ls) then removelast ls else ls)
  end.

Definition screen_resize (size : TerminalSize) (cursor : CursorPosition) (sq : Z) (is_conpty : bool)
  (s : Screen) : option (Screen * CursorPosition) :=
  let new_rows := Z.to_nat (Z.max 1 (rows size)) in
  let new_cols := Z.to_nat (Z.max 1 (cols size)) in
  if (new_rows =? physical_rows s)%nat && (new_cols =? physical_cols s)%nat &&
     (dpi size =? screen_dpi s)
  then Some (s, cursor)
  else
    let s := set_dpi (dpi size) s in
    let cursor_phys := phys_row (cursor_y cursor) s in
    let s := set_lines (drop_white (length (lines s) - (cursor_phys + 1)) (lines s)) s in
    '(s, (x, y)) ←
      (if (new_cols =? physical_cols s)%nat then Some (s, (cursor_x cursor, cursor_phys))
       else if allow_scrollback s
       then rewrap_lines new_cols new_rows (cursor_x cursor) cursor_phys sq s
       else Some (set_lines (map (fun l =>
                    if (new_cols <? physical_cols s)%nat then Line.resize new_cols sq l
                    else update_last_change_seqno sq l) (lines s)) s,
                  (cursor_x cursor, cursor_phys)));
    let ls := lines s ++ replicate (new_rows - length (lines s)) (Line_new sq) in
    let '(ls, new_y) :=
      if is_conpty then
        let new_y := Z.max 0 (i64_sat (i64_sat (cursor_y cursor + Z.of_nat y) - Z.of_nat cursor_phys)) in
        let required := (new_rows - Z.to_nat new_y)%nat in
        let actual := (length ls - y)%nat in
        (ls ++ replicate (required - actual) (Line_new sq), new_y)
      else (ls, Z.of_nat y - (Z.of_nat (length ls) - Z.of_nat new_rows)) in
    Some (set_physical new_rows new_cols (set_lines ls s),
          mkCursor x new_y (cursor_shape cursor) (cursor_visibility cursor) sq).

(** ** Access to several lines *)

Definition lines_in_phys_range (r : range nat) (s : Screen) : option (list Line) :=
  n ← usize_sub r.2 r.1; Some (map Line_clone (take n (drop r.1 (lines s)))).

Definition get_changed_stable_rows (stable_lines : range Z) (sq : Z) (s : Screen)
  : option (list Z) :=
  phys ← stable_range stable_lines s;
  n ← usize_sub phys.2 phys.1;
  Some (map (fun p => phys_to_stable_row_index p.1 s)
          (List.filter (fun p => changed_since sq p.2)
             (take n (drop phys.1 (imap pair (lines s)))))).

Definition phys_intersection (r1 r2 : range nat) : range nat :=
  let start := Nat.max r1.1 r2.1 in
  let stop := Nat.min r1.2 r2.2 in
  if (start <? stop)%nat then (start, stop) else (O, O).

(** [&l[r]]. *)
Definition slice {A} (r : range nat) (l : list A) : option (list A) :=
  rust_assert ((r.1 <=? r.2)%nat && (r.2 <=? length l)%nat);;
  Some (take (r.2 - r.1) (drop r.1 l)).

(** The lines that [with_phys_lines] gives to its function, from the two slices of the
    ring buffer. *)
Definition with_phys_lines (first second : list Line) (r : range nat) : option (list Line) :=
  let second_range := (length first, length first + length second)%nat in
  _ ← usize_sub r.2 r.1;
  a ← slice (phys_intersection (O, length first) r) first;
  b ← slice (phys_intersection second_range r) second;
  Some (a ++ b).

(** The lines that [with_phys_lines_mut] gives to its function. *)
Definition with_phys_lines_mut (first second : list Line) (r : range nat) : option (list Line) :=
  let second_range :=
    phys_intersection (length first, length first + length second)%nat r in
  _ ← usize_sub r.2 r.1;
  a ← slice (phys_intersection (O, length first) r) first;
  b ← slice (second_range.1 - length first, second_range.2 - length first)%nat second;
  Some (a ++ b).

(** ** Logical lines *)

Definition MAX_LOGICAL_LINE_LEN : nat := 1024.

(** The start of the logical line that a row belongs to, looking backwards. *)
Fixpoint look_back (start back_len : nat) (ls : list Line) : option nat :=
  match start with
  | O => Some O
  | S prior =>
      l ← ls !! prior;
      if negb (last_cell_was_wrapped l) then Some start
      else if (MAX_LOGICAL_LINE_LEN <? len l + back_len)%nat then Some start
      else look_back prior (back_len + len l) ls
  end.

(** The last row of the logical line that starts with the first of [rest]. *)
Fixpoint look_ahead (rest : list Line) (idx total_len end_inclusive : nat) : nat :=
  match rest with
  | [] => end_inclusive
  | l :: rest =>
      if (0 <? total_len)%nat && (MAX_LOGICAL_LINE_LEN <? total_len + len l)%nat
      then end_inclusive
      else if negb (last_cell_was_wrapped l) then idx
      else look_ahead rest (S idx) (total_len + len l) idx
  end.

(** The loop of [for_each_logical_line_in_stable_range_mut]; each round takes at least one row.
    The function changes the lines and a state of its own, and says whether to go on. *)
Fixpoint logical_loop {St} (fuel phys_row phys_end : nat) (stable : range Z)
  (f : range Z -> list Line -> St -> list Line * St * bool) (s : Screen) (st : St)
  : Screen * St :=
  match fuel with
  | O => (s, st)
  | S fuel =>
      if (phys_end <=? phys_row)%nat then (s, st)
      else
        match drop phys_row (lines s) with
        | [] => (s, st)
        | rest =>
            let end_inclusive := look_ahead rest phys_row O phys_row in
            let r := (phys_to_stable_row_index phys_row s,
                      phys_to_stable_row_index (end_inclusive + 1) s) in
            if r.2 <? stable.1 then logical_loop fuel (end_inclusive + 1) phys_end stable f s st
            else if stable.2 <? r.1 then (s, st)
            else
              let n := (end_inclusive + 1 - phys_row)%nat in
              let '(ls, st, go_on) := f r (take n rest) st in
              let s := set_lines (take phys_row (lines s) ++ ls ++ drop n rest) s in
              if go_on : bool then logical_loop fuel (end_inclusive + 1) phys_end stable f s st
              else (s, st)
        end
  end.

Definition for_each_logical_line_in_stable_range_mut {St} (stable : range Z)
  (f : range Z -> list Line -> St -> list Line * St * bool) (s : Screen) (st : St)
  : option (Screen * St) :=
  phys ← stable_range stable s;
  start ← look_back phys.1 O (lines s);
  Some (logical_loop (S (phys.2 - start)) start phys.2 stable f s st).

(** The same without changes to the lines. *)
Definition for_each_logical_line_in_stable_range {St} (stable : range Z)
  (f : range Z -> list Line -> St -> St * bool) (s : Screen) (st : St) : option St :=
  r ← for_each_logical_line_in_stable_range_mut stable
        (fun r ls st => let '(st, go_on) := f r ls st in (ls, st, go_on)) s st;
  Some r.2.

End Screen.
