(* ===== verification/ScreenProps.v ===== *)
(** Theorems on the screen of [Screen.v]: what scrolling a region does to every row and to the
    scrollback, stable rows, and the slices of the ring buffer. *)

From Stdlib Require Import ZArith Lia.
From S2P Require Import Prelude CallMonad Post Color CsiTypes CharWidth Cell CellProps Line LineProps TermSize TermTypes Screen.
From stdpp Require Import base numbers list option gmap.
Local Open Scope Z_scope.

(** ** Lists *)

Lemma lookup_three {A} (a b c : list A) i :
  (a ++ b ++ c) !! i =
    if (i <? length a)%nat then a !! i
    else if (i <? length a + length b)%nat then b !! (i - length a)%nat
    else c !! (i - length a - length b)%nat.
Proof.
  repeat case_match; bool_to_prop.
  - by rewrite lookup_app_l.
  - rewrite lookup_app_r, lookup_app_l by lia. done.
  - rewrite !lookup_app_r by lia. done.
Qed.

(** A list cut at two places. *)
Lemma cut_list {A} (l : list A) n m :
  (n + m <= length l)%nat -> exists a b c, l = a ++ b ++ c /\ length a = n /\ length b = m.
Proof.
  intros Hn. exists (take n l), (take m (drop n l)), (drop m (drop n l)).
  rewrite !take_drop, !length_take, length_drop. split; [done|]. lia.
Qed.

Section Loops.
Context `{CharTables} `{Graphemes} `{BitSet} `{HyperlinkRules}.

(** The lines of a range are changed, the others kept. *)
Lemma for_lines_spec (f : Line -> option Line) (R : Line -> Line -> Prop) n : forall a ls,
  (a + n <= length ls)%nat ->
  (forall i l, (a <= i < a + n)%nat -> ls !! i = Some l -> yields (f l) (R l)) ->
  yields (for_lines (seq a n) f ls) (fun ls' =>
    length ls' = length ls /\
    forall i l, ls !! i = Some l ->
      exists l', ls' !! i = Some l' /\
        if decide (a <= i < a + n)%nat then R l l' else l' = l).
Proof.
  induction n as [|n IH]; intros a ls Hn Hf; cbn [seq for_lines].
  - apply yields_Some. split; [done|]. intros i l Hl. exists l. split; [done|].
    rewrite decide_False by lia. done.
  - assert (a < length ls)%nat as [la Hla]%lookup_lt_is_Some by lia.
    rewrite Hla. cbn [mbind option_bind]. eapply yields_bind; [apply (Hf a la); [lia|done]|].
    intros la' HR. eapply yields_weaken; [apply (IH (S a) (<[a := la']> ls))|].
    + rewrite length_insert. lia.
    + intros i l Hi Hl. rewrite list_lookup_insert_ne in Hl by lia. apply (Hf i l); [lia|done].
    + cbn. intros ls' [Hlen Hls']. rewrite length_insert in Hlen. split; [done|]. intros i l Hl.
      destruct (decide (i = a)) as [->|Hia].
      * simplify_eq. destruct (Hls' a la') as (l' & Hl' & E); [apply list_lookup_insert_eq; lia|].
        exists l'. split; [done|]. rewrite decide_False in E by lia. rewrite decide_True by lia.
        by subst.
      * destruct (Hls' i l) as (l' & Hl' & E); [by rewrite list_lookup_insert_ne by lia|].
        exists l'. split; [done|]. destruct (decide (a <= i < a + S n)%nat);
          [rewrite decide_True in E by lia|rewrite decide_False in E by lia]; done.
Qed.

(** Moving the lines [m] to the end of a region, each as it is used again. *)
Lemma move_lines_at (a m b d : list Line) recycle :
  move_lines (length m) (length a) (Some (length a + length m + length b)%nat) recycle
    (a ++ m ++ b ++ d) = Some (a ++ b ++ map recycle m ++ d).
Proof.
  revert b. induction m as [|x m IH]; intros b; [done|]. cbn [move_lines length app map].
  rewrite list_lookup_middle by done. cbn [mbind option_bind]. rewrite delete_middle.
  rewrite usize_sub_Some by lia. cbn [mbind option_bind]. unfold deque_insert, insert_at.
  rewrite !length_app, (proj2 (Nat.leb_le _ _)) by lia. cbn [rust_assert mbind option_bind].
  replace (length a + S (length m) + length b - 1)%nat with (length (a ++ m ++ b))
    by (rewrite !length_app; lia).
  replace (a ++ m ++ b ++ d) with ((a ++ m ++ b) ++ d) by by rewrite <- !(assoc_L app).
  rewrite take_app_length, drop_app_length. specialize (IH (b ++ [recycle x])).
  rewrite length_app in IH. cbn [length] in IH.
  replace (length a + length m + (length b + 1))%nat with (length a + S (length m) + length b)%nat in IH
    by lia.
  rewrite <- !app_assoc in *. exact IH.
Qed.

Lemma move_lines_end (a m b : list Line) recycle :
  move_lines (length m) (length a) None recycle (a ++ m ++ b) = Some (a ++ b ++ map recycle m).
Proof.
  revert b. induction m as [|x m IH]; intros b; [by rewrite app_nil_r|]. cbn [move_lines length app map].
  rewrite list_lookup_middle by done. cbn [mbind option_bind]. rewrite delete_middle.
  specialize (IH (b ++ [recycle x])). rewrite <- !app_assoc in *. exact IH.
Qed.

Lemma remove_lines_at (a m b : list Line) :
  remove_lines (length m) (length a) (a ++ m ++ b) = a ++ b.
Proof.
  induction m as [|x m IH]; [done|]. cbn [remove_lines length app]. by rewrite delete_middle.
Qed.

Lemma add_lines_at (a d : list Line) n line :
  add_lines n (Some (length a)) line (a ++ d) = Some (a ++ replicate n line ++ d).
Proof.
  revert d. induction n as [|n IH]; intros d; [done|]. cbn [add_lines].
  unfold deque_insert, insert_at. rewrite length_app, (proj2 (Nat.leb_le _ _)) by lia.
  cbn [rust_assert mbind option_bind]. rewrite take_app_length, drop_app_length, IH.
  by rewrite replicate_S_end, <- app_assoc.
Qed.

Lemma add_lines_end n line ls : add_lines n None line ls = Some (ls ++ replicate n line).
Proof.
  revert ls. induction n as [|n IH]; intros ls; cbn [add_lines]; [by rewrite app_nil_r|].
  cbn [mbind option_bind]. rewrite IH. by rewrite <- (assoc_L app).
Qed.

Lemma for_lines_map (a b c : list Line) g :
  for_lines (seq (length a) (length b)) (Some ∘ g) (a ++ b ++ c) = Some (a ++ map g b ++ c).
Proof.
  revert a. induction b as [|x b IH]; intros a; [done|]. cbn [length seq for_lines app map].
  rewrite list_lookup_middle by done. cbn [mbind option_bind compose].
  rewrite insert_app_r_alt by done. rewrite Nat.sub_diag. cbn [insert list_insert].
  specialize (IH (a ++ [g x])). rewrite length_app in IH. cbn [length] in IH.
  rewrite Nat.add_1_r, <- !app_assoc in IH. exact IH.
Qed.

(** The same at the place [e] of a list, which may be its end. *)
Definition inserts_at (e : nat) (ls : list Line) (ins : option nat) : Prop :=
  ins = Some e \/ ins = None /\ e = length ls.

Lemma move_lines_region k ri e ins recycle (ls : list Line) :
  (ri + k <= e)%nat -> (e <= length ls)%nat -> inserts_at e ls ins ->
  move_lines k ri ins recycle ls =
    Some (take ri ls ++ drop (ri + k) (take e ls) ++ map recycle (take k (drop ri ls)) ++ drop e ls).
Proof.
  intros Hk He Hins. destruct (cut_list ls e (length ls - e)) as (l0 & d & c & -> & E0 & Ed); [lia|].
  rewrite !length_app in *. destruct c as [|]; [|cbn in *; lia]. rewrite app_nil_r in *.
  destruct (cut_list l0 ri k) as (a & m & b & -> & Ea & Em); [lia|]. rewrite !length_app in E0.
  assert (take ri (((a ++ m ++ b) ++ d)) = a) as ->.
  { rewrite <- app_assoc, <- Ea. by apply take_app_length. }
  assert (take e ((a ++ m ++ b) ++ d) = a ++ m ++ b) as ->.
  { apply take_app_length'. rewrite !length_app. lia. }
  assert (drop (ri + k) (a ++ m ++ b) = b) as ->.
  { rewrite app_assoc. apply drop_app_length'. rewrite length_app. lia. }
  assert (take k (drop ri ((a ++ m ++ b) ++ d)) = m) as ->.
  { rewrite <- app_assoc, drop_app_length' by done. rewrite <- app_assoc. by apply take_app_length'. }
  assert (drop e ((a ++ m ++ b) ++ d) = d) as ->.
  { apply drop_app_length'. rewrite !length_app. lia. }
  rewrite <- !app_assoc. subst ri k. destruct Hins as [-> | [-> Ee]].
  - rewrite <- move_lines_at. do 2 f_equal. lia.
  - assert (d = []) as -> by (apply length_zero_iff_nil; rewrite ?length_app in *; cbn in *; lia).
    rewrite !app_nil_r. apply move_lines_end.
Qed.

Lemma add_lines_region k e ins line (ls : list Line) :
  (e <= length ls)%nat -> inserts_at e ls ins ->
  add_lines k ins line ls = Some (take e ls ++ replicate k line ++ drop e ls).
Proof.
  intros He [-> | [-> ->]].
  - rewrite <- (take_drop e ls) at 1. pose proof (length_take_le ls e He) as E.
    rewrite <- E at 1. apply add_lines_at.
  - rewrite firstn_all, drop_all, app_nil_r. apply add_lines_end.
Qed.

End Loops.

(** ** Scrolling *)

Section Scrolling.
Context `{CharTables} `{Graphemes} `{BitSet} `{HyperlinkRules}.
Implicit Types s : Screen.

(** The first line of the view is in the buffer. *)
Definition screen_full s : Prop := (physical_rows s <= length (lines s))%nat.

Definition region_ok (r : range Z) s : Prop := 0 <= r.1 <= r.2 /\ r.2 <= Z.of_nat (physical_rows s).

Lemma phys_row_in y s :
  0 <= y <= Z.of_nat (physical_rows s) ->
  phys_row y s = (length (lines s) - physical_rows s + Z.to_nat y)%nat.
Proof. intros Hy. unfold phys_row, clamp_visible_row. lia. Qed.

(** A line that is new on the screen: blank, in the background that was asked for, and not marked as
    searched for links. *)
Definition blank_row (cols : nat) (blank : CellAttributes) (l : Line) : Prop :=
  storage l = (if attrs_eqb blank_attrs blank then C ClusteredLine_new
               else V (replicate cols (blank_with_attrs blank))) /\
  unscanned (line_bits l).

Lemma blank_line_row blank sq bidi s :
  blank_row (physical_cols s) blank (apply_to_line bidi sq (blank_line blank sq s)).
Proof.
  unfold blank_row, apply_to_line, set_bidi_info, blank_line.
  by destruct (attrs_eqb _ _), (hint bidi), (enabled bidi).
Qed.

Lemma recycled_row cols blank sq l :
  blank_row cols blank
    (if attrs_eqb blank_attrs blank then Line_new sq
     else update_last_change_seqno sq (resize_and_clear cols sq blank l)).
Proof.
  unfold blank_row. destruct (attrs_eqb _ _); [done|]. unfold resize_and_clear. split; [|done].
  cbn. f_equal. set (v := vec_of l). rewrite length_map.
  assert (map (fun _ => blank_with_attrs blank) v = replicate (length v) (blank_with_attrs blank)) as ->
    by (induction v as [|c v IH]; [done|]; cbn; by rewrite IH).
  rewrite take_replicate, <- replicate_add. f_equal. lia.
Qed.

(** What [scroll_up] does to a line before it moves anything. *)
Definition prepared (keep at_top : bool) (P E n : nat) (sq : Z) (i : nat) (l l' : Line) : Prop :=
  let l1 := if decide (keep = false /\ P <= i < E)%nat then update_last_change_seqno sq l else l in
  if decide (at_top = true /\ P <= i < P + n)%nat then compress_for_scrollback l1 = Some l'
  else l' = l1.

Lemma compress_update sq l :
  is_Some (compress_for_scrollback l) -> is_Some (compress_for_scrollback (update_last_change_seqno sq l)).
Proof.
  unfold compress_for_scrollback, visible_cells. cbn [storage update_last_change_seqno].
  destruct (storage l); [|done]. by destruct (from_cell_vec _ _).
Qed.

(** A row of the view. *)
Definition row s (i : nat) : option Line := lines s !! (length (lines s) - physical_rows s + i)%nat.

(** The same line, if need be marked as changed. *)
Definition touched (sq : Z) (o : option Line) (l' : Line) : Prop :=
  o = Some l' \/ exists l, o = Some l /\ l' = update_last_change_seqno sq l.

Section Up.
Context (region : range Z) (num : nat) (sq : Z) (blank : CellAttributes) (bidi : BidiMode).
Context (s : Screen) (Hfull : screen_full s) (Hregion : region_ok region s).
Context (Hcomp : Forall (fun l => is_Some (compress_for_scrollback l)) (lines s)).

Abbreviation P := (phys_row region.1 s).
Abbreviation E := (phys_row region.2 s).
Abbreviation n := (Nat.min num (E - P)).
Abbreviation keep := ((region.1 =? 0) && allow_scrollback s).
Abbreviation lr :=
  (if keep then length (lines s) + n - (physical_rows s + scrollback_size s) else n)%nat.
Abbreviation ri := (if (region.1 =? 0)%Z then O else P).

Lemma region_bounds :
  (length (lines s) - physical_rows s <= P <= E)%nat /\ (E <= length (lines s))%nat /\
  E = (P + Z.to_nat (region.2 - region.1))%nat /\
  (region.1 = 0 -> P = (length (lines s) - physical_rows s)%nat) /\
  (region.2 = Z.of_nat (physical_rows s) <-> E = length (lines s)).
Proof.
  destruct Hregion as [H1' H2']. unfold screen_full in Hfull.
  rewrite !phys_row_in by lia. lia.
Qed.

Lemma prepare_lines :
  yields
    (ls ← (if keep then Some (lines s)
           else for_lines (indices (P, E)) (Some ∘ update_last_change_seqno sq) (lines s));
     if region.1 =? 0
     then for_lines (indices (phys_range (0, Z.of_nat n) s)) compress_for_scrollback ls
     else Some ls)
    (fun ls => length ls = length (lines s) /\
       forall i l, lines s !! i = Some l ->
         exists l', ls !! i = Some l' /\ prepared keep (region.1 =? 0) P E n sq i l l').
Proof.
  pose proof region_bounds as (HP & HE & EE & HP0 & _). rewrite Forall_lookup in Hcomp.
  eapply yields_bind with (P := fun ls => length ls = length (lines s) /\
    forall i l, lines s !! i = Some l ->
      ls !! i = Some (if decide (keep = false /\ P <= i < E)%nat
                      then update_last_change_seqno sq l else l)).
  - destruct keep.
    + apply yields_Some. split; [done|]. intros i l Hl. by rewrite decide_False by by intros [].
    + unfold indices. cbn [fst snd]. eapply yields_weaken.
      * apply (for_lines_spec _ (fun l l' => l' = update_last_change_seqno sq l)); [lia|done].
      * cbn. intros ls [Hlen Hls]. split; [done|]. intros i l Hl.
        destruct (Hls i l Hl) as (l' & Hl' & El). rewrite Hl'. f_equal.
        destruct (decide (P <= i < E)%nat).
        -- rewrite decide_True in El by lia. by rewrite decide_True.
        -- rewrite decide_False in El by lia. rewrite decide_False; [done|]. by intros [].
  - intros ls [Hlen Hls]. unfold prepared. cbv zeta. destruct (Z.eqb_spec region.1 0) as [E0|E0].
    + unfold indices, phys_range. cbn [fst snd]. rewrite (phys_row_in 0), (phys_row_in (Z.of_nat n))
        by (destruct Hregion; lia). rewrite <- HP0, Nat.add_0_r by done.
      replace (P + Z.to_nat (Z.of_nat n) - P)%nat with n by lia.
      eapply yields_weaken.
      * apply (for_lines_spec _ (fun l l' => compress_for_scrollback l = Some l')); [lia|].
        intros i l1 Hi Hl1. assert (i < length (lines s))%nat as [l Hl]%lookup_lt_is_Some by lia.
        specialize (Hls i l Hl). simplify_eq. specialize (Hcomp i l Hl).
        case_decide; [apply (compress_update sq) in Hcomp|]; destruct Hcomp as [l' Hl'];
          by rewrite Hl'.
      * cbn. intros ls' [Hlen' Hls']. split; [congruence|]. intros i l Hl.
        destruct (Hls' i _ (Hls i l Hl)) as (l' & Hl' & El). exists l'. split; [done|].
        destruct (decide (P <= i < P + n)%nat).
        -- by rewrite decide_True.
        -- rewrite decide_False; [done|]. by intros [].
    + apply yields_Some. split; [done|]. intros i l Hl. eexists. split; [by apply Hls|].
      rewrite (decide_False (P := false = true /\ _)) by by intros []. done.
Qed.

Lemma drop_more {A} (a b : nat) (l : list A) : drop a (drop b l) = drop (b + a) l.
Proof. apply drop_drop. Qed.

Lemma lr_bound : (ri + lr <= E)%nat /\ (lr < n -> keep = true)%nat /\ (n < lr -> keep = true)%nat /\
  (keep = true -> ri = O) /\ (physical_rows s + lr <= length (lines s) + n)%nat.
Proof.
  pose proof region_bounds as (HP & HE & EE & HP0 & _). red in Hfull.
  destruct (Z.eqb_spec region.1 0) as [E0|E0]; cbn [andb].
  - specialize (HP0 E0). destruct (allow_scrollback s); lia.
  - split_and!; try done; lia.
Qed.

(** The lines after the moves, the removals and the additions. *)
Lemma scroll_moves ls ins line recycle :
  length ls = length (lines s) -> inserts_at E ls ins -> blank_row (physical_cols s) blank line ->
  (forall l, blank_row (physical_cols s) blank (recycle l)) ->
  let to_move := Nat.min lr n in
  yields
    (ls ← move_lines to_move ri ins recycle ls;
     let ls := remove_lines (lr - to_move) ri ls in
     add_lines (n - to_move) ins line ls)
    (fun ls' => exists new, length new = n /\ Forall (blank_row (physical_cols s) blank) new /\
       ls' = take ri ls ++ drop (ri + lr) (take E ls) ++ new ++ drop E ls).
Proof.
  intros Hlen Hins Hline Hrec. cbv zeta. pose proof region_bounds as (HP & HE & EE & _).
  pose proof lr_bound as (Hlr & Hless & Hmore & Hri & _). rewrite <- Hlen in HE.
  rewrite (move_lines_region _ _ E) by (done || lia). cbn [mbind option_bind].
  set (m := map recycle _). assert (Hm : length m = Nat.min lr n).
  { unfold m. rewrite length_map, length_take, length_drop. lia. }
  assert (Hmb : Forall (blank_row (physical_cols s) blank) m).
  { apply Forall_map, Forall_forall. by intros l _. }
  destruct (le_gt_dec lr n) as [Hle|Hgt].
  - replace (lr - Nat.min lr n)%nat with O by lia. cbn [remove_lines].
    assert (Emin : Nat.min lr n = lr) by lia. rewrite Emin in *. clear Emin. set (b := drop (ri + lr) (take E ls)).
    assert (Hb : length b = (E - (ri + lr))%nat).
    { unfold b. rewrite length_drop, length_take. lia. }
    assert (Ha : length (take ri ls) = ri) by (rewrite length_take; lia).
    destruct (Nat.eq_dec lr n) as [Eq|Ne].
    + replace (n - lr)%nat with O by lia. cbn [add_lines]. apply yields_Some. exists m.
      split; [lia|]. by split.
    + rewrite add_lines_region with (e := E); cycle 1.
      * rewrite !length_app, length_drop. lia.
      * destruct Hins as [->|[-> E']]; [by left|right]. split; [done|].
        rewrite !length_app, length_drop. lia.
      * apply yields_Some. exists (m ++ replicate (n - lr) line). split; [|split].
        -- rewrite length_app, length_replicate. lia.
        -- apply Forall_app. split; [done|]. by apply Forall_replicate.
        -- replace (take ri ls ++ b ++ m ++ drop E ls) with ((take ri ls ++ b ++ m) ++ drop E ls)
             by by rewrite <- !app_assoc.
           rewrite take_app_length', drop_app_length' by (rewrite !length_app; lia).
           by rewrite <- !app_assoc.
  - specialize (Hmore Hgt). rewrite (Hri Hmore) in *.
    assert (Emin : Nat.min lr n = n) by lia. rewrite Emin in *. clear Emin. rewrite Nat.sub_diag. cbn [add_lines]. apply yields_Some. exists m. split; [done|]. split; [done|].
    change (take 0 ls) with (@nil Line). cbn [app Nat.add].
    set (b := drop n (take E ls)).
    assert (Hb : length b = (E - n)%nat) by (unfold b; rewrite length_drop, length_take; lia).
    destruct (cut_list b (lr - n) (length b - (lr - n))) as (b1 & b2 & b3 & Eb & L1 & L2); [lia|].
    assert (drop lr (take E ls) = drop (lr - n) b) as ->.
    { unfold b. rewrite drop_drop. f_equal. lia. }
    rewrite Eb. rewrite <- L1. change O with (length (@nil Line)).
    rewrite drop_app_length, <- app_assoc.
    exact (remove_lines_at [] b1 ((b2 ++ b3) ++ m ++ drop E ls)).
Qed.

(** The lines of the screen after [scroll_up]; those below the region may be marked. *)
Definition scrolled (s' : Screen) : Prop :=
  exists ls new (mark : bool),
    (length ls = length (lines s) /\
     forall i l, lines s !! i = Some l ->
       exists l', ls !! i = Some l' /\ prepared keep (region.1 =? 0) P E n sq i l l') /\
    length new = n /\ Forall (blank_row (physical_cols s) blank) new /\
    s' = set_offset (stable_row_index_offset s + (if keep then lr else 0))
           (set_lines (take ri ls ++ drop (ri + lr) (take E ls) ++ new ++
                       map (if mark then update_last_change_seqno sq else id) (drop E ls)) s).

Lemma scroll_up_lines : yields (scroll_up region num sq blank bidi s) scrolled.
Proof.
  pose proof region_bounds as (HP & HE & EE & HP0 & Hend). pose proof lr_bound as (Hlr & _ & _ & Hri & Hrows).
  unfold scroll_up, phys_range. cbn [fst snd]. rewrite usize_sub_Some by lia. cbn [mbind option_bind].
  pose proof prepare_lines as Hprep. unfold phys_range in Hprep. cbn [fst snd] in Hprep.
  destruct (if keep then Some (lines s) else _) as [ls0|] eqn:E0; [|done].
  cbn [mbind option_bind] in Hprep |- *.
  assert (Hls0 : length ls0 = length (lines s)).
  { destruct keep; [by simplify_eq|]. unfold indices in E0. cbn [fst snd] in E0.
    pose proof (for_lines_spec (Some ∘ update_last_change_seqno sq) (fun _ _ => True) (E - P) P
                  (lines s) ltac:(lia) ltac:(done)) as Hf.
    rewrite E0 in Hf. by destruct Hf. }
  rewrite Hls0. apply yields_exists in Hprep as (ls & -> & Hls). cbn [mbind option_bind].
  set (ins := if region.2 =? _ then None else _).
  assert (Hins : inserts_at E ls ins).
  { unfold ins, inserts_at. destruct Hls as [-> _]. destruct (Z.eqb_spec region.2 (Z.of_nat (physical_rows s))).
    - right. split; [done|]. by apply Hend.
    - by left. }
  match goal with |- context [move_lines _ _ _ ?f _] => set (recycle := f) end.
  pose proof (scroll_moves ls ins (apply_to_line bidi sq (blank_line blank sq s)) recycle
    (proj1 Hls) Hins (blank_line_row blank sq bidi s) (recycled_row (physical_cols s) blank sq)) as Hmoves.
  cbv zeta in Hmoves. destruct (move_lines _ _ _ _ _) as [ls1|]; [|done].
  cbn [mbind option_bind] in Hmoves |- *.
  destruct (add_lines _ _ _ _) as [ls2|]; [|done]. cbn [mbind option_bind yields] in Hmoves |- *.
  destruct Hmoves as (new & Hnew & Hblank & ->).
  assert (Hoff : (if (ri =? 0)%nat && keep then (stable_row_index_offset s + lr)%nat
                  else stable_row_index_offset s) =
                 (stable_row_index_offset s + (if keep then lr else 0))%nat).
  { destruct keep; [|by rewrite andb_false_r, Nat.add_0_r]. by rewrite Hri. }
  rewrite Hoff. clear Hoff. set (s1 := set_offset _ _). destruct Hregion as [Hr1 Hr2].
  pose proof (phys_row_in region.2 s ltac:(lia)) as HE'. pose proof Hls as [Hlen _]. red in Hfull.
  set (b := drop (ri + lr) (take E ls)) in *. set (a := take ri ls) in *.
  assert (Ha : length a = ri) by (unfold a; rewrite length_take; lia).
  assert (Hb : length b = (E - (ri + lr))%nat) by (unfold b; rewrite length_drop, length_take; lia).
  assert (Hd : length (drop E ls) = (length (lines s) - E)%nat) by (rewrite length_drop; lia).
  match goal with |- yields (if ?c then _ else _) _ => destruct c end.
  - rewrite (phys_row_in region.2 s1), (phys_row_in _ s1) by (cbn; lia). cbn [lines set_offset set_lines s1].
    change (physical_rows s1) with (physical_rows s). rewrite !length_app, Hd, Hnew, Ha, Hb.
    unfold indices. cbn [fst snd].
    replace (a ++ b ++ new ++ drop E ls) with ((a ++ b ++ new) ++ drop E ls ++ [])
      by by rewrite app_nil_r, <- !app_assoc.
    match goal with |- context [seq ?x ?y] =>
      replace (seq x y) with (seq (length (a ++ b ++ new)) (length (drop E ls)))
        by (f_equal; [rewrite !length_app|]; lia) end.
    rewrite for_lines_map. cbn [mbind option_bind]. exists ls, new, true. split; [done|].
    split; [done|]. split; [done|]. rewrite app_nil_r, <- !app_assoc. done.
  - exists ls, new, false. rewrite map_id. done.
Qed.

(** The places of the lines. *)
Record placed (ls : list Line) (mark : bool) (s' : Screen) : Prop := {
  pl_length : length (lines s') = (length (lines s) + n - lr)%nat;
  pl_above j : (j < ri)%nat -> lines s' !! j = ls !! j;
  pl_moved j : (ri <= j < E - lr)%nat -> lines s' !! j = ls !! (j + lr)%nat;
  pl_blank j : (E - lr <= j < E - lr + n)%nat ->
    exists l, lines s' !! j = Some l /\ blank_row (physical_cols s) blank l;
  pl_below j : (E - lr + n <= j)%nat ->
    lines s' !! j = (if mark then update_last_change_seqno sq else id) <$> ls !! (j + lr - n)%nat
}.

Lemma scrolled_placed ls new mark s' :
  length ls = length (lines s) -> length new = n ->
  Forall (blank_row (physical_cols s) blank) new ->
  lines s' = take ri ls ++ drop (ri + lr) (take E ls) ++ new ++
             map (if mark : bool then update_last_change_seqno sq else id) (drop E ls) ->
  placed ls mark s'.
Proof.
  intros Hls Hnew Hblank Es. pose proof lr_bound as (Hlr & _). pose proof region_bounds as (HP & HE & _).
  assert (Ha : length (take ri ls) = ri) by (rewrite length_take; lia).
  assert (Hb : length (drop (ri + lr) (take E ls)) = (E - (ri + lr))%nat)
    by (rewrite length_drop, length_take; lia).
  split; rewrite Es.
  - rewrite !length_app, length_map, Ha, Hb, length_drop. lia.
  - intros j Hj. rewrite lookup_app_l by lia. by apply lookup_take_lt.
  - intros j Hj. rewrite lookup_app_r, lookup_app_l, lookup_drop, Ha by lia.
    rewrite lookup_take_lt by lia. f_equal. lia.
  - intros j Hj. rewrite !lookup_app_r, lookup_app_l by lia. rewrite Ha, Hb.
    assert (j - ri - (E - (ri + lr)) < length new)%nat as [l Hl]%lookup_lt_is_Some by lia.
    exists l. split; [done|]. by eapply Forall_lookup_1.
  - intros j Hj. rewrite !lookup_app_r by lia. rewrite Ha, Hb, Hnew, list_lookup_fmap, lookup_drop.
    do 2 f_equal. lia.
Qed.

(** What is known of the lines that do not go to the scrollback. *)
Lemma prepared_rows (ls : list Line) :
  (forall i l, lines s !! i = Some l ->
     exists l', ls !! i = Some l' /\ prepared keep (region.1 =? 0) P E n sq i l l') ->
  (forall i, (i < P)%nat -> ls !! i = lines s !! i) /\
  (forall i, (P + n <= i < length (lines s))%nat ->
     exists l, ls !! i = Some l /\ touched sq (lines s !! i) l /\
       ((E <= i)%nat -> lines s !! i = Some l)).
Proof.
  intros Hprep. pose proof region_bounds as (HP & HE & _). split; intros i Hi.
  - destruct (lookup_lt_is_Some_2 (lines s) i) as [l Hl]; [lia|].
    destruct (Hprep i l Hl) as (l' & -> & Hp). unfold prepared in Hp.
    rewrite decide_False in Hp by lia. rewrite decide_False in Hp by lia. by subst.
  - destruct (lookup_lt_is_Some_2 (lines s) i) as [l Hl]; [lia|].
    destruct (Hprep i l Hl) as (l' & -> & Hp). exists l'. unfold prepared in Hp.
    rewrite (decide_False (P := _ /\ (_ <= _ < _ + n)%nat)) in Hp by lia. split; [done|]. rewrite Hl.
    case_decide; subst l'; (split; [unfold touched; eauto|]); [lia|done].
Qed.

(** A line that stays has the same stable row. *)
Lemma stable_rows (ls : list Line) mark s' p l p' :
  (forall i l, lines s !! i = Some l ->
     exists l', ls !! i = Some l' /\ prepared keep (region.1 =? 0) P E n sq i l l') ->
  placed ls mark s' -> stable_row_index_offset s' = (stable_row_index_offset s + (if keep then lr else 0))%nat ->
  keep = true -> (p < length (lines s) - physical_rows s + n)%nat -> lines s !! p = Some l ->
  stable_row_to_phys (phys_to_stable_row_index p s) s' = Some p' ->
  exists l', lines s' !! p' = Some l' /\ (l' = l \/ compress_for_scrollback l = Some l').
Proof.
  intros Hprep [Hlen _ Hmoved _ _] Eoff Ek Hp Hl Hst.
  pose proof region_bounds as (HP & HE & EE & HP0 & _). pose proof lr_bound as (Hlr & _ & _ & Hri & Hrows).
  unfold stable_row_to_phys, phys_to_stable_row_index in Hst. rewrite Eoff in Hst.
  assert (E0 : region.1 = 0) by (destruct (Z.eqb_spec region.1 0); done).
  specialize (Hri Ek). rewrite Hri in *. destruct (Hprep p l Hl) as (l' & Hl' & Hpr).
  unfold prepared in Hpr. rewrite (proj2 (Z.eqb_eq _ _) E0) in *. rewrite Ek in *.
  destruct (_ || _) eqn:Eb; [done|]. apply orb_false_elim in Eb as [Eb1 Eb2].
  injection Hst as <-. bool_to_prop. rewrite Hmoved by lia. exists l'.
  split; [rewrite <- Hl'; f_equal; lia|].
  rewrite (decide_False (P := true = false /\ _)) in Hpr by by intros [].
  case_decide; [by right|by left].
Qed.

End Up.

(** C7: scrolling a region up by rows does what the terminal standards ask, whatever the region:
    the call returns, the rows above the region are the same, each row of the region
    shows what was that many rows below it, the rows that come free at its bottom are blank, the rows
    below the region are the same (some marked as changed). A scroll of the top of a screen that
    keeps a scrollback loses no line before the capacity is reached: a line
    keeps its stable row as long as it is held, compressed when it leaves the view. *)
Theorem scroll_up_spec region num sq blank bidi s :
  screen_full s -> region_ok region s ->
  Forall (fun l => is_Some (compress_for_scrollback l)) (lines s) ->
  let top := Z.to_nat region.1 in
  let bottom := Z.to_nat region.2 in
  let n := Nat.min num (bottom - top) in
  let keep := (region.1 =? 0) && allow_scrollback s in
  exists s', scroll_up region num sq blank bidi s = Some s' /\
    physical_rows s' = physical_rows s /\ physical_cols s' = physical_cols s /\
    length (lines s') = (if keep then Nat.min (length (lines s) + n) (physical_rows s + scrollback_size s)
                         else length (lines s)) /\
    (forall i, (i < top)%nat -> row s' i = row s i) /\
    (forall i, (top <= i < bottom - n)%nat ->
       exists l, row s' i = Some l /\ touched sq (row s (i + n)) l) /\
    (forall i, (bottom - n <= i < bottom)%nat ->
       exists l, row s' i = Some l /\ blank_row (physical_cols s) blank l) /\
    (forall i, (bottom <= i < physical_rows s)%nat ->
       exists l, row s' i = Some l /\ touched sq (row s i) l) /\
    (keep = true -> forall p l p', (p < length (lines s) - physical_rows s + n)%nat ->
       lines s !! p = Some l ->
       stable_row_to_phys (phys_to_stable_row_index p s) s' = Some p' ->
       exists l', lines s' !! p' = Some l' /\ (l' = l \/ compress_for_scrollback l = Some l')).
Proof.
  intros Hfull Hregion Hcomp top bottom n keep.
  pose proof (scroll_up_lines region num sq blank bidi s Hfull Hregion Hcomp) as Hs.
  pose proof (region_bounds region s Hfull Hregion) as (HP & HE & EE & HP0 & _).
  pose proof (lr_bound region num s Hfull Hregion) as (Hlr & Hless & Hmore & Hri & Hrows).
  apply yields_exists in Hs as (s' & -> & ls & new & mark & [Hls Hprep] & Hnew & Hblank & Es').
  assert (Hpl := scrolled_placed region num sq blank s Hfull Hregion ls new mark s' Hls Hnew Hblank).
  specialize (Hpl ltac:(by rewrite Es')).
  assert (Hstable := fun p l p' => stable_rows region num sq blank s Hfull Hregion ls mark s' p l p'
    Hprep Hpl ltac:(by rewrite Es')). destruct Hpl as [Hlen Habove Hmoved Hnew' Hbelow].
  pose proof (phys_row_in region.1 s ltac:(destruct Hregion; lia)) as EP.
  pose proof (phys_row_in region.2 s ltac:(destruct Hregion; lia)) as EQ.
  assert (Hn : Nat.min num (phys_row region.2 s - phys_row region.1 s) = n) by lia.
  fold keep in Hstable, Hlr, Hless, Hmore, Hri, Hrows, Hlen, Habove, Hmoved, Hnew', Hbelow, Hprep.
  assert (Erows : physical_rows s' = physical_rows s) by by rewrite Es'.
  exists s'. split; [done|]. split; [done|]. split; [by rewrite Es'|].
  destruct (prepared_rows region num sq s Hfull Hregion ls Hprep) as [Hfirst Hlater].
  red in Hfull. unfold row. rewrite Erows. clear Hcomp Es'. rewrite Hn in *.
  set (lr := (if keep then length (lines s) + n - (physical_rows s + scrollback_size s) else n)%nat) in *.
  set (ri := (if (region.1 =? 0)%Z then 0 else phys_row region.1 s)%nat) in *.
  assert (Hlrk : lr = if keep then (length (lines s) + n - (physical_rows s + scrollback_size s))%nat else n)
    by done.
  assert (Hrik : (region.1 = 0 /\ ri = O) \/ (ri = phys_row region.1 s /\ lr = n /\ keep = false)).
  { unfold ri, lr, keep. destruct (Z.eqb_spec region.1 0); [by left|by right]. }
  assert (Ek0 : keep = true -> region.1 = 0).
  { unfold keep. destruct (Z.eqb_spec region.1 0); done. }
  assert (Et : top = Z.to_nat region.1) by done. assert (Eb0 : bottom = Z.to_nat region.2) by done.
  assert (Hnb : (n <= bottom - top)%nat) by (unfold n; lia).
  clearbody lr ri n keep top bottom. clear Hn EE Hless Hmore Hri.
  split; [rewrite Hlen, Hlrk; destruct keep; lia|]. rewrite Hlen. split; [|split; [|split; [|split]]].
  - intros i Hi. destruct Hrik as [[E0 _]|(Er & El & _)]; [lia|].
    rewrite Habove, Hfirst by lia. f_equal. lia.
  - intros i Hi.
    assert (Hj : (ri <= length (lines s) + n - lr - physical_rows s + i < phys_row region.2 s - lr)%nat) by lia.
    rewrite (Hmoved _ Hj).
    destruct (Hlater (length (lines s) - physical_rows s + (i + n))%nat) as (l & Hl & Ht & _); [lia|].
    exists l. split; [|done]. rewrite <- Hl. f_equal. lia.
  - intros i Hi. apply Hnew'. lia.
  - intros i Hi. rewrite Hbelow by lia.
    destruct (Hlater (length (lines s) - physical_rows s + i)%nat) as (l & Hl & _ & Ht); [lia|].
    match goal with |- context [ls !! ?j] =>
      replace j with (length (lines s) - physical_rows s + i)%nat by lia end.
    rewrite Hl, Ht by lia. eexists. split; [done|]. unfold touched. destruct mark; [eauto|by left].
  - intros Ek p l p'. by apply Hstable.
Qed.

(** The lines after [scroll_down]. *)
Lemma scroll_down_lines region num sq blank bidi s :
  screen_full s -> region_ok region s ->
  let P := phys_row region.1 s in
  let E := phys_row region.2 s in
  let n := Nat.min num (E - P) in
  yields (scroll_down region num sq blank bidi s) (fun s' => exists ls,
    length ls = length (lines s) /\
    (forall i l, lines s !! i = Some l ->
       exists l', ls !! i = Some l' /\
         if decide (P <= i < P + (E - n - P))%nat then l' = update_last_change_seqno sq l else l' = l) /\
    s' = set_lines (take P ls ++ replicate n (apply_to_line bidi sq (blank_line blank sq s)) ++
                    take (E - n - P) (drop P ls) ++ drop E ls) s).
Proof.
  intros Hfull Hregion P E n. pose proof (region_bounds region s Hfull Hregion) as (HP & HE & _).
  unfold scroll_down, phys_range. cbn [fst snd]. rewrite usize_sub_Some by lia.
  fold P E. cbn [mbind option_bind]. fold n. unfold indices. cbn [fst snd].
  pose proof (for_lines_spec (Some ∘ update_last_change_seqno sq)
    (fun l l' => l' = update_last_change_seqno sq l) (E - n - P) P (lines s) ltac:(lia) ltac:(done)) as Hf.
  apply yields_exists in Hf as (ls & -> & Hlen & Hls). cbn [mbind option_bind].
  destruct (cut_list ls P (E - n - P)) as (a & b & c & El & La & Lb); [lia|].
  destruct (cut_list c n (length c - n)) as (m & d & x & Ec & Lm & Ld).
  { rewrite El, !length_app in Hlen. lia. }
  assert (x = []) as ->.
  { apply length_zero_iff_nil. rewrite Ec, !length_app in Ld. lia. }
  rewrite app_nil_r in Ec.
  assert (Eab : (E - n)%nat = length (a ++ b)) by (rewrite length_app; lia).
  assert (Erem : remove_lines n (E - n) ls = a ++ b ++ d).
  { rewrite El, Ec, Eab, <- Lm, app_assoc, remove_lines_at. by rewrite <- app_assoc. }
  rewrite Erem. rewrite <- La at 1. rewrite add_lines_at. cbn [mbind option_bind].
  exists ls. split; [done|]. split; [done|]. do 2 f_equal.
  - rewrite El. by rewrite take_app_length'.
  - f_equal. rewrite El, drop_app_length' by done. rewrite take_app_length' by done. f_equal.
    rewrite Ec, !app_assoc. rewrite drop_app_length'; [done|]. rewrite !length_app. lia.
Qed.

(** scrolling a region down returns, keeps the rows above and below it, shows in
    each row of the region what was that many rows above, and blank lines in the rows that come
    free; what is moved beyond the bottom of the region is lost, and no line leaves or enters
    the scrollback, which keeps its stable rows. *)
Theorem scroll_down_spec region num sq blank bidi s :
  screen_full s -> region_ok region s ->
  let top := Z.to_nat region.1 in
  let bottom := Z.to_nat region.2 in
  let n := Nat.min num (bottom - top) in
  exists s', scroll_down region num sq blank bidi s = Some s' /\
    physical_rows s' = physical_rows s /\ physical_cols s' = physical_cols s /\
    stable_row_index_offset s' = stable_row_index_offset s /\
    length (lines s') = length (lines s) /\
    (forall i, (i < length (lines s) - physical_rows s + top)%nat -> lines s' !! i = lines s !! i) /\
    (forall i, (top <= i < top + n)%nat ->
       exists l, row s' i = Some l /\ blank_row (physical_cols s) blank l) /\
    (forall i, (top + n <= i < bottom)%nat ->
       exists l, row s' i = Some l /\ touched sq (row s (i - n)) l) /\
    (forall i, (bottom <= i)%nat -> row s' i = row s i).
Proof.
  intros Hfull Hregion top bottom n.
  pose proof (scroll_down_lines region num sq blank bidi s Hfull Hregion) as Hs. cbv zeta in Hs.
  pose proof (region_bounds region s Hfull Hregion) as (HP & HE & _).
  apply yields_exists in Hs as (s' & -> & ls & Hlen & Hls & ->). eexists. split; [done|].
  pose proof (phys_row_in region.1 s ltac:(destruct Hregion; lia)) as EP.
  pose proof (phys_row_in region.2 s ltac:(destruct Hregion; lia)) as EQ.
  assert (Hn : Nat.min num (phys_row region.2 s - phys_row region.1 s) = n) by lia.
  rewrite Hn in *. unfold row. cbn [lines set_lines physical_rows physical_cols stable_row_index_offset].
  revert HP HE EP EQ Hls. set (P := phys_row region.1 s). set (E := phys_row region.2 s).
  intros HP HE EP EQ Hls. red in Hfull. fold top in EP. fold bottom in EQ.
  assert (Hnb : (n <= E - P)%nat) by lia. clear Hn. clearbody top bottom n P E.
  set (line := apply_to_line _ _ _). set (a := take P ls). set (b := take (E - n - P) (drop P ls)).
  assert (La : length a = P) by (unfold a; rewrite length_take; lia).
  assert (Lb : length b = (E - n - P)%nat) by (unfold b; rewrite length_take, length_drop; lia).
  assert (Elen : length (a ++ replicate n line ++ b ++ drop E ls) = length (lines s))
    by (rewrite !length_app, length_replicate, length_drop, La, Lb; lia).
  rewrite Elen. do 3 (split; [done|]). split; [done|]. split; [|split; [|split]].
  - intros i Hi. rewrite lookup_app_l by lia. unfold a. rewrite lookup_take_lt by lia.
    destruct (lookup_lt_is_Some_2 (lines s) i) as [l Hl]; [lia|].
    destruct (Hls i l Hl) as (l' & -> & E'). rewrite decide_False in E' by lia. by subst.
  - intros i Hi. rewrite lookup_app_r, lookup_app_l by (rewrite ?length_replicate; lia).
    exists line. split; [|apply blank_line_row]. apply lookup_replicate. split; [done|lia].
  - intros i Hi. rewrite !lookup_app_r, lookup_app_l by (rewrite ?length_replicate; lia).
    rewrite length_replicate, La. unfold b. rewrite lookup_take_lt, lookup_drop by lia.
    destruct (lookup_lt_is_Some_2 (lines s) (length (lines s) - physical_rows s + (i - n))) as [l Hl]; [lia|].
    destruct (Hls _ l Hl) as (l' & Hl' & E'). exists l'. rewrite Hl. split; [rewrite <- Hl'; f_equal; lia|].
    rewrite decide_True in E' by lia. right. eauto.
  - intros i Hi. rewrite !lookup_app_r by (rewrite ?length_replicate; lia).
    rewrite length_replicate, La, Lb, lookup_drop.
    match goal with |- ls !! ?j = _ => replace j with (length (lines s) - physical_rows s + i)%nat by lia end.
    destruct (lines s !! _) as [l|] eqn:Hl.
    + destruct (Hls _ l Hl) as (l' & -> & E'). rewrite decide_False in E' by lia. by subst.
    + apply lookup_ge_None_2. apply lookup_ge_None_1 in Hl. lia.
Qed.

End Scrolling.

(** ** A small screen *)

Section Demo.
#[local] Existing Instances demo_tables demo_bitset demo_bitset_laws demo_rules.
#[local] Instance demo_segmentation : Graphemes := demo_graphemes.

Definition demo_bidi : BidiMode := mkBidiMode false Hint_LeftToRight.

Definition demo_configuration : TerminalConfiguration :=
  mkConfiguration 2 LATEST_UNICODE_VERSION demo_bidi [] true false true true.

Definition demo_text (c : Z) : Line := from_cells [new_grapheme_with_width [c] 1 blank_attrs] 1.

(** Three rows that show a, b and c. *)
Definition demo_screen : Screen :=
  set_lines (map demo_text [97; 98; 99])
    (Screen_new (mkSize 3 4 0 0 96) demo_configuration true 1 demo_bidi).

Lemma demo_compressible :
  Forall (fun l => is_Some (compress_for_scrollback l)) (lines demo_screen).
Proof. repeat constructor; (eexists; vm_compute; reflexivity). Qed.

Lemma scroll_up_spec_witness :
  exists s', scroll_up (0, 3) 1 2 blank_attrs demo_bidi demo_screen = Some s' /\
    length (lines s') = 4%nat /\
    (exists l, row s' 0 = Some l /\ touched 2 (Some (demo_text 98)) l) /\
    (exists l, row s' 2 = Some l /\ blank_row 4 blank_attrs l).
Proof.
  destruct (scroll_up_spec (0, 3) 1 2 blank_attrs demo_bidi demo_screen)
    as (s' & E & _ & _ & El & _ & Hm & Hb & _).
  - repeat constructor.
  - vm_compute. repeat split; discriminate.
  - exact demo_compressible.
  - exists s'. split; [exact E|]. split; [exact El|]. split.
    + apply (Hm O). vm_compute; split; repeat constructor.
    + apply (Hb 2%nat). vm_compute; split; repeat constructor.
Defined.

Lemma scroll_down_spec_witness :
  exists s', scroll_down (0, 2) 1 2 blank_attrs demo_bidi demo_screen = Some s' /\
    (exists l, row s' 0 = Some l /\ blank_row 4 blank_attrs l) /\
    (exists l, row s' 1 = Some l /\ touched 2 (Some (demo_text 97)) l) /\
    row s' 2 = Some (demo_text 99).
Proof.
  destruct (scroll_down_spec (0, 2) 1 2 blank_attrs demo_bidi demo_screen)
    as (s' & E & _ & _ & _ & _ & _ & Hb & Hm & Hr).
  - repeat constructor.
  - vm_compute. repeat split; discriminate.
  - exists s'. split; [exact E|]. split_and!.
    + apply (Hb O). vm_compute; split; repeat constructor.
    + apply (Hm 1%nat). vm_compute; split; repeat constructor.
    + apply (Hr 2%nat). repeat constructor.
Defined.

End Demo.
