(* ===== verification/ScreenSafe.v ===== *)
(** Screens of plain text: the operations of [screen.rs] that the terminal uses return, and the
    screen has the same size and plain lines again. *)

From Stdlib Require Import ZArith Lia String.
From S2P Require Import Prelude CallMonad Post Color CsiTypes CharWidth Cell CellProps Line LineProps LineEdit LineSafe TermSize TermTypes Screen ScreenProps.
From stdpp Require Import base numbers list option gmap.
Local Open Scope Z_scope.

Section Plain.
Context `{CharTables} `{Graphemes} `{BitSet} `{!BitSetLaws} `{HyperlinkRules}.
Context (G : list Z -> Prop) `{!SimpleText G}.
Context (max_cols : nat) (Hmax : Z.of_nat max_cols <= u16_max).

Abbreviation plain := (plain_line G max_cols).

(** A column may be one past the last one, so lines may be one cell longer than the screen is
    wide. *)
Record plain_screen (s : Screen) : Prop := {
  ps_rows : (1 <= physical_rows s)%nat;
  ps_full : screen_full s;
  ps_cols : (1 <= physical_cols s < max_cols)%nat;
  ps_lines : Forall plain (lines s)
}.

(** What the operations on the lines leave alone. *)
Definition same_size (s s' : Screen) : Prop :=
  physical_rows s' = physical_rows s /\ physical_cols s' = physical_cols s /\
  saved_cursor s' = saved_cursor s.

(** The operation returns a plain screen of the same size. *)
Definition keeps_screen (f : Screen -> option Screen) (s : Screen) : Prop :=
  yields (f s) (fun s' => plain_screen s' /\ same_size s s').

Lemma same_size_trans s s' s'' : same_size s s' -> same_size s' s'' -> same_size s s''.
Proof. intros (E1 & E2 & E3) (E4 & E5 & E6). split_and!; congruence. Qed.

Lemma plain_set_lines ls s :
  plain_screen s -> Forall plain ls -> (physical_rows s <= length ls)%nat -> plain_screen (set_lines ls s).
Proof. by intros []. Qed.

Lemma phys_row_lt y s : plain_screen s -> y < Z.of_nat (physical_rows s) -> (phys_row y s < length (lines s))%nat.
Proof. intros [Hr Hf _ _] Hy. red in Hf. unfold phys_row, clamp_visible_row. lia. Qed.

Lemma plain_with_line idx f s :
  plain_screen s -> (idx < length (lines s))%nat -> (forall l, plain l -> yields (f l) plain) ->
  keeps_screen (with_line idx f) s.
Proof.
  intros Hs Hi Hf. unfold keeps_screen, with_line.
  eapply yields_bind; [apply (yields_lookup _ _ _ Hi), Hs|]. intros l Hl.
  eapply yields_bind; [by apply Hf|]. intros l' Hl'. apply yields_Some. split; [|done].
  apply plain_set_lines; [done|by apply Forall_insert; [apply Hs|]|].
  rewrite length_insert. apply Hs.
Qed.

Lemma plain_for_lines ixs f ls :
  Forall plain ls -> Forall (fun i => i < length ls)%nat ixs -> (forall l, plain l -> yields (f l) plain) ->
  yields (for_lines ixs f ls) (fun ls' => Forall plain ls' /\ length ls' = length ls).
Proof.
  intros Hls Hi Hf. revert ls Hls Hi. induction ixs as [|i ixs IH]; intros ls Hls Hi; [done|].
  apply Forall_cons in Hi as [Hi Hix]. cbn [for_lines].
  eapply yields_bind; [by apply (yields_lookup _ _ plain)|]. intros l Hl.
  eapply yields_bind; [by apply Hf|]. intros l' Hl'.
  eapply yields_weaken; [apply IH|].
  - by apply Forall_insert.
  - by rewrite length_insert.
  - cbn. intros ls'. by rewrite length_insert.
Qed.

Lemma plain_dirty sq l : plain l -> yields ((Some ∘ update_last_change_seqno sq) l) plain.
Proof. intros Hl. by apply plain_update. Qed.

(** ** Cells *)

Lemma plain_screen_set_cell x y c sq s :
  plain_screen s -> (x <= physical_cols s)%nat -> y < Z.of_nat (physical_rows s) -> plain_cell G c ->
  keeps_screen (screen_set_cell x y c sq) s.
Proof.
  intros Hs Hx Hy Hc. apply plain_with_line; [done|by apply phys_row_lt|].
  intros l Hl. rewrite (plain_clone G) by done. apply plain_set_cell; try done.
  pose proof (ps_cols _ Hs). lia.
Qed.

Lemma plain_screen_set_grapheme x y t a sq s :
  plain_screen s -> (x <= physical_cols s)%nat -> y < Z.of_nat (physical_rows s) -> G t ->
  keeps_screen (screen_set_cell_grapheme x y t 1 a sq) s.
Proof.
  intros Hs Hx Hy Ht. apply plain_with_line; [done|by apply phys_row_lt|].
  intros l Hl. apply plain_set_cell_grapheme; try done. pose proof (ps_cols _ Hs). lia.
Qed.

Lemma plain_screen_insert x y rm sq s :
  plain_screen s -> (x <= physical_cols s)%nat -> y < Z.of_nat (physical_rows s) ->
  (1 <= rm <= physical_cols s)%nat -> keeps_screen (screen_insert_cell x y rm sq) s.
Proof.
  intros Hs Hx Hy Hrm. apply plain_with_line; [done|by apply phys_row_lt|].
  intros l Hl. pose proof (ps_cols _ Hs). eapply yields_bind.
  - apply (plain_insert_cell G max_cols); [by apply plain_update|by apply plain_blank|lia..].
  - intros l' Hl'. apply yields_Some. case_match; [|done]. apply plain_resize; [done|done|lia].
Qed.

Lemma plain_screen_erase x y rm sq a s :
  plain_screen s -> (x < rm <= physical_cols s)%nat -> y < Z.of_nat (physical_rows s) ->
  keeps_screen (screen_erase_cell x y rm sq a) s.
Proof.
  intros Hs Hx Hy. apply plain_with_line; [done|by apply phys_row_lt|].
  intros l Hl. pose proof (ps_cols _ Hs). apply plain_erase_cell; try done; lia.
Qed.

Lemma plain_clear_line y cols a sq bidi s :
  plain_screen s -> y < Z.of_nat (physical_rows s) -> (cols.2 <= S (physical_cols s))%nat ->
  keeps_screen (clear_line y cols a sq bidi) s.
Proof.
  intros Hs Hy Hc. apply plain_with_line; [done|by apply phys_row_lt|].
  intros l Hl. pose proof (ps_cols _ Hs). apply plain_fill_range; try done; [|by apply plain_blank|lia].
  case_match; [by apply plain_bidi|done].
Qed.

(** ** Repeating an operation *)

Lemma keeps_bind_screen f g s :
  keeps_screen f s -> (forall s', plain_screen s' -> same_size s s' -> keeps_screen g s') ->
  keeps_screen (fun s => s ← f s; g s) s.
Proof.
  intros Hf Hg. unfold keeps_screen. eapply yields_bind; [exact Hf|]. intros s' [Hs' Hsz].
  eapply yields_weaken; [by apply Hg|]. cbn. intros s'' [Hs'' Hsz']. split; [done|].
  by eapply same_size_trans.
Qed.

(** The rest of the rows of a screen of the size of [s]. *)
Lemma plain_rest f s s' :
  keeps_screen f s' -> same_size s s' -> yields (f s') (fun s'' => plain_screen s'' /\ same_size s s'').
Proof.
  intros Hf Hsz. eapply yields_weaken; [exact Hf|]. cbn. intros s'' [Hs'' Hsz']. split; [done|].
  by eapply same_size_trans.
Qed.

(** ** Scrolling *)

Lemma plain_blank_line a sq bidi s :
  plain_screen s -> plain (apply_to_line bidi sq (blank_line a sq s)).
Proof.
  intros Hs. apply plain_bidi. unfold blank_line. case_match; [by apply plain_new|].
  pose proof (ps_cols _ Hs). apply plain_cells; [|rewrite length_replicate; lia].
  apply Forall_replicate. rewrite (plain_clone G); by apply plain_blank.
Qed.

Lemma plain_is_compressible ls :
  Forall plain ls -> Forall (fun l => is_Some (compress_for_scrollback l)) ls.
Proof.
  intros Hls. eapply Forall_impl; [exact Hls|]. intros l Hl.
  pose proof (plain_compress G max_cols Hmax l Hl) as Hc.
  apply yields_exists in Hc as (l' & -> & _). done.
Qed.

Lemma plain_blank_row s a l : plain_screen s -> blank_row (physical_cols s) a l -> plain l.
Proof.
  intros Hs [Hl Hb]. pose proof (ps_cols _ Hs). destruct l as [st zs sq b]. cbn in *. subst st.
  case_match; (split; [|done|]); cbn.
  - by apply (pl_storage _ _ _ (plain_new G max_cols 0)).
  - lia.
  - by apply Forall_replicate, plain_blank.
  - rewrite length_replicate. lia.
Qed.

Lemma plain_prepared keep at_top P E n sq i l l' :
  plain l -> prepared keep at_top P E n sq i l l' -> plain l'.
Proof.
  intros Hl. unfold prepared. cbv zeta.
  set (l1 := if decide _ then update_last_change_seqno sq l else l).
  assert (Hl1 : plain l1) by (unfold l1; case_decide; [by apply plain_update|done]).
  case_decide; [|by intros ->]. intros E'. pose proof (plain_compress G max_cols Hmax l1 Hl1) as Hc.
  by rewrite E' in Hc.
Qed.

(** The lines that a loop left in the place of plain ones. *)
Lemma plain_pointwise (ls ls' : list Line) :
  Forall plain ls -> length ls' = length ls ->
  (forall i l, ls !! i = Some l -> exists l', ls' !! i = Some l' /\ plain l') -> Forall plain ls'.
Proof.
  intros Hls Hlen Hp. apply Forall_lookup. intros i l' Hl'.
  destruct (lookup_lt_is_Some_2 ls i) as [l Hl]; [apply lookup_lt_Some in Hl'; lia|].
  destruct (Hp i l Hl) as (l'' & E & Hl''). by simplify_eq.
Qed.

Lemma plain_scroll_up region num sq a bidi s :
  plain_screen s -> region_ok region s -> keeps_screen (scroll_up region num sq a bidi) s.
Proof.
  intros Hs Hr. pose proof (ps_full _ Hs) as Hf. pose proof (ps_lines _ Hs) as Hls.
  eapply yields_weaken; [apply scroll_up_lines; [done..|by apply plain_is_compressible]|].
  intros s' (ls & new & mark & [Hlen Hprep] & Hnew & Hblank & Es').
  pose proof (lr_bound region num s Hf Hr) as (_ & _ & _ & _ & Hrows).
  pose proof (scrolled_placed region num sq a s Hf Hr ls new mark s' Hlen Hnew Hblank
    (f_equal lines Es')) as Hp.
  destruct Hp as [Hl _ _ _ _]. subst s'. cbn [lines set_lines set_offset] in Hl.
  split; [|done]. split; cbn; try apply Hs; [red; cbn; rewrite Hl; lia|].
  assert (Hpl : Forall plain ls).
  { apply (plain_pointwise (lines s)); [done..|]. intros i l Hi.
    destruct (Hprep i l Hi) as (l' & Hl' & Hp'). exists l'. split; [done|].
    apply (plain_prepared _ _ _ _ _ _ _ _ _ (Forall_lookup_1 _ _ _ _ Hls Hi) Hp'). }
  repeat apply Forall_app_2.
  - by apply Forall_take.
  - by apply Forall_drop, Forall_take.
  - eapply Forall_impl; [exact Hblank|]. intros l. by apply plain_blank_row.
  - apply Forall_map, Forall_drop. eapply Forall_impl; [exact Hpl|]. intros l Hl'.
    destruct mark; [by apply plain_update|done].
Qed.

Lemma plain_scroll_down region num sq a bidi s :
  plain_screen s -> region_ok region s -> keeps_screen (scroll_down region num sq a bidi) s.
Proof.
  intros Hs Hr. pose proof (ps_full _ Hs) as Hf. pose proof (ps_lines _ Hs) as Hls.
  pose proof (region_bounds region s Hf Hr) as (HP & HE & _).
  eapply yields_weaken; [by apply scroll_down_lines|].
  intros s' (ls & Hlen & Hp & ->). split; [|done].
  assert (Hpl : Forall plain ls).
  { apply (plain_pointwise (lines s)); [done..|]. intros i l Hi.
    destruct (Hp i l Hi) as (l' & Hl' & Hp'). exists l'. split; [done|].
    pose proof (Forall_lookup_1 _ _ _ _ Hls Hi) as Hpl. case_decide; subst l'; [by apply plain_update|done]. }
  apply plain_set_lines; [done| |].
  - repeat apply Forall_app_2.
    + by apply Forall_take.
    + by apply Forall_replicate, plain_blank_line.
    + by apply Forall_take, Forall_drop.
    + by apply Forall_drop.
  - rewrite !length_app, length_replicate, !length_take, !length_drop. red in Hf. lia.
Qed.

(** ** Scrolling between the margins *)

Definition margins_ok (m : range nat) (s : Screen) : Prop := (m.1 <= m.2 <= physical_cols s)%nat.

Lemma plain_copy_cells m l :
  (m.1 <= m.2)%nat -> plain l ->
  yields (copy_cells m l) (fun cs => Forall (plain_cell G) cs /\ (length cs <= m.2 - m.1)%nat).
Proof.
  intros Hm Hl. unfold copy_cells. rewrite usize_sub_Some by done. apply yields_Some.
  destruct (plain_vec_line G max_cols l Hl) as [Hc _].
  assert (Hc' : Forall (plain_cell G) (take (m.2 - m.1) (drop m.1 (vec_of l)))) by by apply Forall_take, Forall_drop.
  rewrite (plain_clones G) by done. split; [done|]. rewrite length_take. lia.
Qed.

Lemma plain_expand l : plain l -> plain (map_vec id l).
Proof. intros Hl. apply plain_map; [done|]. by apply plain_vec_line. Qed.

Lemma plain_place_cells m cells sq a l :
  (m.1 <= m.2 <= max_cols)%nat -> Forall (plain_cell G) cells -> (length cells <= m.2 - m.1)%nat ->
  plain l -> yields (place_cells m cells sq a l) plain.
Proof.
  intros Hm Hc Hn Hl. unfold place_cells. cbv zeta. rewrite (plain_clones G) by done.
  set (last := (m.1 + length cells)%nat). set (l1 := update_last_change_seqno sq l).
  assert (Hl1 : plain l1) by by apply plain_update.
  set (l2 := if (len l1 <? last)%nat then Line.resize last sq l1 else l1).
  assert (Hl2 : plain l2 /\ (last <= len l2)%nat).
  { unfold l2. destruct (Nat.ltb_spec (len l1) last); [|done].
    split; [apply plain_resize; try done; lia|]. unfold len, Line.resize, vec_resize. cbn.
    rewrite length_app, length_take, length_replicate. lia. }
  destruct Hl2 as [Hl2 Hlast]. destruct (plain_vec_of G max_cols l2 Hl2) as [Hv Ev].
  eapply yields_bind; [apply (plain_edit G max_cols _ l2 Hl2)|].
  - rewrite Ev, (proj2 (Nat.leb_le _ _) Hlast). apply yields_Some. pose proof (pl_len _ _ _ Hl2).
    split.
    + apply Forall_app_2; [by apply Forall_take|]. apply Forall_app_2; [done|by apply Forall_drop].
    + rewrite !length_app, length_take, length_drop, Ev. lia.
  - intros l3 Hl3. apply plain_fill_range; try done; [by apply plain_blank|lia].
Qed.

Lemma plain_blank_cells m sq a l :
  (m.1 <= m.2)%nat -> plain l -> yields (blank_cells m sq a l) plain.
Proof.
  intros Hm Hl. unfold blank_cells. cbv zeta. rewrite usize_sub_Some by done. apply yields_Some.
  apply plain_map; [by apply plain_update|]. change (vec_of (update_last_change_seqno sq l)) with (vec_of l).
  destruct (plain_vec_line G max_cols l Hl) as [Hc Hn]. split.
  - apply Forall_app_2; [by apply Forall_take|]. apply Forall_app_2; [|by apply Forall_drop].
    by apply Forall_replicate, plain_blank.
  - rewrite !length_app, length_replicate, !length_take, !length_drop. lia.
Qed.

Lemma plain_copy_rows moves m sq a ls :
  (m.1 <= m.2 <= max_cols)%nat -> Forall plain ls ->
  Forall (fun p => p.1 < length ls /\ p.2 < length ls)%nat moves ->
  yields (copy_rows moves m sq a ls) (fun ls' => Forall plain ls' /\ length ls' = length ls).
Proof.
  intros Hm Hls Hi. revert ls Hls Hi. induction moves as [|[src dest] moves IH]; intros ls Hls Hi; [done|].
  apply Forall_cons in Hi as [[Hsrc Hdest] Hi]. cbn [copy_rows fst snd] in *.
  eapply yields_bind; [by apply (yields_lookup _ _ plain)|]. intros l Hl.
  eapply yields_bind; [by apply plain_copy_cells; [lia|]|]. intros cells [Hc Hn]. cbv zeta.
  assert (Hls1 : Forall plain (<[src := map_vec id l]> ls)) by by apply Forall_insert; [|apply plain_expand].
  eapply yields_bind; [by apply (yields_lookup _ _ plain); [rewrite length_insert|]|]. intros d Hd.
  eapply yields_bind; [by apply plain_place_cells|]. intros d' Hd'.
  eapply yields_weaken; [apply IH|].
  - by apply Forall_insert.
  - by rewrite !length_insert.
  - cbn. intros ls'. by rewrite !length_insert.
Qed.

Lemma plain_copied moves blanks m sq a s :
  plain_screen s -> margins_ok m s ->
  Forall (fun p => p.1 < length (lines s) /\ p.2 < length (lines s))%nat moves ->
  Forall (fun i => i < length (lines s))%nat blanks ->
  yields (ls ← copy_rows moves m sq a (lines s);
          ls ← for_lines blanks (blank_cells m sq a) ls;
          Some (set_lines ls s)) (fun s' => plain_screen s' /\ same_size s s').
Proof.
  intros Hs Hm Hmoves Hblanks. red in Hm. pose proof (ps_cols _ Hs).
  eapply yields_bind; [apply plain_copy_rows; [lia|apply Hs|done]|]. intros ls [Hls Hlen].
  eapply yields_bind; [apply plain_for_lines; [done|by rewrite Hlen|]|].
  - intros l Hl. apply plain_blank_cells; [lia|done].
  - intros ls' [Hls' Hlen']. apply yields_Some. split; [|done].
    apply plain_set_lines; [done..|]. pose proof (ps_full _ Hs) as Hf. red in Hf. lia.
Qed.

Lemma plain_scroll_up_within region m num sq a bidi s :
  plain_screen s -> region_ok region s -> margins_ok m s ->
  keeps_screen (scroll_up_within_margins region m num sq a bidi) s.
Proof.
  intros Hs Hr Hm. unfold keeps_screen, scroll_up_within_margins.
  case_match; [by apply plain_scroll_up|].
  pose proof (region_bounds region s (ps_full _ Hs) Hr) as (HP & HE & _).
  unfold phys_range. rewrite usize_sub_Some by lia. cbn [mbind option_bind].
  apply plain_copied; [done..| |].
  - apply Forall_map, Forall_forall. intros i Hi%elem_of_seq. cbn. lia.
  - apply Forall_forall. intros i Hi%elem_of_seq. cbn in Hi. lia.
Qed.

Lemma plain_scroll_down_within region m num sq a bidi s :
  plain_screen s -> region_ok region s -> margins_ok m s ->
  keeps_screen (scroll_down_within_margins region m num sq a bidi) s.
Proof.
  intros Hs Hr Hm. unfold keeps_screen, scroll_down_within_margins.
  case_match; [by apply plain_scroll_down|].
  pose proof (region_bounds region s (ps_full _ Hs) Hr) as (HP & HE & _).
  unfold phys_range. rewrite usize_sub_Some by lia. cbn [mbind option_bind].
  apply plain_copied; [done..| |].
  - apply Forall_map, Forall_forall. intros i Hi%list_elem_of_In%in_rev%list_elem_of_In%elem_of_seq.
    cbn. lia.
  - apply Forall_forall. intros i Hi%elem_of_seq. cbn in Hi. lia.
Qed.

(** ** Scrollback and marks *)

Lemma plain_erase_scrollback s : plain_screen s -> keeps_screen erase_scrollback s.
Proof.
  intros Hs. pose proof (ps_full _ Hs) as Hf. red in Hf. unfold keeps_screen, erase_scrollback.
  rewrite usize_sub_Some by done. cbn [mbind option_bind]. apply yields_Some.
  assert (plain_screen (set_lines (drop (length (lines s) - physical_rows s) (lines s)) s)).
  { apply plain_set_lines; [done|by apply Forall_drop, Hs|]. rewrite length_drop. lia. }
  case_match; [|done]. split; [|done]. by destruct H4.
Qed.

Lemma plain_dirty_line y sq s : plain_screen s -> plain_screen (dirty_line y sq s) /\ same_size s (dirty_line y sq s).
Proof.
  intros Hs. unfold dirty_line. case_match; [|done]. split; [|done].
  apply plain_set_lines; [done| |rewrite length_alter; apply Hs].
  apply Forall_alter; [apply Hs|]. intros l _. apply plain_update.
Qed.

Lemma plain_dirty_all sq s :
  plain_screen s -> plain_screen (set_lines (map (update_last_change_seqno sq) (lines s)) s).
Proof.
  intros Hs. apply plain_set_lines; [done| |rewrite length_map; apply Hs].
  apply Forall_map. eapply Forall_impl; [apply Hs|]. intros l. apply plain_update.
Qed.

(** ** A new screen *)

Lemma plain_screen_new size cfg allow sq bidi :
  (S (Z.to_nat (Z.max 1 (TermSize.cols size))) <= max_cols)%nat ->
  plain_screen (Screen_new size cfg allow sq bidi).
Proof.
  intros Hc. split; cbn.
  - lia.
  - red. cbn. by rewrite length_replicate.
  - lia.
  - by apply Forall_replicate, plain_bidi, plain_new.
Qed.

End Plain.
