(* ===== verification/Terminal.v ===== *)
(** The state of the terminal and the operations on it, of [src/term/src/terminalstate/mod.rs]:
    tab stops, the two screens, the cursor and the margins, scrolling, editing and erasing, the
    cursor sequences, saving and restoring. An operation is a computation on the state that
    may panic and that writes replies and raises alerts ([CallMonad]).

    Left out of the state: the colour palette, images, the clipboard and the other handlers, user
    variables, the working directory; the mouse buttons that are held are in [Mouse]. *)

From Stdlib Require Import ZArith Lia String.
From S2P Require Import Prelude CallMonad Color CsiTypes CharWidth Cell Line TermSize TermTypes Esc Screen.
From stdpp Require Import base numbers list option gmap.
Local Open Scope Z_scope.

(** What a terminal tells the world: bytes written (and flushed) and alerts. *)
Inductive TermEvent : Set :=
| Write (bytes : list Z)
| Alert_Bell | Alert_PaletteChanged | Alert_OutputSinceFocusLost
| Alert_WindowTitleChanged (title : list Z)
| Alert_IconTitleChanged (title : option (list Z)).

(** ** Tab stops *)

Record TabStop : Set := mkTabStop { tab_stops : list bool; tab_width : nat }.

Definition is_tab_stop (tab_width i : nat) : bool := (i mod tab_width =? 0)%nat.

Definition TabStop_new (screen_width tab_width : nat) : TabStop :=
  mkTabStop (map (is_tab_stop tab_width) (seq O screen_width)) tab_width.

Definition set_tab_stop (col : nat) (t : TabStop) : option TabStop :=
  ts ← arr_set (tab_stops t) col true; Some (mkTabStop ts (tab_width t)).

Definition find_prev_tab_stop (col : nat) (t : TabStop) : option nat :=
  List.find (fun i => default false (tab_stops t !! i))
    (rev (seq O (Nat.min col (length (tab_stops t))))).

Definition find_next_tab_stop (col : nat) (t : TabStop) : option nat :=
  List.find (fun i => default false (tab_stops t !! i))
    (seq (col + 1) (length (tab_stops t) - (col + 1))).

Definition TabStop_resize (screen_width : nat) (t : TabStop) : TabStop :=
  let current := length (tab_stops t) in
  mkTabStop (tab_stops t ++ map (is_tab_stop (tab_width t)) (seq current (screen_width - current)))
    (tab_width t).

Definition TabStop_clear (to_clear : TabulationClear) (col : nat) (t : TabStop) : TabStop :=
  match to_clear with
  | TabulationClear_ClearCharacterTabStopAtActivePosition =>
      mkTabStop (<[col := false]> (tab_stops t)) (tab_width t)
  | TabulationClear_ClearAllCharacterTabStops =>
      mkTabStop (map (fun _ => false) (tab_stops t)) (tab_width t)
  | _ => t
  end.

(** NFC normalisation of the text that is not normal, of the crate [unicode-normalization]. *)
Class Normalization := nfc : list Z -> list Z.

Section Terminal.
Context `{CharTables} `{Graphemes} `{BitSet} `{HyperlinkRules}.

(** ** The state; the text that the [Performer] has buffered is its last field *)

Record TermState : Type := mkTermState {
  term_config : TerminalConfiguration;
  primary_screen : Screen;
  alt_screen : Screen;
  alt_screen_is_active : bool;
  pen : CellAttributes;
  cursor : CursorPosition;
  wrap_next : bool;
  clear_semantic_attribute_on_newline : bool;
  insert_mode : bool;
  dec_auto_wrap : bool;
  reverse_wraparound_mode : bool;
  reverse_video_mode : bool;
  dec_origin_mode : bool;
  top_and_bottom_margins : range Z;
  left_and_right_margins : range nat;
  left_and_right_margin_mode : bool;
  application_cursor_keys : bool;
  modify_other_keys : option Z;
  dec_ansi_mode : bool;
  sixel_display_mode : bool;
  use_private_color_registers_for_each_graphic : bool;
  application_keypad : bool;
  bracketed_paste : bool;
  any_event_mouse : bool;
  focus_tracking : bool;
  mouse_encoding : MouseEncoding;
  mouse_tracking : bool;
  button_event_mouse : bool;
  cursor_visible : bool;
  keyboard_encoding : KeyboardEncoding;
  g0_charset : CharSet;
  g1_charset : CharSet;
  shift_out : bool;
  newline_mode : bool;
  tabs : TabStop;
  title : list Z;
  icon_title : option (list Z);
  term_pixel_width : Z;
  term_pixel_height : Z;
  term_dpi : Z;
  term_program : list Z;
  term_version : list Z;
  sixel_scrolls_right : bool;
  term_seqno : Z;
  unicode_version : UnicodeVersion;
  enable_conpty_quirks : bool;
  suppress_initial_title_change : bool;
  accumulating_title : option (list Z);
  lost_focus_seqno : Z;
  lost_focus_alerted_seqno : Z;
  focused : bool;
  bidi_enabled : option bool;
  bidi_hint : option ParagraphDirectionHint;
  print_buffer : list Z
}.

(** Setters of single fields, made by a tactic. *)
Definition eta (s : TermState) : TermState :=
  mkTermState (term_config s) (primary_screen s) (alt_screen s) (alt_screen_is_active s) (pen s)
    (cursor s) (wrap_next s) (clear_semantic_attribute_on_newline s) (insert_mode s)
    (dec_auto_wrap s) (reverse_wraparound_mode s) (reverse_video_mode s) (dec_origin_mode s)
    (top_and_bottom_margins s) (left_and_right_margins s) (left_and_right_margin_mode s)
    (application_cursor_keys s) (modify_other_keys s) (dec_ansi_mode s)
    (sixel_display_mode s) (use_private_color_registers_for_each_graphic s)
    (application_keypad s) (bracketed_paste s) (any_event_mouse s) (focus_tracking s)
    (mouse_encoding s) (mouse_tracking s) (button_event_mouse s) (cursor_visible s)
    (keyboard_encoding s) (g0_charset s) (g1_charset s) (shift_out s) (newline_mode s)
    (tabs s) (title s) (icon_title s) (term_pixel_width s) (term_pixel_height s) (term_dpi s)
    (term_program s) (term_version s) (sixel_scrolls_right s) (term_seqno s)
    (unicode_version s) (enable_conpty_quirks s) (suppress_initial_title_change s)
    (accumulating_title s) (lost_focus_seqno s) (lost_focus_alerted_seqno s) (focused s)
    (bidi_enabled s) (bidi_hint s) (print_buffer s).

Ltac setter proj v :=
  let t := eval cbv delta [eta] in eta in
  let t := eval pattern proj in t in
  lazymatch t with ?f _ => let r := eval cbv beta in (f (fun _ => v)) in exact r end.

Definition set_term_config (v : TerminalConfiguration)
  : TermState -> TermState := ltac:(setter term_config v).
Definition set_primary_screen (v : Screen)
  : TermState -> TermState := ltac:(setter primary_screen v).
Definition set_alt_screen (v : Screen) : TermState -> TermState := ltac:(setter alt_screen v).
Definition set_alt_screen_is_active (v : bool)
  : TermState -> TermState := ltac:(setter alt_screen_is_active v).
Definition set_pen (v : CellAttributes) : TermState -> TermState := ltac:(setter pen v).
Definition set_cursor (v : CursorPosition) : TermState -> TermState := ltac:(setter cursor v).
Definition set_wrap_next (v : bool) : TermState -> TermState := ltac:(setter wrap_next v).
Definition set_clear_semantic_attribute_on_newline (v : bool)
  : TermState -> TermState := ltac:(setter clear_semantic_attribute_on_newline v).
Definition set_insert_mode (v : bool) : TermState -> TermState := ltac:(setter insert_mode v).
Definition set_dec_auto_wrap (v : bool) : TermState -> TermState := ltac:(setter dec_auto_wrap v).
Definition set_reverse_wraparound_mode (v : bool)
  : TermState -> TermState := ltac:(setter reverse_wraparound_mode v).
Definition set_reverse_video_mode (v : bool)
  : TermState -> TermState := ltac:(setter reverse_video_mode v).
Definition set_dec_origin_mode (v : bool)
  : TermState -> TermState := ltac:(setter dec_origin_mode v).
Definition set_top_and_bottom_margins (v : range Z)
  : TermState -> TermState := ltac:(setter top_and_bottom_margins v).
Definition put_left_and_right_margins (v : range nat)
  : TermState -> TermState := ltac:(setter left_and_right_margins v).
Definition set_left_and_right_margin_mode (v : bool)
  : TermState -> TermState := ltac:(setter left_and_right_margin_mode v).
Definition set_application_cursor_keys (v : bool)
  : TermState -> TermState := ltac:(setter application_cursor_keys v).
Definition set_modify_other_keys (v : option Z)
  : TermState -> TermState := ltac:(setter modify_other_keys v).
Definition set_dec_ansi_mode (v : bool) : TermState -> TermState := ltac:(setter dec_ansi_mode v).
Definition set_sixel_display_mode (v : bool)
  : TermState -> TermState := ltac:(setter sixel_display_mode v).
Definition set_use_private_color_registers_for_each_graphic (v : bool)
  : TermState -> TermState := ltac:(setter use_private_color_registers_for_each_graphic v).
Definition set_application_keypad (v : bool)
  : TermState -> TermState := ltac:(setter application_keypad v).
Definition set_bracketed_paste (v : bool)
  : TermState -> TermState := ltac:(setter bracketed_paste v).
Definition set_any_event_mouse (v : bool)
  : TermState -> TermState := ltac:(setter any_event_mouse v).
Definition set_focus_tracking (v : bool)
  : TermState -> TermState := ltac:(setter focus_tracking v).
Definition set_mouse_encoding (v : MouseEncoding)
  : TermState -> TermState := ltac:(setter mouse_encoding v).
Definition set_mouse_tracking (v : bool)
  : TermState -> TermState := ltac:(setter mouse_tracking v).
Definition set_button_event_mouse (v : bool)
  : TermState -> TermState := ltac:(setter button_event_mouse v).
Definition set_cursor_visible (v : bool)
  : TermState -> TermState := ltac:(setter cursor_visible v).
Definition set_keyboard_encoding (v : KeyboardEncoding)
  : TermState -> TermState := ltac:(setter keyboard_encoding v).
Definition set_g0_charset (v : CharSet) : TermState -> TermState := ltac:(setter g0_charset v).
Definition set_g1_charset (v : CharSet) : TermState -> TermState := ltac:(setter g1_charset v).
Definition set_shift_out (v : bool) : TermState -> TermState := ltac:(setter shift_out v).
Definition set_newline_mode (v : bool) : TermState -> TermState := ltac:(setter newline_mode v).
Definition set_tabs (v : TabStop) : TermState -> TermState := ltac:(setter tabs v).
Definition set_title (v : list Z) : TermState -> TermState := ltac:(setter title v).
Definition set_icon_title (v : option (list Z))
  : TermState -> TermState := ltac:(setter icon_title v).
Definition set_term_pixel_width (v : Z)
  : TermState -> TermState := ltac:(setter term_pixel_width v).
Definition set_term_pixel_height (v : Z)
  : TermState -> TermState := ltac:(setter term_pixel_height v).
Definition set_term_dpi (v : Z) : TermState -> TermState := ltac:(setter term_dpi v).
Definition set_term_program (v : list Z) : TermState -> TermState := ltac:(setter term_program v).
Definition set_term_version (v : list Z) : TermState -> TermState := ltac:(setter term_version v).
Definition set_sixel_scrolls_right (v : bool)
  : TermState -> TermState := ltac:(setter sixel_scrolls_right v).
Definition set_term_seqno (v : Z) : TermState -> TermState := ltac:(setter term_seqno v).
Definition set_unicode_version (v : UnicodeVersion)
  : TermState -> TermState := ltac:(setter unicode_version v).
Definition set_enable_conpty_quirks (v : bool)
  : TermState -> TermState := ltac:(setter enable_conpty_quirks v).
Definition set_suppress_initial_title_change (v : bool)
  : TermState -> TermState := ltac:(setter suppress_initial_title_change v).
Definition set_accumulating_title (v : option (list Z))
  : TermState -> TermState := ltac:(setter accumulating_title v).
Definition set_lost_focus_seqno (v : Z)
  : TermState -> TermState := ltac:(setter lost_focus_seqno v).
Definition set_lost_focus_alerted_seqno (v : Z)
  : TermState -> TermState := ltac:(setter lost_focus_alerted_seqno v).
Definition set_focused (v : bool) : TermState -> TermState := ltac:(setter focused v).
Definition set_bidi_enabled (v : option bool)
  : TermState -> TermState := ltac:(setter bidi_enabled v).
Definition set_bidi_hint (v : option ParagraphDirectionHint)
  : TermState -> TermState := ltac:(setter bidi_hint v).
Definition set_print_buffer (v : list Z) : TermState -> TermState := ltac:(setter print_buffer v).

Definition T (A : Type) : Type := CallM TermState TermEvent A.

Fixpoint repeat_n (n : nat) (m : T unit) : T unit :=
  match n with O => mret tt | S n => m;; repeat_n n m end.

(** ** The two screens: [ScreenOrAlt] *)

Definition screen (s : TermState) : Screen :=
  if alt_screen_is_active s then alt_screen s else primary_screen s.

Definition set_screen (sc : Screen) (s : TermState) : TermState :=
  if alt_screen_is_active s then set_alt_screen sc s else set_primary_screen sc s.

(** An operation on the active screen. *)
Definition on_screen (f : Screen -> option Screen) : T unit :=
  s ← gets id; sc ← lift (f (screen s)); modify (set_screen sc).

Definition dirty_top_phys_rows (sq : Z) (sc : Screen) : option Screen :=
  ls ← for_lines (seq O (physical_rows sc)) (Some ∘ update_last_change_seqno sq) (lines sc);
  Some (set_lines ls sc).

(** Both mark the rows of the primary screen. *)
Definition activate_alt_screen (sq : Z) : T unit :=
  modify (set_alt_screen_is_active true);;
  s ← gets id; sc ← lift (dirty_top_phys_rows sq (primary_screen s)); modify (set_primary_screen sc).

Definition activate_primary_screen (sq : Z) : T unit :=
  modify (set_alt_screen_is_active false);;
  s ← gets id; sc ← lift (dirty_top_phys_rows sq (primary_screen s)); modify (set_primary_screen sc).

Definition saved_cursor_of (s : TermState) : option SavedCursor := saved_cursor (screen s).

Definition put_saved_cursor (c : option SavedCursor) (s : TermState) : TermState :=
  set_screen (set_saved_cursor c (screen s)) s.

(** ** Creation *)

Definition TermState_new (size : TerminalSize) (cfg : TerminalConfiguration)
  (program version : list Z) : TermState :=
  let sq := 1 in
  let b := config_bidi_mode cfg in
  mkTermState cfg (Screen_new size cfg true sq b) (Screen_new size cfg false sq b) false
    blank_attrs CursorPosition_default false false false true false false false
    (0, rows size) (O, Z.to_nat (cols size)) false
    false None false false false false false false false MouseEncoding_X10 false false true
    KeyboardEncoding_Xterm CharSet_Ascii CharSet_Ascii false false
    (TabStop_new (Z.to_nat (cols size)) 8)
    (bs "wakterm") None (pixel_width size) (pixel_height size) (dpi size) program version
    false sq (config_unicode_version cfg) false false None sq sq true None None [].

Definition enable_conpty (s : TermState) : TermState :=
  set_suppress_initial_title_change true (set_enable_conpty_quirks true s).

Definition increment_seqno (s : TermState) : TermState := set_term_seqno (term_seqno s + 1) s.

Definition get_title (s : TermState) : list Z := default (title s) (icon_title s).

Definition get_size (s : TermState) : TerminalSize :=
  mkSize (Z.of_nat (physical_rows (screen s))) (Z.of_nat (physical_cols (screen s)))
    (term_pixel_width s) (term_pixel_height s) (term_dpi s).

Definition is_mouse_grabbed (s : TermState) : bool :=
  mouse_tracking s || button_event_mouse s || any_event_mouse s.

Definition get_keyboard_encoding (s : TermState) : KeyboardEncoding :=
  default (keyboard_encoding s) (last (keyboard_stack (screen s))).

Definition has_unseen_output (s : TermState) : bool :=
  negb (focused s) && (lost_focus_seqno s <? term_seqno s).

Definition trigger_unseen_output_notif : T unit :=
  s ← gets id;
  if has_unseen_output s && (lost_focus_alerted_seqno s <? lost_focus_seqno s) then
    modify (set_lost_focus_alerted_seqno (term_seqno s));; emit Alert_OutputSinceFocusLost
  else mret tt.

(** The active screen's lines are marked. *)
Definition make_all_lines_dirty (s : TermState) : TermState :=
  set_screen (set_lines (map (update_last_change_seqno (term_seqno s)) (lines (screen s)))
                (screen s)) s.

Definition palette_did_change : T unit :=
  modify make_all_lines_dirty;; emit Alert_PaletteChanged.

Definition cursor_pos (s : TermState) : CursorPosition :=
  let c := cursor s in
  mkCursor (cursor_x c) (cursor_y c) (cursor_shape c)
    (if cursor_visible s then CursorVisibility_Visible else CursorVisibility_Hidden)
    (cursor_seqno c).

(** ** The cursor *)

Definition put_cursor (x : nat) (y : Z) (sq : Z) (s : TermState) : TermState :=
  let c := cursor s in
  set_cursor (mkCursor x y (cursor_shape c) (cursor_visibility c) sq) s.

Definition put_x (x : nat) (s : TermState) : TermState :=
  put_cursor x (cursor_y (cursor s)) (cursor_seqno (cursor s)) s.
Definition put_y (y : Z) (s : TermState) : TermState :=
  put_cursor (cursor_x (cursor s)) y (cursor_seqno (cursor s)) s.
Definition put_shape (sh : CursorShape) (s : TermState) : TermState :=
  let c := cursor s in
  set_cursor (mkCursor (cursor_x c) (cursor_y c) sh (cursor_visibility c) (cursor_seqno c)) s.

(** [Range::contains]. *)
Definition in_rows (y : Z) (r : range Z) : bool := (r.1 <=? y) && (y <? r.2).
Definition in_cols (x : nat) (r : range nat) : bool := (r.1 <=? x)%nat && (x <? r.2)%nat.

Definition clear_semantic_attribute_due_to_movement (s : TermState) : TermState :=
  if clear_semantic_attribute_on_newline s then
    set_pen (set_semantic_type SemanticType_Output (pen s))
      (set_clear_semantic_attribute_on_newline false s)
  else s.

Definition set_cursor_position_absolute (x : nat) (y : Z) (s : TermState) : TermState :=
  let s := if cursor_y (cursor s) =? y then s
           else clear_semantic_attribute_due_to_movement s in
  set_wrap_next false (put_cursor x y (term_seqno s) s).

(** Where a position is. A column may be one past the last. *)
Definition resolve_x (x : Position) (s : TermState) : Z :=
  let origin := dec_origin_mode s in
  let '(l, r) := left_and_right_margins s in
  match x with
  | Relative x =>
      Z.max 0 (Z.min (Z.of_nat (cursor_x (cursor s)) + x)
                 (Z.of_nat (if origin then r else physical_cols (screen s)) - 1))
  | Absolute x =>
      Z.max 0 (Z.min (x + Z.of_nat (if origin then l else O))
                 (Z.of_nat (if origin then r else physical_cols (screen s) + 1)%nat - 1))
  end.

Definition resolve_y (y : Position) (s : TermState) : Z :=
  let origin := dec_origin_mode s in
  let '(t, b) := top_and_bottom_margins s in
  let bound := (if origin then b else Z.of_nat (physical_rows (screen s))) - 1 in
  match y with
  | Relative y => Z.max 0 (Z.min (cursor_y (cursor s) + y) bound)
  | Absolute y => Z.max 0 (Z.min (y + (if origin then t else 0)) bound)
  end.

Definition set_cursor_pos (x y : Position) (s : TermState) : TermState :=
  set_cursor_position_absolute (Z.to_nat (resolve_x x s)) (resolve_y y s) s.

Definition get_bidi_mode (s : TermState) : BidiMode :=
  let m := config_bidi_mode (term_config s) in
  mkBidiMode (default (enabled m) (bidi_enabled s)) (default (hint m) (bidi_hint s)).

(** ** Scrolling and new lines *)

Definition term_scroll_up (num_rows : nat) : T unit :=
  s ← gets id;
  on_screen (scroll_up_within_margins (top_and_bottom_margins s) (left_and_right_margins s)
               num_rows (term_seqno s) (clone_sgr_only (pen s)) (get_bidi_mode s)).

Definition term_scroll_down (num_rows : nat) : T unit :=
  s ← gets id;
  on_screen (scroll_down_within_margins (top_and_bottom_margins s) (left_and_right_margins s)
               num_rows (term_seqno s) (clone_sgr_only (pen s)) (get_bidi_mode s)).

Definition new_line (move_to_first_column : bool) : T unit :=
  s ← gets id;
  let x := if move_to_first_column then (left_and_right_margins s).1 else cursor_x (cursor s) in
  let y := cursor_y (cursor s) in
  y ← (if y =? (top_and_bottom_margins s).2 - 1 then term_scroll_up 1;; mret y
       else mret (y + 1));
  modify (set_cursor_pos (Absolute (Z.of_nat x)) (Absolute y)).

Definition fresh_line : T unit :=
  s ← gets id;
  if (cursor_x (cursor s) =? (left_and_right_margins s).1)%nat then mret tt else new_line true.

Definition c1_index : T unit :=
  s ← gets id;
  if in_cols (cursor_x (cursor s)) (left_and_right_margins s) then
    if cursor_y (cursor s) =? (top_and_bottom_margins s).2 - 1 then term_scroll_up 1
    else modify (set_cursor_pos (Relative 0) (Relative 1))
  else mret tt.

Definition c1_nel : T unit :=
  s ← gets id;
  let x := cursor_x (cursor s) in
  let y := cursor_y (cursor s) in
  let '(l, _) := left_and_right_margins s in
  let bottom := (top_and_bottom_margins s).2 in
  let y_clamp := if in_rows y (top_and_bottom_margins s) then bottom - 1
                 else Z.of_nat (physical_rows (screen s)) - 1 in
  if in_cols x (left_and_right_margins s) then
    if y =? bottom - 1 then
      term_scroll_up 1;; modify (fun s => set_cursor_position_absolute l (cursor_y (cursor s)) s)
    else modify (set_cursor_position_absolute l (Z.min (y + 1) y_clamp))
  else modify (set_cursor_position_absolute (if (x <? l)%nat then x else l)
                 (Z.min (y + 1) y_clamp)).

Definition c1_hts : T unit :=
  s ← gets id; ts ← lift (set_tab_stop (cursor_x (cursor s)) (tabs s)); modify (set_tabs ts).

(** A right margin of zero is a panic, in a build with overflow checks. *)
Definition c0_horizontal_tab : T unit :=
  s ← gets id;
  bound ← lift (usize_sub (left_and_right_margins s).2 1);
  let x := default bound (find_next_tab_stop (cursor_x (cursor s)) (tabs s)) in
  modify (put_cursor (Nat.min x bound) (cursor_y (cursor s)) (term_seqno s)).

Definition c1_reverse_index : T unit :=
  s ← gets id;
  if in_cols (cursor_x (cursor s)) (left_and_right_margins s) then
    if cursor_y (cursor s) =? (top_and_bottom_margins s).1 then term_scroll_down 1
    else modify (set_cursor_pos (Relative 0) (Relative (-1)))
  else mret tt.

(** ** Editing *)

Definition erase_in_line (erase : EraseInLine) : T unit :=
  s ← gets id;
  let cx := cursor_x (cursor s) in
  let cols := physical_cols (screen s) in
  let r := match erase with
           | EraseInLine_EraseToEndOfLine => (cx + (if wrap_next s then 1 else 0), cols)%nat
           | EraseInLine_EraseToStartOfLine => (O, cx + 1)%nat
           | EraseInLine_EraseLine => (O, cols)
           end in
  on_screen (clear_line (cursor_y (cursor s)) r (clone_sgr_only (pen s)) (term_seqno s)
               (get_bidi_mode s)).

(** The rows of a loop of [erase_in_display]. *)
Fixpoint clear_rows (ys : list Z) (cols : range nat) (a : CellAttributes) (sq : Z) (b : BidiMode)
  (sc : Screen) : option Screen :=
  match ys with
  | [] => Some sc
  | y :: ys =>
      sc ← clear_line y cols a sq b sc;
      sc ← with_line (phys_row y sc) (Some ∘ set_single_width sq) sc;
      clear_rows ys cols a sq b sc
  end.

Definition erase_in_display (erase : EraseInDisplay) : T unit :=
  s ← gets id;
  let cy := cursor_y (cursor s) in
  let rows := Z.of_nat (physical_rows (screen s)) in
  let cols := (O, physical_cols (screen s)) in
  let a := clone_sgr_only (pen s) in
  let clear (first last : Z) : T unit :=
    s' ← gets id;
    on_screen (clear_rows (seqZ first (last - first)) cols a (term_seqno s) (get_bidi_mode s')) in
  match erase with
  | EraseInDisplay_EraseToEndOfDisplay =>
      erase_in_line EraseInLine_EraseToEndOfLine;; clear (cy + 1) rows
  | EraseInDisplay_EraseToStartOfDisplay =>
      erase_in_line EraseInLine_EraseToStartOfLine;; clear 0 cy
  | EraseInDisplay_EraseDisplay => clear 0 rows
  | EraseInDisplay_EraseScrollback => on_screen erase_scrollback
  end.

(** The cell that [Repeat] repeats: the one before the cursor, a wide one by its
    second column too. The line is expanded. *)
Definition repeated_cell (x : nat) (v : list Cell) : option Cell :=
  let to_copy := (x - 1)%nat in
  match v !! to_copy with
  | None => Some Cell_blank
  | Some candidate =>
      if bool_decide (cell_str candidate = bs " ") && (0 <? to_copy)%nat then
        prior ← v !! (to_copy - 1)%nat;
        Some (Cell_clone (if 1 <? cell_width prior then prior else candidate))
      else Some (Cell_clone candidate)
  end.

(** The loop of [Repeat]; the margins are those of its start. *)
Fixpoint repeat_loop (n : nat) (cell : Cell) (margins : range nat) (region : range Z) (sq : Z)
  (x : nat) (y : Z) : T (nat * Z) :=
  match n with
  | O => mret (x, y)
  | S n =>
      on_screen (fun sc => with_line (phys_row y sc) (set_cell x (Cell_clone cell) sq) sc);;
      last_col ← lift (usize_sub margins.2 1);
      let x := S x in
      '(x, y) ←
        (if (last_col <? x)%nat then
           if y =? region.2 - 1 then term_scroll_up 1;; mret (margins.1, y)
           else let y := y + 1 in
                mret (margins.1, if region.2 - 1 <? y then region.2 else y)
         else mret (x, y));
      repeat_loop n cell margins region sq x y
  end.

Fixpoint screen_n (n : nat) (f : Screen -> option Screen) (sc : Screen) : option Screen :=
  match n with O => Some sc | S n => sc ← f sc; screen_n n f sc end.

Definition perform_csi_edit (edit : Edit) : T unit :=
  s ← gets id;
  let sq := term_seqno s in
  let x := cursor_x (cursor s) in
  let y := cursor_y (cursor s) in
  let margins := left_and_right_margins s in
  let region := top_and_bottom_margins s in
  let blank := clone_sgr_only (pen s) in
  match edit with
  | Edit_DeleteCharacter n =>
      if in_cols x margins then
        let limit := Nat.min (x + Z.to_nat n) margins.2 in
        on_screen (screen_n (limit - x) (screen_erase_cell x y margins.2 sq blank))
      else mret tt
  | Edit_DeleteLine n =>
      if in_rows y region && in_cols x margins then
        on_screen (scroll_up_within_margins (y, region.2) margins (Z.to_nat n) sq blank
                     (get_bidi_mode s))
      else mret tt
  | Edit_EraseCharacter n =>
      let limit := Nat.min (x + Z.to_nat n) (physical_cols (screen s)) in
      on_screen (fun sc => foldl (fun acc x => sc ← acc; screen_set_cell x y (blank_with_attrs blank) sq sc)
                             (Some sc) (seq x (limit - x)))
  | Edit_EraseInLine e => erase_in_line e
  | Edit_InsertCharacter n =>
      if in_rows y region && in_cols x margins then
        on_screen (screen_n (Z.to_nat n) (screen_insert_cell x y margins.2 sq))
      else mret tt
  | Edit_InsertLine n =>
      if in_rows y region && in_cols x margins then
        on_screen (scroll_down_within_margins (y, region.2) margins (Z.to_nat n) sq blank
                     (get_bidi_mode s))
      else mret tt
  | Edit_ScrollDown n => term_scroll_down (Z.to_nat n)
  | Edit_ScrollUp n => term_scroll_up (Z.to_nat n)
  | Edit_EraseInDisplay e => erase_in_display e
  | Edit_Repeat n =>
      let idx := phys_row y (screen s) in
      l ← lift (lines (screen s) !! idx);
      cell ← lift (repeated_cell x (vec_of l));
      on_screen (with_line idx (Some ∘ map_vec id));;
      '(x, y) ← repeat_loop (Z.to_nat n) cell margins region sq x y;
      modify (fun s => put_y y (put_x x s))
  end.

(** ** Margins and cursor sequences *)

Definition set_left_and_right_margins (left_ right_ : OneBased) : T unit :=
  s ← gets id;
  if left_and_right_margin_mode s then
    let cols := as_u32 (Z.of_nat (physical_cols (screen s))) in
    rust_cols ← lift (rust_assert (1 <=? cols));
    let l := Z.to_nat (Z.max 0 (Z.min (as_zero_based left_) (cols - 1))) in
    let r := Z.to_nat (Z.max 0 (Z.min (as_zero_based right_) (cols - 1))) in
    if (r <=? l)%nat then mret tt
    else modify (fun s => set_cursor_pos (Absolute 0) (Absolute 0)
                            (put_left_and_right_margins (l, r + 1)%nat s))
  else mret tt.

Definition dec_save_cursor (s : TermState) : TermState :=
  put_saved_cursor
    (Some (mkSavedCursor (cursor s) (wrap_next s) (pen s) (dec_origin_mode s) (g0_charset s)
             (g1_charset s))) s.

Definition dec_restore_cursor (s : TermState) : TermState :=
  let saved := default (mkSavedCursor CursorPosition_default false blank_attrs false CharSet_Ascii
                          CharSet_Ascii) (saved_cursor_of s) in
  let p := position saved in
  let s := set_dec_origin_mode false s in
  let s := set_cursor_pos (Absolute (Z.of_nat (cursor_x p))) (Absolute (cursor_y p)) s in
  let s := put_shape (cursor_shape p) s in
  let s := set_wrap_next (saved_wrap_next saved) s in
  let s := set_pen (saved_pen saved) s in
  let s := set_dec_origin_mode (saved_dec_origin_mode saved) s in
  let s := set_g0_charset (saved_g0_charset saved) s in
  let s := set_g1_charset (saved_g1_charset saved) s in
  set_newline_mode false (set_shift_out false s).

(** Up and down by rows, not across the margin of the region the cursor is in. *)
Definition row_above (n : Z) (s : TermState) : Z :=
  let y := cursor_y (cursor s) in
  let top := (top_and_bottom_margins s).1 in
  let candidate := i64_sat (y - n) in
  Z.max 0 (if y <? top then candidate else if candidate <? top then top else candidate).

Definition row_below (n : Z) (s : TermState) : Z :=
  let y := cursor_y (cursor s) in
  let bottom := (top_and_bottom_margins s).2 in
  if bottom <=? y then Z.min (y + n) (Z.of_nat (physical_rows (screen s)) - 1)
  else Z.min (y + n) (bottom - 1).

Definition shape_of_style (st : CursorStyle) : CursorShape :=
  match st with
  | CursorStyle_Default => CursorShape_Default
  | CursorStyle_BlinkingBlock => CursorShape_BlinkingBlock
  | CursorStyle_SteadyBlock => CursorShape_SteadyBlock
  | CursorStyle_BlinkingUnderline => CursorShape_BlinkingUnderline
  | CursorStyle_SteadyUnderline => CursorShape_SteadyUnderline
  | CursorStyle_BlinkingBar => CursorShape_BlinkingBar
  | CursorStyle_SteadyBar => CursorShape_SteadyBar
  end.

(** The line and the column that are reported, relative to the margins in origin mode. *)
Definition reported_position (s : TermState) : option (OneBased * OneBased) :=
  let y := cursor_y (cursor s) in
  line ← from_zero_based (as_u32 (i64_sat (y - (if dec_origin_mode s
                                                 then (top_and_bottom_margins s).1 else 0))));
  bound ← usize_sub (physical_cols (screen s)) 1;
  col ← from_zero_based (as_u32 (Z.of_nat (Nat.min (cursor_x (cursor s)) bound -
                           (if dec_origin_mode s then (left_and_right_margins s).1 else O))));
  Some (line, col).

Definition perform_csi_cursor (c : Cursor) : T unit :=
  s ← gets id;
  let sq := term_seqno s in
  let x := cursor_x (cursor s) in
  let y := cursor_y (cursor s) in
  let '(l, r) := left_and_right_margins s in
  let cols := physical_cols (screen s) in
  let rows := Z.of_nat (physical_rows (screen s)) in
  let move (x : nat) (y : Z) : T unit := modify (set_wrap_next false ∘ put_cursor x y sq) in
  match c with
  | Cursor_SetTopAndBottomMargins top bottom =>
      let t := Z.max 0 (Z.min (as_zero_based top) (rows - 1)) in
      let b := Z.max 0 (Z.min (as_zero_based bottom) (rows - 1)) in
      if b <=? t then mret tt
      else modify (fun s => set_cursor_pos (Absolute 0) (Absolute 0)
                              (set_top_and_bottom_margins (t, b + 1) s))
  | Cursor_SetLeftAndRightMargins left_ right_ => set_left_and_right_margins left_ right_
  | Cursor_ForwardTabulation n => repeat_n (Z.to_nat n) c0_horizontal_tab
  | Cursor_BackwardTabulation n =>
      repeat_n (Z.to_nat n)
        (modify (fun s => set_cursor_pos
           (Absolute (Z.of_nat (default O (find_prev_tab_stop (cursor_x (cursor s)) (tabs s)))))
           (Relative 0) s))
  | Cursor_TabulationClear to_clear => modify (fun s => set_tabs (TabStop_clear to_clear x (tabs s)) s)
  | Cursor_TabulationControl _ => mret tt
  | Cursor_LineTabulation _ => mret tt
  | Cursor_Left _ => panic
  | Cursor_Right n =>
      bound ← lift (usize_sub (if (r <=? x)%nat then cols else r) 1);
      move (Nat.min (x + Z.to_nat n) bound) y
  | Cursor_Up n => move x (row_above n s)
  | Cursor_Down n => move x (row_below n s)
  | Cursor_CharacterAndLinePosition line col | Cursor_Position line col =>
      modify (set_cursor_pos (Absolute (as_zero_based col)) (Absolute (as_zero_based line)))
  | Cursor_CharacterAbsolute col =>
      modify (set_cursor_pos (Absolute (as_zero_based col)) (Relative 0))
  | Cursor_CharacterPositionAbsolute col =>
      bound ← lift (usize_sub cols 1);
      let col := (Z.to_nat (as_zero_based col) + (if dec_origin_mode s then l else O))%nat in
      move (Nat.min col bound) y
  | Cursor_CharacterPositionBackward n => modify (set_cursor_pos (Relative (- n)) (Relative 0))
  | Cursor_CharacterPositionForward n => modify (set_cursor_pos (Relative n) (Relative 0))
  | Cursor_LinePositionAbsolute n =>
      modify (set_cursor_pos (Relative 0) (Absolute (i64_sat (n - 1))))
  | Cursor_LinePositionBackward n => modify (set_cursor_pos (Relative 0) (Relative (- n)))
  | Cursor_LinePositionForward n => modify (set_cursor_pos (Relative 0) (Relative n))
  | Cursor_NextLine n => move l (row_below n s)
  | Cursor_PrecedingLine n => move l (row_above n s)
  | Cursor_ActivePositionReport _ _ => mret tt
  | Cursor_RequestActivePositionReport =>
      '(line, col) ← lift (reported_position s);
      emit (Write (CSI_fmt (CSI_Cursor (Cursor_ActivePositionReport line col))))
  | Cursor_SaveCursor =>
      if left_and_right_margin_mode s then
        first ← lift (OneBased_new 1);
        last ← lift (OneBased_new (as_u32 (Z.of_nat cols) + 1));
        set_left_and_right_margins first last
      else modify dec_save_cursor
  | Cursor_RestoreCursor => modify dec_restore_cursor
  | Cursor_CursorStyle st => modify (put_shape (shape_of_style st))
  end.

(** ** SGR *)

(** [From<ColorSpec> for ColorAttribute]. *)
Definition ColorAttribute_from (c : ColorSpec) : ColorAttribute :=
  match c with
  | ColorSpec_Default => ColorAttribute_Default
  | PaletteIndex n => ColorAttribute_PaletteIndex n
  | TrueColor t => TrueColorWithDefaultFallback t
  end.

Definition sgr_pen (sgr : Sgr) (a : CellAttributes) : CellAttributes :=
  match sgr with
  | Sgr_Reset =>
      let fresh := set_hyperlink (hyperlink a) blank_attrs in
      match semantic_type a with Some st => set_semantic_type st fresh | None => fresh end
  | Sgr_Intensity i => set_intensity i a
  | Sgr_Underline u => set_underline u a
  | Sgr_Overline b => set_overline b a
  | Sgr_VerticalAlign v => set_vertical_align v a
  | Sgr_Blink b => set_blink b a
  | Sgr_Italic b => set_italic b a
  | Sgr_Inverse b => set_reverse b a
  | Sgr_Invisible b => set_invisible b a
  | Sgr_StrikeThrough b => set_strikethrough b a
  | Sgr_Foreground c => set_foreground (ColorAttribute_from c) a
  | Sgr_Background c => set_background (ColorAttribute_from c) a
  | Sgr_UnderlineColor c => set_underline_color (ColorAttribute_from c) a
  | Sgr_Font _ => a
  end.

Definition perform_csi_sgr (sgr : Sgr) (s : TermState) : TermState := set_pen (sgr_pen sgr (pen s)) s.

End Terminal.
