(* ===== verification/TermPerform.v ===== *)
(** What the terminal does with the actions of the parser: the modes, the device and window
    requests, resizing and pasting of [src/term/src/terminalstate/mod.rs], and the
    [Performer] of [performer.rs] for characters, controls, escape codes and CSI
    sequences, up to [Terminal::perform_actions] and [advance_bytes] of [terminal.rs]. *)

From Stdlib Require Import ZArith Lia String.
From S2P Require Import Prelude VtParse CallMonad Color CsiTypes CsiParse CharWidth Cell Line TermSize TermTypes Esc Screen Terminal.
From stdpp Require Import base numbers list option gmap.
Local Open Scope Z_scope.

Section Perform.
Context `{CharTables} `{Graphemes} `{BitSet} `{HyperlinkRules} `{Normalization}.

Definition write_bytes (b : list Z) : T unit := emit (Write b).

(** ** Modes *)

(** [decqrm_response], of a DEC mode or not, by the number of the mode. *)
Definition decqrm (is_dec : bool) (number status : Z) : T unit :=
  write_bytes (27 :: bs "[" ++ (if is_dec then bs "?" else []) ++ dec number ++ bs ";" ++
               dec status ++ bs "$y").

Definition decqrm_response_permanent (mode : Mode) : T unit :=
  match mode with
  | QueryDecPrivateMode (DecPrivateMode_Code c) => decqrm true (disc c) 3
  | QueryDecPrivateMode (DecPrivateMode_Unspecified n) => decqrm true n 3
  | QueryMode (TerminalMode_Code c) => decqrm false (disc c) 3
  | QueryMode (TerminalMode_Unspecified n) => decqrm false n 3
  | _ => panic
  end.

Definition decqrm_response (mode : Mode) (recognized is_enabled : bool) : T unit :=
  let status := if recognized then if is_enabled then 1 else 2 else 0 in
  match mode with
  | QueryDecPrivateMode (DecPrivateMode_Code c) => decqrm true (disc c) status
  | QueryDecPrivateMode (DecPrivateMode_Unspecified n) => decqrm true n 0
  | QueryMode (TerminalMode_Code c) => decqrm false (disc c) status
  | QueryMode (TerminalMode_Unspecified n) => decqrm false n 0
  | _ => panic
  end.

(** DECCOLM has only its side effects. *)
Definition select_132_columns : T unit :=
  modify (fun s =>
    let sc := screen s in
    let s := set_top_and_bottom_margins (0, Z.of_nat (physical_rows sc)) s in
    let s := put_left_and_right_margins (O, physical_cols sc) s in
    set_cursor_pos (Absolute 0) (Absolute 0) s);;
  erase_in_display EraseInDisplay_EraseDisplay.

Definition home (s : TermState) : TermState := set_cursor_pos (Absolute 0) (Absolute 0) s.

Definition set_dec_mode (c : DecPrivateModeCode) : T unit :=
  match c with
  | DecPrivateModeCode_Win32InputMode => modify (set_keyboard_encoding KeyboardEncoding_Win32)
  | DecPrivateModeCode_ReverseWraparound => modify (set_reverse_wraparound_mode true)
  | DecPrivateModeCode_LeftRightMarginMode => modify (set_left_and_right_margin_mode true)
  | DecPrivateModeCode_SaveCursor => modify dec_save_cursor
  | DecPrivateModeCode_AutoWrap => modify (set_dec_auto_wrap true)
  | DecPrivateModeCode_OriginMode => modify (home ∘ set_dec_origin_mode true)
  | DecPrivateModeCode_UsePrivateColorRegistersForEachGraphic =>
      modify (set_use_private_color_registers_for_each_graphic true)
  | DecPrivateModeCode_ReverseVideo => modify (set_reverse_video_mode true)
  | DecPrivateModeCode_Select132Columns => select_132_columns
  | DecPrivateModeCode_BracketedPaste => modify (set_bracketed_paste true)
  | DecPrivateModeCode_OptEnableAlternateScreen
  | DecPrivateModeCode_EnableAlternateScreen =>
      s ← gets id;
      if alt_screen_is_active s then mret tt
      else activate_alt_screen (term_seqno s);; modify (set_pen blank_attrs)
  | DecPrivateModeCode_ApplicationCursorKeys => modify (set_application_cursor_keys true)
  | DecPrivateModeCode_SixelDisplayMode => modify (set_sixel_display_mode true)
  | DecPrivateModeCode_DecAnsiMode => modify (set_dec_ansi_mode true)
  | DecPrivateModeCode_ShowCursor => modify (set_cursor_visible true)
  | DecPrivateModeCode_MouseTracking => modify (set_mouse_tracking true)
  | DecPrivateModeCode_ButtonEventMouse => modify (set_button_event_mouse true)
  | DecPrivateModeCode_AnyEventMouse => modify (set_any_event_mouse true)
  | DecPrivateModeCode_FocusTracking => modify (set_focus_tracking true)
  | DecPrivateModeCode_SGRMouse => modify (set_mouse_encoding MouseEncoding_SGR)
  | DecPrivateModeCode_SGRPixelsMouse => modify (set_mouse_encoding MouseEncoding_SgrPixels)
  | DecPrivateModeCode_Utf8Mouse => modify (set_mouse_encoding MouseEncoding_Utf8)
  | DecPrivateModeCode_SixelScrollsRight => modify (set_sixel_scrolls_right true)
  | DecPrivateModeCode_ClearAndEnableAlternateScreen =>
      s ← gets id;
      if alt_screen_is_active s then mret tt
      else
        modify dec_save_cursor;; activate_alt_screen (term_seqno s);; modify home;;
        modify (set_pen blank_attrs);; erase_in_display EraseInDisplay_EraseDisplay
  | DecPrivateModeCode_StartBlinkingCursor | DecPrivateModeCode_AutoRepeat
  | DecPrivateModeCode_GraphemeClustering | DecPrivateModeCode_SynchronizedOutput
  | DecPrivateModeCode_SmoothScroll | DecPrivateModeCode_HighlightMouseTracking
  | DecPrivateModeCode_MinTTYApplicationEscapeKeyMode
  | DecPrivateModeCode_XTermMetaSendsEscape | DecPrivateModeCode_XTermAltSendsEscape => mret tt
  end.

Definition reset_dec_mode (c : DecPrivateModeCode) : T unit :=
  match c with
  | DecPrivateModeCode_Win32InputMode => modify (set_keyboard_encoding KeyboardEncoding_Xterm)
  | DecPrivateModeCode_ReverseWraparound => modify (set_reverse_wraparound_mode false)
  | DecPrivateModeCode_LeftRightMarginMode =>
      modify (fun s => put_left_and_right_margins (O, physical_cols (screen s))
                         (set_left_and_right_margin_mode false s))
  | DecPrivateModeCode_SaveCursor => modify dec_restore_cursor
  | DecPrivateModeCode_AutoWrap => modify (set_dec_auto_wrap false)
  | DecPrivateModeCode_OriginMode => modify (home ∘ set_dec_origin_mode false)
  | DecPrivateModeCode_UsePrivateColorRegistersForEachGraphic =>
      modify (set_use_private_color_registers_for_each_graphic false)
  | DecPrivateModeCode_ReverseVideo => modify (set_reverse_video_mode false)
  | DecPrivateModeCode_Select132Columns => select_132_columns
  | DecPrivateModeCode_BracketedPaste => modify (set_bracketed_paste false)
  | DecPrivateModeCode_OptEnableAlternateScreen =>
      s ← gets id;
      if alt_screen_is_active s then
        modify (set_pen blank_attrs);; erase_in_display EraseInDisplay_EraseDisplay;;
        activate_primary_screen (term_seqno s)
      else mret tt
  | DecPrivateModeCode_EnableAlternateScreen =>
      s ← gets id;
      if alt_screen_is_active s then
        activate_primary_screen (term_seqno s);; modify (set_pen blank_attrs)
      else mret tt
  | DecPrivateModeCode_ApplicationCursorKeys => modify (set_application_cursor_keys false)
  | DecPrivateModeCode_SixelDisplayMode => modify (set_sixel_display_mode false)
  | DecPrivateModeCode_DecAnsiMode => modify (set_dec_ansi_mode false)
  | DecPrivateModeCode_ShowCursor => modify (set_cursor_visible false)
  | DecPrivateModeCode_MouseTracking => modify (set_mouse_tracking false)
  | DecPrivateModeCode_ButtonEventMouse => modify (set_button_event_mouse false)
  | DecPrivateModeCode_AnyEventMouse => modify (set_any_event_mouse false)
  | DecPrivateModeCode_FocusTracking => modify (set_focus_tracking false)
  | DecPrivateModeCode_SGRMouse | DecPrivateModeCode_SGRPixelsMouse
  | DecPrivateModeCode_Utf8Mouse => modify (set_mouse_encoding MouseEncoding_X10)
  | DecPrivateModeCode_SixelScrollsRight => modify (set_sixel_scrolls_right false)
  | DecPrivateModeCode_ClearAndEnableAlternateScreen =>
      s ← gets id;
      if alt_screen_is_active s then
        activate_primary_screen (term_seqno s);; modify dec_restore_cursor
      else mret tt
  | DecPrivateModeCode_StartBlinkingCursor | DecPrivateModeCode_AutoRepeat
  | DecPrivateModeCode_GraphemeClustering | DecPrivateModeCode_SynchronizedOutput
  | DecPrivateModeCode_SmoothScroll | DecPrivateModeCode_HighlightMouseTracking
  | DecPrivateModeCode_MinTTYApplicationEscapeKeyMode
  | DecPrivateModeCode_XTermMetaSendsEscape | DecPrivateModeCode_XTermAltSendsEscape => mret tt
  end.

(** The answer to a query of a DEC mode: [None] is not recognised. *)
Definition dec_mode_state (c : DecPrivateModeCode) (s : TermState) : option bool :=
  match c with
  | DecPrivateModeCode_StartBlinkingCursor => Some false
  | DecPrivateModeCode_Win32InputMode =>
      Some (bool_decide (keyboard_encoding s = KeyboardEncoding_Win32))
  | DecPrivateModeCode_ReverseWraparound => Some (reverse_wraparound_mode s)
  | DecPrivateModeCode_LeftRightMarginMode => Some (left_and_right_margin_mode s)
  | DecPrivateModeCode_AutoWrap => Some (dec_auto_wrap s)
  | DecPrivateModeCode_OriginMode => Some (dec_origin_mode s)
  | DecPrivateModeCode_UsePrivateColorRegistersForEachGraphic =>
      Some (use_private_color_registers_for_each_graphic s)
  | DecPrivateModeCode_SynchronizedOutput => Some false
  | DecPrivateModeCode_Select132Columns => Some false
  | DecPrivateModeCode_BracketedPaste => Some (bracketed_paste s)
  | DecPrivateModeCode_ApplicationCursorKeys => Some (application_cursor_keys s)
  | DecPrivateModeCode_SixelDisplayMode => Some (sixel_display_mode s)
  | DecPrivateModeCode_DecAnsiMode => Some (dec_ansi_mode s)
  | DecPrivateModeCode_ShowCursor => Some (cursor_visible s)
  | DecPrivateModeCode_MouseTracking => Some (mouse_tracking s)
  | DecPrivateModeCode_ButtonEventMouse => Some (button_event_mouse s)
  | DecPrivateModeCode_AnyEventMouse => Some (any_event_mouse s)
  | DecPrivateModeCode_FocusTracking => Some (focus_tracking s)
  | DecPrivateModeCode_SGRMouse => Some (bool_decide (mouse_encoding s = MouseEncoding_SGR))
  | DecPrivateModeCode_SGRPixelsMouse =>
      Some (bool_decide (mouse_encoding s = MouseEncoding_SgrPixels))
  | DecPrivateModeCode_Utf8Mouse => Some (bool_decide (mouse_encoding s = MouseEncoding_Utf8))
  | DecPrivateModeCode_SixelScrollsRight => Some (sixel_scrolls_right s)
  | _ => None
  end.

Definition mode_state (c : TerminalModeCode) (s : TermState) : option bool :=
  match c with
  | TerminalModeCode_BiDirectionalSupportMode =>
      Some (default (enabled (config_bidi_mode (term_config s))) (bidi_enabled s))
  | TerminalModeCode_Insert => Some (insert_mode s)
  | TerminalModeCode_AutomaticNewline => Some (newline_mode s)
  | _ => None
  end.

Definition put_mode (c : TerminalModeCode) (on : bool) : TermState -> TermState :=
  match c with
  | TerminalModeCode_BiDirectionalSupportMode => set_bidi_enabled (Some on)
  | TerminalModeCode_Insert => set_insert_mode on
  | TerminalModeCode_AutomaticNewline => set_newline_mode on
  | TerminalModeCode_ShowCursor => set_cursor_visible on
  | TerminalModeCode_KeyboardAction | TerminalModeCode_SendReceive => id
  end.

Definition answer_query (mode : Mode) (st : option bool) : T unit :=
  match st with
  | Some b => decqrm_response mode true b
  | None => decqrm_response mode false false
  end.

Definition perform_csi_mode (mode : Mode) : T unit :=
  match mode with
  | SetDecPrivateMode (DecPrivateMode_Code c) => set_dec_mode c
  | ResetDecPrivateMode (DecPrivateMode_Code c) => reset_dec_mode c
  | QueryDecPrivateMode (DecPrivateMode_Code DecPrivateModeCode_GraphemeClustering) =>
      decqrm_response_permanent mode
  | QueryDecPrivateMode (DecPrivateMode_Code c) =>
      s ← gets id; answer_query mode (dec_mode_state c s)
  | SaveDecPrivateMode _ | RestoreDecPrivateMode _ => mret tt
  | SetDecPrivateMode (DecPrivateMode_Unspecified _)
  | ResetDecPrivateMode (DecPrivateMode_Unspecified _) => mret tt
  | SetMode (TerminalMode_Code c) => modify (put_mode c true)
  | ResetMode (TerminalMode_Code c) => modify (put_mode c false)
  | SetMode (TerminalMode_Unspecified _) | ResetMode (TerminalMode_Unspecified _) => mret tt
  | QueryMode (TerminalMode_Code c) => s ← gets id; answer_query mode (mode_state c s)
  | QueryDecPrivateMode (DecPrivateMode_Unspecified _) | QueryMode (TerminalMode_Unspecified _) =>
      decqrm_response mode false false
  | XtermKeyMode XKM_OtherKeys value =>
      modify (set_modify_other_keys (match value with Some 0 => None | _ => value end))
  | XtermKeyMode _ _ => mret tt
  end.

(** ** Device requests *)

Definition ST : list Z := [27; "\"%ch].

(** The kitty images that a reset removes are not modelled. *)
Definition soft_reset : T unit :=
  modify (fun s =>
    let sc := screen s in
    let s := set_pen blank_attrs s in
    let s := set_insert_mode false s in
    let s := set_dec_origin_mode false s in
    let s := set_dec_auto_wrap true s in
    let s := set_application_cursor_keys false s in
    let s := set_modify_other_keys None s in
    let s := set_application_keypad false s in
    let s := set_top_and_bottom_margins (0, Z.of_nat (physical_rows sc)) s in
    let s := put_left_and_right_margins (O, physical_cols sc) s in
    set_left_and_right_margin_mode false s);;
  s ← gets id;
  activate_alt_screen (term_seqno s);; modify (put_saved_cursor None);;
  activate_primary_screen (term_seqno s);; modify (put_saved_cursor None);;
  modify (fun s =>
    let s := set_reverse_wraparound_mode false s in
    let s := set_reverse_video_mode false s in
    let s := set_bidi_enabled None s in
    let s := set_bidi_hint None s in
    let s := set_g0_charset CharSet_Ascii s in
    set_g1_charset CharSet_Ascii s).

Definition XtSmGraphics_response (g : XtSmGraphics) (s : TermState) : XtSmGraphics :=
  let answer st v := mkXtSmGraphics (item g) (XtSmGraphicsStatus_to_i64 st) v in
  match item g with
  | XtSmGraphicsItem_Unspecified _ => answer InvalidItem []
  | it =>
      match XtSmGraphics_action g with
      | None | Some SetToValue => answer InvalidAction []
      | Some ResetToDefault => answer Success []
      | Some ReadMaximumAllowedValue | Some ReadAttribute =>
          match it with
          | NumberOfColorRegisters => answer Success [65536]
          | _ => answer Success [term_pixel_width s; term_pixel_height s]
          end
      end
  end.

Definition perform_device (d : Device) : T unit :=
  s ← gets id;
  match d with
  | Device_DeviceAttributes _ => mret tt
  | SoftReset => soft_reset
  | RequestPrimaryDeviceAttributes => write_bytes (27 :: bs "[?65;4;6;18;22;52c")
  | RequestSecondaryDeviceAttributes => write_bytes (27 :: bs "[>1;277;0c")
  | RequestTertiaryDeviceAttributes => write_bytes (27 :: bs "P!|00000000" ++ ST)
  | RequestTerminalNameAndVersion =>
      write_bytes (27 :: bs "P>|" ++ term_program s ++ bs " " ++ term_version s ++ ST)
  | RequestTerminalParameters a =>
      write_bytes (27 :: bs "[" ++ dec (i64_add_wrap a 2) ++ bs ";1;1;128;128;1;0x")
  | StatusReport => write_bytes (27 :: bs "[0n")
  | Device_XtSmGraphics g =>
      write_bytes (27 :: bs "[" ++ Device_fmt (Device_XtSmGraphics (XtSmGraphics_response g s)))
  end.

(** ** Window requests *)

(** The cells of one row that a checksum adds up, from the column [first] on. *)
Fixpoint checksum_cells (last : nat) (rs : list CellRef) (sum : Z) : option Z :=
  match rs with
  | [] => Some sum
  | r :: rs =>
      if (last <? ref_index r)%nat then Some sum
      else
        ch ← head (chars (ref_str r));
        let sum := sum + as_u8 ch in
        rust_assert (sum <=? u16_max);; checksum_cells last rs sum
  end.

Fixpoint checksum_rows (ys : list Z) (left_ right_ : nat) (sc : Screen) (sum : Z) : option Z :=
  match ys with
  | [] => Some sum
  | y :: ys =>
      rust_assert (y <=? u32_max);;
      l ← lines sc !! phys_row y sc;
      sum ← checksum_cells right_ (drop left_ (visible_cells l)) sum;
      checksum_rows ys left_ right_ sc sum
  end.

Definition checksum_rectangle (left_ top right_ bottom : Z) (s : TermState) : option Z :=
  let y_origin := if dec_origin_mode s then as_u32 (top_and_bottom_margins s).1 else 0 in
  let x_origin := if dec_origin_mode s then (left_and_right_margins s).1 else O in
  sum ← checksum_rows (map (fun y => y_origin + y) (seqZ top (bottom + 1 - top)))
          (x_origin + Z.to_nat left_) (x_origin + Z.to_nat right_) (screen s) 0;
  Some (if sum =? 0 then 32 else sum).

(** [{:04x}]. *)
Definition hex_digit (n : Z) : Z := if n <? 10 then "0"%ch + n else "a"%ch + (n - 10).
Definition hex4 (n : Z) : list Z :=
  [hex_digit (n / 4096); hex_digit (n / 256 mod 16); hex_digit (n / 16 mod 16);
   hex_digit (n mod 16)].

Definition write_window (w : Window) : T unit := write_bytes (CSI_fmt (CSI_Window w)).

(** The report of the title is an operating system command ([OSC l]). *)
Definition perform_csi_window (w : Window) : T unit :=
  s ← gets id;
  let height := Z.of_nat (physical_rows (screen s)) in
  let width := Z.of_nat (physical_cols (screen s)) in
  match w with
  | ReportTextAreaSizeCells => write_window (ResizeWindowCells (Some width) (Some height))
  | ReportCellSizePixels =>
      lift (rust_assert ((0 <? width) && (0 <? height)));;
      write_window (ReportCellSizePixelsResponse (Some (term_pixel_width s / width))
                      (Some (term_pixel_height s / height)))
  | ReportTextAreaSizePixels =>
      write_window (ResizeWindowPixels (Some (term_pixel_width s)) (Some (term_pixel_height s)))
  | ReportWindowTitle =>
      if enable_title_reporting (term_config s)
      then write_bytes (27 :: bs "]l" ++ title s ++ ST) else mret tt
  | ChecksumRectangularArea request_id _ top left_ bottom right_ =>
      if enable_checksum_rectangular_area (term_config s) then
        sum ← lift (checksum_rectangle (as_zero_based left_) (as_zero_based top)
                      (as_zero_based right_) (as_zero_based bottom) s);
        write_bytes (27 :: bs "P" ++ dec request_id ++ bs "!~" ++ hex4 sum ++ ST)
      else mret tt
  | _ => mret tt
  end.

(** ** Printing: [performer.rs] *)

(** The DEC line drawing characters. *)
Definition line_drawing (c : Z) : option Z :=
  List.nth_error
    [0x25C6; 0x2592; 0x2409; 0x240C; 0x240D; 0x240A; 0xB0; 0xB1; 0x2424; 0x240B; 0x2518; 0x2510;
     0x250C; 0x2514; 0x253C; 0x23BA; 0x23BB; 0x2500; 0x23BC; 0x23BD; 0x251C; 0x2524; 0x2534;
     0x252C; 0x2502; 0x2264; 0x2265; 0x03C0; 0x2260; 0xA3; 0xB7]
    (if rng "`"%ch "~"%ch c then Z.to_nat (c - "`"%ch) else 31%nat).

Definition current_charset (s : TermState) : CharSet :=
  if shift_out s then g1_charset s else g0_charset s.

Definition remap_grapheme (g : list Z) (s : TermState) : list Z :=
  match current_charset s, g with
  | CharSet_DecLineDrawing, [c] => default g (encode_utf8 <$> line_drawing c)
  | CharSet_Uk, [c] => if c =? "#"%ch then encode_utf8 0xA3 else g
  | _, _ => g
  end.

(** For one byte, [is_alphanumeric] or [is_ascii_punctuation]: a visible ASCII character. *)
Definition makes_sense_to_wrap (t : list Z) : bool :=
  match t with [c] => rng 33 126 c | _ => true end.

(** The line is marked and the cursor goes to the next one. *)
Definition wrap_line (sq : Z) : T unit :=
  s ← gets id;
  on_screen (fun sc =>
    with_line (phys_row (cursor_y (cursor s)) sc) (fun l =>
      if negb (enable_conpty_quirks s) ||
         from_option (fun r => makes_sense_to_wrap (ref_str r)) false (last (visible_cells l))
      then set_last_cell_was_wrapped true sq l else Some l) sc);;
  new_line true.

Definition print_grapheme (sq : Z) (g : list Z) : T unit :=
  s ← gets id;
  let g := remap_grapheme g s in
  let w := grapheme_column_width g (Some (unicode_version s)) in
  if (w =? 0) && negb (is_white_space_grapheme g) then mret tt
  else
    let w := if w =? 0 then 1 else w in
    (if wrap_next s then wrap_line sq else mret tt);;
    s ← gets id;
    let x := cursor_x (cursor s) in
    let y := cursor_y (cursor s) in
    let width := (left_and_right_margins s).2 in
    (if insert_mode s then on_screen (screen_n (Z.to_nat w) (screen_insert_cell x y width sq))
     else mret tt);;
    on_screen (screen_set_cell_grapheme x y g w (pen s) sq);;
    if (width <=? x + Z.to_nat w)%nat then modify (set_wrap_next (dec_auto_wrap s))
    else modify (fun s => set_wrap_next false (put_x (x + Z.to_nat w) s)).

Fixpoint print_graphemes (sq : Z) (gs : list (list Z)) : T unit :=
  match gs with [] => mret tt | g :: gs => print_grapheme sq g;; print_graphemes sq gs end.

Definition flush_print : T unit :=
  s ← gets id;
  match print_buffer s with
  | [] => mret tt
  | p =>
      modify (set_print_buffer []);;
      let text := if normalize_output_to_unicode_nfc (term_config s) then nfc p else p in
      print_graphemes (term_seqno s) (graphemes text)
  end.

Definition print (c : Z) (s : TermState) : TermState :=
  match accumulating_title s with
  | Some t => set_accumulating_title (Some (t ++ encode_utf8 c)) s
  | None => set_print_buffer (print_buffer s ++ encode_utf8 c) s
  end.

Definition pop_tmux_title_state : T unit := modify (set_accumulating_title None).

(** ** Controls *)

Definition line_feed : T unit :=
  s ← gets id;
  (if in_cols (cursor_x (cursor s)) (left_and_right_margins s) then new_line false
   else
     let old_y := cursor_y (cursor s) in
     let y := if old_y =? (top_and_bottom_margins s).2 - 1 then old_y
              else Z.min (old_y + 1) (Z.of_nat (physical_rows (screen s)) - 1) in
     modify (fun s => set_screen (dirty_line y (term_seqno s)
                                    (dirty_line old_y (term_seqno s) (screen s))) s);;
     modify (set_wrap_next false ∘ put_y y));;
  s ← gets id;
  if newline_mode s then modify (clear_semantic_attribute_due_to_movement ∘ put_x O)
  else mret tt.

Definition carriage_return (s : TermState) : TermState :=
  let l := (left_and_right_margins s).1 in
  let s := put_x (if (l <=? cursor_x (cursor s))%nat then l else O) s in
  let s := set_wrap_next false s in
  let s := clear_semantic_attribute_due_to_movement s in
  set_screen (dirty_line (cursor_y (cursor s)) (term_seqno s) (screen s)) s.

Definition backspace : T unit :=
  s ← gets id;
  let x := cursor_x (cursor s) in
  let '(l, r) := left_and_right_margins s in
  let '(t, b) := top_and_bottom_margins s in
  let wraps := reverse_wraparound_mode s && dec_auto_wrap s in
  let last_col := Absolute (Z.of_nat r - 1) in
  let step := if (x =? l)%nat then mret tt
              else modify (set_cursor_pos (Relative (-1)) (Relative 0)) in
  if wraps && (x =? l)%nat && (cursor_y (cursor s) =? t)
  then modify (set_cursor_pos last_col (Absolute (b - 1)))
  else if wraps && (x <=? l)%nat then modify (set_cursor_pos last_col (Relative (-1)))
  else if wraps then
    bound ← lift (usize_sub r 1);
    if (x =? bound)%nat && wrap_next s then modify (set_wrap_next false) else step
  else step.

Definition control (c : ControlCode) : T unit :=
  pop_tmux_title_state;; flush_print;;
  match c with
  | ControlCode_LineFeed | ControlCode_VerticalTab | ControlCode_FormFeed => line_feed
  | ControlCode_CarriageReturn => modify carriage_return
  | ControlCode_Backspace => backspace
  | ControlCode_HorizontalTab => c0_horizontal_tab
  | ControlCode_HTS => c1_hts
  | ControlCode_IND => c1_index
  | ControlCode_NEL => c1_nel
  | ControlCode_Bell => emit Alert_Bell
  | ControlCode_RI => c1_reverse_index
  | ControlCode_ShiftIn => modify (set_shift_out false)
  | ControlCode_ShiftOut => modify (set_shift_out true)
  | ControlCode_Enquiry =>
      s ← gets id;
      match enq_answerback (term_config s) with [] => mret tt | a => write_bytes a end
  | _ => mret tt
  end.

(** ** CSI *)

(** The flags of the innermost keyboard state. *)
Definition current_kitty_flags (s : TermState) : Z :=
  match last (keyboard_stack (screen s)) with
  | Some (KeyboardEncoding_Kitty flags) => flags
  | _ => 0
  end.

Definition apply_kitty_mode (mode : KittyKeyboardMode) (current flags : Z) : Z :=
  match mode with
  | KittyKeyboardMode_AssignAll => flags
  | KittyKeyboardMode_SetSpecified => Z.lor current flags
  | KittyKeyboardMode_ClearSpecified => Z.ldiff current flags
  end.

Definition with_keyboard_stack (f : list KeyboardEncoding -> list KeyboardEncoding) (s : TermState)
  : TermState :=
  set_screen (set_keyboard_stack (f (keyboard_stack (screen s))) (screen s)) s.

Definition perform_keyboard (k : Keyboard) : T unit :=
  s ← gets id;
  let on := enable_kitty_keyboard (term_config s) in
  match k with
  | SetKittyState flags mode =>
      if on then
        let flags := apply_kitty_mode mode (current_kitty_flags s) flags in
        modify (with_keyboard_stack (fun st => removelast st ++ [KeyboardEncoding_Kitty flags]))
      else mret tt
  | PushKittyState flags mode =>
      if on then
        let flags := apply_kitty_mode mode (current_kitty_flags s) flags in
        modify (with_keyboard_stack (fun st =>
          let st := st ++ [KeyboardEncoding_Kitty flags] in
          if (128 <? length st)%nat then tail st else st))
      else mret tt
  | PopKittyState n => modify (with_keyboard_stack (fun st => take (length st - Z.to_nat n) st))
  | QueryKittySupport =>
      if on then write_bytes (27 :: bs "[?" ++ dec (current_kitty_flags s) ++ bs "u") else mret tt
  | ReportKittyState _ => mret tt
  end.

Definition csi_dispatch (csi : CSI) : T unit :=
  pop_tmux_title_state;; flush_print;;
  match csi with
  | CSI_Sgr sgr => modify (perform_csi_sgr sgr)
  | CSI_Cursor (Cursor_Left n) => repeat_n (Z.to_nat n) (control ControlCode_Backspace)
  | CSI_Cursor c => perform_csi_cursor c
  | CSI_Edit e => perform_csi_edit e
  | CSI_Mode m => perform_csi_mode m
  | CSI_Device d => perform_device d
  | CSI_Mouse _ => mret tt
  | CSI_Window w => perform_csi_window w
  | CSI_SelectCharacterPath CharacterPath_ImplementationDefault _ => modify (set_bidi_hint None)
  | CSI_SelectCharacterPath CharacterPath_LeftToRightOrTopToBottom _ =>
      modify (set_bidi_hint (Some Hint_LeftToRight))
  | CSI_SelectCharacterPath CharacterPath_RightToLeftOrBottomToTop _ =>
      modify (set_bidi_hint (Some Hint_RightToLeft))
  | CSI_Keyboard k => perform_keyboard k
  | CSI_Unspecified _ => mret tt
  end.

(** ** Escape codes *)

(** What [osc_dispatch] does with [SetIconNameAndWindowTitle]. *)
Definition set_icon_name_and_window_title (t : list Z) : T unit :=
  flush_print;;
  modify (set_title t ∘ set_icon_title None);;
  emit (Alert_WindowTitleChanged t);; emit (Alert_IconTitleChanged (Some t)).

(** A change to the line of the cursor. *)
Definition on_cursor_line (f : Line -> Line) : T unit :=
  s ← gets id;
  on_screen (fun sc => with_line (phys_row (cursor_y (cursor s)) sc) (Some ∘ f) sc).

(** DECALN. *)
Fixpoint fill_with_E (ys : list Z) (sq : Z) (sc : Screen) : option Screen :=
  match ys with
  | [] => Some sc
  | y :: ys =>
      sc ← with_line (phys_row y sc) (fun l =>
             fill_range O (physical_cols sc) (Cell_new "E"%ch blank_attrs) sq
               (Line.resize (physical_cols sc) sq l)) sc;
      fill_with_E ys sq sc
  end.

Definition full_margins (s : TermState) : TermState :=
  put_left_and_right_margins (O, physical_cols (screen s))
    (set_top_and_bottom_margins (0, Z.of_nat (physical_rows (screen s))) s).

Definition screen_alignment_display (sq : Z) : T unit :=
  s ← gets id;
  on_screen (fill_with_E (seqZ 0 (Z.of_nat (physical_rows (screen s)))) sq);;
  modify (set_cursor CursorPosition_default ∘ full_margins).

(** The fields that RIS resets before it clears the screens. *)
Definition reset_fields (s : TermState) : TermState :=
  let s := set_pen blank_attrs s in
  let s := set_cursor CursorPosition_default s in
  let s := set_wrap_next false s in
  let s := set_clear_semantic_attribute_on_newline false s in
  let s := set_insert_mode false s in
  let s := set_dec_auto_wrap true s in
  let s := set_reverse_wraparound_mode false s in
  let s := set_reverse_video_mode false s in
  let s := set_dec_origin_mode false s in
  let s := set_use_private_color_registers_for_each_graphic false s in
  let s := set_application_cursor_keys false s in
  let s := set_sixel_display_mode false s in
  let s := set_dec_ansi_mode false s in
  let s := set_application_keypad false s in
  let s := set_bracketed_paste false s in
  let s := set_focus_tracking false s in
  let s := set_mouse_tracking false s in
  let s := set_mouse_encoding MouseEncoding_X10 s in
  let s := set_keyboard_encoding KeyboardEncoding_Xterm s in
  let s := set_modify_other_keys None s in
  let s := set_sixel_scrolls_right false s in
  let s := set_any_event_mouse false s in
  let s := set_button_event_mouse false s in
  let s := set_cursor_visible true s in
  let s := set_g0_charset CharSet_Ascii s in
  let s := set_g1_charset CharSet_Ascii s in
  let s := set_shift_out false s in
  let s := set_newline_mode false s in
  let s := set_tabs (TabStop_new (physical_cols (screen s)) 8) s in
  let s := full_margins s in
  let s := set_left_and_right_margin_mode false s in
  let s := set_bidi_enabled None s in
  let s := set_bidi_hint None s in
  let s := set_unicode_version (config_unicode_version (term_config s)) s in
  let s := set_suppress_initial_title_change false s in
  let s := set_accumulating_title None s in
  set_alt_screen (Screen.full_reset (alt_screen s))
    (set_primary_screen (Screen.full_reset (primary_screen s)) s).

Definition full_reset (sq : Z) : T unit :=
  modify reset_fields;;
  activate_alt_screen sq;; erase_in_display EraseInDisplay_EraseDisplay;;
  activate_primary_screen sq;; erase_in_display EraseInDisplay_EraseScrollback;;
  erase_in_display EraseInDisplay_EraseDisplay;; palette_did_change.

Definition esc_dispatch (esc : Esc) : T unit :=
  s ← gets id;
  let sq := term_seqno s in
  flush_print;;
  (if bool_decide (esc = Esc_Code StringTerminator) then mret tt else pop_tmux_title_state);;
  match esc with
  | Esc_Unspecified _ _ => mret tt
  | Esc_Code code =>
      match code with
      | StringTerminator =>
          s ← gets id;
          match accumulating_title s with
          | Some t => modify (set_accumulating_title None);; set_icon_name_and_window_title t
          | None => mret tt
          end
      | TmuxTitle => modify (set_accumulating_title (Some []))
      | DecApplicationKeyPad => modify (set_application_keypad true)
      | DecNormalKeyPad => modify (set_application_keypad false)
      | ReverseIndex => c1_reverse_index
      | Index => c1_index
      | NextLine => c1_nel
      | HorizontalTabSet => c1_hts
      | DecLineDrawingG0 => modify (set_g0_charset CharSet_DecLineDrawing)
      | AsciiCharacterSetG0 => modify (set_g0_charset CharSet_Ascii)
      | UkCharacterSetG0 => modify (set_g0_charset CharSet_Uk)
      | DecLineDrawingG1 => modify (set_g1_charset CharSet_DecLineDrawing)
      | AsciiCharacterSetG1 => modify (set_g1_charset CharSet_Ascii)
      | UkCharacterSetG1 => modify (set_g1_charset CharSet_Uk)
      | DecSaveCursorPosition => modify dec_save_cursor
      | DecRestoreCursorPosition => modify dec_restore_cursor
      | DecDoubleHeightTopHalfLine => on_cursor_line (set_double_height_top sq)
      | DecDoubleHeightBottomHalfLine => on_cursor_line (set_double_height_bottom sq)
      | DecDoubleWidthLine => on_cursor_line (set_double_width sq)
      | DecSingleWidthLine => on_cursor_line (set_single_width sq)
      | DecScreenAlignmentDisplay => screen_alignment_display sq
      | FullReset => full_reset sq
      | _ => mret tt
      end
  end.

(** ** Actions *)

Definition perform (a : Action) : T unit :=
  match a with
  | Action_Print c => modify (print c)
  | Action_PrintString cs => modify (fun s => fold_left (fun s c => print c s) cs s)
  | Action_Control c => control c
  | Action_Esc e => esc_dispatch e
  | Action_CSI c => csi_dispatch c
  end.

Fixpoint perform_all (l : list Action) : T unit :=
  match l with [] => mret tt | a :: l => perform a;; perform_all l end.

(** The [Performer] flushes when it is dropped. *)
Definition perform_actions (l : list Action) : T unit :=
  modify increment_seqno;; perform_all l;; flush_print;; trigger_unseen_output_notif.
End Perform.
