(* ===== verification/TermHost.v ===== *)
(** What the host of a terminal calls: resizing, erasing the scrollback, focus, pasting and the
    semantic zones of [src/term/src/terminalstate/mod.rs], [NewlineCanon] of [config.rs], and
    [Terminal] with its parser of [terminal.rs]. *)

From Stdlib Require Import ZArith Lia String.
From S2P Require Import Prelude VtParse CallMonad Color CsiTypes CsiParse CharWidth Cell Line TermSize TermTypes Esc Screen Terminal TermPerform.
From stdpp Require Import base numbers list option gmap.
Local Open Scope Z_scope.

(** ** Pasting *)

Inductive NewlineCanon : Set :=
| NewlineCanon_None | NewlineCanon_LineFeed | NewlineCanon_CarriageReturn
| NewlineCanon_CarriageReturnAndLineFeed.

Definition target (n : NewlineCanon) : option (list Z) :=
  match n with
  | NewlineCanon_None => None
  | NewlineCanon_LineFeed => Some [10]
  | NewlineCanon_CarriageReturn => Some [13]
  | NewlineCanon_CarriageReturnAndLineFeed => Some [13; 10]
  end.

(** [after_cr]: a line feed now belongs to the carriage return before it. *)
Fixpoint canonicalize_from (canon : list Z) (after_cr : bool) (text : list Z) : list Z :=
  match text with
  | [] => []
  | c :: text =>
      if c =? 10 then
        (if after_cr then [] else canon) ++ canonicalize_from canon false text
      else if c =? 13 then canon ++ canonicalize_from canon true text
      else c :: canonicalize_from canon false text
  end.

Definition canonicalize (n : NewlineCanon) (text : list Z) : list Z :=
  match target n with None => text | Some canon => canonicalize_from canon false text end.

(** [str::replace] of a non-empty pattern by nothing. *)
Definition starts_with (pat l : list Z) : bool := bool_decide (take (length pat) l = pat).

Fixpoint remove_all (pat : list Z) (skip : nat) (l : list Z) : list Z :=
  match l with
  | [] => []
  | x :: r =>
      match skip with
      | S k => remove_all pat k r
      | O => if starts_with pat (x :: r) then remove_all pat (length pat - 1) r
             else x :: remove_all pat O r
      end
  end.

Definition paste_start : list Z := 27 :: bs "[200~".
Definition paste_end : list Z := 27 :: bs "[201~".

Section Host.
Context `{CharTables} `{Graphemes} `{BitSet} `{HyperlinkRules} `{Normalization}.

(** The configured canonical form of new lines is an argument. *)
Definition paste_bytes (configured : NewlineCanon) (text : list Z) (s : TermState) : list Z :=
  let canon := if bracketed_paste s then NewlineCanon_None else configured in
  let de_fanged := remove_all paste_end O (remove_all paste_start O (canonicalize canon text)) in
  if bracketed_paste s then paste_start ++ de_fanged ++ paste_end else de_fanged.

Definition send_paste (configured : NewlineCanon) (text : list Z) : T unit :=
  s ← gets id; write_bytes (paste_bytes configured text s).

Definition send_paste_and_submit (configured : NewlineCanon) (text : list Z) : T unit :=
  s ← gets id; write_bytes (paste_bytes configured text s ++ [13]).

(** ** Focus; the buttons that are released are in [Mouse] *)

Definition focus_changed (on : bool) : T unit :=
  s ← gets id;
  if Bool.eqb on (focused s) then mret tt
  else
    (if focus_tracking s then write_bytes (27 :: bs "[" ++ (if on then bs "I" else bs "O"))
     else mret tt);;
    modify (set_focused on);;
    if on then mret tt else modify (set_lost_focus_seqno (term_seqno s)).

(** ** Scrollback *)

Definition host_erase_scrollback : T unit :=
  modify increment_seqno;; on_screen erase_scrollback.

(** The loop that puts rows at the top. *)
Fixpoint put_rows (idx : nat) (rows : list Line) (sc : Screen) : option Screen :=
  match rows with
  | [] => Some sc
  | l :: rows => sc ← with_line idx (fun _ => Some l) sc; put_rows (S idx) rows sc
  end.

Definition erase_scrollback_and_viewport : T unit :=
  modify increment_seqno;;
  erase_in_display EraseInDisplay_EraseScrollback;;
  s ← gets id;
  let row_index := phys_row (cursor_y (cursor s)) (screen s) in
  rows ← lift (lines_in_phys_range (row_index, row_index + 1)%nat (screen s));
  erase_in_display EraseInDisplay_EraseDisplay;;
  on_screen (put_rows O rows);;
  modify (put_y 0).

(** ** Resizing *)

Definition resized_saved_cursor (sq : Z) (c : CursorPosition) (saved : SavedCursor) : SavedCursor :=
  let p := position saved in
  mkSavedCursor (mkCursor (cursor_x c) (cursor_y c) (cursor_shape p) (cursor_visibility p) sq)
    false (saved_pen saved) (saved_dec_origin_mode saved) (saved_g0_charset saved)
    (saved_g1_charset saved).

Definition saved_position (sc : Screen) : CursorPosition :=
  from_option position CursorPosition_default (saved_cursor sc).

(** The cursor of the screen that is not active is its saved one. *)
Definition term_resize (size : TerminalSize) (s : TermState) : option TermState :=
  let s := increment_seqno s in
  let sq := term_seqno s in
  let alt := alt_screen_is_active s in
  let '(cursor_main, cursor_alt) :=
    if alt then (saved_position (primary_screen s), cursor s)
    else (cursor s, saved_position (alt_screen s)) in
  '(main, cursor_main) ← screen_resize size cursor_main sq (enable_conpty_quirks s)
                           (primary_screen s);
  '(other, cursor_alt) ← screen_resize size cursor_alt sq (enable_conpty_quirks s) (alt_screen s);
  let s := set_alt_screen other (set_primary_screen main s) in
  let s := set_top_and_bottom_margins (0, rows size) s in
  let s := put_left_and_right_margins (O, Z.to_nat (cols size)) s in
  let s := set_term_pixel_height (pixel_height size) s in
  let s := set_term_pixel_width (pixel_width size) s in
  let s := set_term_dpi (dpi size) s in
  let s := set_tabs (TabStop_resize (Z.to_nat (cols size)) (tabs s)) s in
  let go c := set_cursor_pos (Absolute (Z.of_nat (cursor_x c))) (Absolute (cursor_y c)) s in
  let move c sc := set_saved_cursor (resized_saved_cursor sq c <$> saved_cursor sc) sc in
  Some (if alt then let s := go cursor_alt in
                    set_primary_screen (move cursor_main (primary_screen s)) s
        else let s := go cursor_main in
             set_alt_screen (move cursor_alt (alt_screen s)) s).

(** ** Semantic zones *)

Record SemanticZone : Set := mkSemanticZone {
  zone_start_y : Z; zone_start_x : Z; zone_end_y : Z; zone_end_x : Z;
  zone_semantic_type : SemanticType
}.

(** One range of a line: it extends the zone in progress or starts a new one. *)
Definition zone_step (row : Z) (st : list SemanticZone * option SemanticZone) (r : ZoneRange)
  : list SemanticZone * option SemanticZone :=
  match st.2 with
  | Some z =>
      if bool_decide (zone_semantic_type z = zone_type r)
      then (st.1, Some (mkSemanticZone (zone_start_y z) (zone_start_x z) row (zone_end r)
                          (zone_semantic_type z)))
      else (st.1 ++ [z],
            Some (mkSemanticZone row (zone_start r) row (zone_end r) (zone_type r)))
  | None => (st.1, Some (mkSemanticZone row (zone_start r) row (zone_end r) (zone_type r)))
  end.

(** The lines keep the ranges they computed. *)
Fixpoint zones_of_lines (row : Z) (ls : list Line) (st : list SemanticZone * option SemanticZone)
  : option (list Line * (list SemanticZone * option SemanticZone)) :=
  match ls with
  | [] => Some ([], st)
  | l :: ls =>
      '(l, rs) ← semantic_zone_ranges l;
      '(ls, st) ← zones_of_lines (row + 1) ls (fold_left (zone_step row) rs st);
      Some (l :: ls, st)
  end.

Definition get_semantic_zones (s : TermState) : option (TermState * list SemanticZone) :=
  let sc := screen s in
  '(ls, (zones, current)) ← zones_of_lines (phys_to_stable_row_index O sc) (lines sc) ([], None);
  Some (set_screen (set_lines ls sc) s, zones ++ opt_list current).

(** ** [Terminal] *)

Context `{Utf8Parse}.

Record Terminal : Type := mkTerminal { state : TermState; parser : VTParser }.

Definition Terminal_new (size : TerminalSize) (cfg : TerminalConfiguration)
  (program version : list Z) : Terminal :=
  mkTerminal (TermState_new size cfg program version) vt_new.

(** The actions are performed as they are parsed, which is in order. *)
Definition advance_bytes (bytes : list Z) (t : Terminal) : option (Terminal * list TermEvent) :=
  '(p, events) ← parse bytes (parser t);
  actions ← perform_events events;
  '(_, s, out) ← perform_actions actions (state t);
  Some (mkTerminal s p, out).

End Host.
