(* ===== verification/TermSafe.v ===== *)
(** The safety of the terminal on plain text: from a state whose screens hold plain lines and
    whose cursor and margins lie in the screen, every action but the few that are listed
    returns, and leads to such a state of the same size again. So the terminal answers a status
    request whatever it was sent before. *)

From Stdlib Require Import ZArith Lia String.
From S2P Require Import Prelude CallMonad Post Color CsiTypes CharWidth Cell CellProps Line LineProps LineEdit LineSafe TermSize TermTypes Esc Screen ScreenProps ScreenSafe Terminal TermPerform.
From stdpp Require Import base numbers list option gmap.
Local Open Scope Z_scope.

Lemma as_u32_id z : 0 <= z <= u32_max -> as_u32 z = z.
Proof. intros Hz. apply Z.mod_small. unfold u32_max in Hz. lia. Qed.

(** The graphemes that a terminal prints as one cell: normal, closed under the character
    sets, of one column (or of none, which are not printed). *)
Class PrintableText `{CharTables} `{Graphemes} `{Normalization} (G : list Z -> Prop)
  (v : UnicodeVersion) : Prop := {
  printable_normal gs : Forall G gs -> nfc (concat gs) = concat gs;
  printable_line_drawing c c' : G [c] -> line_drawing c = Some c' -> G (encode_utf8 c');
  printable_pound : G (bs "#") -> G (encode_utf8 0xA3);
  printable_width g : G g -> 0 <= grapheme_column_width g (Some v) <= 1;
  printable_E : G (bs "E")
}.

Ltac step := Post.step; cbv beta delta [id].

(** The computation starts by looking at the state. *)
Ltac with_state s Hs := apply keeps_gets; intros s Hs; cbv beta delta [id].

(** The outermost choice. *)
Ltac branch := match goal with |- returns (if ?b then _ else _) _ _ => destruct b end.

(** The batches of actions that a terminal is given, one after the other. *)
Fixpoint perform_batches `{CharTables} `{Graphemes} `{BitSet} `{HyperlinkRules} `{Normalization}
  (ls : list (list Action)) : T unit :=
  match ls with [] => mret tt | l :: ls => perform_actions l;; perform_batches ls end.

Section Safe.
Context `{CharTables} `{Graphemes} `{BitSet} `{!BitSetLaws} `{HyperlinkRules} `{Normalization}.
Context (G : list Z -> Prop) `{!SimpleText G}.
Context (max_cols : nat) (Hmax : Z.of_nat max_cols <= u16_max).
Context (v : UnicodeVersion) `{!PrintableText G v}.
(** The size of the screens, and whether origin mode may be used. *)
Context (R C : nat) (origins : bool).

Abbreviation plain_screen := (plain_screen G max_cols).

Definition saved_origin (sc : Screen) : bool := from_option saved_dec_origin_mode false (saved_cursor sc).

(** A screen of the terminal. *)
Record term_screen (sc : Screen) : Prop := {
  ts_plain : plain_screen sc;
  ts_rows : physical_rows sc = R;
  ts_cols : physical_cols sc = C;
  ts_origin : origins = false -> saved_origin sc = false
}.

(** The cursor can be one column past the last. *)
Record plain_term (s : TermState) : Prop := {
  pt_primary : term_screen (primary_screen s);
  pt_alt : term_screen (alt_screen s);
  pt_x : (cursor_x (cursor s) <= C)%nat;
  pt_y : 0 <= cursor_y (cursor s) < Z.of_nat R;
  pt_region : 0 <= (top_and_bottom_margins s).1 < (top_and_bottom_margins s).2 /\
              (top_and_bottom_margins s).2 <= Z.of_nat R;
  pt_margins : ((left_and_right_margins s).1 < (left_and_right_margins s).2 <= C)%nat;
  pt_version : unicode_version s = v;
  pt_config : config_unicode_version (term_config s) = v;
  pt_print : exists gs, Forall G gs /\ print_buffer s = concat gs;
  pt_origin : origins = false -> dec_origin_mode s = false;
  pt_height : Z.of_nat R <= u32_max
}.

(** The fields that the invariant looks at. *)
Definition view (s : TermState) :=
  (primary_screen s, alt_screen s, cursor_x (cursor s), cursor_y (cursor s),
   top_and_bottom_margins s, left_and_right_margins s, unicode_version s, term_config s,
   print_buffer s, dec_origin_mode s).

Lemma plain_view s s' : view s' = view s -> plain_term s -> plain_term s'.
Proof.
  unfold view. intros [= E1 E2 E3 E4 E5 E6 E7 E8 E9 E10] [].
  split; rewrite ?E1, ?E2, ?E3, ?E4, ?E5, ?E6, ?E7, ?E8, ?E9, ?E10; done.
Qed.

Lemma keeps_view (f : TermState -> TermState) : (forall s, view (f s) = view s) -> keeps plain_term (modify f : T unit).
Proof. intros Hf. apply keeps_modify. intros s. by apply plain_view. Qed.

Lemma plain_active s : plain_term s -> term_screen (screen s).
Proof. intros []. unfold screen. by case_match. Qed.

Lemma term_cols s : plain_term s -> (1 <= C < max_cols)%nat.
Proof. intros Hs. destruct (pt_primary s Hs) as [[_ _ Hc _] _ <- _]. done. Qed.

Lemma plain_set_screen sc s : plain_term s -> term_screen sc -> plain_term (set_screen sc s).
Proof. intros [] Hsc. unfold set_screen. by case_match; split. Qed.

Lemma term_screen_same sc sc' : term_screen sc -> plain_screen sc' -> same_size sc sc' -> term_screen sc'.
Proof.
  intros [Hp Hr Hc Ho] Hp' (E1 & E2 & E3). split; [done|congruence..|]. unfold saved_origin. by rewrite E3.
Qed.

(** What an operation on the screen leaves alone. *)
Definition frame (s : TermState) :=
  (cursor s, top_and_bottom_margins s, left_and_right_margins s).

Lemma frame_set_screen sc s : frame (set_screen sc s) = frame s.
Proof. unfold set_screen. by case_match. Qed.

Lemma on_screen_returns f s :
  plain_term s -> (term_screen (screen s) -> keeps_screen G max_cols f (screen s)) ->
  returns (on_screen f) s (fun _ s' _ => plain_term s' /\ frame s' = frame s).
Proof.
  intros Hs Hf. pose proof (plain_active s Hs) as Hsc. unfold on_screen. do 2 step.
  eapply yields_weaken; [by apply Hf|]. cbv beta. intros sc [Hp Hsz]. step.
  split; [|apply frame_set_screen]. apply plain_set_screen; [done|]. by eapply term_screen_same.
Qed.

Lemma on_screen_keeps f s :
  plain_term s -> (term_screen (screen s) -> keeps_screen G max_cols f (screen s)) ->
  returns (on_screen f) s (fun _ s' _ => plain_term s').
Proof. intros Hs Hf. eapply returns_weaken; [by apply on_screen_returns|]. by intros ? ? ? []. Qed.

(** ** The cursor *)

Lemma plain_put_cursor x y sq s :
  plain_term s -> (x <= C)%nat -> 0 <= y < Z.of_nat R -> plain_term (put_cursor x y sq s).
Proof. by intros []; split. Qed.

Lemma plain_clear_semantic s : plain_term s -> plain_term (clear_semantic_attribute_due_to_movement s).
Proof. apply plain_view. unfold clear_semantic_attribute_due_to_movement. by case_match. Qed.

Lemma plain_absolute x y s :
  plain_term s -> (x <= C)%nat -> 0 <= y < Z.of_nat R -> plain_term (set_cursor_position_absolute x y s).
Proof.
  intros Hs Hx Hy. unfold set_cursor_position_absolute.
  apply (plain_view (put_cursor x y (term_seqno s) (if cursor_y (cursor s) =? y then s
           else clear_semantic_attribute_due_to_movement s))).
  - case_match; [done|]. unfold clear_semantic_attribute_due_to_movement. by case_match.
  - apply plain_put_cursor; [|done..]. case_match; [done|]. by apply plain_clear_semantic.
Qed.

(** Every position is clamped into the screen. *)
Lemma plain_cursor_pos x y s : plain_term s -> plain_term (set_cursor_pos x y s).
Proof.
  intros Hs. pose proof (term_cols s Hs). pose proof (plain_active s Hs) as [_ Er Ec _].
  pose proof (pt_y s Hs). pose proof (pt_region s Hs). pose proof (pt_margins s Hs).
  apply plain_absolute; [done|..]; unfold resolve_x, resolve_y;
    destruct (left_and_right_margins s) as [l r], (top_and_bottom_margins s) as [t b];
    cbn [fst snd] in *; rewrite ?Er, ?Ec; [destruct x|destruct y]; case_match; lia.
Qed.

(** A move inside the screen. *)
Lemma keeps_move x y sq s :
  plain_term s -> (x <= C)%nat -> 0 <= y < Z.of_nat R ->
  returns (modify (set_wrap_next false ∘ put_cursor x y sq) : T unit) s (fun _ s' _ => plain_term s').
Proof.
  intros Hs Hx Hy. step. apply (plain_view (put_cursor x y sq s)); [done|]. by apply plain_put_cursor.
Qed.

Lemma keeps_cursor_pos x y : keeps plain_term (modify (set_cursor_pos x y) : T unit).
Proof. apply keeps_modify. intros s. apply plain_cursor_pos. Qed.

Lemma keeps_repeat n (m : T unit) : keeps plain_term m -> keeps plain_term (repeat_n n m).
Proof. intros Hm. induction n as [|n IH]; [apply keeps_ret|]. by apply keeps_bind. Qed.

(** ** Scrolling and new lines *)

Lemma region_in_screen s : plain_term s -> region_ok (top_and_bottom_margins s) (screen s).
Proof.
  intros Hs. pose proof (pt_region s Hs). destruct (plain_active s Hs) as [_ Er _ _]. red. rewrite Er. lia.
Qed.

Lemma margins_in_screen s : plain_term s -> margins_ok (left_and_right_margins s) (screen s).
Proof.
  intros Hs. pose proof (pt_margins s Hs). destruct (plain_active s Hs) as [_ _ Ec _]. red. rewrite Ec. lia.
Qed.

Lemma scroll_up_returns n s :
  plain_term s -> returns (term_scroll_up n) s (fun _ s' _ => plain_term s' /\ frame s' = frame s).
Proof.
  intros Hs. unfold term_scroll_up. step. apply on_screen_returns; [done|]. intros [Hp _ _ _].
  apply plain_scroll_up_within; [done..|by apply region_in_screen|by apply margins_in_screen].
Qed.

Lemma scroll_down_returns n s :
  plain_term s -> returns (term_scroll_down n) s (fun _ s' _ => plain_term s').
Proof.
  intros Hs. unfold term_scroll_down. step. apply on_screen_keeps; [done|]. intros [Hp _ _ _].
  apply plain_scroll_down_within; [done..|by apply region_in_screen|by apply margins_in_screen].
Qed.

Lemma keeps_scroll_up n : keeps plain_term (term_scroll_up n).
Proof. intros s Hs. eapply returns_weaken; [by apply scroll_up_returns|]. by intros ? ? ? []. Qed.

Lemma keeps_scroll_down n : keeps plain_term (term_scroll_down n).
Proof. intros s Hs. by apply scroll_down_returns. Qed.

Lemma keeps_new_line b : keeps plain_term (new_line b).
Proof.
  with_state s Hs. cbv zeta.
  eapply returns_keeps_bind; [|exact Hs|intros y s' _ Hs'; by apply keeps_cursor_pos].
  case_match; [|apply keeps_ret]. apply keeps_bind; [apply keeps_scroll_up|]. intros _. apply keeps_ret.
Qed.

Lemma keeps_index : keeps plain_term c1_index.
Proof.
  with_state s Hs. repeat case_match; [by apply keeps_scroll_up|by apply keeps_cursor_pos|done].
Qed.

Lemma keeps_reverse_index : keeps plain_term c1_reverse_index.
Proof.
  with_state s Hs. repeat case_match; [by apply keeps_scroll_down|by apply keeps_cursor_pos|done].
Qed.

Lemma keeps_nel : keeps plain_term c1_nel.
Proof.
  with_state s Hs. pose proof (pt_y s Hs) as Hy. pose proof (pt_x s Hs) as Hx.
  pose proof (pt_region s Hs) as Hr. pose proof (pt_margins s Hs) as Hm.
  destruct (plain_active s Hs) as [_ Er _ _]. rewrite Er. unfold in_rows, in_cols.
  destruct (left_and_right_margins s) as [l r] eqn:El, (top_and_bottom_margins s) as [t b].
  cbn [fst snd] in *. cbv zeta.
  destruct ((l <=? cursor_x (cursor s))%nat && (cursor_x (cursor s) <? r)%nat).
  - destruct (Z.eqb_spec (cursor_y (cursor s)) (b - 1)).
    + eapply returns_bind; [by apply scroll_up_returns|]. intros _ s' _ [Hs' Ef]. step.
      apply plain_absolute; [done|lia|]. by apply pt_y.
    + step. apply plain_absolute; [done|lia|]. case_match; bool_to_prop; lia.
  - step. apply plain_absolute; [done|case_match; bool_to_prop; lia|]. case_match; bool_to_prop; lia.
Qed.

Lemma keeps_tab : keeps plain_term c0_horizontal_tab.
Proof.
  with_state s Hs. pose proof (pt_margins s Hs) as Hm. step.
  apply yields_usize_sub; [lia|]. step. apply plain_put_cursor; [done|lia|by apply pt_y].
Qed.

(** ** Printing *)

Lemma plain_remap g s : G g -> G (remap_grapheme g s).
Proof.
  intros Hg. unfold remap_grapheme. destruct (current_charset s); [done| |].
  - destruct g as [|c []]; try done. case_match; [|done]. bool_to_prop. subst c. by apply printable_pound.
  - destruct g as [|c []]; try done. destruct (line_drawing c) as [c'|] eqn:E; [|done]. cbn.
    by apply (printable_line_drawing c).
Qed.

Lemma keeps_wrap_line sq : keeps plain_term (wrap_line sq).
Proof.
  with_state s Hs. eapply returns_bind; [apply on_screen_returns; [done|]|].
  - intros [Hp Er _ _]. apply plain_with_line; [done| |].
    + apply phys_row_lt with (G := G) (max_cols := max_cols); [done|]. rewrite Er. by apply pt_y.
    + intros l Hl. pose proof (term_cols s Hs). case_match; [apply plain_set_wrapped; try done; lia|done].
  - intros _ s' _ [Hs' _]. by apply keeps_new_line.
Qed.

Lemma plain_screen_n n f sc :
  (forall sc, term_screen sc -> keeps_screen G max_cols f sc) -> term_screen sc ->
  keeps_screen G max_cols (screen_n n f) sc.
Proof.
  intros Hf. revert sc. induction n as [|n IH]; intros sc Hsc; [by split; [apply Hsc|]|].
  cbn [screen_n]. apply keeps_bind_screen; [by apply Hf|]. intros sc' Hp Hsz. apply IH.
  by eapply term_screen_same.
Qed.

Lemma keeps_print_grapheme sq g : G g -> keeps plain_term (print_grapheme sq g).
Proof.
  intros Hg. with_state s Hs. cbv zeta. pose proof (plain_remap g s Hg) as Hg'.
  pose proof (printable_width _ Hg') as Hw. rewrite (pt_version s Hs). revert Hg' Hw.
  generalize (remap_grapheme g s). clear g Hg. intros g Hg Hw.
  destruct (_ && _); [done|].
  assert ((if grapheme_column_width g (Some v) =? 0 then 1 else grapheme_column_width g (Some v)) = 1)
    as -> by (destruct (Z.eqb_spec (grapheme_column_width g (Some v)) 0); lia).
  eapply returns_keeps_bind; [|exact Hs|].
  { case_match; [apply keeps_wrap_line|apply keeps_ret]. }
  clear s Hs. intros _ s _ Hs. step. cbv zeta.
  pose proof (pt_x s Hs) as Hx. pose proof (pt_y s Hs) as Hy. pose proof (pt_margins s Hs) as Hm.
  eapply returns_bind with (P := fun _ s' _ => plain_term s' /\ frame s' = frame s).
  { destruct (insert_mode s); [|done]. apply on_screen_returns; [done|]. intros Hsc.
    apply plain_screen_n; [|done]. intros sc [Hp Er Ec _].
    apply plain_screen_insert; rewrite ?Er, ?Ec; try done; lia. }
  intros _ s1 _ [Hs1 [= E1 _ E3]].
  eapply returns_bind with (P := fun _ s' _ => plain_term s' /\ frame s' = frame s1).
  { apply on_screen_returns; [done|]. intros [Hp Er Ec _].
    apply plain_screen_set_grapheme; rewrite ?Er, ?Ec; try done; lia. }
  intros _ s2 _ [Hs2 [= E4 _ E5]]. change (Z.to_nat 1) with 1%nat.
  destruct (Nat.leb_spec (left_and_right_margins s).2 (cursor_x (cursor s) + 1)); step.
  - by apply (plain_view s2).
  - apply (plain_view (put_x (cursor_x (cursor s) + 1) s2)); [done|].
    apply plain_put_cursor; [done|lia|by apply pt_y].
Qed.

Lemma keeps_print_graphemes sq gs : Forall G gs -> keeps plain_term (print_graphemes sq gs).
Proof.
  induction 1 as [|g gs Hg _ IH]; [apply keeps_ret|].
  cbn [print_graphemes]. apply keeps_bind; [by apply keeps_print_grapheme|]. done.
Qed.

Lemma keeps_flush : keeps plain_term flush_print.
Proof.
  with_state s Hs. destruct (print_buffer s) as [|b bs] eqn:Ep; [done|].
  destruct (pt_print s Hs) as (gs & Hgs & Eb). step. cbv zeta. rewrite Ep in Eb. rewrite Eb.
  rewrite (printable_normal gs Hgs).
  assert ((if normalize_output_to_unicode_nfc (term_config s) then concat gs else concat gs) = concat gs)
    as -> by by case_match.
  rewrite simple_segments by done. apply keeps_print_graphemes; [done|].
  destruct Hs; split; try done. by exists [].
Qed.

Lemma plain_print c s : G (encode_utf8 c) -> plain_term s -> plain_term (print c s).
Proof.
  intros Hc Hs. unfold print. case_match; [by apply (plain_view s)|].
  destruct (pt_print s Hs) as (gs & Hgs & Eb). destruct Hs; split; try done.
  exists (gs ++ [encode_utf8 c]). split; [by apply Forall_app; split; [|apply Forall_singleton]|]. cbn. rewrite concat_app, Eb. cbn. by rewrite app_nil_r.
Qed.

(** ** Controls *)

Lemma keeps_line_feed : keeps plain_term line_feed.
Proof.
  with_state s Hs. eapply returns_bind with (P := fun _ s' _ => plain_term s').
  - case_match; [by apply keeps_new_line|]. cbv zeta.
    pose proof (pt_y s Hs) as Hy. destruct (plain_active s Hs) as [Hp Er Ec Ho]. rewrite Er. do 2 step.
    set (y := if _ =? _ then _ else _).
    assert (Hy' : 0 <= y < Z.of_nat R) by (unfold y; case_match; lia).
    set (sc1 := dirty_line (cursor_y (cursor s)) (term_seqno s) (screen s)).
    destruct (plain_dirty_line G max_cols (cursor_y (cursor s)) (term_seqno s) (screen s) Hp) as [Hp1 Hz1].
    destruct (plain_dirty_line G max_cols y (term_seqno s) sc1 Hp1) as [Hp2 Hz2].
    assert (Hs' : plain_term (set_screen (dirty_line y (term_seqno s) sc1) s)).
    { apply plain_set_screen; [done|]. apply (term_screen_same (screen s)); [by split|done|].
      by eapply same_size_trans. }
    apply (plain_view (put_y y (set_screen (dirty_line y (term_seqno s) sc1) s))); [done|].
    apply plain_put_cursor; [done|by apply pt_x|done].
  - clear s Hs. intros _ s _ Hs. step. case_match; [|done]. step. apply plain_clear_semantic.
    apply plain_put_cursor; [done|lia|by apply pt_y].
Qed.

Lemma plain_carriage_return s : plain_term s -> plain_term (carriage_return s).
Proof.
  intros Hs. unfold carriage_return. cbv zeta. pose proof (pt_margins s Hs) as Hm.
  set (s1 := clear_semantic_attribute_due_to_movement _).
  assert (Hs1 : plain_term s1).
  { apply plain_clear_semantic. set (x := if (_ <=? _)%nat then _ else _).
    apply (plain_view (put_x x s)); [done|].
    apply plain_put_cursor; [done|unfold x; case_match; lia|by apply pt_y]. }
  clearbody s1. destruct (plain_active s1 Hs1) as [Hp Er Ec Ho]. apply plain_set_screen; [done|].
  destruct (plain_dirty_line G max_cols (cursor_y (cursor s1)) (term_seqno s1) (screen s1) Hp) as [Hp' Hz].
  by apply (term_screen_same (screen s1)).
Qed.

Lemma keeps_backspace : keeps plain_term backspace.
Proof.
  with_state s Hs. cbv zeta. pose proof (pt_margins s Hs) as Hm.
  destruct (left_and_right_margins s) as [l r] eqn:El, (top_and_bottom_margins s) as [t b].
  cbn [fst snd] in *.
  assert (Hstep : returns (if (cursor_x (cursor s) =? l)%nat then mret tt
    else modify (set_cursor_pos (Relative (-1)) (Relative 0)) : T unit) s (fun _ s' _ => plain_term s'))
    by (case_match; [done|by apply keeps_cursor_pos]).
  branch; [by apply keeps_cursor_pos|]. branch; [by apply keeps_cursor_pos|].
  branch; [|exact Hstep]. step. apply yields_usize_sub; [lia|]. branch; [|exact Hstep].
  step. by apply (plain_view s).
Qed.

Lemma keeps_control c : c <> ControlCode_HTS -> keeps plain_term (control c).
Proof.
  intros Hc. unfold control. apply keeps_bind; [by apply keeps_view|]. intros _.
  apply keeps_bind; [apply keeps_flush|]. intros _.
  destruct c; try done; try (by apply keeps_view); try apply keeps_ret; try apply keeps_emit.
  - with_state s Hs. case_match; [done|apply keeps_emit, Hs].
  - apply keeps_backspace.
  - apply keeps_tab.
  - apply keeps_line_feed.
  - apply keeps_line_feed.
  - apply keeps_line_feed.
  - apply keeps_modify, plain_carriage_return.
  - apply keeps_index.
  - apply keeps_nel.
  - apply keeps_reverse_index.
Qed.

(** ** Editing *)

Lemma plain_clear_rows ys cols a sq bidi sc :
  term_screen sc -> Forall (fun y => y < Z.of_nat R) ys -> (cols.2 <= S C)%nat ->
  keeps_screen G max_cols (clear_rows ys cols a sq bidi) sc.
Proof.
  intros Hsc Hy Hc. revert sc Hsc. induction Hy as [|y ys Hy _ IH]; intros sc Hsc; [by split; [apply Hsc|]|].
  cbn [clear_rows]. pose proof Hsc as [Hp Er Ec _]. apply keeps_bind_screen.
  - apply plain_clear_line; rewrite ?Er, ?Ec; done.
  - intros sc1 Hp1 Hz1. pose proof (term_screen_same _ _ Hsc Hp1 Hz1) as Hsc1.
    unfold keeps_screen. eapply yields_bind.
    + apply (plain_with_line G max_cols); [done| |].
      * apply phys_row_lt with (G := G) (max_cols := max_cols); [done|]. by rewrite (ts_rows _ Hsc1).
      * intros l Hl. by apply plain_single.
    + intros sc2 [Hp2 Hz2]. apply (plain_rest G max_cols _ sc1); [|done]. apply IH.
      by eapply term_screen_same.
Qed.

Lemma keeps_erase_in_line e : keeps plain_term (erase_in_line e).
Proof.
  with_state s Hs. cbv zeta. apply on_screen_keeps; [done|]. intros [Hp Er Ec _].
  pose proof (pt_y s Hs). pose proof (pt_x s Hs).
  apply plain_clear_line; try done; [rewrite Er; lia|]. rewrite Ec. destruct e; cbn; lia.
Qed.

Lemma keeps_erase_in_display e : keeps plain_term (erase_in_display e).
Proof.
  with_state s Hs. cbv zeta. destruct (plain_active s Hs) as [Hp Er Ec _]. rewrite Er, Ec.
  pose proof (pt_y s Hs) as Hy.
  assert (Hclear : forall a sq first last, last <= Z.of_nat R -> keeps plain_term (s' ← gets id;
    on_screen (clear_rows (seqZ first (last - first)) (O, C) a sq (get_bidi_mode s')) : T unit)).
  { intros a sq first last Hl. with_state s' Hs'. apply on_screen_keeps; [done|].
    intros Hsc. apply plain_clear_rows; [done| |cbn; lia].
    apply Forall_forall. intros y Hin%elem_of_seqZ. lia. }
  destruct e.
  - eapply returns_keeps_bind; [apply keeps_erase_in_line|done|]. intros _ s' _. apply Hclear. lia.
  - eapply returns_keeps_bind; [apply keeps_erase_in_line|done|]. intros _ s' _. apply Hclear. lia.
  - by apply Hclear.
  - apply on_screen_keeps; [done|]. intros _. by apply plain_erase_scrollback.
Qed.

Lemma plain_repeated x cells : Forall (plain_cell G) cells -> yields (repeated_cell x cells) (plain_cell G).
Proof.
  intros Hc. unfold repeated_cell. cbv zeta. destruct (cells !! (x - 1)%nat) as [c|] eqn:E.
  - pose proof (Forall_lookup_1 _ _ _ _ Hc E) as Hpc. case_match; [|apply yields_Some; by rewrite (plain_clone G)].
    bool_to_prop. eapply yields_bind; [apply yields_lookup; [|exact Hc]|].
    + apply lookup_lt_Some in E. lia.
    + intros p Hpp. apply yields_Some. case_match; by rewrite (plain_clone G).
  - apply yields_Some. by apply plain_blank.
Qed.

(** The column and the row of the loop stay in the screen. *)
Lemma repeat_loop_returns n c m region sq x y s :
  plain_term s -> plain_cell G c -> (m.1 < m.2 <= C)%nat -> (0 <= region.2 <= Z.of_nat R) ->
  (x <= C)%nat -> 0 <= y < Z.of_nat R ->
  returns (repeat_loop n c m region sq x y) s
    (fun '(x, y) s' _ => plain_term s' /\ (x <= C)%nat /\ 0 <= y < Z.of_nat R).
Proof.
  intros Hs Hc Hm Hr. revert x y s Hs. induction n as [|n IH]; intros x y s Hs Hx Hy; [done|].
  cbn [repeat_loop]. eapply returns_bind.
  { apply on_screen_keeps; [done|]. intros [Hp Er Ec _]. pose proof (term_cols s Hs). apply plain_with_line; [done| |].
    - apply phys_row_lt with (G := G) (max_cols := max_cols); [done|]. rewrite Er; lia.
    - intros l Hl. rewrite (plain_clone G) by done. apply plain_set_cell; try done. lia. }
  cbv beta. intros ? s1 ? Hs1. step. apply yields_usize_sub; [lia|]. cbv zeta.
  eapply returns_bind with
    (P := fun '(x, y) s' _ => plain_term s' /\ (x <= C)%nat /\ 0 <= y < Z.of_nat R).
  - destruct (Nat.ltb_spec (m.2 - 1) (S x)); [|step; split; [done|split; [lia|done]]].
    destruct (Z.eqb_spec y (region.2 - 1)).
    + eapply returns_keeps_bind; [apply keeps_scroll_up|done|]. intros ? s2 ? Hs2. step.
      split; [done|]. split; [lia|done].
    + step. split; [done|]. split; [lia|]. case_match; bool_to_prop; lia.
  - intros [x' y'] s2 ? (Hs2 & Hx' & Hy'). eapply returns_weaken; [by apply IH|]. by intros [].
Qed.

Lemma plain_erase_loop y a sq xs sc :
  0 <= y < Z.of_nat R -> Forall (fun x => x <= C)%nat xs -> term_screen sc ->
  yields (foldl (fun acc x => sc ← acc; screen_set_cell x y (blank_with_attrs a) sq sc) (Some sc) xs)
    (fun sc' => plain_screen sc' /\ same_size sc sc').
Proof.
  intros Hy Hxs. revert sc. induction Hxs as [|x xs Hx _ IH]; intros sc Hsc; [by split; [apply Hsc|]|].
  cbn [foldl mbind option_bind]. pose proof Hsc as [Hp Er Ec _].
  pose proof (plain_screen_set_cell G max_cols x y (blank_with_attrs a) sq sc Hp) as Hset.
  rewrite Er, Ec in Hset. specialize (Hset Hx (proj2 Hy) (plain_blank G a)).
  apply yields_exists in Hset as (sc' & -> & Hp' & Hz).
  eapply yields_weaken; [apply IH; by eapply term_screen_same|].
  cbv beta. intros sc'' [Hp'' Hz']. split; [done|]. by eapply same_size_trans.
Qed.

Lemma keeps_edit e : keeps plain_term (perform_csi_edit e).
Proof.
  with_state s Hs. cbv zeta. pose proof (plain_active s Hs) as [Hp Er Ec Ho].
  pose proof (pt_y s Hs) as Hy. pose proof (pt_x s Hs) as Hx.
  pose proof (pt_region s Hs) as Hr. pose proof (pt_margins s Hs) as Hm.
  unfold in_rows, in_cols. destruct e.
  - destruct (_ && _) eqn:E; [|done]. bool_to_prop. apply on_screen_keeps; [done|]. intros Hsc.
    apply plain_screen_n; [|done]. intros sc [Hp' Er' Ec' _]. apply plain_screen_erase; rewrite ?Er', ?Ec'; try done; lia.
  - destruct (_ && _) eqn:E; [|done]. bool_to_prop. apply on_screen_keeps; [done|]. intros Hsc.
    apply plain_scroll_up_within; [done..| |by apply margins_in_screen]. red. rewrite Er. cbn. lia.
  - apply on_screen_keeps; [done|]. intros Hsc. rewrite Ec. apply plain_erase_loop; [done| |done].
    apply Forall_forall. intros x Hin%elem_of_seq. lia.
  - by apply keeps_erase_in_line.
  - destruct (_ && _) eqn:E; [|done]. bool_to_prop. apply on_screen_keeps; [done|]. intros Hsc.
    apply plain_screen_n; [|done]. intros sc [Hp' Er' Ec' _]. apply plain_screen_insert; rewrite ?Er', ?Ec'; try done; lia.
  - destruct (_ && _) eqn:E; [|done]. bool_to_prop. apply on_screen_keeps; [done|]. intros Hsc.
    apply plain_scroll_down_within; [done..| |by apply margins_in_screen]. red. rewrite Er. cbn. lia.
  - by apply keeps_scroll_down.
  - by apply keeps_scroll_up.
  - by apply keeps_erase_in_display.
  - step. assert (Hi : (phys_row (cursor_y (cursor s)) (screen s) < length (lines (screen s)))%nat).
    { apply phys_row_lt with (G := G) (max_cols := max_cols); [done|]. rewrite Er; lia. }
    eapply yields_weaken; [apply (yields_lookup _ _ _ Hi), Hp|]. cbv beta. intros l Hl. step.
    eapply yields_weaken; [apply (plain_repeated _ _ (proj1 (plain_vec_line G max_cols l Hl)))|].
    cbv beta. intros c Hc. eapply returns_bind; [apply on_screen_keeps; [done|]|].
    + intros Hsc. apply plain_with_line; [done..|]. intros l' Hl'. by apply plain_expand.
    + cbv beta. intros _ s1 _ Hs1. eapply returns_bind; [apply repeat_loop_returns; try done; lia|].
      cbv beta. intros [x y] s2 _ (Hs2 & Hx' & Hy'). step. apply plain_put_cursor; [|by cbn|done].
      apply plain_put_cursor; [done..|by apply pt_y].
Qed.

(** ** Margins, saving and restoring *)

Lemma keeps_margins left_ right_ : keeps plain_term (set_left_and_right_margins left_ right_).
Proof.
  with_state s Hs. case_match; [|done]. cbv zeta.
  pose proof (term_cols s Hs) as HC. destruct (plain_active s Hs) as [_ _ Ec _]. rewrite Ec.
  assert (as_u32 (Z.of_nat C) = Z.of_nat C) as -> by (apply as_u32_id; unfold u16_max, u32_max in *; lia).
  step. apply yields_assert; [by bool_to_prop; lia|]. case_match; [done|]. bool_to_prop. step.
  apply plain_cursor_pos. destruct Hs; split; try done. cbn. lia.
Qed.

Lemma keeps_region top bottom : keeps plain_term (perform_csi_cursor (Cursor_SetTopAndBottomMargins top bottom)).
Proof.
  with_state s Hs. cbv zeta. destruct (plain_active s Hs) as [_ Er _ _]. rewrite Er.
  destruct (left_and_right_margins s). case_match; [done|]. bool_to_prop. step.
  apply plain_cursor_pos. pose proof (pt_y s Hs). destruct Hs; split; try done. cbn. lia.
Qed.

Lemma plain_put_saved c s :
  plain_term s -> (origins = false -> from_option saved_dec_origin_mode false c = false) ->
  plain_term (put_saved_cursor c s).
Proof.
  intros Hs Hc. destruct (plain_active s Hs) as [Hp Er Ec _]. apply plain_set_screen; [done|].
  split; [|done..]. by destruct Hp.
Qed.

Lemma plain_save s : plain_term s -> plain_term (dec_save_cursor s).
Proof. intros Hs. apply plain_put_saved; [done|]. apply (pt_origin s Hs). Qed.

Lemma plain_origin b s : plain_term s -> (origins = false -> b = false) -> plain_term (set_dec_origin_mode b s).
Proof. by intros []; split. Qed.

Lemma plain_restore s : plain_term s -> plain_term (dec_restore_cursor s).
Proof.
  intros Hs. pose proof (ts_origin _ (plain_active s Hs)) as Ho. unfold saved_origin in Ho.
  unfold dec_restore_cursor, saved_cursor_of. cbv zeta.
  set (saved := default _ (saved_cursor (screen s))).
  assert (Hb : origins = false -> saved_dec_origin_mode saved = false)
    by (intros E; specialize (Ho E); unfold saved; by destruct (saved_cursor (screen s))).
  clearbody saved. set (s1 := set_cursor_pos _ _ _).
  assert (Hs1 : plain_term s1) by (apply plain_cursor_pos, plain_origin; done). clearbody s1.
  apply (plain_view (set_dec_origin_mode (saved_dec_origin_mode saved) s1)); [done|].
  by apply plain_origin.
Qed.

(** ** Cursor sequences *)

Lemma row_above_in n s : plain_term s -> 0 <= n -> 0 <= row_above n s < Z.of_nat R.
Proof.
  intros Hs Hn. pose proof (pt_y s Hs). pose proof (pt_region s Hs). pose proof (pt_height s Hs) as HR.
  unfold row_above, i64_sat, clamp. cbv zeta. unfold u32_max, i64_min, i64_max in *. repeat case_match; bool_to_prop; lia.
Qed.

Lemma row_below_in n s : plain_term s -> 0 <= n -> 0 <= row_below n s < Z.of_nat R.
Proof.
  intros Hs Hn. pose proof (pt_y s Hs). pose proof (pt_region s Hs).
  destruct (plain_active s Hs) as [_ Er _ _].
  unfold row_below. rewrite Er. cbv zeta. case_match; bool_to_prop; lia.
Qed.

Lemma reported_returns s :
  plain_term s -> dec_origin_mode s = false ->
  yields (reported_position s) (fun '(line, col) =>
    1 <= ob_value line <= Z.of_nat R /\ 1 <= ob_value col <= Z.of_nat C).
Proof.
  intros Hs Ho. pose proof (pt_y s Hs) as Hy. pose proof (pt_height s Hs) as HR. pose proof (term_cols s Hs) as HC.
  destruct (plain_active s Hs) as [_ _ Ec _]. unfold reported_position. rewrite Ho, Ec. cbv zeta.
  unfold from_zero_based. rewrite Z.sub_0_r.
  assert (as_u32 (i64_sat (cursor_y (cursor s))) = cursor_y (cursor s)) as ->.
  { unfold i64_sat, clamp. unfold u32_max, i64_min, i64_max in *.
    rewrite Z.min_r, Z.max_r by lia. apply as_u32_id. unfold u32_max. lia. }
  rewrite (proj2 (Z.leb_le _ _)) by lia. cbn [mbind option_bind]. rewrite usize_sub_Some by lia.
  cbn [mbind option_bind]. rewrite as_u32_id by (unfold u16_max, u32_max in *; lia).
  rewrite (proj2 (Z.leb_le _ _)) by (unfold u16_max, u32_max in *; lia). apply yields_Some. cbn. lia.
Qed.

Lemma position_returns s :
  plain_term s -> origins = false ->
  returns (perform_csi_cursor Cursor_RequestActivePositionReport) s (fun _ s' tr => plain_term s' /\
    exists e, e ∈ tr /\ exists line col, 1 <= line <= Z.of_nat R /\ 1 <= col <= Z.of_nat C /\
      e = Write (27 :: bs "[" ++ dec line ++ bs ";" ++ dec col ++ bs "R")).
Proof.
  intros Hs Ho. unfold perform_csi_cursor. step. cbv zeta. destruct (left_and_right_margins s). step.
  eapply yields_weaken; [apply reported_returns; [done|by apply (pt_origin s Hs)]|].
  intros [line col] [HL HC]. step. split; [done|]. eexists. split; [by left|].
  exists (ob_value line), (ob_value col). split; [done|]. split; [done|]. f_equal.
Qed.

(** The cursor sequences whose numbers are unsigned, as the parser makes them; outside origin
    mode the position may be asked for. *)
Definition safe_cursor (c : Cursor) : Prop :=
  match c with
  | Cursor_Up n | Cursor_Down n | Cursor_NextLine n | Cursor_PrecedingLine n => 0 <= n
  | Cursor_RequestActivePositionReport => origins = false
  | Cursor_Left _ => False
  | _ => True
  end.

Lemma keeps_cursor c : safe_cursor c -> keeps plain_term (perform_csi_cursor c).
Proof.
  intros Hc. destruct c; try exact (keeps_region _ _); with_state st Hs;
    pose proof (pt_y st Hs) as Hy; pose proof (pt_x st Hs) as Hx; pose proof (term_cols st Hs) as HC;
    destruct (plain_active st Hs) as [_ Er Ec _]; pose proof (pt_margins st Hs) as Hm; cbv zeta;
    destruct (left_and_right_margins st) as [l r] eqn:El; cbn [fst snd] in Hm; cbn [safe_cursor] in Hc; try done.
  - apply keeps_repeat; [|done]. apply keeps_modify. intros st'. apply plain_cursor_pos.
  - step. by apply (plain_view st).
  - by apply keeps_cursor_pos.
  - rewrite Ec. step. apply yields_usize_sub; [lia|]. apply keeps_move; [done| |done]. lia.
  - by apply keeps_cursor_pos.
  - by apply keeps_cursor_pos.
  - by apply keeps_cursor_pos.
  - by apply keeps_cursor_pos.
  - by apply keeps_cursor_pos.
  - by apply keeps_cursor_pos.
  - apply keeps_repeat; [apply keeps_tab|done].
  - apply keeps_move; [done|lia|by apply row_below_in].
  - apply keeps_move; [done|lia|by apply row_above_in].
  - step. eapply yields_weaken; [apply reported_returns; [done|by apply (pt_origin st Hs)]|].
    intros [line col] _. by step.
  - case_match.
    + apply returns_lift_bind. unfold OneBased_new at 1. apply yields_Some. apply returns_lift_bind. rewrite Ec.
      rewrite as_u32_id by (unfold u16_max, u32_max in *; lia). unfold OneBased_new.
      destruct (Z.eqb_spec (Z.of_nat C + 1) 0); [lia|]. cbn [negb rust_assert mbind option_bind].
      apply yields_Some. by apply keeps_margins.
    + step. by apply plain_save.
  - step. by apply plain_restore.
  - apply keeps_move; [done|lia|by apply row_below_in].
  - rewrite Ec. step. apply yields_usize_sub; [case_match; lia|]. apply keeps_move; [done| |done]. case_match; lia.
  - by apply keeps_cursor_pos.
  - apply keeps_move; [done|lia|by apply row_above_in].
  - by apply keeps_margins.
  - step. by apply (plain_view st).
Qed.

(** ** Modes *)

Lemma plain_dirty_top sq sc : term_screen sc -> yields (dirty_top_phys_rows sq sc) term_screen.
Proof.
  intros [Hp Er Ec Ho]. unfold dirty_top_phys_rows. eapply yields_bind.
  - apply (plain_for_lines G max_cols); [apply Hp| |intros l; apply plain_dirty].
    apply Forall_forall. intros i Hi%elem_of_seq. pose proof (ps_full _ _ _ Hp) as Hf. red in Hf. lia.
  - intros ls [Hls Hlen]. apply yields_Some. split; [|done..].
    apply plain_set_lines; [done..|]. rewrite Hlen. apply Hp.
Qed.

Lemma keeps_dirty_primary sq : keeps plain_term
  (s ← gets id; sc ← lift (dirty_top_phys_rows sq (primary_screen s)); modify (set_primary_screen sc) : T unit).
Proof.
  with_state s Hs. step. eapply yields_weaken; [by apply plain_dirty_top, pt_primary|].
  cbv beta. intros sc Hsc. step. by destruct Hs; split.
Qed.

Lemma keeps_activate_alt sq : keeps plain_term (activate_alt_screen sq).
Proof. apply keeps_bind; [by apply keeps_view|]. intros _. apply keeps_dirty_primary. Qed.

Lemma keeps_activate_primary sq : keeps plain_term (activate_primary_screen sq).
Proof. apply keeps_bind; [by apply keeps_view|]. intros _. apply keeps_dirty_primary. Qed.

Lemma plain_full_margins s : plain_term s -> plain_term (full_margins s).
Proof.
  intros Hs. pose proof (term_cols s Hs). pose proof (pt_y s Hs).
  destruct (plain_active s Hs) as [_ Er Ec _]. unfold full_margins. rewrite Er.
  change (screen (set_top_and_bottom_margins _ s)) with (screen s).
  destruct Hs; split; try done; cbn; unfold screen in *; cbn in *; rewrite ?Ec; lia.
Qed.

Lemma keeps_select_132 : keeps plain_term select_132_columns.
Proof.
  apply keeps_bind; [|intros _; apply keeps_erase_in_display]. apply keeps_modify. intros s Hs.
  apply plain_cursor_pos. by apply plain_full_margins in Hs.
Qed.

Lemma keeps_set_mode c :
  (c = DecPrivateModeCode_OriginMode -> origins = true) -> keeps plain_term (set_dec_mode c).
Proof.
  intros Hc. destruct c; try (by apply keeps_view); try apply keeps_ret.
  - apply keeps_select_132.
  - apply keeps_modify. intros s Hs. apply plain_cursor_pos, plain_origin; [done|].
    intros E. by rewrite Hc in E.
  - apply keeps_modify, plain_save.
  - with_state s Hs. case_match; [done|]. step. apply plain_save in Hs.
    eapply returns_keeps_bind; [apply keeps_activate_alt|done|]. intros _ s1 _ Hs1. step.
    step. apply keeps_erase_in_display. apply (plain_view (home s1)); [done|]. by apply plain_cursor_pos.
  - with_state s Hs. case_match; [done|].
    eapply returns_keeps_bind; [apply keeps_activate_alt|done|]. intros _ s1 _. by apply keeps_view.
  - with_state s Hs. case_match; [done|].
    eapply returns_keeps_bind; [apply keeps_activate_alt|done|]. intros _ s1 _. by apply keeps_view.
Qed.

Lemma keeps_reset_mode c : keeps plain_term (reset_dec_mode c).
Proof.
  destruct c; try (by apply keeps_view); try apply keeps_ret.
  - apply keeps_select_132.
  - apply keeps_modify. intros s Hs. by apply plain_cursor_pos, plain_origin.
  - apply keeps_modify. intros s Hs. pose proof (plain_full_margins s Hs) as Hm. pose proof (pt_region s Hs).
    destruct Hs, Hm; split; done.
  - apply keeps_modify, plain_restore.
  - with_state s Hs. case_match; [|done].
    eapply returns_keeps_bind; [apply keeps_activate_primary|done|]. intros _ s1 _.
    apply keeps_modify, plain_restore.
  - with_state s Hs. case_match; [|done].
    eapply returns_keeps_bind; [apply keeps_activate_primary|done|]. intros _ s1 _. by apply keeps_view.
  - with_state s Hs. case_match; [|done]. step.
    eapply returns_keeps_bind; [apply keeps_erase_in_display|by apply (plain_view s)|].
    intros _ s1 _. apply keeps_activate_primary.
Qed.

Lemma keeps_write b : keeps plain_term (write_bytes b).
Proof. apply keeps_emit. Qed.

(** Setting origin mode is left out where it may not be used. *)
Definition safe_mode (m : Mode) : Prop :=
  m = SetDecPrivateMode (DecPrivateMode_Code DecPrivateModeCode_OriginMode) -> origins = true.

Lemma keeps_mode m : safe_mode m -> keeps plain_term (perform_csi_mode m).
Proof.
  intros Hm.
  assert (Hq : forall m st, match m with QueryDecPrivateMode _ | QueryMode _ => True | _ => False end ->
    keeps plain_term (answer_query m st)).
  { intros m' st Hm'. unfold answer_query, decqrm_response, decqrm.
    destruct m' as [| | | |[]| | |[]|]; try done; destruct st; apply keeps_write. }
  destruct m as [[c|n]|[c|n]|c|c|[c|n]|[c|n]|[c|n]|[c|n]|r w]; cbn [perform_csi_mode];
    try apply keeps_ret; try apply keeps_write.
  all: try (apply keeps_set_mode; intros ->; by apply Hm).
  all: try apply keeps_reset_mode.
  - destruct c; try apply keeps_write; with_state s Hs; by apply Hq.
  - destruct c; by apply keeps_view.
  - destruct c; by apply keeps_view.
  - with_state s Hs. by apply Hq.
  - destruct r; try apply keeps_ret. by apply keeps_view.
Qed.

(** ** Requests *)

Lemma keeps_soft_reset : keeps plain_term soft_reset.
Proof.
  unfold soft_reset. apply keeps_bind.
  { apply keeps_modify. intros s Hs. apply plain_full_margins in Hs.
    apply (plain_origin false) in Hs; [|done]. revert Hs. by apply plain_view. }
  intros _. with_state s Hs.
  eapply returns_keeps_bind; [apply keeps_activate_alt|done|]. intros _ s1 _ Hs1. step.
  apply (plain_put_saved None) in Hs1; [|done].
  eapply returns_keeps_bind; [apply keeps_activate_primary|done|]. intros _ s2 _ Hs2. step. step.
  apply (plain_put_saved None) in Hs2; [|done]. revert Hs2. by apply plain_view.
Qed.

Lemma keeps_device d : keeps plain_term (perform_device d).
Proof.
  with_state s Hs. destruct d; try done; [by apply keeps_soft_reset].
Qed.

(** The checksum of a rectangle is left out. *)
Definition safe_window (w : Window) : Prop :=
  match w with ChecksumRectangularArea _ _ _ _ _ _ => False | _ => True end.

Lemma keeps_window w : safe_window w -> keeps plain_term (perform_csi_window w).
Proof.
  intros Hw. with_state s Hs. destruct (plain_active s Hs) as [[Hr _ Hc _] _ _ _]. cbv zeta.
  destruct w; try done.
  - step. apply yields_assert; [bool_to_prop; lia|]. by apply keeps_write.
  - case_match; [by apply keeps_write|done].
Qed.

Lemma plain_keyboard f s : plain_term s -> plain_term (with_keyboard_stack f s).
Proof.
  intros Hs. destruct (plain_active s Hs) as [Hp Er Ec Ho]. apply plain_set_screen; [done|].
  split; [|done..]. by destruct Hp.
Qed.

Lemma keeps_keyboard k : keeps plain_term (perform_keyboard k).
Proof.
  with_state s Hs. cbv zeta.
  destruct k; try case_match; try done; step; by apply plain_keyboard.
Qed.

(** ** Actions *)

Definition safe_csi (c : CSI) : Prop :=
  match c with
  | CSI_Cursor (Cursor_Left _) => True
  | CSI_Cursor c => safe_cursor c
  | CSI_Mode m => safe_mode m
  | CSI_Window w => safe_window w
  | _ => True
  end.

Lemma keeps_csi c : safe_csi c -> keeps plain_term (csi_dispatch c).
Proof.
  intros Hc. unfold csi_dispatch. apply keeps_bind; [by apply keeps_view|]. intros _.
  apply keeps_bind; [apply keeps_flush|]. intros _. destruct c.
  - by apply keeps_view.
  - destruct c; try by apply keeps_cursor. apply keeps_repeat. by apply keeps_control.
  - apply keeps_edit.
  - by apply keeps_mode.
  - apply keeps_device.
  - apply keeps_ret.
  - by apply keeps_window.
  - apply keeps_keyboard.
  - destruct path; by apply keeps_view.
  - apply keeps_ret.
Qed.

Lemma keeps_title t : keeps plain_term (set_icon_name_and_window_title t).
Proof.
  apply keeps_bind; [apply keeps_flush|]. intros _. apply keeps_bind; [by apply keeps_view|]. intros _.
  apply keeps_bind; [apply keeps_emit|]. intros _. apply keeps_emit.
Qed.

Lemma keeps_on_cursor_line f :
  (forall l, plain_line G max_cols l -> plain_line G max_cols (f l)) -> keeps plain_term (on_cursor_line f).
Proof.
  intros Hf. with_state s Hs. apply on_screen_keeps; [done|]. intros [Hp Er _ _].
  apply plain_with_line; [done| |].
  - apply phys_row_lt with (G := G) (max_cols := max_cols); [done|]. rewrite Er. by apply pt_y.
  - intros l Hl. by apply Hf.
Qed.

Lemma E_width : grapheme_column_width (bs "E") None = 1.
Proof. apply ascii_width; [reflexivity|]. change (0x20 <= 69 <= 0x7E). lia. Qed.

Lemma plain_E : plain_cell G (Cell_new "E"%ch blank_attrs).
Proof.
  pose proof (plain_grapheme G (bs "E") blank_attrs printable_E) as Hg.
  assert (E : from_str (bs "E") None None = from_str (bs "E") (Some 1) None).
  { unfold from_str. change (defang (bs "E")) with (bs "E"). cbv zeta. rewrite E_width. reflexivity. }
  unfold Cell_new, ts_from_char. change (encode_utf8 "E"%ch) with (bs "E"). rewrite E. exact Hg.
Qed.

Lemma plain_fill_E ys sq sc :
  Forall (fun y => y < Z.of_nat R) ys -> term_screen sc ->
  keeps_screen G max_cols (fill_with_E ys sq) sc.
Proof.
  intros Hys. revert sc. induction Hys as [|y ys Hy _ IH]; intros sc Hsc; [by split; [apply Hsc|]|].
  cbn [fill_with_E]. pose proof Hsc as [Hp Er Ec _]. apply keeps_bind_screen.
  - apply plain_with_line; [done| |].
    + apply phys_row_lt with (G := G) (max_cols := max_cols); [done|]. by rewrite Er.
    + intros l Hl. pose proof (ps_cols _ _ _ Hp). apply plain_fill_range; [done|by apply plain_resize; [done|done|lia]|apply plain_E|lia].
  - intros sc' Hp' Hz. apply IH. by eapply term_screen_same.
Qed.

Lemma keeps_alignment sq : keeps plain_term (screen_alignment_display sq).
Proof.
  with_state s Hs. destruct (plain_active s Hs) as [_ Er _ _]. rewrite Er.
  pose proof (pt_y s Hs) as Hy. eapply returns_bind; [apply on_screen_keeps; [done|]|].
  - intros Hsc. apply plain_fill_E; [|done]. apply Forall_forall. intros y Hin%elem_of_seqZ. lia.
  - cbv beta. intros _ s1 _ Hs1%plain_full_margins. step.
    apply (plain_view (put_cursor O 0 0 (full_margins s1))); [done|]. apply plain_put_cursor; [done|lia..].
Qed.

Lemma plain_reset_screen sc : term_screen sc -> term_screen (Screen.full_reset sc).
Proof. intros [[] ? ? ?]. by split. Qed.

Lemma plain_reset_fields s : plain_term s -> plain_term (reset_fields s).
Proof.
  intros Hs. pose proof (plain_full_margins s Hs) as [_ _ _ _ Hr Hm _ _ _ _ _].
  pose proof (pt_y s Hs) as Hy. destruct Hs. split; try done.
  - by apply plain_reset_screen.
  - by apply plain_reset_screen.
  - cbn. lia.
  - cbn. lia.
Qed.

Lemma keeps_full_reset sq : keeps plain_term (full_reset sq).
Proof.
  unfold full_reset. apply keeps_bind; [apply keeps_modify, plain_reset_fields|intros _].
  apply keeps_bind; [apply keeps_activate_alt|intros _].
  apply keeps_bind; [apply keeps_erase_in_display|intros _].
  apply keeps_bind; [apply keeps_activate_primary|intros _].
  do 2 (apply keeps_bind; [apply keeps_erase_in_display|intros _]).
  apply keeps_bind; [|intros _; apply keeps_emit]. apply keeps_modify. intros s Hs.
  destruct (plain_active s Hs) as [Hp Er Ec Ho]. apply plain_set_screen; [done|].
  split; [by apply plain_dirty_all|done..].
Qed.

Lemma keeps_esc e : e <> Esc_Code HorizontalTabSet -> keeps plain_term (esc_dispatch e).
Proof.
  intros He. with_state s0 Hs0. cbv zeta. generalize (term_seqno s0). intros sq. revert s0 Hs0.
  apply keeps_bind; [apply keeps_flush|]. intros _. apply keeps_bind.
  { case_match; [apply keeps_ret|by apply keeps_view]. }
  intros _. destruct e as [i ctl|code]; [apply keeps_ret|].
  destruct code; try done; try apply keeps_ret; try (by apply keeps_view).
  - apply keeps_full_reset.
  - apply keeps_index.
  - apply keeps_nel.
  - apply keeps_reverse_index.
  - with_state s Hs. case_match; [|done]. step. apply keeps_title. by apply (plain_view s).
  - apply keeps_modify, plain_save.
  - apply keeps_modify, plain_restore.
  - apply keeps_alignment.
  - apply keeps_on_cursor_line. intros l. apply plain_double_top.
  - apply keeps_on_cursor_line. intros l. apply plain_double_bottom.
  - apply keeps_on_cursor_line. intros l. apply plain_single.
  - apply keeps_on_cursor_line. intros l. apply plain_double_width.
Qed.

(** What may be sent: text of the alphabet, and every control and sequence except HTS,
    the checksum of a rectangle and, depending on [origins], origin mode or
    the request of the position. *)
Definition safe_action (a : Action) : Prop :=
  match a with
  | Action_Print c => G (encode_utf8 c)
  | Action_PrintString cs => Forall (fun c => G (encode_utf8 c)) cs
  | Action_Control c => c <> ControlCode_HTS
  | Action_Esc e => e <> Esc_Code HorizontalTabSet
  | Action_CSI c => safe_csi c
  end.

Lemma keeps_perform a : safe_action a -> keeps plain_term (perform a).
Proof.
  destruct a; intros Ha; cbn [perform safe_action] in *.
  - apply keeps_modify. intros s'. by apply plain_print.
  - apply keeps_modify. induction Ha as [|c cs Hc _ IH]; intros s' Hs'; [done|]. cbn. by apply IH, plain_print.
  - by apply keeps_control.
  - by apply keeps_esc.
  - by apply keeps_csi.
Qed.

Lemma keeps_perform_all l : Forall safe_action l -> keeps plain_term (perform_all l).
Proof.
  induction 1 as [|a l Ha _ IH]; [apply keeps_ret|].
  cbn [perform_all]. apply keeps_bind; [by apply keeps_perform|]. done.
Qed.

Lemma keeps_notification : keeps plain_term trigger_unseen_output_notif.
Proof. with_state s Hs. case_match; [|done]. step. step. by apply (plain_view s). Qed.

Lemma keeps_actions l : Forall safe_action l -> keeps plain_term (perform_actions l).
Proof.
  intros Hl. unfold perform_actions. apply keeps_bind; [by apply keeps_view|intros _].
  apply keeps_bind; [by apply keeps_perform_all|intros _].
  apply keeps_bind; [apply keeps_flush|intros _]. apply keeps_notification.
Qed.

Lemma keeps_batches ls : Forall (Forall safe_action) ls -> keeps plain_term (perform_batches ls).
Proof.
  induction 1 as [|l ls Hl _ IH]; [apply keeps_ret|].
  cbn [perform_batches]. apply keeps_bind; [by apply keeps_actions|]. done.
Qed.

(** A new terminal of a size that fits. *)
Lemma plain_term_new size cfg program version :
  rows size = Z.of_nat R -> cols size = Z.of_nat C -> (1 <= R)%nat -> (1 <= C < max_cols)%nat ->
  Z.of_nat R <= u32_max -> config_unicode_version cfg = v ->
  plain_term (TermState_new size cfg program version).
Proof.
  intros Er Ec HR HC HR' Hv.
  assert (Hsc : forall allow sq b, term_screen (Screen_new size cfg allow sq b)).
  { intros allow sq b. split; [|cbn; lia|cbn; lia|done]. apply plain_screen_new; try done. lia. }
  split; try apply Hsc; try done; cbn; try lia. by exists [].
Qed.

(** The actions before the last one keep the invariant; what the last one does follows. *)
Lemma returns_last l a s (Q : TermState -> list TermEvent -> Prop) :
  Forall safe_action l -> plain_term s ->
  (forall s', plain_term s' -> returns (perform a) s' (fun _ s'' tr => plain_term s'' /\ Q s'' tr)) ->
  (forall s' tr tr', Q s' tr' -> Q s' (tr ++ tr')) -> (forall s' tr, Q s' tr -> Q s' (tr ++ [])) ->
  returns (perform_all (l ++ [a])) s (fun _ s' tr => plain_term s' /\ Q s' tr).
Proof.
  intros Hl Hs Ha Hpre Hsuf. revert s Hs. induction Hl as [|b l Hb _ IH]; intros s Hs; cbn [app perform_all].
  - eapply returns_bind; [by apply Ha|]. cbv beta. intros _ s' tr [Hs' HQ]. step. split; [done|]. by apply Hsuf.
  - eapply returns_keeps_bind; [by apply keeps_perform|done|]. intros _ s' tr Hs'.
    eapply returns_weaken; [by apply IH|]. intros _ s'' tr' [Hs'' HQ]. split; [done|]. by apply Hpre.
Qed.

(** What a CSI sequence writes is in the output. *)
Lemma csi_answers c (P : TermEvent -> Prop) s :
  plain_term s ->
  (forall s', plain_term s' -> returns (match c with
       | CSI_Device d => perform_device d | CSI_Cursor k => perform_csi_cursor k | _ => mret tt end : T unit) s'
     (fun _ s'' tr => plain_term s'' /\ exists e, e ∈ tr /\ P e)) ->
  match c with CSI_Device _ | CSI_Cursor Cursor_RequestActivePositionReport => True | _ => False end ->
  returns (perform (Action_CSI c)) s (fun _ s' tr => plain_term s' /\ exists e, e ∈ tr /\ P e).
Proof.
  intros Hs Hc Hf. cbn [perform]. unfold csi_dispatch.
  eapply returns_keeps_bind; [by apply keeps_view|done|]. intros _ s1 tr1 Hs1.
  eapply returns_keeps_bind; [apply keeps_flush|done|]. intros _ s2 tr2 Hs2.
  eapply returns_weaken with (P := fun _ s'' tr => plain_term s'' /\ exists e, e ∈ tr /\ P e).
  - specialize (Hc s2 Hs2). destruct c as [| [] | | | | | | | |]; try done.
  - intros _ s3 tr3 [Hs3 (e & He & HP)]. split; [done|]. exists e. split; [|done]. set_solver.
Qed.

(** A batch that ends with a request answers it. *)
Lemma actions_answer l c (P : TermEvent -> Prop) s :
  Forall safe_action l -> plain_term s ->
  (forall s', plain_term s' -> returns (match c with
       | CSI_Device d => perform_device d | CSI_Cursor k => perform_csi_cursor k | _ => mret tt end : T unit) s'
     (fun _ s'' tr => plain_term s'' /\ exists e, e ∈ tr /\ P e)) ->
  match c with CSI_Device _ | CSI_Cursor Cursor_RequestActivePositionReport => True | _ => False end ->
  exists s' out, perform_actions (l ++ [Action_CSI c]) s = Some (tt, s', out) /\ plain_term s' /\
    exists e, e ∈ out /\ P e.
Proof.
  intros Hl Hs Hc Hf.
  enough (Hr : returns (perform_actions (l ++ [Action_CSI c])) s
    (fun _ s' out => plain_term s' /\ exists e, e ∈ out /\ P e)).
  { apply yields_exists in Hr as ([[[] s'] out] & -> & Hs' & He). eauto 10. }
  unfold perform_actions. step. eapply returns_bind.
  { apply (returns_last l (Action_CSI c) _ (fun _ tr => exists e, e ∈ tr /\ P e)); try done.
    - by apply (plain_view s).
    - intros s' Hs'. by apply csi_answers.
    - intros s' tr tr' (e & He & HP). exists e. set_solver.
    - intros s' tr (e & He & HP). exists e. set_solver. }
  cbv beta. intros _ s1 tr1 [Hs1 (e & He & HP)].
  eapply returns_keeps_bind; [apply keeps_flush|done|]. intros _ s2 tr2 Hs2.
  eapply returns_weaken; [by apply keeps_notification|]. intros ? s3 tr3 Hs3. split; [done|].
  exists e. set_solver.
Qed.

(** C2: A terminal is safe: whatever safe actions are performed, in any number of batches, on a new
    terminal whose size fits, no operation panics; the cursor, the margins and the scrolling
    region stay in the screen, whose size is the same, and every line of both screens
    is well formed. *)
Theorem terminal_never_fails size cfg program version ls :
  rows size = Z.of_nat R -> cols size = Z.of_nat C -> (1 <= R)%nat -> (1 <= C < max_cols)%nat ->
  Z.of_nat R <= u32_max -> config_unicode_version cfg = v -> Forall (Forall safe_action) ls ->
  exists s out, perform_batches ls (TermState_new size cfg program version) = Some (tt, s, out) /\
    plain_term s /\ rows (get_size s) = rows size /\ cols (get_size s) = cols size.
Proof.
  intros Er Ec HR HC HR' Hv Hls.
  pose proof (keeps_batches ls Hls _ (plain_term_new size cfg program version Er Ec HR HC HR' Hv)) as Hr.
  apply yields_exists in Hr as ([[[] s] out] & E & Hs). exists s, out. split; [done|]. split; [done|].
  destruct (plain_active s Hs) as [_ Er' Ec' _]. cbn. split; congruence.
Qed.

(** C12: A terminal is live: whatever safe actions come before in the batch, a status request is
    answered, and outside origin mode the position request is answered with a position in
    the screen. *)
Theorem requests_are_answered l s :
  Forall safe_action l -> plain_term s ->
  (exists s' out, perform_actions (l ++ [Action_CSI (CSI_Device StatusReport)]) s = Some (tt, s', out) /\
     plain_term s' /\ Write (27 :: bs "[0n") ∈ out) /\
  (origins = false -> exists s' out line col,
     perform_actions (l ++ [Action_CSI (CSI_Cursor Cursor_RequestActivePositionReport)]) s = Some (tt, s', out) /\
     plain_term s' /\ 1 <= line <= Z.of_nat R /\ 1 <= col <= Z.of_nat C /\
     Write (27 :: bs "[" ++ dec line ++ bs ";" ++ dec col ++ bs "R") ∈ out).
Proof.
  intros Hl Hs. split.
  - destruct (actions_answer l (CSI_Device StatusReport) (fun e => e = Write (27 :: bs "[0n")) s Hl Hs)
      as (s' & out & E & Hs' & e & He & ->); [|done|by exists s', out].
    intros s' Hs'. split; [done|]. eexists. split; [by left|done].
  - intros Ho. destruct (actions_answer l (CSI_Cursor Cursor_RequestActivePositionReport)
      (fun e => exists line col, 1 <= line <= Z.of_nat R /\ 1 <= col <= Z.of_nat C /\
         e = Write (27 :: bs "[" ++ dec line ++ bs ";" ++ dec col ++ bs "R")) s Hl Hs)
      as (s' & out & E & Hs' & e & He & line & col & HL & HC & ->); [|done|by exists s', out, line, col].
    intros s' Hs'. by apply position_returns.
Qed.

End Safe.
