(* ===== verification/TermBytes.v ===== *)
(** From bytes to the screen: the parser of [VtParse.v], the CSI parser and the terminal together,
    as [Terminal::advance_bytes] composes them, and the examples of the theorems on the
    safety of the terminal. *)

From Stdlib Require Import ZArith Lia String.
From S2P Require Import Prelude VtParse VtParseProps CallMonad Post Color CsiTypes CsiParse CsiProps CharWidth Cell CellProps Line LineProps LineEdit LineSafe TermSize TermTypes Esc Screen ScreenProps ScreenSafe Terminal TermPerform TermHost TermSafe.
From stdpp Require Import base numbers list option gmap.
Local Open Scope Z_scope.

(** Every event has actions: the CSI parser never fails. *)
Lemma perform_event_total e : exists l, perform_event e = Some l.
Proof.
  destruct e; cbn [perform_event]; eauto.
  destruct (csi_collect_ok (S (S (length params))) (csi_parser params parameters_truncated byte) params)
    as (specs & rest & E & _); [|done|lia|].
  - split; [done|]. by intros.
  - unfold csi_parse. rewrite E. cbn. eauto.
Qed.

Lemma perform_events_total es : exists l, perform_events es = Some l.
Proof.
  induction es as [|e es (r & IH)]; [by exists []|]. cbn [perform_events].
  destruct (perform_event_total e) as (l & ->). rewrite IH. cbn. eauto.
Qed.

(** The events of device control, operating system and application strings, to which [perform_event]
    gives no action here. *)
Definition is_string_event (e : VTAction) : bool :=
  match e with
  | VtDcsHook _ _ _ _ | VtDcsPut _ | VtDcsUnhook | VtOscDispatch _ | VtApcDispatch _ => true
  | _ => false
  end.

Section Bytes.
Context `{CharTables} `{Graphemes} `{BitSet} `{!BitSetLaws} `{HyperlinkRules} `{Normalization}.
Context {UP : Utf8Parse} {UL : Utf8ParseLaws UP}.
Context (G : list Z -> Prop) `{!SimpleText G}.
Context (max_cols : nat) (Hmax : Z.of_nat max_cols <= u16_max).
Context (v : UnicodeVersion) `{!PrintableText G v}.
Context (R C : nat) (origins : bool).

(** C16: bytes reach the terminal as actions, the strings aside. Whatever the bytes and the state of
    the parser, they are parsed without a panic. When no part of a device control string, of an
    operating system command or of an application program command is reported in them (what these do
    is outside the model), the controls, escape codes and CSI sequences in them are decoded without
    a panic; and if the actions are safe, the terminal performs them, and terminal and
    parser are ready for more. *)
Theorem bytes_are_performed bytes t :
  Forall is_byte bytes -> vt_wf (parser t) -> plain_term G max_cols v R C origins (state t) ->
  exists p events, parse bytes (parser t) = Some (p, events) /\ vt_wf p /\
    (Forall (fun e => is_string_event e = false) events ->
     exists actions, perform_events events = Some actions /\
       (Forall (safe_action G origins) actions ->
        exists s out, advance_bytes bytes t = Some (mkTerminal s p, out) /\
          plain_term G max_cols v R C origins s)).
Proof.
  intros Hb Hp Hs. destruct (parse_wf bytes (parser t) Hb Hp) as (p & events & E1 & Hp' & _).
  destruct (perform_events_total events) as (actions & E2).
  exists p, events. split; [done|]. split; [done|]. intros _. exists actions. split; [done|]. intros Ha.
  pose proof (keeps_actions G max_cols Hmax v R C origins actions Ha (state t) Hs) as Hr.
  apply yields_exists in Hr as ([[u s] out] & E3 & Hs'). exists s, out. split; [|done].
  unfold advance_bytes. rewrite E1. cbn [mbind option_bind]. rewrite E2. cbn [mbind option_bind].
  by rewrite E3.
Qed.

End Bytes.

(** ** An alphabet *)

Section Alphabet.
#[local] Existing Instances demo_tables demo_bitset demo_bitset_laws demo_rules.
#[local] Instance demo_segmentation : Graphemes := demo_graphemes.
#[local] Instance demo_normal : Normalization := fun s => s.

(** Space, digits, capital letters and most punctuation. *)
Definition capital (g : list Z) : Prop := exists c, g = [c] /\ 32 <= c <= 95 /\ c <> 35.

#[local] Instance capital_simple : SimpleText capital.
Proof.
  split.
  - exists 32. split; [done|lia].
  - intros g (c & -> & Hc & _). split; [apply Forall_singleton; unfold is_byte; lia|]. split; [|cbn; lia].
    assert (E : (c <? 0x20) || (c =? 0x7f) = false)
      by by rewrite (proj2 (Z.ltb_ge _ _)), (proj2 (Z.eqb_neq _ _)) by lia.
    unfold defang. rewrite E. by repeat case_match.
  - intros g (c & -> & _) [= ->]. done.
  - intros gs Hgs. induction Hgs as [|g gs (c & -> & Hc & _) _ IH]; [done|].
    change (concat ([c] :: gs)) with (c :: concat gs). cbn [graphemes demo_segmentation demo_graphemes].
    rewrite (proj2 (Z.ltb_lt _ _)) by lia. by rewrite <- IH at 2.
Qed.

#[local] Instance capital_printable : PrintableText capital LATEST_UNICODE_VERSION.
Proof.
  split.
  - done.
  - intros c c' (d & [= ->] & Hd & _). unfold line_drawing, rng.
    change ("`"%ch) with 96. by rewrite (proj2 (Z.leb_gt 96 d)) by lia.
  - intros (d & [= <-] & _ & Hd). done.
  - intros g (c & -> & Hc & _). unfold grapheme_column_width. cbn [default].
    rewrite ascii_width; [lia|done|lia].
  - exists 69. split; [done|lia].
Qed.

Lemma capital_text s :
  forallb (fun c => (32 <=? c) && (c <=? 95) && negb (c =? 35)) s = true ->
  Forall (fun c => capital (encode_utf8 c)) s.
Proof.
  intros Hs. apply Forall_forall. intros c Hc%list_elem_of_In. rewrite forallb_forall in Hs.
  specialize (Hs c Hc). bool_to_prop. exists c. split; [|lia]. unfold encode_utf8.
  by rewrite (proj2 (Z.ltb_lt _ _)) by lia.
Qed.

Lemma capital_char c :
  (32 <=? c) && (c <=? 95) && negb (c =? 35) = true -> capital (encode_utf8 c).
Proof. intros Hc. apply (Forall_inv (capital_text [c] ltac:(cbn [forallb]; by rewrite Hc))). Qed.

End Alphabet.

(** Actions that are seen to be safe. *)
Ltac safe_actions :=
  repeat first [apply Forall_cons; split | apply Forall_nil; exact I];
  cbn [safe_action safe_csi safe_cursor safe_mode]; first
  [ exact I | by apply capital_text | by apply capital_char | discriminate | done ].

(** ** Examples *)

Section Demo.
#[local] Existing Instances demo_tables demo_bitset demo_bitset_laws demo_rules demo_segmentation
  demo_normal capital_simple capital_printable.

Definition demo_size : TerminalSize := mkSize 3 8 80 60 96.

(** A line of text, a color, a window of two lines that is scrolled, and the alternate screen. *)
Definition demo_batches : list (list Action) :=
  [[Action_PrintString (bs "HELLO WORLD"); Action_Control ControlCode_LineFeed; Action_Print 65];
   [Action_CSI (CSI_Sgr (Sgr_Italic true));
    Action_CSI (CSI_Cursor (Cursor_SetTopAndBottomMargins (mkOneBased 1) (mkOneBased 2)));
    Action_CSI (CSI_Edit (Edit_ScrollUp 5));
    Action_CSI (CSI_Mode (SetDecPrivateMode
      (DecPrivateMode_Code DecPrivateModeCode_ClearAndEnableAlternateScreen)));
    Action_Esc (Esc_Code FullReset)]].

Lemma demo_batches_safe : Forall (Forall (safe_action capital false)) demo_batches.
Proof. unfold demo_batches. safe_actions. Qed.

Lemma terminal_never_fails_witness :
  exists s out, perform_batches demo_batches (TermState_new demo_size demo_configuration [] []) = Some (tt, s, out) /\
    rows (get_size s) = 3 /\ cols (get_size s) = 8.
Proof.
  destruct (terminal_never_fails capital 100 ltac:(done) LATEST_UNICODE_VERSION 3 8 false demo_size
    demo_configuration [] [] demo_batches) as (s & out & E & _ & Hr & Hc).
  - reflexivity.
  - reflexivity.
  - lia.
  - lia.
  - done.
  - reflexivity.
  - exact demo_batches_safe.
  - exists s, out. split; [exact E|]. split; [exact Hr|exact Hc].
Defined.

Lemma demo_term : plain_term capital 100 LATEST_UNICODE_VERSION 3 8 false
  (TermState_new demo_size demo_configuration [] []).
Proof. by apply plain_term_new; try lia. Qed.

Lemma requests_are_answered_witness :
  exists s' out, perform_actions (concat demo_batches ++ [Action_CSI (CSI_Device StatusReport)])
    (TermState_new demo_size demo_configuration [] []) = Some (tt, s', out) /\
    Write (27 :: bs "[0n") ∈ out.
Proof.
  destruct (requests_are_answered capital 100 ltac:(done) LATEST_UNICODE_VERSION 3 8 false
    (concat demo_batches) (TermState_new demo_size demo_configuration [] []))
    as [(s' & out & E & _ & Hw) _].
  - apply Forall_concat. exact demo_batches_safe.
  - exact demo_term.
  - exists s', out. split; [exact E|exact Hw].
Defined.

(** Text, a carriage return and a request of the position. *)
Definition demo_bytes : list Z := bs "OK" ++ [13; 27] ++ bs "[2;3H" ++ [27] ++ bs "[6n".

Lemma demo_bytes_events p events :
  parse demo_bytes vt_new = Some (p, events) ->
  events = default [] (snd <$> parse demo_bytes vt_new).
Proof. by intros ->. Qed.

Lemma demo_bytes_safe p events actions :
  parse demo_bytes vt_new = Some (p, events) -> perform_events events = Some actions ->
  Forall (safe_action capital false) actions.
Proof.
  intros E1%demo_bytes_events E2. vm_compute in E1. subst events. vm_compute in E2.
  injection E2 as <-. safe_actions.
Qed.

Lemma bytes_are_performed_witness :
  exists t' out, advance_bytes demo_bytes (Terminal_new demo_size demo_configuration [] []) = Some (t', out).
Proof.
  destruct (bytes_are_performed capital 100 ltac:(done) LATEST_UNICODE_VERSION 3 8 false demo_bytes
    (Terminal_new demo_size demo_configuration [] [])) as (p & events & E1 & _ & Hevents).
  - unfold demo_bytes, is_byte. repeat constructor; lia.
  - apply vt_new_wf.
  - exact demo_term.
  - destruct Hevents as (actions & E2 & Hrun).
    { rewrite (demo_bytes_events p events E1). apply (bool_decide_unpack _). vm_compute. exact Logic.I. }
    destruct (Hrun (demo_bytes_safe p events actions E1 E2)) as (s & out & E & _).
    exists (mkTerminal s p), out. exact E.
Defined.

End Demo.
