(* ===== verification/TermAlt.v ===== *)
(** The alternate screen: what is done while it is shown does not touch the primary one, so leaving
    it (mode 1049) shows again what was there, with the cursor where it was. *)

From Stdlib Require Import ZArith Lia String.
From S2P Require Import Prelude CallMonad Post Color CsiTypes CharWidth Cell CellProps Line LineProps LineEdit LineSafe TermSize TermTypes Esc Screen ScreenProps ScreenSafe Terminal TermPerform TermHost TermSafe TermBytes.
From stdpp Require Import base numbers list option gmap.
Local Open Scope Z_scope.

(** ** What every run leaves alone *)

Section Leaves.
Context {St Ev : Type}.

(** If [m] returns, the state it leaves satisfies [I] again. *)
Definition leaves_be {A} (I : St -> Prop) (m : CallM St Ev A) : Prop :=
  forall st a st' tr, I st -> m st = Some (a, st', tr) -> I st'.

Lemma be_ret {A} I (a : A) : leaves_be I (mret a).
Proof. by intros st b st' tr Hst [= <- <- <-]. Qed.

Lemma be_panic {A} I : leaves_be I (panic : CallM St Ev A).
Proof. intros st a st' tr _ E. discriminate E. Qed.

Lemma be_emit I (e : Ev) : leaves_be I (emit e).
Proof. by intros st b st' tr Hst [= <- <- <-]. Qed.

Lemma be_lift {A} I (o : option A) : leaves_be I (lift o).
Proof. destruct o; [by intros st b st' tr Hst [= <- <- <-]|]. intros st b st' tr _ E. discriminate E. Qed.

Lemma be_gets {A} I (f : St -> A) : leaves_be I (gets f).
Proof. by intros st b st' tr Hst [= <- <- <-]. Qed.

Lemma be_modify I (f : St -> St) : (forall st, I st -> I (f st)) -> leaves_be I (modify f).
Proof. intros Hf st b st' tr Hst [= <- <- <-]. by apply Hf. Qed.

Lemma be_bind {A B} I (m : CallM St Ev A) (k : A -> CallM St Ev B) :
  leaves_be I m -> (forall a, leaves_be I (k a)) -> leaves_be I (m ≫= k).
Proof.
  intros Hm Hk st b st' tr Hst E.
  apply bind_inv in E as (a & s1 & t1 & b' & s2 & t2 & E1 & E2 & [= -> -> ->]).
  eapply Hk; [|exact E2]. by eapply Hm.
Qed.

(** A computation that returns with [I], and leaves [J] alone. *)
Lemma returns_be {A} (I J : St -> Prop) (m : CallM St Ev A) st :
  keeps I m -> leaves_be J m -> I st -> J st -> returns m st (fun _ st' _ => I st' /\ J st').
Proof.
  intros Hk Hb HI HJ. pose proof (Hk st HI) as Hr. unfold returns in *.
  destruct (m st) as [[[a st'] tr]|] eqn:E; [|done]. split; [exact Hr|]. by eapply Hb.
Qed.

End Leaves.

(** The structure of a computation. *)
Ltac be :=
  repeat match goal with
  | |- leaves_be _ (_ ≫= _) => apply be_bind; [|intros ?]
  | |- leaves_be _ (mret _) => apply be_ret
  | |- leaves_be _ panic => apply be_panic
  | |- leaves_be _ (emit _) => apply be_emit
  | |- leaves_be _ (write_bytes _) => apply be_emit
  | |- leaves_be _ (lift _) => apply be_lift
  | |- leaves_be _ (gets _) => apply be_gets
  | |- leaves_be _ (if ?b then _ else _) => destruct b
  | |- leaves_be _ (match ?x with _ => _ end) => destruct x
  | |- leaves_be _ (let _ := _ in _) => cbv zeta
  end.

Section Alt.
Context `{CharTables} `{Graphemes} `{BitSet} `{HyperlinkRules} `{Normalization}.
Context (p : Screen).

(** The alternate screen is shown, and the primary one is [p]. *)
Definition behind (s : TermState) : Prop := alt_screen_is_active s = true /\ primary_screen s = p.

Lemma behind_screen sc s : behind s -> behind (set_screen sc s).
Proof. intros [E1 E2]. unfold set_screen. rewrite E1. done. Qed.

Lemma be_on_screen f : leaves_be behind (on_screen f).
Proof. unfold on_screen. be. apply be_modify. intros s. apply behind_screen. Qed.

Lemma behind_semantic s : behind s -> behind (clear_semantic_attribute_due_to_movement s).
Proof. unfold clear_semantic_attribute_due_to_movement. by case_match. Qed.

Lemma behind_absolute x y s : behind s -> behind (set_cursor_position_absolute x y s).
Proof.
  intros Hs. unfold set_cursor_position_absolute. cbv zeta. case_match; [exact Hs|].
  exact (behind_semantic s Hs).
Qed.

Lemma behind_pos x y s : behind s -> behind (set_cursor_pos x y s).
Proof. apply behind_absolute. Qed.

Lemma behind_save s : behind s -> behind (dec_save_cursor s).
Proof. apply behind_screen. Qed.

Lemma behind_restore s : behind s -> behind (dec_restore_cursor s).
Proof. intros Hs. unfold dec_restore_cursor. cbv zeta. exact (behind_pos _ _ (set_dec_origin_mode false s) Hs). Qed.

(** The changes of single fields and of the screen that is shown. *)
Ltac be_state :=
  lazymatch goal with |- leaves_be _ (modify _) => idtac end;
  apply be_modify; intros ?s ?Hs; first
  [ exact Hs | by apply behind_screen | by apply behind_pos | by apply behind_absolute
  | by apply behind_save | by apply behind_restore | idtac ].

Lemma be_scroll_up n : leaves_be behind (term_scroll_up n).
Proof. unfold term_scroll_up. be. apply be_on_screen. Qed.

Lemma be_scroll_down n : leaves_be behind (term_scroll_down n).
Proof. unfold term_scroll_down. be. apply be_on_screen. Qed.

Lemma be_new_line b : leaves_be behind (new_line b).
Proof. unfold new_line. be; first [apply be_scroll_up | be_state]. Qed.

Lemma be_print_graphemes sq gs : leaves_be behind (print_graphemes sq gs).
Proof.
  induction gs as [|g gs IH]; cbn [print_graphemes]; be; [|done].
  unfold print_grapheme, wrap_line. be; first [apply be_on_screen | apply be_new_line | be_state].
Qed.

Lemma be_flush : leaves_be behind flush_print.
Proof. unfold flush_print. be; first [apply be_print_graphemes | be_state]. Qed.

Lemma behind_carriage_return s : behind s -> behind (carriage_return s).
Proof. intros Hs. unfold carriage_return. cbv zeta. by apply behind_screen, behind_semantic. Qed.

Lemma be_control c : leaves_be behind (control c).
Proof.
  unfold control, pop_tmux_title_state. be; try apply be_flush; try be_state.
  - unfold backspace. be; be_state.
  - unfold c0_horizontal_tab. be; be_state.
  - unfold line_feed. be; first [apply be_new_line | be_state]. by apply behind_semantic.
  - unfold line_feed. be; first [apply be_new_line | be_state]. by apply behind_semantic.
  - unfold line_feed. be; first [apply be_new_line | be_state]. by apply behind_semantic.
  - by apply behind_carriage_return.
  - unfold c1_index. be; first [apply be_scroll_up | be_state].
  - unfold c1_nel. be; first [apply be_scroll_up | be_state].
  - unfold c1_hts. be; be_state.
  - unfold c1_reverse_index. be; first [apply be_scroll_down | be_state].
Qed.

Lemma be_repeat n (m : T unit) : leaves_be behind m -> leaves_be behind (repeat_n n m).
Proof. intros Hm. induction n as [|n IH]; cbn [repeat_n]; be; done. Qed.

Lemma be_erase_line e : leaves_be behind (erase_in_line e).
Proof. unfold erase_in_line. be. apply be_on_screen. Qed.

Lemma be_erase_display e : leaves_be behind (erase_in_display e).
Proof. unfold erase_in_display. be; first [apply be_on_screen | apply be_erase_line]. Qed.

Lemma be_repeat_loop n c m region sq x y : leaves_be behind (repeat_loop n c m region sq x y).
Proof.
  revert x y. induction n as [|n IH]; intros x y; cbn [repeat_loop]; be;
    first [apply be_on_screen | apply be_scroll_up | apply IH].
Qed.

Lemma be_edit e : leaves_be behind (perform_csi_edit e).
Proof.
  unfold perform_csi_edit. be; first
    [ apply be_on_screen | apply be_erase_line | apply be_erase_display | apply be_scroll_up
    | apply be_scroll_down | apply be_repeat_loop | be_state ].
Qed.

Lemma be_margins l r : leaves_be behind (set_left_and_right_margins l r).
Proof. unfold set_left_and_right_margins. be; be_state. Qed.

Lemma be_cursor c : leaves_be behind (perform_csi_cursor c).
Proof.
  unfold perform_csi_cursor. be; try apply be_margins; try apply be_repeat; try be_state.
  - unfold c0_horizontal_tab. be; be_state.
Qed.

(** The modes that change the screen. *)
Definition screen_mode (c : DecPrivateModeCode) : bool :=
  match c with
  | DecPrivateModeCode_ClearAndEnableAlternateScreen | DecPrivateModeCode_EnableAlternateScreen
  | DecPrivateModeCode_OptEnableAlternateScreen => true
  | _ => false
  end.

Lemma be_select_132 : leaves_be behind select_132_columns.
Proof. unfold select_132_columns. be; first [apply be_erase_display | be_state]. Qed.

Lemma be_set_mode c : screen_mode c = false -> leaves_be behind (set_dec_mode c).
Proof.
  destruct c; try discriminate; intros _; cbn [set_dec_mode]; be; try apply be_select_132; be_state.
Qed.

Lemma be_reset_mode c : screen_mode c = false -> leaves_be behind (reset_dec_mode c).
Proof.
  destruct c; try discriminate; intros _; cbn [reset_dec_mode]; be; try apply be_select_132; be_state.
Qed.

Lemma be_decqrm m r e : leaves_be behind (decqrm_response m r e).
Proof. unfold decqrm_response, decqrm, write_bytes. be. Qed.

(** Modes that keep the screen that is shown. *)
Definition same_screen_mode (m : Mode) : bool :=
  match m with
  | SetDecPrivateMode (DecPrivateMode_Code c) | ResetDecPrivateMode (DecPrivateMode_Code c) =>
      negb (screen_mode c)
  | _ => true
  end.

Lemma be_mode m : same_screen_mode m = true -> leaves_be behind (perform_csi_mode m).
Proof.
  intros Hm. destruct m as [[c|n]|[c|n]|c|c|[c|n]|[c|n]|[c|n]|[c|n]|r w]; cbn [perform_csi_mode same_screen_mode] in *;
    try (by be); try apply be_decqrm.
  - apply be_set_mode. by destruct (screen_mode c).
  - apply be_reset_mode. by destruct (screen_mode c).
  - destruct c; unfold answer_query, decqrm_response_permanent, decqrm, write_bytes; be; apply be_decqrm.
  - destruct c; be_state.
  - destruct c; be_state.
  - unfold answer_query. be; apply be_decqrm.
  - destruct r; be. be_state.
Qed.

Lemma be_device d : d <> SoftReset -> leaves_be behind (perform_device d).
Proof. intros Hd. unfold perform_device, write_bytes. by be. Qed.

Lemma be_window w : leaves_be behind (perform_csi_window w).
Proof. unfold perform_csi_window, write_window, write_bytes. be. Qed.

Lemma be_keyboard k : leaves_be behind (perform_keyboard k).
Proof. unfold perform_keyboard, write_bytes. be; be_state. Qed.

(** The sequences that neither change the screen nor reset the terminal. *)
Definition same_screen (a : Action) : bool :=
  match a with
  | Action_Esc (Esc_Code FullReset) => false
  | Action_CSI (CSI_Device SoftReset) => false
  | Action_CSI (CSI_Mode m) => same_screen_mode m
  | _ => true
  end.

Lemma be_esc e : e <> Esc_Code FullReset -> leaves_be behind (esc_dispatch e).
Proof.
  intros He. unfold esc_dispatch, pop_tmux_title_state, set_icon_name_and_window_title, on_cursor_line,
    screen_alignment_display. be; try apply be_flush; try apply be_on_screen; try be_state; try done.
  all: unfold c1_index, c1_nel, c1_hts, c1_reverse_index; be;
    first [apply be_scroll_up | apply be_scroll_down | be_state].
Qed.

Lemma behind_print c s : behind s -> behind (print c s).
Proof. unfold print. by case_match. Qed.

Lemma be_perform a : same_screen a = true -> leaves_be behind (perform a).
Proof.
  intros Ha. destruct a as [c|cs|c|e|c]; cbn [perform].
  - apply be_modify. apply behind_print.
  - apply be_modify. induction cs as [|c cs IH]; intros s Hs; [done|]. cbn. by apply IH, behind_print.
  - apply be_control.
  - apply be_esc. by intros ->.
  - unfold csi_dispatch, pop_tmux_title_state. apply be_bind; [be_state|intros _].
    apply be_bind; [apply be_flush|intros _]. destruct c as [g|c|e|m|d|m|w|k|path n|u]; cbn [same_screen] in Ha.
    + be_state.
    + destruct c; try apply be_cursor. apply be_repeat, be_control.
    + apply be_edit.
    + by apply be_mode.
    + apply be_device. by intros ->.
    + apply be_ret.
    + apply be_window.
    + apply be_keyboard.
    + be; be_state.
    + apply be_ret.
Qed.

Lemma be_perform_all l : forallb same_screen l = true -> leaves_be behind (perform_all l).
Proof.
  induction l as [|a l IH]; cbn [perform_all forallb]; intros Hl; [apply be_ret|]. bool_to_prop.
  apply be_bind; [by apply be_perform|intros _; by apply IH].
Qed.

End Alt.

(** ** Entering and leaving *)

Section RoundTrip.
Context `{CharTables} `{Graphemes} `{BitSet} `{!BitSetLaws} `{HyperlinkRules} `{Normalization}.
Context (G : list Z -> Prop) `{!SimpleText G}.
Context (max_cols : nat) (Hmax : Z.of_nat max_cols <= u16_max).
Context (v : UnicodeVersion) `{!PrintableText G v}.
Context (R C : nat) (origins : bool).

Abbreviation plain := (plain_term G max_cols v R C origins).

(** A line without the number of its last change. *)
Definition content (l : Line) : CellStorage * list ZoneRange * Z := (storage l, zones l, line_bits l).

Definition shown (sc : Screen) : list (CellStorage * list ZoneRange * Z) := map content (lines sc).

(** The same screen but for these marks. *)
Definition same_shown (sc sc' : Screen) : Prop :=
  shown sc' = shown sc /\ stable_row_index_offset sc' = stable_row_index_offset sc /\
  physical_rows sc' = physical_rows sc /\ physical_cols sc' = physical_cols sc /\
  saved_cursor sc' = saved_cursor sc.

Lemma marked_lines ixs sq ls ls' :
  for_lines ixs (Some ∘ update_last_change_seqno sq) ls = Some ls' ->
  map content ls' = map content ls.
Proof.
  revert ls. induction ixs as [|i ixs IH]; intros ls E; [by injection E as ->|]. cbn [for_lines] in E.
  destruct (ls !! i) as [l|] eqn:El; [|done]. cbn in E. rewrite (IH _ E).
  change (map content (<[i:=update_last_change_seqno sq l]> ls)) with (content <$> (<[i:=update_last_change_seqno sq l]> ls)).
  rewrite list_fmap_insert. apply list_insert_id.
  change (map content ls) with (content <$> ls). by rewrite list_lookup_fmap, El.
Qed.

Lemma dirty_top_shown sq sc :
  term_screen G max_cols R C origins sc ->
  yields (dirty_top_phys_rows sq sc) (fun sc' => term_screen G max_cols R C origins sc' /\ same_shown sc sc').
Proof.
  intros Hsc. pose proof (plain_dirty_top G max_cols R C origins sq sc Hsc) as Hd.
  unfold dirty_top_phys_rows in *. destruct (for_lines _ _ _) as [ls|] eqn:E; [|done].
  split; [exact Hd|]. split; [by apply (marked_lines _ _ _ _ E)|done].
Qed.

(** What the cursor is restored to. *)
Definition same_cursor (s s' : TermState) : Prop :=
  cursor_x (cursor s') = cursor_x (cursor s) /\ cursor_y (cursor s') = cursor_y (cursor s) /\
  cursor_shape (cursor s') = cursor_shape (cursor s) /\ wrap_next s' = wrap_next s /\
  pen s' = pen s /\ dec_origin_mode s' = dec_origin_mode s /\
  g0_charset s' = g0_charset s /\ g1_charset s' = g1_charset s.

(** Restoring what was saved, in a terminal of the same size. *)
Lemma restore_saved s s' :
  plain s -> plain s' -> saved_cursor (screen s') = saved_cursor (screen (dec_save_cursor s)) ->
  same_cursor s (dec_restore_cursor s').
Proof.
  intros Hs Hs' E.
  assert (Es : saved_cursor (screen s') = Some (mkSavedCursor (cursor s) (wrap_next s) (pen s)
    (dec_origin_mode s) (g0_charset s) (g1_charset s))).
  { rewrite E. unfold dec_save_cursor, put_saved_cursor, set_screen, screen. by destruct (alt_screen_is_active s) eqn:Ea; cbn; rewrite ?Ea. }
  unfold dec_restore_cursor, saved_cursor_of. rewrite Es. cbn [default from_option id position saved_pen saved_wrap_next
    saved_dec_origin_mode saved_g0_charset saved_g1_charset]. cbv zeta.
  destruct (plain_active G max_cols v R C origins s' Hs') as [_ Er Ec _].
  pose proof (pt_x _ _ _ _ _ _ _ Hs) as Hx. pose proof (pt_y _ _ _ _ _ _ _ Hs) as Hy.
  assert (Ex : resolve_x (Absolute (Z.of_nat (cursor_x (cursor s)))) (set_dec_origin_mode false s') =
    Z.of_nat (cursor_x (cursor s))).
  { unfold resolve_x. cbn [dec_origin_mode set_dec_origin_mode left_and_right_margins].
    destruct (left_and_right_margins s'). change (screen (set_dec_origin_mode false s')) with (screen s').
    rewrite Ec. lia. }
  assert (Ey : resolve_y (Absolute (cursor_y (cursor s))) (set_dec_origin_mode false s') = cursor_y (cursor s)).
  { unfold resolve_y. cbn [dec_origin_mode set_dec_origin_mode top_and_bottom_margins].
    destruct (top_and_bottom_margins s'). change (screen (set_dec_origin_mode false s')) with (screen s').
    rewrite Er. lia. }
  unfold set_cursor_pos. rewrite Ex, Ey, Nat2Z.id. unfold set_cursor_position_absolute.
  by case_match; unfold clear_semantic_attribute_due_to_movement; repeat case_match.
Qed.

(** Mode 1049 is set: the primary screen is behind. *)
Lemma enter_returns s :
  plain s -> alt_screen_is_active s = false ->
  returns (set_dec_mode DecPrivateModeCode_ClearAndEnableAlternateScreen) s (fun _ s' _ =>
    exists p, plain s' /\ behind p s' /\ same_shown (screen (dec_save_cursor s)) p).
Proof.
  intros Hs Ha. cbn [set_dec_mode]. step. rewrite Ha. step.
  assert (Hs1 : plain (dec_save_cursor s)) by by apply plain_save.
  assert (Ea : alt_screen_is_active (dec_save_cursor s) = false).
  { unfold dec_save_cursor, put_saved_cursor, set_screen. by rewrite Ha. }
  assert (Ep : screen (dec_save_cursor s) = primary_screen (dec_save_cursor s)) by (unfold screen; by rewrite Ea).
  rewrite Ep. revert Hs1. generalize (dec_save_cursor s) (term_seqno s). clear s Hs Ha Ea Ep. intros s sq Hs.
  eapply returns_bind with (P := fun _ s' _ =>
    exists p, plain s' /\ behind p s' /\ same_shown (primary_screen s) p).
  { unfold activate_alt_screen. step. step. step.
    eapply yields_weaken; [exact (dirty_top_shown sq _ (pt_primary _ _ _ _ _ _ _ Hs))|]. intros sc [Hsc Hsh]. step.
    exists sc. split; [|done]. by destruct Hs; split. }
  intros _ s1 _ (p & Hs1 & Hb1 & Hsh). step. step.
  eapply returns_weaken; [apply (returns_be plain (behind p))|].
  - apply keeps_erase_in_display. done.
  - apply be_erase_display.
  - eapply plain_view; [|by apply (plain_cursor_pos _ _ _ _ _ _ (Absolute 0) (Absolute 0) s1)]; done.
  - apply (behind_pos p _ _ s1 Hb1).
  - intros _ s2 _ [Hs2 Hb2]. by exists p.
Qed.

Lemma restore_screens s :
  alt_screen_is_active (dec_restore_cursor s) = alt_screen_is_active s /\
  primary_screen (dec_restore_cursor s) = primary_screen s.
Proof.
  unfold dec_restore_cursor, set_cursor_pos, set_cursor_position_absolute. cbv zeta.
  generalize (resolve_x (Absolute (Z.of_nat (cursor_x (position (default
    (mkSavedCursor CursorPosition_default false blank_attrs false CharSet_Ascii CharSet_Ascii)
    (saved_cursor_of s)))))) (set_dec_origin_mode false s)). intros x.
  case_match; [done|]. unfold clear_semantic_attribute_due_to_movement. by case_match.
Qed.

(** Mode 1049 is reset. *)
Lemma leave_returns p s s0 :
  plain s -> behind p s -> plain s0 -> saved_cursor p = saved_cursor (screen (dec_save_cursor s0)) ->
  returns (reset_dec_mode DecPrivateModeCode_ClearAndEnableAlternateScreen) s (fun _ s' _ =>
    plain s' /\ alt_screen_is_active s' = false /\ same_shown p (primary_screen s') /\ same_cursor s0 s').
Proof.
  intros Hs [Ha Hp] Hs0 Hsaved. cbn [reset_dec_mode]. step. rewrite Ha.
  eapply returns_bind with (P := fun _ s' _ =>
    plain s' /\ alt_screen_is_active s' = false /\ same_shown p (primary_screen s')).
  { unfold activate_primary_screen. step. step. step. subst p.
    eapply yields_weaken; [exact (dirty_top_shown (term_seqno s) _ (pt_primary _ _ _ _ _ _ _ Hs))|]. intros sc [Hsc Hsh]. step.
    split; [|done]. by destruct Hs; split. }
  intros _ s1 _ (Hs1 & Ha1 & Hsh). step. split; [by apply plain_restore|].
  destruct (restore_screens s1) as [-> ->]. split; [done|]. split; [done|]. apply restore_saved; [done..|].
  unfold screen at 1. rewrite Ha1. rewrite <- Hsaved. apply Hsh.
Qed.

(** Actions behind which a screen waits. *)
Lemma returns_behind p l a s (Q : TermState -> Prop) :
  Forall (safe_action G origins) l -> forallb same_screen l = true -> plain s -> behind p s ->
  (forall s, plain s -> behind p s -> returns (perform a) s (fun _ s' _ => Q s')) ->
  returns (perform_all (l ++ [a])) s (fun _ s' _ => Q s').
Proof.
  intros Hl Hsame Hs Hp Ha. revert s Hs Hp Hsame.
  induction Hl as [|b l Hb _ IH]; intros s Hs Hp Hsame; cbn [app perform_all].
  - eapply returns_bind; [by apply Ha|]. intros ? s' ? HQ. by step.
  - cbn [forallb] in Hsame. bool_to_prop.
    eapply returns_bind; [apply (returns_be plain (behind p)); [|by apply be_perform|done..]|].
    + by apply keeps_perform.
    + intros _ s' _ [Hs' Hp']. by apply IH.
Qed.

(** C6: The alternate screen protects the primary one. A program that switches to it (mode 1049), does
    there whatever is safe except switching screens or resetting the terminal, and
    switches back finds the primary screen as it was: every line of the view and of the
    scrollback has the same content, the stable rows are the same, and the cursor has its
    place, pen, pending wrap, origin mode and character sets again. *)
Theorem alternate_screen_roundtrip l s :
  plain s -> alt_screen_is_active s = false -> print_buffer s = [] ->
  Forall (safe_action G origins) l -> forallb same_screen l = true ->
  let mode_1049 := DecPrivateMode_Code DecPrivateModeCode_ClearAndEnableAlternateScreen in
  exists s' out,
    perform_all (Action_CSI (CSI_Mode (SetDecPrivateMode mode_1049)) ::
                 l ++ [Action_CSI (CSI_Mode (ResetDecPrivateMode mode_1049))]) s = Some (tt, s', out) /\
    alt_screen_is_active s' = false /\ shown (primary_screen s') = shown (primary_screen s) /\
    stable_row_index_offset (primary_screen s') = stable_row_index_offset (primary_screen s) /\
    same_cursor s s'.
Proof.
  intros Hs Ha Hp Hl Hsame mode_1049.
  set (leave := Action_CSI (CSI_Mode (ResetDecPrivateMode mode_1049))).
  assert (Hs0 : plain (set_accumulating_title None s)) by by eapply plain_view; [|exact Hs].
  enough (Hr : returns (perform_all (Action_CSI (CSI_Mode (SetDecPrivateMode mode_1049)) :: l ++ [leave])) s
    (fun _ s' _ => alt_screen_is_active s' = false /\ shown (primary_screen s') = shown (primary_screen s) /\
      stable_row_index_offset (primary_screen s') = stable_row_index_offset (primary_screen s) /\
      same_cursor s s')).
  { apply yields_exists in Hr as ([[[] s'] out] & -> & Hr). by exists s', out. }
  cbn [perform_all]. eapply returns_bind with (P := fun _ s' _ => exists p, plain s' /\ behind p s' /\
    same_shown (screen (dec_save_cursor (set_accumulating_title None s))) p).
  { cbn [perform]. unfold csi_dispatch, pop_tmux_title_state. step.
    eapply returns_bind with (P := fun _ s' _ => s' = set_accumulating_title None s).
    - unfold flush_print. step. cbn [print_buffer set_accumulating_title]. rewrite Hp. by step.
    - intros _ ? _ ->. by apply enter_returns. }
  intros _ s1 _ (p & Hs1 & Hb1 & Hsh1). eapply (returns_behind p); [done..|].
  clear s1 Hs1 Hb1. intros s1 Hs1 Hb1. cbn [perform]. unfold csi_dispatch, pop_tmux_title_state.
  step. assert (Hs2 : plain (set_accumulating_title None s1)) by by eapply plain_view; [|exact Hs1].
  eapply returns_bind; [apply (returns_be plain (behind p)); [|apply be_flush|exact Hs2|exact Hb1]|].
  { by eapply keeps_flush. }
  cbv beta. intros _ s2 _ [Hs3 Hb3]. destruct Hsh1 as (E1 & E2 & E3 & E4 & E5).
  eapply returns_weaken; [by apply (leave_returns p s2 (set_accumulating_title None s))|].
  cbv beta. intros _ s3 _ (_ & Ha3 & (F1 & F2 & _) & Hc). split; [done|].
  assert (Esh : shown (screen (dec_save_cursor (set_accumulating_title None s))) = shown (primary_screen s) /\
    stable_row_index_offset (screen (dec_save_cursor (set_accumulating_title None s))) =
      stable_row_index_offset (primary_screen s)).
  { unfold dec_save_cursor, put_saved_cursor, set_screen, screen. cbn. rewrite Ha. cbn. by rewrite Ha. }
  destruct Esh as [G1 G2]. split; [congruence|]. split; [congruence|exact Hc].
Qed.

End RoundTrip.

(** ** An example *)

Section Demo.
#[local] Existing Instances demo_tables demo_bitset demo_bitset_laws demo_rules TermBytes.demo_segmentation
  demo_normal capital_simple capital_printable.

(** A program that draws on the alternate screen, saves the cursor there and scrolls. *)
Definition demo_program : list Action :=
  [Action_PrintString (bs "MENU"); Action_Esc (Esc_Code DecSaveCursorPosition);
   Action_CSI (CSI_Edit (Edit_ScrollUp 2)); Action_Control ControlCode_LineFeed;
   Action_CSI (CSI_Mode (SetDecPrivateMode (DecPrivateMode_Code DecPrivateModeCode_ReverseVideo)))].

Lemma alternate_screen_roundtrip_witness :
  exists s' out,
    perform_all (Action_CSI (CSI_Mode (SetDecPrivateMode
        (DecPrivateMode_Code DecPrivateModeCode_ClearAndEnableAlternateScreen))) ::
      demo_program ++ [Action_CSI (CSI_Mode (ResetDecPrivateMode
        (DecPrivateMode_Code DecPrivateModeCode_ClearAndEnableAlternateScreen)))])
      (TermState_new demo_size demo_configuration [] []) = Some (tt, s', out) /\
    alt_screen_is_active s' = false.
Proof.
  destruct (alternate_screen_roundtrip capital 100 ltac:(done) LATEST_UNICODE_VERSION 3 8 false
    demo_program (TermState_new demo_size demo_configuration [] [])) as (s' & out & E & Ha & _).
  - exact demo_term.
  - reflexivity.
  - reflexivity.
  - unfold demo_program. safe_actions.
  - reflexivity.
  - exists s', out. split; [exact E|exact Ha].
Defined.

End Demo.
