(* ===== verification/TermPrint.v ===== *)
(** Printing: the text a program prints is what the row of the cursor shows, from the column of the
    cursor on, and nothing else changes. *)

From Stdlib Require Import ZArith Lia String.
From S2P Require Import Prelude CallMonad Post Color CsiTypes CharWidth Cell CellProps Line LineProps LineEdit LineSafe LineText TermSize TermTypes Esc Screen ScreenProps ScreenSafe Terminal TermPerform TermHost TermSafe TermBytes.
From stdpp Require Import base numbers list option gmap.
Local Open Scope Z_scope.

(** The columns from [x] on show [gs], the others what they did. *)
Definition text_printed (x : nat) (gs ts ts' : list (list Z)) : Prop :=
  forall j, at_col ts' j = if (x <=? j)%nat && (j <? x + length gs)%nat then at_col gs (j - x) else at_col ts j.

Lemma text_printed_nil x ts : text_printed x [] ts ts.
Proof.
  intros j. cbn [length]. destruct (Nat.leb_spec x j); cbn [andb]; [|done].
  by destruct (Nat.ltb_spec j (x + 0)); [lia|].
Qed.

Lemma text_printed_cons x g gs ts ts1 ts2 :
  overwrite x g ts ts1 -> text_printed (S x) gs ts1 ts2 -> text_printed x (g :: gs) ts ts2.
Proof.
  intros H1 H2 j. rewrite (H2 j), (H1 j). cbn [length].
  destruct (Nat.leb_spec (S x) j), (Nat.ltb_spec j (S x + length gs)), (Nat.leb_spec x j),
    (Nat.ltb_spec j (x + S (length gs))), (Nat.eqb_spec j x); cbn [andb]; try lia; try done.
  - unfold at_col. by replace (j - x)%nat with (S (j - S x)) by lia.
  - subst j. by rewrite Nat.sub_diag.
Qed.

Section Print.
Context `{CharTables} `{Graphemes} `{BitSet} `{!BitSetLaws} `{HyperlinkRules} `{Normalization}.
Context (G : list Z -> Prop) `{!SimpleText G}.
Context (max_cols : nat) (Hmax : Z.of_nat max_cols <= u16_max).
Context (v : UnicodeVersion) `{!PrintableText G v}.
Context (R C : nat) (origins : bool).

Abbreviation plain := (plain_term G max_cols v R C origins).

(** Text is printed as it is: no character set, no insertion, no wrap is pending. *)
Record as_is (s : TermState) : Prop := {
  ai_charset : current_charset s = CharSet_Ascii;
  ai_insert : insert_mode s = false;
  ai_wrap : wrap_next s = false;
  ai_x : (cursor_x (cursor s) < (left_and_right_margins s).2)%nat
}.

(** What printing leaves alone. *)
Definition kept (s : TermState) :=
  (alt_screen_is_active s, left_and_right_margins s, top_and_bottom_margins s, insert_mode s,
   dec_auto_wrap s, current_charset s, pen s, cursor_y (cursor s), term_seqno s).

(** From [s] to [s'], the text [gs] was printed. *)
Record printed (gs : list (list Z)) (s s' : TermState) : Prop := {
  pr_kept : kept s' = kept s;
  pr_x : cursor_x (cursor s') = Nat.min (cursor_x (cursor s) + length gs) ((left_and_right_margins s).2 - 1);
  pr_wrap : wrap_next s' =
    ((left_and_right_margins s).2 <=? cursor_x (cursor s) + length gs)%nat && dec_auto_wrap s;
  pr_size : length (lines (screen s')) = length (lines (screen s)) /\
            physical_rows (screen s') = physical_rows (screen s);
  pr_others i : i <> phys_row (cursor_y (cursor s)) (screen s) ->
    lines (screen s') !! i = lines (screen s) !! i;
  pr_row : exists l l', lines (screen s) !! phys_row (cursor_y (cursor s)) (screen s) = Some l /\
    lines (screen s') !! phys_row (cursor_y (cursor s)) (screen s) = Some l' /\
    text_printed (cursor_x (cursor s)) gs (row_text l) (row_text l')
}.

Lemma plain_row s :
  plain s -> (phys_row (cursor_y (cursor s)) (screen s) < length (lines (screen s)))%nat.
Proof.
  intros Hs. destruct (plain_active _ _ _ _ _ _ s Hs) as [Hp Er _ _].
  apply phys_row_lt with (G := G) (max_cols := max_cols); [done|]. rewrite Er. by apply pt_y with (1 := Hs).
Qed.

Lemma printed_nil s : plain s -> as_is s -> printed [] s s.
Proof.
  intros Hs [_ _ Hw Hx]. split; try done.
  - cbn. lia.
  - rewrite Hw. cbn [length]. by rewrite (proj2 (Nat.leb_gt _ _)) by lia.
  - destruct (lookup_lt_is_Some_2 _ _ (plain_row s Hs)) as [l El]. exists l, l.
    split; [done|]. split; [done|]. apply text_printed_nil.
Qed.

Lemma returns_ret_bind {A B} (a : A) (k : A -> T B) s Q :
  returns (k a) s Q -> returns (mret a ≫= k) s Q.
Proof. unfold returns. by rewrite (silent_run (mret a) k s a). Qed.

Lemma set_screen_fields sc s :
  kept (set_screen sc s) = kept s /\ screen (set_screen sc s) = sc /\ cursor (set_screen sc s) = cursor s.
Proof. unfold set_screen, screen. destruct (alt_screen_is_active s) eqn:E; cbn; by rewrite E. Qed.

Lemma on_screen_run f s sc :
  f (screen s) = Some sc -> on_screen f s = Some (tt, set_screen sc s, []).
Proof.
  intros E. unfold on_screen. rewrite (silent_run (gets id) _ s s) by done.
  by rewrite (silent_run (lift _) _ s sc) by (unfold id; by apply lift_run).
Qed.

(** The state after one grapheme, in the line [l'] of the row. *)
Definition after_one (l' : Line) (s : TermState) : TermState :=
  let x := cursor_x (cursor s) in
  let s' := set_screen (set_lines (<[phys_row (cursor_y (cursor s)) (screen s) := l']> (lines (screen s)))
                          (screen s)) s in
  if ((left_and_right_margins s).2 <=? x + 1)%nat then set_wrap_next (dec_auto_wrap s) s'
  else set_wrap_next false (put_x (x + 1) s').

Lemma print_one_run sq g s l l' :
  as_is s -> unicode_version s = v -> grapheme_column_width g (Some v) = 1 ->
  lines (screen s) !! phys_row (cursor_y (cursor s)) (screen s) = Some l ->
  set_cell_grapheme (cursor_x (cursor s)) g 1 (pen s) sq l = Some l' ->
  print_grapheme sq g s = Some (tt, after_one l' s, []).
Proof.
  intros [Hc Hi Hw Hx] Hv Hgw El El'. unfold print_grapheme.
  assert (Er : remap_grapheme g s = g) by (unfold remap_grapheme; by rewrite Hc).
  rewrite (silent_run (gets id) _ s s) by done. cbv zeta. rewrite Er, Hv, Hgw.
  change ((1 =? 0) && negb (is_white_space_grapheme g)) with false. cbv iota. rewrite Hw.
  rewrite (silent_run (mret tt) _ s tt) by done. rewrite (silent_run (gets id) _ s s) by done. cbv zeta.
  rewrite Hi. rewrite (silent_run (mret tt) _ s tt) by done. change (if 1 =? 0 then 1 else 1) with 1.
  set (sc' := set_lines (<[phys_row (cursor_y (cursor s)) (screen s) := l']> (lines (screen s))) (screen s)).
  rewrite (bind_run _ _ s tt (set_screen sc' s) []).
  - unfold after_one. fold sc'. change (Z.to_nat 1) with 1%nat.
    destruct ((left_and_right_margins s).2 <=? cursor_x (cursor s) + 1)%nat; done.
  - apply on_screen_run. unfold screen_set_cell_grapheme, with_line. rewrite El. cbn [mbind option_bind].
    rewrite El'. done.
Qed.

Lemma after_one_printed g s l l' :
  plain s -> as_is s ->
  lines (screen s) !! phys_row (cursor_y (cursor s)) (screen s) = Some l ->
  overwrite (cursor_x (cursor s)) g (row_text l) (row_text l') -> printed [g] s (after_one l' s).
Proof.
  intros Hs [Hc Hi Hw Hx] El Ho. pose proof (plain_row s Hs) as Hrow. unfold after_one. cbv zeta.
  set (sc' := set_lines _ _). destruct (set_screen_fields sc' s) as (Ek & Es & Ecur).
  match goal with |- printed _ _ ?t => set (s' := t) end.
  assert (F : kept s' = kept s /\ screen s' = sc').
  { unfold s'. by case_match. }
  destruct F as [F1 F2]. cbn [length]. split; rewrite ?F2.
  - done.
  - unfold s'. case_match; bool_to_prop; cbn; rewrite ?Ecur; lia.
  - change (length [g]) with 1%nat. unfold s'. by case_match.
  - cbn. by rewrite length_insert.
  - intros i Hn. cbn. by rewrite list_lookup_insert_ne.
  - exists l, l'. split; [done|]. cbn. split; [by rewrite list_lookup_insert_eq|].
    apply (text_printed_cons _ _ _ _ _ _ Ho), text_printed_nil.
Qed.

Lemma print_one sq g s :
  plain s -> as_is s -> G g -> grapheme_column_width g (Some v) = 1 ->
  exists s', print_grapheme sq g s = Some (tt, s', []) /\ plain s' /\ printed [g] s s'.
Proof.
  intros Hs Ha Hg Hgw. destruct (plain_active _ _ _ _ _ _ s Hs) as [Hp Er Ec _].
  pose proof (pt_margins _ _ _ _ _ _ _ Hs) as Hm. pose proof (ai_x _ Ha) as Hx.
  destruct (lookup_lt_is_Some_2 _ _ (plain_row s Hs)) as [l El].
  pose proof (Forall_lookup_1 _ _ _ _ (ps_lines _ _ _ Hp) El) as Hl.
  pose proof (ps_cols _ _ _ Hp) as HC. rewrite Ec in HC.
  destruct (proj1 (yields_exists _ _) (set_grapheme_text G max_cols (cursor_x (cursor s)) g (pen s) sq l
    Hl Hg ltac:(lia))) as (l' & El' & _ & Ho).
  pose proof (print_one_run sq g s l l' Ha (pt_version _ _ _ _ _ _ _ Hs) Hgw El El') as E.
  exists (after_one l' s). split; [exact E|]. split; [|by apply (after_one_printed g s l)].
  pose proof (keeps_print_grapheme G max_cols Hmax v R C origins sq g Hg s Hs) as Hk.
  unfold returns in Hk. by rewrite E in Hk.
Qed.

Lemma print_all sq gs s :
  plain s -> as_is s -> Forall (fun g => G g /\ grapheme_column_width g (Some v) = 1) gs ->
  (cursor_x (cursor s) + length gs <= (left_and_right_margins s).2)%nat ->
  exists s', print_graphemes sq gs s = Some (tt, s', []) /\ plain s' /\ printed gs s s'.
Proof.
  intros Hs Ha Hgs. revert s Hs Ha. induction Hgs as [|g gs [Hg Hgw] _ IH]; intros s Hs Ha Hn.
  - exists s. split; [done|]. split; [done|]. by apply printed_nil.
  - cbn [print_graphemes]. destruct (print_one sq g s Hs Ha Hg Hgw) as (s1 & E1 & Hs1 & Hp1).
    rewrite (bind_run (print_grapheme sq g) (fun _ => print_graphemes sq gs) s tt s1 []) by done. cbn [length] in Hn.
    destruct gs as [|g2 gs]; [by exists s1|].
    destruct Hp1 as [Kk Kx Kw [Kl Kr] Ko (l & l1 & El & El1 & Ht1)]. cbn [length] in *.
    pose proof Kk as Kk'. unfold kept in Kk'. injection Kk' as K1 K2 K3 K4 K5 K6 K7 K8 K9.
    assert (Ex : cursor_x (cursor s1) = S (cursor_x (cursor s))) by (rewrite Kx; lia).
    assert (Ha1 : as_is s1).
    { destruct Ha as [A1 A2 A3 A4]. split; [congruence|congruence| |rewrite Ex, K2; lia].
      rewrite Kw. by rewrite (proj2 (Nat.leb_gt _ _)) by lia. }
    destruct (IH s1 Hs1 Ha1) as (s2 & E2 & Hs2 & Hp2); [rewrite Ex, K2; cbn [length]; lia|].
    rewrite E2. exists s2. split; [done|]. split; [done|].
    destruct Hp2 as [Jk Jx Jw [Jl Jr] Jo (l1' & l2 & Fl & Fl2 & Ht2)]. rewrite Ex in *. rewrite K8, K2 in *.
    assert (Erow : phys_row (cursor_y (cursor s)) (screen s1) = phys_row (cursor_y (cursor s)) (screen s))
      by (unfold phys_row, clamp_visible_row; by rewrite Kl, Kr).
    rewrite Erow in *. rewrite El1 in Fl. injection Fl as <-. split.
    + congruence.
    + rewrite Jx. cbn [length]. f_equal. lia.
    + rewrite Jw, K5. cbn [length]. do 2 f_equal. lia.
    + split; congruence.
    + intros i Hi. by rewrite Jo, Ko.
    + exists l, l2. split; [done|]. split; [done|].
      apply (text_printed_cons _ _ _ _ (row_text l1)); [|done]. intros j. rewrite (Ht1 j).
      change (length [g]) with 1%nat.
      destruct (Nat.leb_spec (cursor_x (cursor s)) j), (Nat.ltb_spec j (cursor_x (cursor s) + 1)),
        (Nat.eqb_spec j (cursor_x (cursor s))); cbn [andb]; try lia; try done.
      subst j. by rewrite Nat.sub_diag.
Qed.

(** ** From characters *)

Lemma print_fold cs s :
  accumulating_title s = None ->
  fold_left (fun s c => print c s) cs s =
    set_print_buffer (print_buffer s ++ concat (map encode_utf8 cs)) s.
Proof.
  revert s. induction cs as [|c cs IH]; intros s Ha; cbn [fold_left map concat].
  - rewrite app_nil_r. by destruct s.
  - unfold print at 2. rewrite Ha. rewrite IH by done. cbn [print_buffer set_print_buffer]. by rewrite app_assoc.
Qed.

Lemma encoded_nonempty cs : concat (map encode_utf8 cs) = [] -> cs = [].
Proof.
  destruct cs as [|c cs]; [done|]. cbn [map concat]. intros [E _]%app_eq_nil. unfold encode_utf8 in E.
  by repeat case_match.
Qed.

Lemma flush_run gs s s' :
  Forall G gs -> print_buffer s = concat gs -> print_buffer s <> [] ->
  print_graphemes (term_seqno s) gs (set_print_buffer [] s) = Some (tt, s', []) ->
  flush_print s = Some (tt, s', []).
Proof.
  intros Hgs Hb Hne E. unfold flush_print. cbv [mbind CallM_bind gets id].
  destruct (print_buffer s) as [|b t] eqn:Eb; [done|]. cbv [modify].
  assert (Et : (if normalize_output_to_unicode_nfc (term_config s) then nfc (b :: t) else b :: t) = concat gs).
  { rewrite Hb, (printable_normal gs Hgs). by case_match. }
  cbv zeta. rewrite Et, simple_segments by done. by rewrite E.
Qed.

(** C3: Printed text is shown. On a terminal without a pending wrap, insertion or a character set, a
    string of characters of one column that fits between the cursor and the right
    margin stands in the row of the cursor afterwards, one character per column from the
    column of the cursor on; the other columns of the row, all other rows and the
    scrollback are the same, the cursor stands behind the text, and only if that is
    the margin it waits in the last column, with a wrap pending in autowrap mode. *)
Theorem text_is_shown cs s :
  plain s -> as_is s -> print_buffer s = [] -> accumulating_title s = None ->
  Forall (fun c => G (encode_utf8 c) /\ grapheme_column_width (encode_utf8 c) (Some v) = 1) cs ->
  (cursor_x (cursor s) + length cs <= (left_and_right_margins s).2)%nat ->
  exists s', (perform (Action_PrintString cs);; flush_print) s = Some (tt, s', []) /\
    plain s' /\ printed (map encode_utf8 cs) s s'.
Proof.
  intros Hs Ha Hb Ht Hcs Hn. cbn [perform]. cbv [mbind CallM_bind modify].
  rewrite print_fold by done. rewrite Hb. cbn [app].
  set (gs := map encode_utf8 cs).
  assert (Hgs : Forall (fun g => G g /\ grapheme_column_width g (Some v) = 1) gs) by by apply Forall_map.
  assert (HG : Forall G gs) by by eapply Forall_impl; [exact Hgs|]; intros ? [].
  destruct (decide (concat gs = [])) as [Ee|Hne].
  - apply encoded_nonempty in Ee. subst cs. cbn in gs. subst gs. exists s.
    assert (set_print_buffer (concat []) s = s) as -> by (destruct s; cbn in Hb; by rewrite Hb).
    split; [|split; [done|by apply printed_nil]]. unfold flush_print. cbv [mbind CallM_bind gets id].
    by rewrite Hb.
  - destruct (print_all (term_seqno s) gs (set_print_buffer [] (set_print_buffer (concat gs) s)))
      as (s' & E & Hs' & Hp).
    + destruct Hs; split; try done. by exists [].
    + by destruct Ha; split.
    + done.
    + unfold gs. by rewrite length_map.
    + exists s'. split; [by rewrite (flush_run gs _ s')|]. split; [done|]. by destruct Hp; split.
Qed.

End Print.

(** ** An example *)

Section Demo.
#[local] Existing Instances demo_tables demo_bitset demo_bitset_laws demo_rules TermBytes.demo_segmentation
  demo_normal capital_simple capital_printable.

Lemma text_is_shown_witness :
  exists s', (perform (Action_PrintString (bs "HELLO"));; flush_print)
    (TermState_new demo_size demo_configuration [] []) = Some (tt, s', []) /\
    cursor_x (cursor s') = 5%nat /\ wrap_next s' = false.
Proof.
  destruct (text_is_shown capital 100 ltac:(done) LATEST_UNICODE_VERSION 3 8 false (bs "HELLO")
    (TermState_new demo_size demo_configuration [] [])) as (s' & E & _ & Hp).
  - exact demo_term.
  - split; [reflexivity|reflexivity|reflexivity|cbn; lia].
  - reflexivity.
  - reflexivity.
  - pose proof (capital_text (bs "HELLO") eq_refl) as Hc. eapply Forall_impl; [exact Hc|].
    intros c (d & E & Hd & Hn). rewrite E. split; [by exists d|]. apply ascii_width; [done|lia].
  - cbn. lia.
  - exists s'. split; [exact E|]. split; [exact (pr_x _ _ _ Hp)|exact (pr_wrap _ _ _ Hp)].
Defined.

End Demo.
