(* ===== verification/TermFaults.v ===== *)
(** Where the terminal fails: input that makes it panic or move wrongly, and the lines of a range
    when the ring buffer of the screen is in two pieces. *)

From Stdlib Require Import ZArith Lia String.
From S2P Require Import Prelude VtParse CallMonad Post Color CsiTypes CsiParse CharWidth Cell CellProps Line LineProps LineEdit LineSafe TermSize TermTypes Esc Screen ScreenProps ScreenSafe Terminal TermPerform TermHost TermSafe TermBytes.
From stdpp Require Import base numbers list option gmap.
Local Open Scope Z_scope.

Section Slices.
Context `{CharTables} `{Graphemes} `{BitSet} `{HyperlinkRules}.

Lemma slice_ok {A} a b (l : list A) :
  (a <= b <= length l)%nat -> slice (a, b) l = Some (take (b - a) (drop a l)).
Proof.
  intros Hab. unfold slice. cbn [fst snd].
  by rewrite (proj2 (Nat.leb_le a b)), (proj2 (Nat.leb_le b (length l))) by lia.
Qed.

(** The part of a range in the first piece, and in the second one. *)
Lemma first_piece {A} a b (f : list A) :
  slice (phys_intersection (O, length f) (a, b)) f = Some (take (b - a) (drop a f)).
Proof.
  unfold phys_intersection. cbn [fst snd]. cbv zeta. rewrite Nat.max_0_l.
  destruct (Nat.ltb_spec a (Nat.min (length f) b)).
  - rewrite slice_ok by lia. f_equal. destruct (decide (b <= length f)%nat); [by rewrite Nat.min_r by lia|].
    by rewrite !take_ge by (rewrite length_drop; lia).
  - rewrite slice_ok by lia. f_equal. destruct (decide (b <= a)%nat) as [Hb|].
    + by rewrite (proj2 (Nat.sub_0_le b a)) by lia.
    + by rewrite (drop_ge f a), take_nil by lia.
Qed.

Lemma second_piece {A} n a b (l : list A) :
  (b <= n + length l)%nat ->
  let r := phys_intersection (n, n + length l)%nat (a, b) in
  slice (r.1 - n, r.2 - n)%nat l = Some (take (b - a - (n - a)) (drop (a - n) l)).
Proof.
  intros Hb. unfold phys_intersection. cbn [fst snd]. cbv zeta.
  destruct (Nat.ltb_spec (Nat.max n a) (Nat.min (n + length l) b)); cbn [fst snd].
  - rewrite slice_ok by lia. f_equal. rewrite Nat.min_r by lia.
    replace (Nat.max n a - n)%nat with (a - n)%nat by lia. f_equal. lia.
  - rewrite slice_ok by lia. f_equal. rewrite (proj2 (Nat.sub_0_le (b - a) (n - a))) by lia. done.
Qed.

(** C33: The ring buffer is stored in two pieces. [with_phys_lines_mut] gives exactly the lines of the
    range, wherever the cut is; [with_phys_lines], which does not subtract the length of the
    first piece, gives them when the range lies in the first piece. *)
Theorem lines_of_two_pieces (first second : list Line) (r : range nat) :
  (r.1 <= r.2 <= length first + length second)%nat ->
  with_phys_lines_mut first second r = Some (take (r.2 - r.1) (drop r.1 (first ++ second))) /\
  ((r.2 <= length first)%nat ->
   with_phys_lines first second r = Some (take (r.2 - r.1) (drop r.1 (first ++ second)))).
Proof.
  destruct r as [a b]. cbn [fst snd]. intros Hr.
  assert (E : take (b - a) (drop a (first ++ second)) =
    take (b - a) (drop a first) ++ take (b - a - (length first - a)) (drop (a - length first) second)).
  { by rewrite drop_app, take_app, length_drop. }
  unfold with_phys_lines_mut, with_phys_lines. cbv zeta. cbn [fst snd].
  rewrite usize_sub_Some by lia. cbn [mbind option_bind]. rewrite first_piece. cbn [mbind option_bind]. split.
  - rewrite (second_piece _ a b) by lia. cbn [mbind option_bind]. by rewrite E.
  - intros Hb. unfold phys_intersection. cbn [fst snd]. cbv zeta.
    destruct (Nat.ltb_spec (Nat.max (length first) a) (Nat.min (length first + length second) b)); [lia|].
    rewrite slice_ok by lia. cbn [mbind option_bind]. rewrite E.
    rewrite (proj2 (Nat.sub_0_le (b - a) (length first - a))) by lia. done.
Qed.

End Slices.

(** ** Sequences that panic or move wrongly *)

Section Oversights.
Context `{CharTables} `{Graphemes} `{BitSet} `{!BitSetLaws} `{HyperlinkRules} `{Normalization}.
Context (G : list Z -> Prop) `{!SimpleText G}.
Context (max_cols : nat) (v : UnicodeVersion) `{!PrintableText G v}.
Context (R C : nat) (origins : bool).

Abbreviation plain := (plain_term G max_cols v R C origins).

Lemma tab_stop_set s :
  c1_hts s = None <-> (length (tab_stops (tabs s)) <= cursor_x (cursor s))%nat.
Proof.
  unfold c1_hts, set_tab_stop, arr_set. cbv [gets lift modify mbind CallM_bind option_bind id].
  destruct (Nat.ltb_spec (cursor_x (cursor s)) (length (tab_stops (tabs s)))); split; done || lia.
Qed.

(** An absolute column past the last puts the cursor one past the last. *)
Lemma cursor_past_last x y s :
  plain s -> dec_origin_mode s = false -> Z.of_nat C <= x ->
  cursor_x (cursor (set_cursor_pos (Absolute x) y s)) = C.
Proof.
  intros Hs Ho Hx. destruct (plain_active _ _ _ _ _ _ s Hs) as [_ _ Ec _].
  unfold set_cursor_pos, set_cursor_position_absolute, resolve_x. cbn. rewrite Ho, Ec.
  destruct (left_and_right_margins s). lia.
Qed.

Lemma tabs_moved x y s : tabs (set_cursor_pos x y s) = tabs s.
Proof.
  unfold set_cursor_pos, set_cursor_position_absolute, clear_semantic_attribute_due_to_movement.
  by repeat case_match.
Qed.

(** The lines from the top of the report down to the cursor. *)
Definition rows_below_top (s : TermState) : Z :=
  cursor_y (cursor s) - (if dec_origin_mode s then (top_and_bottom_margins s).1 else 0).

Lemma rows_below_top_in s : plain s -> - Z.of_nat R < rows_below_top s < Z.of_nat R.
Proof.
  intros Hs. pose proof (pt_y _ _ _ _ _ _ s Hs). pose proof (pt_region _ _ _ _ _ _ s Hs).
  unfold rows_below_top. case_match; lia.
Qed.

(** The line is an unsigned number; nothing else can fail. *)
Lemma reported_line s :
  Z.of_nat max_cols <= u16_max -> plain s ->
  exists col, reported_position s =
    (line ← from_zero_based (as_u32 (rows_below_top s)); Some (line, col)).
Proof.
  intros Hmax Hs. pose proof (rows_below_top_in s Hs) as Hr. pose proof (pt_height _ _ _ _ _ _ s Hs) as HR.
  pose proof (term_cols _ _ _ _ _ _ s Hs) as HC. destruct (plain_active _ _ _ _ _ _ s Hs) as [_ _ Ec _].
  unfold reported_position. fold (rows_below_top s). cbv zeta.
  rewrite i64_sat_id by (unfold in_i64, i64_min, i64_max, u32_max in *; lia).
  rewrite Ec, usize_sub_Some by lia. cbn [mbind option_bind].
  unfold from_zero_based at 1. set (n := (Nat.min _ _ - _)%nat).
  assert (Z.of_nat n <= u16_max) by (subst n; lia). unfold u16_max in *.
  rewrite as_u32_id by (unfold u32_max; lia). rewrite (proj2 (Z.leb_le _ _)) by (unfold u32_max; lia).
  by eexists.
Qed.

(** Below the top the line is the distance; above it the number wraps around, and in the row
    just above, one more does not fit. *)
Lemma line_wraps s :
  plain s ->
  from_zero_based (as_u32 (rows_below_top s)) =
    if rows_below_top s =? -1 then None
    else Some (mkOneBased (rows_below_top s + 1 + (if rows_below_top s <? 0 then 2 ^ 32 else 0))).
Proof.
  intros Hs. pose proof (rows_below_top_in s Hs) as Hr. pose proof (pt_height _ _ _ _ _ _ s Hs) as HR.
  set (d := rows_below_top s) in *. unfold from_zero_based, as_u32, u32_max in *.
  assert (d mod 2 ^ 32 = d + (if d <? 0 then 2 ^ 32 else 0)) as ->.
  { destruct (Z.ltb_spec d 0); [|rewrite Z.mod_small; lia].
    rewrite <- (Z.mod_add d 1), Z.mod_small by lia. lia. }
  destruct (Z.eqb_spec d (-1)) as [->|]; [done|].
  rewrite (proj2 (Z.leb_le _ _)) by (destruct (Z.ltb_spec d 0); lia). do 2 f_equal. lia.
Qed.

(** Every row past the last is read past the lines. *)
Lemma row_past_last sc y :
  (physical_rows sc <= length (lines sc))%nat -> Z.of_nat (physical_rows sc) <= y ->
  lines sc !! phys_row y sc = None.
Proof.
  intros Hl Hy. apply lookup_ge_None_2. unfold phys_row, clamp_visible_row. lia.
Qed.

Lemma checksum_past_last ys a b sc sum y :
  (physical_rows sc <= length (lines sc))%nat -> y ∈ ys -> Z.of_nat (physical_rows sc) <= y ->
  checksum_rows ys a b sc sum = None.
Proof.
  intros Hl Hin Hy. revert sum. induction ys as [|y' ys IH]; intros sum; [by apply not_elem_of_nil in Hin|].
  cbn [checksum_rows]. destruct (rust_assert _); [|done]. cbn [mbind option_bind].
  apply elem_of_cons in Hin as [<-|Hin]; [by rewrite row_past_last|].
  destruct (lines sc !! _); [|done]. cbn [mbind option_bind].
  destruct (checksum_cells _ _ _); [|done]. by apply IH.
Qed.

(** A line feed outside the last row of the region only moves the cursor. *)
Lemma line_feed_moves s :
  cursor_y (cursor s) <> (top_and_bottom_margins s).2 - 1 ->
  new_line false s =
    Some (tt, set_cursor_pos (Absolute (Z.of_nat (cursor_x (cursor s))))
                (Absolute (cursor_y (cursor s) + 1)) s, []).
Proof.
  intros Hy. unfold new_line. cbv [gets modify mbind CallM_bind id mret CallM_ret].
  by rewrite (proj2 (Z.eqb_neq _ _)).
Qed.


(** The state after some actions. *)
Definition after (l : list Action) (s : TermState) : TermState :=
  from_option (fun r => r.1.2) s (perform_actions l s).

Lemma after_plain l s :
  Z.of_nat max_cols <= u16_max -> Forall (safe_action G origins) l -> plain s -> plain (after l s).
Proof.
  intros Hmax Hl Hs. pose proof (keeps_actions _ _ Hmax _ _ _ _ l Hl s Hs) as Hk.
  unfold returns in Hk. unfold after. by destruct (perform_actions l s) as [[[[] s'] out]|].
Qed.

End Oversights.

(** ** Examples *)

Section Demo.
#[local] Existing Instances demo_tables demo_bitset demo_bitset_laws demo_rules TermBytes.demo_segmentation
  demo_normal capital_simple capital_printable.

(** A new terminal that was given bytes. *)
Definition fed (rows cols : Z) (bytes : list Z) : option TermState :=
  '(t, _) ← advance_bytes bytes (Terminal_new (mkSize rows cols 0 0 96) demo_configuration [] []);
  Some (state t).

(** The row of its cursor. *)
Definition fed_row (rows cols : Z) (bytes : list Z) : option Z :=
  s ← fed rows cols bytes; Some (cursor_y (cursor s)).

Definition csi (s : string) : list Z := 27 :: 91 :: bs s.

(** The failures, from bytes; the checksum of a rectangle is enabled in this configuration. *)
Example oversights_from_bytes :
  fed 3 8 (csi "1;999H" ++ [27; 72]) = None /\
  fed 10 8 (csi "5;8r" ++ csi "?6h" ++ csi "1k" ++ csi "6n") = None /\
  fed 3 8 (csi "1;1;1;1;4;8*y") = None /\
  fed_row 10 8 (csi "3;8r" ++ csi "?6h") = Some 2 /\
  fed_row 10 8 (csi "3;8r" ++ csi "?6h" ++ [10]) = Some 5.
Proof. by vm_compute. Qed.

Definition two_cells (a b : Z) (wrapped : bool) : Line :=
  from_cells [new_grapheme_with_width [a] 1 blank_attrs;
              new_grapheme_with_width [b] 1 (set_wrapped wrapped blank_attrs)] 1.

(** Two rows, ab and cd; the second one may be marked as wrapped. *)
Definition abcd (wrapped : bool) : Screen :=
  set_lines [two_cells 97 98 false; two_cells 99 100 wrapped]
    (Screen_new (mkSize 2 2 0 0 96) demo_configuration true 1 demo_bidi).

Definition widened (sc : Screen) : option (list (list Z)) :=
  '(sc, _) ← screen_resize (mkSize 2 3 0 0 96) CursorPosition_default 2 false sc;
  Some (map as_str (lines sc)).

(** Reflowing loses the last line when its row is marked as wrapped; [with_phys_lines] gives
    the wrong line, or panics, when the range reaches the second piece of the buffer. *)
Example lines_lost :
  widened (abcd false) = Some [bs "ab"; bs "cd"] /\ widened (abcd true) = Some [bs "ab"; []] /\
  (let '(a, b, c) := (two_cells 97 98 false, two_cells 99 100 false, two_cells 101 102 false) in
   with_phys_lines [a] [b; c] (1, 2)%nat = Some [c] /\ with_phys_lines [a] [b; c] (0, 3)%nat = None).
Proof. by vm_compute. Qed.

Lemma lines_of_two_pieces_witness :
  let '(a, b, c) := (two_cells 97 98 false, two_cells 99 100 false, two_cells 101 102 false) in
  with_phys_lines_mut [a] [b; c] (1, 2)%nat = Some [b].
Proof.
  destruct (lines_of_two_pieces [two_cells 97 98 false] [two_cells 99 100 false; two_cells 101 102 false]
    (1, 2)%nat) as [E _]; [cbn; lia|exact E].
Defined.

(** A region of rows 4 to 7 in origin mode, and then the cursor goes up. *)
Definition above_region (up : Z) : list Action :=
  [Action_CSI (CSI_Cursor (Cursor_SetTopAndBottomMargins (mkOneBased 5) (mkOneBased 8)));
   Action_CSI (CSI_Mode (SetDecPrivateMode (DecPrivateMode_Code DecPrivateModeCode_OriginMode)));
   Action_CSI (CSI_Cursor (Cursor_LinePositionBackward up))].

Definition above (up : Z) : TermState :=
  after (above_region up) (TermState_new (mkSize 10 8 0 0 96) demo_configuration [] []).

Lemma above_plain up : plain_term capital 100 LATEST_UNICODE_VERSION 10 8 true (above up).
Proof.
  apply after_plain; [apply _|apply _|done|unfold above_region; safe_actions|]. by apply plain_term_new; try lia.
Qed.


End Demo.
