(* ===== verification/Keyboard.v ===== *)
(** The bytes a key is sent as: [KeyCode::encode] of [src/termwiz/src/input.rs], the modifiers and
    the control characters of [src/wakterm-input-types/src/lib.rs]. A string is the list of its
    characters; [None] is a panic. *)

From Stdlib Require Import ZArith Lia String.
From S2P Require Import Prelude CsiTypes TermTypes.
From stdpp Require Import base numbers list option.
Local Open Scope Z_scope.

(** ** Modifiers, beside those of [CsiTypes] *)

Definition Modifiers_LEFT_ALT : Z := 32.
Definition Modifiers_RIGHT_ALT : Z := 64.
Definition Modifiers_LEFT_CTRL : Z := 256.
Definition Modifiers_RIGHT_CTRL : Z := 512.
Definition Modifiers_LEFT_SHIFT : Z := 1024.
Definition Modifiers_RIGHT_SHIFT : Z := 2048.
Definition Modifiers_ENHANCED_KEY : Z := 4096.

Definition has (mods flag : Z) : bool := Z.land mods flag =? flag.

(** [mods - flags], [mods & !flags]. *)
Definition without_mods (mods flags : Z) : Z := Z.ldiff mods flags.

Definition positional_mods : Z :=
  Z.lor Modifiers_LEFT_ALT (Z.lor Modifiers_RIGHT_ALT (Z.lor Modifiers_LEFT_CTRL
    (Z.lor Modifiers_RIGHT_CTRL (Z.lor Modifiers_LEFT_SHIFT
      (Z.lor Modifiers_RIGHT_SHIFT Modifiers_ENHANCED_KEY))))).

Definition remove_positional_mods (mods : Z) : Z := without_mods mods positional_mods.

Definition encode_xterm (mods : Z) : Z :=
  let number := 0 in
  let number := if has mods Modifiers_SHIFT then Z.lor number 1 else number in
  let number := if has mods Modifiers_ALT then Z.lor number 2 else number in
  if has mods Modifiers_CTRL then Z.lor number 4 else number.

(** ** Keys *)

Inductive KeyCode : Set :=
  | Key_Char (c : Z) | Key_Hyper | Key_Super | Key_Meta | Key_Cancel | Key_Backspace | Key_Tab
  | Key_Clear | Key_Enter | Key_Shift | Key_Escape | Key_LeftShift | Key_RightShift
  | Key_Control | Key_LeftControl | Key_RightControl | Key_Alt | Key_LeftAlt | Key_RightAlt
  | Key_Menu | Key_LeftMenu | Key_RightMenu | Key_Pause | Key_CapsLock | Key_PageUp
  | Key_PageDown | Key_End | Key_Home | Key_LeftArrow | Key_RightArrow | Key_UpArrow
  | Key_DownArrow | Key_Select | Key_Print | Key_Execute | Key_PrintScreen | Key_Insert
  | Key_Delete | Key_Help | Key_LeftWindows | Key_RightWindows | Key_Applications | Key_Sleep
  | Key_Numpad0 | Key_Numpad1 | Key_Numpad2 | Key_Numpad3 | Key_Numpad4 | Key_Numpad5
  | Key_Numpad6 | Key_Numpad7 | Key_Numpad8 | Key_Numpad9 | Key_Multiply | Key_Add
  | Key_Separator | Key_Subtract | Key_Decimal | Key_Divide | Key_Function (n : Z)
  | Key_NumLock | Key_ScrollLock | Key_Copy | Key_Cut | Key_Paste | Key_BrowserBack
  | Key_BrowserForward | Key_BrowserRefresh | Key_BrowserStop | Key_BrowserSearch
  | Key_BrowserFavorites | Key_BrowserHome | Key_VolumeMute | Key_VolumeDown | Key_VolumeUp
  | Key_MediaNextTrack | Key_MediaPrevTrack | Key_MediaStop | Key_MediaPlayPause
  | Key_ApplicationLeftArrow | Key_ApplicationRightArrow | Key_ApplicationUpArrow
  | Key_ApplicationDownArrow | Key_KeyPadHome | Key_KeyPadEnd | Key_KeyPadPageUp
  | Key_KeyPadPageDown | Key_KeyPadBegin | Key_InternalPasteStart | Key_InternalPasteEnd.

#[export] Instance KeyCode_eq_dec : EqDecision KeyCode.
Proof. solve_decision. Defined.

Definition is_modifier (k : KeyCode) : bool :=
  match k with
  | Key_Hyper | Key_Super | Key_Meta | Key_Shift | Key_LeftShift | Key_RightShift | Key_Control
  | Key_LeftControl | Key_RightControl | Key_Alt | Key_LeftAlt | Key_RightAlt | Key_LeftWindows
  | Key_RightWindows => true
  | _ => false
  end.

Definition is_ascii_lowercase (c : Z) : bool := rng 97 122 c.
Definition is_ascii_uppercase (c : Z) : bool := rng 65 90 c.
Definition is_ascii_alphanumeric (c : Z) : bool :=
  is_ascii_lowercase c || is_ascii_uppercase c || rng 48 57 c.
Definition is_ascii_punctuation (c : Z) : bool :=
  rng 33 47 c || rng 58 64 c || rng 91 96 c || rng 123 126 c.

Definition normalize_shift_to_upper_case (k : KeyCode) (mods : Z) : KeyCode :=
  if has mods Modifiers_SHIFT then
    match k with
    | Key_Char c => if is_ascii_lowercase c then Key_Char (c - 32) else k
    | _ => k
    end
  else k.

(** The control character of a character, as pairs. *)
Definition ctrl_table : list (Z * Z) :=
  [(64, 0); (96, 0); (32, 0); (50, 0); (65, 1); (97, 1); (66, 2); (98, 2); (67, 3); (99, 3);
   (68, 4); (100, 4); (69, 5); (101, 5); (70, 6); (102, 6); (71, 7); (103, 7); (72, 8);
   (104, 8); (73, 9); (105, 9); (74, 10); (106, 10); (75, 11); (107, 11); (76, 12); (108, 12);
   (77, 13); (109, 13); (78, 14); (110, 14); (79, 15); (111, 15); (80, 16); (112, 16);
   (81, 17); (113, 17); (82, 18); (114, 18); (83, 19); (115, 19); (84, 20); (116, 20);
   (85, 21); (117, 21); (86, 22); (118, 22); (87, 23); (119, 23); (88, 24); (120, 24);
   (89, 25); (121, 25); (90, 26); (122, 26); (91, 27); (51, 27); (123, 27); (92, 28); (52, 28);
   (124, 28); (93, 29); (53, 29); (125, 29); (94, 30); (54, 30); (126, 30); (95, 31); (55, 31);
   (47, 31); (56, 127); (63, 127)].

Definition ctrl_mapping (c : Z) : option Z :=
  snd <$> List.find (fun r => r.1 =? c) ctrl_table.

Definition is_ambiguous_ascii_ctrl (c : Z) : bool :=
  existsb (Z.eqb c) ["i"%ch; "I"%ch; "m"%ch; "M"%ch; "["%ch; "{"%ch; "@"%ch].

Definition is_ascii (c : Z) : bool := c <? 0x80.

(** ** Encoding *)

Record KeyCodeEncodeModes : Set := mkModes {
  m_encoding : KeyboardEncoding;
  m_application_cursor_keys : bool;
  m_newline_mode : bool;
  m_modify_other_keys : option Z }.

Definition key_CSI : list Z := 27 :: bs "[".
Definition key_SS3 : list Z := 27 :: bs "O".

Definition csi_u_encode (buf : list Z) (c mods : Z) (modes : KeyCodeEncodeModes) : list Z :=
  let plain :=
    let c := if has mods Modifiers_CTRL then default c (ctrl_mapping c) else c in
    buf ++ (if has mods Modifiers_ALT then [27] else []) ++ [c] in
  if bool_decide (m_encoding modes = KeyboardEncoding_CsiU) && is_ascii c then
    buf ++ key_CSI ++ dec c ++ bs ";" ++ dec (1 + encode_xterm mods) ++ bs "u"
  else
    match m_modify_other_keys modes with
    | Some v =>
        if (v =? 1) && existsb (Z.eqb c) ["c"%ch; "d"%ch; 27; 127; 8] then plain
        else buf ++ key_CSI ++ bs "27;" ++ dec (1 + encode_xterm mods) ++ bs ";" ++ dec c ++ bs "~"
    | None => plain
    end.

(** [KEY~] and [KEY;m~], with the modifiers only where they are held. *)
Definition tilde (intro : list Z) (encoded_mods : Z) : list Z :=
  if encoded_mods =? 0 then intro ++ bs "~"
  else intro ++ bs ";" ++ dec (1 + encoded_mods) ++ bs "~".

(** The numbers of the function keys from the fifth on. *)
Definition function_intro (n : Z) : option Z :=
  snd <$> List.find (fun r => r.1 =? n)
    [(1, 11); (2, 12); (3, 13); (4, 14); (5, 15); (6, 17); (7, 18); (8, 19); (9, 20); (10, 21);
     (11, 23); (12, 24); (13, 25); (14, 26); (15, 28); (16, 29); (17, 31); (18, 32); (19, 33);
     (20, 34); (21, 42); (22, 43); (23, 44); (24, 45)].

(** [P], [Q], [R] and [S] of the first four; anything else is unreachable. *)
Definition function_letter (n : Z) : option Z :=
  if rng 1 4 n then Some ("O"%ch + n) else None.

Definition any_of_three (mods : Z) : bool :=
  has mods Modifiers_ALT || has mods Modifiers_SHIFT || has mods Modifiers_CTRL.

(** The cursor keys: whether the application form is forced, and the letter. *)
Definition cursor_key (k : KeyCode) : option (bool * Z) :=
  match k with
  | Key_UpArrow => Some (false, "A"%ch)
  | Key_DownArrow => Some (false, "B"%ch)
  | Key_RightArrow => Some (false, "C"%ch)
  | Key_LeftArrow => Some (false, "D"%ch)
  | Key_KeyPadHome | Key_Home => Some (false, "H"%ch)
  | Key_End | Key_KeyPadEnd => Some (false, "F"%ch)
  | Key_ApplicationUpArrow => Some (true, "A"%ch)
  | Key_ApplicationDownArrow => Some (true, "B"%ch)
  | Key_ApplicationRightArrow => Some (true, "C"%ch)
  | Key_ApplicationLeftArrow => Some (true, "D"%ch)
  | _ => None
  end.

Definition encode_cursor_key (force_app : bool) (c mods : Z) (modes : KeyCodeEncodeModes) : list Z :=
  let csi_or_ss3 := if force_app || m_application_cursor_keys modes then key_SS3 else key_CSI in
  if any_of_three mods then key_CSI ++ bs "1;" ++ dec (1 + encode_xterm mods) ++ [c]
  else csi_or_ss3 ++ [c].

(** The character keys, in the order of the arms. *)
Definition encode_char (c mods : Z) (modes : KeyCodeEncodeModes) : list Z :=
  let ctrl := has mods Modifiers_CTRL in
  let alt := has mods Modifiers_ALT in
  if is_ambiguous_ascii_ctrl c && ctrl && bool_decide (m_encoding modes = KeyboardEncoding_CsiU)
  then csi_u_encode [] c mods modes
  else if is_ascii_uppercase c && ctrl then csi_u_encode [] c mods modes
  else if ctrl && bool_decide (m_modify_other_keys modes = Some 2) then csi_u_encode [] c mods modes
  else
    match (if ctrl then ctrl_mapping c else None) with
    | Some c => (if alt then [27] else []) ++ [c]
    | None =>
        if (is_ascii_alphanumeric c || is_ascii_punctuation c) && alt then [27; c]
        else if mods =? 0 then [c] else csi_u_encode [] c mods modes
    end.

Definition encode_function (n mods : Z) : option (result (list Z) unit) :=
  if (mods =? 0) && (n <? 5) then
    code ← function_letter n; Some (Ok (key_SS3 ++ [code]))
  else if n <? 5 then
    code ← function_letter n;
    Some (Ok (key_CSI ++ bs "1;" ++ dec (1 + encode_xterm mods) ++ [code]))
  else
    match function_intro n with
    | Some intro => Some (Ok (tilde (key_CSI ++ dec intro) (encode_xterm mods)))
    | None => Some (Err tt)
    end.

(** [normalize_shift_to_upper_case], the removal of a redundant SHIFT, and the two names of
    Backspace and Delete. *)
Definition normalized (k : KeyCode) (mods : Z) : KeyCode * Z :=
  let mods := remove_positional_mods mods in
  let key := normalize_shift_to_upper_case k mods in
  let mods := match key with
    | Key_Char c =>
        if (is_ascii_punctuation c || is_ascii_uppercase c) && has mods Modifiers_SHIFT
        then without_mods mods Modifiers_SHIFT else mods
    | _ => mods
    end in
  let key := match key with
    | Key_Char c => if c =? 127 then Key_Delete else if c =? 8 then Key_Backspace else key
    | _ => key
    end in
  (key, mods).

Definition encode_normalized (key : KeyCode) (mods : Z) (modes : KeyCodeEncodeModes)
    : option (result (list Z) unit) :=
  let alt := if has mods Modifiers_ALT then [27] else [] in
  let ok := fun buf : list Z => Some (Ok buf) in
  match key with
  | Key_Char c => ok (encode_char c mods modes)
  | Key_Backspace =>
      ok (if has mods Modifiers_CTRL then csi_u_encode [] 8 mods modes
          else if has mods Modifiers_SHIFT then csi_u_encode [] 127 mods modes
          else alt ++ [127])
  | Key_Enter | Key_Escape =>
      let c := if bool_decide (key = Key_Enter) then 13 else 27 in
      ok (if has mods Modifiers_SHIFT || has mods Modifiers_CTRL then csi_u_encode [] c mods modes
          else alt ++ [c] ++
            (if m_newline_mode modes && bool_decide (key = Key_Enter) then [10] else []))
  | Key_Tab =>
      if negb (mods =? 0) && bool_decide (is_Some (m_modify_other_keys modes))
      then ok (csi_u_encode [] 9 mods modes)
      else
        let mods := without_mods mods Modifiers_ALT in
        ok (alt ++
          (if mods =? Modifiers_CTRL then key_CSI ++ bs "9;5u"
           else if mods =? Z.lor Modifiers_CTRL Modifiers_SHIFT then key_CSI ++ bs "1;5Z"
           else if mods =? Modifiers_SHIFT then key_CSI ++ bs "Z"
           else [9]))
  | Key_Home | Key_KeyPadHome | Key_End | Key_KeyPadEnd | Key_UpArrow | Key_DownArrow
  | Key_RightArrow | Key_LeftArrow | Key_ApplicationUpArrow | Key_ApplicationDownArrow
  | Key_ApplicationRightArrow | Key_ApplicationLeftArrow =>
      '(force_app, c) ← cursor_key key;
      ok (encode_cursor_key force_app c mods modes)
  | Key_PageUp | Key_PageDown | Key_KeyPadPageUp | Key_KeyPadPageDown | Key_Insert | Key_Delete =>
      let c := match key with
        | Key_Insert => 2 | Key_Delete => 3 | Key_KeyPadPageUp | Key_PageUp => 5 | _ => 6 end in
      ok (if any_of_three mods
          then key_CSI ++ dec c ++ bs ";" ++ dec (1 + encode_xterm mods) ++ bs "~"
          else key_CSI ++ dec c ++ bs "~")
  | Key_Function n => encode_function n mods
  | Key_Numpad0 | Key_Numpad3 | Key_Numpad9 | Key_Decimal =>
      let intro := match key with
        | Key_Numpad0 => 2 | Key_Numpad3 | Key_Numpad9 => 6 | _ => 3 end in
      ok (tilde (key_CSI ++ dec intro) (encode_xterm mods))
  | Key_Numpad1 | Key_Numpad2 | Key_Numpad4 | Key_Numpad5 | Key_KeyPadBegin | Key_Numpad6
  | Key_Numpad7 | Key_Numpad8 =>
      let c := match key with
        | Key_Numpad1 => "F"%ch | Key_Numpad2 => "B"%ch | Key_Numpad4 => "D"%ch
        | Key_KeyPadBegin | Key_Numpad5 => "E"%ch | Key_Numpad6 => "C"%ch
        | Key_Numpad7 => "H"%ch | _ => "A"%ch end in
      let encoded_mods := encode_xterm mods in
      ok (if encoded_mods =? 0 then key_CSI ++ [c]
          else key_CSI ++ bs "1;" ++ dec (1 + encoded_mods) ++ [c])
  | Key_Multiply | Key_Add | Key_Separator | Key_Subtract | Key_Divide | Key_Control
  | Key_LeftControl | Key_RightControl | Key_Alt | Key_LeftAlt | Key_RightAlt | Key_Menu
  | Key_LeftMenu | Key_RightMenu | Key_Super | Key_Hyper | Key_Shift | Key_LeftShift
  | Key_RightShift | Key_Meta | Key_LeftWindows | Key_RightWindows | Key_NumLock
  | Key_ScrollLock | Key_Cancel | Key_Clear | Key_Pause | Key_CapsLock | Key_Select | Key_Print
  | Key_PrintScreen | Key_Execute | Key_Help | Key_Applications | Key_Sleep | Key_Copy
  | Key_Cut | Key_Paste | Key_BrowserBack | Key_BrowserForward | Key_BrowserRefresh
  | Key_BrowserStop | Key_BrowserSearch | Key_BrowserFavorites | Key_BrowserHome
  | Key_VolumeMute | Key_VolumeDown | Key_VolumeUp | Key_MediaNextTrack | Key_MediaPrevTrack
  | Key_MediaStop | Key_MediaPlayPause | Key_InternalPasteStart | Key_InternalPasteEnd => ok []
  end.

Definition key_encode (k : KeyCode) (mods : Z) (modes : KeyCodeEncodeModes) (is_down : bool)
    : option (result (list Z) unit) :=
  if negb is_down then Some (Ok [])
  else let '(key, mods) := normalized k mods in encode_normalized key mods modes.
