(* ===== verification/KeyboardProps.v ===== *)
(** The theorems on the keys: encoding a key returns, and what is refused; and the chords that the
    second level of xterm's [modifyOtherKeys] tells apart. *)

From Stdlib Require Import ZArith Lia String.
From S2P Require Import Prelude CsiTypes TermTypes Keyboard.
From stdpp Require Import base numbers list option.
Local Open Scope Z_scope.

(** ** Numbers in sequences *)

Lemma digits_split ds es x y r s :
  Forall (fun d => is_digit d = true) ds -> Forall (fun d => is_digit d = true) es ->
  is_digit x = false -> is_digit y = false -> ds ++ x :: r = es ++ y :: s ->
  ds = es /\ x :: r = y :: s.
Proof.
  intros Hds. revert es. induction Hds as [|d ds Hd Hds IH]; intros es Hes Hx Hy E.
  - destruct Hes as [|e es He Hes]; [done|]. cbn in E. injection E as -> _. congruence.
  - destruct Hes as [|e es He Hes]; cbn in E.
    + injection E as -> _. congruence.
    + injection E as -> Et. destruct (IH es Hes Hx Hy Et) as [-> ?]. done.
Qed.

Lemma dec_split a b x y r s : 0 <= a -> 0 <= b -> is_digit x = false -> is_digit y = false ->
  dec a ++ x :: r = dec b ++ y :: s -> a = b /\ x :: r = y :: s.
Proof.
  intros Ha Hb Hx Hy. unfold dec.
  destruct (Z.ltb_spec a 0); [lia|]. destruct (Z.ltb_spec b 0); [lia|]. intros E.
  destruct (dec_u_spec a Ha) as (_ & Hda & Va), (dec_u_spec b Hb) as (_ & Hdb & Vb).
  assert (Hdig : forall l, Forall (fun d => "0"%ch <= d <= "9"%ch) l -> Forall (fun d => is_digit d = true) l).
  { intros l Hl. eapply Forall_impl; [|exact Hl]. intros d Hd. cbv beta in Hd. unfold is_digit, rng.
    apply andb_true_iff. split; apply Z.leb_le; lia. }
  destruct (digits_split _ _ x y r s (Hdig _ Hda) (Hdig _ Hdb) Hx Hy E) as [Hab ?].
  split; [|done]. congruence.
Qed.

(** ** Which keys are encoded *)

Lemma function_letter_some n : is_Some (function_letter n) <-> 1 <= n <= 4.
Proof.
  unfold function_letter, rng. destruct (Z.leb_spec 1 n), (Z.leb_spec n 4); cbn;
    split; try lia; try (intros [? ?]; done); by eexists.
Qed.

Lemma function_intro_some n : is_Some (function_intro n) <-> 1 <= n <= 24.
Proof.
  unfold function_intro. split.
  - intros [v Hv]. apply fmap_Some in Hv as ([a b] & Hf & _).
    apply List.find_some in Hf as [Hin Ha]. apply Z.eqb_eq in Ha. cbn in Ha. subst a.
    cbn in Hin. repeat destruct Hin as [[= <- <-]|Hin]; [lia..|done].
  - intros Hn. assert (Hc : n ∈ map Z.of_nat (seq 1 24)).
    { apply list_elem_of_In, in_map_iff. exists (Z.to_nat n). split; [lia|]. apply in_seq. lia. }
    revert Hc. cbn. rewrite !elem_of_cons. intros Hc.
    repeat destruct Hc as [->|Hc]; [by eexists..|by apply not_elem_of_nil in Hc].
Qed.

Lemma encode_function_spec n mods : 0 <= n ->
  (encode_function n mods = None <-> n = 0) /\ (encode_function n mods = Some (Err tt) <-> 24 < n).
Proof.
  intros Hn. unfold encode_function. destruct (Z.ltb_spec n 5) as [H5|H5]; rewrite ?andb_true_r, ?andb_false_r.
  - pose proof (function_letter_some n) as Hl. destruct (function_letter n) as [c|].
    + assert (1 <= n <= 4) by (by apply Hl; eexists). destruct (mods =? 0); cbn; split; split; done || lia.
    + assert (n = 0) as -> by (destruct (decide (1 <= n <= 4)) as [Hd|]; [apply Hl in Hd as [? ?]; done|lia]).
      by destruct (mods =? 0).
  - pose proof (function_intro_some n) as Hl. destruct (function_intro n) as [c|].
    + assert (1 <= n <= 24) by (by apply Hl; eexists). split; split; done || lia.
    + assert (~ (1 <= n <= 24)) by (intros Hd; apply Hl in Hd as [? ?]; done). split; split; done || lia.
Qed.

Lemma normalized_function k mods n : (normalized k mods).1 = Key_Function n <-> k = Key_Function n.
Proof.
  unfold normalized, normalize_shift_to_upper_case. cbn [fst].
  destruct k; try (destruct (has (remove_positional_mods mods) Modifiers_SHIFT); done).
  split; [|done]. destruct (has _ _); [destruct (is_ascii_lowercase c)|];
    (destruct (_ =? 127); [done|]); by destruct (_ =? 8).
Qed.

Lemma encode_other key mods modes : (forall n, key <> Key_Function n) ->
  exists buf, encode_normalized key mods modes = Some (Ok buf).
Proof.
  intros Hn. destruct key; try (by eexists); [|by destruct (Hn n)].
  cbn [encode_normalized]. case_match; by eexists.
Qed.

(** Releasing a key sends nothing. Pressing one always gives an answer, except for the
    function key 0, which reaches an arm that is marked unreachable; only the function keys above
    24 are refused. *)
Theorem key_encode_spec k mods modes :
  (forall n, k = Key_Function n -> 0 <= n) ->
  key_encode k mods modes false = Some (Ok []) /\
  (key_encode k mods modes true = None <-> k = Key_Function 0) /\
  (key_encode k mods modes true = Some (Err tt) <-> exists n, k = Key_Function n /\ 24 < n).
Proof.
  intros Hn. split; [done|]. unfold key_encode. cbn [negb].
  pose proof (normalized_function k mods) as Hf. destruct (normalized k mods) as [key m]. cbn [fst] in Hf.
  assert (Hcase : (exists n, k = Key_Function n) \/ ~ (exists n, k = Key_Function n)).
  { destruct k; try (right; by intros [? ?]). left. by eexists. }
  destruct Hcase as [[n ->]|Hk].
  - rewrite (proj2 (Hf n) eq_refl). cbn [encode_normalized].
    destruct (encode_function_spec n m (Hn n eq_refl)) as [H1 H2]. rewrite H1, H2.
    split; split; [by intros ->|by intros [= ->]|by exists n|by intros (? & [= ->] & ?)].
  - destruct (encode_other key m modes) as [buf ->].
    { intros n Hkey. apply Hk. exists n. by apply Hf. }
    split; split; [done|intros ->; destruct Hk; by exists 0|done|intros (n & -> & _); destruct Hk; by exists n].
Qed.

(** ** Chords *)

(** A character key with CTRL, after normalisation. *)
Definition ctrl_chord (k : KeyCode) (mods c : Z) : Prop :=
  (normalized k mods).1 = Key_Char c /\ has (normalized k mods).2 Modifiers_CTRL = true /\ 0 <= c.

Lemma encode_xterm_bounds mods : 0 <= encode_xterm mods <= 7.
Proof.
  unfold encode_xterm.
  by destruct (has mods Modifiers_SHIFT), (has mods Modifiers_ALT), (has mods Modifiers_CTRL).
Qed.

Lemma csi_u_level2 c mods modes : m_modify_other_keys modes = Some 2 ->
  csi_u_encode [] c mods modes =
    if bool_decide (m_encoding modes = KeyboardEncoding_CsiU) && is_ascii c
    then key_CSI ++ dec c ++ bs ";" ++ dec (1 + encode_xterm mods) ++ bs "u"
    else key_CSI ++ bs "27;" ++ dec (1 + encode_xterm mods) ++ bs ";" ++ dec c ++ bs "~".
Proof. intros Hm. unfold csi_u_encode. rewrite Hm. by case_match. Qed.

Lemma encode_chord k mods c modes : ctrl_chord k mods c -> m_modify_other_keys modes = Some 2 ->
  key_encode k mods modes true = Some (Ok (csi_u_encode [] c (normalized k mods).2 modes)).
Proof.
  unfold ctrl_chord, key_encode. cbn [negb]. destruct (normalized k mods) as [key m]. cbn [fst snd].
  intros (-> & Hc & _) Hm. cbn [encode_normalized]. unfold encode_char. rewrite Hc, Hm.
  rewrite (bool_decide_eq_true_2 (Some 2 = Some 2)) by done. cbn [andb].
  repeat (case_match; [done|]). done.
Qed.

Lemma has_without m p f : Z.land p f = 0 -> has (without_mods m p) f = has m f.
Proof.
  intros Hp. unfold has, without_mods. f_equal. apply Z.bits_inj'. intros i Hi.
  apply (f_equal (fun z => Z.testbit z i)) in Hp. rewrite Z.land_spec, Z.bits_0 in Hp.
  rewrite !Z.land_spec, Z.ldiff_spec. destruct (Z.testbit m i), (Z.testbit p i), (Z.testbit f i); done.
Qed.

Lemma has_removed m f : 0 < f -> has (without_mods m f) f = false.
Proof.
  intros Hf. unfold has, without_mods. apply Z.eqb_neq. enough (Z.land (Z.ldiff m f) f = 0) by lia.
  apply Z.bits_inj'. intros i Hi. rewrite Z.land_spec, Z.ldiff_spec, Z.bits_0.
  destruct (Z.testbit m i), (Z.testbit f i); done.
Qed.

(** The chord of CTRL and a character that is sent, as it should be: SHIFT makes an ASCII letter a
    capital, and counts as held only with the other characters that are not punctuation. *)
Definition sent_char (c mods : Z) : Z :=
  if has mods Modifiers_SHIFT && is_ascii_lowercase c then c - 32 else c.

Definition sent_shift (c mods : Z) : bool :=
  has mods Modifiers_SHIFT && negb (is_ascii_punctuation c || is_ascii_lowercase c || is_ascii_uppercase c).

Lemma capital_of c : is_ascii_lowercase c = true ->
  is_ascii_uppercase (c - 32) = true /\ is_ascii_punctuation c = false /\ is_ascii_uppercase c = false.
Proof.
  unfold is_ascii_lowercase, is_ascii_uppercase, is_ascii_punctuation. intros Hc%rng_spec.
  split; [apply rng_spec; lia|]. split; [|apply rng_false; lia].
  rewrite !orb_false_iff, !rng_false. lia.
Qed.

Lemma normalized_chord c mods : 0 <= c -> c <> 8 -> c <> 127 -> has mods Modifiers_CTRL = true ->
  ctrl_chord (Key_Char c) mods (sent_char c mods) /\
  has (normalized (Key_Char c) mods).2 Modifiers_SHIFT = sent_shift c mods /\
  has (normalized (Key_Char c) mods).2 Modifiers_ALT = has mods Modifiers_ALT /\
  has (normalized (Key_Char c) mods).2 Modifiers_CTRL = true.
Proof.
  intros H0 H8 H127 Hctrl. unfold ctrl_chord, normalized, normalize_shift_to_upper_case, remove_positional_mods.
  assert (Hm : forall f, Z.land positional_mods f = 0 -> has (without_mods mods positional_mods) f = has mods f)
    by (intros f Hf; by apply has_without).
  set (m := without_mods mods positional_mods) in *.
  rewrite !(Hm Modifiers_SHIFT) by done.
  assert (Hk : (if has mods Modifiers_SHIFT
      then if is_ascii_lowercase c then Key_Char (c - 32) else Key_Char c else Key_Char c)
    = Key_Char (sent_char c mods))
    by (unfold sent_char; by destruct (has mods Modifiers_SHIFT), (is_ascii_lowercase c)).
  rewrite Hk. clear Hk. cbn [fst snd].
  assert (Hs : 0 <= sent_char c mods /\ sent_char c mods <> 8 /\ sent_char c mods <> 127 /\
    has mods Modifiers_SHIFT && (is_ascii_punctuation (sent_char c mods) || is_ascii_uppercase (sent_char c mods))
      = has mods Modifiers_SHIFT && negb (sent_shift c mods)).
  { unfold sent_char, sent_shift. destruct (has mods Modifiers_SHIFT); cbn [andb]; [|by split_and!].
    destruct (is_ascii_lowercase c) eqn:Hl.
    - destruct (capital_of c Hl) as (-> & -> & ->). rewrite orb_true_r. cbn.
      apply rng_spec in Hl. split_and!; lia || done.
    - split_and!; try done. by destruct (is_ascii_punctuation c), (is_ascii_uppercase c). }
  destruct Hs as (S1 & S2 & S3 & S4). rewrite (proj2 (Z.eqb_neq _ _) S2), (proj2 (Z.eqb_neq _ _) S3).
  rewrite andb_comm, S4. unfold sent_shift.
  destruct (has mods Modifiers_SHIFT) eqn:Hshift; cbn [andb negb];
    [destruct (negb (_ || _ || _)); cbn [negb]|];
    rewrite ?has_removed, ?has_without, ?Hm, ?Hshift, ?Hctrl by done; by split_and!.
Qed.

Lemma encode_xterm_eq m1 m2 :
  has m1 Modifiers_CTRL = true -> has m2 Modifiers_CTRL = true ->
  encode_xterm m1 = encode_xterm m2 <->
  has m1 Modifiers_SHIFT = has m2 Modifiers_SHIFT /\ has m1 Modifiers_ALT = has m2 Modifiers_ALT.
Proof.
  intros E1 E2. unfold encode_xterm. rewrite E1, E2.
  destruct (has m1 Modifiers_SHIFT), (has m1 Modifiers_ALT), (has m2 Modifiers_SHIFT), (has m2 Modifiers_ALT);
    split; done || (by intros []).
Qed.

(** What is sent for a chord determines the character and the modifiers of xterm. *)
Lemma csi_u_inj c1 c2 m1 m2 modes : m_modify_other_keys modes = Some 2 -> 0 <= c1 -> 0 <= c2 ->
  csi_u_encode [] c1 m1 modes = csi_u_encode [] c2 m2 modes ->
  c1 = c2 /\ encode_xterm m1 = encode_xterm m2.
Proof.
  intros Hm Hc1 Hc2.
  pose proof (encode_xterm_bounds m1). pose proof (encode_xterm_bounds m2).
  rewrite !csi_u_level2 by done. intros E.
  set (short c m := dec c ++ 59 :: dec (1 + encode_xterm m) ++ [117]).
  set (long c m := dec 27 ++ 59 :: dec (1 + encode_xterm m) ++ 59 :: dec c ++ [126]).
  assert (Hsl : forall c c' m m', 0 <= c -> 0 <= c' -> short c m <> long c' m').
  { intros c c' m m' Hc Hc' E'. pose proof (encode_xterm_bounds m). pose proof (encode_xterm_bounds m').
    apply dec_split in E' as [_ E']; try done. injection E' as E'.
    apply dec_split in E' as [_ E']; try done; lia. }
  assert (E' : (if bool_decide (m_encoding modes = KeyboardEncoding_CsiU) && is_ascii c1
      then short c1 m1 else long c1 m1)
    = (if bool_decide (m_encoding modes = KeyboardEncoding_CsiU) && is_ascii c2
      then short c2 m2 else long c2 m2)).
  { repeat case_match; apply (app_inv_head key_CSI) in E; exact E. }
  clear E. rename E' into E.
  repeat case_match; try (by apply Hsl in E); try (by symmetry in E; apply Hsl in E).
  - apply dec_split in E as [-> E]; try done. injection E as E.
    apply dec_split in E as [E _]; try done; lia.
  - apply dec_split in E as [_ E]; try done. injection E as E.
    apply dec_split in E as [Em E]; try done; [|lia|lia]. injection E as E.
    apply dec_split in E as [-> _]; try done. split; [done|lia].
Qed.

(** The chords that are sent as CSI u determine their bytes. *)
Lemma csi_u_ext c m1 m2 modes : m_modify_other_keys modes = Some 2 -> encode_xterm m1 = encode_xterm m2 ->
  csi_u_encode [] c m1 modes = csi_u_encode [] c m2 modes.
Proof. intros Hm E. rewrite !csi_u_level2 by done. by rewrite E. Qed.

(** C40: With the second level of [modifyOtherKeys], two chords of CTRL and a character (but for backspace and
    delete, which are keys of their own) are sent as the same bytes exactly when they stand for the same
    chord: the same character, where SHIFT makes a letter a capital; and the same of ALT and SHIFT, where
    SHIFT is not counted with letters and punctuation. So CTRL+SHIFT+a is CTRL+A, and SUPER and the
    side of a modifier do not count; everything else is told apart. *)
Theorem ctrl_chords_told_apart c1 c2 mods1 mods2 modes :
  m_modify_other_keys modes = Some 2 ->
  0 <= c1 -> c1 <> 8 -> c1 <> 127 -> has mods1 Modifiers_CTRL = true ->
  0 <= c2 -> c2 <> 8 -> c2 <> 127 -> has mods2 Modifiers_CTRL = true ->
  key_encode (Key_Char c1) mods1 modes true = key_encode (Key_Char c2) mods2 modes true <->
  sent_char c1 mods1 = sent_char c2 mods2 /\ sent_shift c1 mods1 = sent_shift c2 mods2 /\
  has mods1 Modifiers_ALT = has mods2 Modifiers_ALT.
Proof.
  intros Hm A1 B1 D1 E1 A2 B2 D2 E2.
  destruct (normalized_chord c1 mods1 A1 B1 D1 E1) as (N1 & S1 & T1 & U1).
  destruct (normalized_chord c2 mods2 A2 B2 D2 E2) as (N2 & S2 & T2 & U2).
  rewrite (encode_chord _ _ _ modes N1 Hm), (encode_chord _ _ _ modes N2 Hm).
  rewrite <- S1, <- S2, <- T1, <- T2, <- encode_xterm_eq by done.
  destruct N1 as (_ & _ & P1), N2 as (_ & _ & P2). split.
  - intros E. injection E as E. by apply csi_u_inj in E.
  - intros [-> E]. by rewrite (csi_u_ext _ _ _ modes Hm E).
Qed.

(** ** Examples: tests of the source *)

Definition demo_modes (level : option Z) : KeyCodeEncodeModes :=
  mkModes KeyboardEncoding_Xterm false false level.

Example encode_tests :
  let sends k mods level := key_encode k mods (demo_modes level) true in
  sends Key_Enter Modifiers_CTRL None = Some (Ok [13]) /\
  sends Key_Enter Modifiers_CTRL (Some 1) = Some (Ok (27 :: bs "[27;5;13~")) /\
  sends Key_Tab Modifiers_CTRL None = Some (Ok (27 :: bs "[9;5u")) /\
  sends (Key_Char "c"%ch) Modifiers_CTRL (Some 1) = Some (Ok [3]) /\
  sends (Key_Char "c"%ch) Modifiers_CTRL (Some 2) = Some (Ok (27 :: bs "[27;5;99~")) /\
  sends (Key_Char "1"%ch) Modifiers_CTRL None = Some (Ok (bs "1")) /\
  sends Key_LeftArrow Modifiers_ALT None = Some (Ok (27 :: bs "[1;3D")) /\
  sends Key_PageUp Modifiers_ALT None = Some (Ok (27 :: bs "[5;3~")) /\
  sends Key_Numpad0 Modifiers_SHIFT None = Some (Ok (27 :: bs "[2;2~")).
Proof. by vm_compute. Qed.

Lemma key_encode_spec_witness :
  key_encode (Key_Function 0) 0 (demo_modes None) true = None /\
  key_encode (Key_Function 25) 0 (demo_modes None) true = Some (Err tt).
Proof.
  split.
  - apply (key_encode_spec (Key_Function 0) 0 (demo_modes None)); [|reflexivity].
    intros n [= <-]. lia.
  - apply (key_encode_spec (Key_Function 25) 0 (demo_modes None)); [|exists 25; split; [reflexivity|lia]].
    intros n [= <-]. lia.
Defined.

Lemma ctrl_chords_told_apart_witness :
  key_encode (Key_Char "i"%ch) Modifiers_CTRL (demo_modes (Some 2)) true <>
    key_encode (Key_Char "j"%ch) Modifiers_CTRL (demo_modes (Some 2)) true /\
  key_encode (Key_Char "a"%ch) (Z.lor Modifiers_CTRL Modifiers_SHIFT) (demo_modes (Some 2)) true =
    key_encode (Key_Char "A"%ch) Modifiers_CTRL (demo_modes (Some 2)) true.
Proof.
  split.
  - intros E. apply (ctrl_chords_told_apart "i"%ch "j"%ch Modifiers_CTRL Modifiers_CTRL (demo_modes (Some 2)))
      in E as [E _]; [discriminate E|reflexivity|lia|lia|lia|reflexivity|lia|lia|lia|reflexivity].
  - apply (ctrl_chords_told_apart "a"%ch "A"%ch (Z.lor Modifiers_CTRL Modifiers_SHIFT) Modifiers_CTRL
      (demo_modes (Some 2))); [reflexivity|lia|lia|lia|reflexivity|lia|lia|lia|reflexivity|].
    split; [reflexivity|split; reflexivity].
Defined.
