(* ===== verification/Mouse.v ===== *)
(** The mouse and the keys a host sends to a terminal: [mouse.rs] and [keyboard.rs] of
    [src/term/src/terminalstate], the events of [src/term/src/input.rs], and the buttons that
    are held, which the state of [Terminal] leaves out: releasing them when the focus is lost,
    forgetting them on a reset. *)

From Stdlib Require Import ZArith Lia String.
From S2P Require Import Prelude CallMonad CsiTypes CharWidth Cell Line TermTypes Esc Screen Terminal TermPerform TermHost Keyboard.
From stdpp Require Import base numbers list option gmap.
Local Open Scope Z_scope.

(** ** Events *)

(** [MouseButton] of [input.rs]; the one of [csi.rs] is in [CsiTypes]. *)
Inductive HostButton : Set :=
| Host_Left | Host_Middle | Host_Right | Host_WheelUp (n : nat) | Host_WheelDown (n : nat)
| Host_WheelLeft (n : nat) | Host_WheelRight (n : nat) | Host_None.

#[export] Instance HostButton_eq_dec : EqDecision HostButton.
Proof. solve_decision. Defined.

Inductive MouseEventKind : Set := Kind_Press | Kind_Release | Kind_Move.

#[export] Instance MouseEventKind_eq_dec : EqDecision MouseEventKind.
Proof. solve_decision. Defined.

Record MouseEvent : Set := mkMouseEvent {
  ev_kind : MouseEventKind;
  ev_x : nat;
  ev_y : Z;
  ev_x_pixel_offset : Z;
  ev_y_pixel_offset : Z;
  ev_button : HostButton;
  ev_modifiers : Z }.

#[export] Instance MouseEvent_eq_dec : EqDecision MouseEvent.
Proof. solve_decision. Defined.

(** What the configuration says of the keys and the wheel. *)
Record InputConfiguration : Set := mkInputConfiguration {
  enable_csi_u_key_encoding : bool;
  alternate_buffer_wheel_scroll_speed : nat }.

Section Mouse.
Context `{CharTables} `{Graphemes} `{BitSet} `{HyperlinkRules} `{Normalization}.
Variable input_config : InputConfiguration.

(** The terminal with the mouse. *)
Record MouseTerm : Type := mkMouseTerm {
  term : TermState;
  current_mouse_buttons : list HostButton;
  last_mouse_move : option MouseEvent }.

Definition set_term (s : TermState) (m : MouseTerm) : MouseTerm :=
  mkMouseTerm s (current_mouse_buttons m) (last_mouse_move m).
Definition set_buttons (l : list HostButton) (m : MouseTerm) : MouseTerm :=
  mkMouseTerm (term m) l (last_mouse_move m).
Definition set_last_move (e : option MouseEvent) (m : MouseTerm) : MouseTerm :=
  mkMouseTerm (term m) (current_mouse_buttons m) e.

Definition M (A : Type) : Type := CallM MouseTerm TermEvent A.

(** An operation on the terminal's own state. *)
Definition on_term {A} (f : T A) : M A := fun m =>
  match f (term m) with
  | Some (a, s, tr) => Some (a, set_term s m, tr)
  | None => None
  end.

Definition send (b : list Z) : M unit := emit (Write b).

(** ** Keys *)

Definition effective_keyboard_encoding (s : TermState) : KeyboardEncoding :=
  match get_keyboard_encoding s with
  | KeyboardEncoding_Xterm =>
      if enable_csi_u_key_encoding input_config then KeyboardEncoding_CsiU
      else KeyboardEncoding_Xterm
  | enc => enc
  end.

Definition key_up_down (key : KeyCode) (mods : Z) (is_down : bool) : M (result unit unit) :=
  m ← gets id;
  let s := term m in
  let encoding := effective_keyboard_encoding s in
  to_send ← lift (key_encode key mods
    (mkModes encoding (application_cursor_keys s) (newline_mode s) (modify_other_keys s)) is_down);
  match to_send with
  | Err e => mret (Err e)
  | Ok [] => mret (Ok tt)
  | Ok chars => send (concat (map encode_utf8 chars));; mret (Ok tt)
  end.

Definition key_up (key : KeyCode) (mods : Z) : M (result unit unit) := key_up_down key mods false.
Definition key_down (key : KeyCode) (mods : Z) : M (result unit unit) := key_up_down key mods true.

(** ** Reports *)

Definition is_scalarb (c : Z) : bool := rng 0 0x10FFFF c && negb (rng 0xD800 0xDFFF c).

(** [None] where [char::from_u32] gives nothing to unwrap. *)
Definition encode_coord (enc : MouseEncoding) (value : Z) : option (list Z) :=
  let value := value + 1 + 32 in
  if bool_decide (enc = MouseEncoding_Utf8) then
    if value <? 0x800 then
      rust_assert (is_scalarb (as_u32 value));; Some (encode_utf8 (as_u32 value))
    else Some [0]
  else if value <? 0x100 then Some [as_u8 value]
  else Some [0].

Definition encode_x10_or_utf8 (event : MouseEvent) (button : Z) : M (result unit unit) :=
  m ← gets id;
  let enc := mouse_encoding (term m) in
  cx ← lift (encode_coord enc (Z.of_nat (ev_x event)));
  cy ← lift (encode_coord enc (ev_y event));
  send (27 :: bs "[M" ++ [as_u8 (32 + button)] ++ cx ++ cy);;
  mret (Ok tt).

Definition button_code (b : HostButton) : Z :=
  match b with
  | Host_None => 3 | Host_Left => 0 | Host_Middle => 1 | Host_Right => 2
  | Host_WheelUp _ => 64 | Host_WheelDown _ => 65 | Host_WheelLeft _ => 66 | Host_WheelRight _ => 67
  end.

Definition mouse_report_button_number (event : MouseEvent) (held : list HostButton) : Z * HostButton :=
  let button := match ev_button event with
    | Host_None => default Host_None (last held)
    | b => b
    end in
  let code := button_code button in
  let code := if has (ev_modifiers event) Modifiers_SHIFT then code + 4 else code in
  let code := if has (ev_modifiers event) Modifiers_ALT then code + 8 else code in
  let code := if has (ev_modifiers event) Modifiers_CTRL then code + 16 else code in
  (code, button).

Definition sgr_report (button x y : Z) (final : list Z) : list Z :=
  27 :: bs "[<" ++ dec button ++ bs ";" ++ dec x ++ bs ";" ++ dec y ++ final.

(** A pixel coordinate, counted from 1; a division by zero is a panic. A negative row is a huge
    [usize]; sums and products are not cut to 64 bits. *)
Definition pixel_coord (cell pixels cells offset : Z) : option Z :=
  rust_assert (negb (cells =? 0));;
  Some (cell mod 2 ^ 64 * (pixels / cells) + Z.max offset 0 + 1).

(** The report in the encoding that is set; [x10_button] is the button of the older ones. *)
Definition report (event : MouseEvent) (button : Z) (final : list Z) (x10_button : Z)
    : M (result unit unit) :=
  m ← gets id;
  let s := term m in
  match mouse_encoding s with
  | MouseEncoding_SGR =>
      send (sgr_report button (Z.of_nat (ev_x event) + 1) (ev_y event + 1) final);; mret (Ok tt)
  | MouseEncoding_SgrPixels =>
      let height := Z.of_nat (physical_rows (screen s)) in
      let width := Z.of_nat (physical_cols (screen s)) in
      px ← lift (pixel_coord (Z.of_nat (ev_x event)) (term_pixel_width s) width
                   (ev_x_pixel_offset event));
      py ← lift (pixel_coord (ev_y event) (term_pixel_height s) height (ev_y_pixel_offset event));
      send (sgr_report button px py final);; mret (Ok tt)
  | _ => encode_x10_or_utf8 event x10_button
  end.

(** ** The events *)

Definition wheel_key (b : HostButton) : option KeyCode :=
  match b with
  | Host_WheelDown _ => Some Key_DownArrow
  | Host_WheelUp _ => Some Key_UpArrow
  | Host_WheelLeft _ => Some Key_LeftArrow
  | Host_WheelRight _ => Some Key_RightArrow
  | _ => None
  end.

Fixpoint key_times (n : nat) (k : option KeyCode) : M (result unit unit) :=
  match n with
  | O => mret (Ok tt)
  | S n =>
      match k with
      | None => mret (Err tt)
      | Some key =>
          r ← key_down key Modifiers_NONE;
          match r with Ok _ => key_times n k | Err e => mret (Err e) end
      end
  end.

Definition mouse_wheel (event : MouseEvent) : M (result unit unit) :=
  m ← gets id;
  let '(button, _) := mouse_report_button_number event (current_mouse_buttons m) in
  if is_mouse_grabbed (term m) then report event button (bs "M") button
  else if alt_screen_is_active (term m) then
    key_times (alternate_buffer_wheel_scroll_speed input_config) (wheel_key (ev_button event))
  else mret (Ok tt).

(** [retain(|&b| b != button)]. *)
Definition retain_not (b : HostButton) (l : list HostButton) : list HostButton :=
  filter (fun c => c <> b) l.

Definition mouse_button_press (event : MouseEvent) : M (result unit unit) :=
  m ← gets id;
  let '(button, event_button) := mouse_report_button_number event (current_mouse_buttons m) in
  modify (set_buttons (retain_not event_button (current_mouse_buttons m) ++ [event_button]));;
  if negb (is_mouse_grabbed (term m)) then mret (Ok tt)
  else report event button (bs "M") button.

Definition mouse_button_release (event : MouseEvent) : M (result unit unit) :=
  m ← gets id;
  let '(release_button, button) := mouse_report_button_number event (current_mouse_buttons m) in
  if bool_decide (current_mouse_buttons m = []) then mret (Ok tt)
  else
    modify (set_buttons (retain_not button (current_mouse_buttons m)));;
    if is_mouse_grabbed (term m) then report event release_button (bs "m") 3
    else mret (Ok tt).

Definition mouse_moved (last : option MouseEvent) (enc : MouseEncoding) (event : MouseEvent) : bool :=
  match last with
  | None => true
  | Some l =>
      negb (ev_x l =? ev_x event)%nat || negb (ev_y l =? ev_y event) ||
      (bool_decide (enc = MouseEncoding_SgrPixels) &&
       (negb (ev_x_pixel_offset l =? ev_x_pixel_offset event) ||
        negb (ev_y_pixel_offset l =? ev_y_pixel_offset event)))
  end.

Definition mouse_move (event : MouseEvent) : M (result unit unit) :=
  m ← gets id;
  let s := term m in
  let reportable :=
    (any_event_mouse s || negb (bool_decide (current_mouse_buttons m = []))) &&
    mouse_moved (last_mouse_move m) (mouse_encoding s) event in
  if reportable && (button_event_mouse s || any_event_mouse s) then
    if bool_decide (last_mouse_move m = Some event) then mret (Ok tt)
    else
      modify (set_last_move (Some event));;
      let '(button, _) := mouse_report_button_number event (current_mouse_buttons m) in
      report event (32 + button) (bs "M") (32 + button)
  else mret (Ok tt).

(** The event with its coordinates on the screen. *)
Definition clamp_event (s : TermState) (event : MouseEvent) : option MouseEvent :=
  last_col ← usize_sub (physical_cols (screen s)) 1;
  Some (mkMouseEvent (ev_kind event) (Nat.min (ev_x event) last_col)
    (Z.min (ev_y event) (Z.of_nat (physical_rows (screen s)) - 1))
    (ev_x_pixel_offset event) (ev_y_pixel_offset event) (ev_button event) (ev_modifiers event)).

Definition mouse_event (event : MouseEvent) : M (result unit unit) :=
  m ← gets id;
  event ← lift (clamp_event (term m) event);
  match ev_kind event, ev_button event with
  | Kind_Press, (Host_WheelUp _ | Host_WheelDown _ | Host_WheelLeft _ | Host_WheelRight _) =>
      mouse_wheel event
  | (Kind_Press | Kind_Release), Host_None => mret (Ok tt)
  | Kind_Press, _ => mouse_button_press event
  | Kind_Release, _ => mouse_button_release event
  | Kind_Move, _ => mouse_move event
  end.

(** ** The rest of the terminal, with the mouse *)

Definition release_at_origin (b : HostButton) : MouseEvent :=
  mkMouseEvent Kind_Release 0 0 0 0 b Modifiers_NONE.

Fixpoint release_all (l : list HostButton) : M unit :=
  match l with
  | [] => mret tt
  | b :: l => mouse_event (release_at_origin b);; release_all l
  end.

(** [focus_changed] with the buttons it releases. *)
Definition mouse_focus_changed (on : bool) : M unit :=
  m ← gets id;
  if Bool.eqb on (focused (term m)) then mret tt
  else
    (if on then mret tt else release_all (current_mouse_buttons m));;
    on_term (focus_changed on).

(** The modes whose change makes the terminal forget the last move. *)
Definition forgets_last_move (c : DecPrivateModeCode) : bool :=
  match c with
  | DecPrivateModeCode_MouseTracking | DecPrivateModeCode_ButtonEventMouse
  | DecPrivateModeCode_AnyEventMouse | DecPrivateModeCode_FocusTracking
  | DecPrivateModeCode_SGRMouse | DecPrivateModeCode_SGRPixelsMouse
  | DecPrivateModeCode_Utf8Mouse => true
  | _ => false
  end.

Definition mouse_perform_csi_mode (mode : Mode) : M unit :=
  on_term (perform_csi_mode mode);;
  match mode with
  | SetDecPrivateMode (DecPrivateMode_Code c) | ResetDecPrivateMode (DecPrivateMode_Code c) =>
      if forgets_last_move c then modify (set_last_move None) else mret tt
  | _ => mret tt
  end.

(** A full reset clears the buttons. *)
Definition mouse_full_reset (sq : Z) : M unit :=
  on_term (full_reset sq);; modify (set_buttons []).

End Mouse.
