(* ===== verification/MouseProps.v ===== *)
(** The theorems on the mouse: which buttons are held, whatever happens, and that an
    application that reads a report with [vtparse] and [CSI::parse] finds the event that was
    reported. *)

From Stdlib Require Import ZArith Lia String.
From S2P Require Import Prelude VtParse VtParseProps CallMonad Post Color CsiTypes CsiParse CsiRoundTrip CharWidth Cell CellProps Line LineProps TermSize TermTypes Esc Screen ScreenProps Terminal TermPerform TermHost TermSafe TermBytes Keyboard Mouse.
From stdpp Require Import base numbers list option gmap.
Local Open Scope Z_scope.

Section Props.
Context `{CharTables} `{Graphemes} `{BitSet} `{HyperlinkRules} `{Normalization}.
Variable ic : InputConfiguration.
Implicit Types (m : MouseTerm) (ev : MouseEvent) (b : HostButton) (l : list HostButton).

(** ** What is held *)

Definition clickable b : bool :=
  match b with Host_Left | Host_Middle | Host_Right => true | _ => false end.

Definition held_ok l : Prop := NoDup l /\ Forall (fun b => clickable b = true) l.

Definition held_after l ev : list HostButton :=
  match ev_kind ev with
  | Kind_Press => if clickable (ev_button ev) then retain_not (ev_button ev) l ++ [ev_button ev] else l
  | Kind_Release => if clickable (ev_button ev) then retain_not (ev_button ev) l else l
  | Kind_Move => l
  end.

Lemma retain_not_absent b l : b ∉ l -> retain_not b l = l.
Proof.
  unfold retain_not. induction l as [|c l IH]; [done|]. intros [Hb Hl]%not_elem_of_cons.
  rewrite filter_cons_True by done. by rewrite IH.
Qed.

Lemma elem_retain_not b c l : c ∈ retain_not b l <-> c <> b /\ c ∈ l.
Proof. unfold retain_not. by rewrite list_elem_of_filter. Qed.

Lemma held_ok_retain b l : held_ok l -> held_ok (retain_not b l).
Proof.
  intros [Hn Hc]. split; [by apply NoDup_filter|]. apply Forall_forall.
  intros c [_ Hin]%elem_retain_not. by eapply Forall_forall in Hc.
Qed.

Lemma held_ok_press b l : held_ok l -> clickable b = true -> held_ok (retain_not b l ++ [b]).
Proof.
  intros Hl Hb. destruct (held_ok_retain b l Hl) as [Hn Hc]. split.
  - apply NoDup_app. split_and!; [done| |apply NoDup_singleton].
    intros c [Hcb _]%elem_retain_not ->%list_elem_of_singleton. done.
  - apply Forall_app. split; [done|]. by constructor.
Qed.

Lemma held_ok_after l ev : held_ok l -> held_ok (held_after l ev).
Proof.
  intros Hl. unfold held_after. destruct (ev_kind ev); [| |done]; case_match; try done.
  - by apply held_ok_press.
  - by apply held_ok_retain.
Qed.

Lemma not_held b l : held_ok l -> clickable b = false -> b ∉ l.
Proof. intros [_ Hc] Hb Hin. eapply Forall_forall in Hc; [|exact Hin]. congruence. Qed.

(** ** The operations return *)

(** A terminal whose screen has cells. *)
Definition mouse_ready m : Prop :=
  (0 < physical_cols (screen (term m)))%nat /\ (0 < physical_rows (screen (term m)))%nat.

Lemma encode_coord_some enc v : 0 <= v -> is_Some (encode_coord enc v).
Proof.
  intros Hv. unfold encode_coord. case_match; [|case_match; by eexists].
  destruct (Z.ltb_spec (v + 1 + 32) 2048) as [Hlt|]; [|by eexists].
  assert (E : as_u32 (v + 1 + 32) = v + 1 + 32) by (unfold as_u32; apply Z.mod_small; lia).
  rewrite E. replace (is_scalarb (v + 1 + 32)) with true; [by eexists|]. symmetry.
  unfold is_scalarb, rng. apply andb_true_iff. split; [apply andb_true_iff; split; apply Z.leb_le; lia|].
  apply negb_true_iff, andb_false_iff. left. apply Z.leb_gt. lia.
Qed.

Lemma pixel_coord_some cell pixels cells offset : cells <> 0 -> is_Some (pixel_coord cell pixels cells offset).
Proof. intros Hc. unfold pixel_coord. apply Z.eqb_neq in Hc. rewrite Hc. by eexists. Qed.

(** A report is one write, and changes nothing. *)
Lemma returns_report ev button final x10 m : mouse_ready m -> 0 <= ev_y ev ->
  returns (report ev button final x10) m (fun r m' tr => r = Ok tt /\ m' = m /\ exists bytes, tr = [Write bytes]).
Proof.
  intros [Hc Hr] Hy. unfold report, encode_x10_or_utf8. step. unfold id.
  assert (Hx10 : forall enc, returns (cx ← lift (encode_coord enc (Z.of_nat (ev_x ev)));
      cy ← lift (encode_coord enc (ev_y ev));
      send (27 :: bs "[M" ++ [as_u8 (32 + x10)] ++ cx ++ cy);; mret (Ok tt : result unit unit)) m
    (fun r m' tr => r = Ok tt /\ m' = m /\ exists bytes, tr = [Write bytes])).
  { intros enc. destruct (encode_coord_some enc (Z.of_nat (ev_x ev))) as [cx ->]; [lia|].
    destruct (encode_coord_some enc (ev_y ev)) as [cy ->]; [done|].
    unfold send. split_and!; try done. by eexists. }
  destruct (mouse_encoding (term m)) eqn:He.
  - step. rewrite He. apply Hx10.
  - step. rewrite He. apply Hx10.
  - unfold send. split_and!; try done. by eexists.
  - destruct (pixel_coord_some (Z.of_nat (ev_x ev)) (term_pixel_width (term m))
      (Z.of_nat (physical_cols (screen (term m)))) (ev_x_pixel_offset ev)) as [px ->]; [lia|].
    destruct (pixel_coord_some (ev_y ev) (term_pixel_height (term m))
      (Z.of_nat (physical_rows (screen (term m)))) (ev_y_pixel_offset ev)) as [py ->]; [lia|].
    unfold send. split_and!; try done. by eexists.
Qed.

Lemma returns_key_down key m : key ∈ [Key_UpArrow; Key_DownArrow; Key_LeftArrow; Key_RightArrow] ->
  returns (key_down ic key Modifiers_NONE) m (fun r m' tr => r = Ok tt /\ m' = m).
Proof.
  intros Hk. unfold key_down, key_up_down. step. unfold id.
  rewrite !elem_of_cons in Hk. repeat destruct Hk as [->|Hk]; [..|by apply not_elem_of_nil in Hk];
    (unfold key_encode, encode_normalized, encode_cursor_key; cbn [normalized negb];
     destruct (application_cursor_keys (term m)); by split).
Qed.

Lemma returns_key_times n key m : key ∈ [Key_UpArrow; Key_DownArrow; Key_LeftArrow; Key_RightArrow] ->
  returns (key_times ic n (Some key)) m (fun r m' tr => r = Ok tt /\ m' = m).
Proof.
  intros Hk. induction n as [|n IH]; cbn [key_times]; [done|].
  eapply returns_bind; [by apply returns_key_down|]. intros r m' tr [-> ->]. cbv beta iota. exact IH.
Qed.

(** ** Every event *)

(** What an event leaves: the terminal as it was, and the buttons that are held. *)
Definition handled m ev (r : result unit unit) m' (tr : list TermEvent) : Prop :=
  r = Ok tt /\ term m' = term m /\
  current_mouse_buttons m' = held_after (current_mouse_buttons m) ev.

Lemma report_button ev l : ev_button ev <> Host_None -> (mouse_report_button_number ev l).2 = ev_button ev.
Proof. unfold mouse_report_button_number. by destruct (ev_button ev). Qed.

Lemma handled_same m ev : (ev_kind ev = Kind_Move \/ clickable (ev_button ev) = false) ->
  handled m ev (Ok tt) m [].
Proof.
  intros Hev. split_and!; try done. unfold held_after.
  by destruct Hev as [-> | ->]; [|destruct (ev_kind ev)].
Qed.

Lemma returns_wheel ev m : mouse_ready m -> 0 <= ev_y ev -> ev_kind ev = Kind_Press ->
  (exists k, wheel_key (ev_button ev) = Some k) -> returns (mouse_wheel ic ev) m (handled m ev).
Proof.
  intros Hm Hy Hk [k Hb]. unfold mouse_wheel. step. unfold id.
  assert (Hnc : clickable (ev_button ev) = false) by (by destruct (ev_button ev)).
  destruct (mouse_report_button_number ev (current_mouse_buttons m)) as [code b].
  case_match; [|case_match].
  - eapply returns_weaken; [by apply returns_report|]. intros r m' tr (-> & -> & _).
    by apply handled_same; right.
  - rewrite Hb. eapply returns_weaken; [apply returns_key_times|].
    + destruct (ev_button ev); cbn in Hb; simplify_eq; set_solver.
    + intros r m' tr [-> ->]. by apply handled_same; right.
  - by apply handled_same; right.
Qed.

Lemma returns_press ev m : mouse_ready m -> 0 <= ev_y ev -> ev_kind ev = Kind_Press ->
  clickable (ev_button ev) = true -> returns (mouse_button_press ev) m (handled m ev).
Proof.
  intros Hm Hy Hk Hb. unfold mouse_button_press. step. unfold id.
  pose proof (report_button ev (current_mouse_buttons m)) as Hbtn.
  destruct (mouse_report_button_number ev (current_mouse_buttons m)) as [code b]. cbn [snd] in Hbtn.
  rewrite Hbtn by (by intros E; rewrite E in Hb). step.
  assert (Hdone : forall tr, handled m ev (Ok tt) (set_buttons
      (retain_not (ev_button ev) (current_mouse_buttons m) ++ [ev_button ev]) m) tr).
  { intros tr. split_and!; try done. unfold held_after. by rewrite Hk, Hb. }
  case_match; [by apply returns_ret|].
  eapply returns_weaken; [by apply returns_report|]. by intros r m' tr (-> & -> & _).
Qed.

Lemma returns_release ev m : mouse_ready m -> 0 <= ev_y ev -> ev_kind ev = Kind_Release ->
  ev_button ev <> Host_None -> held_ok (current_mouse_buttons m) ->
  returns (mouse_button_release ev) m (handled m ev).
Proof.
  intros Hm Hy Hk Hb Hl. unfold mouse_button_release. step. unfold id.
  pose proof (report_button ev (current_mouse_buttons m) Hb) as Hbtn.
  destruct (mouse_report_button_number ev (current_mouse_buttons m)) as [code b]. cbn [snd] in Hbtn.
  subst b. assert (Hdone : forall tr, handled m ev (Ok tt) (set_buttons
      (retain_not (ev_button ev) (current_mouse_buttons m)) m) tr).
  { intros tr. split_and!; try done. unfold held_after. rewrite Hk. case_match; [done|].
    cbn. apply retain_not_absent. by apply not_held. }
  destruct (decide (current_mouse_buttons m = [])) as [Hnil|Hne].
  - rewrite bool_decide_eq_true_2 by done. specialize (Hdone []). rewrite Hnil in Hdone. cbn in Hdone.
    apply returns_ret. split_and!; try done. unfold held_after. rewrite Hnil, Hk. by case_match.
  - rewrite bool_decide_eq_false_2 by done. step. case_match; [|by apply returns_ret].
    eapply returns_weaken; [by apply returns_report|]. by intros r m' tr (-> & -> & _).
Qed.

Lemma returns_move ev m : mouse_ready m -> 0 <= ev_y ev -> ev_kind ev = Kind_Move ->
  returns (mouse_move ev) m (handled m ev).
Proof.
  intros Hm Hy Hk. unfold mouse_move. step. unfold id.
  assert (Hsame : forall tr, handled m ev (Ok tt) m tr).
  { intros tr. destruct (handled_same m ev) as (? & ? & ?); [by left|]. done. }
  case_match; [|by apply returns_ret]. case_match; [by apply returns_ret|]. step.
  destruct (mouse_report_button_number ev (current_mouse_buttons m)) as [code b].
  eapply returns_weaken; [by apply returns_report|]. intros r m' tr (-> & -> & _).
  apply (Hsame tr).
Qed.

Lemma clamp_event_ready ev m : mouse_ready m -> 0 <= ev_y ev -> exists ev',
  clamp_event (term m) ev = Some ev' /\ ev_kind ev' = ev_kind ev /\ ev_button ev' = ev_button ev /\
  ev_modifiers ev' = ev_modifiers ev /\
  Z.of_nat (ev_x ev') = Z.min (Z.of_nat (ev_x ev)) (Z.of_nat (physical_cols (screen (term m))) - 1) /\
  ev_y ev' = Z.min (ev_y ev) (Z.of_nat (physical_rows (screen (term m))) - 1) /\ 0 <= ev_y ev'.
Proof.
  intros [Hc Hr] Hy. unfold clamp_event. rewrite usize_sub_Some by lia. eexists.
  split; [done|]. cbn. split_and!; try done; lia.
Qed.

Lemma returns_mouse_event ev m : mouse_ready m -> 0 <= ev_y ev -> held_ok (current_mouse_buttons m) ->
  returns (mouse_event ic ev) m (handled m ev).
Proof.
  intros Hm Hy Hl. unfold mouse_event. step. unfold id.
  destruct (clamp_event_ready ev m Hm Hy) as (ev' & -> & Hk & Hb & _ & _ & _ & Hy'). step.
  cbn [yields].
  assert (Hev : forall r m' tr, handled m ev' r m' tr -> handled m ev r m' tr).
  { intros r m' tr (Hr & Ht & Hc). split_and!; try done. rewrite Hc. unfold held_after. by rewrite Hk, Hb. }
  eapply returns_weaken; [|exact Hev]. clear Hev. destruct (ev_kind ev') eqn:Ek.
  - destruct (ev_button ev') eqn:Eb; try (by apply returns_press; rewrite ?Eb);
      try (apply returns_wheel; [done|done|done|rewrite Eb; by eexists]).
    apply returns_ret, handled_same. right. by rewrite Eb.
  - destruct (ev_button ev') eqn:Eb; try (by apply returns_release; rewrite ?Eb).
    apply returns_ret, handled_same. right. by rewrite Eb.
  - assert (Hmove : returns (mouse_move ev') m (handled m ev')) by by apply returns_move.
    by destruct (ev_button ev').
Qed.

Fixpoint mouse_events (evs : list MouseEvent) : M unit :=
  match evs with
  | [] => mret tt
  | ev :: evs => mouse_event ic ev;; mouse_events evs
  end.

Lemma returns_mouse_events evs m : mouse_ready m -> Forall (fun ev => 0 <= ev_y ev) evs ->
  held_ok (current_mouse_buttons m) ->
  returns (mouse_events evs) m (fun _ m' _ => term m' = term m /\
    current_mouse_buttons m' = fold_left held_after evs (current_mouse_buttons m) /\
    held_ok (current_mouse_buttons m')).
Proof.
  intros Hm Hys. revert m Hm. induction Hys as [|ev evs Hy Hys IH]; intros m Hm Hl; cbn [mouse_events].
  { by apply returns_ret. }
  eapply returns_bind; [by apply returns_mouse_event|]. intros r m' tr (_ & Ht & Hc).
  eapply returns_weaken; [apply IH|].
  - unfold mouse_ready. by rewrite Ht.
  - rewrite Hc. by apply held_ok_after.
  - intros _ m'' tr' (Ht' & Hc' & Hok). split_and!; [congruence|by rewrite Hc', Hc|done].
Qed.

(** Releasing what is held, one after the other. *)
Lemma release_all_events l m : release_all ic l m = mouse_events (map release_at_origin l) m.
Proof.
  revert m. induction l as [|b l IH]; intros m; cbn [release_all map mouse_events]; [done|].
  cbv [mbind CallM_bind]. destruct (mouse_event ic (release_at_origin b) m) as [[[r m'] tr]|]; [|done].
  by rewrite IH.
Qed.

Lemma release_every l : held_ok l -> fold_left held_after (map release_at_origin l) l = [].
Proof.
  induction l as [|b l IH]; intros Hl; [done|]. cbn [map fold_left].
  destruct Hl as [[Hb Hn]%NoDup_cons [Hc Hcs]%Forall_cons_iff].
  unfold held_after at 2. cbn [ev_kind ev_button release_at_origin]. rewrite Hc.
  unfold retain_not. rewrite filter_cons_False by (intros []; done).
  fold (retain_not b l). rewrite retain_not_absent by done. by apply IH.
Qed.

(** C26: Whatever the mouse does over a terminal with cells, the events are handled and change
    nothing else. The buttons that are held are those that were pressed and not released since,
    the last one pressed at the end; none is held twice, and no wheel is held. When the
    terminal loses the focus, all are released. *)
Theorem mouse_buttons_held evs m : mouse_ready m -> held_ok (current_mouse_buttons m) ->
  Forall (fun ev => 0 <= ev_y ev) evs ->
  exists m' tr, mouse_events evs m = Some (tt, m', tr) /\ term m' = term m /\
    current_mouse_buttons m' = fold_left held_after evs (current_mouse_buttons m) /\
    held_ok (current_mouse_buttons m') /\
    (focused (term m) = true -> exists m'' tr', mouse_focus_changed ic false m' = Some (tt, m'', tr') /\
       current_mouse_buttons m'' = []).
Proof.
  intros Hm Hl Hys. pose proof (returns_mouse_events evs m Hm Hys Hl) as Hrun.
  apply yields_exists in Hrun as ([[[] m'] tr] & Hr & Ht & Hc & Hok).
  exists m', tr. split_and!; try done. intros Hf.
  assert (Hrel : returns (mouse_focus_changed ic false) m' (fun _ m'' _ => current_mouse_buttons m'' = [])).
  { unfold mouse_focus_changed. step. unfold id. rewrite Ht, Hf. cbn [Bool.eqb].
    eapply returns_bind.
    { unfold returns. rewrite release_all_events. apply returns_mouse_events; [| |done].
      - unfold mouse_ready. by rewrite Ht.
      - apply Forall_forall. by intros e (b & <- & _)%list_elem_of_In%in_map_iff. }
    intros [] m2 tr2 (Ht2 & Hc2 & _). rewrite release_every in Hc2 by done.
    unfold on_term, focus_changed, returns. cbv [mbind CallM_bind gets]. unfold id.
    rewrite Ht2, Ht, Hf. cbn [Bool.eqb]. by destruct (focus_tracking (term m)). }
  apply yields_exists in Hrel as ([[[] m''] tr'] & Hr' & Hn). by exists m'', tr'.
Qed.

(** ** What the application reads *)

(** The first step of an operation, which reads the state, and one that changes it. *)
Ltac read_state m := etransitivity; [by apply (silent_run (gets id) _ m m)|]; unfold id; cbv beta.
Ltac change_state := etransitivity; [apply modify_run|]; cbv beta.

Definition with_modifiers (code mods : Z) : Z :=
  let code := if has mods Modifiers_SHIFT then code + 4 else code in
  let code := if has mods Modifiers_ALT then code + 8 else code in
  if has mods Modifiers_CTRL then code + 16 else code.

(** The button an event is about: its own, or the last one that is held. *)
Definition event_button l ev : HostButton :=
  match ev_button ev with Host_None => default Host_None (last l) | b => b end.

Lemma report_button_number ev l : mouse_report_button_number ev l
  = (with_modifiers (button_code (event_button l ev)) (ev_modifiers ev), event_button l ev).
Proof. done. Qed.

(** How the report of a press, a release and a move reads. *)
Definition press_of b : option MouseButton :=
  match b with
  | Host_Left => Some Button1Press | Host_Middle => Some Button2Press | Host_Right => Some Button3Press
  | Host_WheelUp _ => Some Button4Press | Host_WheelDown _ => Some Button5Press
  | Host_WheelLeft _ => Some Button6Press | Host_WheelRight _ => Some Button7Press
  | Host_None => None
  end.

Definition release_of b : option MouseButton :=
  match b with
  | Host_Left => Some Button1Release | Host_Middle => Some Button2Release
  | Host_Right => Some Button3Release | _ => None
  end.

Definition drag_of b : option MouseButton :=
  match b with
  | Host_Left => Some Button1Drag | Host_Middle => Some Button2Drag | Host_Right => Some Button3Drag
  | Host_None => Some MouseButton_None | _ => None
  end.

Definition clamped m ev : MouseEvent := default ev (clamp_event (term m) ev).

(** The event is one that is reported, and as [b]. *)
Definition reported_as m ev (b : MouseButton) : Prop :=
  match ev_kind ev with
  | Kind_Press => press_of (ev_button ev) = Some b
  | Kind_Release => current_mouse_buttons m <> [] /\ release_of (ev_button ev) = Some b
  | Kind_Move =>
      (any_event_mouse (term m) = true \/
       button_event_mouse (term m) = true /\ current_mouse_buttons m <> []) /\
      mouse_moved (last_mouse_move m) MouseEncoding_SGR (clamped m ev) = true /\
      drag_of (event_button (current_mouse_buttons m) ev) = Some b
  end.

Lemma press_code b button mods : press_of b = Some button -> Modifiers_wf mods ->
  0 <= with_modifiers (button_code b) mods <= 255 /\
  mouse_button "M"%ch (Z.land (with_modifiers (button_code b) mods) 99) = Some button /\
  mouse_modifiers (with_modifiers (button_code b) mods) = mods.
Proof.
  intros Hb Hm. unfold Modifiers_wf in Hm. rewrite !elem_of_cons in Hm.
  repeat destruct Hm as [->|Hm]; [..|by apply not_elem_of_nil in Hm];
    destruct b; cbn in Hb; simplify_eq; vm_compute; split_and!; reflexivity || discriminate.
Qed.

Lemma release_code b button mods : release_of b = Some button -> Modifiers_wf mods ->
  0 <= with_modifiers (button_code b) mods <= 255 /\
  mouse_button "m"%ch (Z.land (with_modifiers (button_code b) mods) 99) = Some button /\
  mouse_modifiers (with_modifiers (button_code b) mods) = mods.
Proof.
  intros Hb Hm. unfold Modifiers_wf in Hm. rewrite !elem_of_cons in Hm.
  repeat destruct Hm as [->|Hm]; [..|by apply not_elem_of_nil in Hm];
    destruct b; cbn in Hb; simplify_eq; vm_compute; split_and!; reflexivity || discriminate.
Qed.

Lemma drag_code b button mods : drag_of b = Some button -> Modifiers_wf mods ->
  0 <= 32 + with_modifiers (button_code b) mods <= 255 /\
  mouse_button "M"%ch (Z.land (32 + with_modifiers (button_code b) mods) 99) = Some button /\
  mouse_modifiers (32 + with_modifiers (button_code b) mods) = mods.
Proof.
  intros Hb Hm. unfold Modifiers_wf in Hm. rewrite !elem_of_cons in Hm.
  repeat destruct Hm as [->|Hm]; [..|by apply not_elem_of_nil in Hm];
    destruct b; cbn in Hb; simplify_eq; vm_compute; split_and!; reflexivity || discriminate.
Qed.

(** A report is written as it reads. *)
Definition writes_report m ev (c : M (result unit unit)) code final : Prop :=
  exists m', c m = Some (Ok tt, m', [Write (sgr_report code (Z.of_nat (ev_x ev) + 1) (ev_y ev + 1) [final])]).

Lemma report_sgr ev code final x10 m : mouse_encoding (term m) = MouseEncoding_SGR ->
  report ev code [final] x10 m
    = Some (Ok tt, m, [Write (sgr_report code (Z.of_nat (ev_x ev) + 1) (ev_y ev + 1) [final])]).
Proof. intros He. unfold report. read_state m. by rewrite He. Qed.

Lemma sends_press ev m code : mouse_encoding (term m) = MouseEncoding_SGR ->
  is_mouse_grabbed (term m) = true -> ev_kind ev = Kind_Press -> is_Some (press_of (ev_button ev)) ->
  code = with_modifiers (button_code (ev_button ev)) (ev_modifiers ev) ->
  writes_report m ev (match ev_button ev with
    | Host_WheelUp _ | Host_WheelDown _ | Host_WheelLeft _ | Host_WheelRight _ => mouse_wheel ic ev
    | Host_None => mret (Ok tt)
    | _ => mouse_button_press ev end) code "M"%ch.
Proof.
  intros He Hg Hk [b Hb] ->. unfold writes_report.
  assert (Hbtn : event_button (current_mouse_buttons m) ev = ev_button ev)
    by (unfold event_button; by destruct (ev_button ev)).
  assert (Hw : exists m', mouse_wheel ic ev m = Some (Ok tt, m', [Write (sgr_report
    (with_modifiers (button_code (ev_button ev)) (ev_modifiers ev)) (Z.of_nat (ev_x ev) + 1) (ev_y ev + 1) (bs "M"))])).
  { exists m. unfold mouse_wheel. read_state m. rewrite report_button_number, Hbtn, Hg.
    by apply report_sgr. }
  assert (Hp : exists m', mouse_button_press ev m = Some (Ok tt, m', [Write (sgr_report
    (with_modifiers (button_code (ev_button ev)) (ev_modifiers ev)) (Z.of_nat (ev_x ev) + 1) (ev_y ev + 1) (bs "M"))])).
  { eexists. unfold mouse_button_press. read_state m. rewrite report_button_number, Hbtn, Hg.
    change_state. by apply report_sgr. }
  destruct (ev_button ev); done.
Qed.

Lemma mouse_event_sends m ev (b : MouseButton) : mouse_ready m -> 0 <= ev_y ev ->
  mouse_encoding (term m) = MouseEncoding_SGR -> is_mouse_grabbed (term m) = true ->
  Modifiers_wf (ev_modifiers ev) -> reported_as m ev b ->
  exists code final, writes_report m (clamped m ev) (mouse_event ic ev) code final /\
    (final = "M"%ch \/ final = "m"%ch) /\ 0 <= code <= 255 /\
    mouse_button final (Z.land code 99) = Some b /\ mouse_modifiers code = ev_modifiers ev.
Proof.
  intros Hm Hy He Hg Hmods Hrep.
  destruct (clamp_event_ready ev m Hm Hy) as (ev' & Hclamp & Hk & Hb & Hmo & _).
  unfold reported_as, clamped in *. rewrite Hclamp in *. change (default ev (Some ev')) with ev' in *.
  assert (Hstart : forall code final, writes_report m ev' (match ev_kind ev', ev_button ev' with
      | Kind_Press, (Host_WheelUp _ | Host_WheelDown _ | Host_WheelLeft _ | Host_WheelRight _) =>
          mouse_wheel ic ev'
      | (Kind_Press | Kind_Release), Host_None => mret (Ok tt)
      | Kind_Press, _ => mouse_button_press ev'
      | Kind_Release, _ => mouse_button_release ev'
      | Kind_Move, _ => mouse_move ev' end) code final -> writes_report m ev' (mouse_event ic ev) code final).
  { intros code final [m' Hrun]. exists m'. unfold mouse_event. read_state m. rewrite Hclamp.
    etransitivity; [by apply (silent_run (lift _) _ m ev')|]. exact Hrun. }
  rewrite <- Hmo in *. rewrite <- Hk, <- Hb in Hrep. destruct (ev_kind ev') eqn:Ek.
  - destruct (press_code _ _ _ Hrep Hmods) as (Hc & Hbtn & Hmod). eexists _, "M"%ch.
    split; [|split; [by left|split; [exact Hc|split; [exact Hbtn|exact Hmod]]]].
    apply Hstart. pose proof (sends_press ev' m _ He Hg Ek ltac:(by eexists) eq_refl) as Hs.
    by destruct (ev_button ev').
  - destruct Hrep as [Hheld Hrep]. destruct (release_code _ _ _ Hrep Hmods) as (Hc & Hbtn & Hmod).
    eexists _, "m"%ch. split; [|split; [by right|split; [exact Hc|split; [exact Hbtn|exact Hmod]]]].
    apply Hstart. assert (Hr : writes_report m ev' (mouse_button_release ev')
      (with_modifiers (button_code (ev_button ev')) (ev_modifiers ev')) "m"%ch).
    { eexists. unfold mouse_button_release. read_state m.
      rewrite report_button_number, bool_decide_eq_false_2 by done.
      replace (event_button (current_mouse_buttons m) ev') with (ev_button ev')
        by (unfold event_button; by destruct (ev_button ev')).
      change_state. rewrite Hg. by apply report_sgr. }
    by destruct (ev_button ev').
  - destruct Hrep as (Hwhen & Hmoved & Hdrag).
    replace (event_button (current_mouse_buttons m) ev) with (event_button (current_mouse_buttons m) ev')
      in Hdrag by (unfold event_button; by rewrite Hb).
    destruct (drag_code _ _ _ Hdrag Hmods) as (Hc & Hbtn & Hmod). eexists _, "M"%ch.
    split; [|split; [by left|split; [exact Hc|split; [exact Hbtn|exact Hmod]]]].
    apply Hstart. assert (Hmv : writes_report m ev' (mouse_move ev')
      (32 + with_modifiers (button_code (event_button (current_mouse_buttons m) ev')) (ev_modifiers ev')) "M"%ch).
    { eexists. unfold mouse_move. read_state m.
      rewrite He, Hmoved, andb_true_r, report_button_number.
      assert (Hlast : last_mouse_move m <> Some ev').
      { intros E. rewrite E in Hmoved. cbn in Hmoved. by rewrite Nat.eqb_refl, Z.eqb_refl in Hmoved. }
      rewrite (bool_decide_eq_false_2 (last_mouse_move m = Some ev')) by done.
      destruct Hwhen as [->|[-> Hheld]]; cbn [orb andb]; rewrite ?orb_true_r, ?orb_true_l.
      - change_state. by apply report_sgr.
      - rewrite (bool_decide_eq_false_2 (current_mouse_buttons m = [])) by done.
        rewrite orb_true_r. change_state. by apply report_sgr. }
    by destruct (ev_button ev').
Qed.

Context {UP : Utf8Parse} {UL : Utf8ParseLaws UP}.

(** C22: In the SGR encoding, the report of a press, a release or a move is one write, and an
    application that reads it with the parser finds the button, the modifiers and the cell of
    the event, the cell counted from 1 and clamped to the screen. *)
Theorem mouse_reports_read_back m ev (b : MouseButton) p : mouse_ready m ->
  Z.of_nat (physical_cols (screen (term m))) <= u16_max ->
  Z.of_nat (physical_rows (screen (term m))) <= u16_max ->
  mouse_encoding (term m) = MouseEncoding_SGR -> is_mouse_grabbed (term m) = true ->
  0 <= ev_y ev -> Modifiers_wf (ev_modifiers ev) -> reported_as m ev b ->
  vt_wf p -> is_ground p = true ->
  exists m' bytes p' ps final,
    mouse_event ic ev m = Some (Ok tt, m', [Write bytes]) /\
    parse bytes p = Some (p', [VtCsiDispatch ps false final]) /\
    csi_parse ps false final = Some [CSI_Mouse (SGR1006
      (Z.min (Z.of_nat (ev_x ev)) (Z.of_nat (physical_cols (screen (term m))) - 1) + 1)
      (Z.min (ev_y ev) (Z.of_nat (physical_rows (screen (term m))) - 1) + 1) b (ev_modifiers ev))] /\
    vt_wf p' /\ is_ground p' = true.
Proof.
  intros Hm Hcols Hrows He Hg Hy Hmods Hrep W G. pose proof Hm as [Hc0 Hr0]. unfold u16_max in *.
  destruct (mouse_event_sends m ev b Hm Hy He Hg Hmods Hrep)
    as (code & final & [m' Hrun] & Hf & Hc & Hb & Hmod).
  destruct (clamp_event_ready ev m Hm Hy) as (ev' & Hclamp & _ & _ & _ & Hx' & Hy' & Hy0).
  unfold clamped in Hrun. rewrite Hclamp in Hrun. change (default ev (Some ev')) with ev' in Hrun.
  destruct (sgr_reads_back code (Z.of_nat (ev_x ev') + 1) (ev_y ev' + 1) final b (ev_modifiers ev))
    as (priv & ps & inter & fin & E & Hok & Hp); try done; [unfold u16_max; lia..|].
  destruct (csi_sequence_ok p priv ps inter fin W G Hok) as (p' & Ep & W' & G').
  exists m', (sgr_report code (Z.of_nat (ev_x ev') + 1) (ev_y ev' + 1) [final]), p',
    (map P priv ++ ps ++ map P inter), fin.
  split; [done|]. split; [|by rewrite <- Hx', <- Hy'].
  rewrite <- Ep. f_equal. unfold csi_bytes, sgr_report. by rewrite <- E.
Qed.

End Props.

(** ** Witnesses *)

#[local] Existing Instances demo_tables demo_bitset demo_bitset_laws demo_rules TermBytes.demo_segmentation
  demo_normal.

Definition demo_input : InputConfiguration := mkInputConfiguration false 3.

Definition demo_mouse : MouseTerm :=
  mkMouseTerm
    (set_mouse_encoding MouseEncoding_SGR (set_button_event_mouse true (set_focused true
      (TermState_new demo_size demo_configuration [] []))))
    [] None.

Definition demo_event (k : MouseEventKind) (x : nat) (y : Z) (b : HostButton) (mods : Z) : MouseEvent :=
  mkMouseEvent k x y 0 0 b mods.

Lemma demo_mouse_ready : mouse_ready demo_mouse.
Proof. by vm_compute; split; lia. Qed.

(** Two buttons pressed, the second moved and released. *)
Definition demo_events : list MouseEvent :=
  [demo_event Kind_Press 1 1 Host_Left 0; demo_event Kind_Press 1 1 Host_Right 0;
   demo_event Kind_Move 20 2 Host_None 0; demo_event Kind_Release 20 2 Host_Right 0;
   demo_event Kind_Press 1 1 (Host_WheelUp 1) 0].

Lemma mouse_buttons_held_witness : exists m' tr,
  mouse_events demo_input demo_events demo_mouse = Some (tt, m', tr) /\
  current_mouse_buttons m' = [Host_Left].
Proof.
  destruct (mouse_buttons_held demo_input demo_events demo_mouse demo_mouse_ready)
    as (m' & tr & Hr & _ & Hc & _).
  - split; constructor.
  - unfold demo_events. repeat (constructor; [cbn; lia|]). constructor.
  - exists m', tr. split; [exact Hr|]. rewrite Hc. vm_compute. reflexivity.
Defined.

Lemma mouse_reports_read_back_witness : exists m' bytes p' ps final,
  mouse_event demo_input (demo_event Kind_Press 20 1 Host_Middle 10) demo_mouse
    = Some (Ok tt, m', [Write bytes]) /\
  parse bytes vt_new = Some (p', [VtCsiDispatch ps false final]) /\
  csi_parse ps false final = Some [CSI_Mouse (SGR1006 8 2 Button2Press 10)].
Proof.
  destruct (mouse_reports_read_back demo_input demo_mouse (demo_event Kind_Press 20 1 Host_Middle 10)
    Button2Press vt_new demo_mouse_ready) as (m' & bytes & p' & ps & final & E1 & E2 & E3 & _).
  - vm_compute. discriminate.
  - vm_compute. discriminate.
  - vm_compute. reflexivity.
  - vm_compute. reflexivity.
  - vm_compute. discriminate.
  - unfold Modifiers_wf. cbn [ev_modifiers demo_event]. rewrite !elem_of_cons. tauto.
  - vm_compute. reflexivity.
  - apply vt_new_wf.
  - vm_compute. reflexivity.
  - exists m', bytes, p', ps, final. split; [exact E1|]. split; [exact E2|exact E3].
Defined.
